(* ===== verification/_CoqProject ===== *)
-Q . S2P
Prelude.v
Addr.v
Mode.v
Arch.v
ArchAarch64.v
Slist.v
Mpool.v
Mm.v
MmSpec.v
MmMap.v
MmTable.v
MmDefrag.v
MmSplit.v
MmQuery.v
PageTables.v
MmUndo.v
MemoryManager.v
Interrupts.v
Dlog.v
Stage2Modes.v
Access.v
Memory.v
Memiter.v
CInterface.v
Cpio.v
Fdt.v
FdtLoops.v
FdtTree.v
Manifest.v
ManifestSpec.v
FdtHandler.v
FdtHandlerSpec.v
FdtPatch.v
FdtC.v
FdtDump.v
BootFlow.v
Abi.v
DList.v
Spinlock.v
ArchCpu.v
Cpu.v
Vm.v
Spci.v
Hypervisor.v
Load.v
ManifestTests.v
UnitTests.v
LoadRanges.v
Init.v
Api.v
Psci.v
Handler.v
Frames.v
Ownership.v
Sharing.v
Isolation.v
Rollback.v
Touch.v
Switch.v
Machine.v
Mapped.v
Guarded.v
Preempt.v
PsciSpec.v
LoadSpec.v
Boot.v
Start.v
BootDemo.v
HvDemo.v
Guarantees.v
Running.v
Mailboxes.v
Messages.v
Availability.v
Contained.v
System.v
MachineDemo.v
