(* ===== verification/Prelude.v ===== *)
(** * A verification development for HfO2, the Rust core of Hafnium

    Hafnium is a type-1 hypervisor for aarch64: it runs one primary VM, which
    schedules, and several secondary VMs, isolates their memory with stage-2 page
    tables, and lets them share pages and exchange messages through hypercalls.  HfO2
    is its port to Rust ([src/hfo2/src]); it still calls the architecture code in C
    ([src/src/arch/aarch64]), of which the functions it uses are modelled too, and it
    is called by the exception handlers in C and assembly
    ([src/src/arch/aarch64/hypervisor]), which are modelled as well.

    ** Parts of the program and files

    From the bottom up; every file names the functions it translates.

    - [Prelude]: outcomes ([exec]: [Done] or [Panic]), [result], w-bit integers,
      shared lemmas and the hint database [hfo2].
    - [Addr]: [addr.rs], [page.rs], [utils.rs], constants of [types.rs], and the
      rounding and index arithmetic of [mm.rs].
    - [Mode], [Arch], [ArchAarch64]: the [Mode] bits of [mm.rs]; the descriptor
      functions [arch_mm_*] as the class [ArchMM] with the instances [aarch64]
      ([arch/aarch64/mm.c]) and [fake] ([arch/fake/mm.c]); the class [ArchLaws]
      states what page tables need of them, and is proved for aarch64.
    - [Slist], [Mpool]: [slist.rs] over a store of pointers, and the page pools of
      [mpool.rs] with their fallback chains.
    - [Mm], [MmSpec], [MmMap], [MmTable], [MmDefrag], [MmSplit], [MmQuery],
      [PageTables], [MmUndo]: [mm.rs].  [Mm] has the definitions: an entry ([pte]) is a
      word or a table in a page, [MmState] is the pool, the TLB maintenance issued and the invalidation
      switch.  [MmSpec] gives the meaning of a table, a map from addresses to
      attributes, and its well-formedness; the other files prove the operations
      against it, and that a change can be undone without a new page.
    - [MemoryManager]: the hypervisor's own table and the [mm_*] functions.
    - [Stage2Modes]: page tables of VMs as maps from addresses to modes, the level at
      which the code above reasons.
    - [Access]: which loads and stores of the hypervisor its own page table allows.
    - [Abi], [DList], [Spinlock]: [abi.rs] with the C decoder, [list.rs] over a store
      of links, [spinlock.rs] as interleaved CPUs.
    - [ArchCpu], [Interrupts], [Cpu]: the registers and timer of a vCPU, and [cpu.rs].
    - [Vm]: [vm.rs].  [Spci]: [spci.rs] and [spci_architected_message.rs].
    - [Hypervisor], [Api]: [hypervisor.rs] and [api.rs], one definition per function.
      The record [Hypervisor] is the whole state: pool, hypervisor table, CPUs, VMs,
      links of wait entries, and memory as a function from addresses to bytes.
    - [Frames], [Ownership], [Sharing], [Isolation], [Rollback], [HvDemo],
      [Guarantees], [Running], [Mailboxes], [Messages]: the theorems about the
      hypercalls, and a small concrete machine on which they are instantiated.
    - [Psci], [Handler]: [psci_handler.c] with [smc.c]; [handler.c], the access to
      debug registers of [debug_el1.c], and the paths of [exceptions.S] that save and
      restore registers and switch between vCPUs.  A handler is a function on the
      hypervisor, one CPU ([Pcpu]: its registers and current vCPU) and the firmware,
      in a small monad ([handler]) whose outcomes are a value, a panic, or a CPU that
      does not come back.
    - [Touch], [Switch], [Machine], [Guarded]: what each hypercall does to vCPUs; the
      effect of the switch; the machine ([mstep]: an exception of a VM on some CPU, a
      write of a VM, a CPU that starts); the invariant of the machine.
    - [Mapped]: the mailbox pages below 512 GiB stay mapped in the hypervisor and
      belong to no VM, so that messages do not fault.
    - [Availability], [Contained]: total correctness of the hypercalls and of the
      exception handlers.  [returns] and [ends] are outcomes without a panic;
      [call_fine] and [exception_fine] name the arguments that are excluded.
    - [Preempt], [PsciSpec], [MachineDemo]: preemption and resumption of a vCPU, the
      start of a vCPU, and a machine on which they happen.

    The boot path:

    - [Memory], [Memiter], [Cpio]: the byte and string functions of [std.rs] and
      [arch/aarch64/std.c] on memory, the iterators of [memiter.rs], and the search in
      archives of [cpio.rs] against an encoder of the format.
    - [Fdt], [FdtLoops], [FdtTree]: [fdt.rs], the termination of its loops, and device
      trees ([Dt.tree]) with their encoding, which the cursors of [fdt.rs] navigate.
    - [FdtDump], [FdtC], [CInterface]: the listing of a tree ([FdtHeader::dump]); the
      entry points for C code of the device tree, and of pools, page tables and
      iterators.
    - [ManifestTests], [UnitTests]: the unit tests of the Rust code, run on the model.
    - [Manifest], [ManifestSpec]: [manifest.rs], and the manifest as a function of the
      tree.
    - [FdtHandler], [FdtHandlerSpec], [FdtPatch]: [fdt_handler.rs] and the records of
      [boot_params.rs]; ramdisk, CPUs and memory ranges as functions of the tree; the
      blob after patching.
    - [BootFlow]: [boot_flow.rs], the rest of [boot_params.rs] and the two platforms
      [src/boot_flow/linux.c] and [android.c].
    - [Load], [LoadRanges], [LoadSpec]: [load.rs], the carving of memory ranges, and the
      invariant of loading.
    - [Init], [Boot], [Start], [BootDemo]: [init.rs]; the state [one_time_init] leaves;
      the first vCPU that runs; a machine that boots with two VMs.
    - [System]: the machine from boot on.
    - [Dlog]: [dlog.rs].

    ** What the theorems show

    - Memory safety of the allocator: pages are never handed out twice or lost
      ([Mpool]); the pointer structures below it implement lists ([Slist], [DList]).
    - Page tables: [identity_map], [unmap], [get_attrs], [get_mode] and [defrag]
      return, and do exactly what they say to the map of addresses; a table gives all
      its pages back when dropped; translations are the identity; modes survive the
      encoding in descriptors ([PageTables]).  The hypervisor's own address space is
      never writable and executable, and can be taken out of the primary VM's table
      ([MemoryManager]).
    - The system: [Isolation.hv_step] is one hypercall of any vCPU with any
      arguments, or any write of guests to memory.  In every reachable state each
      page has at most one owner and at most one borrower, exclusive access is
      exclusive, all tables are well formed and all pages accounted for, and memory
      no VM had access to stays so ([Guarantees]).  [share_memory], [configure] and
      [spci_share_memory] always return, their roll-backs included, and the theorems
      give their full effect on every branch.
    - The machine: [System.system_isolation] composes all parts.  Whenever
      [one_time_init] returns, in every state reached from there by exceptions of VMs
      on any CPUs with any register contents and any answers of the firmware, the VMs
      stay isolated, the hypervisor's memory is out of their reach, every CPU
      translates with the page table of the VM it runs and has its traps turned on,
      and no vCPU is on two CPUs.  [Guarded.translation_in_force] and
      [Guarantees.memory_isolation] are its parts for any sound state to start from.
      The premise [System.boots] on the memory ranges of the device tree (disjoint,
      apart from the hypervisor) is what the code trusts the boot loader for.
    - Availability: from the same boot on, no exception of a secondary VM panics the
      hypervisor or makes it fault ([System.secondary_contained]), and every hypercall of
      any VM returns, however few pages are left in the pool
      ([System.hypercalls_return]).  [Availability.call_fine] names the arguments for
      which the code is known to panic or fault or is undefined, which are excluded: a VM
      id of zero, the wake-up of a VM that does not exist, waiting for the VM with the
      last id, memory above 512 GiB or in use by the hypervisor itself, mailbox pages
      above 512 GiB, and memory-sharing messages of no valid type or of more than 510
      bytes, of which 8 times as many are copied ([Messages.architected_copy_overruns]).
      The premise [System.boots_tidy] is that CPU ids are below [MAX_CPUS] and that no log
      buffer, which nothing initialises, seems to be full.
    - Context switch: an interrupt and [HF_VCPU_RUN] always end on the right vCPU with
      all its registers as they were saved ([Preempt]); [PSCI_CPU_ON] of a secondary
      VM on every branch ([PsciSpec]).
    - Scheduling: no vCPU is ever on two CPUs, and only runnable vCPUs are handed out
      ([Running]).  Locks exclude each other and do not deadlock in the orders the
      code uses ([Spinlock]).  Interrupt accounting is exact ([Interrupts]).
    - Messages: delivery of whole messages into empty mailboxes only, and consistent
      waiter and ready lists ([Messages], [Mailboxes]).
    - Boot: when [one_time_init] has returned, the VMs it loaded are isolated and the
      pages of the heap all accounted for ([Boot]), the vCPUs are off or confined to
      their own page tables ([System]), and the boot CPU runs the kernel of the
      primary VM ([Start.boot_starts_primary]).
    - Parsers: on encoded inputs they return what the encoder was given ([Cpio],
      [FdtTree], [ManifestSpec], [FdtHandlerSpec]); on any bytes they terminate
      ([FdtLoops], [FdtHandlerSpec]), stay in bounds ([Cpio]) and return well-formed
      values ([ManifestSpec]).  Patching the tree yields the encoding of the changed
      tree and writes nothing else, or panics because an 8-byte value is not aligned
      ([FdtPatch]); the listing shows all of it ([FdtDump]).  Memory for secondary VMs is
      carved out of the ranges exactly, and exactly what was taken is reserved
      ([LoadRanges]).
    - The log's ring buffer holds the last bytes written ([Dlog]).
    - The unit tests of the repository pass on the model: those of the manifest for
      every compiler of device trees that encodes what its sources describe
      ([ManifestTests]), the others by evaluation ([UnitTests]).

    ** Conventions, bounds and fuel

    [Cargo.toml] sets [panic = "abort"], so a panic is the value [Panic]; the
    [Makefile] builds releases only, so integers wrap ([wadd], [wsub], [wmul]) and
    [debug_assert!] is dropped.  Undefined behaviour the code does not exclude
    (invalid enumeration values, a write to unmapped memory) is [Panic] as well.  So is
    a data abort of the hypervisor: its handler prints and panics.  The accesses to
    mailboxes are checked against the hypervisor's page table ([Access]), those to memory
    the code has mapped before (a device tree, memory that changes hands) against the end
    of its address space, where mapping reports success without effect, and those to
    words of a device tree for their alignment, as [SCTLR_EL2.A] is set; the memory of the
    image itself, [MESSAGE_BUFFER] included, is taken to be mapped and aligned as the
    linker lays it out.  The fields of the packed header of an archive have no alignment.
    Recursion on page tables is on the level, at most 3.  Definitions with fuel are the walks over
    store-based lists (fuel: the nodes of the store), the loops over bytes of [Memiter]
    and [Cpio] (the bytes left), and [while_loop] of this file, which the parsers of the
    device tree use with the length of the slice they read.  A loop out of fuel is
    [Panic]; [halts] and [while_loop_fuel] show that this never happens, because each
    iteration of the code shortens the slice, and that more fuel changes no result.
    The loop of [PSCI_CPU_ON] that waits for the firmware has a bound ([rounds], any
    number) after which the CPU is given up: the theorems hold for every bound, and no
    theorem says that the firmware answers.  A CPU that spins or that the firmware
    turns off leaves the other CPUs running on the state it left.
    An exception, with all it calls, is one atomic step: the locks it takes are shown to exclude and not
    to deadlock in [Spinlock], where CPUs interleave at each access to a lock word
    (sequentially consistent; the code's orderings are acquire and release).

    ** Parameters

    [ReduceCrate] stands for the external crate [reduce], [Layout] for the linker's
    symbols, [MESSAGE_BUFFER] for the address of a static; the physical address range
    ([Aarch64.pa_bits]) is read from the hardware.  [el3] is the firmware, [undef] the
    contents of memory the C code returns without initialising it, [cpu_entry] and
    [cpu_addr] addresses passed to the firmware.  [Init.Machine] collects what the image
    and the machine provide at boot; its field [m_after_trailer] is the bytes of the
    program behind a string constant that is not terminated (see [Cpio]).  [StaleLogs] is
    what the memory of the VMs' log buffers holds before boot.  [dtc] is the
    compiler of device trees that the tests of the manifest run.

    ** Not modelled

    Exceptions taken in EL2 itself (they print and panic), the effect of TLB and cache
    maintenance (the TLB flushes of a switch are recorded), the registers of the CPU
    that [cpu_init] writes, the text of log and panic messages ([panic.rs], the [dump]
    functions of page tables), casts between pointers, and the registers of the test
    architecture.

    ** Plan

    Open: interleaving of hypercalls at lock granularity; exceptions of the primary VM
    other than hypercalls, shown to keep isolation but not to return (its [SMC]s go on
    to the firmware). *)
From Stdlib Require Import ZArith Lia Bool Permutation.
From stdpp Require Export base tactics numbers list relations.

#[global] Open Scope Z_scope.

(** ** Outcomes: Rust panics as values

    [panic = "abort"] in [Cargo.toml]: a panic stops the hypervisor, no Rust
    code observes it.  A model function returns [Panic] where the code panics
    (failed assertion, [unwrap] of an error, slice index out of range) and
    [Done] otherwise.  Release builds (the only ones the [Makefile] makes) wrap
    on integer overflow and drop [debug_assert!]; so do the definitions. *)
Inductive exec (A : Type) : Type :=
| Done (a : A)
| Panic.
Arguments Done {A} a.
Arguments Panic {A}.

#[export] Instance exec_ret : MRet exec := λ A a, Done a.
#[export] Instance exec_bind : MBind exec := λ A B k m,
  match m with Done a => k a | Panic => Panic end.

(** Rust's [Result<T, E>]. *)
Inductive result (A E : Type) : Type :=
| Ok (a : A)
| Err (e : E).
Arguments Ok {A E} a.
Arguments Err {A E} e.

#[export] Instance exec_eq_dec {A} `{EqDecision A} : EqDecision (exec A).
Proof. solve_decision. Defined.
#[export] Instance result_eq_dec {A E} `{EqDecision A} `{EqDecision E} :
  EqDecision (result A E).
Proof. solve_decision. Defined.

(** [Result::is_ok]. *)
Definition is_ok {A E} (r : result A E) : bool :=
  match r with Ok _ => true | Err _ => false end.

(** [Result::unwrap] and [Option::unwrap]: panic on the error value. *)
Definition unwrap_res {A E} (r : result A E) : exec A :=
  match r with Ok a => Done a | Err _ => Panic end.
Definition unwrap_opt {A} (o : option A) : exec A :=
  match o with Some a => Done a | None => Panic end.

(** [assert!(b)] before [k]. *)
Definition assert_then {A} (b : bool) (k : exec A) : exec A := if b then k else Panic.
Lemma assert_then_Done {A} b (k : exec A) r : assert_then b k = Done r → b = true ∧ k = Done r.
Proof. by destruct b. Qed.

(** [a[i] = v], which panics out of range. *)
Definition array_set {X} (a : list X) (i : Z) (v : X) : exec (list X) :=
  assert_then (i <? Z.of_nat (length a)) (Done (<[Z.to_nat i := v]> a)).
Lemma array_set_ok {X} (a : list X) i v : 0 ≤ i < Z.of_nat (length a) → array_set a i v = Done (<[Z.to_nat i := v]> a).
Proof. intros Hi. unfold array_set, assert_then. by rewrite (proj2 (Z.ltb_lt _ _)) by lia. Qed.

Lemma bind_done {A B} (a : A) (k : A → exec B) : (Done a ≫= k) = k a.
Proof. done. Qed.

Lemma bind_Done_inv {A B} (m : exec A) (k : A → exec B) b :
  m ≫= k = Done b → ∃ a, m = Done a ∧ k a = Done b.
Proof. destruct m as [a|]; [by exists a | done]. Qed.

(** A decidable statement about concrete values. *)
Ltac by_computation := apply (bool_decide_unpack _); vm_compute; exact I.
(** Runs through the binds and branches of a definition that has returned. *)
Ltac unbind H :=
  repeat match type of H with
  | _ ≫= _ = Done _ =>
      let y := fresh "y" in let E := fresh "E" in apply bind_Done_inv in H as (y & E & H); cbv zeta in H
  | assert_then _ _ = _ => unfold assert_then in H
  | (let '_ := ?y in _) = _ => let E := fresh "E" in destruct y eqn:E
  | (if ?b then _ else _) = _ => destruct b
  | match ?y with _ => _ end = _ => let E := fresh "E" in destruct y eqn:E
  end.

(** ** Loops

    [while_loop] runs the body of a loop until it leaves with a result ([inr]).  A
    loop whose body decreases a measure needs no more fuel than that, and its result
    does not depend on the fuel. *)
Fixpoint while_loop {S R} (step : S → exec (S + R)) (fuel : nat) (s : S) : exec R :=
  match fuel with
  | O => Panic
  | Datatypes.S fuel =>
      r ← step s;
      match r with
      | inl s' => while_loop step fuel s'
      | inr r => Done r
      end
  end.

(** The loop leaves with [r] after some rounds. *)
Inductive runs {S R} (step : S → exec (S + R)) : S → R → Prop :=
| runs_exit s r : step s = Done (inr r) → runs step s r
| runs_next s s' r : step s = Done (inl s') → runs step s' r → runs step s r.

Definition decreases {S R} (step : S → exec (S + R)) (m : S → nat) : Prop :=
  ∀ s s', step s = Done (inl s') → (m s' < m s)%nat.

Lemma while_loop_runs {S R} (step : S → exec (S + R)) m fuel s r :
  decreases step m → runs step s r → (m s < fuel)%nat → while_loop step fuel s = Done r.
Proof.
  intros Hm Hr. revert fuel. induction Hr as [s r Hs|s s' r Hs Hr IH]; intros [|fuel] Hf; try lia; cbn [while_loop]; rewrite Hs.
  - done.
  - apply IH. specialize (Hm _ _ Hs). lia.
Qed.

(** The result does not depend on the fuel: the loop terminates. *)
Lemma while_loop_fuel {S R} (step : S → exec (S + R)) m fuel1 fuel2 s :
  decreases step m → (m s < fuel1)%nat → (m s < fuel2)%nat → while_loop step fuel1 s = while_loop step fuel2 s.
Proof.
  intros Hm. revert fuel2 s. induction fuel1 as [|fuel1 IH]; intros [|fuel2] s H1 H2; try lia; cbn [while_loop].
  destruct (step s) as [[s'|r]|] eqn:Hs; [|done..]. specialize (Hm _ _ Hs). apply IH; lia.
Qed.

(** No state has an infinite run. *)
Definition halts {S R} (step : S → exec (S + R)) : Prop := well_founded (λ s' s, step s = Done (inl s')).
Lemma decreases_halts {S R} (step : S → exec (S + R)) m : decreases step m → halts step.
Proof. intros Hm s. induction s as [s IH] using (induction_ltof1 _ m). constructor. intros s' Hs. apply IH, Hm, Hs. Qed.

(** A loop that returns did so after some rounds. *)
Lemma while_loop_inv {S R} (step : S → exec (S + R)) fuel s r : while_loop step fuel s = Done r → runs step s r.
Proof.
  revert s. induction fuel as [|fuel IH]; intros s; cbn [while_loop]; [done|].
  destruct (step s) as [[s'|r']|] eqn:Hs; cbn; [|intros [= ->]; by apply runs_exit|done].
  intros H. eapply runs_next; eauto.
Qed.

(** ** Machine integers

    A [w]-bit unsigned integer is a [Z] in [[0, 2^w)]; each operation that can
    leave the range is followed by [wrap w]. *)
Definition wrap (w z : Z) : Z := z mod 2 ^ w.

(** [usize]/[u64] arithmetic of a 64-bit release build. *)
Definition wadd (a b : Z) : Z := wrap 64 (a + b).
Definition wsub (a b : Z) : Z := wrap 64 (a - b).
Definition wmul (a b : Z) : Z := wrap 64 (a * b).
Definition wshl (a n : Z) : Z := wrap 64 (Z.shiftl a n).
(** [!a] on [u64]. *)
Definition wnot (a : Z) : Z := 2 ^ 64 - 1 - a.
(** [!a] on [u32]. *)
Definition wnot32 (a : Z) : Z := 2 ^ 32 - 1 - a.

(** The value is representable in [w] bits. *)
Definition in_u (w z : Z) : Prop := 0 ≤ z < 2 ^ w.

Declare Scope hfo2_scope.
Delimit Scope hfo2_scope with hfo2.
Infix "+w" := wadd (at level 50, left associativity) : hfo2_scope.
Infix "-w" := wsub (at level 50, left associativity) : hfo2_scope.
Infix "*w" := wmul (at level 40, left associativity) : hfo2_scope.
#[global] Open Scope hfo2_scope.

Create HintDb hfo2.

Lemma wrap_small w z : in_u w z → wrap w z = z.
Proof. intros [??]. by apply Z.mod_small. Qed.

Lemma wadd_small a b : 0 ≤ a + b < 2 ^ 64 → a +w b = a + b.
Proof. apply wrap_small. Qed.
Lemma wsub_small a b : 0 ≤ a - b < 2 ^ 64 → a -w b = a - b.
Proof. apply wrap_small. Qed.
Lemma wmul_small a b : 0 ≤ a * b < 2 ^ 64 → a *w b = a * b.
Proof. apply wrap_small. Qed.

Lemma wrap_range w z : 0 ≤ w → in_u w (wrap w z).
Proof. intros. apply Z.mod_pos_bound. lia. Qed.
#[export] Hint Resolve wrap_range : hfo2.

(** ** Powers of two, masks and alignment *)

(** [land] with a power-of-two mask is a remainder. *)
Lemma land_mask a k : 0 ≤ k → Z.land a (2 ^ k - 1) = a mod 2 ^ k.
Proof.
  intros. rewrite <-Z.land_ones by done. by rewrite Z.ones_equiv.
Qed.

(** [a & !(2^k - 1)]: round down to a multiple of [2^k]. *)
Lemma land_wnot_mask a k :
  0 ≤ k ≤ 64 → in_u 64 a → Z.land a (wnot (2 ^ k - 1)) = a - a mod 2 ^ k.
Proof.
  intros Hk [Ha1 Ha2]. unfold wnot.
  assert (Hm : 2 ^ 64 - 1 - (2 ^ k - 1) = Z.shiftl (Z.ones (64 - k)) k).
  { rewrite Z.shiftl_mul_pow2, Z.ones_equiv by lia.
    replace (2 ^ 64) with (2 ^ (64 - k) * 2 ^ k) by (rewrite <-Z.pow_add_r by lia; f_equal; lia).
    lia. }
  rewrite Hm. trans (Z.shiftl (Z.shiftr a k) k).
  - apply Z.bits_inj'. intros n Hn.
    rewrite Z.land_spec, !Z.shiftl_spec by lia.
    destruct (decide (n < k)).
    { rewrite !(Z.testbit_neg_r _ (n - k)) by lia. by rewrite andb_false_r. }
    rewrite Z.shiftr_spec by lia. replace (n - k + k) with n by lia.
    destruct (decide (n < 64)).
    { rewrite Z.ones_spec_low by lia. by rewrite andb_true_r. }
    rewrite Z.ones_spec_high by lia. rewrite andb_false_r. symmetry.
    rewrite <-(Z.mod_small a (2 ^ 64)) by lia. apply Z.mod_pow2_bits_high. lia.
  - rewrite Z.shiftl_mul_pow2, Z.shiftr_div_pow2 by lia.
    pose proof (Z.div_mod a (2 ^ k) ltac:(lia)). lia.
Qed.

(** [a] is a multiple of [b]. *)
Definition aligned (b a : Z) : Prop := a mod b = 0.

Lemma aligned_0 b : aligned b 0.
Proof. apply Zmod_0_l. Qed.

Lemma aligned_add b x y : aligned b x → aligned b y → aligned b (x + y).
Proof. unfold aligned. intros Hx Hy. by rewrite Zplus_mod, Hx, Hy. Qed.

Lemma aligned_mul b k : aligned b (k * b).
Proof. apply Z_mod_mult. Qed.

Lemma aligned_exists b x : b ≠ 0 → aligned b x → ∃ q, x = q * b.
Proof. intros Hb Hx. exists (x / b). pose proof (Z.div_mod x b Hb). unfold aligned in *. lia. Qed.

#[export] Hint Resolve aligned_0 aligned_add aligned_mul : hfo2.

(** ** Bits *)

(** Bit patterns without a common bit add up. *)
Lemma add_is_lor x y : Z.land x y = 0 → x + y = Z.lor x y.
Proof. intros H. by rewrite Z.add_nocarry_lxor, Z.lxor_lor. Qed.

(** Testing one flag with a mask. *)
Lemma land_pow2_eqb x k : 0 ≤ k → (Z.land x (2 ^ k) =? 0) = negb (Z.testbit x k).
Proof.
  intros Hk. destruct (Z.testbit x k) eqn:E; simpl.
  - apply Z.eqb_neq. intros H. apply (f_equal (λ z, Z.testbit z k)) in H.
    rewrite Z.land_spec, E, Z.pow2_bits_true, Z.bits_0 in H; done.
  - apply Z.eqb_eq, Z.bits_inj'. intros n Hn. rewrite Z.land_spec, Z.bits_0.
    destruct (decide (n = k)) as [->|]; [by rewrite E|].
    rewrite Z.pow2_bits_false by lia. by rewrite andb_false_r.
Qed.

Lemma testbit_small a w n : in_u w a → 0 ≤ w ≤ n → Z.testbit a n = false.
Proof.
  intros [??] ?. rewrite <-(Z.mod_small a (2 ^ w)) by lia. apply Z.mod_pow2_bits_high. lia.
Qed.

Lemma testbit_aligned a k n : 0 ≤ k → aligned (2 ^ k) a → n < k → Z.testbit a n = false.
Proof.
  intros Hk Ha Hn. destruct (aligned_exists (2 ^ k) a ltac:(lia) Ha) as [q ->].
  destruct (decide (n < 0)); [by apply Z.testbit_neg_r|]. apply Z.mul_pow2_bits_low. lia.
Qed.

(** A number whose bits at and above [w] are clear fits in [w] bits. *)
Lemma in_u_bits w a :
  0 ≤ w → 0 ≤ a → (∀ n, w ≤ n → Z.testbit a n = false) → in_u w a.
Proof.
  intros Hw Ha Hb. assert (a mod 2 ^ w = a) as <-; [|by apply Z.mod_pos_bound; lia].
  apply Z.bits_inj'. intros n Hn. destruct (decide (n < w)).
  - by rewrite Z.mod_pow2_bits_low.
  - rewrite Z.mod_pow2_bits_high by lia. symmetry. apply Hb. lia.
Qed.
Lemma in_u_lor w x y : 0 ≤ w → in_u w x → in_u w y → in_u w (Z.lor x y).
Proof.
  intros Hw Hx Hy. apply in_u_bits; [done| |].
  - apply Z.lor_nonneg. split; [apply Hx|apply Hy].
  - intros n Hn. by rewrite Z.lor_spec, (testbit_small x w), (testbit_small y w) by (done || lia).
Qed.
