(* ===== verification/Addr.v ===== *)
(** * Addresses, pages and rounding

    Models the constants of [page.rs] and [types.rs], the address newtypes of
    [addr.rs], the rounding helpers of [utils.rs], [std.rs]'s [is_aligned], and
    the address arithmetic of the page-table module ([mod addr] and [BlockIter]
    of [mm.rs]), all at 64 bits; then the facts about them the other files use. *)
From S2P Require Import Prelude.

(** ** Constants *)
Definition PAGE_BITS : Z := 12.
Definition PAGE_SIZE : Z := Z.shiftl 1 PAGE_BITS.
Definition PAGE_LEVEL_BITS : Z := 9.
(** [PAGE_SIZE / size_of::<PageTableEntry>()]. *)
Definition PTE_PER_PAGE : nat := Z.to_nat (PAGE_SIZE / 8).

Definition HF_NUM_INTIDS : Z := 64.
Definition HF_INVALID_INTID : Z := 0xffffffff.
Definition HF_VIRTUAL_TIMER_INTID : Z := 3.
Definition HEAP_PAGES : Z := 60.
(** The aarch64 values. *)
Definition MAX_CPUS : Z := 8.
Definition MAX_VMS : Z := 16.
Definition HF_VM_ID_OFFSET : Z := 1.
Definition HF_PRIMARY_VM_ID : Z := HF_VM_ID_OFFSET.
Definition HF_MAILBOX_SIZE : Z := PAGE_SIZE.
Definition HF_SLEEP_INDEFINITE : Z := 0xffffffffffffff.

(** ** The address newtypes of [addr.rs] *)
Record paddr_t := mk_paddr { pa : Z }.
Record ipaddr_t := mk_ipaddr { ipa : Z }.
Record vaddr_t := mk_vaddr { va : Z }.

Definition pa_init (p : Z) : paddr_t := mk_paddr p.
Definition pa_addr (p : paddr_t) : Z := pa p.
Definition pa_add (p : paddr_t) (n : Z) : paddr_t := pa_init (pa_addr p +w n).
Definition pa_difference (start end_ : paddr_t) : Z := pa_addr end_ -w pa_addr start.
Definition ipa_init (i : Z) : ipaddr_t := mk_ipaddr i.
Definition ipa_addr (i : ipaddr_t) : Z := ipa i.
Definition ipa_add (i : ipaddr_t) (n : Z) : ipaddr_t := ipa_init (ipa_addr i +w n).
Definition va_init (v : Z) : vaddr_t := mk_vaddr v.
Definition va_addr (v : vaddr_t) : Z := va v.
Definition va_from_pa (p : paddr_t) : vaddr_t := va_init (pa_addr p).
Definition ipa_from_pa (p : paddr_t) : ipaddr_t := ipa_init (pa_addr p).
Definition pa_from_va (v : vaddr_t) : paddr_t := pa_init (va_addr v).
Definition pa_from_ipa (i : ipaddr_t) : paddr_t := pa_init (ipa_addr i).

(** ** Rounding helpers of [utils.rs] and [std.rs] *)

(** Integer division panics on a zero divisor. *)
Definition div_ceil (a b : Z) : exec Z :=
  if b =? 0 then Panic else Done ((a +w b -w 1) / b).
Definition div_floor (a b : Z) : exec Z :=
  if b =? 0 then Panic else Done (a / b).
Definition round_up (a b : Z) : exec Z := q ← div_ceil a b; Done (q *w b).
Definition round_down (a b : Z) : exec Z := q ← div_floor a b; Done (q *w b).
Definition is_aligned (v a : Z) : bool := Z.land v (a -w 1) =? 0.

(** ** Page-table address arithmetic ([mm.rs], [mod addr]) *)
Definition round_down_to_page (addr : Z) : Z := Z.land addr (wnot (PAGE_SIZE - 1)).
Definition round_up_to_page (addr : Z) : Z := round_down_to_page (addr +w PAGE_SIZE -w 1).

(** [1usize << n]: a release build masks the shift amount to 6 bits. *)
Definition shl1 (n : Z) : Z := wshl 1 (n mod 64).
Definition entry_size (level : nat) : Z := shl1 (PAGE_BITS + Z.of_nat level * PAGE_LEVEL_BITS).
Definition start_of_next_block (addr block_size : Z) : Z :=
  Z.land (addr +w block_size) (wnot (block_size - 1)).
Definition level_end (addr : Z) (level : nat) : Z :=
  let offset := PAGE_BITS + (Z.of_nat level + 1) * PAGE_LEVEL_BITS in
  wshl (Z.shiftr addr offset +w 1) offset.
Definition index (addr : Z) (level : nat) : nat :=
  let v := Z.shiftr addr (PAGE_BITS + Z.of_nat level * PAGE_LEVEL_BITS) in
  Z.to_nat (Z.land v (Z.shiftl 1 PAGE_LEVEL_BITS - 1)).

(** [struct BlockIter] and its [Iterator::next]. *)
Record BlockIter := mkBlockIter { bi_begin : Z; bi_end : Z; bi_block_size : Z }.
Definition BlockIter_new (begin end_ block_size : Z) : BlockIter :=
  mkBlockIter begin end_ block_size.
Definition BlockIter_next (it : BlockIter) : option Z * BlockIter :=
  if bi_end it <=? bi_begin it then (None, it)
  else (Some (bi_begin it),
        mkBlockIter (start_of_next_block (bi_begin it) (bi_block_size it))
                    (bi_end it) (bi_block_size it)).

(** ** Facts *)

(** The number of bits of an offset inside one entry of a level. *)
Definition esh (level : nat) : Z := 12 + 9 * Z.of_nat level.

Lemma PAGE_SIZE_val : PAGE_SIZE = 4096.
Proof. done. Qed.
Lemma PTE_PER_PAGE_val : PTE_PER_PAGE = 512%nat.
Proof. done. Qed.

Lemma entry_size_pow l : (l ≤ 5)%nat → entry_size l = 2 ^ esh l.
Proof.
  intros. unfold entry_size, shl1, wshl, PAGE_BITS, PAGE_LEVEL_BITS, esh.
  rewrite Z.mod_small, Z.shiftl_mul_pow2 by lia.
  rewrite Z.mul_1_l. replace (12 + Z.of_nat l * 9) with (12 + 9 * Z.of_nat l) by lia.
  apply wrap_small. split; [lia|]. apply Z.pow_lt_mono_r; lia.
Qed.

Lemma esh_S l : 2 ^ esh (S l) = 512 * 2 ^ esh l.
Proof.
  unfold esh. replace (12 + 9 * Z.of_nat (S l)) with (9 + (12 + 9 * Z.of_nat l)) by lia.
  rewrite Z.pow_add_r by lia. lia.
Qed.

Lemma esh_pos l : 0 < 2 ^ esh l.
Proof. unfold esh. lia. Qed.
Lemma esh_ge_page l : 4096 ≤ 2 ^ esh l.
Proof. change 4096 with (2 ^ 12). apply Z.pow_le_mono_r; unfold esh; lia. Qed.
Lemma esh_le l l' : (l ≤ l')%nat → 2 ^ esh l ≤ 2 ^ esh l'.
Proof. intros. apply Z.pow_le_mono_r; unfold esh; lia. Qed.
Lemma esh_bound l : (l ≤ 4)%nat → 2 ^ esh l ≤ 2 ^ 48.
Proof. intros. apply Z.pow_le_mono_r; unfold esh; lia. Qed.

Lemma aligned_esh_le l l' x : (l ≤ l')%nat → aligned (2 ^ esh l') x → aligned (2 ^ esh l) x.
Proof.
  intros Hl Hx. destruct (aligned_exists (2 ^ esh l') x ltac:(unfold esh; lia) Hx) as [q ->].
  replace (esh l') with (9 * Z.of_nat (l' - l) + esh l) by (unfold esh; lia).
  rewrite Z.pow_add_r, Z.mul_assoc by (unfold esh; lia). apply aligned_mul.
Qed.

Lemma aligned_page_esh l x : aligned (2 ^ esh l) x → aligned 4096 x.
Proof. intros. change 4096 with (2 ^ esh 0). by eapply aligned_esh_le, H; lia. Qed.

Lemma round_up_spec a b :
  0 ≤ a → 0 < b → a + b ≤ 2 ^ 64 →
  ∃ r, round_up a b = Done r ∧ aligned b r ∧ a ≤ r < a + b.
Proof.
  intros Ha Hb Hab. unfold round_up, div_ceil.
  destruct (Z.eqb_spec b 0); [lia|]. cbn.
  assert (a +w b -w 1 = a + b - 1) as ->.
  { unfold wadd, wsub, wrap. rewrite Zminus_mod_idemp_l, Z.mod_small; lia. }
  pose proof (Z.div_mod (a + b - 1) b ltac:(lia)).
  pose proof (Z.mod_pos_bound (a + b - 1) b Hb).
  rewrite wmul_small by lia.
  exists ((a + b - 1) / b * b). split_and!; [done|apply aligned_mul|lia|lia].
Qed.

Lemma round_down_spec a b :
  in_u 64 a → 0 < b → round_down a b = Done (a - a mod b).
Proof.
  intros [??] Hb. unfold round_down, div_floor.
  destruct (Z.eqb_spec b 0); [lia|]. cbn.
  pose proof (Z.div_mod a b ltac:(lia)). pose proof (Z.mod_pos_bound a b Hb).
  assert (0 ≤ a / b) by (apply Z.div_pos; lia).
  rewrite wmul_small by nia. f_equal. lia.
Qed.

Lemma is_aligned_spec v k : 0 ≤ k < 64 → is_aligned v (2 ^ k) = true ↔ aligned (2 ^ k) v.
Proof.
  intros Hk. unfold is_aligned, aligned.
  assert (2 ^ k < 2 ^ 64) by (apply Z.pow_lt_mono_r; lia).
  rewrite wsub_small, land_mask by lia. apply Z.eqb_eq.
Qed.

Lemma is_aligned_page v : is_aligned v PAGE_SIZE = true ↔ aligned 4096 v.
Proof. apply (is_aligned_spec v 12). lia. Qed.

Lemma round_down_to_page_spec a : in_u 64 a → round_down_to_page a = a - a mod 4096.
Proof. intros. by apply (land_wnot_mask a 12). Qed.

Lemma round_up_to_page_spec a :
  0 ≤ a → a + 4095 < 2 ^ 64 →
  aligned 4096 (round_up_to_page a) ∧ a ≤ round_up_to_page a < a + 4096.
Proof.
  intros Ha Hb. unfold round_up_to_page. rewrite PAGE_SIZE_val.
  assert (a +w 4096 -w 1 = a + 4095) as ->.
  { unfold wadd, wsub, wrap. rewrite Zminus_mod_idemp_l, Z.mod_small; lia. }
  rewrite round_down_to_page_spec by (split; lia). unfold aligned.
  pose proof (Z.mod_pos_bound (a + 4095) 4096 ltac:(lia)).
  split; [|lia]. rewrite Zminus_mod_idemp_r, Z.sub_diag. done.
Qed.

Lemma round_up_to_page_aligned a :
  in_u 64 a → aligned 4096 a → round_up_to_page a = a.
Proof.
  intros [Ha1 Ha2] Hal. pose proof (aligned_exists 4096 a ltac:(lia) Hal) as [q ->].
  destruct (round_up_to_page_spec (q * 4096)) as [Hr Hb]; [lia|lia|].
  apply aligned_exists in Hr as [r Hr]; [|lia]. rewrite Hr in *. lia.
Qed.

Lemma start_of_next_block_spec a l :
  (l ≤ 4)%nat → 0 ≤ a < 2 ^ 63 →
  start_of_next_block a (2 ^ esh l) = a - a mod 2 ^ esh l + 2 ^ esh l.
Proof.
  intros Hl Ha. unfold start_of_next_block. pose proof (esh_bound l Hl). pose proof (esh_pos l).
  rewrite wadd_small, land_wnot_mask by (unfold in_u, esh in *; lia).
  replace ((a + 2 ^ esh l) mod 2 ^ esh l) with (a mod 2 ^ esh l); [lia|].
  by rewrite Zplus_mod, Z_mod_same_full, Z.add_0_r, Zmod_mod.
Qed.

Lemma index_spec a l : 0 ≤ a → Z.of_nat (index a l) = (a / 2 ^ esh l) mod 512.
Proof.
  intros Ha. unfold index, PAGE_BITS, PAGE_LEVEL_BITS.
  replace (12 + Z.of_nat l * 9) with (esh l) by (unfold esh; lia).
  change (Z.shiftl 1 9 - 1) with (2 ^ 9 - 1). rewrite land_mask by lia.
  rewrite Z.shiftr_div_pow2 by (unfold esh; lia).
  rewrite Z2Nat.id; [done|]. apply Z.mod_pos_bound. lia.
Qed.

Lemma index_lt a l : 0 ≤ a → (index a l < 512)%nat.
Proof.
  intros. pose proof (index_spec a l H). pose proof (Z.mod_pos_bound (a / 2 ^ esh l) 512).
  lia.
Qed.

(** An address inside the [i]-th entry of a table based at [base] has index [i]. *)
Lemma index_in_entry base l i a :
  0 ≤ base → aligned (2 ^ esh (S l)) base → (i < 512)%nat →
  base + Z.of_nat i * 2 ^ esh l ≤ a < base + (Z.of_nat i + 1) * 2 ^ esh l →
  index a l = i.
Proof.
  intros Hb Hal Hi Ha. apply Nat2Z.inj.
  destruct (aligned_exists (2 ^ esh (S l)) base ltac:(pose proof (esh_pos (S l)); lia) Hal) as [q Hq].
  rewrite esh_S in Hq. pose proof (esh_pos l).
  assert (0 ≤ Z.of_nat i * 2 ^ esh l) by (apply Z.mul_nonneg_nonneg; lia).
  rewrite index_spec by lia.
  assert (a / 2 ^ esh l = q * 512 + Z.of_nat i) as ->.
  { symmetry. apply (Z.div_unique_pos a _ _ (a - (q * 512 + Z.of_nat i) * 2 ^ esh l)); lia. }
  rewrite Z.add_comm, Z_mod_plus_full. apply Z.mod_small. lia.
Qed.

Lemma level_end_spec base l a :
  (l ≤ 3)%nat → 0 ≤ base → base + 2 ^ esh (S l) ≤ 2 ^ 63 → aligned (2 ^ esh (S l)) base →
  base ≤ a < base + 2 ^ esh (S l) →
  level_end a l = base + 2 ^ esh (S l).
Proof.
  intros Hl Hb Hbb Hal Ha. unfold level_end, PAGE_BITS, PAGE_LEVEL_BITS.
  replace (12 + (Z.of_nat l + 1) * 9) with (esh (S l)) by (unfold esh; lia).
  pose proof (esh_pos (S l)).
  destruct (aligned_exists (2 ^ esh (S l)) base ltac:(lia) Hal) as [q Hq].
  rewrite Z.shiftr_div_pow2 by (unfold esh; lia).
  assert (a / 2 ^ esh (S l) = q) as ->.
  { symmetry. apply (Z.div_unique_pos a _ _ (a - q * 2 ^ esh (S l))); lia. }
  assert (q ≤ q * 2 ^ esh (S l)) by nia.
  assert (0 ≤ q) by nia.
  rewrite wadd_small by lia. unfold wshl.
  rewrite Z.shiftl_mul_pow2 by (unfold esh; lia).
  rewrite wrap_small by (unfold in_u; lia). lia.
Qed.
