(* ===== verification/Mode.v ===== *)
(** * Page mapping modes and update flags ([bitflags!] of [mm.rs])

    A [bitflags!] value is its bits.  [Mode] is the architecture-independent
    state of a page: access rights, validity, ownership and exclusivity. *)
From S2P Require Import Prelude.

(** ** Operations the [bitflags!] macro defines *)
Definition bf_contains (a b : Z) : bool := Z.land a b =? b.
Definition bf_intersects (a b : Z) : bool := negb (Z.land a b =? 0).

(** ** [struct Mode] *)
Module Mode.
Definition R : Z := 1.
Definition W : Z := 2.
Definition X : Z := 4.
Definition D : Z := 8.
Definition INVALID : Z := 16.
Definition UNOWNED : Z := 32.
Definition SHARED : Z := 64.
(** [Mode::all()]. *)
Definition all : Z := 127.
Definition empty : Z := 0.
Definition from_bits_truncate (bits : Z) : Z := Z.land bits all.
(** [!mode] stays within the declared flags. *)
Definition complement (m : Z) : Z := from_bits_truncate (wnot32 m).
Definition valid_owned_exclusive (m : Z) : bool :=
  negb (bf_intersects m (Z.lor (Z.lor INVALID UNOWNED) SHARED)).
End Mode.

(** ** [struct Flags] *)
Module Flags.
Definition COMMIT : Z := 1.
Definition UNMAP : Z := 2.
Definition STAGE1 : Z := 4.
Definition from_bits_truncate (bits : Z) : Z := Z.land bits 7.
End Flags.

(** A value made of declared mode flags only, without the device flag (the
    stage-2 attributes do not record it). *)
Definition stage2_mode (m : Z) : Prop := in_u 7 m ∧ Z.testbit m 3 = false.

#[export] Instance stage2_mode_dec m : Decision (stage2_mode m).
Proof. unfold stage2_mode, in_u. apply _. Defined.

(** All modes, for exhaustive checks. *)
Definition all_modes : list Z := seqZ 0 128.

Lemma elem_of_all_modes m : in_u 7 m → m ∈ all_modes.
Proof. intros [??]. apply elem_of_seqZ. lia. Qed.
