(* ===== verification/Arch.v ===== *)
(** * The architecture layer of the page tables

    [mm.rs] calls the architecture through [extern "C"] functions.  [ArchMM] is
    that interface; [aarch64] translates its implementation in
    [src/arch/aarch64/mm.c] and [fake] the one in [src/arch/fake/mm.c].
    [ArchLaws] states what the page-table code relies on; the theorems of
    [Mm.v] and [MmSpec.v] are proved against it and [aarch64_laws] discharges it. *)
From S2P Require Import Prelude Addr Mode.

Class ArchMM := {
  arch_mm_absent_pte : nat → Z;
  arch_mm_table_pte : nat → paddr_t → Z;
  arch_mm_block_pte : nat → paddr_t → Z → Z;
  arch_mm_is_block_allowed : nat → bool;
  arch_mm_pte_is_present : Z → nat → bool;
  arch_mm_pte_is_valid : Z → nat → bool;
  arch_mm_pte_is_block : Z → nat → bool;
  arch_mm_pte_is_table : Z → nat → bool;
  arch_mm_clear_pa : paddr_t → paddr_t;
  arch_mm_block_from_pte : Z → nat → paddr_t;
  arch_mm_table_from_pte : Z → nat → paddr_t;
  arch_mm_pte_attrs : Z → nat → Z;
  arch_mm_mode_to_stage1_attrs : Z → Z;
  arch_mm_mode_to_stage2_attrs : Z → Z;
  arch_mm_stage2_attrs_to_mode : Z → Z;
  arch_mm_stage1_max_level : nat;
  arch_mm_stage2_max_level : nat;
  arch_mm_stage1_root_table_count : nat;
  arch_mm_stage2_root_table_count : nat;
  arch_mm_combine_table_entry_attrs : Z → Z → Z;
  (** What the MMU lets the hypervisor do: whether stage-1 attributes allow writes. *)
  el2_writable : Z → bool;
}.

(** ** aarch64 *)
Module Aarch64.
Definition PTE_VALID : Z := Z.shiftl 1 0.
Definition PTE_LEVEL0_BLOCK : Z := Z.shiftl 1 1.
Definition PTE_TABLE : Z := Z.shiftl 1 1.

Definition STAGE1_XN : Z := Z.shiftl 1 54.
Definition STAGE1_PXN : Z := Z.shiftl 1 53.
Definition STAGE1_AF : Z := Z.shiftl 1 10.
Definition STAGE1_SH (x : Z) : Z := Z.shiftl x 8.
Definition STAGE1_AP2 : Z := Z.shiftl 1 7.
Definition STAGE1_AP1 : Z := Z.shiftl 1 6.
Definition STAGE1_AP (x : Z) : Z := Z.shiftl x 6.
Definition STAGE1_NS : Z := Z.shiftl 1 5.
Definition STAGE1_ATTRINDX (x : Z) : Z := Z.shiftl x 2.
Definition STAGE1_READONLY : Z := 2.
Definition STAGE1_READWRITE : Z := 0.
Definition STAGE1_DEVICEINDX : Z := 0.
Definition STAGE1_NORMALINDX : Z := 1.
Definition NON_SHAREABLE : Z := 0.
Definition OUTER_SHAREABLE : Z := 2.

Definition STAGE2_XN (x : Z) : Z := Z.shiftl x 53.
Definition STAGE2_AF : Z := Z.shiftl 1 10.
Definition STAGE2_SH (x : Z) : Z := Z.shiftl x 8.
Definition STAGE2_S2AP (x : Z) : Z := Z.shiftl x 6.
Definition STAGE2_EXECUTE_ALL : Z := 0.
Definition STAGE2_EXECUTE_NONE : Z := 2.
Definition STAGE2_EXECUTE_MASK : Z := 3.
Definition STAGE2_SW_OWNED : Z := Z.shiftl 1 55.
Definition STAGE2_SW_EXCLUSIVE : Z := Z.shiftl 1 56.
Definition STAGE2_WRITEBACK : Z := 3.
Definition STAGE2_MEMATTR_NORMAL (outer inner : Z) : Z :=
  Z.shiftl (Z.lor (Z.shiftl outer 2) inner) 2.
Definition STAGE2_ACCESS_READ : Z := 1.
Definition STAGE2_ACCESS_WRITE : Z := 2.

Definition TABLE_NSTABLE : Z := Z.shiftl 1 63.
Definition TABLE_APTABLE1 : Z := Z.shiftl 1 62.
Definition TABLE_APTABLE0 : Z := Z.shiftl 1 61.
Definition TABLE_XNTABLE : Z := Z.shiftl 1 60.
Definition TABLE_PXNTABLE : Z := Z.shiftl 1 59.

Definition PTE_ADDR_MASK : Z :=
  Z.land (Z.shiftl 1 48 - 1) (wnot (Z.shiftl 1 PAGE_BITS - 1)).
Definition PTE_ATTR_MASK : Z := wnot (Z.lor PTE_ADDR_MASK (Z.shiftl 1 1)).

(** A C integer used as a condition. *)
Definition nz (z : Z) : bool := negb (z =? 0).

Definition absent_pte (level : nat) : Z := 0.
Definition table_pte (level : nat) (p : paddr_t) : Z :=
  Z.lor (Z.lor (pa_addr p) PTE_TABLE) PTE_VALID.
Definition block_pte (level : nat) (p : paddr_t) (attrs : Z) : Z :=
  let pte := Z.lor (pa_addr p) attrs in
  if (level =? 0)%nat then Z.lor pte PTE_LEVEL0_BLOCK else pte.
Definition is_block_allowed (level : nat) : bool := (level <=? 2)%nat.
Definition pte_is_valid (pte : Z) (level : nat) : bool := nz (Z.land pte PTE_VALID).
Definition pte_is_present (pte : Z) (level : nat) : bool :=
  pte_is_valid pte level || nz (Z.land pte STAGE2_SW_OWNED).
Definition pte_is_table (pte : Z) (level : nat) : bool :=
  negb (level =? 0)%nat && pte_is_valid pte level && nz (Z.land pte PTE_TABLE).
Definition pte_is_block (pte : Z) (level : nat) : bool :=
  is_block_allowed level &&
  (if (level =? 0)%nat then nz (Z.land pte PTE_LEVEL0_BLOCK)
   else pte_is_present pte level && negb (pte_is_table pte level)).
Definition pte_addr (pte : Z) : Z := Z.land pte PTE_ADDR_MASK.
Definition clear_pa (p : paddr_t) : paddr_t := pa_init (pte_addr (pa_addr p)).
Definition block_from_pte (pte : Z) (level : nat) : paddr_t := pa_init (pte_addr pte).
Definition table_from_pte (pte : Z) (level : nat) : paddr_t := pa_init (pte_addr pte).
Definition pte_attrs (pte : Z) (level : nat) : Z := Z.land pte PTE_ATTR_MASK.

Definition mode_to_stage1_attrs (mode : Z) : Z :=
  let attrs := Z.lor STAGE1_AF (STAGE1_SH OUTER_SHAREABLE) in
  let attrs := if negb (nz (Z.land mode Mode.X)) then Z.lor attrs STAGE1_XN else attrs in
  let attrs := if nz (Z.land mode Mode.W) then Z.lor attrs (STAGE1_AP STAGE1_READWRITE)
               else Z.lor attrs (STAGE1_AP STAGE1_READONLY) in
  let attrs := if nz (Z.land mode Mode.D) then Z.lor attrs (STAGE1_ATTRINDX STAGE1_DEVICEINDX)
               else Z.lor attrs (STAGE1_ATTRINDX STAGE1_NORMALINDX) in
  if negb (nz (Z.land mode Mode.INVALID)) then Z.lor attrs PTE_VALID else attrs.

Definition mode_to_stage2_attrs (mode : Z) : Z :=
  let attrs := Z.lor STAGE2_AF (STAGE2_SH NON_SHAREABLE) in
  let access := if nz (Z.land mode Mode.R) then Z.lor 0 STAGE2_ACCESS_READ else 0 in
  let access := if nz (Z.land mode Mode.W) then Z.lor access STAGE2_ACCESS_WRITE else access in
  let attrs := Z.lor attrs (STAGE2_S2AP access) in
  let attrs := if nz (Z.land mode Mode.X) then Z.lor attrs (STAGE2_XN STAGE2_EXECUTE_ALL)
               else Z.lor attrs (STAGE2_XN STAGE2_EXECUTE_NONE) in
  let attrs := Z.lor attrs (STAGE2_MEMATTR_NORMAL STAGE2_WRITEBACK STAGE2_WRITEBACK) in
  let attrs := if negb (nz (Z.land mode Mode.UNOWNED)) then Z.lor attrs STAGE2_SW_OWNED
               else attrs in
  let attrs := if negb (nz (Z.land mode Mode.SHARED)) then Z.lor attrs STAGE2_SW_EXCLUSIVE
               else attrs in
  if negb (nz (Z.land mode Mode.INVALID)) then Z.lor attrs PTE_VALID else attrs.

Definition stage2_attrs_to_mode (attrs : Z) : Z :=
  let mode := if nz (Z.land attrs (STAGE2_S2AP STAGE2_ACCESS_READ)) then Mode.R else 0 in
  let mode := if nz (Z.land attrs (STAGE2_S2AP STAGE2_ACCESS_WRITE))
              then Z.lor mode Mode.W else mode in
  let mode := if Z.land attrs (STAGE2_XN STAGE2_EXECUTE_MASK) =? STAGE2_XN STAGE2_EXECUTE_ALL
              then Z.lor mode Mode.X else mode in
  let mode := if negb (nz (Z.land attrs STAGE2_SW_OWNED)) then Z.lor mode Mode.UNOWNED
              else mode in
  let mode := if negb (nz (Z.land attrs STAGE2_SW_EXCLUSIVE)) then Z.lor mode Mode.SHARED
              else mode in
  if negb (nz (Z.land attrs PTE_VALID)) then Z.lor mode Mode.INVALID else mode.

Definition combine_table_entry_attrs (table_attrs block_attrs : Z) : Z :=
  let b := if nz (Z.land table_attrs TABLE_NSTABLE) then Z.lor block_attrs STAGE1_NS
           else block_attrs in
  let b := if nz (Z.land table_attrs TABLE_APTABLE1) then Z.lor b STAGE1_AP2 else b in
  let b := if nz (Z.land table_attrs TABLE_APTABLE0) then Z.land b (wnot STAGE1_AP1) else b in
  let b := if nz (Z.land table_attrs TABLE_XNTABLE) then Z.lor b STAGE1_XN else b in
  if nz (Z.land table_attrs TABLE_PXNTABLE) then Z.lor b STAGE1_PXN else b.

(** The supported physical address widths ([pa_bits_table] of [arch_mm_init])
    and the stage-2 geometry [arch_mm_init] chooses for each. *)
Inductive pa_bits := PA32 | PA36 | PA40 | PA42 | PA44 | PA48.
Definition pa_bits_val (p : pa_bits) : Z :=
  match p with PA32 => 32 | PA36 => 36 | PA40 => 40 | PA42 => 42 | PA44 => 44 | PA48 => 48 end.
Definition stage2_max_level (p : pa_bits) : nat :=
  if 44 <=? pa_bits_val p then 3%nat else if 35 <=? pa_bits_val p then 2%nat else 1%nat.
Definition stage2_root_table_count (p : pa_bits) : nat :=
  let extend_bits := (pa_bits_val p - PAGE_BITS) mod PAGE_LEVEL_BITS in
  let extend_bits := if 4 <? extend_bits then 0 else extend_bits in
  Z.to_nat (Z.shiftl 1 extend_bits).
End Aarch64.

Definition aarch64 (p : Aarch64.pa_bits) : ArchMM := {|
  arch_mm_absent_pte := Aarch64.absent_pte;
  arch_mm_table_pte := Aarch64.table_pte;
  arch_mm_block_pte := Aarch64.block_pte;
  arch_mm_is_block_allowed := Aarch64.is_block_allowed;
  arch_mm_pte_is_present := Aarch64.pte_is_present;
  arch_mm_pte_is_valid := Aarch64.pte_is_valid;
  arch_mm_pte_is_block := Aarch64.pte_is_block;
  arch_mm_pte_is_table := Aarch64.pte_is_table;
  arch_mm_clear_pa := Aarch64.clear_pa;
  arch_mm_block_from_pte := Aarch64.block_from_pte;
  arch_mm_table_from_pte := Aarch64.table_from_pte;
  arch_mm_pte_attrs := Aarch64.pte_attrs;
  arch_mm_mode_to_stage1_attrs := Aarch64.mode_to_stage1_attrs;
  arch_mm_mode_to_stage2_attrs := Aarch64.mode_to_stage2_attrs;
  arch_mm_stage2_attrs_to_mode := Aarch64.stage2_attrs_to_mode;
  arch_mm_stage1_max_level := 2;
  arch_mm_stage2_max_level := Aarch64.stage2_max_level p;
  arch_mm_stage1_root_table_count := 1;
  arch_mm_stage2_root_table_count := Aarch64.stage2_root_table_count p;
  arch_mm_combine_table_entry_attrs := Aarch64.combine_table_entry_attrs;
  el2_writable a := Z.land a Aarch64.STAGE1_AP2 =? 0;
|}.

(** ** The fake architecture used by the unit tests *)
Module Fake.
Definition PTE_ATTR_MODE_SHIFT : Z := 48.
Definition PTE_ATTR_MODE_MASK : Z := Z.shiftl Mode.all PTE_ATTR_MODE_SHIFT.
Definition PTE_TABLE : Z := Z.shiftl 1 (PAGE_BITS - 1).
Definition PTE_ADDR_MASK : Z :=
  wnot (Z.lor PTE_ATTR_MODE_MASK (Z.shiftl 1 PAGE_BITS - 1)).
Definition PTE_LEVEL_SHIFT (lvl : nat) : Z := Z.of_nat lvl * 2.
(** [pte << PTE_LEVEL_SHIFT(level)] at 64 bits. *)
Definition unshift (pte : Z) (level : nat) : Z := wshl pte (PTE_LEVEL_SHIFT level).

Definition absent_pte (level : nat) : Z :=
  Z.shiftr (Z.shiftl (Z.lor (Z.lor Mode.INVALID Mode.UNOWNED) Mode.SHARED) PTE_ATTR_MODE_SHIFT)
           (PTE_LEVEL_SHIFT level).
Definition table_pte (level : nat) (p : paddr_t) : Z :=
  Z.shiftr (Z.lor (pa_addr p) PTE_TABLE) (PTE_LEVEL_SHIFT level).
Definition block_pte (level : nat) (p : paddr_t) (attrs : Z) : Z :=
  Z.shiftr (Z.lor (pa_addr p) attrs) (PTE_LEVEL_SHIFT level).
Definition is_block_allowed (level : nat) : bool := true.
Definition pte_is_valid (pte : Z) (level : nat) : bool :=
  Z.land (Z.shiftr (unshift pte level) PTE_ATTR_MODE_SHIFT) Mode.INVALID =? 0.
Definition pte_is_present (pte : Z) (level : nat) : bool :=
  pte_is_valid pte level
  || (Z.land (Z.shiftr (unshift pte level) PTE_ATTR_MODE_SHIFT) Mode.UNOWNED =? 0).
Definition pte_is_table (pte : Z) (level : nat) : bool :=
  negb (Z.land (unshift pte level) PTE_TABLE =? 0).
Definition pte_is_block (pte : Z) (level : nat) : bool :=
  pte_is_present pte level && negb (pte_is_table pte level).
Definition clear_pa (p : paddr_t) : paddr_t := pa_init (Z.land (pa_addr p) PTE_ADDR_MASK).
Definition block_from_pte (pte : Z) (level : nat) : paddr_t :=
  pa_init (Z.land (unshift pte level) PTE_ADDR_MASK).
Definition table_from_pte (pte : Z) (level : nat) : paddr_t :=
  pa_init (Z.land (unshift pte level) PTE_ADDR_MASK).
Definition pte_attrs (pte : Z) (level : nat) : Z :=
  Z.land (unshift pte level) PTE_ATTR_MODE_MASK.
Definition combine_table_entry_attrs (table_attrs block_attrs : Z) : Z :=
  Z.lor table_attrs block_attrs.
Definition mode_to_stage1_attrs (mode : Z) : Z :=
  Z.land (wshl mode PTE_ATTR_MODE_SHIFT) PTE_ATTR_MODE_MASK.
Definition mode_to_stage2_attrs (mode : Z) : Z :=
  Z.land (wshl (Z.land mode (wnot32 Mode.D)) PTE_ATTR_MODE_SHIFT) PTE_ATTR_MODE_MASK.
Definition stage2_attrs_to_mode (attrs : Z) : Z := Z.shiftr attrs PTE_ATTR_MODE_SHIFT.
End Fake.

Definition fake : ArchMM := {|
  arch_mm_absent_pte := Fake.absent_pte;
  arch_mm_table_pte := Fake.table_pte;
  arch_mm_block_pte := Fake.block_pte;
  arch_mm_is_block_allowed := Fake.is_block_allowed;
  arch_mm_pte_is_present := Fake.pte_is_present;
  arch_mm_pte_is_valid := Fake.pte_is_valid;
  arch_mm_pte_is_block := Fake.pte_is_block;
  arch_mm_pte_is_table := Fake.pte_is_table;
  arch_mm_clear_pa := Fake.clear_pa;
  arch_mm_block_from_pte := Fake.block_from_pte;
  arch_mm_table_from_pte := Fake.table_from_pte;
  arch_mm_pte_attrs := Fake.pte_attrs;
  arch_mm_mode_to_stage1_attrs := Fake.mode_to_stage1_attrs;
  arch_mm_mode_to_stage2_attrs := Fake.mode_to_stage2_attrs;
  arch_mm_stage2_attrs_to_mode := Fake.stage2_attrs_to_mode;
  arch_mm_stage1_max_level := 2;
  arch_mm_stage2_max_level := 2;
  arch_mm_stage1_root_table_count := 1;
  arch_mm_stage2_root_table_count := 4;
  arch_mm_combine_table_entry_attrs := Fake.combine_table_entry_attrs;
  el2_writable a := true;
|}.

(** ** What the page-table code relies on *)

(** [b] is the start of the region of one entry of level [l]. *)
Definition base_ok (l : nat) (b : Z) : Prop :=
  aligned (2 ^ esh l) b ∧ 0 ≤ b ∧ b + 2 ^ esh l ≤ 2 ^ 48.
(** [p] is the address of a page that can hold a table. *)
Definition table_page_ok (p : Z) : Prop := aligned 4096 p ∧ 0 ≤ p < 2 ^ 48.

Class ArchLaws (A : ArchMM) := {
  (** Attribute words that block entries may carry. *)
  attrs_ok : Z → Prop;
  stage1_attrs_ok m : attrs_ok (arch_mm_mode_to_stage1_attrs m);
  stage2_attrs_ok m : attrs_ok (arch_mm_mode_to_stage2_attrs m);

  absent_not_present l : arch_mm_pte_is_present (arch_mm_absent_pte l) l = false;
  absent_not_table l : arch_mm_pte_is_table (arch_mm_absent_pte l) l = false;
  absent_not_block l : arch_mm_pte_is_block (arch_mm_absent_pte l) l = false;
  absent_attrs l l' :
    arch_mm_pte_is_present (arch_mm_pte_attrs (arch_mm_absent_pte l) l) l' = false;

  block_attrs l b a : base_ok l b → attrs_ok a →
    arch_mm_pte_attrs (arch_mm_block_pte l (pa_init b) a) l = a;
  block_addr l b a : base_ok l b → attrs_ok a →
    arch_mm_block_from_pte (arch_mm_block_pte l (pa_init b) a) l = pa_init b;
  block_not_table l b a : base_ok l b → attrs_ok a →
    arch_mm_pte_is_table (arch_mm_block_pte l (pa_init b) a) l = false;
  block_present l l' b a : base_ok l b → attrs_ok a →
    arch_mm_pte_is_present (arch_mm_block_pte l (pa_init b) a) l
    = arch_mm_pte_is_present a l';
  block_is_block l b a : arch_mm_is_block_allowed l = true → base_ok l b → attrs_ok a →
    arch_mm_pte_is_present (arch_mm_block_pte l (pa_init b) a) l = true →
    arch_mm_pte_is_block (arch_mm_block_pte l (pa_init b) a) l = true;

  table_is_table l p : table_page_ok p →
    arch_mm_pte_is_table (arch_mm_table_pte (S l) (pa_init p)) (S l) = true;
  table_not_block l p : table_page_ok p →
    arch_mm_pte_is_block (arch_mm_table_pte (S l) (pa_init p)) (S l) = false;
  table_present l p : table_page_ok p →
    arch_mm_pte_is_present (arch_mm_table_pte (S l) (pa_init p)) (S l) = true;
  table_addr l p : table_page_ok p →
    arch_mm_table_from_pte (arch_mm_table_pte (S l) (pa_init p)) (S l) = pa_init p;
  table_combine l p a : table_page_ok p → attrs_ok a →
    arch_mm_combine_table_entry_attrs
      (arch_mm_pte_attrs (arch_mm_table_pte (S l) (pa_init p)) (S l)) a = a;

  (** Above the lowest level a block entry is present. *)
  is_block_present l v :
    arch_mm_pte_is_block v (S l) = true → arch_mm_pte_is_present v (S l) = true;

  block_allowed_0 : arch_mm_is_block_allowed 0 = true;
  block_allowed_down l :
    arch_mm_is_block_allowed (S l) = true → arch_mm_is_block_allowed l = true;

  (** Splitting a block: [populate_table] builds the [i]-th sub-block from the
      raw bits of the block entry. *)
  populate_block l b a i : base_ok (S l) b → attrs_ok a → (i < 512)%nat →
    arch_mm_block_pte l
      (pa_init (arch_mm_block_pte (S l) (pa_init b) a +w Z.of_nat i *w 2 ^ esh l)) a
    = arch_mm_block_pte l (pa_init (b + Z.of_nat i * 2 ^ esh l)) a;

  clear_pa_spec x : in_u 64 x →
    pa_addr (arch_mm_clear_pa (pa_init x)) = x mod 2 ^ 48 - x mod 4096;

  stage1_geometry :
    (arch_mm_stage1_max_level ≤ 3)%nat ∧ (1 ≤ arch_mm_stage1_root_table_count ≤ 512)%nat ∧
    Z.of_nat arch_mm_stage1_root_table_count * 2 ^ esh (S arch_mm_stage1_max_level) ≤ 2 ^ 48;
  stage2_geometry :
    (arch_mm_stage2_max_level ≤ 3)%nat ∧ (1 ≤ arch_mm_stage2_root_table_count ≤ 512)%nat ∧
    Z.of_nat arch_mm_stage2_root_table_count * 2 ^ esh (S arch_mm_stage2_max_level) ≤ 2 ^ 48;
}.
