(* ===== verification/ArchAarch64.v ===== *)
(** * aarch64 satisfies the laws of the architecture layer

    Bit-level facts about the translation of [src/arch/aarch64/mm.c]. *)
From S2P Require Import Prelude Addr Mode Arch.
Import Aarch64.

(** The attribute bits of an entry: everything but the address bits 12..47 and
    the table bit 1. *)
Definition aarch64_attrs_ok (a : Z) : Prop :=
  0 ≤ a ∧ ∀ n, Z.testbit a n = true → n = 0 ∨ 2 ≤ n < 12 ∨ 48 ≤ n < 64.

Lemma addr_mask_bits n : 0 ≤ n → Z.testbit PTE_ADDR_MASK n = bool_decide (12 ≤ n < 48).
Proof.
  intros Hn. change PTE_ADDR_MASK with (Z.shiftl (Z.ones 36) 12).
  rewrite Z.shiftl_spec by done. case_bool_decide.
  - apply Z.ones_spec_low. lia.
  - destruct (decide (n < 12)); [apply Z.testbit_neg_r; lia|]. apply Z.ones_spec_high. lia.
Qed.

Lemma attr_mask_bits n :
  0 ≤ n → Z.testbit PTE_ATTR_MASK n = bool_decide (n = 0 ∨ 2 ≤ n < 12 ∨ 48 ≤ n < 64).
Proof.
  intros Hn. change PTE_ATTR_MASK
    with (Z.lor (Z.lor (2 ^ 0) (Z.shiftl (Z.ones 10) 2)) (Z.shiftl (Z.ones 16) 48)).
  rewrite !Z.lor_spec, !Z.shiftl_spec by done.
  rewrite !Z.testbit_ones by lia. rewrite Z.pow2_bits_eqb by lia.
  case_bool_decide; destruct (Z.eqb_spec 0 n); simpl; try lia;
    repeat (destruct (Z.leb_spec 0 (n - 2)) || destruct (Z.ltb_spec (n - 2) 10) ||
            destruct (Z.leb_spec 0 (n - 48)) || destruct (Z.ltb_spec (n - 48) 16));
    simpl; try done; lia.
Qed.

(** The address of an entry has bits in [esh l .. 47] only. *)
Lemma base_bits l b n : base_ok l b → Z.testbit b n = true → esh l ≤ n < 48.
Proof.
  intros (Ha & H0 & Hb) Hn. pose proof (esh_pos l). split.
  - destruct (decide (n < esh l)); [|lia].
    rewrite (testbit_aligned b (esh l)) in Hn; [done|unfold esh; lia|done|done].
  - destruct (decide (n < 48)); [done|]. rewrite (testbit_small b 48) in Hn; [done|split; lia|lia].
Qed.

Lemma nz_bit x k : 0 ≤ k → nz (Z.land x (Z.shiftl 1 k)) = Z.testbit x k.
Proof.
  intros. unfold nz. rewrite Z.shiftl_1_l, land_pow2_eqb by done. apply negb_involutive.
Qed.

(** Case analysis on one bit of a combination of address and attributes. *)
Ltac bit_facts :=
  repeat match goal with
  | H : base_ok ?l ?b |- context [Z.testbit ?b ?n] =>
      let E := fresh "E" in
      destruct (Z.testbit b n) eqn:E;
      [apply (base_bits l b n H) in E|clear E]
  | H : aarch64_attrs_ok ?a |- context [Z.testbit ?a ?n] =>
      let E := fresh "E" in
      destruct (Z.testbit a n) eqn:E; [apply H in E|clear E]
  end.

(** A block entry, bit by bit. *)
Lemma block_pte_bits l b a n :
  0 ≤ n →
  Z.testbit (block_pte l (pa_init b) a) n
  = (Z.testbit b n || Z.testbit a n || (bool_decide (n = 1) && (l =? 0)%nat)).
Proof.
  intros Hn. unfold block_pte, pa_addr, pa_init; simpl.
  destruct (l =? 0)%nat; rewrite ?Z.lor_spec.
  - change PTE_LEVEL0_BLOCK with (2 ^ 1). rewrite Z.pow2_bits_eqb by lia.
    f_equal. rewrite andb_true_r. case_bool_decide; apply Z.eqb_eq || apply Z.eqb_neq; lia.
  - by rewrite andb_false_r, orb_false_r.
Qed.

Lemma esh_ge_12 l : 12 ≤ esh l.
Proof. unfold esh. lia. Qed.

Section laws.
Context (p : pa_bits).
Implicit Types (l : nat) (b a : Z).

Lemma aarch64_block_attrs l b a :
  base_ok l b → aarch64_attrs_ok a → pte_attrs (block_pte l (pa_init b) a) l = a.
Proof.
  intros Hb Ha. pose proof (esh_ge_12 l). apply Z.bits_inj'. intros n Hn. unfold pte_attrs.
  rewrite Z.land_spec, attr_mask_bits, block_pte_bits by done.
  bit_facts; repeat case_bool_decide; simpl; try lia; try done; by destruct (l =? 0)%nat.
Qed.

Lemma aarch64_block_addr l b a :
  base_ok l b → aarch64_attrs_ok a → block_from_pte (block_pte l (pa_init b) a) l = pa_init b.
Proof.
  intros Hb Ha. pose proof (esh_ge_12 l). unfold block_from_pte, pte_addr. f_equal.
  apply Z.bits_inj'. intros n Hn.
  rewrite Z.land_spec, addr_mask_bits, block_pte_bits by done.
  bit_facts; repeat case_bool_decide; simpl; try lia; try done; by destruct (l =? 0)%nat.
Qed.

Lemma aarch64_valid_bit x l : pte_is_valid x l = Z.testbit x 0.
Proof. by apply nz_bit. Qed.
Lemma aarch64_present_bits x l : pte_is_present x l = Z.testbit x 0 || Z.testbit x 55.
Proof. unfold pte_is_present. rewrite aarch64_valid_bit. f_equal. by apply nz_bit. Qed.
Lemma aarch64_table_bits x l :
  pte_is_table x l = negb (l =? 0)%nat && Z.testbit x 0 && Z.testbit x 1.
Proof. unfold pte_is_table. rewrite aarch64_valid_bit. f_equal. by apply nz_bit. Qed.

Lemma aarch64_block_present l l' b a :
  base_ok l b → aarch64_attrs_ok a →
  pte_is_present (block_pte l (pa_init b) a) l = pte_is_present a l'.
Proof.
  intros Hb Ha. pose proof (esh_ge_12 l). rewrite !aarch64_present_bits, !block_pte_bits by done.
  destruct (Z.testbit b 0) eqn:E0; [apply (base_bits l) in E0; [lia|done]|].
  destruct (Z.testbit b 55) eqn:E1; [apply (base_bits l) in E1; [lia|done]|].
  rewrite !(bool_decide_false (_ = 1)) by lia. by rewrite !orb_false_r.
Qed.

Lemma aarch64_block_not_table l b a :
  base_ok l b → aarch64_attrs_ok a → pte_is_table (block_pte l (pa_init b) a) l = false.
Proof.
  intros Hb Ha. pose proof (esh_ge_12 l). rewrite aarch64_table_bits.
  destruct (Nat.eqb_spec l 0) as [|Hl]; [done|]. rewrite (block_pte_bits l b a 1) by done.
  destruct (Nat.eqb_spec l 0); [done|].
  bit_facts; simpl; rewrite ?andb_false_r; lia || done.
Qed.

Lemma aarch64_block_is_block l b a :
  is_block_allowed l = true → base_ok l b → aarch64_attrs_ok a →
  pte_is_present (block_pte l (pa_init b) a) l = true →
  pte_is_block (block_pte l (pa_init b) a) l = true.
Proof.
  intros Hal Hb Ha Hp. unfold pte_is_block. rewrite Hal, aarch64_block_not_table, Hp by done.
  destruct (Nat.eqb_spec l 0) as [->|]; [|done]. unfold PTE_LEVEL0_BLOCK.
  rewrite nz_bit, block_pte_bits by done. simpl. by rewrite orb_true_r.
Qed.

(** A table entry, bit by bit. *)
Lemma table_pte_bits l q n :
  table_page_ok q → 0 ≤ n →
  Z.testbit (table_pte l (pa_init q)) n
  = if decide (n < 12) then bool_decide (n < 2) else Z.testbit q n.
Proof.
  intros [Hq Hb] Hn. unfold table_pte, pa_addr, pa_init; simpl.
  rewrite !Z.lor_spec. change PTE_TABLE with (2 ^ 1). change PTE_VALID with (2 ^ 0).
  rewrite !Z.pow2_bits_eqb by lia.
  destruct (decide (n < 12)).
  - rewrite (testbit_aligned q 12) by (done || lia).
    case_bool_decide; destruct (Z.eqb_spec 1 n), (Z.eqb_spec 0 n); simpl; lia || done.
  - destruct (Z.eqb_spec 1 n), (Z.eqb_spec 0 n); try lia. by rewrite !orb_false_r.
Qed.

Lemma aarch64_table_is_table l q :
  table_page_ok q → pte_is_table (table_pte (S l) (pa_init q)) (S l) = true.
Proof. intros. rewrite aarch64_table_bits, !table_pte_bits by done. done. Qed.

Lemma aarch64_table_present l q :
  table_page_ok q → pte_is_present (table_pte (S l) (pa_init q)) (S l) = true.
Proof. intros. rewrite aarch64_present_bits, table_pte_bits by done. done. Qed.

Lemma aarch64_table_addr l q :
  table_page_ok q → table_from_pte (table_pte (S l) (pa_init q)) (S l) = pa_init q.
Proof.
  intros Hq. unfold table_from_pte, pte_addr. f_equal. apply Z.bits_inj'. intros n Hn.
  rewrite Z.land_spec, addr_mask_bits, table_pte_bits by done. destruct Hq as [Hq Hb].
  destruct (decide (n < 12)).
  - rewrite (testbit_aligned q 12) by (done || lia). case_bool_decide; simpl; [|done].
    by rewrite bool_decide_false by lia.
  - destruct (decide (n < 48)); [by rewrite bool_decide_true, andb_true_r by lia|].
    rewrite (testbit_small q 48); [done|split; lia|lia].
Qed.

Lemma aarch64_table_combine l q a :
  table_page_ok q →
  combine_table_entry_attrs (pte_attrs (table_pte (S l) (pa_init q)) (S l)) a = a.
Proof.
  intros Hq. assert (Hz : ∀ n, 59 ≤ n < 64 →
    nz (Z.land (pte_attrs (table_pte (S l) (pa_init q)) (S l)) (Z.shiftl 1 n)) = false).
  { intros n Hn. unfold pte_attrs. rewrite nz_bit, Z.land_spec, table_pte_bits by (done || lia).
    destruct (decide (n < 12)); [lia|]. destruct Hq.
    rewrite (testbit_small q 48); [done|split; lia|lia]. }
  unfold combine_table_entry_attrs, TABLE_NSTABLE, TABLE_APTABLE1, TABLE_APTABLE0,
    TABLE_XNTABLE, TABLE_PXNTABLE. rewrite !Hz by lia. done.
Qed.

Lemma aarch64_populate_block l b a i :
  base_ok (S l) b → aarch64_attrs_ok a → (i < 512)%nat →
  block_pte l (pa_init (block_pte (S l) (pa_init b) a +w Z.of_nat i *w 2 ^ esh l)) a
  = block_pte l (pa_init (b + Z.of_nat i * 2 ^ esh l)) a.
Proof.
  intros Hb Ha Hi. pose proof (esh_ge_12 l). pose proof (esh_ge_12 (S l)).
  pose proof (esh_pos l).
  set (d := Z.of_nat i * 2 ^ esh l).
  assert (Hd : 0 ≤ d < 2 ^ esh (S l)) by (unfold d; rewrite esh_S; nia).
  assert (Hal : aligned (2 ^ esh l) d) by apply aligned_mul.
  assert (Hdb : ∀ n, Z.testbit d n = true → esh l ≤ n < esh (S l)).
  { intros n Hn. split.
    - destruct (decide (n < esh l)); [|lia].
      rewrite (testbit_aligned d (esh l)) in Hn; done || lia.
    - destruct (decide (n < esh (S l))); [done|].
      rewrite (testbit_small d (esh (S l))) in Hn; [done|done|lia]. }
  assert (Hesh : esh (S l) ≤ 48).
  { destruct Hb as (_ & ? & Hb). destruct (decide (esh (S l) ≤ 48)); [done|].
    assert (2 ^ 48 < 2 ^ esh (S l)) by (apply Z.pow_lt_mono_r; lia). lia. }
  assert (Hv0 : 0 ≤ block_pte (S l) (pa_init b) a).
  { simpl. apply Z.lor_nonneg. destruct Hb as (?&?&?), Ha. split; [|done]. done. }
  assert (Hland : ∀ x, (∀ n, Z.testbit x n = true → Z.testbit d n = true → False) →
            Z.land x d = 0).
  { intros x Hx. apply Z.bits_inj'. intros n Hn. rewrite Z.land_spec, Z.bits_0.
    destruct (Z.testbit x n) eqn:?, (Z.testbit d n) eqn:?; try done. exfalso; eauto. }
  assert (Hbd : b + d = Z.lor b d).
  { apply add_is_lor, Hland. intros n Hn Hdn%Hdb. apply (base_bits (S l)) in Hn; [lia|done]. }
  assert (Hvd : block_pte (S l) (pa_init b) a + d = Z.lor (block_pte (S l) (pa_init b) a) d).
  { apply add_is_lor, Hland. intros n Hn Hdn. pose proof (Hdb _ Hdn).
    rewrite block_pte_bits in Hn by lia. revert Hn. rewrite andb_false_r, orb_false_r.
    bit_facts; simpl; try lia; done. }
  assert (d < 2 ^ 64).
  { assert (2 ^ esh (S l) ≤ 2 ^ 48) by (apply Z.pow_le_mono_r; lia). lia. }
  rewrite (wmul_small (Z.of_nat i)) by (fold d; lia). fold d.
  rewrite wadd_small; [|rewrite Hvd].
  2:{ apply in_u_bits; [lia|apply Z.lor_nonneg; lia|]. intros n Hn.
      rewrite Z.lor_spec, block_pte_bits, andb_false_r, orb_false_r by lia.
      destruct (Z.testbit d n) eqn:E; [apply Hdb in E; lia|]. bit_facts; lia || done. }
  rewrite Hvd, Hbd. apply Z.bits_inj'. intros n Hn. rewrite !block_pte_bits by done.
  rewrite !Z.lor_spec, block_pte_bits, andb_false_r, orb_false_r by done.
  by destruct (Z.testbit b n), (Z.testbit a n), (Z.testbit d n).
Qed.

Lemma aarch64_clear_pa x :
  in_u 64 x → pa_addr (clear_pa (pa_init x)) = x mod 2 ^ 48 - x mod 4096.
Proof.
  intros Hx. unfold clear_pa, pte_addr, pa_addr, pa_init; simpl.
  trans (Z.land (x mod 2 ^ 48) (wnot (2 ^ 12 - 1))).
  - apply Z.bits_inj'. intros n Hn. rewrite !Z.land_spec, addr_mask_bits by done.
    change (wnot (2 ^ 12 - 1)) with (Z.shiftl (Z.ones 52) 12).
    rewrite Z.shiftl_spec, Z.testbit_ones by done.
    destruct (decide (n < 48)).
    + rewrite Z.mod_pow2_bits_low by done. f_equal.
      case_bool_decide; destruct (Z.leb_spec 0 (n - 12)), (Z.ltb_spec (n - 12) 52);
        simpl; lia || done.
    + rewrite Z.mod_pow2_bits_high, bool_decide_false by lia. by rewrite andb_false_r.
  - rewrite land_wnot_mask; [|lia|].
    + change (2 ^ 12) with 4096. f_equal. symmetry. change (2 ^ 48) with (4096 * 2 ^ 36).
      rewrite Z.rem_mul_r by lia. rewrite Z.mul_comm, Z_mod_plus_full, Zmod_mod. done.
    + pose proof (Z.mod_pos_bound x (2 ^ 48) ltac:(lia)). split; lia.
Qed.

(** The attribute words computed from modes have attribute bits only. *)
Lemma attrs_ok_land a : 0 ≤ a → Z.land a PTE_ATTR_MASK = a → aarch64_attrs_ok a.
Proof.
  intros Ha Hl. split; [done|]. intros n Hn.
  destruct (decide (n < 0)); [by rewrite Z.testbit_neg_r in Hn|].
  rewrite <-Hl, Z.land_spec, attr_mask_bits in Hn by lia.
  apply andb_prop in Hn as [_ Hn]. by apply bool_decide_eq_true in Hn.
Qed.

Lemma aarch64_stage1_attrs_ok m : aarch64_attrs_ok (mode_to_stage1_attrs m).
Proof.
  unfold mode_to_stage1_attrs.
  destruct (nz (Z.land m Mode.X)), (nz (Z.land m Mode.W)), (nz (Z.land m Mode.D)),
    (nz (Z.land m Mode.INVALID)); apply attrs_ok_land; vm_compute; done.
Qed.
Lemma aarch64_stage2_attrs_ok m : aarch64_attrs_ok (mode_to_stage2_attrs m).
Proof.
  unfold mode_to_stage2_attrs.
  destruct (nz (Z.land m Mode.R)), (nz (Z.land m Mode.W)), (nz (Z.land m Mode.X)),
    (nz (Z.land m Mode.UNOWNED)), (nz (Z.land m Mode.SHARED)), (nz (Z.land m Mode.INVALID));
    apply attrs_ok_land; vm_compute; done.
Qed.
End laws.

#[export] Instance aarch64_laws (p : pa_bits) : ArchLaws (aarch64 p).
Proof.
  refine {| attrs_ok := aarch64_attrs_ok |};
    cbn [aarch64 arch_mm_absent_pte arch_mm_table_pte arch_mm_block_pte arch_mm_is_block_allowed
         arch_mm_pte_is_present arch_mm_pte_is_valid arch_mm_pte_is_block arch_mm_pte_is_table
         arch_mm_clear_pa arch_mm_block_from_pte arch_mm_table_from_pte arch_mm_pte_attrs
         arch_mm_mode_to_stage1_attrs arch_mm_mode_to_stage2_attrs
         arch_mm_stage1_max_level arch_mm_stage2_max_level arch_mm_stage1_root_table_count
         arch_mm_stage2_root_table_count arch_mm_combine_table_entry_attrs].
  - apply aarch64_stage1_attrs_ok.
  - apply aarch64_stage2_attrs_ok.
  - done.
  - intros l. unfold pte_is_table, absent_pte. by destruct (l =? 0)%nat.
  - intros l. unfold pte_is_block, absent_pte.
    destruct (is_block_allowed l), (l =? 0)%nat; done.
  - done.
  - apply aarch64_block_attrs.
  - apply aarch64_block_addr.
  - apply aarch64_block_not_table.
  - apply aarch64_block_present.
  - apply aarch64_block_is_block.
  - apply aarch64_table_is_table.
  - intros l q Hq. unfold pte_is_block. rewrite aarch64_table_is_table by done. simpl.
    by rewrite !andb_false_r.
  - apply aarch64_table_present.
  - apply aarch64_table_addr.
  - intros. by apply aarch64_table_combine.
  - intros l v. unfold pte_is_block. cbn [Nat.eqb]. by intros [_ [? _]%andb_prop]%andb_prop.
  - done.
  - intros l. unfold is_block_allowed. rewrite !Nat.leb_le. lia.
  - apply aarch64_populate_block.
  - apply aarch64_clear_pa.
  - split_and!; [lia..|done].
  - destruct p; split_and!; vm_compute; (done || lia).
Defined.
