(* ===== verification/Slist.v ===== *)
(** * The intrusive singly linked list ([slist.rs])

    The pool keeps its free chunks and pages in lists threaded through the free
    memory itself: a [ListEntry] is one pointer stored in the element.  Here the
    list operations are the pointer operations of the code, over a heap that
    maps the address of a [ListEntry] to its [next] pointer (0 is null), and the
    refinement theorems state that they implement the functional list operations
    [Mpool.v] uses.  [Chunk] and [Entry] are [repr(C)] with the [ListEntry]
    first, so an element and its entry have the same address. *)
From stdpp Require Import gmap.
From S2P Require Import Prelude.

(** ** The functional specification of [pop_if_some]

    Removes the first element on which [cond] answers [Some]. *)
Fixpoint list_pop_if_some {A R} (cond : A → exec (option R)) (l : list A)
    : exec (option (A * R) * list A) :=
  match l with
  | [] => Done (None, [])
  | x :: l' =>
      o ← cond x;
      match o with
      | Some r => Done (Some (x, r), l')
      | None => '(res, l'') ← list_pop_if_some cond l'; Done (res, x :: l'')
      end
  end.

(** ** The pointer-level operations *)
Section slist.
Context {R : Type}.
Implicit Types (h : gmap Z Z) (hd e p : Z) (l : list Z).

(** [Cell::get] of an entry's [next]: reading memory that holds no entry is
    undefined behaviour, modelled as a panic. *)
Definition next_get h (p : Z) : exec Z := unwrap_opt (h !! p).
Definition next_set h (p v : Z) : gmap Z Z := <[p := v]> h.

(** [List::new], for a list whose head entry lives at [hd]. *)
Definition slist_new h hd : gmap Z Z := next_set h hd 0.

(** [ListEntry::push] / [List::push]. *)
Definition slist_push h hd e : exec (gmap Z Z) :=
  n ← next_get h hd;
  Done (next_set (next_set h e n) hd e).

(** [List::pop]. *)
Definition slist_pop h hd : exec (option Z * gmap Z Z) :=
  head ← next_get h hd;
  if head =? 0 then Done (None, h)
  else n ← next_get h head; Done (Some head, next_set h hd n).

(** The [while] loop of [List::pop_if_some]. *)
Fixpoint pop_if_some_loop (fuel : nat) (cond : Z → exec (option R)) h (prev curr : Z)
    : exec (option (Z * R) * gmap Z Z) :=
  match fuel with
  | O => Panic
  | S fuel =>
      if curr =? 0 then Done (None, h)
      else
        o ← cond curr;
        n ← next_get h curr;
        match o with
        | Some r => Done (Some (curr, r), next_set h prev n)
        | None => pop_if_some_loop fuel cond h curr n
        end
  end.

(** [List::pop_if_some]; the heap bounds the number of entries visited. *)
Definition slist_pop_if_some (cond : Z → exec (option R)) h hd
    : exec (option (Z * R) * gmap Z Z) :=
  curr ← next_get h hd;
  pop_if_some_loop (S (size h)) cond h hd curr.

(** ** Representation *)

(** [p] points to a null-terminated chain through exactly the entries [l]. *)
Fixpoint lseg h p l : Prop :=
  match l with
  | [] => p = 0
  | x :: l' => p = x ∧ x ≠ 0 ∧ ∃ n, h !! x = Some n ∧ lseg h n l'
  end.

(** The list with head entry at [hd] holds the elements [l], in order. *)
Definition slist_rep h hd l : Prop :=
  NoDup (hd :: l) ∧ ∃ p, h !! hd = Some p ∧ lseg h p l.

Lemma lseg_frame h q v p l : q ∉ l → lseg h p l → lseg (<[q := v]> h) p l.
Proof.
  revert p. induction l as [|x l IH]; [done|]. intros p Hq (-> & Hx & n & Hn & Hs).
  apply not_elem_of_cons in Hq as [??]. simpl. split_and!; [done..|].
  exists n. rewrite lookup_insert_ne by done. auto.
Qed.

Lemma lseg_dom h p l x : lseg h p l → x ∈ l → x ∈ dom h.
Proof.
  revert p. induction l as [|y l IH]; intros p; [set_solver|].
  intros (-> & Hy & n & Hn & Hs) [->|Hin]%elem_of_cons; [by eapply elem_of_dom_2|eauto].
Qed.

Lemma lseg_length h p l : lseg h p l → NoDup l → (length l ≤ size h)%nat.
Proof.
  intros Hs Hnd. rewrite <-size_dom, <-(size_list_to_set (C := gset Z) l) by done.
  apply subseteq_size. intros x Hx%elem_of_list_to_set. eauto using lseg_dom.
Qed.

(** A fresh list is empty. *)
Lemma slist_new_rep h hd : slist_rep (slist_new h hd) hd [].
Proof.
  split; [apply NoDup_singleton|]. exists 0.
  unfold slist_new, next_set. by rewrite lookup_insert_eq.
Qed.

(** Pushing a non-null entry that is not yet linked prepends it. *)
Lemma slist_push_rep h hd l e :
  slist_rep h hd l → e ≠ 0 → e ∉ hd :: l →
  ∃ h', slist_push h hd e = Done h' ∧ slist_rep h' hd (e :: l).
Proof.
  intros [Hnd (p & Hp & Hs)] He [Hne Hin]%not_elem_of_cons.
  apply NoDup_cons in Hnd as [Hhd Hnd].
  unfold slist_push, next_get. rewrite Hp. simpl. eexists; split; [done|].
  split. { rewrite !NoDup_cons, !elem_of_cons. split_and!; [by intros [->|?]|done..]. }
  exists e. unfold next_set. rewrite lookup_insert_eq. split; [done|].
  split_and!; [done..|]. exists p.
  rewrite lookup_insert_ne, lookup_insert_eq by done. split; [done|].
  by apply lseg_frame, lseg_frame.
Qed.

(** Popping removes and returns the first element, or answers [None] on the
    empty list. *)
Lemma slist_pop_rep h hd l :
  slist_rep h hd l →
  ∃ h', slist_pop h hd = Done (head l, h') ∧ slist_rep h' hd (tail l).
Proof.
  intros [Hnd (p & Hp & Hs)]. unfold slist_pop, next_get. rewrite Hp. simpl.
  destruct l as [|x l]; simpl in Hs.
  { subst. exists h. split; [done|]. split; [done|]. by exists 0. }
  destruct Hs as (-> & Hx & n & Hn & Hs). destruct (Z.eqb_spec x 0); [done|].
  rewrite Hn. simpl. eexists; split; [done|].
  apply NoDup_cons in Hnd as [Hhd Hnd]. apply NoDup_cons in Hnd as [Hxl Hnd].
  split. { apply NoDup_cons; split; [set_solver|done]. }
  exists n. unfold next_set. rewrite lookup_insert_eq. split; [done|].
  apply lseg_frame; [set_solver|done].
Qed.

(** The loop of [pop_if_some], from an entry [prev] whose [next] is [curr]. *)
Lemma pop_if_some_loop_rep cond fuel h prev curr l o l' :
  (length l < fuel)%nat → NoDup (prev :: l) →
  h !! prev = Some curr → lseg h curr l →
  list_pop_if_some cond l = Done (o, l') →
  ∃ h', pop_if_some_loop fuel cond h prev curr = Done (o, h') ∧
        (∃ p', h' !! prev = Some p' ∧ lseg h' p' l') ∧
        (∀ q, q ∉ prev :: l → h' !! q = h !! q) ∧ (∀ q, q ∈ l' → q ∈ l) ∧ NoDup l'.
Proof.
  revert fuel prev curr o l'.
  induction l as [|x l IH]; intros [|fuel] prev curr o l' Hf Hnd Hp Hs Hspec;
    simpl in Hf; try lia.
  { simpl in *. simplify_eq. exists h. split_and!; [done|by exists 0|done|done|constructor]. }
  destruct Hs as (-> & Hx & n & Hn & Hs). simpl in Hspec |- *.
  destruct (Z.eqb_spec x 0); [done|].
  apply NoDup_cons in Hnd as [Hpx Hnd]. pose proof Hnd as [Hxl Hndl]%NoDup_cons.
  destruct (cond x) as [[r|]|] eqn:Hc; simpl in Hspec |- *; [| |done];
    unfold next_get; rewrite Hn; simpl.
  - simplify_eq. eexists; split; [done|]. unfold next_set. split_and!.
    + exists n. rewrite lookup_insert_eq. split; [done|]. apply lseg_frame; [set_solver|done].
    + intros q Hq. rewrite lookup_insert_ne; [done|]. by intros ->; apply Hq; left.
    + set_solver.
    + done.
  - apply bind_Done_inv in Hspec as ([res l''] & Hspec & [= <- <-]).
    destruct (IH fuel x n res l'') as (h' & -> & (p' & Hp' & Hs') & Hfr & Hsub & Hnd');
      [lia|by apply NoDup_cons|done|done|done|].
    exists h'. split_and!; [done| | |set_solver|].
    + exists x. rewrite Hfr by set_solver. split; [done|]. split_and!; [done..|]. eauto.
    + intros q Hq. apply Hfr. set_solver.
    + apply NoDup_cons. split; [|done]. set_solver.
Qed.

(** [List::pop_if_some] implements [list_pop_if_some], and the fuel is enough. *)
Lemma slist_pop_if_some_rep cond h hd l o l' :
  slist_rep h hd l → list_pop_if_some cond l = Done (o, l') →
  ∃ h', slist_pop_if_some cond h hd = Done (o, h') ∧ slist_rep h' hd l'.
Proof.
  intros [Hnd (p & Hp & Hs)] Hspec. unfold slist_pop_if_some, next_get. rewrite Hp. cbn -[pop_if_some_loop].
  pose proof Hnd as [Hhd Hndl]%NoDup_cons.
  pose proof (lseg_length _ _ _ Hs Hndl) as Hlen.
  destruct (pop_if_some_loop_rep cond (S (size h)) h hd p l o l')
    as (h' & -> & Hp' & _ & Hsub & Hnd'); [lia|done..|].
  exists h'. split; [done|]. split; [|done]. apply NoDup_cons. set_solver.
Qed.
End slist.

(** ** Refinement *)

(** A call on a list, with a total condition for [pop_if_some]. *)
Inductive slist_op := OpPush (e : Z) | OpPop | OpPopIf (cond : Z → option Z).

(** One call on the heap: the answer (popped entry and the condition's value). *)
Definition heap_op (h : gmap Z Z) (hd : Z) (op : slist_op)
    : exec (option (Z * Z) * gmap Z Z) :=
  match op with
  | OpPush e =>
      match slist_push h hd e with Done h' => Done (None, h') | Panic => Panic end
  | OpPop =>
      match slist_pop h hd with Done (o, h') => Done ((λ e, (e, 0)) <$> o, h') | Panic => Panic end
  | OpPopIf cond => slist_pop_if_some (λ e, Done (cond e)) h hd
  end.
(** The same call on the list of elements; [None] if the caller may not make it
    (pushing null, or an entry that is already linked). *)
Definition list_op (hd : Z) (l : list Z) (op : slist_op) : option (option (Z * Z) * list Z) :=
  match op with
  | OpPush e => if decide (e ≠ 0 ∧ e ∉ hd :: l) then Some (None, e :: l) else None
  | OpPop => Some ((λ e, (e, 0)) <$> head l, tail l)
  | OpPopIf cond =>
      match list_pop_if_some (λ e, Done (cond e)) l with Done r => Some r | Panic => None end
  end.

Fixpoint heap_run (h : gmap Z Z) (hd : Z) (ops : list slist_op)
    : exec (list (option (Z * Z)) * gmap Z Z) :=
  match ops with
  | [] => Done ([], h)
  | op :: ops => '(o, h1) ← heap_op h hd op; '(os, h2) ← heap_run h1 hd ops; Done (o :: os, h2)
  end.
Fixpoint list_run (hd : Z) (l : list Z) (ops : list slist_op)
    : option (list (option (Z * Z)) * list Z) :=
  match ops with
  | [] => Some ([], l)
  | op :: ops =>
      '(o, l1) ← list_op hd l op; '(os, l2) ← list_run hd l1 ops; Some (o :: os, l2)
  end.

Lemma heap_op_refines h hd l op o l' :
  slist_rep h hd l → list_op hd l op = Some (o, l') →
  ∃ h', heap_op h hd op = Done (o, h') ∧ slist_rep h' hd l'.
Proof.
  intros Hrep. destruct op as [e| |cond]; cbn [list_op heap_op].
  - case_decide as Hd; [|done]. intros [= <- <-]. destruct Hd as [??].
    destruct (slist_push_rep h hd l e) as (h' & -> & ?); [done..|]. by exists h'.
  - intros [= <- <-]. destruct (slist_pop_rep h hd l) as (h' & -> & ?); [done..|]. by exists h'.
  - destruct (list_pop_if_some _ l) as [r|] eqn:Hs; [|done]. intros [= ->].
    by apply (slist_pop_if_some_rep _ _ _ l).
Qed.

(** The pointer operations of [slist.rs] implement lists: starting from a
    fresh list, any sequence of allowed [push], [pop] and [pop_if_some] calls
    returns, without following a dangling pointer, and answers what the same
    calls answer on the list of linked elements. *)
Theorem slist_refines_list h hd ops outs l' :
  list_run hd [] ops = Some (outs, l') →
  ∃ h', heap_run (slist_new h hd) hd ops = Done (outs, h') ∧ slist_rep h' hd l'.
Proof.
  assert (Hgen : ∀ h l outs l', slist_rep h hd l → list_run hd l ops = Some (outs, l') →
    ∃ h', heap_run h hd ops = Done (outs, h') ∧ slist_rep h' hd l').
  { clear. induction ops as [|op ops IH]; intros h l outs l' Hrep Hrun; cbn [list_run heap_run] in *.
    { simplify_eq. by exists h. }
    apply bind_Some in Hrun as ([o l1] & Hop & Hrun). apply bind_Some in Hrun as ([os l2] & Hrun & Hr).
    injection Hr as <- <-. destruct (heap_op_refines h hd l op o l1 Hrep Hop) as (h1 & -> & Hrep1).
    cbn [mbind exec_bind]. destruct (IH h1 l1 os l2 Hrep1 Hrun) as (h2 & -> & Hrep2).
    by exists h2. }
  intros Hrun. eapply Hgen; [apply slist_new_rep|done].
Qed.

Lemma slist_refines_list_witness :
  ∃ h', heap_run (slist_new ∅ 16) 16
          [OpPush 32; OpPush 48; OpPush 64; OpPopIf (λ e, if e =? 48 then Some 7 else None); OpPop]
        = Done ([None; None; None; Some (48, 7); Some (64, 0)], h') ∧ slist_rep h' 16 [32].
Proof. apply slist_refines_list. vm_compute. reflexivity. Defined.
