(* ===== verification/Mpool.v ===== *)
(** * The page pool ([mpool.rs], [Pages::from_raw_u8] of [page.rs])

    A [Pool] keeps free pages in two lists: single pages ([entry_list]) and
    contiguous chunks ([chunk_list]).  The lists are intrusive lists in the code;
    [Slist.v] shows that the pointer operations implement the functional lists
    used here.  An [MPool] is a pool behind a spin lock with an optional fallback
    pool, a chain of pools; the operations below are what runs while the lock is
    held. *)
From S2P Require Import Prelude Addr Slist.

(** A [Chunk] at address [chunk_addr] of [chunk_size] pages. *)
Record Chunk := mkChunk { chunk_addr : Z; chunk_size : Z }.
Record Pool := mkPool { chunk_list : list Chunk; entry_list : list Z }.

(** A contiguous run of pages, [Pages]: first address and number of pages. *)
Record Pages := mkPages { pages_ptr : Z; pages_len : Z }.

(** [Pages::from_raw_u8]. *)
Definition Pages_from_raw_u8 (ptr size : Z) : exec (result Pages unit) :=
  new_begin ← round_up ptr PAGE_SIZE;
  new_end ← round_down (ptr +w size) PAGE_SIZE;
  if (new_end <=? new_begin) || (new_end -w new_begin <? PAGE_SIZE) then Done (Err tt)
  else Done (Ok (mkPages new_begin ((new_end -w new_begin) / PAGE_SIZE))).

Definition Pool_new : Pool := mkPool [] [].

(** [Pool::alloc]. *)
Definition Pool_alloc (p : Pool) : result Z unit * Pool :=
  match entry_list p with
  | entry :: es => (Ok entry, mkPool (chunk_list p) es)
  | [] =>
      match chunk_list p with
      | [] => (Err tt, p)
      | chunk :: cs =>
          let cs' :=
            if 1 <? chunk_size chunk
            then mkChunk (chunk_addr chunk +w PAGE_SIZE) (chunk_size chunk -w 1) :: cs
            else cs in
          (Ok (chunk_addr chunk), mkPool cs' [])
      end
  end.

(** The closure of [Pool::alloc_pages] that tests one chunk. *)
Definition chunk_fits (size align : Z) (chunk : Chunk) : exec (option (Z * Z * Z * Z)) :=
  let chunk_start := chunk_addr chunk in
  let chunk_end := chunk_start +w chunk_size chunk *w PAGE_SIZE in
  start ← round_up chunk_start (align *w PAGE_SIZE);
  let end_ := start +w size *w PAGE_SIZE in
  if (chunk_start <=? start) && (start <=? end_) && (end_ <=? chunk_end)
  then Done (Some (chunk_start, chunk_end, start, end_))
  else Done None.

(** [Pool::alloc_pages]. *)
Definition Pool_alloc_pages (p : Pool) (size align : Z) : exec (result Pages unit * Pool) :=
  if (size =? 1) && (align =? 1) then
    match Pool_alloc p with
    | (Ok page, p') => Done (Ok (mkPages page 1), p')
    | (Err _, p') => Done (Err tt, p')
    end
  else
    '(o, cs) ← list_pop_if_some (chunk_fits size align) (chunk_list p);
    match o with
    | None => Done (Err tt, p)
    | Some (_, (chunk_start, chunk_end, start, end_)) =>
        let cs := if chunk_start <? start
                  then mkChunk chunk_start ((start -w chunk_start) / PAGE_SIZE) :: cs else cs in
        let cs := if end_ <? chunk_end
                  then mkChunk end_ ((chunk_end -w end_) / PAGE_SIZE) :: cs else cs in
        Done (Ok (mkPages start size), mkPool cs (entry_list p))
    end.

(** [Pool::free] and [Pool::free_pages]. *)
Definition Pool_free (p : Pool) (page : Z) : Pool :=
  mkPool (chunk_list p) (page :: entry_list p).
Definition Pool_free_pages (p : Pool) (pages : Pages) : Pool :=
  mkPool (mkChunk (pages_ptr pages) (pages_len pages) :: chunk_list p) (entry_list p).

(** [MPool]: [fallback] is null in [MPool_base]. *)
Inductive MPool :=
| MPool_base (pool : Pool)
| MPool_fallback (pool : Pool) (fallback : MPool).

Definition MPool_new : MPool := MPool_base Pool_new.
Definition MPool_new_with_fallback (fallback : MPool) : MPool :=
  MPool_fallback Pool_new fallback.

Definition mpool_pool (m : MPool) : Pool :=
  match m with MPool_base p | MPool_fallback p _ => p end.
Definition mpool_with_pool (m : MPool) (p : Pool) : MPool :=
  match m with MPool_base _ => MPool_base p | MPool_fallback _ f => MPool_fallback p f end.

(** [MPool::new_from]: the new pool and what is left of [from]. *)
Definition MPool_new_from (from : MPool) : MPool * MPool :=
  (from, mpool_with_pool from Pool_new).

(** [MPool::alloc]. *)
Fixpoint MPool_alloc (m : MPool) : result Z unit * MPool :=
  match m with
  | MPool_base p => let '(r, p') := Pool_alloc p in (r, MPool_base p')
  | MPool_fallback p f =>
      match Pool_alloc p with
      | (Ok page, p') => (Ok page, MPool_fallback p' f)
      | (Err _, p') => let '(r, f') := MPool_alloc f in (r, MPool_fallback p' f')
      end
  end.

(** [MPool::alloc_pages]. *)
Fixpoint MPool_alloc_pages (m : MPool) (count align : Z) : exec (result Pages unit * MPool) :=
  match m with
  | MPool_base p => '(r, p') ← Pool_alloc_pages p count align; Done (r, MPool_base p')
  | MPool_fallback p f =>
      '(r, p') ← Pool_alloc_pages p count align;
      match r with
      | Ok pages => Done (Ok pages, MPool_fallback p' f)
      | Err _ => '(r, f') ← MPool_alloc_pages f count align; Done (r, MPool_fallback p' f')
      end
  end.

(** [MPool::free] and [MPool::free_pages]. *)
Definition MPool_free (m : MPool) (page : Z) : MPool :=
  mpool_with_pool m (Pool_free (mpool_pool m) page).
Definition MPool_free_pages (m : MPool) (pages : Pages) : MPool :=
  mpool_with_pool m (Pool_free_pages (mpool_pool m) pages).

(** The two [while let Some(..) = pop()] loops of [MPool::drop]: each element
    popped from one list is pushed on the other. *)
Fixpoint drain {A} (from to : list A) : list A :=
  match from with [] => to | x :: from' => drain from' (x :: to) end.

(** [Drop for MPool]: with a fallback, the fallback after the merge; without
    one, the free pages are leaked. *)
Definition MPool_drop (m : MPool) : option MPool :=
  match m with
  | MPool_base _ => None
  | MPool_fallback p f =>
      let pf := mpool_pool f in
      Some (mpool_with_pool f
              (mkPool (drain (chunk_list p) (chunk_list pf))
                      (drain (entry_list p) (entry_list pf))))
  end.

(** [mpool_add_chunk]. *)
Definition mpool_add_chunk (m : MPool) (begin size : Z) : exec (bool * MPool) :=
  r ← Pages_from_raw_u8 begin size;
  match r with
  | Ok pages => Done (true, MPool_free_pages m pages)
  | Err _ => Done (false, m)
  end.

(** [mpool_alloc] and [mpool_alloc_contiguous]: null on failure. *)
Definition mpool_alloc (m : MPool) : Z * MPool :=
  let '(r, m') := MPool_alloc m in
  (match r with Ok page => page | Err _ => 0 end, m').
Definition mpool_alloc_contiguous (m : MPool) (count align : Z) : exec (Z * MPool) :=
  '(r, m') ← MPool_alloc_pages m count align;
  Done (match r with Ok pages => pages_ptr pages | Err _ => 0 end, m').

(** ** The pages a pool holds *)

(** The addresses of the [n] pages from [a] on. *)
Definition page_run (a : Z) (n : Z) : list Z := (λ i, a + i * 4096) <$> seqZ 0 n.
Definition chunk_pages (c : Chunk) : list Z := page_run (chunk_addr c) (chunk_size c).
Definition pool_pages (p : Pool) : list Z :=
  entry_list p ++ mjoin (chunk_pages <$> chunk_list p).
Fixpoint mpool_pages (m : MPool) : list Z :=
  match m with
  | MPool_base p => pool_pages p
  | MPool_fallback p f => pool_pages p ++ mpool_pages f
  end.

(** A page the hypervisor can own: non-null, page aligned, below the top page. *)
Definition page_ok (a : Z) : Prop := aligned 4096 a ∧ 0 < a ∧ a + 4096 < 2 ^ 64.
Definition chunk_ok (c : Chunk) : Prop :=
  aligned 4096 (chunk_addr c) ∧ 0 < chunk_addr c ∧ 1 ≤ chunk_size c ∧
  chunk_addr c + chunk_size c * 4096 < 2 ^ 64.
Definition pool_ok (p : Pool) : Prop :=
  Forall chunk_ok (chunk_list p) ∧ Forall page_ok (entry_list p).
Fixpoint mpool_ok (m : MPool) : Prop :=
  match m with
  | MPool_base p => pool_ok p
  | MPool_fallback p f => pool_ok p ∧ mpool_ok f
  end.

(** ** Facts about page runs *)
Lemma page_run_app a n m :
  0 ≤ n → 0 ≤ m → page_run a (n + m) = page_run a n ++ page_run (a + n * 4096) m.
Proof.
  intros. unfold page_run. rewrite seqZ_app, fmap_app by done. f_equal.
  rewrite Z.add_0_l. replace n with (n + 0) at 1 by lia. rewrite <-(fmap_add_seqZ n 0 m).
  rewrite <-list_fmap_compose. apply list_fmap_ext. intros i x _. simpl. lia.
Qed.
Lemma page_run_1 a : page_run a 1 = [a].
Proof. unfold page_run. simpl. f_equal. lia. Qed.

Lemma elem_of_page_run a n x :
  x ∈ page_run a n ↔ ∃ i, 0 ≤ i < n ∧ x = a + i * 4096.
Proof.
  unfold page_run. rewrite list_elem_of_fmap. split.
  - intros (i & -> & Hi%elem_of_seqZ). exists i. split; [lia|done].
  - intros (i & Hi & ->). exists i. split; [done|]. apply elem_of_seqZ. lia.
Qed.

Lemma page_run_nodup a n : NoDup (page_run a n).
Proof. apply NoDup_fmap_2_strong; [intros; lia|apply NoDup_seqZ]. Qed.

Lemma page_ok_run a n x :
  aligned 4096 a → 0 < a → a + n * 4096 < 2 ^ 64 → x ∈ page_run a n → page_ok x.
Proof.
  intros Ha Hp Hn (i & Hi & ->)%elem_of_page_run. unfold page_ok. split; [|lia].
  auto with hfo2.
Qed.

Lemma pool_ok_pages p : pool_ok p → Forall page_ok (pool_pages p).
Proof.
  intros [Hc He]. unfold pool_pages. apply Forall_app. split; [done|].
  apply Forall_forall. intros x (l & Hx & (c & -> & Hin)%list_elem_of_fmap)%list_elem_of_join.
  rewrite Forall_forall in Hc. destruct (Hc _ Hin) as (?&?&?&?).
  by eapply page_ok_run.
Qed.

Lemma mpool_ok_pages m : mpool_ok m → Forall page_ok (mpool_pages m).
Proof.
  induction m as [p|p f IH]; simpl; [apply pool_ok_pages|].
  intros [??]. apply Forall_app. eauto using pool_ok_pages.
Qed.

Lemma pool_pages_chunk a n cs es :
  pool_pages (mkPool (mkChunk a n :: cs) es) ≡ₚ page_run a n ++ pool_pages (mkPool cs es).
Proof. unfold pool_pages. cbn. rewrite !app_assoc. by rewrite (Permutation_app_comm es). Qed.

(** ** [Pool::alloc] *)
Lemma Pool_alloc_spec p :
  pool_ok p →
  match Pool_alloc p with
  | (Ok page, p') => pool_pages p ≡ₚ page :: pool_pages p' ∧ pool_ok p' ∧ page_ok page
  | (Err _, p') => p' = p ∧ pool_pages p = []
  end.
Proof.
  intros [Hc He]. unfold Pool_alloc. destruct p as [cs es]; simpl in *.
  destruct es as [|e es]; [|by apply Forall_cons in He as [??]].
  destruct cs as [|[a n] cs]; [done|].
  apply Forall_cons in Hc as [(Ha & Hpos & Hn & Hb) Hc]; cbn [chunk_addr chunk_size] in *.
  rewrite pool_pages_chunk. destruct (Z.ltb_spec 1 n).
  - rewrite PAGE_SIZE_val, wadd_small, wsub_small by lia.
    rewrite pool_pages_chunk. split_and!.
    + replace n with (1 + (n - 1)) at 1 by lia.
      rewrite page_run_app, page_run_1 by lia. by rewrite Z.mul_1_l.
    + split; simpl; [|done]. constructor; [|done]. unfold chunk_ok; simpl.
      split_and!; [|lia..]. apply aligned_add; [done|by vm_compute].
    + split_and!; [done|lia..].
  - assert (n = 1) as -> by lia. rewrite page_run_1.
    split; [done|]. split; [by split|]. split_and!; [done|lia..].
Qed.

(** ** [Pool::alloc_pages] *)
Lemma list_pop_if_some_spec {A R} (cond : A → exec (option R)) l o l' :
  list_pop_if_some cond l = Done (o, l') →
  match o with
  | Some (x, r) => ∃ l1 l2, l = l1 ++ x :: l2 ∧ l' = l1 ++ l2 ∧ cond x = Done (Some r) ∧
                            Forall (λ y, cond y = Done None) l1
  | None => l' = l ∧ Forall (λ y, cond y = Done None) l
  end.
Proof.
  revert o l'. induction l as [|x l IH]; intros o l' H; simpl in H.
  { simplify_eq. done. }
  destruct (cond x) as [[r|]|] eqn:Hc; simpl in H; [| |done].
  - simplify_eq. exists [], l'. done.
  - apply bind_Done_inv in H as ([res l''] & H & [= <- <-]).
    specialize (IH _ _ H). destruct res as [[y r]|].
    + destruct IH as (l1 & l2 & -> & -> & Hy & Hall). exists (x :: l1), l2. eauto.
    + destruct IH as [-> ?]. eauto.
Qed.

Lemma list_pop_if_some_total {A R} (cond : A → exec (option R)) l :
  (∀ x, ∃ o, cond x = Done o) → ∃ o l', list_pop_if_some cond l = Done (o, l').
Proof.
  intros Hc. induction l as [|x l (o & l' & IH)]; simpl; [eauto|].
  destruct (Hc x) as [[r|] ->]; simpl; [eauto|]. rewrite IH. simpl. eauto.
Qed.

Lemma round_up_total a b : b ≠ 0 → ∃ r, round_up a b = Done r.
Proof.
  intros. unfold round_up, div_ceil. destruct (Z.eqb_spec b 0); [done|]. simpl. eauto.
Qed.

(** [round_up] with possible wrap-around: whenever the result is not below the
    argument it is the aligned address just above it. *)
Lemma round_up_ge a b r :
  in_u 64 a → 0 < b < 2 ^ 64 → round_up a b = Done r → a ≤ r →
  aligned b r ∧ a ≤ r < a + b ∧ r < 2 ^ 64.
Proof.
  intros [Ha1 Ha2] Hb Hr Hle. unfold round_up, div_ceil in Hr.
  destruct (Z.eqb_spec b 0); [lia|]. simpl in Hr.
  assert (a +w b -w 1 = (a + b - 1) mod 2 ^ 64) as Hx.
  { unfold wadd, wsub, wrap. by rewrite Zminus_mod_idemp_l. }
  rewrite Hx in Hr. set (x := (a + b - 1) mod 2 ^ 64) in *.
  pose proof (Z.mod_pos_bound (a + b - 1) (2 ^ 64) ltac:(lia)) as Hxb. fold x in Hxb.
  pose proof (Z.div_mod x b ltac:(lia)). pose proof (Z.mod_pos_bound x b ltac:(lia)).
  assert (0 ≤ x / b) by (apply Z.div_pos; lia).
  rewrite wmul_small in Hr by nia. injection Hr as <-.
  split; [apply aligned_mul|]. split; [|lia]. split; [done|].
  destruct (decide (a + b - 1 < 2 ^ 64)).
  - assert (x = a + b - 1) by (apply Z.mod_small; lia). lia.
  - assert (x = a + b - 1 - 2 ^ 64).
    { unfold x. rewrite <-(Z_mod_plus_full _ (-1)). apply Z.mod_small. lia. }
    lia.
Qed.

Lemma chunk_fits_some size align c cs ce s e :
  chunk_ok c → 0 ≤ size < 2 ^ 52 → 0 < align < 2 ^ 52 →
  chunk_fits size align c = Done (Some (cs, ce, s, e)) →
  cs = chunk_addr c ∧ ce = cs + chunk_size c * 4096 ∧ e = s + size * 4096 ∧
  aligned (align * 4096) s ∧ cs ≤ s ∧ e ≤ ce.
Proof.
  intros (Ha & Hp & Hn & Hb) Hs Hal Hf. unfold chunk_fits in Hf.
  rewrite PAGE_SIZE_val, !wmul_small in Hf by lia.
  apply bind_Done_inv in Hf as (r & Hr & Hf).
  rewrite (wadd_small (chunk_addr c)) in Hf by lia.
  destruct ((_ <=? _) && _ && _) eqn:Hcond; [|done].
  apply andb_prop in Hcond as [[Hc1 Hc2]%andb_prop Hc3].
  apply Z.leb_le in Hc1, Hc2, Hc3. injection Hf as <- <- <- He.
  apply round_up_ge in Hr as (Hra & Hrb & Hrw); [|split; lia|lia|done].
  pose proof (wrap_range 64 (r + size * 4096) ltac:(lia)) as [_ Hw].
  assert (r + size * 4096 < 2 ^ 64).
  { destruct (decide (r + size * 4096 < 2 ^ 64)); [done|]. exfalso.
    assert (r +w size * 4096 = r + size * 4096 - 2 ^ 64); [|lia].
    unfold wadd, wrap. rewrite <-(Z_mod_plus_full _ (-1)). apply Z.mod_small. lia. }
  rewrite wadd_small in * by lia. subst e. split_and!; auto; lia.
Qed.

(** For a power-of-two alignment, a chunk is rejected only if it has no room. *)
Lemma chunk_fits_none size j c s :
  chunk_ok c → 0 ≤ size < 2 ^ 52 → 0 ≤ j < 52 →
  chunk_fits size (2 ^ j) c = Done None →
  aligned (2 ^ j * 4096) s → chunk_addr c ≤ s →
  s + size * 4096 ≤ chunk_addr c + chunk_size c * 4096 → False.
Proof.
  intros (Ha & Hp & Hn & Hb) Hs Hj Hf Hal Hle Hroom. unfold chunk_fits in Hf.
  assert (2 ^ j < 2 ^ 52) by (apply Z.pow_lt_mono_r; lia).
  rewrite PAGE_SIZE_val, !wmul_small in Hf by lia.
  set (b := 2 ^ j * 4096) in *. rewrite (wadd_small (chunk_addr c)) in Hf by lia.
  assert (Hs64 : s + b ≤ 2 ^ 64).
  { apply aligned_exists in Hal as [q ->]; [|lia].
    assert (HK : 2 ^ 64 = 2 ^ (52 - j) * b).
    { unfold b. change 4096 with (2 ^ 12). rewrite <-!Z.pow_add_r by lia. f_equal. lia. }
    assert (Hq : q * b < 2 ^ (52 - j) * b) by lia.
    apply Z.mul_lt_mono_pos_r in Hq; [|lia]. rewrite HK.
    replace (q * b + b) with ((q + 1) * b) by lia. apply Z.mul_le_mono_nonneg_r; lia. }
  destruct (round_up_spec (chunk_addr c) b) as (r & Hr & Hra & Hrb); [lia..|].
  rewrite Hr in Hf. simpl in Hf.
  assert (r ≤ s).
  { apply aligned_exists in Hal as [q ->]; [|lia].
    apply aligned_exists in Hra as [q' ->]; [|lia].
    assert (Hq : q' * b < (q + 1) * b) by lia.
    apply Z.mul_lt_mono_pos_r in Hq; [|lia]. apply Z.mul_le_mono_nonneg_r; lia. }
  rewrite wadd_small in Hf by lia.
  destruct (Z.leb_spec (chunk_addr c) r); [|lia].
  destruct (Z.leb_spec r (r + size * 4096)); [|lia].
  destruct (Z.leb_spec (r + size * 4096) (chunk_addr c + chunk_size c * 4096)); [done|lia].
Qed.

Lemma pool_pages_middle l1 c l2 es :
  pool_pages (mkPool (l1 ++ c :: l2) es) ≡ₚ chunk_pages c ++ pool_pages (mkPool (l1 ++ l2) es).
Proof.
  destruct c as [a n]. change (chunk_pages (mkChunk a n)) with (page_run a n).
  rewrite <-pool_pages_chunk. unfold pool_pages; cbn [chunk_list entry_list].
  by rewrite <-Permutation_middle.
Qed.

(** Putting the two ends of a chunk back: the pages of [[cs, s)] and [[e, ce)]. *)
Lemma give_back_chunk lo hi cs es :
  aligned 4096 lo → aligned 4096 hi → 0 < lo ≤ hi → hi < 2 ^ 64 → pool_ok (mkPool cs es) →
  let p' := mkPool (if lo <? hi then mkChunk lo ((hi -w lo) / PAGE_SIZE) :: cs else cs) es in
  pool_ok p' ∧ pool_pages p' ≡ₚ page_run lo ((hi - lo) / 4096) ++ pool_pages (mkPool cs es).
Proof.
  intros Hlo Hhi Hle Hb Hok. rewrite PAGE_SIZE_val, wsub_small by lia. simpl.
  apply aligned_exists in Hlo as [a ->]; [|lia]. apply aligned_exists in Hhi as [b ->]; [|lia].
  replace ((b * 4096 - a * 4096) / 4096) with (b - a)
    by (rewrite <-Z.mul_sub_distr_r, Z.div_mul by lia; done).
  destruct (Z.ltb_spec (a * 4096) (b * 4096)).
  - split; [|by rewrite pool_pages_chunk].
    destruct Hok as [??]. split; [|done]. simpl. constructor; [|done].
    unfold chunk_ok; simpl. split_and!; [apply aligned_mul|lia..].
  - replace (b - a) with 0 by lia. done.
Qed.

Lemma Pool_alloc_pages_spec p size align r p' :
  pool_ok p → 0 < size < 2 ^ 52 → 0 < align < 2 ^ 52 →
  Pool_alloc_pages p size align = Done (r, p') →
  match r with
  | Ok pg => pages_len pg = size ∧ aligned (align * 4096) (pages_ptr pg) ∧ 0 < pages_ptr pg ∧
             pages_ptr pg + size * 4096 < 2 ^ 64 ∧
             pool_pages p ≡ₚ page_run (pages_ptr pg) size ++ pool_pages p' ∧ pool_ok p'
  | Err _ => p' = p
  end.
Proof.
  intros Hok Hs Hal H. unfold Pool_alloc_pages in H.
  destruct ((size =? 1) && (align =? 1)) eqn:H1.
  { apply andb_prop in H1 as [->%Z.eqb_eq ->%Z.eqb_eq].
    pose proof (Pool_alloc_spec p Hok) as Ha. destruct (Pool_alloc p) as [[page|] q]; simplify_eq.
    - destruct Ha as (Hp & Hq & Hg1 & Hg2 & Hg3). rewrite page_run_1. simpl. split_and!; auto; lia.
    - by destruct Ha. }
  apply bind_Done_inv in H as ([o cs] & Hpop%list_pop_if_some_spec & H).
  destruct o as [[c [[[lo hi] s] e]]|]; [|by simplify_eq].
  destruct Hpop as (l1 & l2 & Hl & -> & Hc & _). injection H as <- <-.
  destruct p as [cl es]; cbn [chunk_list entry_list] in *; subst cl.
  destruct Hok as [Hcl Hes]; cbn [chunk_list entry_list] in *.
  apply Forall_app in Hcl as [Hl1 Hl2]. apply Forall_cons in Hl2 as [Hck Hl2].
  apply chunk_fits_some in Hc as (-> & -> & -> & Hsa & Hle & Hroom); [|done|lia|lia].
  destruct Hck as (Hca & Hcp & Hcn & Hcb).
  assert (Hs4 : aligned 4096 s).
  { apply aligned_exists in Hsa as [q ->]; [|lia]. rewrite Z.mul_assoc. apply aligned_mul. }
  destruct (give_back_chunk (chunk_addr c) s (l1 ++ l2) es) as [Hok1 Hp1];
    [done..|lia|lia|by split; [apply Forall_app|]|].
  destruct (give_back_chunk (s + size * 4096) (chunk_addr c + chunk_size c * 4096)
              (if chunk_addr c <? s
               then mkChunk (chunk_addr c) ((s -w chunk_addr c) / PAGE_SIZE) :: l1 ++ l2
               else l1 ++ l2) es) as [Hok2 Hp2];
    [auto with hfo2..|lia|lia|done|].
  simpl. split_and!; [done|done|lia|lia| |done].
  rewrite pool_pages_middle, Hp2, Hp1. unfold chunk_pages.
  apply aligned_exists in Hs4 as [q ->]; [|lia].
  apply aligned_exists in Hca as [a Ha]; [|lia]. rewrite Ha in *.
  rewrite <-Z.mul_sub_distr_r, Z.div_mul by lia.
  replace (a * 4096 + chunk_size c * 4096 - (q * 4096 + size * 4096))
    with ((a + chunk_size c - (q + size)) * 4096) by lia. rewrite Z.div_mul by lia.
  replace (chunk_size c) with ((q - a) + (size + (a + chunk_size c - (q + size)))) at 1 by lia.
  rewrite (page_run_app _ (q - a)), (page_run_app _ size) by lia.
  replace (a * 4096 + (q - a) * 4096) with (q * 4096) by lia.
  rewrite !app_assoc. apply Permutation_app_tail.
  rewrite <-!app_assoc. by rewrite (Permutation_app_comm (page_run (a * 4096) _)), <-!app_assoc.
Qed.

Lemma Pool_alloc_pages_total p size align :
  0 < align < 2 ^ 52 → ∃ r p', Pool_alloc_pages p size align = Done (r, p').
Proof.
  intros Hal. unfold Pool_alloc_pages. destruct (_ && _).
  { destruct (Pool_alloc p) as [[?|?] ?]; eauto. }
  destruct (list_pop_if_some_total (chunk_fits size align) (chunk_list p)) as (o & l & ->).
  { intros c. unfold chunk_fits. rewrite PAGE_SIZE_val, (wmul_small align) by lia.
    destruct (round_up_total (chunk_addr c) (align * 4096)) as [r ->]; [lia|]. cbn.
    destruct (_ && _); eauto. }
  cbn. destruct o as [[? [[[??]?]?]]|]; eauto.
Qed.

(** ** The chain of pools *)
Lemma mpool_with_pool_id m : mpool_with_pool m (mpool_pool m) = m.
Proof. by destruct m. Qed.

Lemma MPool_alloc_spec m :
  mpool_ok m →
  match MPool_alloc m with
  | (Ok page, m') => mpool_pages m ≡ₚ page :: mpool_pages m' ∧ mpool_ok m' ∧ page_ok page
  | (Err _, m') => m' = m ∧ mpool_pages m = []
  end.
Proof.
  induction m as [p|p f IH]; simpl.
  - intros Hp. pose proof (Pool_alloc_spec p Hp). destruct (Pool_alloc p) as [[?|?] q]; simpl; [done|].
    naive_solver.
  - intros [Hp Hf]. pose proof (Pool_alloc_spec p Hp) as Ha.
    destruct (Pool_alloc p) as [[pg|e] q]; simpl.
    { destruct Ha as (Ha & ? & ?). split_and!; [|done..]. by rewrite Ha. }
    destruct Ha as [-> Hnil]. specialize (IH Hf). rewrite Hnil.
    destruct (MPool_alloc f) as [[pg|e'] f']; simpl.
    { destruct IH as (IH & ? & ?). rewrite Hnil. done. }
    by destruct IH as [-> ->].
Qed.

Lemma mpool_pages_with_pool m p' extra :
  pool_pages p' ≡ₚ extra ++ pool_pages (mpool_pool m) →
  mpool_pages (mpool_with_pool m p') ≡ₚ extra ++ mpool_pages m.
Proof. destruct m; simpl; [done|]. intros ->. by rewrite app_assoc. Qed.

Lemma mpool_ok_pool m : mpool_ok m → pool_ok (mpool_pool m).
Proof. destruct m; simpl; tauto. Qed.
Lemma mpool_ok_with_pool m p' : mpool_ok m → pool_ok p' → mpool_ok (mpool_with_pool m p').
Proof. destruct m; simpl; tauto. Qed.
#[export] Hint Resolve mpool_ok_pool mpool_ok_with_pool : hfo2.

Lemma MPool_free_spec m page :
  mpool_ok m → page_ok page →
  mpool_pages (MPool_free m page) ≡ₚ page :: mpool_pages m ∧ mpool_ok (MPool_free m page).
Proof.
  intros Hm Hp. split.
  - by apply (mpool_pages_with_pool m _ [page]).
  - apply mpool_ok_with_pool; [done|]. destruct (mpool_ok_pool m Hm). split; [done|]. by constructor.
Qed.

(** A run of pages that may be given to a pool. *)
Definition pages_ok (pg : Pages) : Prop := chunk_ok (mkChunk (pages_ptr pg) (pages_len pg)).

Lemma MPool_free_pages_spec m pg :
  mpool_ok m → pages_ok pg →
  mpool_pages (MPool_free_pages m pg) ≡ₚ page_run (pages_ptr pg) (pages_len pg) ++ mpool_pages m ∧
  mpool_ok (MPool_free_pages m pg).
Proof.
  intros Hm Hp. split.
  - apply (mpool_pages_with_pool m). unfold Pool_free_pages. rewrite pool_pages_chunk.
    by destruct (mpool_pool m).
  - apply mpool_ok_with_pool; [done|]. destruct (mpool_ok_pool m Hm). split; [|done]. by constructor.
Qed.

Lemma MPool_alloc_pages_spec m size align :
  mpool_ok m → 0 < size < 2 ^ 52 → 0 < align < 2 ^ 52 →
  ∃ r m', MPool_alloc_pages m size align = Done (r, m') ∧ mpool_ok m' ∧
  match r with
  | Ok pg => pages_len pg = size ∧ aligned (align * 4096) (pages_ptr pg) ∧ pages_ok pg ∧
             mpool_pages m ≡ₚ page_run (pages_ptr pg) size ++ mpool_pages m'
  | Err _ => m' = m
  end.
Proof.
  intros Hm Hs Hal.
  assert (Hok : ∀ p pg q, Pool_alloc_pages p size align = Done (Ok pg, q) → pool_ok p →
    pool_ok q ∧ pages_len pg = size ∧ aligned (align * 4096) (pages_ptr pg) ∧ pages_ok pg ∧
    pool_pages p ≡ₚ page_run (pages_ptr pg) size ++ pool_pages q).
  { intros p pg q Hq Hp. apply Pool_alloc_pages_spec in Hq as (Hl & Ha & H0 & Hb & Hpp & Hq);
      [|done..]. split_and!; [done..| |done]. unfold pages_ok, chunk_ok; simpl. rewrite Hl.
    split_and!; [|lia..]. apply aligned_exists in Ha as [k ->]; [|lia].
    rewrite Z.mul_assoc. apply aligned_mul. }
  induction m as [p|p f IH]; simpl in *;
    destruct (Pool_alloc_pages_total p size align Hal) as (r & q & Hq); rewrite Hq; cbn.
  - destruct r as [pg|]; do 2 eexists; (split; [done|]); simpl.
    { destruct (Hok _ _ _ Hq Hm) as (?&?&?&?&?). done. }
    apply Pool_alloc_pages_spec in Hq as ->; done.
  - destruct Hm as [Hp Hf]. destruct r as [pg|].
    { do 2 eexists. split; [done|]. destruct (Hok _ _ _ Hq Hp) as (?&?&?&?&Hpp). simpl.
      split_and!; [done..|]. by rewrite Hpp, app_assoc. }
    apply Pool_alloc_pages_spec in Hq as ->; [|done..].
    destruct (IH Hf) as (r & f' & -> & Hf' & Hr). cbn. do 2 eexists. split; [done|].
    split; [done|]. destruct r as [pg|]; [|by subst].
    destruct Hr as (?&?&?&Hpp). split_and!; [done..|]. simpl. rewrite Hpp, !app_assoc.
    by rewrite (Permutation_app_comm (pool_pages p)).
Qed.

Lemma drain_spec {A} (from to : list A) : drain from to = reverse from ++ to.
Proof.
  revert to. induction from as [|x from IH]; intros to; [done|].
  simpl. rewrite IH, reverse_cons, <-app_assoc. done.
Qed.

Lemma pool_pages_drain p pf :
  pool_pages (mkPool (drain (chunk_list p) (chunk_list pf)) (drain (entry_list p) (entry_list pf)))
  ≡ₚ pool_pages p ++ pool_pages pf.
Proof.
  unfold pool_pages. cbn [chunk_list entry_list]. rewrite !drain_spec, !reverse_Permutation.
  rewrite fmap_app, join_app. rewrite <-!app_assoc. apply Permutation_app_head.
  rewrite !app_assoc. apply Permutation_app_tail, Permutation_app_comm.
Qed.

Lemma MPool_drop_spec p f :
  mpool_ok (MPool_fallback p f) →
  ∃ f', MPool_drop (MPool_fallback p f) = Some f' ∧ mpool_ok f' ∧
        mpool_pages f' ≡ₚ mpool_pages (MPool_fallback p f).
Proof.
  intros [[Hpc Hpe] Hf]. eexists. split; [done|].
  destruct (mpool_ok_pool f Hf) as [Hfc Hfe]. split.
  - apply mpool_ok_with_pool; [done|]. split; simpl; rewrite drain_spec, Forall_app; split; auto;
      by apply Forall_reverse.
  - apply (mpool_pages_with_pool f). apply pool_pages_drain.
Qed.

(** ** Correctness of the pool *)

(** A pool and the pages its clients hold.  Clients free only what they hold. *)
Inductive pool_step : MPool * list Z → MPool * list Z → Prop :=
| step_alloc m held page m' :
    MPool_alloc m = (Ok page, m') → pool_step (m, held) (m', page :: held)
| step_alloc_fail m held e m' :
    MPool_alloc m = (Err e, m') → pool_step (m, held) (m', held)
| step_alloc_pages m held count align pg m' :
    0 < count < 2 ^ 52 → 0 < align < 2 ^ 52 →
    MPool_alloc_pages m count align = Done (Ok pg, m') →
    pool_step (m, held) (m', page_run (pages_ptr pg) (pages_len pg) ++ held)
| step_alloc_pages_fail m held count align e m' :
    0 < count < 2 ^ 52 → 0 < align < 2 ^ 52 →
    MPool_alloc_pages m count align = Done (Err e, m') → pool_step (m, held) (m', held)
| step_free m page held :
    page_ok page → pool_step (m, page :: held) (MPool_free m page, held)
| step_free_pages m pg held held' :
    pages_ok pg → held ≡ₚ page_run (pages_ptr pg) (pages_len pg) ++ held' →
    pool_step (m, held) (MPool_free_pages m pg, held')
| step_permute m held held' : held ≡ₚ held' → pool_step (m, held) (m, held').

Lemma pool_step_inv c c' :
  pool_step c c' → mpool_ok c.1 →
  mpool_ok c'.1 ∧ c'.2 ++ mpool_pages c'.1 ≡ₚ c.2 ++ mpool_pages c.1.
Proof.
  intros Hs Hm. destruct Hs as
    [m held page m' Ha|m held e m' Ha|m held n al pg m' Hn Hal Ha|m held n al e m' Hn Hal Ha
    |m page held Hp|m pg held held' Hp Hh|m held held' Hh]; cbn [fst snd] in *.
  - pose proof (MPool_alloc_spec m Hm) as H. rewrite Ha in H. destruct H as (Hpp & ? & _).
    split; [done|]. rewrite Hpp. apply (Permutation_middle held).
  - pose proof (MPool_alloc_spec m Hm) as H. rewrite Ha in H. by destruct H as [-> _].
  - destruct (MPool_alloc_pages_spec m n al Hm Hn Hal) as (r & m2 & Heq & Hm2 & Hr).
    rewrite Ha in Heq. simplify_eq. destruct Hr as (Hl & _ & _ & Hpp). split; [done|].
    rewrite Hl, Hpp, !app_assoc. by rewrite (Permutation_app_comm held).
  - destruct (MPool_alloc_pages_spec m n al Hm Hn Hal) as (r & m2 & Heq & Hm2 & Hr).
    rewrite Ha in Heq. by simplify_eq.
  - destruct (MPool_free_spec m page Hm Hp) as [Hpp ?]. split; [done|]. rewrite Hpp.
    symmetry. apply (Permutation_middle held).
  - destruct (MPool_free_pages_spec m pg Hm Hp) as [Hpp ?]. split; [done|].
    rewrite Hpp, Hh, !app_assoc. by rewrite (Permutation_app_comm held').
  - split; [done|]. by rewrite Hh.
Qed.

(** C36: no page is handed out twice.  Through any sequence of single and
    contiguous allocations and frees, the pages held by clients and the free
    pages of the pool and its fallbacks together stay the initial pages, each
    owned once. *)
Theorem mpool_no_double_alloc m0 m held :
  mpool_ok m0 → NoDup (mpool_pages m0) → rtc pool_step (m0, []) (m, held) →
  NoDup (held ++ mpool_pages m) ∧ held ++ mpool_pages m ≡ₚ mpool_pages m0 ∧ mpool_ok m.
Proof.
  intros Hm0 Hnd Hrun.
  assert (Hinv : mpool_ok m ∧ held ++ mpool_pages m ≡ₚ mpool_pages m0).
  { change (mpool_ok (m, held).1 ∧ (m, held).2 ++ mpool_pages (m, held).1 ≡ₚ mpool_pages m0).
    revert Hrun. generalize (m, held). intros c0 Hrun.
    refine (rtc_ind_r (λ c, mpool_ok c.1 ∧ c.2 ++ mpool_pages c.1 ≡ₚ mpool_pages m0)
              (m0, []) _ _ c0 Hrun); [done|].
    intros c c' _ Hs [Hok Hpp]. destruct (pool_step_inv c c' Hs Hok) as [? Hpp'].
    split; [done|]. by rewrite Hpp'. }
  destruct Hinv as [Hok Hpp]. split_and!; [|done|done]. by rewrite Hpp.
Qed.

(** [alloc] fails only when the pool and all its fallbacks are empty. *)
Theorem mpool_alloc_complete m :
  mpool_ok m → is_ok (MPool_alloc m).1 = false ↔ mpool_pages m = [].
Proof.
  intros Hm. pose proof (MPool_alloc_spec m Hm) as H.
  destruct (MPool_alloc m) as [[page|e] m']; cbn.
  - destruct H as (Hpp & _). split; [done|]. intros Hn. rewrite Hn in Hpp.
    by apply Permutation_nil_cons in Hpp.
  - by destruct H as [_ ->].
Qed.

(** No chunk of the pool or its fallbacks has room for an aligned run. *)
Fixpoint no_run (m : MPool) (size align : Z) : Prop :=
  let none p := ∀ c s, c ∈ chunk_list p → aligned (align * 4096) s → chunk_addr c ≤ s →
    s + size * 4096 ≤ chunk_addr c + chunk_size c * 4096 → False in
  match m with
  | MPool_base p => none p
  | MPool_fallback p f => none p ∧ no_run f size align
  end.

Lemma Pool_alloc_pages_none p size j p' :
  pool_ok p → 0 < size < 2 ^ 52 → 0 ≤ j < 52 → ¬ (size = 1 ∧ j = 0) →
  Pool_alloc_pages p size (2 ^ j) = Done (Err tt, p') →
  ∀ c s, c ∈ chunk_list p → aligned (2 ^ j * 4096) s → chunk_addr c ≤ s →
    s + size * 4096 ≤ chunk_addr c + chunk_size c * 4096 → False.
Proof.
  intros [Hc _] Hs Hj Hne H c s Hin Hal Hle Hroom. unfold Pool_alloc_pages in H.
  destruct ((size =? 1) && (2 ^ j =? 1)) eqn:H1.
  { apply andb_prop in H1 as [->%Z.eqb_eq H1%Z.eqb_eq]. destruct (decide (j = 0)); [tauto|].
    pose proof (Z.pow_gt_1 2 j). lia. }
  apply bind_Done_inv in H as ([o cs] & Hpop%list_pop_if_some_spec & H).
  destruct o as [[c' [[[lo hi] s'] e']]|]; [done|]. destruct Hpop as [_ Hall].
  rewrite Forall_forall in Hc, Hall.
  by apply (chunk_fits_none size j c s (Hc c Hin)); [lia|lia|apply Hall| | |].
Qed.

(** C37: a contiguous allocation, of any number of pages at an alignment that is a power
    of two (one page at alignment 1 is handed to the allocation of single pages and
    left out here), never panics.  A run it returns has the
    requested length and alignment and comes out of the free pages; it fails only
    if no chunk, in the pool or in a fallback, has an aligned run of that length. *)
Theorem mpool_alloc_pages_correct m size j :
  mpool_ok m → 0 < size < 2 ^ 52 → 0 ≤ j < 52 → ¬ (size = 1 ∧ j = 0) →
  ∃ r m', MPool_alloc_pages m size (2 ^ j) = Done (r, m') ∧ mpool_ok m' ∧
  match r with
  | Ok pg => pages_len pg = size ∧ aligned (2 ^ j * 4096) (pages_ptr pg) ∧
             mpool_pages m ≡ₚ page_run (pages_ptr pg) size ++ mpool_pages m'
  | Err _ => m' = m ∧ no_run m size (2 ^ j)
  end.
Proof.
  intros Hm Hs Hj Hne. assert (0 < 2 ^ j < 2 ^ 52) as Hal.
  { split; [lia|]. apply Z.pow_lt_mono_r; lia. }
  destruct (MPool_alloc_pages_spec m size (2 ^ j) Hm Hs Hal) as (r & m' & Heq & Hm' & Hr).
  exists r, m'. split_and!; [done..|]. destruct r as [pg|[]].
  { destruct Hr as (?&?&_&?). done. }
  split; [done|]. clear Hr Hm'. revert m' Heq. induction m as [p|p f IH]; intros m' Heq; cbn in *.
  - apply bind_Done_inv in Heq as ([r q] & Hq & [= -> <-]). by eapply Pool_alloc_pages_none.
  - destruct Hm as [Hp Hf]. apply bind_Done_inv in Heq as ([[pg|[]] q] & Hq & Heq); [done|].
    apply bind_Done_inv in Heq as ([r f'] & Hf' & [= -> <-]).
    split; [by eapply Pool_alloc_pages_none|by eapply IH].
Qed.

(** Dropping a pool that has a fallback moves every free page to the
    fallback: temporary pools leak nothing. *)
Theorem mpool_drop_returns_pages p f :
  mpool_ok (MPool_fallback p f) →
  ∃ f', MPool_drop (MPool_fallback p f) = Some f' ∧ mpool_ok f' ∧
        mpool_pages f' ≡ₚ mpool_pages (MPool_fallback p f).
Proof. apply MPool_drop_spec. Qed.

(** [mpool_add_chunk] adds exactly the whole pages inside the given memory:
    it accepts iff there is one, and no added page sticks out. *)
Theorem mpool_add_chunk_correct m begin size :
  mpool_ok m → 0 < begin → 0 ≤ size → begin + size + 4096 < 2 ^ 64 →
  ∃ ok m', mpool_add_chunk m begin size = Done (ok, m') ∧ mpool_ok m' ∧
  ∃ added, mpool_pages m' ≡ₚ added ++ mpool_pages m ∧ (ok = false ↔ added = []) ∧
    ∀ a, a ∈ added ↔ aligned 4096 a ∧ begin ≤ a ∧ a + 4096 ≤ begin + size.
Proof.
  intros Hm Hb Hs Hlim. unfold mpool_add_chunk, Pages_from_raw_u8.
  destruct (round_up_spec begin 4096) as (nb & Hnb & Hal & Hr); [lia..|].
  apply aligned_exists in Hal as [q ->]; [|lia].
  rewrite PAGE_SIZE_val, Hnb, wadd_small by lia.
  rewrite round_down_spec by (unfold in_u; lia). cbn [mbind exec_bind].
  pose proof (Z.div_mod (begin + size) 4096 ltac:(lia)).
  pose proof (Z.mod_pos_bound (begin + size) 4096 ltac:(lia)).
  set (ne := begin + size - (begin + size) mod 4096).
  assert (Hne : ne = (begin + size) / 4096 * 4096) by lia. set (e := (begin + size) / 4096) in *.
  rewrite Hne. clear ne Hne.
  destruct (Z.leb_spec (e * 4096) (q * 4096)); cbn [orb].
  { do 2 eexists. split; [done|]. split; [done|]. exists []. split_and!; [done..|].
    intros a. split; [by intros ?%elem_of_nil|]. intros (Hk & ? & ?).
    apply aligned_exists in Hk as [k ->]; lia. }
  rewrite wsub_small by lia.
  destruct (Z.ltb_spec (e * 4096 - q * 4096) 4096); [lia|]. cbn [mbind exec_bind].
  rewrite <-Z.mul_sub_distr_r, Z.div_mul by lia.
  destruct (MPool_free_pages_spec m (mkPages (q * 4096) (e - q))) as [Hpp Hok']; [done| |].
  { unfold pages_ok, chunk_ok; cbn. split_and!; [apply aligned_mul|lia..]. }
  cbn in Hpp. do 2 eexists. split; [done|]. split; [done|]. eexists. split; [exact Hpp|]. split.
  - split; [done|]. intros Hn. assert (q * 4096 ∈ page_run (q * 4096) (e - q)) as Hin.
    { apply elem_of_page_run. exists 0. lia. }
    rewrite Hn in Hin. by apply elem_of_nil in Hin.
  - intros a. rewrite elem_of_page_run. split.
    + intros (i & Hi & ->). split_and!; [|lia..]. auto with hfo2.
    + intros (Hk & ? & ?). apply aligned_exists in Hk as [k ->]; [|lia]. exists (k - q). lia.
Qed.

(** ** Concrete instances *)
Definition demo_pool : MPool := MPool_base (mkPool [mkChunk 0x100000 16] [0x200000]).
Lemma demo_pool_ok : mpool_ok demo_pool.
Proof. split; repeat constructor; vm_compute; congruence. Qed.

Lemma mpool_no_double_alloc_witness :
  NoDup ([0x200000] ++ mpool_pages (MPool_base (mkPool [mkChunk 0x100000 16] []))).
Proof.
  apply (mpool_no_double_alloc demo_pool).
  - exact demo_pool_ok.
  - by_computation.
  - eapply rtc_once, step_alloc. reflexivity.
Defined.

Lemma mpool_alloc_complete_witness : is_ok (MPool_alloc demo_pool).1 = false ↔ mpool_pages demo_pool = [].
Proof. apply (mpool_alloc_complete demo_pool), demo_pool_ok. Defined.

Lemma mpool_alloc_pages_witness :
  ∃ r m', MPool_alloc_pages demo_pool 4 (2 ^ 2) = Done (r, m') ∧ mpool_ok m'.
Proof.
  destruct (mpool_alloc_pages_correct demo_pool 4 2 demo_pool_ok) as (r & m' & ? & ? & _);
    [lia..|]. exists r, m'. done.
Defined.

Lemma mpool_drop_witness :
  ∃ f', MPool_drop (MPool_fallback (mkPool [] [0x300000]) demo_pool) = Some f' ∧ mpool_ok f'.
Proof.
  destruct (mpool_drop_returns_pages (mkPool [] [0x300000]) demo_pool) as (f' & ? & ? & _).
  - split; [split; repeat constructor; vm_compute; congruence|exact demo_pool_ok].
  - exists f'. done.
Defined.

Lemma mpool_add_chunk_witness :
  ∃ ok m', mpool_add_chunk demo_pool 0x300010 0x5000 = Done (ok, m') ∧ mpool_ok m'.
Proof.
  destruct (mpool_add_chunk_correct demo_pool 0x300010 0x5000 demo_pool_ok)
    as (ok & m' & ? & ? & _); [lia..|]. exists ok, m'. done.
Defined.
