(* ===== verification/Mm.v ===== *)
(** * Page tables ([mm.rs])

    A page-table entry owns the table it points to: [PageTableEntry::table]
    consumes the node, [into_table] gives it back, and dropping either without
    freeing the page panics.  So an entry is modelled as a tree: [Leaf] holds the
    raw 64-bit entry, [Table] the address of the owned page and its 512 entries.
    Every predicate is still computed from the raw bits ([inner]) by the
    architecture layer, and following a table entry requires its address bits to
    be those of the owned page.  [&mut] updates return the new entry also when
    the function fails, since the code updates in place. *)
From S2P Require Import Prelude Addr Mode Arch Mpool.

Inductive pte :=
| Leaf (v : Z)
| Table (page : Z) (entries : list pte).

(** The page pool a call gets ([&MPool]), the TLB invalidations issued, and the
    [stage2_invalidate] switch of [MemoryManager]. *)
Inductive stage_id := S1 | S2.
Record MmState := mkMmState {
  st_pool : MPool;
  st_tlb : list (stage_id * Z * Z);
  st_s2_invalidate : bool;
}.
Definition with_pool (st : MmState) (m : MPool) : MmState :=
  mkMmState m (st_tlb st) (st_s2_invalidate st).
Definition log_tlb (st : MmState) (s : stage_id) (b e : Z) : MmState :=
  mkMmState (st_pool st) ((s, b, e) :: st_tlb st) (st_s2_invalidate st).

(** ** [trait Stage] *)
Class Stage := {
  max_level : nat;
  root_table_count : nat;
  invalidate_tlb : Z → Z → MmState → MmState;
  mode_to_attrs : Z → Z;
  attrs_to_mode : Z → exec Z;
}.

Definition Stage1 {A : ArchMM} : Stage := {|
  max_level := arch_mm_stage1_max_level;
  root_table_count := arch_mm_stage1_root_table_count;
  invalidate_tlb b e st := log_tlb st S1 b e;
  mode_to_attrs m := arch_mm_mode_to_stage1_attrs m;
  attrs_to_mode _ := Panic;
|}.

Definition Stage2 {A : ArchMM} : Stage := {|
  max_level := arch_mm_stage2_max_level;
  root_table_count := arch_mm_stage2_root_table_count;
  invalidate_tlb b e st := if st_s2_invalidate st then log_tlb st S2 b e else st;
  mode_to_attrs m := arch_mm_mode_to_stage2_attrs m;
  attrs_to_mode a := Done (Mode.from_bits_truncate (arch_mm_stage2_attrs_to_mode a));
|}.

(** The external crate [reduce]: folds an iterator from its first item. *)
Class ReduceCrate := {
  reduce : ∀ {T}, (T → T → T) → list T → option T;
  reduce_nil {T} (f : T → T → T) : reduce f [] = None;
  reduce_cons {T} (f : T → T → T) x l : reduce f (x :: l) = Some (foldl f x l);
}.

(** ** Loops *)

(** [for x in iter { s = f(s, x)? }] with panics. *)
Fixpoint fold_exec {X S} (f : S → X → exec S) (s : S) (l : list X) : exec S :=
  match l with
  | [] => Done s
  | x :: l => s' ← f s x; fold_exec f s' l
  end.

(** [for (elem, begin) in elems.zip(begins) { f(elem, begin)? }], where the body
    updates the element in place and may fail: on failure the elements already
    visited stay updated and the rest is untouched.  [true] is [Ok(())]. *)
Fixpoint zip_blocks {X} (f : X → Z → MmState → exec (bool * X * MmState))
    (elems : list X) (it : BlockIter) (st : MmState) : exec (bool * list X * MmState) :=
  match elems with
  | [] => Done (true, [], st)
  | e :: rest =>
      match BlockIter_next it with
      | (None, _) => Done (true, elems, st)
      | (Some begin, it') =>
          '(ok, e', st') ← f e begin st;
          if ok : bool then
            '(ok', rest', st'') ← zip_blocks f rest it' st';
            Done (ok', e' :: rest', st'')
          else Done (false, e' :: rest, st')
      end
  end.

(** The pairs the zipped iterators yield. *)
Fixpoint zip_begins {X} (elems : list X) (it : BlockIter) : list (X * Z) :=
  match elems with
  | [] => []
  | e :: rest =>
      match BlockIter_next it with
      | (None, _) => []
      | (Some begin, it') => (e, begin) :: zip_begins rest it'
      end
  end.

(** [ResReduce::res_reduce] of [utils.rs], over a lazy iterator of results. *)
Fixpoint res_reduce_from {T E} (f : T → T → result T E) (acc : T)
    (items : list (exec (result T E))) : exec (result T E) :=
  match items with
  | [] => Done (Ok acc)
  | x :: items =>
      v ← x;
      match v with
      | Err e => Done (Err e)
      | Ok v => match f acc v with
                | Err e => Done (Err e)
                | Ok acc' => res_reduce_from f acc' items
                end
      end
  end.
Definition res_reduce {T E} (dflt : E) (f : T → T → result T E)
    (items : list (exec (result T E))) : exec (result T E) :=
  match items with
  | [] => Done (Err dflt)
  | x :: items =>
      v ← x;
      match v with Err e => Done (Err e) | Ok v => res_reduce_from f v items end
  end.
(** The closure [|l, r| if l == r { Ok(l) } else { Err(()) }]. *)
Definition same_attrs (l r : Z) : result Z unit := if l =? r then Ok l else Err tt.

(** ** Page-table entries *)
Section pte.
Context {A : ArchMM}.

(** The raw bits. *)
Definition inner (level : nat) (e : pte) : Z :=
  match e with
  | Leaf v => v
  | Table p _ => arch_mm_table_pte level (pa_init p)
  end.

Definition absent (level : nat) : pte := Leaf (arch_mm_absent_pte level).
Definition block (level : nat) (begin : paddr_t) (attrs : Z) : pte :=
  Leaf (arch_mm_block_pte level begin attrs).

Definition is_present (level : nat) (e : pte) : bool :=
  arch_mm_pte_is_present (inner level e) level.
Definition is_valid (level : nat) (e : pte) : bool :=
  arch_mm_pte_is_valid (inner level e) level.
Definition is_block (level : nat) (e : pte) : bool :=
  arch_mm_pte_is_block (inner level e) level.
Definition is_table (level : nat) (e : pte) : bool :=
  arch_mm_pte_is_table (inner level e) level.
Definition pte_attrs (level : nat) (e : pte) : Z :=
  arch_mm_pte_attrs (inner level e) level.
Definition as_block_unchecked (level : nat) (e : pte) : paddr_t :=
  arch_mm_block_from_pte (inner level e) level.
Definition as_block (level : nat) (e : pte) : result paddr_t unit :=
  if is_block level e then Ok (as_block_unchecked level e) else Err tt.

(** [as_table], [as_table_mut] and [into_table]: the table the entry points to.
    Following address bits that are not those of the owned page is undefined
    behaviour. *)
Definition as_table (level : nat) (e : pte) : exec (result (Z * list pte) unit) :=
  if is_table level e then
    match e with
    | Table p es =>
        if pa_addr (arch_mm_table_from_pte (inner level e) level) =? p
        then Done (Ok (p, es)) else Panic
    | Leaf _ => Panic
    end
  else Done (Err tt).

(** [PageTableEntry::drop] with [PageTableNode::drop] and [RawPageTable::drop]:
    frees the tables below, then the table's own page.  At level 0 the code's
    [level - 1] underflows. *)
Fixpoint pte_drop (level : nat) (e : pte) (m : MPool) : exec MPool :=
  t ← as_table level e;
  match t with
  | Err _ => Done m
  | Ok (p, es) =>
      match level with
      | O => Panic
      | S l => m' ← fold_exec (λ m e, pte_drop l e m) m es; Done (MPool_free m' p)
      end
  end.

Context {SG : Stage}.

(** [PageTableEntry::replace]: break-before-make when both entries are valid. *)
Definition replace (level : nat) (old new_pte : pte) (begin : Z) (st : MmState)
    : exec (pte * MmState) :=
  let st :=
    if is_valid level old && is_valid level new_pte
    then invalidate_tlb begin (begin +w entry_size level) st else st in
  m ← pte_drop level old (st_pool st);
  Done (new_pte, with_pool st m).

(** The entries [PageTableNode::new] writes in a fresh page. *)
Definition PageTableNode_new (pte_init : nat → pte) : list pte :=
  pte_init <$> seq 0 PTE_PER_PAGE.

(** [PageTableEntry::populate_table]; [true] is [Ok(())]. *)
Definition populate_table (level : nat) (e : pte) (begin : Z) (st : MmState)
    : exec (bool * pte * MmState) :=
  if is_table level e then Done (true, e, st)
  else
    match MPool_alloc (st_pool st) with
    | (Err _, m) => Done (false, e, with_pool st m)
    | (Ok page, m) =>
        match level with
        | O => Panic
        | S level_below =>
            let entries :=
              if is_block level e then
                let attrs := pte_attrs level e in
                let esize := entry_size level_below in
                PageTableNode_new (λ i,
                  block level_below (pa_init (inner level e +w Z.of_nat i *w esize)) attrs)
              else PageTableNode_new (λ _, absent level_below) in
            '(e', st') ← replace level e (Table page entries) begin (with_pool st m);
            Done (true, e', st')
        end
    end.

(** [PageTableEntry::defrag]. *)
Context {RD : ReduceCrate}.
Definition attrs_join (l r : result Z unit) : result Z unit :=
  if decide (l = r) then l else Err tt.

Fixpoint defrag_entries (f : pte → MPool → exec (result Z unit * pte * MPool))
    (es : list pte) (m : MPool) : exec (list (result Z unit) * list pte * MPool) :=
  match es with
  | [] => Done ([], [], m)
  | e :: es =>
      '(r, e', m') ← f e m;
      '(rs, es', m'') ← defrag_entries f es m';
      Done (r :: rs, e' :: es', m'')
  end.

Fixpoint pte_defrag (level : nat) (e : pte) (m : MPool)
    : exec (result Z unit * pte * MPool) :=
  let attrs := pte_attrs level e in
  if is_block level e then Done (Ok attrs, e, m)
  else
    t ← as_table level e;
    match t with
    | Err _ => Done (Err tt, e, m)
    | Ok (p, es) =>
        match level with
        | O => Panic
        | S l =>
            '(rs, es', m1) ← defrag_entries (pte_defrag l) es m;
            match reduce attrs_join rs with
            | None | Some (Err _) => Done (Err tt, Table p es', m1)
            | Some (Ok children_attrs) =>
                if negb (arch_mm_pte_is_present children_attrs l) then
                  Done (Ok (pte_attrs level (absent level)), absent level, MPool_free m1 p)
                else if negb (arch_mm_is_block_allowed level) then
                  Done (Err tt, Table p es', m1)
                else
                  e0 ← unwrap_opt (head es');
                  let block_address := as_block_unchecked l e0 in
                  let combined := arch_mm_combine_table_entry_attrs attrs children_attrs in
                  Done (Ok combined, block level block_address combined, MPool_free m1 p)
            end
        end
    end.

(** ** Tables *)

(** [RawPageTable::is_empty]. *)
Definition is_empty (level : nat) (t : list pte) : bool :=
  forallb (λ e, negb (is_present level e)) t.

(** [&mut self[i..]]: a slice that starts past the end panics. *)
Definition slice_from {X} (t : list X) (i : nat) : exec (list X * list X) :=
  if (i <=? length t)%nat then Done (take i t, drop i t) else Panic.

(** The body of the loop of [RawPageTable::map_level] for one entry, given the
    recursive call on the table below. *)
Definition map_entry (level : nat)
    (rec : list pte → Z → MmState → exec (bool * list pte * MmState))
    (end_ attrs flags : Z) (e : pte) (begin : Z) (st : MmState)
    : exec (bool * pte * MmState) :=
  let esize := entry_size level in
  let commit := bf_contains flags Flags.COMMIT in
  let unmap := bf_contains flags Flags.UNMAP in
  if unmap && negb (is_present level e) then Done (true, e, st)
  else if negb unmap && is_block level e && (pte_attrs level e =? attrs) then Done (true, e, st)
  else if (esize <=? end_ -w begin) && (unmap || arch_mm_is_block_allowed level)
          && (Z.land begin (esize - 1) =? 0) then
    if commit then
      let new_pte := if unmap then absent level else block level (pa_init begin) attrs in
      '(e', st') ← replace level e new_pte begin st;
      Done (true, e', st')
    else Done (true, e, st)
  else
    '(ok, e1, st1) ← populate_table level e begin st;
    if negb ok then Done (false, e1, st1)
    else
      t ← as_table level e1;
      '(p, sub) ← unwrap_res t;
      '(ok, sub', st2) ← rec sub begin st1;
      let e2 := Table p sub' in
      if negb ok then Done (false, e2, st2)
      else if commit && unmap && is_empty (pred level) sub' then
        '(e3, st3) ← replace level e2 (absent level) begin st2;
        Done (true, e3, st3)
      else Done (true, e2, st2).

(** [RawPageTable::map_level].  The recursive call is at [level - 1], which
    underflows at level 0. *)
Fixpoint map_level (level : nat) (t : list pte) (begin end_ attrs flags : Z) (st : MmState)
    : exec (bool * list pte * MmState) :=
  let rec := match level with
             | O => λ _ _ _, Panic
             | S l => λ sub begin st, map_level l sub begin end_ attrs flags st
             end in
  '(pre, ptes) ← slice_from t (index begin level);
  let begins := BlockIter_new begin (Z.min end_ (level_end begin level)) (entry_size level) in
  '(ok, ptes', st') ← zip_blocks (map_entry level rec end_ attrs flags) ptes begins st;
  Done (ok, pre ++ ptes', st').

(** [RawPageTable::get_attrs_level]. *)
Fixpoint get_attrs_level (level : nat) (t : list pte) (begin end_ : Z)
    : exec (result Z unit) :=
  '(_, ptes) ← slice_from t (index begin level);
  let begins := BlockIter_new begin (Z.min end_ (level_end begin level)) (entry_size level) in
  res_reduce tt same_attrs
    ((λ '(e, begin),
        t ← as_table level e;
        match t with
        | Ok (_, sub) =>
            match level with
            | O => Panic
            | S l => get_attrs_level l sub begin end_
            end
        | Err _ => Done (Ok (pte_attrs level e))
        end) <$> zip_begins ptes begins).

(** ** [PageTable<S>]: the address of the root and the concatenated root tables *)
Record PageTable := mkPageTable { root : Z; tables : list (list pte) }.

Definition ptable_addr_space_end : Z :=
  let root_level := S max_level in
  Z.of_nat root_table_count *w entry_size root_level.

Definition PageTable_new (m : MPool) : exec (result PageTable unit * MPool) :=
  let count := Z.of_nat root_table_count in
  '(r, m') ← MPool_alloc_pages m count count;
  match r with
  | Err _ => Done (Err tt, m')
  | Ok pages =>
      let table := PageTableNode_new (λ _, absent max_level) in
      Done (Ok (mkPageTable (pages_ptr pages) (replicate (Z.to_nat (pages_len pages)) table)), m')
  end.

Definition PageTable_drop (t : PageTable) (m : MPool) : exec MPool :=
  m' ← fold_exec (λ m table, fold_exec (λ m e, pte_drop max_level e m) m table) m (tables t);
  Done (MPool_free_pages m' (mkPages (root t) (Z.of_nat root_table_count))).

Definition map_root (t : PageTable) (begin end_ attrs : Z) (root_level : nat) (flags : Z)
    (st : MmState) : exec (bool * PageTable * MmState) :=
  let root_table_size := entry_size root_level in
  '(pre, ts) ← slice_from (tables t) (index begin root_level);
  let begins := BlockIter_new begin end_ root_table_size in
  '(ok, ts', st') ←
    zip_blocks (λ table begin st, map_level (pred root_level) table begin end_ attrs flags st)
      ts begins st;
  Done (ok, mkPageTable (root t) (pre ++ ts'), st').

(** [PageTable::identity_update]: a first pass that only adds tables, then the
    pass that commits. *)
Definition identity_update (t : PageTable) (begin end_ : paddr_t) (attrs flags : Z)
    (st : MmState) : exec (bool * PageTable * MmState) :=
  let root_level := S max_level in
  let ptable_end := ptable_addr_space_end in
  let end_ := Z.min (round_up_to_page (pa_addr end_)) ptable_end in
  let begin := pa_addr (arch_mm_clear_pa begin) in
  '(ok, t1, st1) ← map_root t begin end_ attrs root_level flags st;
  if negb ok then Done (false, t1, st1)
  else
    '(ok, t2, st2) ← map_root t1 begin end_ attrs root_level (Z.lor flags Flags.COMMIT) st1;
    if negb ok then Done (false, t2, st2)
    else Done (true, t2, invalidate_tlb begin end_ st2).

Definition identity_map (t : PageTable) (begin end_ : paddr_t) (mode : Z) (st : MmState)
    : exec (bool * PageTable * MmState) :=
  identity_update t begin end_ (mode_to_attrs mode) 0 st.

Definition unmap (t : PageTable) (begin end_ : paddr_t) (st : MmState)
    : exec (bool * PageTable * MmState) :=
  identity_update t begin end_
    (mode_to_attrs (Z.lor (Z.lor Mode.UNOWNED Mode.INVALID) Mode.SHARED)) Flags.UNMAP st.

(** [PageTable::defrag]: the result of each entry is discarded. *)
Fixpoint defrag_tables (ts : list (list pte)) (m : MPool)
    : exec (list (list pte) * MPool) :=
  match ts with
  | [] => Done ([], m)
  | t :: ts =>
      '(_, t', m') ← defrag_entries (pte_defrag max_level) t m;
      '(ts', m'') ← defrag_tables ts m';
      Done (t' :: ts', m'')
  end.
Definition defrag (t : PageTable) (m : MPool) : exec (PageTable * MPool) :=
  '(ts', m') ← defrag_tables (tables t) m;
  Done (mkPageTable (root t) ts', m').

Definition get_attrs (t : PageTable) (begin end_ : Z) : exec (result Z unit) :=
  let root_level := S max_level in
  let root_table_size := entry_size root_level in
  let ptable_end := Z.of_nat root_table_count *w root_table_size in
  let begin := round_down_to_page begin in
  let end_ := round_up_to_page end_ in
  if negb ((begin <=? end_) && (end_ <=? ptable_end)) then Done (Err tt)
  else
    '(_, ts) ← slice_from (tables t) (index begin root_level);
    let begins := BlockIter_new begin end_ root_table_size in
    res_reduce tt same_attrs
      ((λ '(table, begin), get_attrs_level max_level table begin end_) <$> zip_begins ts begins).

Definition get_mode (t : PageTable) (begin end_ : ipaddr_t) : exec (result Z unit) :=
  r ← get_attrs t (ipa_addr begin) (ipa_addr end_);
  match r with
  | Err _ => Done (Err tt)
  | Ok attrs => m ← attrs_to_mode attrs; Done (Ok m)
  end.
End pte.
Arguments PageTable : clear implicits.
Arguments mkPageTable _ _ : assert.
