(* ===== verification/MmSpec.v ===== *)
(** * What a page table means, and its well-formedness

    The meaning of an entry is the map from addresses to the attributes the
    hardware walk finds there.  [wf_pte] is the type invariant of the tree:
    tables hold 512 entries, blocks map their own address (identity mapping),
    and table pages are pages that can be freed back to the pool. *)
From S2P Require Import Prelude Addr Mode Arch Mpool Mm.

Section spec.
Context {A : ArchMM} {L : ArchLaws A}.

(** The attribute word the walk for address [x] ends at. *)
Fixpoint attrs_at (l : nat) (e : pte) (x : Z) : Z :=
  match e with
  | Leaf _ => pte_attrs l e
  | Table _ es =>
      match l with
      | O => 0
      | S l' => match es !! index x l' with Some e' => attrs_at l' e' x | None => 0 end
      end
  end.

(** An attribute word that is neither valid nor owned maps nothing. *)
Definition mapped (a : Z) : option Z := if arch_mm_pte_is_present a 0 then Some a else None.
Definition mapping_at (l : nat) (e : pte) (x : Z) : option Z := mapped (attrs_at l e x).

Definition tattrs_at (l : nat) (t : list pte) (x : Z) : Z :=
  match t !! index x l with Some e => attrs_at l e x | None => 0 end.
Definition tmapping_at (l : nat) (t : list pte) (x : Z) : option Z := mapped (tattrs_at l t x).

(** The address of entry [i] of the table of level [l] based at [base]. *)
Definition ebase (l : nat) (base : Z) (i : nat) : Z := base + Z.of_nat i * 2 ^ esh l.

Definition wf_leaf (l : nat) (base : Z) (v : Z) : Prop :=
  v = arch_mm_absent_pte l ∨
  ∃ a, attrs_ok a ∧ arch_mm_is_block_allowed l = true ∧ v = arch_mm_block_pte l (pa_init base) a.

Fixpoint wf_pte (l : nat) (base : Z) (e : pte) : Prop :=
  match e with
  | Leaf v => wf_leaf l base v
  | Table p es =>
      match l with
      | O => False
      | S l' => page_ok p ∧ p < 2 ^ 48 ∧ length es = 512%nat ∧
                ∀ i e', es !! i = Some e' → wf_pte l' (ebase l' base i) e'
      end
  end.
Definition wf_table (l : nat) (base : Z) (t : list pte) : Prop :=
  length t = 512%nat ∧ ∀ i e, t !! i = Some e → wf_pte l (ebase l base i) e.

(** The pages an entry owns. *)
Fixpoint pte_pages (l : nat) (e : pte) : list Z :=
  match e with
  | Leaf _ => []
  | Table p es => p :: match l with O => [] | S l' => mjoin (pte_pages l' <$> es) end
  end.
Definition table_pages (l : nat) (t : list pte) : list Z := mjoin (pte_pages l <$> t).

(** The pool invariant: free pages are pages, and can hold a table. *)
Definition pool_inv (m : MPool) : Prop := mpool_ok m ∧ Forall (λ p, p < 2 ^ 48) (mpool_pages m).
Definition st_inv (st : MmState) : Prop := pool_inv (st_pool st).

(** ** Bases *)
Lemma base_ok_child l base i :
  base_ok (S l) base → (i < 512)%nat → base_ok l (ebase l base i).
Proof.
  intros (Ha & H0 & Hb) Hi. unfold ebase. rewrite esh_S in *. pose proof (esh_pos l).
  split_and!; [|nia..]. apply aligned_add; [|apply aligned_mul].
  apply (aligned_esh_le l (S l)); [lia|]. by rewrite esh_S.
Qed.

Lemma base_ok_index l base x :
  base_ok (S l) base → base ≤ x < base + 2 ^ esh (S l) →
  (index x l < 512)%nat ∧ ebase l base (index x l) ≤ x < ebase l base (index x l) + 2 ^ esh l.
Proof.
  intros (Ha & H0 & Hb) Hx. pose proof (esh_pos l). split; [apply index_lt; lia|].
  assert (∃ i : nat, (i < 512)%nat ∧ ebase l base i ≤ x < ebase l base i + 2 ^ esh l)
    as (i & Hi & Hin).
  { exists (Z.to_nat ((x - base) / 2 ^ esh l)). rewrite esh_S in Hx. unfold ebase.
    pose proof (Z.div_mod (x - base) (2 ^ esh l) ltac:(lia)).
    pose proof (Z.mod_pos_bound (x - base) (2 ^ esh l) ltac:(lia)).
    assert (0 ≤ (x - base) / 2 ^ esh l < 512).
    { split; [apply Z.div_pos; lia|]. apply Z.div_lt_upper_bound; lia. }
    rewrite Z2Nat.id by lia. lia. }
  unfold ebase in *. by rewrite (index_in_entry base l i x) by (auto; lia).
Qed.

Lemma page_table_ok p : page_ok p → p < 2 ^ 48 → table_page_ok p.
Proof. intros (?&?&?) ?. split; [done|lia]. Qed.

(** ** Predicates of well-formed entries *)
Lemma wf_leaf_not_table l base v :
  base_ok l base → wf_leaf l base v → is_table l (Leaf v) = false.
Proof. intros ? [->|(a & ? & ? & ->)]; [apply absent_not_table|by apply block_not_table]. Qed.

Lemma wf_is_table l base e :
  base_ok l base → wf_pte l base e → is_table l e = match e with Leaf _ => false | _ => true end.
Proof.
  intros Hb. destruct e as [v|p es]; [destruct l; by apply wf_leaf_not_table|].
  destruct l as [|l]; [done|]. intros (?&?&?). by apply table_is_table, page_table_ok.
Qed.

Lemma wf_as_table l base e :
  base_ok l base → wf_pte l base e →
  as_table l e = Done (match e with Leaf _ => Err tt | Table p es => Ok (p, es) end).
Proof.
  intros Hb Hw. unfold as_table. rewrite (wf_is_table l base) by done.
  destruct e as [v|p es]; [done|]. destruct l as [|l]; [done|]. destruct Hw as (?&?&?).
  unfold inner. rewrite table_addr by by apply page_table_ok. simpl. by rewrite Z.eqb_refl.
Qed.

Lemma wf_table_present l base p es :
  wf_pte l base (Table p es) → is_present l (Table p es) = true.
Proof. destruct l as [|l]; [done|]. intros (?&?&?). by apply table_present, page_table_ok. Qed.

Lemma wf_table_not_block l base p es :
  wf_pte l base (Table p es) → is_block l (Table p es) = false.
Proof. destruct l as [|l]; [done|]. intros (?&?&?). by apply table_not_block, page_table_ok. Qed.

Lemma mapped_absent l : mapped (pte_attrs l (absent l)) = None.
Proof. unfold mapped, pte_attrs. simpl. by rewrite absent_attrs. Qed.

Lemma block_attrs_at l base a x :
  base_ok l base → attrs_ok a → attrs_at l (block l (pa_init base) a) x = a.
Proof. intros. destruct l; by apply block_attrs. Qed.

(** A leaf is present iff its attributes are, at any level. *)
Lemma wf_leaf_present l l' base v :
  base_ok l base → wf_leaf l base v →
  is_present l (Leaf v) = arch_mm_pte_is_present (pte_attrs l (Leaf v)) l'.
Proof.
  intros Hb [->|(a & ? & ? & ->)]; unfold is_present, pte_attrs; simpl.
  - by rewrite absent_not_present, absent_attrs.
  - rewrite block_attrs by done. by rewrite (block_present l l').
Qed.

Lemma wf_not_present l base e x :
  base_ok l base → wf_pte l base e → is_present l e = false → mapping_at l e x = None.
Proof.
  intros Hb Hw Hp. destruct e as [v|p es].
  - unfold mapping_at, mapped. destruct l; simpl in *; rewrite <-(wf_leaf_present _ _ base) by done;
      by rewrite Hp.
  - by rewrite (wf_table_present _ base) in Hp.
Qed.

Lemma wf_absent l base : wf_pte l base (absent l).
Proof. destruct l; by left. Qed.
Lemma wf_block l base a :
  attrs_ok a → arch_mm_is_block_allowed l = true → wf_pte l base (block l (pa_init base) a).
Proof. intros. destruct l; right; eauto. Qed.

Lemma attrs_at_leaf l v x : attrs_at l (Leaf v) x = pte_attrs l (Leaf v).
Proof. by destruct l. Qed.

Lemma mapping_absent l x : mapping_at l (absent l) x = None.
Proof. unfold mapping_at, absent. rewrite attrs_at_leaf. apply mapped_absent. Qed.

Lemma wf_pte_table l base p es :
  wf_pte (S l) base (Table p es) ↔ page_ok p ∧ p < 2 ^ 48 ∧ wf_table l base es.
Proof. done. Qed.

Lemma attrs_at_table l p es x : attrs_at (S l) (Table p es) x = tattrs_at l es x.
Proof. done. Qed.
Lemma pte_pages_table l p es : pte_pages (S l) (Table p es) = p :: table_pages l es.
Proof. done. Qed.
Lemma pte_pages_leaf l v : pte_pages l (Leaf v) = [].
Proof. by destruct l. Qed.
End spec.

#[export] Hint Resolve wf_absent wf_block : hfo2.
