(* ===== verification/MmMap.v ===== *)
(** * Correctness of page-table updates

    [identity_update] works in two passes.  The first, without [COMMIT], only
    adds tables: it leaves the meaning of the tree unchanged and, if it
    succeeds, leaves it [ready].  The second commits, and on a [ready] tree it
    needs no page, cannot fail, and updates the meaning exactly on the range. *)
From S2P Require Import Prelude Addr Mode Arch Mpool Mm MmSpec.

(** What the update code relies on of a [Stage]. *)
Class StageLaws {A : ArchMM} (L : ArchLaws A) (SG : Stage) := {
  stage_geometry :
    (max_level ≤ 3)%nat ∧ (1 ≤ root_table_count ≤ 512)%nat ∧
    Z.of_nat root_table_count * 2 ^ esh (S max_level) ≤ 2 ^ 48;
  stage_attrs_ok m : attrs_ok (mode_to_attrs m);
  stage_tlb_pool b e st : st_pool (invalidate_tlb b e st) = st_pool st;
}.

#[export] Instance Stage1_laws {A} {L : ArchLaws A} : StageLaws L Stage1.
Proof. split; [apply stage1_geometry|apply stage1_attrs_ok|done]. Qed.
#[export] Instance Stage2_laws {A} {L : ArchLaws A} : StageLaws L Stage2.
Proof.
  split; [apply stage2_geometry|apply stage2_attrs_ok|].
  intros b e st. simpl. by destruct (st_s2_invalidate st).
Qed.

(** ** The pool *)
Lemma pool_inv_alloc m page m' :
  pool_inv m → MPool_alloc m = (Ok page, m') →
  pool_inv m' ∧ page_ok page ∧ page < 2 ^ 48 ∧ mpool_pages m ≡ₚ page :: mpool_pages m'.
Proof.
  intros [Hm Hb] Ha. pose proof (MPool_alloc_spec m Hm) as Hs. rewrite Ha in Hs.
  destruct Hs as (Hp & ? & ?). rewrite Hp in Hb. apply Forall_cons in Hb as [??].
  split_and!; [by split|done..].
Qed.
Lemma pool_inv_alloc_err m e m' : pool_inv m → MPool_alloc m = (Err e, m') → m' = m.
Proof.
  intros [Hm Hb] Ha. pose proof (MPool_alloc_spec m Hm) as Hs. rewrite Ha in Hs. by destruct Hs.
Qed.
Lemma pool_inv_free m page :
  pool_inv m → page_ok page → page < 2 ^ 48 →
  pool_inv (MPool_free m page) ∧ mpool_pages (MPool_free m page) ≡ₚ page :: mpool_pages m.
Proof.
  intros [Hm Hb] Hp Hlt. destruct (MPool_free_spec m page Hm Hp) as [Hpp ?].
  split; [|done]. split; [done|]. rewrite Hpp. by constructor.
Qed.

Section map.
Context {A : ArchMM} {L : ArchLaws A} {SG : Stage} {SL : StageLaws L SG}.

(** ** Dropping entries *)
Lemma fold_drop_spec l es m :
  (∀ e m, e ∈ es → pool_inv m →
     ∃ m', pte_drop l e m = Done m' ∧ pool_inv m' ∧ mpool_pages m' ≡ₚ pte_pages l e ++ mpool_pages m) →
  pool_inv m →
  ∃ m', fold_exec (λ m e, pte_drop l e m) m es = Done m' ∧ pool_inv m' ∧
        mpool_pages m' ≡ₚ table_pages l es ++ mpool_pages m.
Proof.
  revert m. induction es as [|e es IH]; intros m Hd Hm; [by exists m|].
  cbn [fold_exec]. destruct (Hd e m) as (m1 & -> & Hm1 & Hp1); [by left|done|]. cbn.
  destruct (IH m1) as (m2 & Hf & Hm2 & Hp2); [intros; apply Hd; [by right|done]|done|].
  exists m2. split_and!; [done..|]. rewrite Hp2, Hp1. unfold table_pages. cbn.
  rewrite !app_assoc. by rewrite (Permutation_app_comm (mjoin _) (pte_pages l e)).
Qed.

Lemma pte_drop_spec l base e m :
  base_ok l base → wf_pte l base e → pool_inv m →
  ∃ m', pte_drop l e m = Done m' ∧ pool_inv m' ∧ mpool_pages m' ≡ₚ pte_pages l e ++ mpool_pages m.
Proof.
  revert base e m. induction l as [|l IH]; intros base e m Hb Hw Hm.
  - destruct e as [v|p es]; [|done]. exists m. cbn [pte_drop].
    by rewrite (wf_as_table 0 base).
  - cbn [pte_drop]. rewrite (wf_as_table _ base) by done. cbn.
    destruct e as [v|p es]; [by exists m|]. destruct Hw as (Hp & Hlt & Hlen & Hes).
    destruct (fold_drop_spec l es m) as (m' & -> & Hm' & Hpp); [|done|].
    { intros e' m0 (i & Hi)%list_elem_of_lookup Hm0.
      eapply IH; [|by apply Hes|done]. apply base_ok_child; [done|].
      apply lookup_lt_Some in Hi. lia. }
    cbn. destruct (pool_inv_free m' p) as [? Hfree]; [done..|].
    eexists. split_and!; [done..|]. by rewrite Hfree, Hpp.
Qed.

Lemma replace_spec l base old new begin st :
  base_ok l base → wf_pte l base old → st_inv st →
  ∃ st', replace l old new begin st = Done (new, st') ∧ st_inv st' ∧
         mpool_pages (st_pool st') ≡ₚ pte_pages l old ++ mpool_pages (st_pool st).
Proof.
  intros Hb Hw Hst. unfold replace. set (st1 := if is_valid l old && is_valid l new then _ else st).
  assert (st_pool st1 = st_pool st) as Hpool.
  { unfold st1. destruct (_ && _); [apply stage_tlb_pool|done]. }
  rewrite Hpool. destruct (pte_drop_spec l base old (st_pool st)) as (m & -> & Hm & Hp); [done..|].
  by eexists.
Qed.

(** ** [populate_table] *)
Lemma new_entries_lookup f i e :
  PageTableNode_new f !! i = Some e ↔ (i < 512)%nat ∧ e = f i.
Proof.
  unfold PageTableNode_new. rewrite PTE_PER_PAGE_val, list_lookup_fmap.
  destruct (decide (i < 512)%nat).
  - rewrite lookup_seq_lt by done. naive_solver.
  - rewrite lookup_seq_ge by lia. naive_solver.
Qed.
Lemma new_entries_length f : length (PageTableNode_new f) = 512%nat.
Proof. unfold PageTableNode_new. by rewrite length_fmap, length_seq. Qed.
Lemma new_entries_pages l f :
  (∀ i, pte_pages l (f i) = []) → table_pages l (PageTableNode_new f) = [].
Proof.
  intros Hf. unfold table_pages, PageTableNode_new.
  induction (seq 0 PTE_PER_PAGE) as [|i s IH]; [done|]. cbn. by rewrite Hf.
Qed.

(** The table a non-table entry is expanded to. *)
Definition expansion (l : nat) (e : pte) : list pte :=
  if is_block (S l) e
  then PageTableNode_new (λ i, block l (pa_init (inner (S l) e +w Z.of_nat i *w entry_size l))
                                     (pte_attrs (S l) e))
  else PageTableNode_new (λ _, absent l).

Lemma expansion_spec l base v :
  (l ≤ 3)%nat → base_ok (S l) base → wf_leaf (S l) base v →
  wf_table l base (expansion l (Leaf v)) ∧ table_pages l (expansion l (Leaf v)) = [] ∧
  ∀ x, 0 ≤ x → tmapping_at l (expansion l (Leaf v)) x = mapping_at (S l) (Leaf v) x.
Proof.
  intros Hl Hb Hw. unfold expansion, tmapping_at, tattrs_at.
  destruct (is_block (S l) (Leaf v)) eqn:Hblk; unfold is_block, inner in Hblk.
  - destruct Hw as [->|(a & Ha & Hal & ->)]; [by rewrite absent_not_block in Hblk|].
    assert (Hat : pte_attrs (S l) (Leaf (arch_mm_block_pte (S l) (pa_init base) a)) = a)
      by by apply block_attrs.
    rewrite Hat. rewrite entry_size_pow by lia.
    assert (Hf : ∀ i, (i < 512)%nat →
      block l (pa_init (arch_mm_block_pte (S l) (pa_init base) a +w Z.of_nat i *w 2 ^ esh l)) a
      = block l (pa_init (ebase l base i)) a).
    { intros i Hi. unfold block. by rewrite populate_block. }
    split_and!.
    + split; [apply new_entries_length|]. intros i e [Hi ->]%new_entries_lookup.
      unfold inner. rewrite Hf by done. apply wf_block; [done|]. by apply block_allowed_down.
    + apply new_entries_pages. intros; apply pte_pages_leaf.
    + intros x Hx. unfold mapping_at. rewrite attrs_at_leaf, Hat.
      destruct (_ !! _) as [e|] eqn:He.
      * apply new_entries_lookup in He as [Hi ->]. unfold inner. rewrite Hf by done.
        rewrite block_attrs_at; [done|by apply base_ok_child|done].
      * apply lookup_ge_None in He. rewrite new_entries_length in He.
        pose proof (index_lt x l Hx). lia.
  - split_and!.
    + split; [apply new_entries_length|]. intros i e [Hi ->]%new_entries_lookup. apply wf_absent.
    + apply new_entries_pages. intros; apply pte_pages_leaf.
    + intros x Hx. trans (@None Z).
      * destruct (_ !! _) as [e|] eqn:He.
        { apply new_entries_lookup in He as [Hi ->]. apply mapping_absent. }
        apply lookup_ge_None in He. rewrite new_entries_length in He.
        pose proof (index_lt x l Hx). lia.
      * symmetry. apply (wf_not_present _ base); [done..|].
        destruct Hw as [->|(a & Ha & Hal & ->)]; [apply absent_not_present|].
        apply not_true_is_false. intros Hp. unfold is_present, inner in Hp.
        by rewrite block_is_block in Hblk.
Qed.

(** [populate_table] turns an entry into a table with the same meaning. *)
Lemma populate_table_spec l base e begin st :
  (l ≤ 3)%nat → base_ok (S l) base → wf_pte (S l) base e → st_inv st →
  ∃ ok e' st', populate_table (S l) e begin st = Done (ok, e', st') ∧
    st_inv st' ∧ wf_pte (S l) base e' ∧
    (∀ x, 0 ≤ x → mapping_at (S l) e' x = mapping_at (S l) e x) ∧
    pte_pages (S l) e ++ mpool_pages (st_pool st) ≡ₚ pte_pages (S l) e' ++ mpool_pages (st_pool st') ∧
    match ok with
    | true => ∃ p es, e' = Table p es ∧ (e' = e ∨ ∃ v, e = Leaf v ∧ es = expansion l e)
    | false => (∃ v, e = Leaf v) ∧ e' = e ∧ st' = st ∧ mpool_pages (st_pool st) = []
    end.
Proof.
  intros Hl Hb Hw Hst. unfold populate_table. rewrite (wf_is_table _ base) by done.
  destruct e as [v|p es].
  2:{ do 3 eexists. split; [done|]. split_and!; eauto 10. }
  destruct (MPool_alloc (st_pool st)) as [[page|[]] m] eqn:Ha.
  - apply pool_inv_alloc in Ha as (Hm & Hpg & Hlt & Hpp); [|done].
    cbn [negb]. fold (expansion l (Leaf v)).
    destruct (expansion_spec l base v) as (Hwt & Hnp & Hmap); [done..|].
    destruct (replace_spec (S l) base (Leaf v) (Table page (expansion l (Leaf v))) begin
                (with_pool st m)) as (st' & -> & Hst' & Hpp'); [done..|].
    do 3 eexists. split; [done|]. split_and!; [done| | | |eauto 10].
    + apply wf_pte_table. done.
    + intros x Hx. by apply Hmap.
    + rewrite Hpp', pte_pages_table, Hnp. simpl. by rewrite Hpp.
  - pose proof (MPool_alloc_spec (st_pool st) (proj1 Hst)) as Hs. rewrite Ha in Hs.
    destruct Hs as [-> Hnil]. do 3 eexists. split; [done|].
    destruct st; simpl in *. split_and!; eauto.
Qed.

(** ** The loops over the entries of a table *)

(** Where the part of the range that falls in entry [j] begins. *)
Definition part (l : nat) (base b0 : Z) (j : nat) : Z := Z.max b0 (ebase l base j).

Lemma ebase_S l base j : ebase l base (S j) = ebase l base j + 2 ^ esh l.
Proof. unfold ebase. lia. Qed.
Lemma ebase_mono l base i j : (i ≤ j)%nat → ebase l base i ≤ ebase l base j.
Proof. unfold ebase. pose proof (esh_pos l). nia. Qed.

Lemma next_block_ebase l base j b0 :
  (l ≤ 4)%nat → aligned (2 ^ esh l) base → 0 ≤ base → ebase l base (S j) ≤ 2 ^ 48 →
  ebase l base j ≤ b0 < ebase l base (S j) →
  start_of_next_block b0 (2 ^ esh l) = ebase l base (S j).
Proof.
  intros Hl Ha H0 Hlim Hb. pose proof (esh_pos l). rewrite ebase_S in *.
  assert (0 ≤ ebase l base j) by (unfold ebase; nia).
  rewrite start_of_next_block_spec by lia.
  assert (b0 mod 2 ^ esh l = b0 - ebase l base j) as ->; [|lia].
  apply aligned_exists in Ha as [q Hq]; [|lia].
  symmetry. apply (Z.mod_unique_pos _ _ (q + Z.of_nat j)); unfold ebase in *; lia.
Qed.

Section zip.
Context {X : Type} (pg : X → list Z) (f : X → Z → MmState → exec (bool * X * MmState)).
Context (l : nat) (base end_ : Z) (Q : nat → Z → bool → X → X → Prop).
Hypothesis (Hl : (l ≤ 4)%nat) (Hbase : aligned (2 ^ esh l) base) (H0 : 0 ≤ base).

(** The body's contract for the element of index [j] visited at address [b]. *)
Definition body_ok (j : nat) (e : X) (b : Z) : Prop :=
  ∀ st, st_inv st →
  ∃ ok e' st', f e b st = Done (ok, e', st') ∧ st_inv st' ∧ Q j b ok e e' ∧
    pg e ++ mpool_pages (st_pool st) ≡ₚ pg e' ++ mpool_pages (st_pool st') ∧
    (ok = false → mpool_pages (st_pool st') = []).

(** What the loop does with the element of index [j], visited at [b] if at all. *)
Definition elem_post (ok : bool) (j : nat) (b : Z) (e e' : X) : Prop :=
  (b < end_ → (∃ ok', Q j b ok' e e') ∨ ok = false ∧ e' = e) ∧
  (b < end_ → ok = true → Q j b true e e') ∧
  (end_ ≤ b → e' = e).

Lemma zip_blocks_spec elems j0 b0 st :
  ebase l base (j0 + length elems) ≤ 2 ^ 48 →
  end_ ≤ b0 ∨ ebase l base j0 ≤ b0 < ebase l base (S j0) →
  (∀ i e, elems !! i = Some e → part l base b0 (j0 + i) < end_ →
          body_ok (j0 + i) e (part l base b0 (j0 + i))) →
  st_inv st →
  ∃ ok elems' st',
    zip_blocks f elems (BlockIter_new b0 end_ (2 ^ esh l)) st = Done (ok, elems', st') ∧
    st_inv st' ∧ length elems' = length elems ∧
    mjoin (pg <$> elems) ++ mpool_pages (st_pool st)
      ≡ₚ mjoin (pg <$> elems') ++ mpool_pages (st_pool st') ∧
    (∀ i e e', elems !! i = Some e → elems' !! i = Some e' →
       elem_post ok (j0 + i) (part l base b0 (j0 + i)) e e') ∧
    (ok = false → mpool_pages (st_pool st') = [] ∧
       ∃ i e e', elems !! i = Some e ∧ elems' !! i = Some e' ∧ part l base b0 (j0 + i) < end_ ∧
       Q (j0 + i) (part l base b0 (j0 + i)) false e e').
Proof.
  revert j0 b0 st. induction elems as [|e elems IH]; intros j0 b0 st Hlim Hb0 Hf Hst.
  { do 3 eexists. split; [done|]. split_and!; [done..| |done]. by intros []. }
  cbn [zip_blocks]. unfold BlockIter_next, BlockIter_new. cbn [bi_begin bi_end bi_block_size].
  destruct (Z.leb_spec end_ b0) as [Hend|Hend].
  { do 3 eexists. split; [done|]. split_and!; [done..| |done].
    intros i e1 e2 ? ?. simplify_eq. unfold elem_post, part. split_and!; [lia..|done]. }
  destruct Hb0 as [?|Hb0]; [lia|]. cbn [length] in Hlim.
  pose proof (ebase_mono l base (S j0) (j0 + S (length elems)) ltac:(lia)).
  assert (Hp0 : part l base b0 (j0 + 0) = b0) by (rewrite Nat.add_0_r; unfold part; lia).
  assert (HpS : ∀ i, part l base b0 (j0 + S i) = part l base (ebase l base (S j0)) (S j0 + i)).
  { intros i. unfold part. replace (j0 + S i)%nat with (S j0 + i)%nat by lia.
    pose proof (ebase_mono l base (S j0) (S j0 + i) ltac:(lia)). lia. }
  rewrite (next_block_ebase l base j0) by (done || lia).
  destruct (Hf 0%nat e) with (st := st) as (ok & e1 & st1 & Hfe & Hst1 & HQ & Hpg & Hex);
    [done|lia|done|]. rewrite Hp0 in *. rewrite Hfe. cbn. destruct ok.
  - destruct (IH (S j0) (ebase l base (S j0)) st1) as (ok & es' & st2 & Hz & Hst2 & Hlen & Hpp & Hel & Hno).
    + by replace (S j0 + length elems)%nat with (j0 + S (length elems))%nat by lia.
    + right. rewrite (ebase_S _ _ (S j0)). pose proof (esh_pos l). lia.
    + intros i e' He' Hlt. rewrite <-HpS in *. replace (S j0 + i)%nat with (j0 + S i)%nat by lia.
      by apply (Hf (S i)).
    + done.
    + unfold BlockIter_new in Hz. rewrite Hz. cbn. do 3 eexists. split; [done|].
      split_and!; [done|by cbn; rewrite Hlen|..].
      * cbn. rewrite <-!app_assoc. rewrite <-Hpp. rewrite !app_assoc.
        rewrite (Permutation_app_comm (pg e)), (Permutation_app_comm (pg e1)).
        rewrite <-!app_assoc. by rewrite Hpg.
      * intros [|i] e2 e3 He2 He3; simplify_eq/=.
        { rewrite Hp0, Nat.add_0_r in *. unfold elem_post. split_and!; [eauto|done|lia]. }
        rewrite HpS. replace (j0 + S i)%nat with (S j0 + i)%nat by lia. eauto.
      * intros ->. destruct (Hno eq_refl) as (? & i & e2 & e3 & ? & ? & ? & ?). split; [done|].
        exists (S i), e2, e3. rewrite HpS. replace (j0 + S i)%nat with (S j0 + i)%nat by lia. done.
  - do 3 eexists. split; [done|]. split_and!; [done|done|..].
    + cbn. rewrite <-!app_assoc. rewrite (Permutation_app_comm (mjoin _)).
      rewrite !app_assoc, Hpg. rewrite <-!app_assoc. by rewrite (Permutation_app_comm (mjoin _)).
    + intros [|i] e2 e3 He2 He3; simplify_eq/=.
      * rewrite Hp0, Nat.add_0_r in *. unfold elem_post. split_and!; [eauto|done|lia].
      * unfold elem_post. split_and!; [by right|done|done].
    + intros _. split; [auto|]. exists 0%nat, e, e1. rewrite Hp0. done.
Qed.

(** The loop over [t[index(b0)..]], put back behind the entries it skips. *)
Lemma slice_loop t b0 st :
  ebase l base (length t) ≤ 2 ^ 48 → (index b0 l ≤ length t)%nat →
  end_ ≤ b0 ∨ ebase l base (index b0 l) ≤ b0 < ebase l base (S (index b0 l)) →
  (∀ j e, t !! j = Some e → b0 < ebase l base (S j) → part l base b0 j < end_ →
          body_ok j e (part l base b0 j)) →
  st_inv st →
  ∃ ok t' st',
    ('(pre, es) ← slice_from t (index b0 l);
     '(ok, es', st') ← zip_blocks f es (BlockIter_new b0 end_ (2 ^ esh l)) st;
     Done (ok, pre ++ es', st')) = Done (ok, t', st') ∧
    st_inv st' ∧ length t' = length t ∧
    mjoin (pg <$> t) ++ mpool_pages (st_pool st) ≡ₚ mjoin (pg <$> t') ++ mpool_pages (st_pool st') ∧
    (∀ j e e', t !! j = Some e → t' !! j = Some e' →
       (b0 < ebase l base (S j) → elem_post ok j (part l base b0 j) e e') ∧
       (ebase l base (S j) ≤ b0 → e' = e)) ∧
    (ok = false → mpool_pages (st_pool st') = [] ∧
       ∃ j e e', t !! j = Some e ∧ t' !! j = Some e' ∧ b0 < ebase l base (S j) ∧
       part l base b0 j < end_ ∧ Q j (part l base b0 j) false e e').
Proof.
  intros Hlim Hi Hb0 Hf Hst. set (j0 := index b0 l) in *. unfold slice_from.
  destruct (Nat.leb_spec j0 (length t)); [|lia]. cbn.
  assert (Hvis : ∀ i, part l base b0 (j0 + i) < end_ → b0 < ebase l base (S (j0 + i))).
  { intros i Hlt. unfold part in Hlt. pose proof (ebase_mono l base (S j0) (S (j0 + i)) ltac:(lia)).
    lia. }
  destruct (zip_blocks_spec (drop j0 t) j0 b0 st) as (ok & es' & st' & Hz & Hst' & Hlen & Hpp & Hel & Hno).
  - rewrite length_drop. by replace (j0 + (length t - j0))%nat with (length t) by lia.
  - done.
  - intros i e He Hlt. rewrite lookup_drop in He. auto.
  - done.
  - rewrite Hz. cbn. do 3 eexists. split; [done|]. rewrite length_drop in Hlen. split_and!.
    + done.
    + rewrite length_app, length_take. lia.
    + rewrite <-(take_drop j0 t) at 1. rewrite !fmap_app, !join_app, <-!app_assoc.
      by rewrite Hpp.
    + intros j e e' He He'. destruct (decide (j < j0)%nat) as [Hj|Hj].
      * rewrite lookup_app_l, lookup_take_lt in He' by (rewrite ?length_take; lia).
        simplify_eq. split; [|done]. intros Hlt. unfold elem_post, part.
        pose proof (ebase_mono l base (S j) j0 ltac:(lia)). destruct Hb0 as [?|?]; [|lia].
        split_and!; [lia..|done].
      * rewrite lookup_app_r in He' by (rewrite length_take; lia). rewrite length_take in He'.
        replace (j - j0 `min` length t)%nat with (j - j0)%nat in He' by lia.
        specialize (Hel (j - j0)%nat e e'). rewrite lookup_drop in Hel.
        replace (j0 + (j - j0))%nat with j in Hel by lia.
        split; [auto|]. intros Hge. destruct (Hel He He') as (_ & _ & Hsame).
        pose proof (ebase_mono l base (S j0) (S j) ltac:(lia)). apply Hsame. unfold part. lia.
    + intros ->. destruct (Hno eq_refl) as (? & i & e & e' & He & He' & Hlt & HQ). split; [done|].
      rewrite lookup_drop in He. exists (j0 + i)%nat, e, e'. split_and!; auto.
      rewrite lookup_app_r by (rewrite length_take; lia). rewrite length_take.
      by replace (j0 + i - j0 `min` length t)%nat with i by lia.
Qed.
End zip.

Lemma part_range l base b j :
  base ≤ b < base + 2 ^ esh (S l) → (j < 512)%nat → b < ebase l base (S j) →
  ebase l base j ≤ part l base b j < ebase l base j + 2 ^ esh l ∧
  part l base b j < base + 2 ^ esh (S l).
Proof.
  intros Hb Hj Hlt. rewrite ebase_S in Hlt. unfold part, ebase in *. rewrite esh_S in *.
  pose proof (esh_pos l). nia.
Qed.

Lemma part_aligned l base b j :
  base_ok (S l) base → (j < 512)%nat → aligned 4096 b → aligned 4096 (part l base b j).
Proof.
  intros Hb Hj Hal. destruct (base_ok_child l base j Hb Hj) as [He%aligned_page_esh _].
  unfold part. by destruct (Z.max_spec b (ebase l base j)) as [[_ ->]|[_ ->]].
Qed.

(** ** Preparing and committing *)
Section update.
Context (end_ a flags : Z).
Hypothesis (Hend : aligned 4096 end_) (Hend48 : end_ ≤ 2 ^ 48).
Local Abbreviation u := (bf_contains flags Flags.UNMAP).
Hypothesis (Ha : u = false → attrs_ok a).

(** The entry needs no change: [map_level] continues with the next one. *)
Definition skipped (l : nat) (e : pte) : bool :=
  if u then negb (is_present l e) else is_block l e && (pte_attrs l e =? a).
(** The whole entry is inside the range and can be replaced at this level. *)
Definition covered (l : nat) (b : Z) : bool :=
  (2 ^ esh l <=? end_ - b) && (u || arch_mm_is_block_allowed l) && (b mod 2 ^ esh l =? 0).

(** No table is missing for the update of the range from [b] on. *)
Fixpoint ready (l : nat) (base : Z) (e : pte) (b : Z) : Prop :=
  skipped l e = true ∨ covered l b = true ∨
  match l, e with
  | S l', Table _ es =>
      ∀ j e', es !! j = Some e' → b < ebase l' base (S j) → part l' base b j < end_ →
              ready l' (ebase l' base j) e' (part l' base b j)
  | _, _ => False
  end.
Definition ready_table (l : nat) (base : Z) (t : list pte) (b : Z) : Prop :=
  ∀ j e, t !! j = Some e → b < ebase l base (S j) → part l base b j < end_ →
         ready l (ebase l base j) e (part l base b j).

(** What the range is mapped to. *)
Definition target : option Z := if u then None else mapped a.
Definition updated (b : Z) (old : option Z) (x : Z) : option Z :=
  if decide (b ≤ x < end_) then target else old.

Lemma map_entry_eq l rec e b st :
  (l ≤ 3)%nat → 0 ≤ b < end_ →
  map_entry l rec end_ a flags e b st =
  if skipped l e then Done (true, e, st)
  else if covered l b then
    if bf_contains flags Flags.COMMIT then
      '(e', st') ← replace l e (if u then absent l else block l (pa_init b) a) b st;
      Done (true, e', st')
    else Done (true, e, st)
  else
    '(ok, e1, st1) ← populate_table l e b st;
    if negb ok then Done (false, e1, st1)
    else
      t ← as_table l e1;
      '(p, sub) ← unwrap_res t;
      '(ok, sub', st2) ← rec sub b st1;
      if negb ok then Done (false, Table p sub', st2)
      else if bf_contains flags Flags.COMMIT && u && is_empty (pred l) sub' then
        '(e3, st3) ← replace l (Table p sub') (absent l) b st2;
        Done (true, e3, st3)
      else Done (true, Table p sub', st2).
Proof.
  intros Hl Hb. unfold map_entry, skipped, covered.
  rewrite entry_size_pow by lia. rewrite wsub_small by lia.
  rewrite land_mask by (unfold esh; lia).
  destruct u; cbn [negb andb orb]; [|done]. by destruct (is_present l e).
Qed.

Lemma covered_0 b : aligned 4096 b → b < end_ → covered 0 b = true.
Proof.
  intros Hb Hlt. unfold covered. change (2 ^ esh 0) with 4096. rewrite block_allowed_0, orb_true_r.
  rewrite Hb. apply aligned_exists in Hb as [q ->]; [|lia].
  apply aligned_exists in Hend as [r ->]; [|lia].
  destruct (Z.leb_spec 4096 (r * 4096 - q * 4096)); [done|lia].
Qed.

(** Entries outside of the range keep their meaning, the others change as [V]
    says; so does the table. *)
Lemma tmapping_pointwise l base t t' (V : Z → option Z → option Z) :
  base_ok (S l) base → length t = 512%nat → length t' = 512%nat →
  (∀ j e e' x, t !! j = Some e → t' !! j = Some e' →
     ebase l base j ≤ x < ebase l base j + 2 ^ esh l → mapping_at l e' x = V x (mapping_at l e x)) →
  ∀ x, base ≤ x < base + 2 ^ esh (S l) → tmapping_at l t' x = V x (tmapping_at l t x).
Proof.
  intros Hb Hlen Hlen' Hv x Hx. destruct (base_ok_index l base x Hb Hx) as [Hi Hr].
  unfold tmapping_at, tattrs_at.
  destruct (lookup_lt_is_Some_2 t (index x l)) as [e He]; [lia|].
  destruct (lookup_lt_is_Some_2 t' (index x l)) as [e' He']; [lia|].
  rewrite He, He'. by apply (Hv (index x l)).
Qed.

(** The loop of [map_level] over one table. *)
Lemma table_loop l base t b f Q st :
  (l ≤ 3)%nat → base_ok (S l) base → length t = 512%nat → base ≤ b < base + 2 ^ esh (S l) →
  (∀ j e, t !! j = Some e → b < ebase l base (S j) → part l base b j < end_ →
          body_ok (pte_pages l) f Q j e (part l base b j)) →
  st_inv st →
  ∃ ok t' st',
    ('(pre, es) ← slice_from t (index b l);
     '(ok, es', st') ←
        zip_blocks f es (BlockIter_new b (Z.min end_ (level_end b l)) (entry_size l)) st;
     Done (ok, pre ++ es', st')) = Done (ok, t', st') ∧
    st_inv st' ∧ length t' = 512%nat ∧
    table_pages l t ++ mpool_pages (st_pool st) ≡ₚ table_pages l t' ++ mpool_pages (st_pool st') ∧
    (∀ j e e', t !! j = Some e → t' !! j = Some e' →
       (b < ebase l base (S j) → elem_post end_ Q ok j (part l base b j) e e') ∧
       (ebase l base (S j) ≤ b → e' = e)) ∧
    (ok = false → mpool_pages (st_pool st') = [] ∧
       ∃ j e e', t !! j = Some e ∧ t' !! j = Some e' ∧ b < ebase l base (S j) ∧
       part l base b j < end_ ∧ Q j (part l base b j) false e e').
Proof.
  intros Hl Hb Hlen Hr Hf Hst. pose proof Hb as (Hal & H0 & Hlim).
  rewrite (level_end_spec base l b), entry_size_pow by (done || lia).
  destruct (base_ok_index l base b Hb Hr) as [Hi Hib].
  destruct (slice_loop (pte_pages l) f l base (Z.min end_ (base + 2 ^ esh (S l))) Q) with (t := t) (b0 := b) (st := st)
    as (ok & t' & st' & Heq & Hst' & Hlen' & Hpp & Hel & Hno); try done; try lia.
  - apply (aligned_esh_le l (S l)); [lia|done].
  - rewrite Hlen. unfold ebase. rewrite esh_S in Hlim. lia.
  - right. rewrite ebase_S. lia.
  - intros j e He Hlt Hpart. apply Hf; [done..|lia].
  - exists ok, t', st'. split_and!; [done..|lia|done| |].
    + intros j e e' He He'. destruct (Hel j e e' He He') as [H1 H2]. split; [|done].
      intros Hlt. destruct (H1 Hlt) as (P1 & P2 & P3). apply lookup_lt_Some in He.
      destruct (part_range l base b j) as [_ Hp]; [done|lia|done|].
      unfold elem_post. split_and!; intros; [apply P1|apply P2|apply P3]; (done || lia).
    + intros Hok. destruct (Hno Hok) as (? & j & e & e' & ? & ? & ? & ? & ?). split; [done|]. exists j, e, e'.
      split_and!; (done || lia).
Qed.

Definition level_rec (l : nat) : list pte → Z → MmState → exec (bool * list pte * MmState) :=
  match l with
  | O => λ _ _ _, Panic
  | S l' => λ sub b st, map_level l' sub b end_ a flags st
  end.
Lemma map_level_eq l t b st :
  map_level l t b end_ a flags st =
  ('(pre, es) ← slice_from t (index b l);
   '(ok, es', st') ← zip_blocks (map_entry l (level_rec l) end_ a flags) es
                       (BlockIter_new b (Z.min end_ (level_end b l)) (entry_size l)) st;
   Done (ok, pre ++ es', st')).
Proof. by destruct l. Qed.

(** *** The first pass *)
Definition prepared (l : nat) (base : Z) (j : nat) (b : Z) (ok : bool) (e e' : pte) : Prop :=
  wf_pte l (ebase l base j) e' ∧
  (∀ x, ebase l base j ≤ x < ebase l base j + 2 ^ esh l → mapping_at l e' x = mapping_at l e x) ∧
  (ok = true → ready l (ebase l base j) e' b).

Definition prepare_ok (l : nat) : Prop := ∀ base t b st,
  base_ok (S l) base → wf_table l base t → base ≤ b < base + 2 ^ esh (S l) → aligned 4096 b →
  st_inv st →
  ∃ ok t' st', map_level l t b end_ a flags st = Done (ok, t', st') ∧ st_inv st' ∧
    wf_table l base t' ∧ (∀ x, base ≤ x < base + 2 ^ esh (S l) → tmapping_at l t' x = tmapping_at l t x) ∧
    table_pages l t ++ mpool_pages (st_pool st) ≡ₚ table_pages l t' ++ mpool_pages (st_pool st') ∧
    (ok = true → ready_table l base t' b) ∧
    (ok = false → mpool_pages (st_pool st') = []).

Lemma ready_easy l base e b : skipped l e = true ∨ covered l b = true → ready l base e b.
Proof. destruct l; simpl; tauto. Qed.

Lemma map_entry_prepare l base j e b :
  bf_contains flags Flags.COMMIT = false → (l ≤ 3)%nat →
  match l with O => True | S l' => prepare_ok l' end →
  base_ok l (ebase l base j) → wf_pte l (ebase l base j) e →
  ebase l base j ≤ b < ebase l base j + 2 ^ esh l → b < end_ → aligned 4096 b →
  body_ok (pte_pages l) (map_entry l (level_rec l) end_ a flags) (prepared l base) j e b.
Proof.
  intros Hc Hl Hrec Hb Hw Hin Hlt Hal st Hst. pose proof Hb as (_ & H0 & _).
  rewrite map_entry_eq by lia. rewrite Hc.
  destruct (skipped l e) eqn:Hskip.
  { do 3 eexists. split; [done|]. split_and!; [done| |done..]. split_and!; auto using ready_easy. }
  destruct (covered l b) eqn:Hcov.
  { do 3 eexists. split; [done|]. split_and!; [done| |done..]. split_and!; auto using ready_easy. }
  destruct l as [|l]; [by rewrite covered_0 in Hcov|].
  destruct (populate_table_spec l (ebase (S l) base j) e b st) as (ok & e1 & st1 & -> & Hst1 & Hw1 & Hm1 & Hp1 & Hok);
    [lia|done..|]. cbn [mbind exec_bind]. destruct ok; cbn [negb].
  2:{ destruct Hok as (_ & -> & -> & Hnil). do 3 eexists. split; [done|]. split_and!; auto.
      split_and!; done. }
  destruct Hok as (p & es & -> & _). rewrite (wf_as_table _ (ebase (S l) base j)) by done.
  cbn [mbind exec_bind unwrap_res level_rec].
  apply wf_pte_table in Hw1 as (Hpok & Hplt & Hwt).
  destruct (Hrec _ es b st1 Hb Hwt Hin Hal Hst1)
    as (ok & es' & st2 & -> & Hst2 & Hwt' & Hm2 & Hp2 & Hrdy & Hex).
  cbn [mbind exec_bind]. destruct ok; cbn [negb andb]; do 3 eexists; (split; [done|]);
    (split; [done|]);
    (split; [|split; [rewrite Hp1, !pte_pages_table; cbn; by rewrite Hp2|done]]);
    (split; [by apply wf_pte_table|]); (split; [intros x Hx; rewrite <-Hm1 by lia; by apply Hm2|]).
  - intros _. right; right. by apply Hrdy.
  - done.
Qed.

(** One level of the first pass, given the level below. *)
Lemma prepare_step l :
  bf_contains flags Flags.COMMIT = false → (l ≤ 3)%nat →
  match l with O => True | S l' => prepare_ok l' end → prepare_ok l.
Proof.
  intros Hc Hl Hrec base t b st Hb [Hlen Hw] Hin Hal Hst. rewrite map_level_eq.
  destruct (table_loop l base t b (map_entry l (level_rec l) end_ a flags) (prepared l base) st)
    as (ok & t' & st' & -> & Hst' & Hlen' & Hpp & Hel & Hno); [lia|done..| |done|].
  { intros j e He Hj Hlt. pose proof (lookup_lt_Some _ _ _ He).
    assert (j < 512)%nat by lia. apply map_entry_prepare; auto.
    - by apply base_ok_child.
    - by apply part_range.
    - by apply part_aligned. }
  assert (Hcase : ∀ j e e', t !! j = Some e → t' !! j = Some e' →
    e' = e ∨ ∃ ok, prepared l base j (part l base b j) ok e e').
  { intros j e e' He He'. destruct (Hel j e e' He He') as [H1 H2].
    destruct (decide (b < ebase l base (S j))) as [Hj|Hj]; [|left; apply H2; lia].
    destruct (H1 Hj) as (P1 & P2 & P3).
    destruct (decide (part l base b j < end_)) as [Hp|Hp]; [|left; apply P3; lia].
    destruct (P1 Hp) as [?|[_ ?]]; eauto. }
  do 3 eexists. split; [done|]. split; [done|]. split; [split; [done|]|split_and!].
  - intros j e' He'. pose proof (lookup_lt_Some _ _ _ He').
    destruct (lookup_lt_is_Some_2 t j) as [e He]; [lia|].
    destruct (Hcase j e e' He He') as [->|(ok' & ? & _)]; auto.
  - apply (tmapping_pointwise l base t t' (λ _ o, o)); [done..|].
    intros j e e' x He He' Hx. destruct (Hcase j e e' He He') as [->|(ok' & _ & Hm & _)]; auto.
  - done.
  - intros -> j e' He' Hj Hp. pose proof (lookup_lt_Some _ _ _ He').
    destruct (lookup_lt_is_Some_2 t j) as [e He]; [lia|].
    destruct (Hel j e e' He He') as [H1 _]. destruct (H1 Hj) as (_ & P2 & _).
    by apply P2.
  - intros Hok. by apply Hno.
Qed.

Lemma map_level_prepare l :
  bf_contains flags Flags.COMMIT = false → (l ≤ 3)%nat → prepare_ok l.
Proof. intros Hc. induction l as [|l IH]; intros Hl; apply prepare_step; auto with lia. Qed.

(** *** The second pass *)
Definition committed (l : nat) (base : Z) (j : nat) (b : Z) (ok : bool) (e e' : pte) : Prop :=
  ok = true ∧ wf_pte l (ebase l base j) e' ∧
  (∀ x, ebase l base j ≤ x < ebase l base j + 2 ^ esh l →
        mapping_at l e' x = updated b (mapping_at l e x) x) ∧
  (u = false → ∀ x, ebase l base j ≤ x < ebase l base j + 2 ^ esh l → b ≤ x < end_ →
        attrs_at l e' x = a).

Definition commit_ok (l : nat) : Prop := ∀ base t b st,
  base_ok (S l) base → wf_table l base t → base ≤ b < base + 2 ^ esh (S l) → aligned 4096 b →
  ready_table l base t b → st_inv st →
  ∃ t' st', map_level l t b end_ a flags st = Done (true, t', st') ∧ st_inv st' ∧
    wf_table l base t' ∧
    (∀ x, base ≤ x < base + 2 ^ esh (S l) → tmapping_at l t' x = updated b (tmapping_at l t x) x) ∧
    (u = false → ∀ x, base ≤ x < base + 2 ^ esh (S l) → b ≤ x < end_ → tattrs_at l t' x = a) ∧
    table_pages l t ++ mpool_pages (st_pool st) ≡ₚ table_pages l t' ++ mpool_pages (st_pool st').

Lemma updated_all b o x : b ≤ x < end_ → updated b o x = target.
Proof. intros. unfold updated. by rewrite decide_True. Qed.

(** A skipped entry already has the target mapping. *)
Lemma skipped_mapping l base e x :
  base_ok l base → wf_pte l base e → skipped l e = true → mapping_at l e x = target.
Proof.
  intros Hb Hw Hs. unfold skipped, target in *. destruct u.
  - apply (wf_not_present l base); [done..|]. by apply negb_true_iff.
  - apply andb_prop in Hs as [Hblk Hat%Z.eqb_eq]. destruct e as [v|p es].
    + unfold mapping_at. by rewrite attrs_at_leaf, Hat.
    + by rewrite (wf_table_not_block _ base) in Hblk.
Qed.

Lemma skipped_attrs l base e x :
  base_ok l base → wf_pte l base e → skipped l e = true → u = false → attrs_at l e x = a.
Proof.
  intros Hb Hw Hs Hu. unfold skipped in Hs. rewrite Hu in Hs.
  apply andb_prop in Hs as [Hblk Hat%Z.eqb_eq]. destruct e as [v|p es].
  - by rewrite attrs_at_leaf.
  - by rewrite (wf_table_not_block _ base) in Hblk.
Qed.

(** The entry a covered entry is replaced by has the target mapping. *)
Lemma covered_new l base b :
  base_ok l base → base ≤ b < base + 2 ^ esh l → covered l b = true →
  let new := if u then absent l else block l (pa_init b) a in
  b = base ∧ base + 2 ^ esh l ≤ end_ ∧ wf_pte l base new ∧ pte_pages l new = [] ∧
  (∀ x, mapping_at l new x = target) ∧ (u = false → ∀ x, attrs_at l new x = a).
Proof.
  intros Hb Hin Hc. unfold covered in Hc.
  apply andb_prop in Hc as [[Hc1%Z.leb_le Hc2]%andb_prop Hc3%Z.eqb_eq].
  assert (b = base) as ->.
  { destruct Hb as (Hal & _ & _). apply aligned_exists in Hal as [q ->]; [|pose proof (esh_pos l); lia].
    apply (aligned_exists _ b) in Hc3 as [r ->]; [|pose proof (esh_pos l); lia].
    pose proof (esh_pos l). assert (r = q) as -> by nia. done. }
  split; [done|]. split; [lia|]. unfold target. destruct u eqn:Hu; cbn in Hc2.
  - split_and!; [apply wf_absent|apply pte_pages_leaf| |done]. intros x. apply mapping_absent.
  - split_and!; [apply wf_block; auto|apply pte_pages_leaf|..].
    + intros x. unfold mapping_at. by rewrite block_attrs_at by auto.
    + intros _ x. by rewrite block_attrs_at by auto.
Qed.

(** A table without present entries maps nothing. *)
Lemma is_empty_mapping l base t :
  base_ok (S l) base → wf_table l base t → is_empty l t = true →
  ∀ x, base ≤ x < base + 2 ^ esh (S l) → tmapping_at l t x = None.
Proof.
  intros Hb [Hlen Hw] He x Hx. destruct (base_ok_index l base x Hb Hx) as [Hi _].
  unfold tmapping_at, tattrs_at. destruct (lookup_lt_is_Some_2 t (index x l)) as [e Hl]; [lia|].
  rewrite Hl. apply (wf_not_present l (ebase l base (index x l))); [by apply base_ok_child|by apply Hw|].
  unfold is_empty in He. rewrite forallb_forall in He. apply negb_true_iff, He.
  by eapply list_elem_of_In, list_elem_of_lookup_2.
Qed.
Lemma map_entry_commit l base j e b :
  bf_contains flags Flags.COMMIT = true → (l ≤ 3)%nat →
  match l with O => True | S l' => commit_ok l' end →
  base_ok l (ebase l base j) → wf_pte l (ebase l base j) e → ready l (ebase l base j) e b →
  ebase l base j ≤ b < ebase l base j + 2 ^ esh l → b < end_ → aligned 4096 b →
  body_ok (pte_pages l) (map_entry l (level_rec l) end_ a flags) (committed l base) j e b.
Proof.
  intros Hc Hl Hrec Hb Hw Hrdy Hin Hlt Hal st Hst. pose proof Hb as (_ & H0 & _).
  rewrite map_entry_eq by lia. rewrite Hc.
  destruct (skipped l e) eqn:Hskip.
  { do 3 eexists. split; [done|]. split_and!; [done| |done..].
    split_and!; auto; [|intros; by apply (skipped_attrs l (ebase l base j))].
    intros x Hx. rewrite (skipped_mapping l (ebase l base j)) by done.
    unfold updated. by destruct (decide _). }
  destruct (covered l b) eqn:Hcov.
  { destruct (covered_new l (ebase l base j) b) as (-> & Hcend & Hwn & Hpn & Hmn & Han); [done..|].
    destruct (replace_spec l (ebase l base j) e
      (if u then absent l else block l (pa_init (ebase l base j)) a) (ebase l base j) st)
      as (st' & -> & Hst' & Hpp); [done..|].
    cbn. do 3 eexists. split; [done|]. split_and!; [done| |by rewrite Hpn, Hpp|done].
    split_and!; [done..| |auto]. intros x Hx. rewrite Hmn, updated_all; [done|lia]. }
  destruct l as [|l]; [by rewrite covered_0 in Hcov|].
  destruct Hrdy as [?|[?|Hrdy]]; [congruence..|]. destruct e as [v|p es]; [done|].
  unfold populate_table. rewrite (wf_is_table _ (ebase (S l) base j)) by done.
  cbn [mbind exec_bind negb]. rewrite (wf_as_table _ (ebase (S l) base j)) by done.
  cbn [mbind exec_bind unwrap_res level_rec].
  apply wf_pte_table in Hw as (Hpok & Hplt & Hwt).
  destruct (Hrec _ es b st Hb Hwt Hin Hal Hrdy Hst) as (es' & st2 & -> & Hst2 & Hwt' & Hm2 & Ha2 & Hp2).
  cbn [mbind exec_bind negb andb pred].
  assert (Hw' : wf_pte (S l) (ebase (S l) base j) (Table p es')) by by apply wf_pte_table.
  destruct (u && is_empty l es') eqn:Hemp.
  - apply andb_prop in Hemp as [Hu Hemp].
    destruct (replace_spec (S l) _ _ (absent (S l)) b st2 Hb Hw' Hst2) as (st3 & -> & Hst3 & Hp3).
    cbn [mbind exec_bind]. do 3 eexists. split; [done|]. split; [done|]. split.
    + split_and!; [done|apply wf_absent| |by rewrite Hu]. intros x Hx.
      rewrite mapping_absent. etrans; [|by apply Hm2]. symmetry. by apply (is_empty_mapping l (ebase (S l) base j)).
    + split; [|done]. rewrite Hp3, !pte_pages_table. cbn. by rewrite Hp2.
  - do 3 eexists. split; [done|]. split; [done|]. split.
    + split_and!; [done|done|done|]. intros Hu x Hx Hbx. by apply Ha2.
    + split; [|done]. rewrite !pte_pages_table. cbn. by rewrite Hp2.
Qed.

Lemma commit_step l :
  bf_contains flags Flags.COMMIT = true → (l ≤ 3)%nat →
  match l with O => True | S l' => commit_ok l' end → commit_ok l.
Proof.
  intros Hc Hl Hrec base t b st Hb [Hlen Hw] Hin Hal Hrdy Hst. rewrite map_level_eq.
  destruct (table_loop l base t b (map_entry l (level_rec l) end_ a flags) (committed l base) st)
    as (ok & t' & st' & -> & Hst' & Hlen' & Hpp & Hel & Hno); [lia|done..| |done|].
  { intros j e He Hj Hlt. pose proof (lookup_lt_Some _ _ _ He).
    assert (j < 512)%nat by lia. apply map_entry_commit; auto.
    - by apply base_ok_child.
    - by apply part_range.
    - by apply part_aligned. }
  destruct ok; [clear Hno|by destruct Hno as (?&?&?&?&?&?&?&?&?&?)].
  assert (Hcase : ∀ j e e', t !! j = Some e → t' !! j = Some e' →
    wf_pte l (ebase l base j) e' ∧
    ∀ x, ebase l base j ≤ x < ebase l base j + 2 ^ esh l →
      mapping_at l e' x = updated b (mapping_at l e x) x ∧
      (u = false → b ≤ x < end_ → attrs_at l e' x = a)).
  { intros j e e' He He'. destruct (Hel j e e' He He') as [H1 H2].
    assert (Hout : ∀ x, e' = e → (b ≤ x < end_ → False) →
      mapping_at l e' x = updated b (mapping_at l e x) x ∧
      (u = false → b ≤ x < end_ → attrs_at l e' x = a)).
    { intros x -> Hx. split; [|done]. unfold updated. by rewrite decide_False. }
    destruct (decide (b < ebase l base (S j))) as [Hj|Hj].
    2:{ rewrite H2 in * by lia. split; [auto|]. intros x Hx. apply Hout; [done|].
        rewrite ebase_S in Hj. lia. }
    destruct (H1 Hj) as (P1 & P2 & P3).
    destruct (decide (part l base b j < end_)) as [Hp|Hp].
    2:{ rewrite P3 in * by lia. split; [auto|]. intros x Hx. apply Hout; [done|].
        unfold part in Hp. lia. }
    destruct (P2 Hp eq_refl) as (_ & ? & Hm & Hat). split; [done|]. intros x Hx. split.
    - rewrite Hm by done. unfold updated, part. repeat destruct (decide _); (done || lia).
    - intros. apply Hat; unfold part; (done || lia). }
  do 2 eexists. split; [done|]. split; [done|]. split; [split; [done|]|split_and!].
  - intros j e' He'. pose proof (lookup_lt_Some _ _ _ He').
    destruct (lookup_lt_is_Some_2 t j) as [e He]; [lia|]. by eapply Hcase.
  - apply (tmapping_pointwise l base t t' (λ x o, updated b o x)); [done..|].
    intros. by eapply Hcase.
  - intros Hu x Hx Hbx. destruct (base_ok_index l base x Hb Hx) as [Hi Hr].
    unfold tattrs_at. destruct (lookup_lt_is_Some_2 t' (index x l)) as [e' He']; [lia|].
    destruct (lookup_lt_is_Some_2 t (index x l)) as [e He]; [lia|]. rewrite He'.
    by eapply (Hcase _ e e').
  - done.
Qed.

Lemma map_level_commit l :
  bf_contains flags Flags.COMMIT = true → (l ≤ 3)%nat → commit_ok l.
Proof. intros Hc. induction l as [|l IH]; intros Hl; apply commit_step; auto with lia. Qed.
End update.
End map.
