(* ===== verification/MmTable.v ===== *)
(** * Page tables as a whole: [PageTable<S>] of [mm.rs]

    The meaning of a table is a map from addresses to attributes; the theorems
    relate each operation to that map, and account for every page between the
    table and the pool. *)
From S2P Require Import Prelude Addr Mode Arch ArchAarch64 Mpool Mm MmSpec MmMap.

Section ptable.
Context {A : ArchMM} {L : ArchLaws A} {SG : Stage} {SL : StageLaws L SG}.

Definition root_level : nat := S max_level.
Definition ptable_end : Z := Z.of_nat root_table_count * 2 ^ esh root_level.

(** The attributes a walk from the root finds, and what they map. *)
Definition ptable_attrs (t : PageTable) (x : Z) : Z :=
  match tables t !! index x root_level with Some tb => tattrs_at max_level tb x | None => 0 end.
Definition ptable_mapping (t : PageTable) (x : Z) : option Z := mapped (ptable_attrs t x).

Definition wf_ptable (t : PageTable) : Prop :=
  length (tables t) = root_table_count ∧
  (∀ i tb, tables t !! i = Some tb → wf_table max_level (ebase root_level 0 i) tb) ∧
  pages_ok (mkPages (root t) (Z.of_nat root_table_count)) ∧
  root t + Z.of_nat root_table_count * 4096 ≤ 2 ^ 48.

(** The pages the table owns. *)
Definition ptable_pages (t : PageTable) : list Z :=
  page_run (root t) (Z.of_nat root_table_count) ++ mjoin (table_pages max_level <$> tables t).

(** ** Geometry of the root *)
Lemma root_geometry :
  (max_level ≤ 3)%nat ∧ (1 ≤ root_table_count ≤ 512)%nat ∧ 0 < ptable_end ≤ 2 ^ 48.
Proof.
  destruct stage_geometry as (?&?&?). unfold ptable_end, root_level.
  pose proof (esh_pos (S max_level)). split_and!; (done || nia).
Qed.

Lemma root_end_eq : ptable_addr_space_end = ptable_end.
Proof.
  pose proof root_geometry as (?&?&?). unfold ptable_addr_space_end.
  rewrite entry_size_pow by lia. apply wmul_small. fold root_level. fold ptable_end. lia.
Qed.

Lemma root_end_aligned : aligned 4096 ptable_end.
Proof. apply (aligned_page_esh root_level). apply aligned_mul. Qed.

Lemma root_index x :
  0 ≤ x < ptable_end →
  (index x root_level < root_table_count)%nat ∧
  ebase root_level 0 (index x root_level) ≤ x < ebase root_level 0 (S (index x root_level)).
Proof.
  intros Hx. pose proof root_geometry as (?&?&?). pose proof (esh_pos root_level).
  pose proof (index_spec x root_level ltac:(lia)) as Hi.
  assert (0 ≤ x / 2 ^ esh root_level < Z.of_nat root_table_count).
  { split; [apply Z.div_pos; lia|]. apply Z.div_lt_upper_bound; unfold ptable_end in *; lia. }
  rewrite Z.mod_small in Hi by lia. pose proof (Z.div_mod x (2 ^ esh root_level) ltac:(lia)).
  pose proof (Z.mod_pos_bound x (2 ^ esh root_level) ltac:(lia)).
  split; [lia|]. unfold ebase. lia.
Qed.

Lemma root_base_ok i : (i < root_table_count)%nat → base_ok root_level (ebase root_level 0 i).
Proof.
  intros Hi. pose proof root_geometry as (?&?&?). pose proof (esh_pos root_level).
  unfold base_ok, ebase, ptable_end in *. split_and!; [|nia..].
  apply aligned_add; auto with hfo2.
Qed.

Lemma root_part_range b j :
  0 ≤ b → b < ebase root_level 0 (S j) →
  ebase root_level 0 j ≤ part root_level 0 b j < ebase root_level 0 j + 2 ^ esh root_level.
Proof. intros. rewrite ebase_S in *. unfold part. pose proof (esh_pos root_level). lia. Qed.

Lemma root_part_aligned b j : aligned 4096 b → aligned 4096 (part root_level 0 b j).
Proof.
  intros Hb. assert (aligned 4096 (ebase root_level 0 j)).
  { apply (aligned_page_esh root_level). unfold ebase. auto with hfo2. }
  unfold part. by destruct (Z.max_spec b (ebase root_level 0 j)) as [[_ ->]|[_ ->]].
Qed.

Lemma ptable_pointwise t t' (V : Z → option Z → option Z) :
  length (tables t) = root_table_count → length (tables t') = root_table_count →
  (∀ j e e' x, tables t !! j = Some e → tables t' !! j = Some e' →
     ebase root_level 0 j ≤ x < ebase root_level 0 j + 2 ^ esh root_level →
     tmapping_at max_level e' x = V x (tmapping_at max_level e x)) →
  ∀ x, 0 ≤ x < ptable_end → ptable_mapping t' x = V x (ptable_mapping t x).
Proof.
  intros Hlen Hlen' Hv x Hx. destruct (root_index x Hx) as [Hi Hr]. rewrite ebase_S in Hr.
  unfold ptable_mapping, ptable_attrs.
  destruct (lookup_lt_is_Some_2 (tables t) (index x root_level)) as [e He]; [lia|].
  destruct (lookup_lt_is_Some_2 (tables t') (index x root_level)) as [e' He']; [lia|].
  rewrite He, He'. by apply (Hv (index x root_level)).
Qed.

(** ** [map_root] *)
Section update.
Context (begin end_ a flags : Z).
Hypothesis (Hal : aligned 4096 begin) (Hend : aligned 4096 end_).
Hypothesis (Hb : 0 ≤ begin < ptable_end) (Hle : end_ ≤ ptable_end).
Hypothesis (Ha : bf_contains flags Flags.UNMAP = false → attrs_ok a).

Definition root_ready (t : PageTable) : Prop := ∀ j tb,
  tables t !! j = Some tb → begin < ebase root_level 0 (S j) → part root_level 0 begin j < end_ →
  ready_table end_ a flags max_level (ebase root_level 0 j) tb (part root_level 0 begin j).

(** The loop of [map_root], for any contract [Q] of [map_level]. *)
Lemma map_root_loop Q t st :
  wf_ptable t →
  (∀ j tb, tables t !! j = Some tb → begin < ebase root_level 0 (S j) →
     part root_level 0 begin j < end_ →
     body_ok (table_pages max_level)
       (λ tb b st, map_level max_level tb b end_ a flags st) Q j tb (part root_level 0 begin j)) →
  st_inv st →
  ∃ ok t' st', map_root t begin end_ a root_level flags st = Done (ok, t', st') ∧ st_inv st' ∧
    root t' = root t ∧ length (tables t') = root_table_count ∧
    ptable_pages t ++ mpool_pages (st_pool st) ≡ₚ ptable_pages t' ++ mpool_pages (st_pool st') ∧
    (∀ j e e', tables t !! j = Some e → tables t' !! j = Some e' →
       (begin < ebase root_level 0 (S j) →
          elem_post end_ Q ok j (part root_level 0 begin j) e e') ∧
       (ebase root_level 0 (S j) ≤ begin → e' = e)) ∧
    (ok = false → mpool_pages (st_pool st') = [] ∧ ∃ j e e', tables t !! j = Some e ∧ tables t' !! j = Some e' ∧ begin < ebase root_level 0 (S j) ∧
       part root_level 0 begin j < end_ ∧ Q j (part root_level 0 begin j) false e e').
Proof.
  intros (Hlen & Hw & Hrt & Hr48) Hf Hst. pose proof root_geometry as (?&?&?).
  destruct (root_index begin Hb) as [Hi Hr].
  destruct (slice_loop (table_pages max_level) (λ tb b st, map_level max_level tb b end_ a flags st)
              root_level 0 end_ Q) with (t := tables t) (b0 := begin) (st := st)
    as (ok & ts & st' & Heq & Hst' & Hlen' & Hpp & Hel & Hno);
    [unfold root_level; lia|apply aligned_0|done| |lia|by right|done|done|].
  { rewrite Hlen. unfold ptable_end, ebase in *. lia. }
  exists ok, (mkPageTable (root t) ts), st'. split_and!; try done.
  - unfold map_root. rewrite entry_size_pow by (unfold root_level; lia).
    change (pred root_level) with max_level.
    apply bind_Done_inv in Heq as ([pre es] & Hs & Heq). rewrite Hs. cbn.
    apply bind_Done_inv in Heq as ([[ok' es'] st''] & Hz & Heq). simplify_eq.
    rewrite Hz. done.
  - simpl. lia.
  - unfold ptable_pages. simpl. rewrite <-!app_assoc. by rewrite Hpp.
Qed.
Lemma map_root_prepare t st :
  bf_contains flags Flags.COMMIT = false → wf_ptable t → st_inv st →
  ∃ ok t' st', map_root t begin end_ a root_level flags st = Done (ok, t', st') ∧ st_inv st' ∧
    wf_ptable t' ∧ (∀ x, 0 ≤ x < ptable_end → ptable_mapping t' x = ptable_mapping t x) ∧
    ptable_pages t ++ mpool_pages (st_pool st) ≡ₚ ptable_pages t' ++ mpool_pages (st_pool st') ∧
    (ok = true → root_ready t') ∧ (ok = false → mpool_pages (st_pool st') = []).
Proof.
  intros Hc Hwf Hst. pose proof Hwf as (Hlen & Hw & Hrt & Hr48).
  pose proof root_geometry as (?&?&?).
  set (Q := λ (j : nat) (b : Z) (ok : bool) (e e' : list pte),
    wf_table max_level (ebase root_level 0 j) e' ∧
    (∀ x, ebase root_level 0 j ≤ x < ebase root_level 0 j + 2 ^ esh root_level →
          tmapping_at max_level e' x = tmapping_at max_level e x) ∧
    (ok = true → ready_table end_ a flags max_level (ebase root_level 0 j) e' b)).
  destruct (map_root_loop Q t st) as (ok & t' & st' & -> & Hst' & Hroot & Hlen' & Hpp & Hel & Hno);
    [done| |done|].
  { intros j tb Htb Hj Hp st0 Hst0. pose proof (lookup_lt_Some _ _ _ Htb).
    destruct (map_level_prepare end_ a flags Hend ltac:(lia) Ha max_level Hc ltac:(lia)
      (ebase root_level 0 j) tb (part root_level 0 begin j) st0) as (ok & t' & st' & Heq & ?&?&?&?&?&?);
      [apply root_base_ok; lia|by apply Hw|apply root_part_range; (done || lia)
      |by apply root_part_aligned|done|].
    exists ok, t', st'. split_and!; try done. }
  assert (Hcase : ∀ j e e', tables t !! j = Some e → tables t' !! j = Some e' →
    e' = e ∨ ∃ ok, Q j (part root_level 0 begin j) ok e e').
  { intros j e e' He He'. destruct (Hel j e e' He He') as [H1' H2'].
    destruct (decide (begin < ebase root_level 0 (S j))) as [Hj|Hj]; [|left; apply H2'; lia].
    destruct (H1' Hj) as (P1 & P2 & P3).
    destruct (decide (part root_level 0 begin j < end_)) as [Hp|Hp]; [|left; apply P3; lia].
    destruct (P1 Hp) as [?|[_ ?]]; eauto. }
  assert (Hlk : ∀ j e', tables t' !! j = Some e' → ∃ e, tables t !! j = Some e).
  { intros j e' He'. apply lookup_lt_Some in He'. apply lookup_lt_is_Some_2. lia. }
  do 3 eexists. split; [done|]. split; [done|]. split_and!.
  - unfold wf_ptable. rewrite Hroot. split_and!; [done| |done..].
    intros j e' He'. destruct (Hlk j e' He') as [e He].
    destruct (Hcase j e e' He He') as [->|(? & ? & _)]; auto.
  - apply (ptable_pointwise t t' (λ _ o, o)); [done..|]. intros j e e' x He He' Hx.
    destruct (Hcase j e e' He He') as [->|(? & _ & Hm & _)]; auto.
  - done.
  - intros -> j e' He' Hj Hp. destruct (Hlk j e' He') as [e He].
    destruct (Hel j e e' He He') as [H1' _]. destruct (H1' Hj) as (_ & P2 & _). by apply P2.
  - intros Hok. by apply Hno.
Qed.

Lemma map_root_commit t st :
  bf_contains flags Flags.COMMIT = true → wf_ptable t → root_ready t → st_inv st →
  ∃ t' st', map_root t begin end_ a root_level flags st = Done (true, t', st') ∧ st_inv st' ∧
    wf_ptable t' ∧
    (∀ x, 0 ≤ x < ptable_end →
       ptable_mapping t' x = updated end_ a flags begin (ptable_mapping t x) x) ∧
    (bf_contains flags Flags.UNMAP = false → ∀ x, 0 ≤ x < ptable_end → begin ≤ x < end_ →
       ptable_attrs t' x = a) ∧
    ptable_pages t ++ mpool_pages (st_pool st) ≡ₚ ptable_pages t' ++ mpool_pages (st_pool st').
Proof.
  intros Hc Hwf Hrdy Hst. pose proof Hwf as (Hlen & Hw & Hrt & Hr48).
  pose proof root_geometry as (?&?&?).
  set (Q := λ (j : nat) (b : Z) (ok : bool) (e e' : list pte), ok = true ∧
    wf_table max_level (ebase root_level 0 j) e' ∧
    (∀ x, ebase root_level 0 j ≤ x < ebase root_level 0 j + 2 ^ esh root_level →
          tmapping_at max_level e' x = updated end_ a flags b (tmapping_at max_level e x) x) ∧
    (bf_contains flags Flags.UNMAP = false →
     ∀ x, ebase root_level 0 j ≤ x < ebase root_level 0 j + 2 ^ esh root_level → b ≤ x < end_ →
          tattrs_at max_level e' x = a)).
  destruct (map_root_loop Q t st) as (ok & t' & st' & -> & Hst' & Hroot & Hlen' & Hpp & Hel & Hno);
    [done| |done|].
  { intros j tb Htb Hj Hp st0 Hst0. pose proof (lookup_lt_Some _ _ _ Htb).
    destruct (map_level_commit end_ a flags Hend ltac:(lia) Ha max_level Hc ltac:(lia)
      (ebase root_level 0 j) tb (part root_level 0 begin j) st0) as (t' & st' & Heq & ?&?&?&?&?);
      [apply root_base_ok; lia|by apply Hw|apply root_part_range; (done || lia)
      |by apply root_part_aligned|by apply Hrdy|done|].
    exists true, t', st'. split_and!; try done. }
  destruct ok; [clear Hno|by destruct Hno as (?&?&?&?&?&?&?&?&?&?)].
  assert (Hcase : ∀ j e e', tables t !! j = Some e → tables t' !! j = Some e' →
    wf_table max_level (ebase root_level 0 j) e' ∧
    ∀ x, ebase root_level 0 j ≤ x < ebase root_level 0 j + 2 ^ esh root_level →
      tmapping_at max_level e' x = updated end_ a flags begin (tmapping_at max_level e x) x ∧
      (bf_contains flags Flags.UNMAP = false → begin ≤ x < end_ → tattrs_at max_level e' x = a)).
  { intros j e e' He He'. destruct (Hel j e e' He He') as [H1' H2'].
    assert (Hout : ∀ x, e' = e → (begin ≤ x < end_ → False) →
      tmapping_at max_level e' x = updated end_ a flags begin (tmapping_at max_level e x) x ∧
      (bf_contains flags Flags.UNMAP = false → begin ≤ x < end_ → tattrs_at max_level e' x = a)).
    { intros x -> Hx. split; [|done]. unfold updated. by rewrite decide_False. }
    destruct (decide (begin < ebase root_level 0 (S j))) as [Hj|Hj].
    2:{ rewrite H2' in * by lia. split; [auto|]. intros x Hx. apply Hout; [done|].
        rewrite ebase_S in Hj. lia. }
    destruct (H1' Hj) as (P1 & P2 & P3).
    destruct (decide (part root_level 0 begin j < end_)) as [Hp|Hp].
    2:{ rewrite P3 in * by lia. split; [auto|]. intros x Hx. apply Hout; [done|].
        unfold part in Hp. lia. }
    destruct (P2 Hp eq_refl) as (_ & ? & Hm & Hat). split; [done|]. intros x Hx. split.
    - rewrite Hm by done. unfold updated, part. repeat destruct (decide _); (done || lia).
    - intros. apply Hat; unfold part; (done || lia). }
  do 2 eexists. split; [done|]. split; [done|]. split_and!.
  - unfold wf_ptable. rewrite Hroot. split_and!; [done| |done..].
    intros j e' He'. destruct (lookup_lt_is_Some_2 (tables t) j) as [e He].
    { apply lookup_lt_Some in He'. lia. } by eapply Hcase.
  - apply (ptable_pointwise t t' (λ x o, updated end_ a flags begin o x)); [done..|].
    intros. by eapply Hcase.
  - intros Hu x Hx Hbx. destruct (root_index x Hx) as [Hi Hr]. rewrite ebase_S in Hr.
    unfold ptable_attrs.
    destruct (lookup_lt_is_Some_2 (tables t) (index x root_level)) as [e He]; [lia|].
    destruct (lookup_lt_is_Some_2 (tables t') (index x root_level)) as [e' He']; [lia|].
    rewrite He'. by eapply (Hcase _ e e').
  - done.
Qed.
End update.

(** ** [identity_update] *)

(** The page-aligned range a call really updates. *)
Definition upd_begin (begin : paddr_t) : Z := pa begin - pa begin mod 4096.
Definition upd_end (end_ : paddr_t) : Z := Z.min (round_up_to_page (pa end_)) ptable_end.

Lemma round_up_to_page_mult x : aligned 4096 (round_up_to_page x).
Proof.
  unfold round_up_to_page. rewrite round_down_to_page_spec by (by apply wrap_range).
  unfold aligned. by rewrite Zminus_mod_idemp_r, Z.sub_diag.
Qed.

Lemma identity_update_spec t begin end_ a flags st :
  flags = 0 ∧ attrs_ok a ∨ flags = Flags.UNMAP →
  wf_ptable t → st_inv st → 0 ≤ pa begin < ptable_end →
  ∃ ok t' st', identity_update t begin end_ a flags st = Done (ok, t', st') ∧ st_inv st' ∧
    wf_ptable t' ∧
    ptable_pages t ++ mpool_pages (st_pool st) ≡ₚ ptable_pages t' ++ mpool_pages (st_pool st') ∧
    (∀ x, 0 ≤ x < ptable_end →
      ptable_mapping t' x =
      if ok && bool_decide (upd_begin begin ≤ x < upd_end end_)
      then (if flags =? Flags.UNMAP then None else mapped a) else ptable_mapping t x) ∧
    (ok = true → flags = 0 → ∀ x, upd_begin begin ≤ x < upd_end end_ → ptable_attrs t' x = a) ∧
    (ok = false → mpool_pages (st_pool st') = []).
Proof.
  intros Hfl Hwf Hst Hb. destruct begin as [b]. cbn [pa] in Hb.
  pose proof root_geometry as (?&?&?). unfold identity_update.
  cbv zeta. change (S max_level) with root_level. rewrite root_end_eq. change (Z.min (round_up_to_page (pa_addr end_)) ptable_end) with (upd_end end_).
  change (mk_paddr b) with (pa_init b). rewrite clear_pa_spec by (split; lia).
  rewrite (Z.mod_small b) by lia. change (b - b mod 4096) with (upd_begin (pa_init b)).
  pose proof (Z.mod_pos_bound b 4096 ltac:(lia)). pose proof (Z.mod_le b 4096 ltac:(lia) ltac:(lia)).
  assert (Hal : aligned 4096 (upd_begin (pa_init b))).
  { unfold upd_begin, aligned. cbn. by rewrite Zminus_mod_idemp_r, Z.sub_diag. }
  assert (Hend : aligned 4096 (upd_end end_)).
  { pose proof root_end_aligned. pose proof (round_up_to_page_mult (pa end_)).
    unfold upd_end. by destruct (Z.min_spec (round_up_to_page (pa end_)) ptable_end) as [[_ ->]|[_ ->]]. }
  assert (Hb' : 0 ≤ upd_begin (pa_init b) < ptable_end) by (unfold upd_begin; cbn; lia).
  assert (Hle : upd_end end_ ≤ ptable_end) by (unfold upd_end; lia).
  assert (Ha0 : bf_contains flags Flags.UNMAP = false → attrs_ok a) by by destruct Hfl as [[-> ?]| ->].
  destruct (map_root_prepare (upd_begin (pa_init b)) (upd_end end_) a flags Hal Hend Hb' Hle Ha0)
    with (t := t) (st := st) as (ok & t1 & st1 & -> & Hst1 & Hwf1 & Hm1 & Hp1 & Hrdy & Hex);
    [by destruct Hfl as [[-> _]| ->]|done..|].
  cbn. destruct ok; cbn.
  2:{ do 3 eexists. split; [done|]. split_and!; done. }
  set (fl := Z.lor flags Flags.COMMIT).
  assert (Hrdy' : root_ready (upd_begin (pa_init b)) (upd_end end_) a fl t1).
  { specialize (Hrdy eq_refl). unfold fl. by destruct Hfl as [[-> _]| ->]. }
  destruct (map_root_commit (upd_begin (pa_init b)) (upd_end end_) a fl Hal Hend Hb' Hle)
    with (t := t1) (st := st1) as (t2 & st2 & -> & Hst2 & Hwf2 & Hm2 & Ha2 & Hp2); [|..|done|done|done|].
  { unfold fl. by destruct Hfl as [[-> ?]| ->]. }
  { unfold fl. by destruct Hfl as [[-> _]| ->]. }
  cbn. do 3 eexists. split; [done|]. unfold st_inv. rewrite stage_tlb_pool.
  split_and!; [done|done|by rewrite Hp1|..|done].
  2:{ intros _ -> x Hx. apply Ha2; [done| |done]. lia. }
  intros x Hx. rewrite Hm2, Hm1 by done.
  unfold updated. rewrite andb_true_l. case_decide as Hd.
  - rewrite bool_decide_true by done. unfold target, fl. by destruct Hfl as [[-> _]| ->].
  - by rewrite bool_decide_false.
Qed.
End ptable.
