(* ===== verification/MmDefrag.v ===== *)
(** * Defragmentation ([PageTableEntry::defrag], [PageTable::defrag])

    Merging tables into blocks keeps the meaning of the tree and returns the
    pages of the merged tables to the pool. *)
From S2P Require Import Prelude Addr Mode Arch Mpool Mm MmSpec MmMap.

Section defrag.
Context {A : ArchMM} {L : ArchLaws A} {SG : Stage} {SL : StageLaws L SG} {RD : ReduceCrate}.

(** The reduction succeeds only if all children have the same attributes. *)
Lemma reduce_join rs c :
  reduce attrs_join rs = Some (Ok c) → Forall (λ r, r = Ok c) rs.
Proof.
  destruct rs as [|r rs]; [by rewrite reduce_nil|]. rewrite reduce_cons. intros [= H].
  revert r H. induction rs as [|r' rs IH]; intros r H; simpl in H; [by constructor|].
  apply IH, Forall_cons in H as [Hj Hrs]. unfold attrs_join in Hj.
  case_decide as Hd; [|done]. subst. by repeat constructor.
Qed.

(** What defragmenting one entry does. *)
Definition defragged (l : nat) (base : Z) (e : pte) (r : result Z unit) (e' : pte) : Prop :=
  wf_pte l base e' ∧
  (∀ x, base ≤ x < base + 2 ^ esh l → mapping_at l e' x = mapping_at l e x) ∧
  (∀ c, r = Ok c → ∃ v, e' = Leaf v ∧ pte_attrs l e' = c).

Definition defrag_ok (l : nat) (base : Z) (e : pte) : Prop := ∀ m, pool_inv m →
  ∃ r e' m', pte_defrag l e m = Done (r, e', m') ∧ pool_inv m' ∧ defragged l base e r e' ∧
    pte_pages l e ++ mpool_pages m ≡ₚ pte_pages l e' ++ mpool_pages m'.

Lemma defrag_entries_spec l base k es m :
  (∀ i e, es !! i = Some e → defrag_ok l (ebase l base (k + i)) e) → pool_inv m →
  ∃ rs es' m', defrag_entries (pte_defrag l) es m = Done (rs, es', m') ∧ pool_inv m' ∧
    length rs = length es ∧ length es' = length es ∧
    table_pages l es ++ mpool_pages m ≡ₚ table_pages l es' ++ mpool_pages m' ∧
    ∀ i e r e', es !! i = Some e → rs !! i = Some r → es' !! i = Some e' →
      defragged l (ebase l base (k + i)) e r e'.
Proof.
  revert k m. induction es as [|e es IH]; intros k m Hd Hm.
  { exists [], [], m. split_and!; done. }
  cbn [defrag_entries]. destruct (Hd 0%nat e eq_refl m Hm) as (r & e' & m1 & -> & Hm1 & Hde & Hp1).
  cbn. destruct (IH (S k) m1) as (rs & es' & m2 & -> & Hm2 & Hl1 & Hl2 & Hp2 & Hall); [|done|].
  { intros i e0 He0. replace (S k + i)%nat with (k + S i)%nat by lia. by apply Hd. }
  cbn. do 3 eexists. split; [done|]. split_and!; [done|by cbn; f_equal..| |].
  - unfold table_pages in *. cbn. rewrite <-!app_assoc, <-Hp2. rewrite !app_assoc.
    rewrite (Permutation_app_comm (pte_pages l e)), (Permutation_app_comm (pte_pages l e')).
    rewrite <-!app_assoc. by rewrite Hp1.
  - intros [|i] e1 r1 e2 ???; simplify_eq/=; [done|].
    replace (k + S i)%nat with (S k + i)%nat by lia. by eapply Hall.
Qed.

(** A table whose entries are leaves with the attributes [c]. *)
Definition uniform (l : nat) (base : Z) (es : list pte) (c : Z) : Prop :=
  length es = 512%nat ∧
  ∀ i e, es !! i = Some e → ∃ v, e = Leaf v ∧ wf_leaf l (ebase l base i) v ∧ pte_attrs l e = c.

Lemma uniform_mapping l base es c x :
  base_ok (S l) base → uniform l base es c → base ≤ x < base + 2 ^ esh (S l) →
  tmapping_at l es x = mapped c.
Proof.
  intros Hb [Hlen Hu] Hx. destruct (base_ok_index l base x Hb Hx) as [Hi _].
  unfold tmapping_at, tattrs_at. destruct (lookup_lt_is_Some_2 es (index x l)) as [e He]; [lia|].
  rewrite He. destruct (Hu _ _ He) as (v & -> & _ & <-). by rewrite attrs_at_leaf.
Qed.

Lemma uniform_pages l base es c : uniform l base es c → table_pages l es = [].
Proof.
  intros [_ Hu]. unfold table_pages. apply join_nil, Forall_fmap, Forall_lookup.
  intros i e He. destruct (Hu i e He) as (v & -> & _). apply pte_pages_leaf.
Qed.

(** The first entry of a uniform table of present entries is the block at the
    base of the table. *)
Lemma uniform_first l base es c :
  base_ok (S l) base → uniform l base es c →
  ∃ v0, head es = Some (Leaf v0) ∧ is_present l (Leaf v0) = arch_mm_pte_is_present c l ∧
    mapped c = (if arch_mm_pte_is_present c l then Some c else None) ∧
    (arch_mm_pte_is_present c l = true →
     attrs_ok c ∧ as_block_unchecked l (Leaf v0) = pa_init base).
Proof.
  intros Hb [Hlen Hu]. destruct es as [|e0 es]; [done|].
  destruct (Hu 0%nat e0 eq_refl) as (v0 & -> & Hw & Hc). exists v0.
  pose proof (base_ok_child l base 0 Hb ltac:(lia)) as Hb0.
  pose proof (wf_leaf_present l l _ v0 Hb0 Hw) as Hp. rewrite Hc in Hp.
  pose proof (wf_leaf_present l 0 _ v0 Hb0 Hw) as Hp0. rewrite Hc in Hp0.
  split_and!; [done|done|unfold mapped; by rewrite <-Hp, Hp0|]. intros Hpc.
  destruct Hw as [->|(a & Ha & Hal & ->)].
  - rewrite <-Hp in Hpc. unfold is_present in Hpc. simpl in Hpc. by rewrite absent_not_present in Hpc.
  - unfold pte_attrs in Hc. simpl in Hc. rewrite block_attrs in Hc by done. subst c.
    split; [done|]. unfold as_block_unchecked. simpl. rewrite block_addr by done.
    unfold ebase. f_equal. lia.
Qed.

(** Merging the children of a table. *)
Lemma pte_defrag_table l base p es :
  base_ok (S l) base → wf_pte (S l) base (Table p es) →
  (∀ i e, es !! i = Some e → defrag_ok l (ebase l base i) e) →
  defrag_ok (S l) base (Table p es).
Proof.
  intros Hb Hw IH m Hm. cbn [pte_defrag].
  rewrite (wf_table_not_block _ base), (wf_as_table _ base) by done. cbn [mbind exec_bind].
  destruct Hw as (Hp & Hlt & Hlen & Hes).
  destruct (defrag_entries_spec l base 0 es m) as (rs & es' & m1 & -> & Hm1 & Hl1 & Hl2 & Hpp & Hall);
    [done..|]. cbn [mbind exec_bind Nat.add] in *.
  assert (Hel : ∀ i e', es' !! i = Some e' → ∃ e r, es !! i = Some e ∧ rs !! i = Some r ∧
    defragged l (ebase l base i) e r e').
  { intros i e' He'. pose proof (lookup_lt_Some _ _ _ He').
    destruct (lookup_lt_is_Some_2 es i) as [e He]; [lia|].
    destruct (lookup_lt_is_Some_2 rs i) as [r Hr]; [lia|]. eauto 10. }
  assert (Hwt : wf_table l base es').
  { split; [lia|]. intros i e' He'. by destruct (Hel i e' He') as (?&?&?&?&?&_). }
  assert (Hmap : ∀ x, base ≤ x < base + 2 ^ esh (S l) → tmapping_at l es' x = tmapping_at l es x).
  { apply (tmapping_pointwise l base es es' (λ _ o, o)); [done|lia|lia|].
    intros j e e' x He He' Hx. destruct (Hel j e' He') as (e1 & r & He1 & _ & _ & Hm' & _).
    rewrite He in He1. simplify_eq. by apply Hm'. }
  assert (Hkeep : ∃ r e' m', Done (Err tt, Table p es', m1) = Done (r, e', m') ∧ pool_inv m' ∧
    defragged (S l) base (Table p es) r e' ∧
    pte_pages (S l) (Table p es) ++ mpool_pages m ≡ₚ pte_pages (S l) e' ++ mpool_pages m').
  { do 3 eexists. split; [done|]. split; [done|]. split.
    - split; [by apply wf_pte_table|]. split; [by apply Hmap|done].
    - rewrite !pte_pages_table. cbn. by rewrite Hpp. }
  destruct (reduce attrs_join rs) as [[c|[]]|] eqn:Hred; [|exact Hkeep..].
  apply reduce_join in Hred.
  assert (Hun : uniform l base es' c).
  { split; [lia|]. intros i e' He'. destruct (Hel i e' He') as (e & r & _ & Hr & Hwe & _ & Hok).
    rewrite Forall_lookup in Hred. destruct (Hok c (Hred i r Hr)) as (v & -> & Hat).
    exists v. split_and!; [done| |done]. destruct l; exact Hwe. }
  destruct (uniform_first l base es' c Hb Hun) as (v0 & Hhd & _ & Hmc & Hc).
  pose proof (uniform_pages l base es' c Hun) as Hnil. rewrite Hnil in Hpp.
  destruct (pool_inv_free m1 p) as [Hm2 Hfree]; [done..|].
  destruct (arch_mm_pte_is_present c l) eqn:Hpc; cbn [negb].
  - destruct (Hc eq_refl) as [Hac Haddr]. destruct (arch_mm_is_block_allowed (S l)) eqn:Hal; cbn [negb];
      [|exact Hkeep].
    rewrite Hhd. cbn [unwrap_opt mbind exec_bind]. unfold pte_attrs at 1 2. cbn [inner].
    rewrite table_combine, Haddr by (done || by apply page_table_ok).
    do 3 eexists. split; [done|]. split; [done|]. split; [split_and!|].
    + by apply wf_block.
    + intros x Hx. unfold mapping_at at 1. rewrite block_attrs_at by done.
      rewrite <-(uniform_mapping l base es' c x) by done. by apply Hmap.
    + intros ? [= <-]. eexists. split; [done|]. by apply block_attrs.
    + unfold block. rewrite pte_pages_table, Hfree, pte_pages_leaf. cbn. by rewrite Hpp.
  - do 3 eexists. split; [done|]. split; [done|]. split; [split_and!|].
    + apply wf_absent.
    + intros x Hx. rewrite mapping_absent, <-Hmc.
      rewrite <-(uniform_mapping l base es' c x) by done. by apply Hmap.
    + intros ? [= <-]. by eexists.
    + unfold absent. rewrite pte_pages_table, Hfree, pte_pages_leaf. cbn. by rewrite Hpp.
Qed.

Lemma pte_defrag_spec l base e : base_ok l base → wf_pte l base e → defrag_ok l base e.
Proof.
  revert base e. induction l as [|l IH]; intros base e Hb Hw; destruct e as [v|p es]; try done.
  3:{ apply pte_defrag_table; [done..|]. intros i e He. destruct Hw as (_ & _ & Hlen & Hes).
      apply IH; [|by apply Hes]. apply base_ok_child; [done|]. apply lookup_lt_Some in He. lia. }
  all: intros m Hm; cbn [pte_defrag]; rewrite (wf_as_table _ base) by done; cbn [mbind exec_bind];
    destruct (is_block _ (Leaf v)); do 3 eexists; (split; [done|]); split_and!; try done.
  all: split_and!; try done; intros; simplify_eq; eauto.
Qed.
End defrag.
