(* ===== verification/MmSplit.v ===== *)
(** * How many tables an update needs

    [identity_update] fails only for want of pages.  This file counts the tables its
    first pass adds ([need]) and shows that a pool with that many pages is enough; that
    a range which has just been mapped needs none to be mapped again ([splits]), that
    updates elsewhere do not change this, and that [defrag] returns at least the pages
    it makes a later update need.  Together they show that the code can always undo an
    update it has made. *)
From S2P Require Import Prelude Addr Mode Arch Mpool Mm MmSpec MmMap MmDefrag.

(** ** Sums over the entries of a table *)
Section sums.
Context {X : Type}.
Implicit Types (t : list X) (f g : nat → X → nat).

Lemma sum_cons x l : sum_list (x :: l) = (x + sum_list l)%nat.
Proof. done. Qed.
Lemma sum_imap_le f g t t' :
  length t' = length t →
  (∀ j e e', t !! j = Some e → t' !! j = Some e' → (f j e' ≤ g j e)%nat) →
  (sum_list (imap f t') ≤ sum_list (imap g t))%nat.
Proof.
  revert f g t'. induction t as [|e t IH]; intros f g [|e' t'] Hlen H; try done.
  rewrite !imap_cons, !sum_cons. apply Nat.add_le_mono; [by apply (H 0%nat)|].
  apply IH; [by injection Hlen|]. intros j. apply (H (S j)).
Qed.
Lemma sum_imap_lt f g t t' j e e' :
  length t' = length t → t !! j = Some e → t' !! j = Some e' → (f j e' < g j e)%nat →
  (∀ j e e', t !! j = Some e → t' !! j = Some e' → (f j e' ≤ g j e)%nat) →
  (sum_list (imap f t') < sum_list (imap g t))%nat.
Proof.
  revert f g t' j. induction t as [|e0 t IH]; intros f g [|e0' t'] j Hlen He He' Hlt H; try done.
  rewrite !imap_cons, !sum_cons. assert (Hl : length t' = length t) by by injection Hlen.
  assert (Hr : ∀ j e e', t !! j = Some e → t' !! j = Some e' → ((f ∘ S) j e' ≤ (g ∘ S) j e)%nat) by (intros k; apply (H (S k))).
  destruct j as [|j]; cbn in He, He'; simplify_eq.
  - apply Nat.add_lt_le_mono; [done|]. by apply sum_imap_le.
  - apply Nat.add_le_lt_mono; [by apply H|]. by eapply IH.
Qed.
Lemma sum_imap_add f g t :
  sum_list (imap (λ j e, f j e + g j e)%nat t) = (sum_list (imap f t) + sum_list (imap g t))%nat.
Proof.
  revert f g. induction t as [|e t IH]; intros f g; [done|]. rewrite !imap_cons, !sum_cons.
  pose proof (IH (f ∘ S) (g ∘ S)) as Hs. unfold compose in *. rewrite Hs. lia.
Qed.
Lemma sum_imap_0 f t : (∀ j e, t !! j = Some e → f j e = 0%nat) → sum_list (imap f t) = 0%nat.
Proof.
  revert f. induction t as [|e t IH]; intros f H; [done|]. rewrite imap_cons, sum_cons.
  rewrite (H 0%nat e eq_refl). apply IH. intros j. apply (H (S j)).
Qed.
Lemma sum_imap_join {Y} (pg : X → list Y) t :
  length (mjoin (pg <$> t)) = sum_list (imap (λ _ e, length (pg e)) t).
Proof. induction t as [|e t IH]; [done|]. rewrite imap_cons, sum_cons. etrans; [apply length_app|]. f_equal. exact IH. Qed.
End sums.

Section split.
Context {A : ArchMM} {L : ArchLaws A} {SG : Stage} {SL : StageLaws L SG}.

(** ** The part of the tree that stands for a range

    [splits]: every entry that meets the range [b2, e2) lies inside of it, so that it
    can be replaced as a whole, or is a table for whose entries this holds. *)
Section range.
Context (b2 e2 : Z).
Definition meets (l : nat) (base : Z) : Prop := b2 < base + 2 ^ esh l ∧ base < e2 ∧ b2 < e2.
Definition inside (l : nat) (base : Z) : Prop :=
  b2 ≤ base ∧ base + 2 ^ esh l ≤ e2 ∧ arch_mm_is_block_allowed l = true.
Fixpoint splits (l : nat) (base : Z) (e : pte) : Prop :=
  inside l base ∨
  match l, e with
  | S l', Table _ es => ∀ j e', es !! j = Some e' → meets l' (ebase l' base j) → splits l' (ebase l' base j) e'
  | _, _ => False
  end.
Definition splits_table (l : nat) (base : Z) (t : list pte) : Prop :=
  ∀ j e, t !! j = Some e → meets l (ebase l base j) → splits l (ebase l base j) e.

Lemma splits_inside l base e : inside l base → splits l base e.
Proof. destruct l; by left. Qed.
Lemma splits_leaf l base v : splits l base (Leaf v) → inside l base.
Proof. destruct l; intros [?|[]]; done. Qed.
End range.

Section update.
Context (end_ a flags : Z).
Hypothesis (Hend : aligned 4096 end_) (Hend48 : end_ ≤ 2 ^ 48).
Local Abbreviation u := (bf_contains flags Flags.UNMAP).
Hypothesis (Ha : u = false → attrs_ok a).
Local Abbreviation ready := (ready end_ a flags).
Local Abbreviation ready_table := (ready_table end_ a flags).
Local Abbreviation skipped := (skipped a flags).
Local Abbreviation covered := (covered end_ flags).
Local Abbreviation level_rec := (level_rec end_ a flags).

(** The loop visits entry [j] of a table when it updates the range from [b] on. *)
Definition visits (l : nat) (base b : Z) (j : nat) : bool :=
  bool_decide (b < ebase l base (S j)) && bool_decide (part l base b j < end_).
Lemma visits_spec l base b j :
  visits l base b j = true ↔ b < ebase l base (S j) ∧ part l base b j < end_.
Proof. unfold visits. by rewrite andb_true_iff, !bool_decide_eq_true. Qed.

(** The tables that are missing for the update of the range from [b] on. *)
Fixpoint need (l : nat) (base : Z) (e : pte) (b : Z) : nat :=
  if skipped l e || covered l b then 0%nat
  else
    match l with
    | O => 0%nat
    | S l' =>
        let sub es := sum_list (imap (λ j e',
          if visits l' base b j then need l' (ebase l' base j) e' (part l' base b j) else 0%nat) es) in
        match e with
        | Table _ es => sub es
        | Leaf _ => S (sub (expansion l' e))
        end
    end.
Definition need_table (l : nat) (base : Z) (t : list pte) (b : Z) : nat :=
  sum_list (imap (λ j e,
    if visits l base b j then need l (ebase l base j) e (part l base b j) else 0%nat) t).

Lemma need_S l base e b :
  need (S l) base e b =
  if skipped (S l) e || covered (S l) b then 0%nat
  else match e with Table _ es => need_table l base es b | Leaf _ => S (need_table l base (expansion l e) b) end.
Proof. done. Qed.
Lemma need_easy l base e b : skipped l e || covered l b = true → need l base e b = 0%nat.
Proof. destruct l; cbn [need]; by intros ->. Qed.

(** Nothing is missing in a tree that is ready. *)
Lemma ready_need l base e b : ready l base e b → need l base e b = 0%nat.
Proof.
  revert base e b. induction l as [|l IH]; intros base e b Hr.
  { cbn [need]. by destruct (_ || _). }
  rewrite need_S. destruct (skipped (S l) e || covered (S l) b) eqn:Hc; [done|].
  apply orb_false_iff in Hc as [Hs Hc]. destruct Hr as [?|[?|Hr]]; [congruence..|].
  destruct e as [v|p es]; [done|]. apply sum_imap_0. intros j e He.
  destruct (visits l base b j) eqn:Hv; [|done]. apply visits_spec in Hv as [??]. by apply IH, Hr.
Qed.

(** A range that stands on its own in the tree can be updated as it is. *)
Lemma inside_covered b2 l base :
  base_ok l base → inside b2 end_ l base → covered l base = true.
Proof.
  intros (Hal & _ & _) (_ & He & Hall). unfold covered. rewrite Hall, orb_true_r, Hal.
  by rewrite (proj2 (Z.leb_le _ _)) by lia.
Qed.
Lemma splits_ready b2 l base e :
  base_ok l base → wf_pte l base e → splits b2 end_ l base e → ready l base e (Z.max b2 base).
Proof.
  revert base e. induction l as [|l IH]; intros base e Hb Hw Hs.
  - destruct Hs as [Hi|[]]. apply ready_easy. right. rewrite Z.max_r by apply Hi. by eapply inside_covered.
  - destruct Hs as [Hi|Hs].
    + apply ready_easy. right. rewrite Z.max_r by apply Hi. by eapply inside_covered.
    + destruct e as [v|p es]; [done|]. destruct Hw as (_ & _ & Hlen & Hes). right; right. intros j e' He' Hv Hp.
      pose proof (lookup_lt_Some _ _ _ He').
      assert (base ≤ ebase l base j) by (unfold ebase; pose proof (esh_pos l); lia).
      unfold part in *. replace (Z.max (Z.max b2 base) (ebase l base j)) with (Z.max b2 (ebase l base j)) in * by lia.
      apply IH; [apply base_ok_child; (done || lia)|by apply Hes|].
      apply Hs; [done|]. unfold meets. rewrite ebase_S in Hv. lia.
Qed.

(** An update that changes the whole range leaves it on its own. *)
Lemma covered_inside b2 l base b :
  u = false → base_ok l base → b = Z.max b2 base → b < base + 2 ^ esh l → covered l b = true →
  inside b2 end_ l base.
Proof.
  intros Hu Hb Heq Hin Hc. destruct (covered_new end_ a flags Ha l base b) as (Hbb & He & _); [done|lia|done|].
  unfold covered in Hc. rewrite Hu in Hc. apply andb_prop in Hc as [[_ Hall]%andb_prop _].
  split_and!; [lia|lia|done].
Qed.
Lemma ready_splits b2 l base e b :
  u = false → base_ok l base → wf_pte l base e → b = Z.max b2 base → b < base + 2 ^ esh l → b < end_ →
  (∀ x, base ≤ x < base + 2 ^ esh l → b2 ≤ x < end_ → mapping_at l e x ≠ target a flags) →
  ready l base e b → splits b2 end_ l base e.
Proof.
  intros Hu. revert base e b. induction l as [|l IH]; intros base e b Hb Hw Heq Hin Hlt Hne Hr.
  all: assert (Hx0 : mapping_at _ e b ≠ target a flags) by (apply (Hne b); lia).
  - destruct Hr as [Hs|[Hc|[]]]; [|left; by eapply covered_inside]. destruct Hx0. by eapply skipped_mapping.
  - destruct Hr as [Hs|[Hc|Hr]]; [|left; by eapply covered_inside|].
    { destruct Hx0. by eapply skipped_mapping. } destruct e as [v|p es]; [done|]. right. intros j e' He' Hm.
    pose proof Hw as (_ & _ & Hlen & Hes). pose proof (lookup_lt_Some _ _ _ He').
    assert (Hbj : base_ok l (ebase l base j)) by (apply base_ok_child; (done || lia)).
    assert (base ≤ ebase l base j) by (unfold ebase; pose proof (esh_pos l); lia).
    destruct Hm as (Hm1 & Hm2 & Hm3). pose proof (esh_pos l).
    assert (Hp : part l base b j = Z.max b2 (ebase l base j)) by (unfold part; lia).
    apply (IH _ _ (part l base b j)); [done|by apply Hes|done|lia|lia| |].
    + intros x Hx Hxr. assert (Hxb : base ≤ x < base + 2 ^ esh (S l)).
      { unfold ebase in *. rewrite esh_S. pose proof (esh_pos l). nia. }
      intros Hx'. apply (Hne x Hxb Hxr). rewrite <-Hx'. unfold mapping_at. rewrite attrs_at_table. unfold tattrs_at.
      rewrite (index_in_entry base l j); [by rewrite He'|apply Hb|apply Hb|lia|]. unfold ebase in Hx. lia.
    + apply Hr; [done| |]; [rewrite ebase_S; lia|lia].
Qed.

(** ** The passes of an update

    A pass that only prepares, or one that commits on a tree that is ready, can be
    described entry by entry: whatever [map_entry] guarantees of each entry it visits
    holds of the whole table. *)
Definition pass_ok (l : nat) (base : Z) (t : list pte) (b : Z) : Prop :=
  bf_contains flags Flags.COMMIT = false ∨
  bf_contains flags Flags.COMMIT = true ∧ ready_table l base t b.

Lemma body_ok_and {X} (pg : X → list Z) f (Q Q' : nat → Z → bool → X → X → Prop) j e b :
  body_ok pg f Q j e b →
  (∀ st ok e' st', st_inv st → f e b st = Done (ok, e', st') → Q' j b ok e e') →
  body_ok pg f Q' j e b.
Proof.
  intros H HQ st Hst. destruct (H st Hst) as (ok & e' & st' & Hf & ? & _ & ? & ?).
  exists ok, e', st'. split_and!; eauto.
Qed.

Lemma pass_body l base t b j e :
  (l ≤ 3)%nat → base_ok (S l) base → wf_table l base t → base ≤ b < base + 2 ^ esh (S l) → aligned 4096 b →
  pass_ok l base t b → t !! j = Some e → b < ebase l base (S j) → part l base b j < end_ →
  ∃ Q, body_ok (pte_pages l) (map_entry l (level_rec l) end_ a flags) Q j e (part l base b j).
Proof.
  intros Hl Hb [Hlen Hw] Hin Hal Hpass He Hj Hp. pose proof (lookup_lt_Some _ _ _ He).
  assert (Hj5 : (j < 512)%nat) by lia.
  pose proof (base_ok_child l base j Hb Hj5). pose proof (part_aligned l base b j Hb Hj5 Hal).
  destruct (part_range l base b j Hin Hj5 Hj) as [? _].
  destruct Hpass as [Hc|[Hc Hr]].
  - exists (prepared end_ a flags l base). apply map_entry_prepare; auto.
    destruct l; [done|]. apply map_level_prepare; auto with lia.
  - exists (committed end_ a flags l base). apply map_entry_commit; auto.
    destruct l; [done|]. apply map_level_commit; auto with lia.
Qed.

Lemma map_level_elems (Q : nat → Z → bool → pte → pte → Prop) l base t b st :
  (l ≤ 3)%nat → base_ok (S l) base → wf_table l base t → base ≤ b < base + 2 ^ esh (S l) → aligned 4096 b →
  pass_ok l base t b → st_inv st →
  (∀ j e st ok e' st', t !! j = Some e → b < ebase l base (S j) → part l base b j < end_ → st_inv st →
     map_entry l (level_rec l) end_ a flags e (part l base b j) st = Done (ok, e', st') →
     Q j (part l base b j) ok e e') →
  ∃ ok t' st', map_level l t b end_ a flags st = Done (ok, t', st') ∧ length t' = length t ∧
    (∀ j e e', t !! j = Some e → t' !! j = Some e' →
       e' = e ∧ (visits l base b j = false ∨ ok = false) ∨
       visits l base b j = true ∧ ∃ ok', Q j (part l base b j) ok' e e' ∧ (ok = true → ok' = true)) ∧
    (ok = false → ∃ j e e', t !! j = Some e ∧ t' !! j = Some e' ∧ visits l base b j = true ∧
       Q j (part l base b j) false e e').
Proof.
  intros Hl Hb Hwt Hin Hal Hpass Hst HQ. pose proof Hwt as [Hlen _]. rewrite map_level_eq.
  destruct (table_loop end_ l base t b (map_entry l (level_rec l) end_ a flags) Q st)
    as (ok & t' & st' & -> & _ & Hlen' & _ & Hel & Hno); [done..| |done|].
  { intros j e He Hj Hp. destruct (pass_body l base t b j e) as [Q0 HQ0]; [done..|].
    eapply body_ok_and; [exact HQ0|]. intros. by eapply HQ. }
  exists ok, t', st'. split_and!; [done|lia| |].
  - intros j e e' He He'. destruct (Hel j e e' He He') as [H1 H2].
    destruct (visits l base b j) eqn:Hv.
    + apply visits_spec in Hv as [Hj Hp]. destruct (H1 Hj) as (P1 & P2 & _). destruct ok.
      * right. split; [done|]. exists true. auto.
      * destruct (P1 Hp) as [[ok' ?]|[_ ?]]; [right|left]; [|auto]. split; [done|]. by exists ok'.
    + left. split; [|by left]. unfold visits in Hv. destruct (decide (b < ebase l base (S j))) as [Hj|Hj].
      * rewrite bool_decide_true in Hv by done. cbn in Hv. apply bool_decide_eq_false in Hv.
        destruct (H1 Hj) as (_ & _ & P3). apply P3. lia.
      * apply H2. lia.
  - intros Hok. destruct (Hno Hok) as (_ & j & e & e' & ? & ? & ? & ? & ?). exists j, e, e'.
    split_and!; [done..| |done]. by apply visits_spec.
Qed.

(** *** The first pass adds the tables that are missing, and no others *)
Definition fail (ok : bool) : nat := if ok then 0%nat else 1%nat.
Definition level_need (l : nat) : Prop := ∀ base t b st ok t' st',
  base_ok (S l) base → wf_table l base t → base ≤ b < base + 2 ^ esh (S l) → aligned 4096 b → st_inv st →
  map_level l t b end_ a flags st = Done (ok, t', st') →
  (length (table_pages l t') + fail ok ≤ length (table_pages l t) + need_table l base t b)%nat.

Lemma map_entry_need l base e b st ok e' st' :
  bf_contains flags Flags.COMMIT = false → (l ≤ 3)%nat → match l with O => True | S l' => level_need l' end →
  base_ok l base → wf_pte l base e → base ≤ b < base + 2 ^ esh l → b < end_ → aligned 4096 b → st_inv st →
  map_entry l (level_rec l) end_ a flags e b st = Done (ok, e', st') →
  (length (pte_pages l e') + fail ok ≤ length (pte_pages l e) + need l base e b)%nat.
Proof.
  intros Hc Hl Hrec Hb Hw Hin Hlt Hal Hst H. pose proof Hb as (_ & H0 & _).
  rewrite map_entry_eq in H by (done || lia). rewrite Hc in H.
  destruct (skipped l e) eqn:Hskip; [injection H as <- <- _; cbn; lia|].
  destruct (covered l b) eqn:Hcov; [injection H as <- <- _; cbn; lia|].
  destruct l as [|l]; [by rewrite covered_0 in Hcov|]. rewrite need_S, Hskip, Hcov. cbn [orb].
  destruct (populate_table_spec l base e b st) as (ok1 & e1 & st1 & Heq & Hst1 & Hw1 & _ & _ & Hok); [lia|done..|].
  rewrite Heq in H. cbn [mbind exec_bind] in H. destruct ok1; cbn [negb] in H.
  2:{ destruct Hok as ([v ->] & -> & _). injection H as <- <- _. cbn [fail]. lia. }
  destruct Hok as (p & es & -> & Hes). rewrite (wf_as_table _ base) in H by done.
  cbn [mbind exec_bind unwrap_res level_rec] in H. apply wf_pte_table in Hw1 as (_ & _ & Hwt).
  apply bind_Done_inv in H as ([[ok2 es'] st2] & Hmap & H).
  pose proof (Hrec base _ _ _ _ _ _ Hb Hwt Hin Hal Hst1 Hmap) as Hn. clear Hmap. cbn [andb negb] in H.
  assert (e' = Table p es' ∧ ok = ok2) as [-> ->] by (destruct ok2; cbn in H; by simplify_eq).
  rewrite pte_pages_table. cbn [length]. destruct Hes as [<-|(v & -> & ->)].
  - rewrite pte_pages_table. cbn [length]. lia.
  - rewrite pte_pages_leaf. cbn [length].
    destruct (expansion_spec l base v) as (_ & Hnil & _); [lia|done|exact Hw|]. rewrite Hnil in Hn.
    cbn [length] in Hn. lia.
Qed.

Lemma map_level_need l : bf_contains flags Flags.COMMIT = false → (l ≤ 3)%nat → level_need l.
Proof.
  intros Hc. induction l as [l IH] using lt_wf_ind. intros Hl base t b st ok t' st' Hb Hwt Hin Hal Hst H.
  set (Q := λ (j : nat) (b : Z) (ok : bool) (e e' : pte),
    (length (pte_pages l e') + fail ok ≤ length (pte_pages l e) + need l (ebase l base j) e b)%nat).
  destruct (map_level_elems Q l base t b st) as (ok1 & t1 & st1 & Heq & Hlen & Hel & Hno); [done..|by left|done| |].
  { intros j e st0 ok0 e' st0' He Hj Hp Hst0 Hm. pose proof (lookup_lt_Some _ _ _ He). destruct Hwt as [Hlt Hw].
    assert (Hj5 : (j < 512)%nat) by lia. unfold Q. eapply map_entry_need; [done|done| | |by apply Hw| |done| |done|exact Hm].
    - destruct l; [done|]. apply IH; lia.
    - by apply base_ok_child.
    - by apply part_range.
    - by apply part_aligned. }
  rewrite H in Heq. injection Heq as <- <- <-. unfold table_pages, need_table. rewrite !sum_imap_join, <-sum_imap_add.
  set (f := λ (_ : nat) e, length (pte_pages l e)). 
  set (g := λ j e, (f j e + if visits l base b j then need l (ebase l base j) e (part l base b j) else 0)%nat).
  change (sum_list (imap f t') + fail ok ≤ sum_list (imap g t))%nat.
  assert (Hle : ∀ j e e', t !! j = Some e → t' !! j = Some e' → (f j e' ≤ g j e)%nat).
  { intros j e e' He He'. unfold g, f. destruct (Hel j e e' He He') as [[-> _]|[-> (ok' & HQ & _)]]; [lia|]. unfold Q in HQ. lia. }
  destruct ok; cbn [fail].
  - rewrite Nat.add_0_r. by apply sum_imap_le.
  - destruct (Hno eq_refl) as (j & e & e' & He & He' & Hv & HQ). rewrite Nat.add_1_r.
    eapply sum_imap_lt; [done|exact He|exact He'| |exact Hle]. unfold g, f. rewrite Hv. unfold Q in HQ. cbn [fail] in HQ. lia.
Qed.

(** *** A mapping keeps other ranges on their own *)
Section other.
Context (b2 e2 : Z) (Hu : u = false).
(** The range that is mapped lies in the other one, or apart from it. *)
Definition apart (b : Z) : Prop :=
  (∀ x, b ≤ x < end_ → b2 ≤ x < e2) ∨ (∀ x, b ≤ x < end_ → x < b2 ∨ e2 ≤ x).
Lemma apart_mono b b' : b ≤ b' → apart b → apart b'.
Proof. intros Hle [H|H]; [left|right]; intros x Hx; apply H; lia. Qed.

Definition level_splits (l : nat) : Prop := ∀ base t b st ok t' st',
  base_ok (S l) base → wf_table l base t → base ≤ b < base + 2 ^ esh (S l) → aligned 4096 b → apart b →
  pass_ok l base t b → st_inv st → map_level l t b end_ a flags st = Done (ok, t', st') →
  splits_table b2 e2 l base t → splits_table b2 e2 l base t'.

Lemma map_entry_splits l base e b st ok e' st' :
  (l ≤ 3)%nat → match l with O => True | S l' => level_splits l' end →
  base_ok l base → wf_pte l base e → base ≤ b < base + 2 ^ esh l → b < end_ → aligned 4096 b → apart b →
  bf_contains flags Flags.COMMIT = false ∨ bf_contains flags Flags.COMMIT = true ∧ ready l base e b →
  st_inv st → map_entry l (level_rec l) end_ a flags e b st = Done (ok, e', st') →
  meets b2 e2 l base → splits b2 e2 l base e → splits b2 e2 l base e'.
Proof.
  intros Hl Hrec Hb Hw Hin Hlt Hal Hap Hpass Hst H Hm Hs. pose proof Hb as (_ & H0 & _).
  rewrite map_entry_eq in H by (done || lia). rewrite Hu in H.
  destruct (skipped l e) eqn:Hskip; [by injection H as <- <- _|].
  destruct (covered l b) eqn:Hcov.
  { destruct (bf_contains flags Flags.COMMIT); [|by injection H as <- <- _].
    apply bind_Done_inv in H as ([e1 st1] & _ & [= <- <- _]).
    destruct (covered_new end_ a flags Ha l base b) as (-> & He & _); [done..|]. apply splits_inside.
    unfold covered in Hcov. rewrite Hu in Hcov. apply andb_prop in Hcov as [[_ Hall]%andb_prop _].
    destruct Hap as [Hap|Hap].
    - destruct (Hap base ltac:(lia)). destruct (Hap (base + 2 ^ esh l - 1) ltac:(lia)). split_and!; [lia|lia|done].
    - destruct Hm as (?&?&?). destruct (Hap (Z.max b2 base)); lia. }
  destruct l as [|l]; [by rewrite covered_0 in Hcov|].
  destruct Hs as [?|Hs]; [by left|]. destruct e as [v|p es]; [done|].
  unfold populate_table in H. rewrite (wf_is_table _ base) in H by done. cbn [mbind exec_bind negb] in H.
  rewrite (wf_as_table _ base) in H by done. cbn [mbind exec_bind unwrap_res level_rec] in H.
  apply wf_pte_table in Hw as (_ & _ & Hwt). apply bind_Done_inv in H as ([[ok2 es'] st2] & Hmap & H).
  assert (Hp : pass_ok l base es b).
  { destruct Hpass as [?|[Hc [?|[?|Hr]]]]; [by left|congruence..|by right]. }
  assert (e' = Table p es') as ->.
  { rewrite andb_false_r in H. cbn [andb] in H. destruct ok2; cbn in H; by simplify_eq. }
  right. eapply (Hrec base es b st ok2 es' st2); eauto.
Qed.

Lemma map_level_splits l : (l ≤ 3)%nat → level_splits l.
Proof.
  induction l as [l IH] using lt_wf_ind. intros Hl base t b st ok t' st' Hb Hwt Hin Hal Hap Hpass Hst H Hs.
  set (Q := λ (j : nat) (b : Z) (ok : bool) (e e' : pte),
    meets b2 e2 l (ebase l base j) → splits b2 e2 l (ebase l base j) e → splits b2 e2 l (ebase l base j) e').
  destruct (map_level_elems Q l base t b st) as (ok1 & t1 & st1 & Heq & Hlen & Hel & _); [done..| |].
  { intros j e st0 ok0 e' st0' He Hj Hp Hst0 Hm. pose proof (lookup_lt_Some _ _ _ He). destruct Hwt as [Hlt Hw].
    assert (Hj5 : (j < 512)%nat) by lia. unfold Q.
    eapply map_entry_splits; [done| | |by apply Hw| |done| | | |exact Hst0|exact Hm].
    - destruct l; [done|]. apply IH; lia.
    - by apply base_ok_child.
    - by apply part_range.
    - by apply part_aligned.
    - eapply apart_mono; [|exact Hap]. unfold part. lia.
    - destruct Hpass as [?|[? Hr]]; [by left|right]. split; [done|]. by apply Hr. }
  rewrite H in Heq. injection Heq as <- <- <-. intros j e' He' Hm.
  destruct (lookup_lt_is_Some_2 t j) as [e He]; [apply lookup_lt_Some in He'; lia|].
  destruct (Hel j e e' He He') as [[-> _]|(_ & ok' & HQ & _)]; [by apply Hs|]. apply HQ; [done|]. by apply Hs.
Qed.
End other.

(** ** Defragmentation pays for itself

    Merging tables returns their pages; splitting the block again, should that be
    needed, takes no more. *)
Lemma expansion_uniform l base es c :
  (l ≤ 3)%nat → base_ok (S l) base → uniform l base es c → arch_mm_pte_is_present c l = true →
  arch_mm_is_block_allowed (S l) = true → attrs_ok c → expansion l (block (S l) (pa_init base) c) = es.
Proof.
  intros Hl Hb [Hlen Hun] Hpc Hall Hc.
  assert (Hw : wf_leaf (S l) base (arch_mm_block_pte (S l) (pa_init base) c)) by (right; eauto).
  apply list_eq_same_length with 512%nat; [by rewrite <-Hlen|unfold expansion; by destruct (is_block _ _); rewrite new_entries_length|].
  intros j e1 e2 Hj H1 H2. destruct (Hun j e2 H2) as (v & -> & Hv & Hat).
  assert (Hbj : base_ok l (ebase l base j)) by by apply base_ok_child.
  unfold expansion, block in H1. unfold is_block, inner in H1. rewrite block_is_block in H1; [|done..|].
  2:{ by rewrite (block_present (S l) l). }
  apply new_entries_lookup in H1 as [_ ->]. unfold pte_attrs, inner. rewrite block_attrs by done.
  rewrite entry_size_pow by lia. unfold block. rewrite populate_block by done.
  destruct Hv as [->|(a' & Ha' & _ & ->)].
  - unfold pte_attrs, inner in Hat. rewrite <-Hat, absent_attrs in Hpc. done.
  - unfold pte_attrs, inner in Hat. rewrite block_attrs in Hat by done. by subst a'.
Qed.

Lemma need_nonblock l base v b :
  u = false → is_block l (Leaf v) = false → need l base (Leaf v) b = need l base (absent l) b.
Proof.
  intros Hu Hv. destruct l as [|l]; [cbn [need]; by repeat destruct (_ || _)|].
  assert (Hab : is_block (S l) (absent (S l)) = false) by apply absent_not_block.
  rewrite !need_S. unfold skipped, absent, expansion in *. rewrite Hu, Hv, Hab. cbn [andb orb].
  by destruct (covered _ _).
Qed.

Context {RD : ReduceCrate}.
Definition pays (l : nat) (base : Z) (e e' : pte) : Prop :=
  (length (pte_pages l e') ≤ length (pte_pages l e))%nat ∧
  ∀ b, (need l base e' b + length (pte_pages l e') ≤ need l base e b + length (pte_pages l e))%nat.
Lemma pays_refl l base e : pays l base e e.
Proof. by split. Qed.

Lemma pays_table l base es es' :
  length es' = length es →
  (∀ j e e', es !! j = Some e → es' !! j = Some e' → pays l (ebase l base j) e e') →
  (length (table_pages l es') ≤ length (table_pages l es))%nat ∧
  ∀ b, (need_table l base es' b + length (table_pages l es') ≤ need_table l base es b + length (table_pages l es))%nat.
Proof.
  intros Hlen H. unfold table_pages, need_table. rewrite !sum_imap_join. split.
  - apply sum_imap_le; [done|]. intros j e e' He He'. by destruct (H j e e' He He').
  - intros b. rewrite <-!sum_imap_add. apply sum_imap_le; [done|]. intros j e e' He He'.
    destruct (H j e e' He He') as [Hp Hn]. destruct (visits l base b j); [apply Hn|lia].
Qed.

(** A table that has become one leaf: the leaf expands to the table. *)
Lemma pays_merge l base p es es' c e' :
  (l ≤ 3)%nat → base_ok (S l) base → wf_pte (S l) base (Table p es) → uniform l base es' c →
  length es' = length es → (∀ b, (need_table l base es' b ≤ need_table l base es b + length (table_pages l es))%nat) →
  (if arch_mm_pte_is_present c l
   then arch_mm_is_block_allowed (S l) = true ∧ attrs_ok c ∧ e' = block (S l) (pa_init base) c
   else e' = absent (S l)) →
  pays (S l) base (Table p es) e'.
Proof.
  intros Hl Hb Hw Hun Hlen Hn He'. assert (Hpg : pte_pages (S l) e' = []).
  { destruct (arch_mm_pte_is_present c l); [destruct He' as (_ & _ & ->)|subst e']; apply pte_pages_leaf. }
  split; rewrite Hpg; [cbn; lia|]. intros b. rewrite pte_pages_table, !need_S.
  assert (Hsk : skipped (S l) (Table p es) = false).
  { unfold skipped. rewrite (wf_table_present _ base), (wf_table_not_block _ base) by done. by destruct u. }
  rewrite Hsk. cbn [orb length]. destruct (skipped (S l) e') eqn:Hse; cbn [orb]; [lia|].
  destruct (covered (S l) b); [lia|]. specialize (Hn b). destruct (arch_mm_pte_is_present c l) eqn:Hpc.
  - destruct He' as (Hall & Hc & ->). 
    pose proof (expansion_uniform l base es' c Hl Hb Hun Hpc Hall Hc) as Hexp. unfold block in *. cbv iota beta. rewrite Hexp. lia.
  - subst e'. unfold absent in *. cbv iota beta. unfold skipped in Hse.
    assert (Hu : u = false).
    { destruct u eqn:Hu; [|done]. unfold is_present in Hse. cbn [inner absent] in Hse. by rewrite absent_not_present in Hse. }
    assert (need_table l base (expansion l (Leaf (arch_mm_absent_pte (S l)))) b ≤ need_table l base es' b)%nat; [|lia].
    apply sum_imap_le.
    { rewrite Hlen. destruct Hw as (_ & _ & -> & _). unfold expansion. destruct (is_block _ _); apply new_entries_length. }
    intros j e e1 He He1. destruct (visits l base b j); [|done]. destruct Hun as [_ Hun].
    destruct (Hun j e He) as (v & -> & Hv & Hat). unfold expansion in He1.
    assert (is_block (S l) (Leaf (arch_mm_absent_pte (S l))) = false) as Hab by apply absent_not_block.
    rewrite Hab in He1. apply new_entries_lookup in He1 as [Hj ->].
    destruct l as [|l]; [by cbn [need]; repeat destruct (_ || _)|].
    rewrite need_nonblock; [done|done|]. apply not_true_is_false. intros Hbl%is_block_present.
    pose proof (wf_leaf_present (S l) (S l) (ebase (S l) base j) v) as Hp. unfold is_present in Hp. cbn [inner] in Hp.
    rewrite Hat, Hpc in Hp. cbn [inner] in Hbl. rewrite Hp in Hbl; [done| |done]. by apply base_ok_child.
Qed.

(** What [defrag_entries] guarantees of each entry. *)
Lemma defrag_entries_each (f : pte → MPool → exec (result Z unit * pte * MPool))
    (P : nat → pte → result Z unit → pte → Prop) k es m rs es' m' :
  (∀ i e m r e' m', es !! i = Some e → pool_inv m → f e m = Done (r, e', m') →
     pool_inv m' ∧ P (k + i)%nat e r e') →
  pool_inv m → defrag_entries f es m = Done (rs, es', m') →
  pool_inv m' ∧ length rs = length es ∧ length es' = length es ∧
  ∀ i e r e', es !! i = Some e → rs !! i = Some r → es' !! i = Some e' → P (k + i)%nat e r e'.
Proof.
  revert k m rs es' m'. induction es as [|e es IH]; intros k m rs es' m' Hf Hm H; cbn [defrag_entries] in H.
  { by injection H as <- <- <-. }
  apply bind_Done_inv in H as ([[r e1] m1] & He & H). apply bind_Done_inv in H as ([[rs1 es1] m2] & Hes & [= <- <- <-]).
  destruct (Hf 0%nat e m r e1 m1 eq_refl Hm He) as [Hm1 HP].
  destruct (IH (S k) m1 rs1 es1 m2) as (Hm2 & Hl1 & Hl2 & Hall); [|done|done|].
  { intros i e0 m0 r0 e0' m0' He0 Hm0 Hf0. replace (S k + i)%nat with (k + S i)%nat by lia. by eapply Hf. }
  split_and!; [done|by cbn; f_equal..|]. intros [|i] e0 r0 e0' ???; simplify_eq/=; [done|].
  replace (k + S i)%nat with (S k + i)%nat by lia. by eapply Hall.
Qed.

Lemma pte_defrag_inv l base e m r e' m' :
  base_ok l base → wf_pte l base e → pool_inv m → pte_defrag l e m = Done (r, e', m') →
  pool_inv m' ∧ defragged l base e r e'.
Proof.
  intros Hb Hw Hm H. destruct (pte_defrag_spec l base e Hb Hw m Hm) as (r1 & e1 & m1 & Heq & ? & ? & _).
  rewrite H in Heq. by injection Heq as <- <- <-.
Qed.

(** A table whose entries pay pays. *)
Lemma pays_keep l base p es es' :
  wf_pte (S l) base (Table p es) → length es' = length es →
  (∀ j e e', es !! j = Some e → es' !! j = Some e' → pays l (ebase l base j) e e') →
  pays (S l) base (Table p es) (Table p es').
Proof.
  intros Hw Hlen H. destruct (pays_table l base es es' Hlen H) as [Hpg Hnd].
  assert (Hsk : ∀ es, skipped (S l) (Table p es) = false).
  { intros es0. assert (Hinn : inner (S l) (Table p es0) = inner (S l) (Table p es)) by done.
    unfold skipped, is_present, is_block. rewrite Hinn. fold (is_present (S l) (Table p es)). fold (is_block (S l) (Table p es)).
    rewrite (wf_table_present _ base), (wf_table_not_block _ base) by done. by destruct u. }
  split; rewrite !pte_pages_table; cbn [length]; [lia|]. intros b. rewrite !need_S, !Hsk. cbn [orb].
  destruct (covered (S l) b); [lia|]. specialize (Hnd b). lia.
Qed.

Definition defrag_pays (l : nat) : Prop := ∀ base e m r e' m',
  base_ok l base → wf_pte l base e → pool_inv m → pte_defrag l e m = Done (r, e', m') → pays l base e e'.

(** The entries of a table after defragmentation. *)
Lemma defrag_entries_pays l base es m rs es' m' :
  defrag_pays l → base_ok (S l) base → wf_table l base es → pool_inv m →
  defrag_entries (pte_defrag l) es m = Done (rs, es', m') →
  pool_inv m' ∧ length rs = length es ∧ length es' = length es ∧
  ∀ j e e', es !! j = Some e → es' !! j = Some e' → ∃ r, rs !! j = Some r ∧
    defragged l (ebase l base j) e r e' ∧ pays l (ebase l base j) e e'.
Proof.
  intros IH Hb [Hlen Hes] Hm H.
  destruct (defrag_entries_each (pte_defrag l) (λ j e r e', defragged l (ebase l base j) e r e' ∧ pays l (ebase l base j) e e')
    0 es m rs es' m') as (Hm1 & Hl1 & Hl2 & Hall); [|done|done|].
  { intros i e0 m0 r0 e0' m0' He0 Hm0 Hf0. pose proof (lookup_lt_Some _ _ _ He0). cbn [Nat.add].
    assert (Hbi : base_ok l (ebase l base i)) by (apply base_ok_child; (done || lia)).
    destruct (pte_defrag_inv l (ebase l base i) e0 m0 r0 e0' m0') as [? ?]; [done|by apply Hes|done..|].
    split_and!; [done..|]. eapply IH; [done|by apply Hes|exact Hm0|exact Hf0]. }
  split_and!; [done..|]. intros j e0 e0' He0 He0'.
  destruct (lookup_lt_is_Some_2 rs j) as [r0 Hr0]; [apply lookup_lt_Some in He0; lia|].
  exists r0. split; [done|]. by apply (Hall j).
Qed.

Lemma pte_defrag_pays_S l : (l ≤ 3)%nat → defrag_pays l → defrag_pays (S l).
Proof.
  intros Hl IH base e m r e' m' Hb Hw Hm H; cbn [pte_defrag] in H.
  destruct (is_block _ e); [injection H as <- <- <-; apply pays_refl|].
  rewrite (wf_as_table _ base) in H by done; cbn [mbind exec_bind] in H.
  destruct e as [v|p es]; [injection H as <- <- <-; apply pays_refl|].
  pose proof Hw as (Hp & Hlt & Hwt). apply bind_Done_inv in H as ([[rs es'] m1] & Hd & H).
  destruct (defrag_entries_pays l base es m rs es' m1) as (_ & Hl1 & Hl2 & Hel); [done..|]. pose proof Hwt as [Hlen _].
  assert (Hpay : ∀ j e e', es !! j = Some e → es' !! j = Some e' → pays l (ebase l base j) e e').
  { intros j e0 e0' He0 He0'. by destruct (Hel j e0 e0' He0 He0') as (_ & _ & _ & ?). }
  pose proof (pays_keep l base p es es' Hw Hl2 Hpay) as Hkeep.
  destruct (reduce attrs_join rs) as [[c|[]]|] eqn:Hred; [|injection H as <- <- <-; exact Hkeep..].
  apply reduce_join in Hred. rewrite Forall_lookup in Hred.
  assert (Hun : uniform l base es' c).
  { split; [lia|]. intros i e0' He0'. destruct (lookup_lt_is_Some_2 es i) as [e0 He0]; [apply lookup_lt_Some in He0'; lia|].
    destruct (Hel i e0 e0' He0 He0') as (r0 & Hr0 & (Hwe & _ & Hok) & _).
    destruct (Hok c (Hred i r0 Hr0)) as (v & -> & Hat). exists v. split_and!; [done| |done]. destruct l; exact Hwe. }
  destruct (uniform_first l base es' c Hb Hun) as (v0 & Hhd & _ & _ & Hc).
  assert (Hle : ∀ b, (need_table l base es' b ≤ need_table l base es b + length (table_pages l es))%nat).
  { destruct (pays_table l base es es' Hl2 Hpay) as [_ Hnd]. intros b. specialize (Hnd b). lia. }
  destruct (arch_mm_pte_is_present c l) eqn:Hpc; cbn [negb] in H.
  - destruct (arch_mm_is_block_allowed (S l)) eqn:Hal; cbn [negb] in H; [|injection H as <- <- <-; exact Hkeep].
    rewrite Hhd in H. cbn [unwrap_opt mbind exec_bind] in H. destruct (Hc eq_refl) as [Hac Haddr].
    unfold pte_attrs at 1 2 in H. cbn [inner] in H.
    rewrite table_combine, Haddr in H by (done || by apply page_table_ok). injection H as <- <- <-.
    eapply pays_merge; [lia|done|done|exact Hun|lia|done|]. by rewrite Hpc.
  - injection H as <- <- <-. eapply pays_merge; [lia|done|done|exact Hun|lia|done|]. by rewrite Hpc.
Qed.

Lemma pte_defrag_pays l : (l ≤ 4)%nat → defrag_pays l.
Proof.
  induction l as [|l IH]; intros Hl; [|apply pte_defrag_pays_S; auto with lia].
  intros base e m r e' m' Hb Hw Hm H. cbn [pte_defrag] in H. destruct (is_block _ e); [injection H as <- <- <-; apply pays_refl|].
  rewrite (wf_as_table _ base) in H by done; cbn [mbind exec_bind] in H.
  destruct e as [v|p es]; [injection H as <- <- <-; apply pays_refl|done].
Qed.
End update.
End split.
