(* ===== verification/MmQuery.v ===== *)
(** * Reading attributes back ([get_attrs_level], [get_attrs], [get_mode])

    A query succeeds exactly when every address of the range has the same
    attributes, and returns them. *)
From S2P Require Import Prelude Addr Mode Arch Mpool Mm MmSpec MmMap MmTable.

(** [res_reduce] with the closure that compares attributes. *)
Lemma res_reduce_same (items : list (exec (result Z unit))) rs :
  items = Done <$> rs → rs ≠ [] →
  ∃ r, res_reduce tt same_attrs items = Done r ∧ ∀ a, r = Ok a ↔ Forall (λ r, r = Ok a) rs.
Proof.
  intros -> Hne. destruct rs as [|r rs]; [done|]. clear Hne. cbn.
  destruct r as [v|[]]; [|eexists; split; [done|]; intros a; rewrite Forall_cons; naive_solver].
  revert v. induction rs as [|r rs IH]; intros v; cbn.
  { eexists. split; [done|]. intros a. rewrite Forall_cons. naive_solver. }
  destruct r as [w|[]]; cbn.
  2:{ eexists. split; [done|]. intros a. rewrite !Forall_cons. naive_solver. }
  unfold same_attrs at 1. destruct (Z.eqb_spec v w) as [->|Hne].
  - destruct (IH w) as (r & -> & Hr). eexists. split; [done|]. intros a. rewrite Hr, !Forall_cons.
    naive_solver.
  - eexists. split; [done|]. intros a. rewrite !Forall_cons. naive_solver.
Qed.

Section query.
Context {A : ArchMM} {L : ArchLaws A} {SG : Stage} {SL : StageLaws L SG}.

Lemma zip_begins_lookup {X} (l : nat) (base end_ : Z) (elems : list X) j0 b0 :
  (l ≤ 4)%nat → aligned (2 ^ esh l) base → 0 ≤ base →
  ebase l base (j0 + length elems) ≤ 2 ^ 48 →
  end_ ≤ b0 ∨ ebase l base j0 ≤ b0 < ebase l base (S j0) →
  ∀ i e b, zip_begins elems (BlockIter_new b0 end_ (2 ^ esh l)) !! i = Some (e, b) ↔
    elems !! i = Some e ∧ b = part l base b0 (j0 + i) ∧ b < end_.
Proof.
  intros Hl Hal H0. revert j0 b0. induction elems as [|e elems IH]; intros j0 b0 Hlim Hb0 i e1 b.
  { cbn. naive_solver. }
  cbn [zip_begins]. unfold BlockIter_next, BlockIter_new. cbn [bi_begin bi_end bi_block_size].
  destruct (Z.leb_spec end_ b0) as [Hend|Hend].
  { split; [done|]. intros (_ & -> & Hlt). unfold part in Hlt. lia. }
  destruct Hb0 as [?|Hb0]; [lia|]. cbn [length] in Hlim.
  pose proof (ebase_mono l base (S j0) (j0 + S (length elems)) ltac:(lia)).
  rewrite (next_block_ebase l base j0) by (done || lia).
  destruct i as [|i]; cbn [lookup list_lookup].
  - rewrite Nat.add_0_r. assert (part l base b0 j0 = b0) as -> by (unfold part; lia). naive_solver.
  - rewrite (IH (S j0)); cycle 1.
    + by replace (S j0 + length elems)%nat with (j0 + S (length elems))%nat by lia.
    + right. rewrite (ebase_S _ _ (S j0)). pose proof (esh_pos l). lia.
    + replace (S j0 + i)%nat with (j0 + S i)%nat by lia.
      pose proof (ebase_mono l base (S j0) (j0 + S i) ltac:(lia)).
      assert (part l base (ebase l base (S j0)) (j0 + S i) = part l base b0 (j0 + S i)) as ->; [|done].
      unfold part. lia.
Qed.

Section range.
Context (end_ : Z) (Hend48 : end_ ≤ 2 ^ 48).

(** [r] is the answer for the addresses of [[b, e)] under [f]. *)
Definition answers (f : Z → Z) (b e : Z) (r : result Z unit) : Prop :=
  ∀ a, r = Ok a ↔ ∀ x, b ≤ x < e → f x = a.

(** The answers of the consecutive parts of a range combine to the answer for
    the whole range. *)
Lemma query_loop {X} (l : nat) (base : Z) (t : list X) (b : Z) (lim : Z)
    (item : X * Z → exec (result Z unit)) (at_ : X → Z → Z) (f : Z → Z) :
  (l ≤ 4)%nat → aligned (2 ^ esh l) base → 0 ≤ base → ebase l base (length t) ≤ 2 ^ 48 →
  (index b l < length t)%nat →
  ebase l base (index b l) ≤ b < ebase l base (S (index b l)) → b < lim →
  lim ≤ ebase l base (length t) →
  (∀ j e x, t !! j = Some e → ebase l base j ≤ x < ebase l base (S j) → f x = at_ e x) →
  (∀ j e, t !! j = Some e → b < ebase l base (S j) → part l base b j < lim →
     ∃ r, item (e, part l base b j) = Done r ∧
          answers (at_ e) (part l base b j) (Z.min lim (ebase l base (S j))) r) →
  ∃ r, ('(_, es) ← slice_from t (index b l);
        res_reduce tt same_attrs (item <$> zip_begins es (BlockIter_new b lim (2 ^ esh l)))) = Done r ∧
       answers f b lim r.
Proof.
  intros Hl Hal H0 Hlim Hi Hb Hlt Hle Hf Hitem. set (j0 := index b l) in *.
  unfold slice_from. destruct (Nat.leb_spec j0 (length t)); [|lia]. cbn.
  set (zs := zip_begins _ _).
  assert (Hz : ∀ i e b', zs !! i = Some (e, b') ↔
    t !! (j0 + i)%nat = Some e ∧ b' = part l base b (j0 + i) ∧ b' < lim).
  { intros i e b'. unfold zs. rewrite (zip_begins_lookup l base lim _ j0); [|done..| |by right].
    - by rewrite lookup_drop.
    - rewrite length_drop. by replace (j0 + (length t - j0))%nat with (length t) by lia. }
  assert (Hr : ∃ rs, item <$> zs = Done <$> rs ∧ length rs = length zs ∧
    ∀ i e b' r, zs !! i = Some (e, b') → rs !! i = Some r →
      answers (at_ e) b' (Z.min lim (ebase l base (S (j0 + i)))) r).
  { assert (Hall : ∀ i z, zs !! i = Some z → ∃ r, item z = Done r ∧
      answers (at_ z.1) z.2 (Z.min lim (ebase l base (S (j0 + i)))) r).
    { intros i [e b'] (He & -> & Hlt')%Hz. apply Hitem; [done| |done].
      pose proof (ebase_mono l base (S j0) (S (j0 + i)) ltac:(lia)). lia. }
    clear -Hall. revert Hall. generalize j0. induction zs as [|z zs IH]; intros k Hall.
    { by exists []. }
    destruct (Hall 0%nat z eq_refl) as (r & Hr & Ha).
    destruct (IH (S k)) as (rs & Hrs & Hl & Hp).
    { intros i z' Hz'. replace (S k + i)%nat with (k + S i)%nat by lia. by apply Hall. }
    exists (r :: rs). split_and!; [cbn; by rewrite Hr, Hrs|cbn; lia|].
    intros [|i] e b' r' Hz' Hr'; simplify_eq/=; [done|].
    replace (S (k + S i)) with (S (S k + i)) by lia. by apply (Hp i). }
  destruct Hr as (rs & -> & Hlen & Hans).
  destruct (lookup_lt_is_Some_2 t j0 Hi) as [e0 He0].
  assert (Hz0 : zs !! 0%nat = Some (e0, b)).
  { apply Hz. rewrite Nat.add_0_r. split_and!; [done|unfold part; lia|done]. }
  destruct (res_reduce_same (Done <$> rs) rs eq_refl) as (r & -> & Hr).
  { intros ->. by destruct zs. }
  exists r. split; [done|]. intros a. rewrite Hr, Forall_lookup. split.
  - intros Hall x Hx.
    (* the entry that holds x *)
    set (j := Z.to_nat ((x - base) / 2 ^ esh l)). pose proof (esh_pos l).
    pose proof (Z.div_mod (x - base) (2 ^ esh l) ltac:(lia)).
    pose proof (Z.mod_pos_bound (x - base) (2 ^ esh l) ltac:(lia)).
    assert (base ≤ x) by (unfold ebase in Hb; nia).
    assert (0 ≤ (x - base) / 2 ^ esh l) by (apply Z.div_pos; lia).
    assert (Hjx : ebase l base j ≤ x < ebase l base (S j))
      by (rewrite ebase_S; unfold ebase, j; rewrite Z2Nat.id by lia; lia).
    assert (j0 ≤ j)%nat.
    { destruct (decide (j0 ≤ j)%nat); [done|].
      pose proof (ebase_mono l base (S j) j0 ltac:(lia)). lia. }
    assert (j < length t)%nat.
    { destruct (decide (j < length t)%nat); [done|].
      pose proof (ebase_mono l base (length t) j ltac:(lia)). lia. }
    destruct (lookup_lt_is_Some_2 t j) as [e He]; [done|].
    assert (Hze : zs !! (j - j0)%nat = Some (e, part l base b j)).
    { apply Hz. replace (j0 + (j - j0))%nat with j by lia. split_and!; [done..|]. unfold part. lia. }
    destruct (lookup_lt_is_Some_2 rs (j - j0)) as [rj Hrj].
    { rewrite Hlen. by eapply lookup_lt_Some. }
    pose proof (Hans _ _ _ _ Hze Hrj a) as Hj. replace (j0 + (j - j0))%nat with j in Hj by lia.
    rewrite (Hf j e) by done. apply Hj; [by eapply Hall|]. unfold part. lia.
  - intros Hx i ri Hri.
    destruct (lookup_lt_is_Some_2 zs i) as [[e b'] Hze].
    { rewrite <-Hlen. by eapply lookup_lt_Some. }
    apply (Hans _ _ _ _ Hze Hri a). intros x Hxr. apply Hz in Hze as (He & -> & Hb').
    rewrite <-(Hf (j0 + i)%nat e) by (done || (unfold part in Hxr; lia)). apply Hx.
    unfold part in Hxr. lia.
Qed.

Lemma get_attrs_level_spec l base t b :
  (l ≤ 3)%nat → base_ok (S l) base → wf_table l base t →
  base ≤ b < base + 2 ^ esh (S l) → b < end_ →
  ∃ r, get_attrs_level l t b end_ = Done r ∧
       answers (tattrs_at l t) b (Z.min end_ (base + 2 ^ esh (S l))) r.
Proof.
  revert base t b. induction l as [l IH] using (well_founded_induction lt_wf).
  intros base t b Hl Hb [Hlen Hw] Hin Hlt. pose proof Hb as (Hal & H0 & Hlim).
  destruct (base_ok_index l base b Hb Hin) as [Hi Hib].
  destruct (query_loop l base t b (Z.min end_ (base + 2 ^ esh (S l)))
    (λ '(e, b), t ← as_table l e;
       match t with
       | Ok (_, sub) => match l with O => Panic | S l' => get_attrs_level l' sub b end_ end
       | Err _ => Done (Ok (pte_attrs l e))
       end) (attrs_at l) (tattrs_at l t)) as (r & Heq & Hr); try done.
  - lia.
  - apply (aligned_esh_le l (S l)); [lia|done].
  - rewrite Hlen. unfold ebase. rewrite esh_S in Hlim. lia.
  - lia.
  - rewrite ebase_S. lia.
  - lia.
  - rewrite Hlen. unfold ebase. rewrite esh_S. lia.
  - intros j e x He Hx. unfold tattrs_at. pose proof (lookup_lt_Some _ _ _ He).
    rewrite ebase_S in Hx. unfold ebase in Hx.
    rewrite (index_in_entry base l j x) by (done || lia). by rewrite He.
  - intros j e He Hj Hp. pose proof (lookup_lt_Some _ _ _ He).
    assert (Hbj : base_ok l (ebase l base j)) by (apply base_ok_child; [done|lia]).
    destruct (part_range l base b j) as [Hpr Hpr']; [done|lia|done|].
    rewrite (wf_as_table l (ebase l base j)) by auto. cbn [mbind exec_bind]. rewrite ebase_S.
    destruct e as [v|p es].
    + eexists. split; [done|]. intros a. split.
      * intros [= <-] x Hx. apply attrs_at_leaf.
      * intros Hx. rewrite <-(Hx (part l base b j)) by lia. by rewrite attrs_at_leaf.
    + specialize (Hw j _ He). destruct l as [|l]; [done|]. apply wf_pte_table in Hw as (_ & _ & Hwt).
      destruct (IH l ltac:(lia) (ebase (S l) base j) es (part (S l) base b j)) as (r & -> & Hr);
        [lia|done|done|done|lia|]. exists r. split; [done|].
      assert (ebase (S l) base j + 2 ^ esh (S l) ≤ base + 2 ^ esh (S (S l))).
      { rewrite <-ebase_S. unfold ebase. rewrite (esh_S (S l)). pose proof (esh_pos (S l)). nia. }
      replace (Z.min (Z.min _ _) _) with (Z.min end_ (ebase (S l) base j + 2 ^ esh (S l))) by lia.
      done.
  - exists r. split; [|done]. rewrite <-Heq.
    rewrite <-(level_end_spec base l b), <-entry_size_pow by (done || lia). by destruct l.
Qed.
End range.
End query.
