(* ===== verification/PageTables.v ===== *)
(** * The page-table operations: main theorems

    Creation, update, query, defragmentation and destruction of a
    [PageTable<S>], each related to the map the table denotes; [ptable_run]
    composes them into the life of a table. *)
From S2P Require Import Prelude Addr Mode Arch ArchAarch64 Mpool Mm MmSpec MmMap MmTable MmDefrag MmQuery.

Section ops.
Context {A : ArchMM} {L : ArchLaws A} {SG : Stage} {SL : StageLaws L SG}.

(** ** Creation and destruction *)
Definition empty_table : list pte := PageTableNode_new (λ _, absent max_level).

Lemma empty_ptable_wf r :
  pages_ok (mkPages r (Z.of_nat root_table_count)) →
  r + Z.of_nat root_table_count * 4096 ≤ 2 ^ 48 →
  wf_ptable (mkPageTable r (replicate root_table_count empty_table)).
Proof.
  intros Hr H48. split_and!; [apply length_replicate| |done..].
  intros i tb [-> Hi]%lookup_replicate. split; [apply new_entries_length|].
  intros j e [Hj ->]%new_entries_lookup. apply wf_absent.
Qed.

Lemma empty_ptable_mapping r x :
  0 ≤ x < ptable_end → ptable_mapping (mkPageTable r (replicate root_table_count empty_table)) x = None.
Proof.
  intros Hx. destruct (root_index x Hx) as [Hi _]. unfold ptable_mapping, ptable_attrs. cbn [tables].
  rewrite lookup_replicate_2 by done. unfold tattrs_at, empty_table.
  destruct (_ !! index x max_level) as [e|] eqn:He.
  - apply new_entries_lookup in He as [_ ->]. apply mapping_absent.
  - apply lookup_ge_None in He. rewrite new_entries_length in He.
    pose proof (index_lt x max_level ltac:(lia)). lia.
Qed.

Lemma empty_ptable_pages r :
  ptable_pages (mkPageTable r (replicate root_table_count empty_table))
  = page_run r (Z.of_nat root_table_count).
Proof.
  unfold ptable_pages. cbn [root tables]. rewrite join_nil_2, app_nil_r; [done|].
  apply Forall_fmap, Forall_replicate. apply new_entries_pages. intros. apply pte_pages_leaf.
Qed.

Lemma PageTable_new_spec m :
  pool_inv m →
  ∃ r m', PageTable_new m = Done (r, m') ∧ pool_inv m' ∧
  match r with
  | Ok t => wf_ptable t ∧ (∀ x, 0 ≤ x < ptable_end → ptable_mapping t x = None) ∧
            mpool_pages m ≡ₚ ptable_pages t ++ mpool_pages m'
  | Err _ => m' = m
  end.
Proof.
  intros [Hm H48]. pose proof root_geometry as (_ & ? & _). unfold PageTable_new.
  set (n := Z.of_nat root_table_count).
  destruct (MPool_alloc_pages_spec m n n) as (r & m' & -> & Hm' & Hr); [done|lia..|]. cbn.
  destruct r as [pg|[]].
  2:{ subst m'. do 2 eexists. split; [done|]. done. }
  destruct Hr as (Hlen & Hal & Hok & Hpp). rewrite Hpp in H48. apply Forall_app in H48 as [Hrun H48].
  rewrite Hlen. unfold n at 1. rewrite Nat2Z.id. do 2 eexists. split; [done|]. split; [done|].
  destruct pg as [ptr len]. cbn in *. subst len.
  split_and!; [|apply empty_ptable_mapping|by rewrite empty_ptable_pages].
  apply empty_ptable_wf; [done|].
  rewrite Forall_forall in Hrun. specialize (Hrun (ptr + (n - 1) * 4096)).
  assert (Hlast : ptr + (n - 1) * 4096 < 2 ^ 48).
  { apply Hrun, elem_of_page_run. exists (n - 1). lia. }
  destruct Hok as (Hptr & _). cbn in Hptr.
  apply aligned_exists in Hptr as [q ->]; [|lia]. lia.
Qed.

Lemma drop_tables_spec ts k m :
  (∀ i tb, ts !! i = Some tb → wf_table max_level (ebase root_level 0 (k + i)) tb) →
  (k + length ts ≤ root_table_count)%nat → pool_inv m →
  ∃ m', fold_exec (λ m table, fold_exec (λ m e, pte_drop max_level e m) m table) m ts = Done m' ∧
    pool_inv m' ∧ mpool_pages m' ≡ₚ mjoin (table_pages max_level <$> ts) ++ mpool_pages m.
Proof.
  revert k m. induction ts as [|tb ts IH]; intros k m Hw Hk Hm; [by exists m|].
  cbn [fold_exec length] in *. destruct (Hw 0%nat tb eq_refl) as [Hlen Hwt].
  destruct (fold_drop_spec max_level tb m) as (m1 & -> & Hm1 & Hp1); [|done|].
  { intros e m0 (i & Hi)%list_elem_of_lookup Hm0. eapply pte_drop_spec; [|by apply Hwt|done].
    apply base_ok_child; [|apply lookup_lt_Some in Hi; lia]. apply root_base_ok. lia. }
  cbn. destruct (IH (S k) m1) as (m2 & Heq & Hm2 & Hp2); [|lia|done|].
  { intros i tb' Htb. replace (S k + i)%nat with (k + S i)%nat by lia. by apply (Hw (S i)). }
  exists m2. split_and!; [done..|]. rewrite Hp2, Hp1. cbn. rewrite !app_assoc.
  by rewrite (Permutation_app_comm (mjoin _)).
Qed.

Lemma PageTable_drop_spec t m :
  wf_ptable t → pool_inv m →
  ∃ m', PageTable_drop t m = Done m' ∧ pool_inv m' ∧
        mpool_pages m' ≡ₚ ptable_pages t ++ mpool_pages m.
Proof.
  intros (Hlen & Hw & Hrt & H48) Hm. unfold PageTable_drop.
  destruct (drop_tables_spec (tables t) 0 m) as (m1 & -> & [Hm1 Hb1] & Hp1); [done|lia|done|].
  cbn. destruct (MPool_free_pages_spec m1 (mkPages (root t) (Z.of_nat root_table_count)))
    as [Hp2 Hm2]; [done..|]. cbn in Hp2.
  eexists. split; [done|]. unfold pool_inv. rewrite Hp2. split_and!; [done| |].
  - apply Forall_app. split; [|done]. apply Forall_forall.
    intros x (i & Hi & ->)%elem_of_page_run. lia.
  - rewrite Hp1. unfold ptable_pages. by rewrite app_assoc.
Qed.

(** ** Defragmentation *)
Context {RD : ReduceCrate}.

Lemma defrag_tables_spec ts k m :
  (∀ i tb, ts !! i = Some tb → wf_table max_level (ebase root_level 0 (k + i)) tb) →
  (k + length ts ≤ root_table_count)%nat → pool_inv m →
  ∃ ts' m', defrag_tables ts m = Done (ts', m') ∧ pool_inv m' ∧ length ts' = length ts ∧
    mjoin (table_pages max_level <$> ts) ++ mpool_pages m
      ≡ₚ mjoin (table_pages max_level <$> ts') ++ mpool_pages m' ∧
    ∀ i tb tb', ts !! i = Some tb → ts' !! i = Some tb' →
      wf_table max_level (ebase root_level 0 (k + i)) tb' ∧
      ∀ x, ebase root_level 0 (k + i) ≤ x < ebase root_level 0 (k + i) + 2 ^ esh root_level →
        tmapping_at max_level tb' x = tmapping_at max_level tb x.
Proof.
  revert k m. induction ts as [|tb ts IH]; intros k m Hw Hk Hm.
  { exists [], m. split_and!; done. }
  cbn [defrag_tables length] in *. destruct (Hw 0%nat tb eq_refl) as [Hlen Hwt].
  set (B := ebase root_level 0 (k + 0)) in *.
  assert (HB : base_ok (S max_level) B) by (apply root_base_ok; lia).
  destruct (defrag_entries_spec max_level B 0 tb m) as (rs & tb' & m1 & -> & Hm1 & Hl1 & Hl2 & Hp1 & Hel);
    [|done|].
  { intros i e He. pose proof (lookup_lt_Some _ _ _ He). apply pte_defrag_spec; [|by apply Hwt].
    apply base_ok_child; [done|]. cbn. lia. }
  cbn [Nat.add] in Hel.
  assert (Htb : wf_table max_level B tb' ∧ ∀ x, B ≤ x < B + 2 ^ esh root_level →
    tmapping_at max_level tb' x = tmapping_at max_level tb x).
  { assert (Hlk : ∀ i e', tb' !! i = Some e' → ∃ e r, tb !! i = Some e ∧ rs !! i = Some r).
    { intros i e' He'. apply lookup_lt_Some in He'.
      destruct (lookup_lt_is_Some_2 tb i) as [e He]; [lia|].
      destruct (lookup_lt_is_Some_2 rs i) as [r Hr]; [lia|]. eauto. }
    split; [split; [lia|]|].
    - intros i e' He'. destruct (Hlk i e' He') as (e & r & He & Hr). by eapply Hel.
    - apply (tmapping_pointwise max_level B tb tb' (λ _ o, o)); [done|lia|lia|].
      intros i e e' x He He' Hx. destruct (Hlk i e' He') as (e0 & r & He0 & Hr). simplify_eq.
      by eapply Hel. }
  cbn. destruct (IH (S k) m1) as (ts' & m2 & -> & Hm2 & Hl & Hp2 & Hall); [|lia|done|].
  { intros i tb0 Htb0. replace (S k + i)%nat with (k + S i)%nat by lia. by apply (Hw (S i)). }
  cbn. do 2 eexists. split; [done|]. split_and!; [done|cbn; lia| |].
  - cbn. rewrite <-!app_assoc, <-Hp2, !app_assoc.
    rewrite (Permutation_app_comm (table_pages max_level tb)),
            (Permutation_app_comm (table_pages max_level tb')).
    rewrite <-!app_assoc. by rewrite Hp1.
  - intros [|i] t1 t2 Ht1 Ht2; simplify_eq/=; [done|].
    replace (k + S i)%nat with (S k + i)%nat by lia. by apply Hall.
Qed.

Lemma defrag_spec t m :
  wf_ptable t → pool_inv m →
  ∃ t' m', defrag t m = Done (t', m') ∧ pool_inv m' ∧ wf_ptable t' ∧
    (∀ x, 0 ≤ x < ptable_end → ptable_mapping t' x = ptable_mapping t x) ∧
    ptable_pages t ++ mpool_pages m ≡ₚ ptable_pages t' ++ mpool_pages m'.
Proof.
  intros (Hlen & Hw & Hrt & H48) Hm. unfold defrag.
  destruct (defrag_tables_spec (tables t) 0 m) as (ts' & m' & -> & Hm' & Hl & Hpp & Hall);
    [done|lia|done|]. cbn [Nat.add] in Hall.
  cbn. do 2 eexists. split; [done|]. split; [done|]. split; [split_and!|split].
  - simpl. lia.
  - intros i tb' Htb'. simpl in Htb'. destruct (lookup_lt_is_Some_2 (tables t) i) as [tb Htb].
    { apply lookup_lt_Some in Htb'. lia. } by eapply Hall.
  - done.
  - done.
  - apply (ptable_pointwise t (mkPageTable (root t) ts') (λ _ o, o)); [done|simpl; lia|].
    intros. by eapply Hall.
  - unfold ptable_pages. simpl. rewrite <-!app_assoc. by rewrite Hpp.
Qed.

(** ** Queries *)
Lemma get_attrs_spec t b e :
  wf_ptable t → in_u 64 b →
  ∃ r, get_attrs t b e = Done r ∧
    ∀ a, r = Ok a ↔
      b - b mod 4096 < round_up_to_page e ≤ ptable_end ∧
      ∀ x, b - b mod 4096 ≤ x < round_up_to_page e → ptable_attrs t x = a.
Proof.
  intros (Hlen & Hw & _) Hb64. pose proof root_geometry as (?&?&?). unfold get_attrs. cbv zeta.
  change (S max_level) with root_level. rewrite entry_size_pow by (unfold root_level; lia).
  rewrite wmul_small by (fold ptable_end; lia). fold ptable_end.
  rewrite round_down_to_page_spec by done. set (b' := b - b mod 4096). set (e' := round_up_to_page e).
  assert (Hb' : 0 ≤ b').
  { destruct Hb64. pose proof (Z.mod_le b 4096 ltac:(lia) ltac:(lia)). unfold b'. lia. }
  destruct (Z.leb_spec b' e'); cbn [andb negb].
  2:{ eexists. split; [done|]. intros a. split; [done|lia]. }
  destruct (Z.leb_spec e' ptable_end); cbn [andb negb].
  2:{ eexists. split; [done|]. intros a. split; [done|lia]. }
  destruct (decide (b' < e')) as [Hlt|Hge].
  - destruct (root_index b') as [Hi Hr]; [lia|].
    destruct (query_loop root_level 0 (tables t) b' e'
      (λ '(table, begin), get_attrs_level max_level table begin e')
      (tattrs_at max_level) (ptable_attrs t)) as (r & Heq & Hr');
      [unfold root_level; lia|apply aligned_0|done| |lia|done|done|..].
    + rewrite Hlen. unfold ptable_end, ebase in *. lia.
    + rewrite Hlen. unfold ptable_end, ebase in *. lia.
    + intros j tb x Htb Hx. pose proof (lookup_lt_Some _ _ _ Htb). unfold ptable_attrs.
      destruct (root_index x) as [Hix Hrx].
      { pose proof (ebase_mono root_level 0 (S j) root_table_count ltac:(lia)).
        unfold ebase, ptable_end in *. pose proof (esh_pos root_level). nia. }
      assert (index x root_level = j) as ->; [|by rewrite Htb].
      unfold ebase in *. pose proof (esh_pos root_level). nia.
    + intros j tb Htb Hj Hp. pose proof (lookup_lt_Some _ _ _ Htb).
      destruct (get_attrs_level_spec e' ltac:(lia) max_level (ebase root_level 0 j) tb
        (part root_level 0 b' j)) as (r & -> & Hans);
        [lia|apply root_base_ok; lia|by apply Hw|by apply root_part_range|done|].
      exists r. split; [done|]. by rewrite ebase_S.
    + exists r. split; [done|]. intros a. rewrite (Hr' a). split; [|by intros [_ ?]].
      intros ?. split; [lia|done].
  - assert (Hi : (index b' root_level ≤ length (tables t))%nat).
    { rewrite Hlen. pose proof (index_spec b' root_level Hb') as Hi. pose proof (esh_pos root_level).
      assert (0 ≤ b' / 2 ^ esh root_level ≤ Z.of_nat root_table_count).
      { split; [apply Z.div_pos; lia|]. apply Z.div_le_upper_bound; [lia|].
        unfold ptable_end in *. lia. }
      set (q := b' / 2 ^ esh root_level) in *.
      pose proof (Z.mod_le q 512 ltac:(lia) ltac:(lia)). lia. }
    unfold slice_from. destruct (Nat.leb_spec (index b' root_level) (length (tables t))); [|lia].
    cbn [mbind exec_bind].
    assert (zip_begins (drop (index b' root_level) (tables t))
              (BlockIter_new b' e' (2 ^ esh root_level)) = []) as ->.
    { destruct (drop _ _); [done|]. cbn [zip_begins]. unfold BlockIter_next, BlockIter_new.
      cbn [bi_end bi_begin]. destruct (Z.leb_spec e' b'); [done|lia]. }
    eexists. split; [done|]. intros a. split; [done|lia].
Qed.
End ops.

(** ** Correctness of the operations *)
Section claims.
Context {A : ArchMM} {L : ArchLaws A} {SG : Stage} {SL : StageLaws L SG} {RD : ReduceCrate}.

(** C5: [identity_map] of a range that begins inside the address space, on a
    well-formed table, always returns.  If it succeeds, every address of the
    page-rounded range is mapped with the attributes of the requested mode and every
    other address is mapped as before; if it fails, no address is mapped differently
    and the pool has no page left.  In both cases the table stays well formed and each
    page is still owned exactly once, by the table or by the pool.  A range that begins
    beyond the address space is outside of the claim: the code panics there, or reports
    success and maps nothing. *)
Theorem identity_map_correct t begin end_ mode st :
  wf_ptable t → st_inv st → 0 ≤ pa begin < ptable_end →
  ∃ ok t' st', identity_map t begin end_ mode st = Done (ok, t', st') ∧
    wf_ptable t' ∧ st_inv st' ∧
    ptable_pages t ++ mpool_pages (st_pool st) ≡ₚ ptable_pages t' ++ mpool_pages (st_pool st') ∧
    (∀ x, 0 ≤ x < ptable_end →
       ptable_mapping t' x =
       if ok && bool_decide (upd_begin begin ≤ x < upd_end end_)
       then mapped (mode_to_attrs mode) else ptable_mapping t x) ∧
    (ok = false → mpool_pages (st_pool st') = []).
Proof.
  intros Hwf Hst Hb.
  destruct (identity_update_spec t begin end_ (mode_to_attrs mode) 0 st)
    as (ok & t' & st' & Heq & ? & ? & ? & ? & _ & ?); [left; split; [done|apply stage_attrs_ok]|done..|].
  exists ok, t', st'. split_and!; done.
Qed.

(** C6: [unmap] of a range that begins inside the address space, on a well-formed
    table, always returns; on success no address of the page-rounded range is mapped any
    more and the rest is unchanged, on failure nothing changes.  A range that begins
    beyond the address space is outside of the claim: the code panics there, or does
    nothing and reports success. *)
Theorem unmap_correct t begin end_ st :
  wf_ptable t → st_inv st → 0 ≤ pa begin < ptable_end →
  ∃ ok t' st', unmap t begin end_ st = Done (ok, t', st') ∧
    wf_ptable t' ∧ st_inv st' ∧
    ptable_pages t ++ mpool_pages (st_pool st) ≡ₚ ptable_pages t' ++ mpool_pages (st_pool st') ∧
    (∀ x, 0 ≤ x < ptable_end →
       ptable_mapping t' x =
       if ok && bool_decide (upd_begin begin ≤ x < upd_end end_)
       then None else ptable_mapping t x) ∧
    (ok = false → mpool_pages (st_pool st') = []).
Proof.
  intros Hwf Hst Hb.
  destruct (identity_update_spec t begin end_
    (mode_to_attrs (Z.lor (Z.lor Mode.UNOWNED Mode.INVALID) Mode.SHARED)) Flags.UNMAP st)
    as (ok & t' & st' & Heq & ? & ? & ? & ? & _ & ?); [by right|done..|].
  exists ok, t', st'. split_and!; done.
Qed.

(** C28: [get_attrs] answers [Ok a] exactly when the page-rounded range is not
    empty, lies inside the address space, and a walk for every address of it ends
    at the attributes [a]; it never panics. *)
Theorem get_attrs_correct t b e :
  wf_ptable t → in_u 64 b →
  ∃ r, get_attrs t b e = Done r ∧
    ∀ a, r = Ok a ↔
      b - b mod 4096 < round_up_to_page e ≤ ptable_end ∧
      ∀ x, b - b mod 4096 ≤ x < round_up_to_page e → ptable_attrs t x = a.
Proof. apply get_attrs_spec. Qed.

(** C29: [defrag] keeps the mapping of every address, keeps the table well formed
    and hands the pages of the tables it merges back to the pool. *)
Theorem defrag_correct t m :
  wf_ptable t → pool_inv m →
  ∃ t' m', defrag t m = Done (t', m') ∧ pool_inv m' ∧ wf_ptable t' ∧
    (∀ x, 0 ≤ x < ptable_end → ptable_mapping t' x = ptable_mapping t x) ∧
    ptable_pages t ++ mpool_pages m ≡ₚ ptable_pages t' ++ mpool_pages m'.
Proof. apply defrag_spec. Qed.

(** The operations on a live table, as one step each. *)
Inductive ptable_step : PageTable * MmState → PageTable * MmState → Prop :=
| step_map t st begin end_ mode ok t' st' :
    0 ≤ pa begin < ptable_end →
    identity_map t begin end_ mode st = Done (ok, t', st') → ptable_step (t, st) (t', st')
| step_unmap t st begin end_ ok t' st' :
    0 ≤ pa begin < ptable_end →
    unmap t begin end_ st = Done (ok, t', st') → ptable_step (t, st) (t', st')
| step_defrag t st t' m' :
    defrag t (st_pool st) = Done (t', m') → ptable_step (t, st) (t', with_pool st m').

Definition ptable_inv (total : list Z) (c : PageTable * MmState) : Prop :=
  wf_ptable c.1 ∧ st_inv c.2 ∧ ptable_pages c.1 ++ mpool_pages (st_pool c.2) ≡ₚ total.

Lemma ptable_step_inv total c c' : ptable_step c c' → ptable_inv total c → ptable_inv total c'.
Proof.
  intros Hs (Hwf & Hst & Hpp). unfold ptable_inv.
  destruct Hs as [t st b e mode ok t' st' Hb Heq|t st b e ok t' st' Hb Heq|t st t' m' Heq];
    cbn [fst snd] in *.
  - destruct (identity_update_spec t b e (mode_to_attrs mode) 0 st) as (? & ? & ? & Heq' & ? & ? & Hp & _);
      [left; split; [done|apply stage_attrs_ok]|done..|].
    unfold identity_map in Heq. rewrite Heq in Heq'. injection Heq' as <- <- <-.
    by rewrite <-Hp.
  - destruct (identity_update_spec t b e
      (mode_to_attrs (Z.lor (Z.lor Mode.UNOWNED Mode.INVALID) Mode.SHARED)) Flags.UNMAP st)
      as (? & ? & ? & Heq' & ? & ? & Hp & _); [by right|done..|].
    unfold unmap in Heq. rewrite Heq in Heq'. injection Heq' as <- <- <-. by rewrite <-Hp.
  - destruct (defrag_spec t (st_pool st)) as (? & ? & Heq' & ? & ? & _ & Hp); [done..|].
    rewrite Heq in Heq'. injection Heq' as <- <-. cbn. by rewrite <-Hp.
Qed.

(** C7: whatever is mapped, unmapped (from addresses inside the address space on) and
    defragmented after its creation, a page table can be dropped without a panic, and
    the pool then holds exactly the pages it held before: none is leaked and none is
    freed twice. *)
Theorem ptable_no_leak m t m1 tlb inv t' st' :
  pool_inv m → PageTable_new m = Done (Ok t, m1) →
  rtc ptable_step (t, mkMmState m1 tlb inv) (t', st') →
  ∃ m', PageTable_drop t' (st_pool st') = Done m' ∧ mpool_pages m' ≡ₚ mpool_pages m.
Proof.
  intros Hm Hnew Hrun. destruct (PageTable_new_spec m Hm) as (r & m2 & Heq & Hm2 & Hr).
  rewrite Hnew in Heq. simplify_eq. destruct Hr as (Hwf & _ & Hpp).
  assert (Hinv : ptable_inv (mpool_pages m) (t', st')).
  { eapply (rtc_ind_r (λ c, ptable_inv (mpool_pages m) c)); [|eauto using ptable_step_inv|done].
    unfold ptable_inv. cbn. by rewrite Hpp. }
  destruct Hinv as (Hwf' & Hst' & Hp). cbn [fst snd] in *.
  destruct (PageTable_drop_spec t' (st_pool st')) as (m' & -> & _ & Hpm); [done..|].
  exists m'. split; [done|]. by rewrite Hpm, Hp.
Qed.

(** ** Identity mapping *)

(** The physical address the walk for [x] translates to. *)
Fixpoint translate (l : nat) (e : pte) (x : Z) : Z :=
  match e with
  | Leaf _ => pa_addr (as_block_unchecked l e) + x mod 2 ^ esh l
  | Table _ es =>
      match l with
      | O => 0
      | S l' => match es !! index x l' with Some e' => translate l' e' x | None => 0 end
      end
  end.
Definition ptable_translate (t : PageTable) (x : Z) : Z :=
  match tables t !! index x root_level with
  | Some tb => match tb !! index x max_level with Some e => translate max_level e x | None => 0 end
  | None => 0
  end.

Lemma translate_leaf l base v x :
  base_ok l base → wf_leaf l base v → base ≤ x < base + 2 ^ esh l →
  is_present l (Leaf v) = true → pa_addr (as_block_unchecked l (Leaf v)) + x mod 2 ^ esh l = x.
Proof.
  intros Hb Hw Hx Hp. destruct Hw as [->|(a & Ha & Hal & ->)].
  { unfold is_present in Hp. cbn in Hp. by rewrite absent_not_present in Hp. }
  unfold as_block_unchecked. cbn [inner]. rewrite block_addr by done. cbn.
  destruct Hb as (Hba & _ & _). pose proof (esh_pos l).
  apply aligned_exists in Hba as [q ->]; [|lia].
  pose proof (Z.mod_unique_pos x (2 ^ esh l) q (x - q * 2 ^ esh l) ltac:(lia) ltac:(lia)). lia.
Qed.

Lemma translate_identity l base e x :
  base_ok l base → wf_pte l base e → base ≤ x < base + 2 ^ esh l →
  is_Some (mapping_at l e x) → translate l e x = x.
Proof.
  revert base e. induction l as [|l IH]; intros base e Hb Hw Hx Hm; destruct e as [v|p es];
    try done.
  1,2: cbn [translate]; apply (translate_leaf _ base); [done..|];
    apply not_false_is_true; intros Hp; rewrite (wf_not_present _ base) in Hm by done;
    by destruct Hm.
  apply wf_pte_table in Hw as (_ & _ & Hlen & Hes). cbn.
  destruct (base_ok_index l base x Hb Hx) as [Hi Hr].
  unfold mapping_at in Hm. cbn in Hm. destruct (es !! index x l) as [e'|] eqn:He.
  - by apply (IH (ebase l base (index x l))); [apply base_ok_child|apply Hes| |].
  - apply lookup_ge_None in He. lia.
Qed.

(** The tables are identity mappings: whenever an address is mapped, the walk
    translates it to itself. *)
Theorem ptable_identity t x :
  wf_ptable t → 0 ≤ x < ptable_end → is_Some (ptable_mapping t x) → ptable_translate t x = x.
Proof.
  intros (Hlen & Hw & _) Hx Hm. destruct (root_index x Hx) as [Hi Hr]. rewrite ebase_S in Hr.
  unfold ptable_translate, ptable_mapping, ptable_attrs in *.
  destruct (lookup_lt_is_Some_2 (tables t) (index x root_level)) as [tb Htb]; [lia|].
  rewrite Htb in *. destruct (Hw _ _ Htb) as [Hl Hes].
  destruct (base_ok_index max_level (ebase root_level 0 (index x root_level)) x) as [Hj Hjr];
    [apply root_base_ok; lia|done|].
  unfold tattrs_at in Hm. destruct (lookup_lt_is_Some_2 tb (index x max_level)) as [e He]; [lia|].
  rewrite He in *. apply (translate_identity max_level
    (ebase max_level (ebase root_level 0 (index x root_level)) (index x max_level)));
    [|by apply Hes|done|done]. apply base_ok_child; [|done]. apply root_base_ok. lia.
Qed.
End claims.

(** ** Stage 2 on aarch64 *)
Section aarch64_stage2.
Context (p : Aarch64.pa_bits).
#[local] Instance stage2_arch : ArchMM := aarch64 p.
#[local] Instance stage2_stage : Stage := @Stage2 (aarch64 p).

Lemma stage2_mode_attrs m :
  stage2_mode m →
  Mode.from_bits_truncate (Aarch64.stage2_attrs_to_mode (Aarch64.mode_to_stage2_attrs m)) = m.
Proof.
  intros Hm.
  assert (Hall : Forall (λ m, ¬ stage2_mode m ∨
    Mode.from_bits_truncate (Aarch64.stage2_attrs_to_mode (Aarch64.mode_to_stage2_attrs m)) = m)
    all_modes) by (by_computation).
  rewrite Forall_forall in Hall. destruct (Hall m); [|done..]. apply elem_of_all_modes, Hm.
Qed.

(** C30: what a successful [identity_map] of a VM's table sets, [get_mode] of the
    same range reads back: every combination of access rights, validity,
    ownership and exclusivity survives the encoding in the descriptors. *)
Theorem map_get_mode_roundtrip t b e mode st t' st' :
  wf_ptable t → st_inv st → stage2_mode mode → 0 ≤ b < ptable_end →
  b - b mod 4096 < round_up_to_page e ≤ ptable_end →
  identity_map t (pa_init b) (pa_init e) mode st = Done (true, t', st') →
  get_mode t' (ipa_init b) (ipa_init e) = Done (Ok mode).
Proof.
  intros Hwf Hst Hmode Hb Hr Hmap. pose proof root_geometry as (_ & _ & Hend).
  destruct (identity_update_spec t (pa_init b) (pa_init e) (mode_to_attrs mode) 0 st)
    as (ok & t1 & st1 & Heq & _ & Hwf' & _ & _ & Hat & _);
    [left; split; [done|apply stage_attrs_ok]|done..|].
  unfold identity_map in Hmap. rewrite Hmap in Heq. injection Heq as <- <- <-.
  unfold get_mode. cbn [ipa_addr ipa_init ipa].
  destruct (get_attrs_spec t' b e) as (r & -> & Hget); [done|split; lia|].
  destruct (Hget (mode_to_attrs mode)) as [_ Hok].
  rewrite Hok; [cbn; by rewrite stage2_mode_attrs|]. split; [done|]. intros x Hx.
  apply Hat; [done..|]. unfold upd_begin, upd_end. cbn. lia.
Qed.
End aarch64_stage2.

(** ** Reclaiming tables of absent entries *)

Section absent.
Context {A : ArchMM} {L : ArchLaws A} {SG : Stage} {RD : ReduceCrate}.

Lemma pte_defrag_absent l m : pte_defrag l (absent l) m = Done (Err tt, absent l, m).
Proof.
  assert (Hb : is_block l (absent l) = false) by apply absent_not_block.
  assert (Ht : is_table l (absent l) = false) by apply absent_not_table.
  destruct l; cbn [pte_defrag]; rewrite Hb; unfold as_table; by rewrite Ht.
Qed.

Lemma defrag_absent_entries l (s : list nat) m :
  defrag_entries (pte_defrag l) ((λ _, absent l) <$> s) m
  = Done ((λ _, Err tt) <$> s, (λ _, absent l) <$> s, m).
Proof.
  induction s as [|i s IH]; [done|]. cbn [fmap list_fmap defrag_entries].
  rewrite pte_defrag_absent. cbn [mbind exec_bind]. rewrite IH. done.
Qed.

Lemma reduce_all_err (s : list nat) : s ≠ [] → reduce attrs_join ((λ _, Err tt) <$> s) = Some (Err tt).
Proof.
  destruct s as [|i s]; [done|]. intros _. cbn [fmap list_fmap]. rewrite reduce_cons. f_equal.
  induction s as [|j s IH]; [done|]. cbn [fmap list_fmap foldl]. exact IH.
Qed.

(** [defrag] does not reclaim a table all of whose entries are absent, on any
    architecture that satisfies the laws: the absent entries make the reduction
    fail before the test that would free the table. *)
Theorem defrag_keeps_absent_table l pg m :
  page_ok pg → pg < 2 ^ 48 →
  let e := Table pg (PageTableNode_new (λ _, absent l)) in
  pte_defrag (S l) e m = Done (Err tt, e, m).
Proof.
  intros Hp Hlt e. unfold e. cbn [pte_defrag]. unfold is_block, as_table, is_table. cbn [inner].
  pose proof (page_table_ok pg Hp Hlt) as Hok.
  rewrite table_not_block, table_is_table, table_addr by done. cbn [pa_addr pa_init pa].
  rewrite Z.eqb_refl. cbn [mbind exec_bind]. unfold PageTableNode_new.
  rewrite defrag_absent_entries. cbn [mbind exec_bind].
  by rewrite reduce_all_err.
Qed.
End absent.

(** ** Splitting blocks on the fake architecture *)

(** A level-1 block of the fake architecture at 2 MiB, readable and writable. *)
Definition fake_block : pte :=
  @block fake 1 (pa_init 0x200000) (Fake.mode_to_stage2_attrs (Z.lor Mode.R Mode.W)).

(** On the fake architecture [populate_table] splits a block into entries that
    map other addresses: it reads the block's address from the raw entry, which
    this architecture stores shifted by the level.  The first entry of the new
    table should map 0x200000. *)
Lemma fake_populate_moves_block :
  ∃ es st',
    populate_table (A := fake) (SG := @Stage2 fake) 1 fake_block 0x200000
      (mkMmState (MPool_base (mkPool [] [0x100000])) [] false)
    = Done (true, Table 0x100000 es, st') ∧
    as_block_unchecked (A := fake) 1 fake_block = pa_init 0x200000 ∧
    (λ e, as_block_unchecked (A := fake) 0 e) <$> head es = Some (pa_init 0xC00000080000).
Proof. do 2 eexists. split; [vm_compute; reflexivity|]. vm_compute. done. Qed.

(** ** Concrete instances *)
Definition std_reduce : ReduceCrate := {|
  reduce T f l := match l with [] => None | x :: l => Some (foldl f x l) end;
  reduce_nil _ _ := eq_refl;
  reduce_cons _ _ _ _ := eq_refl;
|}.

(** A machine with 40-bit physical addresses and a pool of 64 pages. *)
Module Demo.
#[export] Instance demo_arch : ArchMM := aarch64 Aarch64.PA40.
#[export] Instance demo_laws : ArchLaws demo_arch := aarch64_laws Aarch64.PA40.
#[export] Instance demo_stage : Stage := @Stage2 demo_arch.
#[export] Instance demo_stage_laws : StageLaws demo_laws demo_stage := Stage2_laws.
#[export] Instance demo_reduce : ReduceCrate := std_reduce.

Definition pool : MPool := MPool_base (mkPool [mkChunk 0x100000 64] []).
Definition st : MmState := mkMmState pool [] true.
Definition table : PageTable := mkPageTable 0x200000 (replicate root_table_count empty_table).

Lemma pool_inv_demo : pool_inv pool.
Proof.
  split; [split; [|constructor]|].
  - constructor; [|constructor]. repeat split; vm_compute; congruence.
  - by_computation.
Qed.
Lemma table_wf : wf_ptable table.
Proof. apply (empty_ptable_wf 0x200000); [|vm_compute; congruence]. repeat split; vm_compute; congruence. Qed.
End Demo.
Import Demo.

Lemma identity_map_witness :
  ∃ ok t' st', identity_map Demo.table (pa_init 0x40000000) (pa_init 0x40003000) 7 Demo.st
    = Done (ok, t', st') ∧ wf_ptable t'.
Proof.
  destruct (identity_map_correct Demo.table (pa_init 0x40000000) (pa_init 0x40003000) 7 Demo.st
              table_wf pool_inv_demo ltac:(vm_compute; split; congruence))
    as (ok & t' & st' & ? & ? & _).
  exists ok, t', st'. done.
Defined.

Lemma unmap_witness :
  ∃ ok t' st', unmap Demo.table (pa_init 0x40000000) (pa_init 0x40003000) Demo.st
    = Done (ok, t', st') ∧ wf_ptable t'.
Proof.
  destruct (unmap_correct Demo.table (pa_init 0x40000000) (pa_init 0x40003000) Demo.st
              table_wf pool_inv_demo ltac:(vm_compute; split; congruence))
    as (ok & t' & st' & ? & ? & _).
  exists ok, t', st'. done.
Defined.

Lemma get_attrs_witness :
  ∃ r, get_attrs Demo.table 0x40000000 0x40003000 = Done r ∧
    (r = Ok 0 ↔ 0x40000000 - 0x40000000 mod 4096 < round_up_to_page 0x40003000 ≤ ptable_end ∧
       ∀ x, 0x40000000 - 0x40000000 mod 4096 ≤ x < round_up_to_page 0x40003000 →
            ptable_attrs Demo.table x = 0).
Proof.
  destruct (get_attrs_correct Demo.table 0x40000000 0x40003000 table_wf
    ltac:(vm_compute; split; congruence)) as (r & ? & Hr).
  exists r. split; [done|]. apply (Hr 0).
Defined.

Lemma defrag_witness :
  ∃ t' m', defrag Demo.table Demo.pool = Done (t', m') ∧ wf_ptable t'.
Proof.
  destruct (defrag_correct Demo.table Demo.pool table_wf pool_inv_demo) as (t' & m' & ? & _ & ? & _).
  exists t', m'. done.
Defined.

Lemma defrag_keeps_witness :
  pte_defrag 1 (Table 0x100000 (PageTableNode_new (λ _, absent 0))) Demo.pool
  = Done (Err tt, Table 0x100000 (PageTableNode_new (λ _, absent 0)), Demo.pool).
Proof.
  apply (defrag_keeps_absent_table 0 0x100000 Demo.pool); [repeat split|]; vm_compute; congruence.
Defined.

(** The table after one page has been mapped. *)
Definition demo_mapped : PageTable * MmState :=
  match identity_map Demo.table (pa_init 0x40000000) (pa_init 0x40001000) 7 Demo.st with
  | Done (true, t, st) => (t, st)
  | _ => (Demo.table, Demo.st)
  end.
Lemma demo_mapped_eq :
  identity_map Demo.table (pa_init 0x40000000) (pa_init 0x40001000) 7 Demo.st
  = Done (true, demo_mapped.1, demo_mapped.2).
Proof. vm_compute. reflexivity. Qed.

Lemma done_middle_inj {X Y T} (a a' : X) (b b' : Y) (c c' : T) :
  Done (a, b, c) = Done (a', b', c') → b = b'.
Proof. by intros [= _ -> _]. Qed.

Lemma demo_mapped_wf : wf_ptable demo_mapped.1.
Proof.
  destruct (identity_update_spec Demo.table (pa_init 0x40000000) (pa_init 0x40001000)
    (mode_to_attrs 7) 0 Demo.st) as (ok & t & s & Heq & _ & Hwf & _);
    [left; split; [done|apply stage_attrs_ok]|exact table_wf|exact pool_inv_demo
    |vm_compute; split; congruence|].
  pose proof demo_mapped_eq as Hm. unfold identity_map in Hm. rewrite Heq in Hm.
  rewrite <-(done_middle_inj _ _ _ _ _ _ Hm). exact Hwf.
Qed.

Lemma ptable_identity_witness : ptable_translate demo_mapped.1 0x40000123 = 0x40000123.
Proof.
  apply (ptable_identity demo_mapped.1 0x40000123).
  - exact demo_mapped_wf.
  - vm_compute. split; congruence.
  - vm_compute. eexists. reflexivity.
Defined.

Lemma map_get_mode_witness :
  get_mode demo_mapped.1 (ipa_init 0x40000000) (ipa_init 0x40001000) = Done (Ok 7).
Proof.
  apply (map_get_mode_roundtrip Aarch64.PA40 Demo.table 0x40000000 0x40001000 7 Demo.st
           demo_mapped.1 demo_mapped.2).
  - exact table_wf.
  - exact pool_inv_demo.
  - vm_compute. repeat split; congruence.
  - vm_compute. split; congruence.
  - vm_compute. split; congruence.
  - exact demo_mapped_eq.
Defined.

(** A table created in the pool, with one page mapped, and dropped. *)
Definition demo_new_pool : MPool := MPool_base (mkPool [mkChunk 0x102000 62] []).
Definition demo_new : PageTable := mkPageTable 0x100000 (replicate root_table_count empty_table).
Definition demo_run : PageTable * MmState :=
  match identity_map demo_new (pa_init 0x40000000) (pa_init 0x40001000) 7
          (mkMmState demo_new_pool [] false) with
  | Done (true, t, st) => (t, st)
  | _ => (demo_new, Demo.st)
  end.
Lemma demo_run_eq :
  identity_map demo_new (pa_init 0x40000000) (pa_init 0x40001000) 7
    (mkMmState demo_new_pool [] false) = Done (true, demo_run.1, demo_run.2).
Proof. vm_compute. reflexivity. Qed.

Lemma ptable_no_leak_witness :
  ∃ m', PageTable_drop demo_run.1 (st_pool demo_run.2) = Done m' ∧
        mpool_pages m' ≡ₚ mpool_pages Demo.pool.
Proof.
  apply (ptable_no_leak Demo.pool demo_new demo_new_pool [] false demo_run.1 demo_run.2).
  - exact pool_inv_demo.
  - vm_compute. reflexivity.
  - eapply rtc_once, step_map; [|exact demo_run_eq]. vm_compute. split; congruence.
Defined.
