(* ===== verification/MmUndo.v ===== *)
(** * Undoing an update of a page table

    [PageTable::identity_map] and [unmap] fail only for want of pages.  A range that has
    been mapped with new attributes can be mapped again or unmapped without any page,
    also after updates of other ranges, and, after [defrag], with the pages that
    [defrag] has returned: the code can always undo an update it has made. *)
From S2P Require Import Prelude Addr Mode Arch ArchAarch64 Mpool Mm MmSpec MmMap MmTable MmDefrag MmQuery PageTables MmSplit.

Section undo.
Context {A : ArchMM} {L : ArchLaws A} {SG : Stage} {SL : StageLaws L SG}.

(** The range [b2, e2) stands on its own in the tree. *)
Definition root_splits (b2 e2 : Z) (t : PageTable) : Prop := ∀ j tb,
  tables t !! j = Some tb → meets b2 e2 root_level (ebase root_level 0 j) →
  splits_table b2 e2 max_level (ebase root_level 0 j) tb.

(** ** The loop over the root tables *)
Section update.
Context (begin end_ a flags : Z).
Hypothesis (Hal : aligned 4096 begin) (Hend : aligned 4096 end_).
Hypothesis (Hb : 0 ≤ begin < ptable_end) (Hle : end_ ≤ ptable_end).
Hypothesis (Ha : bf_contains flags Flags.UNMAP = false → attrs_ok a).
Local Abbreviation vis := (visits end_ root_level 0 begin).
Local Abbreviation prt := (part root_level 0 begin).
Local Abbreviation tbase := (ebase root_level 0).

(** The tables missing for the update. *)
Definition root_need (t : PageTable) : nat :=
  sum_list (imap (λ j tb,
    if vis j then need_table end_ a flags max_level (tbase j) tb (prt j) else 0%nat) (tables t)).

Definition root_pass (t : PageTable) : Prop :=
  bf_contains flags Flags.COMMIT = false ∨
  bf_contains flags Flags.COMMIT = true ∧ root_ready begin end_ a flags t.

Lemma root_pass_table t j tb :
  root_pass t → tables t !! j = Some tb → vis j = true →
  pass_ok end_ a flags max_level (tbase j) tb (prt j).
Proof. intros [?|[? Hr]] Htb [??]%visits_spec; [by left|right]. split; [done|]. by apply Hr. Qed.

Lemma map_root_elems (Q : nat → Z → bool → list pte → list pte → Prop) t st :
  wf_ptable t → root_pass t → st_inv st →
  (∀ j tb st ok tb' st', tables t !! j = Some tb → vis j = true → st_inv st →
     map_level max_level tb (prt j) end_ a flags st = Done (ok, tb', st') → Q j (prt j) ok tb tb') →
  ∃ ok t' st', map_root t begin end_ a root_level flags st = Done (ok, t', st') ∧
    root t' = root t ∧ length (tables t') = length (tables t) ∧
    (∀ j tb tb', tables t !! j = Some tb → tables t' !! j = Some tb' →
       tb' = tb ∨ vis j = true ∧ ∃ ok', Q j (prt j) ok' tb tb') ∧
    (ok = false → ∃ j tb tb', tables t !! j = Some tb ∧ tables t' !! j = Some tb' ∧ vis j = true ∧
       Q j (prt j) false tb tb').
Proof.
  intros Hwf Hpass Hst HQ. pose proof Hwf as (Hlen & Hw & _). pose proof root_geometry as (?&?&?).
  destruct (map_root_loop begin end_ a flags Hb Q t st)
    as (ok & t' & st' & -> & _ & Hroot & Hlen' & _ & Hel & Hno); [done| |done|].
  { intros j tb Htb Hj Hp. assert (Hv : vis j = true) by by apply visits_spec.
    pose proof (lookup_lt_Some _ _ _ Htb). apply (body_ok_and _ _ (λ _ _ _ _ _, True)); [|eauto].
    intros st0 Hst0. assert (Hbj : base_ok root_level (tbase j)) by (apply root_base_ok; lia).
    assert (Hpr : tbase j ≤ prt j < tbase j + 2 ^ esh root_level) by (apply root_part_range; (done || lia)).
    pose proof (root_part_aligned begin j Hal).
    destruct (root_pass_table t j tb Hpass Htb Hv) as [Hc|[Hc Hr]].
    - destruct (map_level_prepare end_ a flags Hend ltac:(lia) Ha max_level Hc ltac:(lia)
        (tbase j) tb (prt j) st0) as (ok & t' & st' & Heq & ?&?&?&?&?&?); [done|by apply Hw|done..|].
      exists ok, t', st'. by split_and!.
    - destruct (map_level_commit end_ a flags Hend ltac:(lia) Ha max_level Hc ltac:(lia)
        (tbase j) tb (prt j) st0) as (t' & st' & Heq & ?&?&?&?&?); [done|by apply Hw|done..|].
      exists true, t', st'. by split_and!. }
  exists ok, t', st'. split_and!; [done|done|lia| |].
  - intros j tb tb' Htb Htb'. destruct (Hel j tb tb' Htb Htb') as [Hv1 Hv2].
    destruct (decide (begin < tbase (S j))) as [Hj|Hj]; [|left; apply Hv2; lia].
    destruct (Hv1 Hj) as (P1 & _ & P3). destruct (decide (prt j < end_)) as [Hp|Hp]; [|left; apply P3; lia].
    destruct (P1 Hp) as [[ok' ?]|[_ ?]]; [right|by left]. split; [by apply visits_spec|]. by exists ok'.
  - intros Hok. destruct (Hno Hok) as (_ & j & tb & tb' & ? & ? & ? & ? & ?). exists j, tb, tb'.
    split_and!; [done..| |done]. by apply visits_spec.
Qed.

Lemma map_root_need t st ok t' st' :
  bf_contains flags Flags.COMMIT = false → wf_ptable t → st_inv st →
  map_root t begin end_ a root_level flags st = Done (ok, t', st') →
  (length (ptable_pages t') + fail ok ≤ length (ptable_pages t) + root_need t)%nat.
Proof.
  intros Hc Hwf Hst H. pose proof Hwf as (Hlen & Hw & _). pose proof root_geometry as (?&?&?).
  set (Q := λ (j : nat) (b : Z) (ok : bool) (tb tb' : list pte),
    (length (table_pages max_level tb') + fail ok ≤
     length (table_pages max_level tb) + need_table end_ a flags max_level (tbase j) tb b)%nat).
  destruct (map_root_elems Q t st) as (ok1 & t1 & st1 & Heq & Hroot & Hlen1 & Hel & Hno); [done|by left|done| |].
  { intros j tb st0 ok0 tb' st0' Htb [Hj Hp]%visits_spec Hst0 Hm. pose proof (lookup_lt_Some _ _ _ Htb). unfold Q.
    eapply (map_level_need end_ a flags Hend ltac:(lia) Ha max_level Hc ltac:(lia)); [| | | |exact Hst0|exact Hm].
    - apply root_base_ok. lia.
    - by apply Hw.
    - apply root_part_range; (done || lia).
    - by apply root_part_aligned. }
  rewrite H in Heq. injection Heq as <- <- <-. unfold ptable_pages. rewrite Hroot, !length_app.
  enough (length (mjoin (table_pages max_level <$> tables t')) + fail ok ≤
    length (mjoin (table_pages max_level <$> tables t)) + root_need t)%nat by lia.
  unfold root_need. rewrite !sum_imap_join, <-sum_imap_add.
  assert (Hpt : ∀ j tb tb', tables t !! j = Some tb → tables t' !! j = Some tb' →
    (length (table_pages max_level tb') ≤ length (table_pages max_level tb) +
     if vis j then need_table end_ a flags max_level (tbase j) tb (prt j) else 0)%nat).
  { intros j tb tb' Htb Htb'. destruct (Hel j tb tb' Htb Htb') as [->|[-> (ok' & HQ)]]; [lia|]. unfold Q in HQ. lia. }
  destruct ok; cbn [fail].
  - rewrite Nat.add_0_r. by apply sum_imap_le.
  - destruct (Hno eq_refl) as (j & tb & tb' & Htb & Htb' & Hv & HQ). rewrite Nat.add_1_r.
    eapply sum_imap_lt; [done|exact Htb|exact Htb'| |exact Hpt]. cbv beta. rewrite Hv. unfold Q in HQ. cbn [fail] in HQ. lia.
Qed.

(** A mapping keeps other ranges on their own. *)
Lemma map_root_splits b2 e2 t st ok t' st' :
  bf_contains flags Flags.UNMAP = false → apart end_ b2 e2 begin → wf_ptable t → root_pass t → st_inv st →
  map_root t begin end_ a root_level flags st = Done (ok, t', st') → root_splits b2 e2 t → root_splits b2 e2 t'.
Proof.
  intros Hu Hap Hwf Hpass Hst H Hs. pose proof Hwf as (Hlen & Hw & _). pose proof root_geometry as (?&?&?).
  set (Q := λ (j : nat) (b : Z) (ok : bool) (tb tb' : list pte),
    splits_table b2 e2 max_level (tbase j) tb → splits_table b2 e2 max_level (tbase j) tb').
  destruct (map_root_elems Q t st) as (ok1 & t1 & st1 & Heq & _ & Hlen1 & Hel & _); [done..| |].
  { intros j tb st0 ok0 tb' st0' Htb Hv Hst0 Hm. pose proof Hv as [Hj Hp]%visits_spec.
    pose proof (lookup_lt_Some _ _ _ Htb). unfold Q.
    eapply (map_level_splits end_ a flags Hend ltac:(lia) Ha b2 e2 Hu max_level ltac:(lia)); [| | | | | |exact Hst0|exact Hm].
    - apply root_base_ok. lia.
    - by apply Hw.
    - apply root_part_range; (done || lia).
    - by apply root_part_aligned.
    - eapply apart_mono; [|exact Hap]. unfold part. lia.
    - by apply (root_pass_table t). }
  rewrite H in Heq. injection Heq as <- <- <-. intros j tb' Htb' Hm.
  destruct (lookup_lt_is_Some_2 (tables t) j) as [tb Htb]; [apply lookup_lt_Some in Htb'; lia|].
  destruct (Hel j tb tb' Htb Htb') as [->|(_ & ok' & HQ)]; [by apply Hs|]. apply HQ. by apply Hs.
Qed.

(** What a walk from the root finds in an entry of a root table. *)
Lemma ptable_mapping_entry t j tb k e x :
  wf_ptable t → tables t !! j = Some tb → tb !! k = Some e →
  ebase max_level (tbase j) k ≤ x < ebase max_level (tbase j) k + 2 ^ esh max_level →
  ptable_mapping t x = mapping_at max_level e x.
Proof.
  intros (Hlen & Hw & _) Htb He Hx. pose proof root_geometry as (?&?&?). pose proof (lookup_lt_Some _ _ _ Htb).
  assert (Hbj : base_ok root_level (tbase j)) by (apply root_base_ok; lia).
  pose proof (Hw j tb Htb) as [Hl512 _]. pose proof (lookup_lt_Some _ _ _ He). pose proof (esh_pos max_level).
  assert (Hxk : tbase j + Z.of_nat k * 2 ^ esh max_level ≤ x < tbase j + (Z.of_nat k + 1) * 2 ^ esh max_level).
  { clear -Hx. revert Hx. generalize (tbase j). intros T. unfold ebase. lia. }
  assert (Hxj : tbase j ≤ x < tbase j + 2 ^ esh root_level).
  { change (esh root_level) with (esh (S max_level)). rewrite esh_S. nia. }
  unfold ptable_mapping, ptable_attrs, mapping_at.
  rewrite (index_in_entry 0 root_level j); [|lia|apply aligned_0|lia|unfold ebase in Hxj; lia]. rewrite Htb.
  unfold tattrs_at. rewrite (index_in_entry (tbase j) max_level k); [by rewrite He|apply Hbj|apply Hbj|lia|].
  done.
Qed.

(** An update that changes the whole range leaves it on its own, *)
Lemma root_ready_splits t :
  bf_contains flags Flags.UNMAP = false → wf_ptable t → root_ready begin end_ a flags t →
  (∀ x, begin ≤ x < end_ → ptable_mapping t x ≠ target a flags) → root_splits begin end_ t.
Proof.
  intros Hu Hwf Hr Hne j tb Htb (Hm1 & Hm2 & Hm3) k e He (Hk1 & Hk2 & _). pose proof Hwf as (Hlen & Hw & _).
  pose proof root_geometry as (?&?&?). pose proof (lookup_lt_Some _ _ _ Htb).
  assert (Hbj : base_ok root_level (tbase j)) by (apply root_base_ok; lia).
  pose proof (Hw j tb Htb) as [Hl512 Hwt]. pose proof (lookup_lt_Some _ _ _ He). pose proof (esh_pos max_level).
  assert (Hbk : base_ok max_level (ebase max_level (tbase j) k)) by (apply base_ok_child; (done || lia)).
  assert (tbase j ≤ ebase max_level (tbase j) k) by (unfold ebase; lia).
  assert (Hpk : part max_level (tbase j) (prt j) k = Z.max begin (ebase max_level (tbase j) k)) by (unfold part; lia).
  apply (ready_splits end_ a flags ltac:(lia) Ha begin max_level _ e (part max_level (tbase j) (prt j) k));
    [done|done|by apply Hwt|done|lia|lia| |].
  - intros x Hx Hxr Heq. apply (Hne x Hxr). rewrite <-Heq. by eapply ptable_mapping_entry.
  - refine (Hr j tb Htb _ _ k e He _ _); rewrite ?ebase_S; unfold part in *; lia.
Qed.

(** and a range on its own can be updated with the tables there are. *)
Lemma root_splits_need t : wf_ptable t → root_splits begin end_ t → root_need t = 0%nat.
Proof.
  intros (Hlen & Hw & _) Hs. pose proof root_geometry as (?&?&?). apply sum_imap_0. intros j tb Htb.
  destruct (vis j) eqn:Hv; [|done]. apply visits_spec in Hv as [Hj Hp]. pose proof (lookup_lt_Some _ _ _ Htb).
  assert (Hbj : base_ok root_level (tbase j)) by (apply root_base_ok; lia).
  pose proof (Hw j tb Htb) as [Hl512 Hwt]. rewrite ebase_S in Hj.
  apply sum_imap_0. intros k e He. destruct (visits end_ max_level (tbase j) (prt j) k) eqn:Hv; [|done].
  apply visits_spec in Hv as [Hk Hpk]. pose proof (lookup_lt_Some _ _ _ He). pose proof (esh_pos max_level). rewrite ebase_S in Hk.
  assert (tbase j ≤ ebase max_level (tbase j) k) by (clear; generalize (tbase j); intros T; unfold ebase; pose proof (esh_pos max_level); lia).
  assert (Heq : part max_level (tbase j) (prt j) k = Z.max begin (ebase max_level (tbase j) k)) by (unfold part; lia).
  rewrite Heq in *. apply ready_need. apply splits_ready; [apply base_ok_child; (done || lia)|by apply Hwt|].
  unfold part in *. apply (Hs j tb Htb); [|done|]; split_and!; lia.
Qed.
End update.

(** ** [identity_update] *)
Definition plain_flags (flags a : Z) : Prop := flags = 0 ∧ attrs_ok a ∨ flags = Flags.UNMAP.

Lemma upd_range_ok begin end_ :
  0 ≤ pa begin < ptable_end →
  aligned 4096 (upd_begin begin) ∧ aligned 4096 (upd_end end_) ∧ 0 ≤ upd_begin begin < ptable_end ∧
  upd_end end_ ≤ ptable_end.
Proof.
  intros Hb. pose proof (Z.mod_pos_bound (pa begin) 4096 ltac:(lia)).
  pose proof (Z.mod_le (pa begin) 4096 ltac:(lia) ltac:(lia)). split_and!; [|..|unfold upd_begin; lia|unfold upd_begin; lia|unfold upd_end; lia].
  - unfold upd_begin, aligned. by rewrite Zminus_mod_idemp_r, Z.sub_diag.
  - pose proof root_end_aligned. pose proof (round_up_to_page_mult (pa end_)).
    unfold upd_end. by destruct (Z.min_spec (round_up_to_page (pa end_)) ptable_end) as [[_ ->]|[_ ->]].
Qed.

(** The two passes of an update: the first decides whether it succeeds. *)
Lemma identity_update_passes t begin end_ a flags st ok t' st' :
  plain_flags flags a → wf_ptable t → st_inv st → 0 ≤ pa begin < ptable_end →
  identity_update t begin end_ a flags st = Done (ok, t', st') →
  ∃ t1 st1, map_root t (upd_begin begin) (upd_end end_) a root_level flags st = Done (ok, t1, st1) ∧
    wf_ptable t1 ∧ st_inv st1 ∧ (∀ x, 0 ≤ x < ptable_end → ptable_mapping t1 x = ptable_mapping t x) ∧
    ptable_pages t ++ mpool_pages (st_pool st) ≡ₚ ptable_pages t1 ++ mpool_pages (st_pool st1) ∧
    if ok then root_ready (upd_begin begin) (upd_end end_) a (Z.lor flags Flags.COMMIT) t1 ∧
      ∃ st2, map_root t1 (upd_begin begin) (upd_end end_) a root_level (Z.lor flags Flags.COMMIT) st1 = Done (true, t', st2)
    else mpool_pages (st_pool st1) = [] ∧ t' = t1.
Proof.
  intros Hfl Hwf Hst Hb H. pose proof root_geometry as (?&?&?).
  destruct (upd_range_ok begin end_ Hb) as (Hal & Hend & Hb' & Hle). destruct begin as [b]. cbn [pa] in Hb.
  unfold identity_update in H. cbv zeta in H. change (S max_level) with root_level in H. rewrite root_end_eq in H.
  change (Z.min (round_up_to_page (pa_addr end_)) ptable_end) with (upd_end end_) in H.
  change (mk_paddr b) with (pa_init b) in *. rewrite clear_pa_spec in H by (split; lia).
  rewrite (Z.mod_small b) in H by lia. change (b - b mod 4096) with (upd_begin (pa_init b)) in H.
  assert (Ha0 : bf_contains flags Flags.UNMAP = false → attrs_ok a) by by destruct Hfl as [[-> ?]| ->].
  destruct (map_root_prepare (upd_begin (pa_init b)) (upd_end end_) a flags Hal Hend Hb' Hle Ha0)
    with (t := t) (st := st) as (ok1 & t1 & st1 & Heq & Hst1 & Hwf1 & Hm1 & Hp1 & Hrdy & Hex);
    [by destruct Hfl as [[-> _]| ->]|done..|].
  rewrite Heq in H. cbn [mbind exec_bind] in H. destruct ok1; cbn [negb] in H.
  2:{ injection H as <- <- <-. exists t1, st1. split_and!; auto. }
  specialize (Hrdy eq_refl). clear Hex. set (fl := Z.lor flags Flags.COMMIT) in *.
  assert (Hrdy' : root_ready (upd_begin (pa_init b)) (upd_end end_) a fl t1).
  { unfold fl. by destruct Hfl as [[-> _]| ->]. }
  destruct (map_root_commit (upd_begin (pa_init b)) (upd_end end_) a fl Hal Hend Hb' Hle)
    with (t := t1) (st := st1) as (t2 & st2 & Heq2 & _); [|..|done|done|done|].
  { unfold fl. by destruct Hfl as [[-> ?]| ->]. }
  { unfold fl. by destruct Hfl as [[-> _]| ->]. }
  rewrite Heq2 in H. cbn [mbind exec_bind negb] in H. injection H as <- <- _. exists t1, st1.
  split_and!; eauto.
Qed.

(** Enough pages for the missing tables: the update succeeds. *)
Lemma identity_update_enough t begin end_ a flags st :
  plain_flags flags a → wf_ptable t → st_inv st → 0 ≤ pa begin < ptable_end →
  (root_need (upd_begin begin) (upd_end end_) a flags t ≤ length (mpool_pages (st_pool st)))%nat →
  ∃ t' st', identity_update t begin end_ a flags st = Done (true, t', st').
Proof.
  intros Hfl Hwf Hst Hb Hn. destruct (upd_range_ok begin end_ Hb) as (Hal & Hend & Hb' & Hle).
  destruct (identity_update_spec t begin end_ a flags st) as (ok & t' & st' & Heq & _); [done..|].
  destruct ok; [by eauto|]. exfalso.
  destruct (identity_update_passes _ _ _ _ _ _ _ _ _ Hfl Hwf Hst Hb Heq) as (t1 & st1 & Hm & _ & _ & _ & Hp & Hnil & _).
  apply map_root_need in Hm; try done; try (by destruct Hfl as [[-> ?]| ->]).
  apply Permutation_length in Hp. rewrite !length_app, Hnil in Hp. cbn [fail length] in *. lia.
Qed.

(** A range on its own can always be updated. *)
Lemma splits_update t begin end_ a flags st :
  plain_flags flags a → wf_ptable t → st_inv st → 0 ≤ pa begin < ptable_end →
  root_splits (upd_begin begin) (upd_end end_) t →
  ∃ t' st', identity_update t begin end_ a flags st = Done (true, t', st').
Proof.
  intros Hfl Hwf Hst Hb Hs. apply identity_update_enough; [done..|].
  destruct (upd_range_ok begin end_ Hb) as (Hal & Hend & Hb' & Hle). rewrite root_splits_need; [lia|done..].
Qed.

(** Mapping a range to something new leaves it on its own. *)
Lemma identity_map_splits t begin end_ a st t' st' :
  attrs_ok a → wf_ptable t → st_inv st → 0 ≤ pa begin < ptable_end →
  (∀ x, upd_begin begin ≤ x < upd_end end_ → ptable_mapping t x ≠ mapped a) →
  identity_update t begin end_ a 0 st = Done (true, t', st') → root_splits (upd_begin begin) (upd_end end_) t'.
Proof.
  intros Ha Hwf Hst Hb Hne H. destruct (upd_range_ok begin end_ Hb) as (Hal & Hend & Hb' & Hle).
  destruct (identity_update_passes t begin end_ a 0 st true t' st') as (t1 & st1 & _ & Hwf1 & Hst1 & Hx1 & _ & Hr & st2 & Hm);
    [by left|done..|].
  apply map_root_splits with (b2 := upd_begin begin) (e2 := upd_end end_) in Hm; [done|done..| |by left|done|by right|done|].
  - done.
  - eapply root_ready_splits; [..|exact Hr|intros x Hx; rewrite Hx1 by lia; by apply Hne]; done.
Qed.

(** Mapping another range keeps a range on its own. *)
Lemma identity_map_keeps b2 e2 t begin end_ a st ok t' st' :
  attrs_ok a → wf_ptable t → st_inv st → 0 ≤ pa begin < ptable_end →
  apart (upd_end end_) b2 e2 (upd_begin begin) →
  identity_update t begin end_ a 0 st = Done (ok, t', st') → root_splits b2 e2 t → root_splits b2 e2 t'.
Proof.
  intros Ha Hwf Hst Hb Hap H Hs. destruct (upd_range_ok begin end_ Hb) as (Hal & Hend & Hb' & Hle).
  destruct (identity_update_passes t begin end_ a 0 st ok t' st') as (t1 & st1 & Hm1 & Hwf1 & Hst1 & Hx1 & _ & Hr);
    [by left|done..|].
  apply map_root_splits with (b2 := b2) (e2 := e2) in Hm1; [|done..|by left|done|done].
  destruct ok; [|by destruct Hr as [_ ->]]. destruct Hr as [Hr [st2 Hm]].
  apply map_root_splits with (b2 := b2) (e2 := e2) in Hm; [done|done..|by right|done|done].
Qed.

(** ** After [defrag] *)
Context {RD : ReduceCrate}.
Lemma defrag_tables_pays end_ a flags begin k ts m ts' m' :
  (bf_contains flags Flags.UNMAP = false → attrs_ok a) → (max_level ≤ 3)%nat →
  (∀ i tb, ts !! i = Some tb → base_ok root_level (ebase root_level 0 (k + i)) ∧
     wf_table max_level (ebase root_level 0 (k + i)) tb) →
  pool_inv m → defrag_tables ts m = Done (ts', m') →
  length ts' = length ts ∧
  ∀ i tb tb', ts !! i = Some tb → ts' !! i = Some tb' →
    (length (table_pages max_level tb') ≤ length (table_pages max_level tb))%nat ∧
    (need_table end_ a flags max_level (ebase root_level 0 (k + i)) tb' begin + length (table_pages max_level tb') ≤
     need_table end_ a flags max_level (ebase root_level 0 (k + i)) tb begin + length (table_pages max_level tb))%nat.
Proof.
  intros Ha Hl. revert k m ts' m'. induction ts as [|tb ts IH]; intros k m ts' m' Hw Hm H; cbn [defrag_tables] in H.
  { by injection H as <- <-. }
  apply bind_Done_inv in H as ([[rs tb1] m1] & Hd & H). apply bind_Done_inv in H as ([ts1 m2] & Hd2 & [= <- <-]).
  destruct (Hw 0%nat tb eq_refl) as [Hb Hwt].
  destruct (defrag_entries_pays end_ a flags max_level (ebase root_level 0 (k + 0)) tb m rs tb1 m1) as (Hm1 & _ & Hlen & Hel);
    [apply pte_defrag_pays; (done || lia)|done..|].
  destruct (pays_table end_ a flags max_level (ebase root_level 0 (k + 0)) tb tb1 Hlen) as [Hp Hn].
  { intros j e e' He He'. by destruct (Hel j e e' He He') as (_ & _ & _ & ?). }
  destruct (IH (S k) m1 ts1 m2) as [Hl1 Hall]; [|done|done|].
  { intros i tb0 Htb0. replace (S k + i)%nat with (k + S i)%nat by lia. by apply Hw. }
  split; [by cbn; f_equal|]. intros [|i] tb0 tb0' ??; simplify_eq/=; [split; [done|apply Hn]|].
  replace (k + S i)%nat with (S k + i)%nat by lia. by apply Hall.
Qed.

(** [defrag] returns at least the pages it makes the next update need. *)
Lemma defrag_update t begin end_ a flags st t' m :
  plain_flags flags a → wf_ptable t → st_inv st → 0 ≤ pa begin < ptable_end →
  root_splits (upd_begin begin) (upd_end end_) t → defrag t (st_pool st) = Done (t', m) →
  ∃ t2 st2, identity_update t' begin end_ a flags (with_pool st m) = Done (true, t2, st2).
Proof.
  intros Hfl Hwf Hst Hb Hs H. destruct (upd_range_ok begin end_ Hb) as (Hal & Hend & Hb' & Hle).
  pose proof root_geometry as (?&?&?).
  assert (Ha : bf_contains flags Flags.UNMAP = false → attrs_ok a) by by destruct Hfl as [[-> ?]| ->].
  destruct (defrag_spec t (st_pool st) Hwf Hst) as (t1 & m1 & Heq & Hm & Hw' & _ & Hp).
  rewrite H in Heq. injection Heq as <- <-. apply identity_update_enough; [done|done|exact Hm|done|]. cbn [with_pool st_pool].
  assert (Hz : root_need (upd_begin begin) (upd_end end_) a flags t = 0%nat) by by apply root_splits_need.
  apply Permutation_length in Hp. rewrite !length_app in Hp.
  enough (root_need (upd_begin begin) (upd_end end_) a flags t' + length (ptable_pages t') ≤
    root_need (upd_begin begin) (upd_end end_) a flags t + length (ptable_pages t))%nat by lia.
  unfold defrag in H. apply bind_Done_inv in H as ([ts' m'] & Hd & [= <- <-]).
  unfold ptable_pages, root_need. cbn [root tables]. rewrite !length_app, !sum_imap_join.
  destruct Hwf as (Hlen & Hw & _).
  assert (Hts : ∀ i tb, tables t !! i = Some tb → base_ok root_level (ebase root_level 0 (0 + i)) ∧
    wf_table max_level (ebase root_level 0 (0 + i)) tb).
  { intros i tb Htb. split; [|by apply Hw]. apply root_base_ok. apply lookup_lt_Some in Htb. lia. }
  destruct (defrag_tables_pays (upd_end end_) a flags 0 0 (tables t) (st_pool st) ts' m') as [Hl1 _]; [done..|].
  match goal with |- (?x + (?r + ?y) ≤ ?z + (?r + ?w))%nat => enough (x + y ≤ z + w)%nat by lia end.
  rewrite <-!sum_imap_add. apply sum_imap_le; [done|]. intros j tb tb' Htb Htb'.
  destruct (defrag_tables_pays (upd_end end_) a flags (part root_level 0 (upd_begin begin) j) 0 (tables t) (st_pool st) ts' m')
    as [_ Hall]; [done..|]. destruct (Hall j tb tb' Htb Htb') as [Hpg Hnd]. cbn [Nat.add] in Hnd.
  destruct (visits _ _ _ _ _); lia.
Qed.
End undo.
