(* ===== verification/MemoryManager.v ===== *)
(** * The memory manager ([MemoryManager] and the [mm_*] entry points of [mm.rs])

    The hypervisor's own stage-1 table, what its construction maps, and the
    removal of the hypervisor's memory from the table of a VM. *)
From stdpp Require Import sets.
From S2P Require Import Prelude Addr Mode Arch ArchAarch64 Mpool Mm MmSpec MmMap MmTable PageTables.

(** The symbols the linker script provides ([layout.rs]), the console's base
    address, and whether [arch_mm_init] finds a supported physical address size. *)
Record Layout := mkLayout {
  layout_text_begin : paddr_t; layout_text_end : paddr_t;
  layout_rodata_begin : paddr_t; layout_rodata_end : paddr_t;
  layout_data_begin : paddr_t; layout_data_end : paddr_t;
  layout_initrd_begin : paddr_t; layout_initrd_end : paddr_t;
  layout_fdt_begin : paddr_t;
  layout_primary_begin : paddr_t;
  PL011_BASE : Z;
  arch_mm_init : bool;
}.

Record MemoryManager := mkMemoryManager {
  hypervisor_ptable : PageTable;
  stage2_invalidate : bool;
}.

Section mm.
Context {A : ArchMM}.

(** [mm_identity_map] and [mm_identity_map_nolock]: null on failure. *)
Definition mm_identity_map (t : PageTable) (begin end_ : paddr_t) (mode : Z) (st : MmState)
    : exec (Z * PageTable * MmState) :=
  '(ok, t', st') ← identity_map (SG := Stage1) t begin end_ mode st;
  Done (if ok : bool then pa_addr begin else 0, t', st').

(** [plat_console_mm_init]: the result of the mapping is ignored. *)
Definition plat_console_mm_init (lay : Layout) (t : PageTable) (st : MmState)
    : exec (PageTable * MmState) :=
  '(_, t', st') ← mm_identity_map t (pa_init (PL011_BASE lay))
     (pa_add (pa_init (PL011_BASE lay)) PAGE_SIZE) (Z.lor (Z.lor Mode.R Mode.W) Mode.D) st;
  Done (t', st').

(** [identity_map(..).unwrap()]. *)
Definition identity_map_unwrap (t : PageTable) (begin end_ : paddr_t) (mode : Z) (st : MmState)
    : exec (PageTable * MmState) :=
  '(ok, t', st') ← identity_map (SG := Stage1) t begin end_ mode st;
  assert_then ok (Done (t', st')).

(** [MemoryManager::new].  When [arch_mm_init] fails, the early return drops the
    page table, and [Drop for PageTable] panics. *)
Definition MemoryManager_new (lay : Layout) (st : MmState)
    : exec (option MemoryManager * MmState) :=
  '(r, m) ← PageTable_new (SG := Stage1) (st_pool st);
  match r with
  | Err _ => Done (None, with_pool st m)
  | Ok t =>
      '(t, st) ← plat_console_mm_init lay t (with_pool st m);
      '(t, st) ← identity_map_unwrap t (layout_text_begin lay) (layout_text_end lay) Mode.X st;
      '(t, st) ← identity_map_unwrap t (layout_rodata_begin lay) (layout_rodata_end lay) Mode.R st;
      '(t, st) ← identity_map_unwrap t (layout_data_begin lay) (layout_data_end lay)
                   (Z.lor Mode.R Mode.W) st;
      if negb (arch_mm_init lay) then Panic
      else Done (Some (mkMemoryManager t false), st)
  end.

(** [MemoryManager::get_raw_ptable]. *)
Definition get_raw_ptable (mm : MemoryManager) : paddr_t := pa_init (root (hypervisor_ptable mm)).

(** [MemoryManager::vm_unmap_hypervisor]. *)
Definition vm_unmap_hypervisor (lay : Layout) (t : PageTable) (st : MmState)
    : exec (bool * PageTable * MmState) :=
  '(ok, t, st) ← unmap (SG := Stage2) t (layout_text_begin lay) (layout_text_end lay) st;
  if negb ok then Done (false, t, st) else
  '(ok, t, st) ← unmap (SG := Stage2) t (layout_rodata_begin lay) (layout_rodata_end lay) st;
  if negb ok then Done (false, t, st) else
  unmap (SG := Stage2) t (layout_data_begin lay) (layout_data_end lay) st.

(** [mm_vm_enable_invalidation]. *)
Definition mm_vm_enable_invalidation (st : MmState) : MmState :=
  mkMmState (st_pool st) (st_tlb st) true.

(** ** The C entry points for VM tables *)
Definition mm_vm_init (st : MmState) : exec (bool * option PageTable * MmState) :=
  '(r, m) ← PageTable_new (SG := Stage2) (st_pool st);
  Done (match r with Ok t => (true, Some t) | Err _ => (false, None) end, with_pool st m).
Definition mm_vm_fini (t : PageTable) (st : MmState) : exec MmState :=
  m ← PageTable_drop (SG := Stage2) t (st_pool st); Done (with_pool st m).
(** The third component is what is written through the [ipa] out-pointer. *)
Definition mm_vm_identity_map (t : PageTable) (begin end_ : paddr_t) (mode : Z) (st : MmState)
    : exec (bool * option ipaddr_t * PageTable * MmState) :=
  '(ok, t', st') ← identity_map (SG := Stage2) t begin end_ mode st;
  Done (ok, if ok : bool then Some (ipa_from_pa begin) else None, t', st').
Definition mm_vm_unmap (t : PageTable) (begin end_ : paddr_t) (st : MmState)
    : exec (bool * PageTable * MmState) :=
  identity_update (SG := Stage2) t begin end_
    (mode_to_attrs (Stage := Stage2) (Z.lor (Z.lor Mode.UNOWNED Mode.INVALID) Mode.SHARED))
    Flags.UNMAP st.
Definition mm_vm_get_mode (t : PageTable) (begin end_ : ipaddr_t) : exec (bool * option Z) :=
  r ← get_mode (SG := Stage2) t begin end_;
  Done (match r with Ok m => (true, Some m) | Err _ => (false, None) end).
Definition mm_ptable_addr_space_end (flags : Z) : Z :=
  if bf_contains (Flags.from_bits_truncate flags) Flags.STAGE1
  then ptable_addr_space_end (SG := Stage1) else ptable_addr_space_end (SG := Stage2).
Definition mm_ptable_init (flags : Z) (st : MmState) : exec (bool * option PageTable * MmState) :=
  assert_then (bf_contains (Flags.from_bits_truncate flags) Flags.STAGE1) (
  '(r, m) ← PageTable_new (SG := Stage1) (st_pool st);
  Done (match r with Ok t => (true, Some t) | Err _ => (false, None) end, with_pool st m)).
Context {RD : ReduceCrate}.
Definition mm_vm_defrag (t : PageTable) (st : MmState) : exec (PageTable * MmState) :=
  '(t', m) ← defrag (SG := Stage2) t (st_pool st); Done (t', with_pool st m).
Definition mm_defrag (t : PageTable) (st : MmState) : exec (PageTable * MmState) :=
  '(t', m) ← defrag (SG := Stage1) t (st_pool st); Done (t', with_pool st m).

(** ** Theorems *)
Context {L : ArchLaws A}.

(** The regions begin inside an address space that ends at [e]. *)
Definition layout_within (lay : Layout) (e : Z) : Prop :=
  0 ≤ pa (layout_text_begin lay) < e ∧ 0 ≤ pa (layout_rodata_begin lay) < e ∧
  0 ≤ pa (layout_data_begin lay) < e ∧ 0 ≤ PL011_BASE lay < e.

(** [x] is in the page-rounded region. *)
Definition in_region {SG : Stage} (b e : paddr_t) (x : Z) : Prop := upd_begin b ≤ x < upd_end e.
Definition hypervisor_region {SG : Stage} (lay : Layout) (x : Z) : Prop :=
  in_region (layout_text_begin lay) (layout_text_end lay) x ∨
  in_region (layout_rodata_begin lay) (layout_rodata_end lay) x ∨
  in_region (layout_data_begin lay) (layout_data_end lay) x.

Section vm.
#[local] Existing Instance Stage2.

Lemma unmap_step t b e st :
  wf_ptable t → st_inv st → 0 ≤ pa b < ptable_end →
  ∃ ok t' st', unmap t b e st = Done (ok, t', st') ∧
    wf_ptable t' ∧ st_inv st' ∧
    ∀ x, 0 ≤ x < ptable_end →
      (ok = true → in_region b e x → ptable_mapping t' x = None) ∧
      (ok = false ∨ ¬ in_region b e x →
       ptable_mapping t' x = ptable_mapping t x).
Proof.
  intros Hwf Hst Hb.
  destruct (identity_update_spec t b e
    (mode_to_attrs (Z.lor (Z.lor Mode.UNOWNED Mode.INVALID) Mode.SHARED)) Flags.UNMAP st)
    as (ok & t' & st' & Heq & ? & ? & _ & Hm & _); [by right|done..|].
  exists ok, t', st'. split_and!; [done..|]. intros x Hx. rewrite Hm by done.
  unfold in_region. split.
  - intros -> Hr. by rewrite bool_decide_true.
  - intros [->|Hn]; [done|]. rewrite bool_decide_false by done. by rewrite andb_false_r.
Qed.

Lemma unmap_keeps_none t b e st ok t' st' x :
  unmap t b e st = Done (ok, t', st') → wf_ptable t → st_inv st →
  0 ≤ pa b < ptable_end → 0 ≤ x < ptable_end →
  ptable_mapping t x = None → ptable_mapping t' x = None.
Proof.
  intros Heq Hwf Hst Hb Hx Hn. destruct (unmap_step t b e st Hwf Hst Hb) as (? & ? & ? & Heq' & _ & _ & Hm).
  rewrite Heq in Heq'. injection Heq' as <- <- <-. destruct (Hm x Hx) as [H1 H2].
  destruct ok; [|by rewrite H2; [|left]].
  destruct (decide (upd_begin b ≤ x < upd_end e)) as [Hd|Hd]; [by apply H1|].
  rewrite H2; [done|by right].
Qed.

(** C31: [vm_unmap_hypervisor] always returns; when it succeeds, the VM's table
    maps no address of the hypervisor's text, read-only data or data, and every
    address outside of these regions is mapped as before. *)
Theorem vm_unmap_hypervisor_correct lay t st :
  wf_ptable t → st_inv st → layout_within lay (ptable_end) →
  ∃ ok t' st', vm_unmap_hypervisor lay t st = Done (ok, t', st') ∧
    wf_ptable t' ∧ st_inv st' ∧
    ∀ x, 0 ≤ x < ptable_end →
      (ok = true → hypervisor_region lay x →
       ptable_mapping t' x = None) ∧
      (¬ hypervisor_region lay x →
       ptable_mapping t' x = ptable_mapping t x).
Proof.
  intros Hwf Hst (Ht & Hr & Hd & _). unfold vm_unmap_hypervisor, hypervisor_region.
  destruct (unmap_step t (layout_text_begin lay) (layout_text_end lay) st) as (ok1 & t1 & st1 & E1 & Hwf1 & Hst1 & Hm1); [done..|].
  rewrite E1. cbn [mbind exec_bind]. destruct ok1; cbn [negb].
  2:{ do 3 eexists. split; [done|]. split_and!; [done..|]. intros x Hx.
      destruct (Hm1 x Hx) as [_ H2]. split; [done|]. intros _. apply H2. by left. }
  destruct (unmap_step t1 (layout_rodata_begin lay) (layout_rodata_end lay) st1) as (ok2 & t2 & st2 & E2 & Hwf2 & Hst2 & Hm2); [done..|].
  rewrite E2. cbn [mbind exec_bind]. destruct ok2; cbn [negb].
  2:{ do 3 eexists. split; [done|]. split_and!; [done..|]. intros x Hx.
      destruct (Hm1 x Hx) as [_ H1], (Hm2 x Hx) as [_ H2]. split; [done|]. intros Hn.
      rewrite H2 by by left. apply H1. right. tauto. }
  destruct (unmap_step t2 (layout_data_begin lay) (layout_data_end lay) st2) as (ok3 & t3 & st3 & E3 & Hwf3 & Hst3 & Hm3); [done..|].
  exists ok3, t3, st3. split_and!; [done..|]. intros x Hx.
  destruct (Hm1 x Hx) as [I1 O1], (Hm2 x Hx) as [I2 O2], (Hm3 x Hx) as [I3 O3]. split.
  - intros -> [Hin|[Hin|Hin]]; [| |by apply I3].
    + eapply unmap_keeps_none; [done..|]. eapply unmap_keeps_none; [done..|]. by apply I1.
    + eapply unmap_keeps_none; [done..|]. by apply I2.
  - intros Hn. rewrite O3, O2, O1; tauto.
Qed.
End vm.

(** *** The hypervisor's own table *)
Section hypervisor.
#[local] Existing Instance Stage1.

(** The modes [MemoryManager::new] maps memory with. *)
Definition hypervisor_modes : list Z :=
  [Z.lor (Z.lor Mode.R Mode.W) Mode.D; Mode.X; Mode.R; Z.lor Mode.R Mode.W].
Definition only_modes (t : PageTable) : Prop :=
  wf_ptable t ∧ ∀ x a, 0 ≤ x < ptable_end → ptable_mapping t x = Some a →
    ∃ mode, mode ∈ hypervisor_modes ∧ a = mode_to_attrs mode.

Lemma identity_map_only_modes t b e mode st ok t' st' :
  mode ∈ hypervisor_modes → only_modes t → st_inv st → 0 ≤ pa b < ptable_end →
  identity_map t b e mode st = Done (ok, t', st') →
  only_modes t' ∧ st_inv st' ∧
  (ok = true → ∀ x, in_region b e x → ptable_attrs t' x = mode_to_attrs mode) ∧
  (∀ x, 0 ≤ x < ptable_end → ¬ in_region b e x → ptable_mapping t' x = ptable_mapping t x).
Proof.
  intros Hmode [Hwf Ho] Hst Hb Heq.
  destruct (identity_update_spec t b e (mode_to_attrs mode) 0 st)
    as (ok1 & t1 & st1 & Heq' & ? & ? & _ & Hm & Hat & _);
    [left; split; [done|apply stage_attrs_ok]|done..|].
  unfold identity_map in Heq. rewrite Heq in Heq'. injection Heq' as <- <- <-.
  split_and!; [split; [done|]|done|..].
  - intros x a Hx. rewrite Hm by done. destruct (_ && _); [|by apply Ho].
    cbn. unfold mapped. destruct (arch_mm_pte_is_present _ _); [|done]. intros [= <-]. eauto.
  - intros Hok x Hr. by apply Hat.
  - intros x Hx Hr. rewrite Hm by done. rewrite bool_decide_false by done.
    by rewrite andb_false_r.
Qed.

Lemma identity_map_unwrap_inv t b e mode st t' st' :
  identity_map_unwrap t b e mode st = Done (t', st') →
  identity_map t b e mode st = Done (true, t', st').
Proof.
  unfold identity_map_unwrap. intros H. apply bind_Done_inv in H as ([[ok t1] st1] & -> & H).
  destruct ok; [|done]. by injection H as <- <-.
Qed.

(** What a successful construction leaves. *)
Lemma MemoryManager_new_spec lay st mm st' :
  st_inv st → layout_within lay ptable_end →
  MemoryManager_new lay st = Done (Some mm, st') →
  only_modes (hypervisor_ptable mm) ∧ st_inv st' ∧ stage2_invalidate mm = false ∧
  (∀ x, in_region (layout_data_begin lay) (layout_data_end lay) x →
        ptable_attrs (hypervisor_ptable mm) x = mode_to_attrs (Z.lor Mode.R Mode.W)).
Proof.
  intros Hst (Ht & Hr & Hd & Hc) H. unfold MemoryManager_new in H.
  destruct (PageTable_new_spec (st_pool st) Hst) as (r & m & Hnew & Hm & Hres).
  rewrite Hnew in H. cbn [mbind exec_bind] in H. destruct r as [t0|]; [|done].
  destruct Hres as (Hwf0 & Hnone & _).
  assert (Ho0 : only_modes t0). { split; [done|]. intros x a Hx. by rewrite Hnone. }
  apply bind_Done_inv in H as ([t1 st1] & H1 & H). unfold plat_console_mm_init, mm_identity_map in H1.
  apply bind_Done_inv in H1 as ([[ptr1 t1'] st1'] & H1 & [= <- <-]).
  apply bind_Done_inv in H1 as ([[ok1 t1''] st1''] & H1 & [= _ <- <-]).
  apply identity_map_only_modes in H1 as (Ho1 & Hst1 & _); [|set_solver|done..].
  apply bind_Done_inv in H as ([t2 st2] & H2%identity_map_unwrap_inv & H).
  apply identity_map_only_modes in H2 as (Ho2 & Hst2 & _); [|set_solver|done..].
  apply bind_Done_inv in H as ([t3 st3] & H3%identity_map_unwrap_inv & H).
  apply identity_map_only_modes in H3 as (Ho3 & Hst3 & _); [|set_solver|done..].
  apply bind_Done_inv in H as ([t4 st4] & H4%identity_map_unwrap_inv & H).
  apply identity_map_only_modes in H4 as (Ho4 & Hst4 & Hat & _); [|set_solver|done..].
  destruct (arch_mm_init lay); [|done]. cbn in H. injection H as <- <-. auto.
Qed.
End hypervisor.
End mm.

(** ** Write or execute, never both, on aarch64 *)
Section wx.
Context (p : Aarch64.pa_bits).
#[local] Instance wx_arch : ArchMM := aarch64 p.
#[local] Existing Instance Stage1.

(** How the hardware reads stage-1 attributes: [AP[2]] clear is writable, [XN]
    clear is executable. *)
Definition stage1_writable (a : Z) : bool := Z.land a Aarch64.STAGE1_AP2 =? 0.
Definition stage1_executable (a : Z) : bool := Z.land a Aarch64.STAGE1_XN =? 0.

(** C32: in the address space [MemoryManager::new] builds for the hypervisor, no
    address is both writable and executable, however the linker script lays out
    the regions; and the hypervisor's data is mapped writable, not executable. *)
Theorem hypervisor_write_xor_execute lay st mm st' :
  st_inv st → layout_within lay ptable_end →
  MemoryManager_new lay st = Done (Some mm, st') →
  (∀ x a, 0 ≤ x < ptable_end → ptable_mapping (hypervisor_ptable mm) x = Some a →
     ¬ (stage1_writable a = true ∧ stage1_executable a = true)) ∧
  (∀ x, in_region (layout_data_begin lay) (layout_data_end lay) x →
     stage1_writable (ptable_attrs (hypervisor_ptable mm) x) = true ∧
     stage1_executable (ptable_attrs (hypervisor_ptable mm) x) = false).
Proof.
  intros Hst Hlay Hnew. apply MemoryManager_new_spec in Hnew as ([_ Ho] & _ & _ & Hd); [|done..].
  split.
  - intros x a Hx Ha. destruct (Ho x a Hx Ha) as (mode & Hmode & ->).
    unfold hypervisor_modes in Hmode. repeat (apply elem_of_cons in Hmode as [->|Hmode]);
      [by intros [??]..|by apply elem_of_nil in Hmode].
  - intros x Hx. by rewrite (Hd x Hx).
Qed.
End wx.

(** ** Concrete instances *)
Section demo.
#[local] Existing Instance Demo.demo_arch.
#[local] Existing Instance Demo.demo_laws.

Definition demo_layout : Layout := {|
  layout_text_begin := pa_init 0x40000000; layout_text_end := pa_init 0x40004000;
  layout_rodata_begin := pa_init 0x40004000; layout_rodata_end := pa_init 0x40005800;
  layout_data_begin := pa_init 0x40006000; layout_data_end := pa_init 0x40009000;
  layout_initrd_begin := pa_init 0x44000000; layout_initrd_end := pa_init 0x44400000;
  layout_fdt_begin := pa_init 0x43f00000;
  layout_primary_begin := pa_init 0x41000000;
  PL011_BASE := 0x9000000;
  arch_mm_init := true;
|}.

Lemma vm_unmap_hypervisor_witness :
  ∃ ok t' st', vm_unmap_hypervisor demo_layout Demo.table Demo.st = Done (ok, t', st').
Proof.
  destruct (vm_unmap_hypervisor_correct demo_layout Demo.table Demo.st) as (ok & t' & st' & H & _).
  - exact Demo.table_wf.
  - exact Demo.pool_inv_demo.
  - vm_compute. repeat split; congruence.
  - exists ok, t', st'. exact H.
Defined.

Definition demo_mm : MemoryManager * MmState :=
  match MemoryManager_new demo_layout Demo.st with
  | Done (Some mm, st) => (mm, st)
  | _ => (mkMemoryManager Demo.table true, Demo.st)
  end.
Lemma demo_mm_eq : MemoryManager_new demo_layout Demo.st = Done (Some demo_mm.1, demo_mm.2).
Proof. vm_compute. reflexivity. Qed.

Lemma hypervisor_write_xor_execute_witness :
  stage1_executable (ptable_attrs (SG := Stage1) (hypervisor_ptable demo_mm.1) 0x40006010) = false.
Proof.
  apply (hypervisor_write_xor_execute Aarch64.PA40 demo_layout Demo.st demo_mm.1 demo_mm.2).
  - exact Demo.pool_inv_demo.
  - vm_compute. repeat split; congruence.
  - exact demo_mm_eq.
  - vm_compute. split; congruence.
Defined.
End demo.
