(* ===== verification/Interrupts.v ===== *)
(** * Virtual interrupts ([Interrupts] of [cpu.rs])

    The controller of one vCPU: two bit fields over the 64 interrupt ids and a
    count that caches how many ids are both enabled and pending.  The main
    theorems: the count is always that number, [get] acknowledges the lowest
    deliverable id, and [inject] tells its caller to wake the vCPU exactly when
    the first interrupt becomes deliverable. *)
From stdpp Require Import sets.
From S2P Require Import Prelude Addr.

Definition INTERRUPT_REGISTER_BITS : Z := 32.
(** [HF_NUM_INTIDS / INTERRUPT_REGISTER_BITS] registers. *)
Definition INTERRUPT_REGISTERS : nat := Z.to_nat (HF_NUM_INTIDS / INTERRUPT_REGISTER_BITS).

Record Interrupts := mkInterrupts {
  enabled : list Z;
  pending : list Z;
  enabled_and_pending_count : Z;
}.

Definition Interrupts_new : Interrupts :=
  mkInterrupts (replicate INTERRUPT_REGISTERS 0) (replicate INTERRUPT_REGISTERS 0) 0.

(** A register; [id_to_index] keeps the index in range. *)
Definition reg (l : list Z) (i : nat) : Z := nth i l 0.

Definition id_to_index (intid : Z) : result (nat * Z) unit :=
  if HF_NUM_INTIDS <=? intid then Err tt
  else Ok (Z.to_nat (intid / INTERRUPT_REGISTER_BITS),
           Z.shiftl 1 (intid mod INTERRUPT_REGISTER_BITS)).

(** [Interrupts::inject]; the boolean is [is_ok()] of the result. *)
Definition inject (s : Interrupts) (intid : Z) : bool * Interrupts :=
  match id_to_index intid with
  | Err _ => (false, s)
  | Ok (i, mask) =>
      let old := reg (pending s) i in
      let pending' := <[i := Z.lor old mask]> (pending s) in
      if Z.land (Z.land (reg (enabled s) i) (wnot32 old)) mask =? 0
      then (false, mkInterrupts (enabled s) pending' (enabled_and_pending_count s))
      else
        let count := wrap 32 (enabled_and_pending_count s + 1) in
        (count =? 1, mkInterrupts (enabled s) pending' count)
  end.

(** [Interrupts::enable]. *)
Definition enable (s : Interrupts) (intid : Z) (on : bool) : bool * Interrupts :=
  match id_to_index intid with
  | Err _ => (false, s)
  | Ok (i, mask) =>
      let e := reg (enabled s) i in
      let p := reg (pending s) i in
      if on then
        let count := if negb (Z.land (Z.land p (wnot32 e)) mask =? 0)
                     then wrap 32 (enabled_and_pending_count s + 1)
                     else enabled_and_pending_count s in
        (true, mkInterrupts (<[i := Z.lor e mask]> (enabled s)) (pending s) count)
      else
        let count := if negb (Z.land (Z.land p e) mask =? 0)
                     then wrap 32 (enabled_and_pending_count s - 1)
                     else enabled_and_pending_count s in
        (true, mkInterrupts (<[i := Z.land e (wnot32 mask)]> (enabled s)) (pending s) count)
  end.

Definition is_interrupted (s : Interrupts) : bool := 0 <? enabled_and_pending_count s.

(** [u32::trailing_zeros]. *)
Definition trailing_zeros (x : Z) : Z :=
  default 32 (head (filter (λ k, Z.testbit x k = true) (seqZ 0 32))).

(** The [for] loop of [Interrupts::get] over the remaining register indices. *)
Fixpoint get_loop (s : Interrupts) (idx : list nat) : Z * Interrupts :=
  match idx with
  | [] => (HF_INVALID_INTID, s)
  | i :: idx =>
      let ep := Z.land (reg (enabled s) i) (reg (pending s) i) in
      if negb (ep =? 0) then
        let bit := trailing_zeros ep in
        (Z.of_nat i * INTERRUPT_REGISTER_BITS + bit,
         mkInterrupts (enabled s)
           (<[i := Z.land (reg (pending s) i) (wnot32 (Z.shiftl 1 bit))]> (pending s))
           (wrap 32 (enabled_and_pending_count s - 1)))
      else get_loop s idx
  end.
(** [Interrupts::get]. *)
Definition get (s : Interrupts) : Z * Interrupts := get_loop s (seq 0 INTERRUPT_REGISTERS).

(** ** The abstract controller *)

(** Bit [id] of a bit field. *)
Definition bit (l : list Z) (id : Z) : bool := Z.testbit (reg l (Z.to_nat (id / 32))) (id mod 32).
(** [id] is both enabled and pending. *)
Definition deliverable (s : Interrupts) (id : Z) : bool := bit (enabled s) id && bit (pending s) id.
Definition ids : list Z := seqZ 0 64.
Definition deliverable_count (s : Interrupts) : Z :=
  Z.of_nat (length (filter (λ id, deliverable s id = true) ids)).

(** Two registers of 32 bits each, and the cached count is right. *)
Definition interrupts_ok (s : Interrupts) : Prop :=
  length (enabled s) = 2%nat ∧ length (pending s) = 2%nat ∧
  Forall (in_u 32) (enabled s) ∧ Forall (in_u 32) (pending s) ∧
  enabled_and_pending_count s = deliverable_count s.

(** ** Bits *)
Lemma testbit_wnot32 x k : in_u 32 x → 0 ≤ k < 32 → Z.testbit (wnot32 x) k = negb (Z.testbit x k).
Proof.
  intros Hx Hk. unfold wnot32. change (2 ^ 32 - 1) with (Z.ones 32).
  assert (Hd : Z.ldiff x (Z.ones 32) = 0).
  { apply Z.bits_inj'. intros n Hn. rewrite Z.ldiff_spec, Z.bits_0, Z.testbit_ones by lia.
    destruct (decide (n < 32)).
    - destruct (Z.leb_spec 0 n), (Z.ltb_spec n 32); try lia; by rewrite andb_false_r.
    - by rewrite (testbit_small x 32) by (done || lia). }
  rewrite Z.sub_nocarry_ldiff by done. rewrite Z.ldiff_spec, Z.testbit_ones by lia.
  destruct (Z.leb_spec 0 k), (Z.ltb_spec k 32); try lia. done.
Qed.

Lemma mask_pow2 k : 0 ≤ k → Z.shiftl 1 k = 2 ^ k.
Proof. intros. rewrite Z.shiftl_mul_pow2 by done. lia. Qed.

Lemma in_u_pow2 k : 0 ≤ k < 32 → in_u 32 (2 ^ k).
Proof. intros. split; [lia|]. apply Z.pow_lt_mono_r; lia. Qed.

Lemma in_u_land x y : in_u 32 x → in_u 32 (Z.land x y).
Proof.
  intros Hx. apply in_u_bits; [lia| |].
  - apply Z.land_nonneg. left. apply Hx.
  - intros n Hn. by rewrite Z.land_spec, (testbit_small x 32) by (done || lia).
Qed.

Lemma reg_lookup l i : (i < length l)%nat → l !! i = Some (reg l i).
Proof.
  intros Hi. unfold reg. destruct (lookup_lt_is_Some_2 l i Hi) as [x Hx]. rewrite Hx.
  f_equal. by erewrite nth_lookup_Some.
Qed.
Lemma reg_in_u l i : Forall (in_u 32) l → (i < length l)%nat → in_u 32 (reg l i).
Proof. intros Hl Hi. eapply Forall_lookup_1; [done|by apply reg_lookup]. Qed.
Lemma reg_insert l i j x :
  (i < length l)%nat → reg (<[i := x]> l) j = if decide (i = j) then x else reg l j.
Proof.
  intros Hi. unfold reg. rewrite !nth_lookup. case_decide as Hd.
  - subst. by rewrite list_lookup_insert_eq.
  - by rewrite list_lookup_insert_ne.
Qed.

(** An id is its register and its bit. *)
Lemma id_split id : 0 ≤ id < 64 →
  (Z.to_nat (id / 32) < 2)%nat ∧ 0 ≤ id mod 32 < 32 ∧
  id = Z.of_nat (Z.to_nat (id / 32)) * 32 + id mod 32.
Proof.
  intros Hid. pose proof (Z.div_mod id 32 ltac:(lia)). pose proof (Z.mod_pos_bound id 32 ltac:(lia)).
  assert (0 ≤ id / 32 < 2) by (split; [apply Z.div_pos; lia|apply Z.div_lt_upper_bound; lia]).
  rewrite Z2Nat.id by lia. lia.
Qed.

Lemma id_split_inj id id' : 0 ≤ id < 64 → 0 ≤ id' < 64 →
  Z.to_nat (id / 32) = Z.to_nat (id' / 32) → id mod 32 = id' mod 32 → id = id'.
Proof.
  intros H H' Hi Hb. destruct (id_split id H) as (_ & _ & ->), (id_split id' H') as (_ & _ & ->).
  by rewrite Hi, Hb.
Qed.

Lemma bit_set l id id' :
  length l = 2%nat → 0 ≤ id < 64 → 0 ≤ id' < 64 →
  let i := Z.to_nat (id / 32) in
  bit (<[i := Z.lor (reg l i) (2 ^ (id mod 32))]> l) id' = bit l id' || bool_decide (id' = id).
Proof.
  intros Hl Hid Hid' i. unfold bit. destruct (id_split id Hid) as (Hi & Hm & _).
  destruct (id_split id' Hid') as (Hi' & Hm' & _).
  rewrite reg_insert by (unfold i; lia). unfold i. case_decide as Hd.
  - rewrite Z.lor_spec, Hd, Z.pow2_bits_eqb by lia. f_equal.
    destruct (Z.eqb_spec (id mod 32) (id' mod 32)) as [He|He].
    + rewrite bool_decide_true; [done|]. by apply id_split_inj.
    + rewrite bool_decide_false; [done|]. by intros ->.
  - rewrite bool_decide_false, orb_false_r; [done|]. by intros ->.
Qed.

Lemma bit_clear l id id' :
  length l = 2%nat → Forall (in_u 32) l → 0 ≤ id < 64 → 0 ≤ id' < 64 →
  let i := Z.to_nat (id / 32) in
  bit (<[i := Z.land (reg l i) (wnot32 (2 ^ (id mod 32)))]> l) id'
  = bit l id' && negb (bool_decide (id' = id)).
Proof.
  intros Hl Hu Hid Hid' i. unfold bit. destruct (id_split id Hid) as (Hi & Hm & _).
  destruct (id_split id' Hid') as (Hi' & Hm' & _).
  rewrite reg_insert by (unfold i; lia). unfold i. case_decide as Hd.
  - rewrite Z.land_spec, Hd, testbit_wnot32, Z.pow2_bits_eqb by auto using in_u_pow2 with lia.
    f_equal. f_equal. destruct (Z.eqb_spec (id mod 32) (id' mod 32)) as [He|He].
    + rewrite bool_decide_true; [done|]. by apply id_split_inj.
    + rewrite bool_decide_false; [done|]. by intros ->.
  - rewrite bool_decide_false, andb_true_r; [done|]. by intros ->.
Qed.

Lemma mask_test a b id :
  0 ≤ id → (Z.land (Z.land a b) (2 ^ (id mod 32)) =? 0)
           = negb (Z.testbit a (id mod 32) && Z.testbit b (id mod 32)).
Proof.
  intros Hid. rewrite land_pow2_eqb by (apply Z.mod_pos_bound; lia). by rewrite Z.land_spec.
Qed.

(** ** Counting *)
Lemma count_split (P Q : Z → bool) (l : list Z) id :
  NoDup l → id ∈ l → (∀ x, x ∈ l → x ≠ id → P x = Q x) →
  Z.of_nat (length (filter (λ x, P x = true) l)) + Z.b2z (Q id)
  = Z.of_nat (length (filter (λ x, Q x = true) l)) + Z.b2z (P id).
Proof.
  intros Hnd Hin Hpq. induction l as [|x l IH]; [by apply elem_of_nil in Hin|].
  apply NoDup_cons in Hnd as [Hx Hnd]. rewrite !filter_cons.
  assert (Hrest : id = x → filter (λ x, P x = true) l = filter (λ x, Q x = true) l).
  { intros ->. clear -Hpq Hx. induction l as [|y l IH]; [done|].
    apply not_elem_of_cons in Hx as [Hxy Hx]. rewrite !filter_cons, (Hpq y) by set_solver.
    by rewrite IH by set_solver. }
  destruct (decide (id = x)) as [->|Hne].
  - rewrite Hrest by done. destruct (P x), (Q x); repeat case_decide; cbn; try done; lia.
  - apply elem_of_cons in Hin as [?|Hin]; [done|].
    rewrite (Hpq x); [|set_solver|by intros ->].
    assert (Z.of_nat (length (filter (λ x, P x = true) l)) + Z.b2z (Q id)
            = Z.of_nat (length (filter (λ x, Q x = true) l)) + Z.b2z (P id)).
    { apply IH; [done..|]. intros y Hy Hyi. apply Hpq; [by right|done]. }
    case_decide; cbn; lia.
Qed.

(** Changing the controller at one id changes the number of deliverable ids by
    that id only. *)
Lemma deliverable_count_change s s' id :
  0 ≤ id < 64 → (∀ x, 0 ≤ x < 64 → x ≠ id → deliverable s' x = deliverable s x) →
  deliverable_count s' = deliverable_count s - Z.b2z (deliverable s id) + Z.b2z (deliverable s' id).
Proof.
  intros Hid Hx. unfold deliverable_count.
  pose proof (count_split (deliverable s) (deliverable s') ids id (NoDup_seqZ _ _)) as H.
  assert (Hin : id ∈ ids) by (apply elem_of_seqZ; lia).
  assert (Hpq : ∀ x, x ∈ ids → x ≠ id → deliverable s x = deliverable s' x).
  { intros x Hin'%elem_of_seqZ Hne. symmetry. apply Hx; [lia|done]. }
  specialize (H Hin Hpq). lia.
Qed.

Lemma deliverable_count_range s : 0 ≤ deliverable_count s ≤ 64.
Proof.
  unfold deliverable_count. pose proof (length_filter (λ id, deliverable s id = true) ids).
  change (length ids) with 64%nat in *. lia.
Qed.

Lemma deliverable_count_pos s id :
  0 ≤ id < 64 → deliverable s id = true → 0 < deliverable_count s.
Proof.
  intros Hid Hd. unfold deliverable_count.
  assert (id ∈ filter (λ id, deliverable s id = true) ids) as Hin.
  { apply list_elem_of_filter. split; [done|]. apply elem_of_seqZ. lia. }
  destruct (filter _ ids); [by apply elem_of_nil in Hin|]. cbn. lia.
Qed.

Lemma deliverable_count_0 s :
  deliverable_count s = 0 ↔ ∀ id, 0 ≤ id < 64 → deliverable s id = false.
Proof.
  split.
  - intros H0 id Hid. destruct (deliverable s id) eqn:Hd; [|done].
    pose proof (deliverable_count_pos s id Hid Hd). lia.
  - intros Hall. unfold deliverable_count.
    destruct (filter _ ids) as [|x l] eqn:Hf; [done|].
    assert (x ∈ x :: l) as Hin by by left. rewrite <-Hf in Hin.
    apply list_elem_of_filter in Hin as [Hx Hin%elem_of_seqZ]. rewrite Hall in Hx by lia. done.
Qed.

(** ** The operations *)
Lemma id_to_index_spec id :
  0 ≤ id → id_to_index id = if 64 <=? id then Err tt
           else Ok (Z.to_nat (id / 32), 2 ^ (id mod 32)).
Proof.
  intros. unfold id_to_index, HF_NUM_INTIDS, INTERRUPT_REGISTER_BITS.
  destruct (64 <=? id); [done|]. rewrite mask_pow2; [done|]. apply Z.mod_pos_bound. lia.
Qed.

Lemma regs_insert_ok l i x :
  length l = 2%nat → Forall (in_u 32) l → in_u 32 x →
  length (<[i := x]> l) = 2%nat ∧ Forall (in_u 32) (<[i := x]> l).
Proof. intros. split; [by rewrite length_insert|by apply Forall_insert]. Qed.

Lemma inject_spec s id :
  interrupts_ok s → 0 ≤ id < 64 →
  let '(ok, s') := inject s id in
  interrupts_ok s' ∧ enabled s' = enabled s ∧
  (∀ x, 0 ≤ x < 64 → bit (pending s') x = bit (pending s) x || bool_decide (x = id)) ∧
  ok = (deliverable_count s =? 0) && (deliverable_count s' =? 1).
Proof.
  intros (He & Hp & Heu & Hpu & Hc) Hid. unfold inject. rewrite id_to_index_spec by lia.
  destruct (Z.leb_spec 64 id); [lia|]. destruct (id_split id Hid) as (Hi & Hm & _).
  set (i := Z.to_nat (id / 32)) in *. set (P' := <[i := _]> (pending s)).
  assert (Hpu_i : in_u 32 (reg (pending s) i)) by (apply reg_in_u; [done|lia]).
  destruct (regs_insert_ok (pending s) i (Z.lor (reg (pending s) i) (2 ^ (id mod 32)))) as [Hl' Hu'];
    [done..|by apply in_u_lor; [..|apply in_u_pow2]|].
  assert (Hbits : ∀ x, 0 ≤ x < 64 → bit P' x = bit (pending s) x || bool_decide (x = id)).
  { intros x Hx. by apply bit_set. }
  assert (Hcount : ∀ c, deliverable_count (mkInterrupts (enabled s) P' c)
    = deliverable_count s + Z.b2z (bit (enabled s) id && negb (bit (pending s) id))).
  { intros c. rewrite (deliverable_count_change s _ id Hid).
    - unfold deliverable. cbn [enabled pending]. rewrite Hbits, bool_decide_true, orb_true_r by done.
      destruct (bit (enabled s) id), (bit (pending s) id); cbn; lia.
    - intros x Hx Hne. unfold deliverable. cbn [enabled pending].
      by rewrite Hbits, bool_decide_false, orb_false_r by done. }
  pose proof (deliverable_count_range s).
  rewrite mask_test, testbit_wnot32 by (done || lia).
  change (Z.testbit (reg (enabled s) i) (id mod 32)) with (bit (enabled s) id).
  change (Z.testbit (reg (pending s) i) (id mod 32)) with (bit (pending s) id).
  destruct (bit (enabled s) id && negb (bit (pending s) id)) eqn:Hnew; cbn [negb].
  - rewrite wrap_small by (unfold in_u; lia). split_and!; [|done|done|].
    + split_and!; [done..|]. cbn [enabled_and_pending_count]. rewrite Hcount. cbn. lia.
    + rewrite Hcount, Hc. cbn. destruct (Z.eqb_spec (deliverable_count s) 0) as [->|]; [done|].
      destruct (Z.eqb_spec (deliverable_count s + 1) 1); [lia|done].
  - split_and!; [|done|done|].
    + split_and!; [done..|]. cbn [enabled_and_pending_count]. rewrite Hcount. cbn. lia.
    + rewrite Hcount. cbn. destruct (Z.eqb_spec (deliverable_count s) 0) as [->|]; done.
Qed.

Lemma enable_spec s id on :
  interrupts_ok s → 0 ≤ id < 64 →
  let '(ok, s') := enable s id on in
  ok = true ∧ interrupts_ok s' ∧ pending s' = pending s ∧
  (∀ x, 0 ≤ x < 64 → bit (enabled s') x = if decide (x = id) then on else bit (enabled s) x).
Proof.
  intros (He & Hp & Heu & Hpu & Hc) Hid. unfold enable. rewrite id_to_index_spec by lia.
  destruct (Z.leb_spec 64 id); [lia|]. destruct (id_split id Hid) as (Hi & Hm & _).
  set (i := Z.to_nat (id / 32)) in *. pose proof (deliverable_count_range s).
  assert (Heu_i : in_u 32 (reg (enabled s) i)) by (apply reg_in_u; [done|lia]).
  assert (Hcount : ∀ E' c, (∀ x, 0 ≤ x < 64 → bit E' x = if decide (x = id) then on else bit (enabled s) x) →
    deliverable_count (mkInterrupts E' (pending s) c)
    = deliverable_count s - Z.b2z (bit (enabled s) id && bit (pending s) id)
      + Z.b2z (on && bit (pending s) id)).
  { intros E' c Hbits. rewrite (deliverable_count_change s _ id Hid).
    - unfold deliverable. cbn [enabled pending]. by rewrite Hbits, decide_True by done.
    - intros x Hx Hne. unfold deliverable. cbn [enabled pending].
      by rewrite Hbits, decide_False by done. }
  pose proof (deliverable_count_pos s id Hid) as Hpos. unfold deliverable in Hpos.
  destruct on; cbn [negb]; rewrite mask_test by lia; rewrite ?testbit_wnot32 by (done || lia).
  all: change (Z.testbit (reg (enabled s) i) (id mod 32)) with (bit (enabled s) id).
  all: change (Z.testbit (reg (pending s) i) (id mod 32)) with (bit (pending s) id).
  - assert (Hb : ∀ x, 0 ≤ x < 64 → bit (<[i:=Z.lor (reg (enabled s) i) (2 ^ (id mod 32))]> (enabled s)) x
      = if decide (x = id) then true else bit (enabled s) x).
    { intros x Hx. etrans; [by apply (bit_set (enabled s) id x)|]. case_decide.
      - by rewrite bool_decide_true, orb_true_r.
      - by rewrite bool_decide_false, orb_false_r. }
    destruct (regs_insert_ok (enabled s) i (Z.lor (reg (enabled s) i) (2 ^ (id mod 32)))) as [Hl' Hu'];
      [done..|by apply in_u_lor; [..|apply in_u_pow2]|].
    split_and!; [done| |done|exact Hb]. split_and!; [done..|].
    cbn [enabled_and_pending_count]. rewrite Hcount by exact Hb. rewrite Hc, negb_involutive.
    destruct (bit (enabled s) id), (bit (pending s) id); cbn; rewrite ?wrap_small; unfold in_u; lia.
  - assert (Hb : ∀ x, 0 ≤ x < 64 →
      bit (<[i:=Z.land (reg (enabled s) i) (wnot32 (2 ^ (id mod 32)))]> (enabled s)) x
      = if decide (x = id) then false else bit (enabled s) x).
    { intros x Hx. etrans; [by apply (bit_clear (enabled s) id x)|]. case_decide.
      - by rewrite bool_decide_true, andb_false_r.
      - by rewrite bool_decide_false, andb_true_r. }
    destruct (regs_insert_ok (enabled s) i (Z.land (reg (enabled s) i) (wnot32 (2 ^ (id mod 32)))))
      as [Hl' Hu']; [done..|by apply in_u_land|].
    split_and!; [done| |done|exact Hb]. split_and!; [done..|].
    cbn [enabled_and_pending_count]. rewrite Hcount by exact Hb. rewrite Hc, negb_involutive.
    destruct (bit (enabled s) id), (bit (pending s) id); cbn in *; rewrite ?wrap_small; unfold in_u;
      specialize (Hpos eq_refl) || idtac; lia.
Qed.

(** ** [get] *)
Lemma head_filter_seqZ (P : Z → bool) a n :
  0 ≤ n →
  match head (filter (λ k, P k = true) (seqZ a n)) with
  | Some k => a ≤ k < a + n ∧ P k = true ∧ ∀ j, a ≤ j < k → P j = false
  | None => ∀ j, a ≤ j < a + n → P j = false
  end.
Proof.
  intros Hn. revert a. pattern n. apply natlike_ind; [|clear n Hn|done].
  { intros a j Hj. lia. }
  intros n Hn IH a. rewrite seqZ_cons, filter_cons by lia.
  replace (Z.pred (Z.succ n)) with n by lia. case_decide as Hd; cbn.
  { split_and!; [lia|lia|done|]. intros j Hj. lia. }
  apply not_true_is_false in Hd. specialize (IH (Z.succ a)).
  destruct (head _) as [k|].
  - destruct IH as (? & ? & Hlow). split_and!; [lia|lia|done|]. intros j Hj.
    destruct (decide (j = a)) as [->|]; [done|]. apply Hlow. lia.
  - intros j Hj. destruct (decide (j = a)) as [->|]; [done|]. apply IH. lia.
Qed.

Lemma trailing_zeros_spec x :
  in_u 32 x → x ≠ 0 →
  0 ≤ trailing_zeros x < 32 ∧ Z.testbit x (trailing_zeros x) = true ∧
  ∀ j, 0 ≤ j < trailing_zeros x → Z.testbit x j = false.
Proof.
  intros Hx Hne. unfold trailing_zeros. pose proof (head_filter_seqZ (Z.testbit x) 0 32 ltac:(lia)) as H.
  destruct (head _) as [k|]; cbn.
  - destruct H as (? & ? & ?). split_and!; (done || lia).
  - destruct Hne. apply Z.bits_inj'. intros n Hn. rewrite Z.bits_0.
    destruct (decide (n < 32)); [apply H; lia|]. apply (testbit_small x 32); [done|lia].
Qed.

(** The ids of register [i] are not deliverable iff its enabled and pending bits
    are disjoint. *)
Lemma register_idle s i :
  (i < 2)%nat → interrupts_ok s → Z.land (reg (enabled s) i) (reg (pending s) i) = 0 →
  ∀ id, 0 ≤ id < 64 → Z.to_nat (id / 32) = i → deliverable s id = false.
Proof.
  intros Hi Hok H0 id Hid <-. unfold deliverable, bit. rewrite <-Z.land_spec, H0. apply Z.bits_0.
Qed.

Lemma get_register s i :
  interrupts_ok s → (i < 2)%nat → Z.land (reg (enabled s) i) (reg (pending s) i) ≠ 0 →
  let bit_index := trailing_zeros (Z.land (reg (enabled s) i) (reg (pending s) i)) in
  let id := Z.of_nat i * 32 + bit_index in
  let s' := mkInterrupts (enabled s)
    (<[i := Z.land (reg (pending s) i) (wnot32 (Z.shiftl 1 bit_index))]> (pending s))
    (wrap 32 (enabled_and_pending_count s - 1)) in
  0 ≤ id < 64 ∧ Z.to_nat (id / 32) = i ∧ deliverable s id = true ∧
  (∀ x, 0 ≤ x < id → Z.to_nat (x / 32) = i → deliverable s x = false) ∧
  interrupts_ok s' ∧
  (∀ x, 0 ≤ x < 64 → bit (pending s') x = bit (pending s) x && negb (bool_decide (x = id))).
Proof.
  intros Hok Hi Hne bi id s'. pose proof Hok as (He & Hp & Heu & Hpu & Hc).
  destruct (trailing_zeros_spec (Z.land (reg (enabled s) i) (reg (pending s) i))) as (Hb & Hbit & Hlow);
    [apply in_u_land, reg_in_u; [done|lia]|done|]. fold bi in Hb, Hbit, Hlow.
  assert (Hdiv : id / 32 = Z.of_nat i) by (symmetry; apply (Z.div_unique_pos _ _ _ bi); unfold id; lia).
  assert (Hmod : id mod 32 = bi) by (symmetry; apply (Z.mod_unique_pos _ _ (Z.of_nat i)); unfold id; lia).
  assert (Hid : 0 ≤ id < 64) by (unfold id; lia).
  assert (Hdel : deliverable s id = true).
  { unfold deliverable, bit. by rewrite Hdiv, Hmod, Nat2Z.id, <-Z.land_spec. }
  assert (Hbits : ∀ x, 0 ≤ x < 64 →
    bit (pending s') x = bit (pending s) x && negb (bool_decide (x = id))).
  { intros x Hx. cbn [s' pending]. rewrite mask_pow2 by lia. rewrite <-Hmod.
    replace i with (Z.to_nat (id / 32)) by (rewrite Hdiv; lia). by apply bit_clear. }
  split; [exact Hid|]. split_and!; [by rewrite Hdiv, Nat2Z.id|done| | |done].
  - intros x Hx Hxi. assert (Hx64 : 0 ≤ x < 64) by lia. destruct (id_split x Hx64) as (_ & Hm & Hxe).
    unfold deliverable, bit. rewrite <-Z.land_spec, Hxi. apply Hlow. rewrite Hxi in Hxe. unfold id in Hx. lia.
  - pose proof (deliverable_count_pos s id Hid Hdel). pose proof (deliverable_count_range s).
    assert (in_u 32 (2 ^ bi)) by by apply in_u_pow2.
    destruct (regs_insert_ok (pending s) i (Z.land (reg (pending s) i) (wnot32 (Z.shiftl 1 bi))))
      as [Hl' Hu']; [done..|apply in_u_land, reg_in_u; [done|lia]|].
    split_and!; [done..|]. cbn [s' enabled_and_pending_count].
    rewrite (deliverable_count_change s _ id Hid), Hdel, Hc.
    + unfold deliverable at 1. cbn [enabled]. rewrite Hbits, bool_decide_true by done. cbn.
      rewrite !andb_false_r. cbn. rewrite wrap_small; unfold in_u; lia.
    + intros x Hx Hxe. unfold deliverable. cbn [enabled]. rewrite Hbits, bool_decide_false by done.
      by rewrite andb_true_r.
Qed.

Lemma get_spec s :
  interrupts_ok s →
  let '(id, s') := get s in
  interrupts_ok s' ∧ enabled s' = enabled s ∧
  (deliverable_count s = 0 ∧ id = HF_INVALID_INTID ∧ s' = s ∨
   0 ≤ id < 64 ∧ deliverable s id = true ∧ (∀ x, 0 ≤ x < id → deliverable s x = false) ∧
   (∀ x, 0 ≤ x < 64 → bit (pending s') x = bit (pending s) x && negb (bool_decide (x = id)))).
Proof.
  intros Hok. unfold get. change (seq 0 INTERRUPT_REGISTERS) with [0%nat; 1%nat]. cbn [get_loop].
  destruct (Z.eqb_spec (Z.land (reg (enabled s) 0) (reg (pending s) 0)) 0) as [H0|H0]; cbn [negb].
  - pose proof (register_idle s 0 ltac:(lia) Hok H0) as Hidle0.
    destruct (Z.eqb_spec (Z.land (reg (enabled s) 1) (reg (pending s) 1)) 0) as [H1|H1]; cbn [negb].
    + pose proof (register_idle s 1 ltac:(lia) Hok H1) as Hidle1. split_and!; [done..|]. left.
      split_and!; [|done..]. apply deliverable_count_0. intros id Hid.
      destruct (id_split id Hid) as (Hi & _ & _).
      destruct (decide (Z.to_nat (id / 32) = 0%nat)); [by apply Hidle0|]. apply Hidle1; [done|lia].
    + destruct (get_register s 1 Hok ltac:(lia) H1) as (Hid & Hdiv & Hdel & Hlow & Hok' & Hbits).
      split_and!; [done..|]. right. split_and!; [apply Hid|apply Hid|done| |done].
      intros x Hx. assert (Hx64 : 0 ≤ x < 64) by (change INTERRUPT_REGISTER_BITS with 32 in Hx; lia).
      destruct (id_split x Hx64) as (Hi & _ & _).
      destruct (decide (Z.to_nat (x / 32) = 0%nat)); [by apply Hidle0|]. apply Hlow; [done|lia].
  - destruct (get_register s 0 Hok ltac:(lia) H0) as (Hid & Hdiv & Hdel & Hlow & Hok' & Hbits).
    split_and!; [done..|]. right. split_and!; [apply Hid|apply Hid|done| |done].
    intros x Hx. apply Hlow; [done|].
    assert (x / 32 = 0) as ->; [|done]. apply Z.div_small.
    destruct (trailing_zeros_spec (Z.land (reg (enabled s) 0) (reg (pending s) 0))) as (Hb & _ & _);
      [|done|].
    { destruct Hok as (He & _ & Heu & _). apply in_u_land, reg_in_u; [done|lia]. }
    cbn in Hx. change INTERRUPT_REGISTER_BITS with 32 in Hx. lia.
Qed.

(** ** Theorems *)

(** The calls a controller serves. *)
Inductive interrupts_step : Interrupts → Interrupts → Prop :=
| step_inject s id : 0 ≤ id → interrupts_step s (inject s id).2
| step_enable s id on : 0 ≤ id → interrupts_step s (enable s id on).2
| step_get s : interrupts_step s (get s).2.

Lemma interrupts_step_ok s s' : interrupts_step s s' → interrupts_ok s → interrupts_ok s'.
Proof.
  intros Hs Hok. destruct Hs as [s id Hid|s id on Hid|s].
  - destruct (decide (id < 64)) as [Hlt|Hge].
    + pose proof (inject_spec s id Hok ltac:(lia)) as H. destruct (inject s id). apply H.
    + unfold inject. rewrite id_to_index_spec by done. destruct (Z.leb_spec 64 id); [done|lia].
  - destruct (decide (id < 64)) as [Hlt|Hge].
    + pose proof (enable_spec s id on Hok ltac:(lia)) as H. destruct (enable s id on). apply H.
    + unfold enable. rewrite id_to_index_spec by done. destruct (Z.leb_spec 64 id); [done|lia].
  - pose proof (get_spec s Hok) as H. destruct (get s). apply H.
Qed.

Lemma interrupts_new_ok : interrupts_ok Interrupts_new.
Proof. split_and!; [done..| | |done]; repeat constructor; vm_compute; congruence. Qed.

(** C38: after any sequence of [inject], [enable] and [get] calls the cached count
    is the number of ids that are enabled and pending, so [is_interrupted]
    answers whether one exists; the count never wraps around. *)
Theorem interrupts_count_invariant s :
  rtc interrupts_step Interrupts_new s →
  enabled_and_pending_count s = deliverable_count s ∧ 0 ≤ enabled_and_pending_count s ≤ 64 ∧
  (is_interrupted s = true ↔ ∃ id, 0 ≤ id < 64 ∧ deliverable s id = true).
Proof.
  intros Hrun. assert (Hok : interrupts_ok s).
  { refine (rtc_ind_r (λ s, interrupts_ok s) Interrupts_new interrupts_new_ok _ s Hrun).
    eauto using interrupts_step_ok. }
  destruct Hok as (_ & _ & _ & _ & Hc). pose proof (deliverable_count_range s).
  split_and!; [done|lia|lia|]. unfold is_interrupted. rewrite Hc, Z.ltb_lt. split.
  - intros Hpos. destruct (decide (Exists (λ id, deliverable s id = true) ids)) as [Hex|Hno].
    + apply Exists_exists in Hex as (id & Hin & Hd). apply elem_of_seqZ in Hin. exists id. split; [lia|done].
    + assert (deliverable_count s = 0); [|lia]. apply deliverable_count_0. intros id Hid.
      apply not_true_is_false. intros Hd. apply Hno, Exists_exists. exists id. split; [|done]. apply elem_of_seqZ. lia.
  - intros (id & Hid & Hd). by eapply deliverable_count_pos.
Qed.

(** [get] acknowledges the lowest deliverable interrupt: it returns
    [HF_INVALID_INTID] and changes nothing if there is none, and otherwise the
    smallest id that is enabled and pending, clearing the pending bit of that id
    and of no other. *)
Theorem get_lowest_deliverable s :
  interrupts_ok s →
  let '(id, s') := get s in
  interrupts_ok s' ∧ enabled s' = enabled s ∧
  (deliverable_count s = 0 ∧ id = HF_INVALID_INTID ∧ s' = s ∨
   0 ≤ id < 64 ∧ deliverable s id = true ∧ (∀ x, 0 ≤ x < id → deliverable s x = false) ∧
   (∀ x, 0 ≤ x < 64 → bit (pending s') x = bit (pending s) x && negb (bool_decide (x = id)))).
Proof. apply get_spec. Qed.

(** [inject] makes the id pending and tells the caller to reschedule the
    vCPU exactly when this is the first deliverable interrupt; ids out of range
    change nothing. *)
Theorem inject_signals_first s id :
  interrupts_ok s → 0 ≤ id →
  let '(ok, s') := inject s id in
  (64 ≤ id → ok = false ∧ s' = s) ∧
  (id < 64 → interrupts_ok s' ∧ enabled s' = enabled s ∧
     (∀ x, 0 ≤ x < 64 → bit (pending s') x = bit (pending s) x || bool_decide (x = id)) ∧
     ok = (deliverable_count s =? 0) && (deliverable_count s' =? 1)).
Proof.
  intros Hok Hid. destruct (decide (id < 64)) as [Hlt|Hge].
  - pose proof (inject_spec s id Hok ltac:(lia)) as H. destruct (inject s id). split; [lia|done].
  - unfold inject. rewrite id_to_index_spec by done. destruct (Z.leb_spec 64 id); [|lia].
    split; [done|lia].
Qed.

(** ** Concrete instances *)
Definition demo_interrupts : Interrupts := (inject (enable Interrupts_new 35 true).2 35).2.
Lemma demo_interrupts_run : rtc interrupts_step Interrupts_new demo_interrupts.
Proof.
  eapply rtc_l; [apply (step_enable _ 35 true); lia|]. eapply rtc_once, step_inject. lia.
Qed.
Lemma demo_interrupts_ok : interrupts_ok demo_interrupts.
Proof. split_and!; [done..| | |done]; repeat constructor; vm_compute; congruence. Qed.

Lemma interrupts_count_witness : enabled_and_pending_count demo_interrupts = deliverable_count demo_interrupts.
Proof. apply (interrupts_count_invariant demo_interrupts), demo_interrupts_run. Defined.

Lemma get_lowest_witness : interrupts_ok (get demo_interrupts).2.
Proof.
  pose proof (get_lowest_deliverable demo_interrupts demo_interrupts_ok) as H.
  destruct (get demo_interrupts). apply H.
Defined.

Lemma inject_signals_witness : (inject demo_interrupts 64) = (false, demo_interrupts).
Proof.
  pose proof (inject_signals_first demo_interrupts 64 demo_interrupts_ok ltac:(lia)) as H.
  destruct (inject demo_interrupts 64) as [ok s']. destruct H as [H _].
  destruct (H ltac:(lia)) as [-> ->]. reflexivity.
Defined.
