(* ===== verification/Dlog.v ===== *)
(** * The log ([dlog.rs])

    Every byte of the log goes to the console and into a ring buffer of fixed size
    that a debugger reads.  The lock of the writer is a flag: [None] is a caller that
    spins until another CPU releases it.  The bytes of a formatted message are an
    argument. *)
From S2P Require Import Prelude.

Module Dlog.
Definition DLOG_BUFFER_SIZE : Z := 8192.

(** The statics of the module, and the bytes given to [plat_console_putchar]. *)
Record t := mk {
  dlog_buffer : list Z;
  dlog_buffer_offset : Z;
  DLOG_LOCK_ENABLED : bool;
  WRITER : bool;
  console : list Z;
}.
Definition init : t := mk (replicate (Z.to_nat DLOG_BUFFER_SIZE) 0) 0 false false [].
Definition set_writer (b : bool) (d : t) : t :=
  mk (dlog_buffer d) (dlog_buffer_offset d) (DLOG_LOCK_ENABLED d) b (console d).

Definition dlog_putchar (c : Z) (d : t) : exec t :=
  buf ← array_set (dlog_buffer d) (dlog_buffer_offset d) c;
  Done (mk buf (wrap 64 (dlog_buffer_offset d + 1) mod DLOG_BUFFER_SIZE) (DLOG_LOCK_ENABLED d) (WRITER d) (console d ++ [c])).

Fixpoint write_str (s : list Z) (d : t) : exec t :=
  match s with
  | [] => Done d
  | byte :: s => d ← dlog_putchar byte d; write_str s d
  end.

(** [WRITER.lock()] and the release of its guard. *)
Definition writer_lock (d : t) : option t := if WRITER d then None else Some (set_writer true d).

(** [_print] of the formatted bytes. *)
Definition print (s : list Z) (d : t) : exec (option t) :=
  match writer_lock d with
  | None => Done None
  | Some d => d ← write_str s d; Done (Some (set_writer false d))
  end.

Definition dlog_enable_lock (d : t) : t :=
  mk (dlog_buffer d) (dlog_buffer_offset d) true (WRITER d) (console d).
Definition dlog_lock (d : t) : option t := if DLOG_LOCK_ENABLED d then writer_lock d else Some d.
Definition dlog_unlock (d : t) : t := if DLOG_LOCK_ENABLED d then set_writer false d else d.

(** ** What the buffer holds *)

(** The bytes of the ring, the oldest first. *)
Definition ring (d : t) : list Z :=
  drop (Z.to_nat (dlog_buffer_offset d)) (dlog_buffer d) ++ take (Z.to_nat (dlog_buffer_offset d)) (dlog_buffer d).
Definition ok (d : t) : Prop :=
  length (dlog_buffer d) = Z.to_nat DLOG_BUFFER_SIZE ∧ 0 ≤ dlog_buffer_offset d < DLOG_BUFFER_SIZE.
(** The last bytes of the size of the buffer. *)
Definition last_bytes (l : list Z) : list Z := drop (length l - Z.to_nat DLOG_BUFFER_SIZE) l.
(** [d'] is [d] after the bytes [s]. *)
Definition logged (d : t) (s : list Z) (d' : t) : Prop :=
  ok d' ∧ ring d' = last_bytes (ring d ++ s) ∧ console d' = console d ++ s ∧ DLOG_LOCK_ENABLED d' = DLOG_LOCK_ENABLED d ∧ WRITER d' = WRITER d.

Lemma init_ok : ok init.
Proof. split; [apply length_replicate|done]. Qed.
Lemma length_ring d : ok d → length (ring d) = Z.to_nat DLOG_BUFFER_SIZE.
Proof. intros [Hl Ho]. unfold ring. rewrite length_app, length_drop, length_take, Hl. lia. Qed.
Lemma last_bytes_all l : length l = Z.to_nat DLOG_BUFFER_SIZE → last_bytes l = l.
Proof. intros H. unfold last_bytes. by rewrite H, Nat.sub_diag, drop_0. Qed.
Lemma last_bytes_app l s s' :
  length l = Z.to_nat DLOG_BUFFER_SIZE → last_bytes (last_bytes (l ++ s) ++ s') = last_bytes (l ++ s ++ s').
Proof.
  intros Hl. unfold last_bytes. rewrite !length_app, length_drop, length_app, Hl.
  replace (Z.to_nat DLOG_BUFFER_SIZE + length s - Z.to_nat DLOG_BUFFER_SIZE)%nat with (length s) by lia.
  rewrite !app_assoc, <-(drop_app_le (l ++ s) s' (length s)) by (rewrite length_app; lia).
  rewrite drop_drop. f_equal. lia.
Qed.
Lemma logged_refl d : ok d → logged d [] d.
Proof. intros Hd. split_and!; [done| |by rewrite app_nil_r|done..]. rewrite app_nil_r, last_bytes_all; [done|by apply length_ring]. Qed.
Lemma logged_trans d s d' s' d'' : ok d → logged d s d' → logged d' s' d'' → logged d (s ++ s') d''.
Proof.
  intros Hd (Hok & Hr & Hc & Hl & Hw) (Hok' & Hr' & Hc' & Hl' & Hw'). split_and!; [done| |by rewrite Hc', Hc, app_assoc|congruence..].
  by rewrite Hr', Hr, last_bytes_app by (by apply length_ring).
Qed.

(** One byte: the oldest is overwritten. *)
Lemma putchar_spec c d : ok d → ∃ d', dlog_putchar c d = Done d' ∧ logged d [c] d'.
Proof.
  intros Hd. pose proof Hd as [Hl Ho]. unfold DLOG_BUFFER_SIZE in *. unfold dlog_putchar. rewrite array_set_ok by lia. cbn [mbind exec_bind].
  eexists. split; [done|]. set (o := dlog_buffer_offset d) in *. set (buf := dlog_buffer d) in *.
  rewrite wrap_small by (split; lia). assert (Hm : 0 ≤ (o + 1) mod 8192 < 8192) by (apply Z.mod_pos_bound; lia).
  split_and!; [split; [by cbn; rewrite length_insert|done]| |done..].
  unfold last_bytes. rewrite length_app, length_ring by done. cbn [length]. unfold DLOG_BUFFER_SIZE.
  replace (Z.to_nat 8192 + 1 - Z.to_nat 8192)%nat with 1%nat by lia.
  unfold ring. cbn [dlog_buffer dlog_buffer_offset]. fold o buf.
  destruct (lookup_lt_is_Some_2 buf (Z.to_nat o)) as [x Hx]; [lia|].
  rewrite (drop_S buf x) by done. cbn [app drop]. rewrite <-app_assoc. rewrite insert_take_drop by lia.
  assert (Htk : length (take (Z.to_nat o) buf) = Z.to_nat o) by (rewrite length_take; lia).
  destruct (decide (o = 8191)) as [E|E].
  - rewrite E. rewrite Z_mod_same_full. cbn [Z.to_nat]. rewrite drop_0, take_0, app_nil_r. rewrite <-E.
    rewrite (drop_ge buf) by lia. done.
  - rewrite Z.mod_small by lia. replace (Z.to_nat (o + 1)) with (length (take (Z.to_nat o) buf) + 1)%nat by lia.
    rewrite drop_app_add, take_app_add. cbn [drop take]. by rewrite drop_0.
Qed.
Lemma write_str_spec s d : ok d → ∃ d', write_str s d = Done d' ∧ logged d s d'.
Proof.
  revert d. induction s as [|c s IH]; intros d Hd; cbn [write_str].
  - exists d. split; [done|]. by apply logged_refl.
  - destruct (putchar_spec c d Hd) as (d1 & -> & H1). cbn [mbind exec_bind]. destruct (IH d1) as (d2 & -> & H2); [apply H1|].
    exists d2. split; [done|]. by apply (logged_trans d [c] d1).
Qed.

(** ** Sequences of operations *)
Inductive op := Print (s : list Z) | Putchar (c : Z) | Enable | Lock | Unlock.
#[global] Instance op_eq_dec : EqDecision op.
Proof. solve_decision. Defined.
Definition run_op (o : op) (d : t) : exec (option t) :=
  match o with
  | Print s => print s d
  | Putchar c => d ← dlog_putchar c d; Done (Some d)
  | Enable => Done (Some (dlog_enable_lock d))
  | Lock => Done (dlog_lock d)
  | Unlock => Done (Some (dlog_unlock d))
  end.
(** Stops at an operation that spins. *)
Fixpoint run (ops : list op) (d : t) : exec (option t) :=
  match ops with
  | [] => Done (Some d)
  | o :: ops => r ← run_op o d; match r with None => Done None | Some d => run ops d end
  end.
Definition bytes_of (o : op) : list Z := match o with Print s => s | Putchar c => [c] | _ => [] end.
Definition written (ops : list op) : list Z := mjoin (bytes_of <$> ops).

(** The bytes only; the locks may change. *)
Definition shows (d : t) (s : list Z) (d' : t) : Prop := ok d' ∧ ring d' = last_bytes (ring d ++ s) ∧ console d' = console d ++ s.
Lemma shows_nil d d' :
  ok d → dlog_buffer d' = dlog_buffer d → dlog_buffer_offset d' = dlog_buffer_offset d → console d' = console d → shows d [] d'.
Proof.
  intros Hd Hb Ho Hc. assert (Hr : ring d' = ring d) by (unfold ring; by rewrite Hb, Ho). unfold shows. rewrite Hr, Hc, !app_nil_r.
  split_and!; [unfold ok; by rewrite Hb, Ho| |done]. by rewrite last_bytes_all by (by apply length_ring).
Qed.
Lemma run_op_spec o d :
  ok d → ∃ r, run_op o d = Done r ∧ (WRITER d = false → r ≠ None) ∧
    ∀ d', r = Some d' → shows d (bytes_of o) d' ∧ (WRITER d = false → o ≠ Lock → WRITER d' = false).
Proof.
  intros Hd. destruct o as [s|c| | |]; cbn [run_op bytes_of].
  - unfold print, writer_lock. destruct (WRITER d) eqn:Hw; [by eexists|].
    destruct (write_str_spec s (set_writer true d)) as (d1 & -> & H1 & Hr & Hc & _); [done|]. eexists. split; [done|]. split; [done|].
    intros d' [= <-]. done.
  - destruct (putchar_spec c d Hd) as (d1 & -> & H1 & Hr & Hc & _ & Hw). eexists. split; [done|]. split; [done|]. intros d' [= <-].
    split; [done|]. by rewrite Hw.
  - eexists. split; [done|]. split; [done|]. intros d' [= <-]. split; [by apply shows_nil|done].
  - eexists. split; [done|]. unfold dlog_lock, writer_lock. destruct (DLOG_LOCK_ENABLED d), (WRITER d) eqn:Hw; (split; [done|]); intros d' E; simplify_eq.
    all: split; [by apply shows_nil|done].
  - eexists. split; [done|]. split; [done|]. intros d' [= <-]. unfold dlog_unlock. destruct (DLOG_LOCK_ENABLED d); (split; [by apply shows_nil|done]).
Qed.
Lemma run_spec ops d :
  ok d → ∃ r, run ops d = Done r ∧ (WRITER d = false → Lock ∉ ops → r ≠ None) ∧ ∀ d', r = Some d' → shows d (written ops) d'.
Proof.
  revert d. induction ops as [|o ops IH]; intros d Hd; cbn [run].
  { eexists. split; [done|]. split; [done|]. intros d' [= <-]. by apply shows_nil. }
  destruct (run_op_spec o d Hd) as (r & -> & Hn & Hs). cbn [mbind exec_bind]. destruct r as [d1|].
  2:{ eexists. split; [done|]. split; [|done]. intros Hw _. by apply Hn. }
  destruct (Hs d1 eq_refl) as [(Hd1 & Hr1 & Hc1) Hw1]. destruct (IH d1 Hd1) as (r & -> & Hn' & Hs'). exists r. split; [done|]. split.
  - intros Hw Hin. rewrite not_elem_of_cons in Hin. apply Hn'; [|tauto]. apply Hw1; [done|]. naive_solver.
  - intros d' Hr. destruct (Hs' d' Hr) as (Hd' & Hr' & Hc'). split_and!; [done| |].
    + rewrite Hr', Hr1, last_bytes_app by (by apply length_ring). done.
    + rewrite Hc', Hc1, <-app_assoc. done.
Qed.

(** C39: through any sequence of messages, single bytes and lock operations, the log
    never panics; it stops only at a caller that finds the lock taken, which needs an
    explicit [dlog_lock]; the console has received all bytes in order and the ring
    buffer, read from its offset, holds the last 8192 of them (zeros before the first
    ones). *)
Theorem dlog_ring_correct (ops : list op) :
  ∃ r, run ops init = Done r ∧ (Lock ∉ ops → is_Some r) ∧
    ∀ d, r = Some d → console d = written ops ∧
      ring d = last_bytes (replicate (Z.to_nat DLOG_BUFFER_SIZE) 0 ++ written ops).
Proof.
  destruct (run_spec ops init init_ok) as (r & Hr & Hn & Hs). exists r. split; [done|]. split.
  - intros Hl. specialize (Hn eq_refl Hl). destruct r; [by eexists|done].
  - intros d Hd. destruct (Hs d Hd) as (_ & Hring & Hc). split; [done|]. rewrite Hring. unfold ring at 1. cbn [init dlog_buffer dlog_buffer_offset Z.to_nat].
    by rewrite drop_0, take_0, app_nil_r.
Qed.
End Dlog.
