(* ===== verification/Stage2Modes.v ===== *)
(** * What a VM may do with its memory: the stage-2 view of a page table (aarch64)

    The code above the page tables reasons about modes, not descriptors.  Here the
    mapping of an address is read as a mode: [None] when the VM neither owns the
    page nor has access to it, which the descriptors represent in several ways.
    The operations of [Mm] are restated on modes for the callers: sharing,
    mailboxes and page faults. *)
From S2P Require Import Prelude Addr Mode Arch ArchAarch64 Mpool Mm MmSpec MmMap MmTable MmQuery PageTables.

(** The page of an address. *)
Definition page_of (x : Z) : Z := x - x mod 4096.

(** The walk for an address only looks at its page. *)
Section walk.
Context {A : ArchMM} {SG : Stage}.

Lemma index_page x y l : 0 ≤ x → 0 ≤ y → page_of x = page_of y → index x l = index y l.
Proof.
  intros Hx Hy Hp. apply Nat2Z.inj. rewrite !index_spec by done. f_equal. unfold esh.
  rewrite Z.pow_add_r by lia. rewrite <-!Z.div_div by lia. f_equal. unfold page_of in Hp.
  change (2 ^ 12) with 4096.
  pose proof (Z.div_mod x 4096 ltac:(lia)). pose proof (Z.div_mod y 4096 ltac:(lia)). lia.
Qed.

Lemma attrs_at_page l e x y : 0 ≤ x → 0 ≤ y → page_of x = page_of y → attrs_at l e x = attrs_at l e y.
Proof.
  intros Hx Hy Hp. revert e. induction l as [|l IH]; intros [v|p es]; cbn [attrs_at]; try done.
  rewrite (index_page x y) by done. destruct (es !! _); [apply IH|done].
Qed.

Lemma ptable_attrs_page t x y :
  0 ≤ x → 0 ≤ y → page_of x = page_of y → ptable_attrs t x = ptable_attrs t y.
Proof.
  intros Hx Hy Hp. unfold ptable_attrs, tattrs_at. rewrite !(index_page x y) by done.
  destruct (tables t !! _); [|done]. destruct (_ !! _); [|done]. by apply attrs_at_page.
Qed.
End walk.

(** The mode an attribute word stands for. *)
Definition mode_of (a : Z) : Z := Mode.from_bits_truncate (Aarch64.stage2_attrs_to_mode a).
(** Neither owned nor accessible. *)
Definition no_access (m : Z) : bool := bf_contains m (Z.lor Mode.INVALID Mode.UNOWNED).
(** A mode without its redundant representations. *)
Definition norm (m : Z) : option Z := if no_access m then None else Some m.

Lemma testbit_lor_if (b : bool) m k n :
  0 ≤ k → Z.testbit (if b then Z.lor m (2 ^ k) else m) n = Z.testbit m n || (b && (n =? k)).
Proof.
  intros Hk. destruct b; cbn; [|by rewrite orb_false_r]. rewrite Z.lor_spec.
  destruct (Z.eqb_spec n k) as [->|Hne].
  - by rewrite Z.pow2_bits_true by lia.
  - by rewrite Z.pow2_bits_false by lia.
Qed.

(** The state bits of the mode are the complement of those of the descriptor. *)
Lemma mode_of_bit a n :
  0 ≤ n < 7 →
  Z.testbit (mode_of a) n =
    match n with
    | 0 => Z.testbit a 6 | 1 => Z.testbit a 7
    | 2 => negb (Z.testbit a 53 || Z.testbit a 54)
    | 4 => negb (Z.testbit a 0) | 5 => negb (Z.testbit a 55) | 6 => negb (Z.testbit a 56)
    | _ => false
    end.
Proof.
  intros Hn. unfold mode_of, Mode.from_bits_truncate. rewrite Z.land_spec.
  assert (Hall : Z.testbit Mode.all n = true).
  { change Mode.all with (Z.ones 7). apply Z.ones_spec_low. lia. }
  rewrite Hall, andb_true_r. unfold Aarch64.stage2_attrs_to_mode, Aarch64.nz. cbv zeta.
  change Mode.INVALID with (2 ^ 4). change Mode.UNOWNED with (2 ^ 5). change Mode.SHARED with (2 ^ 6).
  change Mode.X with (2 ^ 2). change Mode.W with (2 ^ 1).
  rewrite !testbit_lor_if by lia.
  change (Aarch64.STAGE2_S2AP Aarch64.STAGE2_ACCESS_READ) with (2 ^ 6).
  change (Aarch64.STAGE2_S2AP Aarch64.STAGE2_ACCESS_WRITE) with (2 ^ 7).
  change Aarch64.STAGE2_SW_OWNED with (2 ^ 55). change Aarch64.STAGE2_SW_EXCLUSIVE with (2 ^ 56).
  change Aarch64.PTE_VALID with (2 ^ 0). rewrite !land_pow2_eqb, !negb_involutive by lia.
  assert (Hx : (Z.land a (Aarch64.STAGE2_XN Aarch64.STAGE2_EXECUTE_MASK)
                =? Aarch64.STAGE2_XN Aarch64.STAGE2_EXECUTE_ALL)
               = negb (Z.testbit a 53 || Z.testbit a 54)).
  { change (Aarch64.STAGE2_XN Aarch64.STAGE2_EXECUTE_ALL) with 0.
    change (Aarch64.STAGE2_XN Aarch64.STAGE2_EXECUTE_MASK) with (Z.lor (2 ^ 53) (2 ^ 54)).
    rewrite Z.land_lor_distr_r. rewrite negb_orb.
    rewrite <-!land_pow2_eqb by lia. apply eq_iff_eq_true.
    by rewrite andb_true_iff, !Z.eqb_eq, Z.lor_eq_0_iff. }
  rewrite Hx.
  assert (n = 0 ∨ n = 1 ∨ n = 2 ∨ n = 3 ∨ n = 4 ∨ n = 5 ∨ n = 6) as Hc by lia.
  destruct Hc as [->|[->|[->|[->|[->|[->| ->]]]]]]; cbn -[Z.testbit];
    destruct (Z.testbit a 6); cbn -[Z.testbit];
    rewrite ?andb_false_r, ?andb_true_r, ?orb_false_r; done.
Qed.

Lemma bf_contains_2 m i j :
  0 ≤ i → 0 ≤ j → bf_contains m (Z.lor (2 ^ i) (2 ^ j)) = Z.testbit m i && Z.testbit m j.
Proof.
  intros Hi Hj. unfold bf_contains. apply eq_iff_eq_true. rewrite Z.eqb_eq, andb_true_iff. split.
  - intros H. split.
    + apply (f_equal (λ z, Z.testbit z i)) in H. rewrite Z.land_spec, Z.lor_spec, Z.pow2_bits_true in H by lia.
      cbn in H. by rewrite andb_true_r in H.
    + apply (f_equal (λ z, Z.testbit z j)) in H. rewrite Z.land_spec, Z.lor_spec, (Z.pow2_bits_true j) in H by lia.
      rewrite orb_true_r, andb_true_r in H. done.
  - intros [H1 H2]. apply Z.bits_inj'. intros n Hn. rewrite Z.land_spec, Z.lor_spec.
    destruct (decide (n = i)) as [->|]; [by rewrite H1|].
    destruct (decide (n = j)) as [->|]; [by rewrite H2|].
    by rewrite !Z.pow2_bits_false, andb_false_r by lia.
Qed.

Lemma no_access_bits m : no_access m = Z.testbit m 4 && Z.testbit m 5.
Proof. apply (bf_contains_2 m 4 5); lia. Qed.

(** ** The view of one VM *)
Section view.
Context (p : Aarch64.pa_bits).
#[local] Hint Extern 0 ArchMM => exact (aarch64 p) : typeclass_instances.
#[local] Hint Extern 0 Stage => exact (@Stage2 (aarch64 p)) : typeclass_instances.
#[local] Hint Extern 0 (ArchLaws _) => exact (aarch64_laws p) : typeclass_instances.

Definition vm_mode (t : PageTable) (x : Z) : option Z := mode_of <$> ptable_mapping t x.
Definition vm_end : Z := ptable_end.

Lemma mapped_norm a : mode_of <$> mapped a = norm (mode_of a).
Proof.
  unfold mapped, norm. rewrite no_access_bits, !mode_of_bit by lia.
  change (arch_mm_pte_is_present a 0) with (Aarch64.pte_is_present a 0).
  unfold Aarch64.pte_is_present, Aarch64.pte_is_valid, Aarch64.nz.
  change Aarch64.PTE_VALID with (2 ^ 0). change Aarch64.STAGE2_SW_OWNED with (2 ^ 55).
  rewrite !land_pow2_eqb, !negb_involutive by lia.
  by destruct (Z.testbit a 0), (Z.testbit a 55).
Qed.

Lemma vm_mode_attrs t x : vm_mode t x = norm (mode_of (ptable_attrs t x)).
Proof. apply mapped_norm. Qed.

(** The pages a table and a pool own together. *)
Definition owned_pages (t : PageTable) (st : MmState) : list Z := ptable_pages t ++ mpool_pages (st_pool st).

(** The range a mapping call changes. *)
Definition upd_range (b e : paddr_t) (x : Z) : Prop := upd_begin b ≤ x < upd_end e.

Lemma identity_map_modes t b e mode st :
  wf_ptable t → st_inv st → stage2_mode mode → 0 ≤ pa b < vm_end →
  ∃ ok t' st', identity_map t b e mode st = Done (ok, t', st') ∧ wf_ptable t' ∧ st_inv st' ∧
    owned_pages t st ≡ₚ owned_pages t' st' ∧
    (∀ x, 0 ≤ x < vm_end →
       vm_mode t' x = if ok && bool_decide (upd_range b e x) then norm mode else vm_mode t x) ∧
    (ok = false → mpool_pages (st_pool st') = []).
Proof.
  intros Hwf Hst Hm Hb.
  destruct (identity_update_spec t b e (mode_to_attrs mode) 0 st)
    as (ok & t' & st' & Heq & ? & ? & ? & Hx & _ & ?); [left; split; [done|apply stage_attrs_ok]|done..|].
  exists ok, t', st'. split_and!; [done..| |done]. intros x Hr. unfold vm_mode. rewrite Hx by done.
  unfold upd_range. destruct (ok && _); [|done].
  change (0 =? Flags.UNMAP) with false. cbv iota. rewrite mapped_norm. unfold mode_to_attrs, Stage2.
  unfold mode_of. change (arch_mm_mode_to_stage2_attrs mode) with (Aarch64.mode_to_stage2_attrs mode).
  by rewrite stage2_mode_attrs.
Qed.

Lemma mode_of_stage2 a : stage2_mode (mode_of a).
Proof.
  split; [|rewrite mode_of_bit by lia; done].
  unfold mode_of, Mode.from_bits_truncate. change Mode.all with (Z.ones 7).
  rewrite Z.land_ones by lia. apply Z.mod_pos_bound. lia.
Qed.

(** [get_mode] of a page-aligned range. *)
Lemma get_mode_modes t b e :
  wf_ptable t → in_u 64 (ipa b) → in_u 64 (ipa e) → aligned 4096 (ipa b) → aligned 4096 (ipa e) →
  ∃ r, get_mode t b e = Done r ∧
    ∀ m, r = Ok m →
      ipa b < ipa e ≤ vm_end ∧ stage2_mode m ∧
      ∀ x, ipa b ≤ x < ipa e → mode_of (ptable_attrs t x) = m ∧ vm_mode t x = norm m.
Proof.
  intros Hwf Hb He Hba Hea. unfold get_mode, ipa_addr.
  destruct (get_attrs_spec t (ipa b) (ipa e)) as (r & -> & Hr); [done..|].
  rewrite round_up_to_page_aligned in Hr by done.
  unfold aligned in Hba. rewrite Hba, Z.sub_0_r in Hr. destruct r as [a|]; cbn.
  - eexists. split; [done|]. intros m [= <-]. destruct (Hr a) as [[Hbe Hx] _]; [done|].
    fold (mode_of a). split_and!; [apply Hbe..|apply mode_of_stage2|].
    intros x Hxr. rewrite vm_mode_attrs, Hx by done. done.
  - eexists. split; [done|]. intros m. done.
Qed.
End view.
Arguments vm_mode : clear implicits.
Arguments vm_end : clear implicits.
