(* ===== verification/Access.v ===== *)
(** * The hypervisor's own loads and stores

    The hypervisor runs behind its own stage-1 page table and with alignment checks
    on ([mm_sctlr_el2] of [src/arch/aarch64/mm.c] sets M and A).  An access to an address
    the table does not map, a write where it maps read-only, and a misaligned access
    are exceptions of EL2, which print and panic: the definitions of the code assert
    that its accesses to memory outside of its image are none of these. *)
From S2P Require Import Prelude Addr Mode Arch ArchAarch64 Mpool Mm MmSpec MmMap MmTable MmQuery PageTables Stage2Modes.

Section access.
Context {A : ArchMM}.

(** The page of [x] is mapped, and writable if [w]. *)
Definition el2_page (hp : PageTable) (w : bool) (x : Z) : bool :=
  let a := ptable_attrs (SG := Stage1) hp x in
  (0 <=? x) && (x <? ptable_addr_space_end (SG := Stage1)) && arch_mm_pte_is_valid a 0 && (negb w || el2_writable a).
(** The pages of the [n] bytes from [a] on. *)
Definition pages_of (a n : Z) : list Z :=
  if n <=? 0 then [] else (λ k, k * PAGE_SIZE) <$> seqZ (a / PAGE_SIZE) ((a + n - 1) / PAGE_SIZE - a / PAGE_SIZE + 1).
Definition el2_reads (hp : PageTable) (a n : Z) : bool := forallb (el2_page hp false) (pages_of a n).
Definition el2_writes (hp : PageTable) (a n : Z) : bool := forallb (el2_page hp true) (pages_of a n).

(** An access within one page. *)
Lemma pages_of_one P a n : aligned 4096 P → P ≤ a → a + n ≤ P + 4096 → Forall (λ x, x = P) (pages_of a n).
Proof.
  intros HP Ha Hn. unfold pages_of. destruct (Z.leb_spec n 0); [by apply Forall_nil_2|]. rewrite PAGE_SIZE_val.
  apply aligned_exists in HP as [q ->]; [|lia].
  assert (a / 4096 = q) as -> by (symmetry; apply (Z.div_unique _ _ _ (a - q * 4096)); lia).
  assert ((a + n - 1) / 4096 = q) as -> by (symmetry; apply (Z.div_unique _ _ _ (a + n - 1 - q * 4096)); lia).
  replace (q - q + 1) with 1 by lia. cbn. apply Forall_singleton. lia.
Qed.
Lemma el2_one P hp w a n :
  aligned 4096 P → P ≤ a → a + n ≤ P + 4096 → el2_page hp w P = true → forallb (el2_page hp w) (pages_of a n) = true.
Proof.
  intros HP Ha Hn Hp. pose proof (pages_of_one P a n HP Ha Hn) as H. apply forallb_forall. intros x Hx%list_elem_of_In.
  rewrite Forall_forall in H. by rewrite (H x Hx).
Qed.
Lemma el2_page_read hp w P : el2_page hp w P = true → el2_page hp false P = true.
Proof. unfold el2_page. cbn [negb orb]. rewrite andb_true_r. by intros [? _]%andb_true_iff. Qed.
Lemma el2_none hp w a n : n ≤ 0 → forallb (el2_page hp w) (pages_of a n) = true.
Proof. intros Hn. unfold pages_of. by rewrite (proj2 (Z.leb_le _ _) Hn). Qed.
End access.
