(* ===== verification/Memory.v ===== *)
(** * Memory and the byte functions of [std.rs]

    Memory is a function from physical addresses to bytes.  The parsers of the boot
    path and the message code read structures from it byte by byte; the [_s]
    functions and the string functions of [std.rs], and [strcmp] of
    [arch/aarch64/std.c], are defined on it.  A string constant is its list of
    bytes. *)
From S2P Require Import Prelude.

(** ** Memory *)
Abbreviation Mem := (Z → Z).
Definition rd16 (mem : Mem) (a : Z) : Z := mem a + 2 ^ 8 * mem (a + 1).
Definition rd32 (mem : Mem) (a : Z) : Z := rd16 mem a + 2 ^ 16 * rd16 mem (a + 2).
Definition rd64 (mem : Mem) (a : Z) : Z := rd32 mem a + 2 ^ 32 * rd32 mem (a + 4).
(** Byte [i] of a little-endian value. *)
Definition le_byte (v : Z) (i : Z) : Z := (v / 2 ^ (8 * i)) mod 2 ^ 8.
Definition wr (n : Z) (mem : Mem) (a v : Z) : Mem :=
  λ x, if bool_decide (a ≤ x < a + n) then le_byte v (x - a) else mem x.
(** [ptr::copy_nonoverlapping] of [n] bytes and [ptr::write_bytes]. *)
Definition memcpy (mem : Mem) (dst src n : Z) : Mem :=
  λ x, if bool_decide (dst ≤ x < dst + n) then mem (src + (x - dst)) else mem x.
Definition memset (mem : Mem) (dst c n : Z) : Mem :=
  λ x, if bool_decide (dst ≤ x < dst + n) then c else mem x.

(** ** Ranges of bytes *)
Definition bytes (mem : Mem) (a n : Z) : list Z := mem <$> seqZ a n.
(** The bytes [l] are at address [a]. *)
Definition holds (mem : Mem) (a : Z) (l : list Z) : Prop := bytes mem a (Z.of_nat (length l)) = l.

(** Big-endian integers. *)
Definition be16 (mem : Mem) (a : Z) : Z := mem a * 2 ^ 8 + mem (a + 1).
Definition be32 (mem : Mem) (a : Z) : Z := be16 mem a * 2 ^ 16 + be16 mem (a + 2).
Definition be64 (mem : Mem) (a : Z) : Z := be32 mem a * 2 ^ 32 + be32 mem (a + 4).
(** [n] bytes of [v], the most significant first. *)
Fixpoint be_bytes (n : nat) (v : Z) : list Z :=
  match n with
  | O => []
  | S n => le_byte v (Z.of_nat n) :: be_bytes n v
  end.

(** ** [std.rs] *)
Definition RSIZE_MAX : Z := Z.shiftr (2 ^ 64 - 1) 1.

(** A failed check fills the destination and panics. *)
Definition memset_s (mem : Mem) (dest destsz ch count : Z) : exec Mem :=
  assert_then (negb (dest =? 0))
  (assert_then (destsz <=? RSIZE_MAX)
  (assert_then (count <=? destsz)
  (Done (memset mem dest (wrap 8 ch) count)))).

Definition memcpy_s (mem : Mem) (dest destsz src count : Z) : exec Mem :=
  let d := dest in
  let s := src in
  assert_then (negb (dest =? 0))
  (assert_then (negb (src =? 0))
  (assert_then (destsz <=? RSIZE_MAX)
  (assert_then (count <=? destsz)
  (assert_then (negb (d =? s))
  (assert_then ((d <? s) || (s +w count <=? d))
  (assert_then ((s <? d) || (d +w count <=? s))
  (Done (memcpy mem dest src count)))))))).

(** [memcpy] reads the old bytes, as [ptr::copy] does where the ranges overlap. *)
Definition memmove_s (mem : Mem) (dest destsz src count : Z) : exec Mem :=
  assert_then (negb (dest =? 0))
  (assert_then (negb (src =? 0))
  (assert_then (destsz <=? RSIZE_MAX)
  (assert_then (count <=? destsz)
  (Done (memcpy mem dest src count))))).

(** The loop [for i in i..i + n]: the index of the first zero byte. *)
Fixpoint strnlen_loop (mem : Mem) (str i : Z) (n : nat) : option Z :=
  match n with
  | O => None
  | S n => if mem (str + i) =? 0 then Some i else strnlen_loop mem str (i + 1) n
  end.
Definition strnlen_s (mem : Mem) (str strsz : Z) : Z :=
  if str =? 0 then 0 else default strsz (strnlen_loop mem str 0 (Z.to_nat strsz)).

(** The two operands may lie in different memories: a constant or a buffer of the
    program is a memory of its own. *)
Fixpoint memcmp_loop (mem_a : Mem) (a : Z) (mem_b : Mem) (b : Z) (n : nat) : Z :=
  match n with
  | O => 0
  | S n =>
      let cmp := wrap 8 (mem_a a - mem_b b) in
      if negb (cmp =? 0) then cmp else memcmp_loop mem_a (a + 1) mem_b (b + 1) n
  end.
Definition memcmp_rs (mem_a : Mem) (a : Z) (mem_b : Mem) (b n : Z) : Z :=
  memcmp_loop mem_a a mem_b b (Z.to_nat n).

(** A buffer of the program at a non-null address of its own. *)
Definition BUF : Z := 0x1000.
Definition buf_mem (l : list Z) : Mem := λ x, default 0 (l !! Z.to_nat (x - BUF)).

(** [strcmp(a, b)] where the bytes from [b] on are known to be [bs]; reading past
    them is [Panic]. *)
Fixpoint strcmp (mem : Mem) (a : Z) (bs : list Z) : exec Z :=
  match bs with
  | [] => Panic
  | y :: bs =>
      let x := mem a in
      if negb (x =? 0) && negb (y =? 0) then
        if negb (x =? y) then Done (x - y) else strcmp mem (a + 1) bs
      else Done (x - y)
  end.

(** ** Reading and writing *)
(** Memory holds bytes. *)
Definition mem_ok (mem : Mem) : Prop := ∀ a, in_u 8 (mem a).
Lemma rd16_range mem a : mem_ok mem → in_u 16 (rd16 mem a).
Proof. intros H. pose proof (H a). pose proof (H (a + 1)). unfold rd16, in_u in *. lia. Qed.
Lemma rd32_range mem a : mem_ok mem → in_u 32 (rd32 mem a).
Proof.
  intros H. pose proof (rd16_range mem a H). pose proof (rd16_range mem (a + 2) H).
  unfold rd32, in_u in *. lia.
Qed.
Lemma rd64_range mem a : mem_ok mem → in_u 64 (rd64 mem a).
Proof.
  intros H. pose proof (rd32_range mem a H). pose proof (rd32_range mem (a + 4) H).
  unfold rd64, in_u in *. lia.
Qed.
Lemma mem_ok_wr n mem a v : mem_ok mem → mem_ok (wr n mem a v).
Proof.
  intros H x. unfold wr. case_bool_decide; [|apply H]. unfold le_byte. apply Z.mod_pos_bound. lia.
Qed.
Lemma mem_ok_memcpy mem d s n : mem_ok mem → mem_ok (memcpy mem d s n).
Proof. intros H x. unfold memcpy. case_bool_decide; apply H. Qed.
Lemma wr_other n mem a v x : ¬ a ≤ x < a + n → wr n mem a v x = mem x.
Proof. intros H. unfold wr. by rewrite bool_decide_false. Qed.
Lemma memcpy_other mem d s n x : ¬ d ≤ x < d + n → memcpy mem d s n x = mem x.
Proof. intros H. unfold memcpy. by rewrite bool_decide_false. Qed.
Lemma rd16_ext mem mem' a : (∀ x, a ≤ x < a + 2 → mem' x = mem x) → rd16 mem' a = rd16 mem a.
Proof. intros H. unfold rd16. by rewrite !H by lia. Qed.
Lemma rd32_ext mem mem' a : (∀ x, a ≤ x < a + 4 → mem' x = mem x) → rd32 mem' a = rd32 mem a.
Proof. intros H. unfold rd32. rewrite !(rd16_ext mem mem') by (intros; apply H; lia). done. Qed.

Lemma rd16_wr mem a v : in_u 16 v → rd16 (wr 2 mem a v) a = v.
Proof.
  intros Hv. unfold rd16, wr, le_byte. rewrite !bool_decide_true by lia. unfold in_u in Hv.
  replace (a - a) with 0 by lia. replace (a + 1 - a) with 1 by lia. change (8 * 0) with 0. change (8 * 1) with 8.
  rewrite Z.pow_0_r, Z.div_1_r. rewrite (Z.mod_small (v / 2 ^ 8)); [|split; [apply Z.div_pos; lia|apply Z.div_lt_upper_bound; lia]].
  pose proof (Z.div_mod v (2 ^ 8) ltac:(lia)). lia.
Qed.
Lemma rd32_wr mem a v : in_u 32 v → rd32 (wr 4 mem a v) a = v.
Proof.
  intros Hv. unfold rd32, rd16, wr, le_byte. rewrite !bool_decide_true by lia. unfold in_u in Hv.
  replace (a - a) with 0 by lia. replace (a + 1 - a) with 1 by lia. replace (a + 2 - a) with 2 by lia.
  replace (a + 2 + 1 - a) with 3 by lia. change (8 * 0) with 0. change (8 * 1) with 8. change (8 * 2) with 16. change (8 * 3) with 24.
  rewrite Z.pow_0_r, Z.div_1_r.
  rewrite (Z.mod_small (v / 2 ^ 24)); [|split; [apply Z.div_pos; lia|apply Z.div_lt_upper_bound; lia]].
  pose proof (Z.div_mod v (2 ^ 8) ltac:(lia)). pose proof (Z.div_mod (v / 2 ^ 8) (2 ^ 8) ltac:(lia)) as H1.
  pose proof (Z.div_mod (v / 2 ^ 16) (2 ^ 8) ltac:(lia)) as H2. rewrite Z.div_div in H1 by lia. rewrite Z.div_div in H2 by lia.
  change (2 ^ 8 * 2 ^ 8) with (2 ^ 16) in H1. change (2 ^ 16 * 2 ^ 8) with (2 ^ 24) in H2. lia.
Qed.

(** ** Ranges *)
Lemma length_bytes mem a n : length (bytes mem a n) = Z.to_nat n.
Proof. unfold bytes. by rewrite length_fmap, length_seqZ. Qed.

Lemma bytes_lookup mem a n i b :
  bytes mem a n !! i = Some b ↔ Z.of_nat i < n ∧ b = mem (a + Z.of_nat i).
Proof.
  unfold bytes. rewrite list_lookup_fmap_Some. split.
  - intros (x & -> & Hx). apply lookup_seqZ in Hx as [-> ?]. done.
  - intros [Hi ->]. exists (a + Z.of_nat i). split; [done|]. by apply lookup_seqZ.
Qed.

Lemma bytes_nil mem a n : n ≤ 0 → bytes mem a n = [].
Proof. intros. unfold bytes. by rewrite seqZ_nil. Qed.
Lemma bytes_cons mem a n : 0 < n → bytes mem a n = mem a :: bytes mem (a + 1) (n - 1).
Proof. intros. unfold bytes. by rewrite seqZ_cons. Qed.
Lemma bytes_app mem a n m : 0 ≤ n → 0 ≤ m → bytes mem a (n + m) = bytes mem a n ++ bytes mem (a + n) m.
Proof. intros. unfold bytes. by rewrite seqZ_app, fmap_app. Qed.
(** A range split at an address inside of it. *)
Lemma bytes_split mem a b c : a ≤ b ≤ c → bytes mem a (c - a) = bytes mem a (b - a) ++ bytes mem b (c - b).
Proof.
  intros. replace (c - a) with ((b - a) + (c - b)) by lia. rewrite bytes_app by lia.
  by replace (a + (b - a)) with b by lia.
Qed.
Lemma Forall_bytes (P : Z → Prop) mem a n : Forall P (bytes mem a n) ↔ ∀ x, a ≤ x < a + n → P (mem x).
Proof.
  rewrite Forall_lookup. split.
  - intros H x Hx. apply (H (Z.to_nat (x - a))). apply bytes_lookup. split; [lia|]. f_equal. lia.
  - intros H i b [Hi ->]%bytes_lookup. apply H. lia.
Qed.
Lemma bytes_ext mem mem' a n : (∀ x, a ≤ x < a + n → mem' x = mem x) → bytes mem' a n = bytes mem a n.
Proof.
  intros H. apply list_eq. intros i. apply option_eq. intros b. rewrite !bytes_lookup. split; intros [Hi ->]; (split; [done|]); rewrite H by lia; done.
Qed.

Lemma holds_nil mem a : holds mem a [].
Proof. done. Qed.
Lemma holds_lookup mem a l : holds mem a l ↔ ∀ i b, l !! i = Some b → mem (a + Z.of_nat i) = b.
Proof.
  unfold holds. split.
  - intros H i b Hi. rewrite <-H in Hi. by apply bytes_lookup in Hi as [_ ->].
  - intros H. apply list_eq. intros i. apply option_eq. intros b. rewrite bytes_lookup. split.
    + intros [Hi ->]. destruct (lookup_lt_is_Some_2 l i) as [b Hb]; [lia|]. by rewrite (H i b).
    + intros Hb. pose proof (lookup_lt_Some _ _ _ Hb). split; [lia|]. by rewrite (H i b).
Qed.
Lemma holds_app mem a l1 l2 : holds mem a (l1 ++ l2) ↔ holds mem a l1 ∧ holds mem (a + Z.of_nat (length l1)) l2.
Proof.
  unfold holds. rewrite length_app, Nat2Z.inj_add, bytes_app by lia. split.
  - intros H. apply app_inj_1 in H; [done|]. rewrite length_bytes. lia.
  - by intros [-> ->].
Qed.
Lemma holds_cons mem a b l : holds mem a (b :: l) ↔ mem a = b ∧ holds mem (a + 1) l.
Proof.
  rewrite (holds_app mem a [b] l). unfold holds at 1. cbn [length].
  rewrite (bytes_cons mem a) by lia. change (Z.of_nat 1 - 1) with 0. rewrite bytes_nil by lia.
  change (Z.of_nat 1) with 1. split; [intros [[= ->] ?]|intros [-> ?]]; done.
Qed.
Lemma bytes_holds mem a n : 0 ≤ n → holds mem a (bytes mem a n).
Proof. intros. unfold holds. rewrite length_bytes. by rewrite Z2Nat.id. Qed.

(** ** Big-endian integers *)
Lemma length_be_bytes n v : length (be_bytes n v) = n.
Proof. induction n; cbn; congruence. Qed.
Lemma le_byte_range v i : in_u 8 (le_byte v i).
Proof. apply Z.mod_pos_bound. lia. Qed.

(** The bytes of an integer add up to it. *)
Lemma le_byte_sum v k : 0 ≤ k → v mod 2 ^ (8 * (k + 1)) = le_byte v k * 2 ^ (8 * k) + v mod 2 ^ (8 * k).
Proof.
  intros Hk. replace (8 * (k + 1)) with (8 * k + 8) by lia. rewrite Z.pow_add_r by lia.
  rewrite Z.rem_mul_r by lia. unfold le_byte. lia.
Qed.
Lemma be32_holds mem a v : in_u 32 v → holds mem a (be_bytes 4 v) → be32 mem a = v.
Proof.
  intros Hv H. cbn [be_bytes] in H; rewrite !holds_cons in H. destruct H as (H0 & H1 & H2 & H3 & _). unfold be32, be16.
  replace (a + 1 + 1) with (a + 2) in * by lia. rewrite H0, H1, H2. rewrite H3.
  pose proof (le_byte_sum v 3 ltac:(lia)) as S3. pose proof (le_byte_sum v 2 ltac:(lia)) as S2.
  pose proof (le_byte_sum v 1 ltac:(lia)) as S1. pose proof (le_byte_sum v 0 ltac:(lia)) as S0.
  change (2 ^ (8 * (3 + 1))) with (2 ^ 32) in S3. rewrite (Z.mod_small v (2 ^ 32)) in S3 by exact Hv.
  change (8 * (2 + 1)) with (8 * 3) in S2. change (8 * (1 + 1)) with (8 * 2) in S1.
  change (8 * (0 + 1)) with (8 * 1) in S0. change (2 ^ (8 * 0)) with 1 in S0. rewrite Z.mod_1_r in S0.
  change (Z.of_nat 3) with 3. change (Z.of_nat 2) with 2. change (Z.of_nat 1) with 1. change (Z.of_nat 0) with 0.
  change (2 ^ (8 * 3)) with (2 ^ 24) in *. change (2 ^ (8 * 2)) with (2 ^ 16) in *.
  change (2 ^ (8 * 1)) with (2 ^ 8) in *. lia.
Qed.

(** ** Strings *)

(** The bytes of a C string: all before its terminator. *)
Definition asciz (s : list Z) : list Z := s ++ [0].
Definition no_nul (s : list Z) : Prop := Forall (λ b, b ≠ 0) s.

(** Against a terminated string, [strcmp] decides equality of the strings. *)
Lemma strcmp_spec mem a t s rest :
  no_nul t → no_nul s → holds mem a (asciz t) →
  ∃ d, strcmp mem a (asciz s ++ rest) = Done d ∧ (d = 0 ↔ t = s).
Proof.
  revert a t. induction s as [|y s IH]; intros a t Ht Hs Hh; cbn [asciz app strcmp].
  - destruct t as [|x t]; apply holds_cons in Hh as [Hx Hh]; rewrite Hx.
    + eexists. split; [done|]. done.
    + apply Forall_cons in Ht as [Hx0 _]. destruct (Z.eqb_spec x 0); [done|]. cbn [negb andb].
      eexists. split; [done|]. split; [lia|done].
  - apply Forall_cons in Hs as [Hy Hs]. destruct t as [|x t]; apply holds_cons in Hh as [Hx Hh]; rewrite Hx.
    + cbn. eexists. split; [done|]. split; [lia|done].
    + apply Forall_cons in Ht as [Hx0 Ht]. destruct (Z.eqb_spec x 0); [done|]. destruct (Z.eqb_spec y 0); [done|].
      cbn [negb andb]. destruct (Z.eqb_spec x y) as [->|Hxy]; cbn [negb].
      * change ((s ++ [0]) ++ rest) with (asciz s ++ rest). destruct (IH (a + 1) t Ht Hs Hh) as (d & -> & Hd). exists d. split; [done|]. rewrite Hd. naive_solver.
      * eexists. split; [done|]. split; [lia|naive_solver].
Qed.

(** [strnlen_s] is the length of the string if it is less than the limit. *)
Lemma strnlen_loop_spec mem str i n r :
  strnlen_loop mem str i n = r →
  match r with
  | Some k => i ≤ k < i + Z.of_nat n ∧ mem (str + k) = 0 ∧ ∀ x, i ≤ x < k → mem (str + x) ≠ 0
  | None => ∀ x, i ≤ x < i + Z.of_nat n → mem (str + x) ≠ 0
  end.
Proof.
  revert i. induction n as [|n IH]; intros i; cbn [strnlen_loop]; [intros <-; lia|].
  destruct (Z.eqb_spec (mem (str + i)) 0) as [H0|H0]; [intros <-; split_and!; [lia..|done|lia]|].
  intros Hr. specialize (IH _ Hr). destruct r as [k|].
  - destruct IH as (? & ? & Hx). split_and!; [lia..|done|]. intros x ?. destruct (decide (x = i)) as [->|]; [done|]. apply Hx. lia.
  - intros x ?. destruct (decide (x = i)) as [->|]; [done|]. apply IH. lia.
Qed.

Lemma memcmp_loop_spec mem_a a mem_b b n :
  mem_ok mem_a → mem_ok mem_b →
  memcmp_loop mem_a a mem_b b n = 0 ↔ bytes mem_a a (Z.of_nat n) = bytes mem_b b (Z.of_nat n).
Proof.
  intros Ha Hb. revert a b. induction n as [|n IH]; intros a b; [done|]. cbn [memcmp_loop].
  rewrite !(bytes_cons _ _ (Z.of_nat (S n))) by lia. replace (Z.of_nat (S n) - 1) with (Z.of_nat n) by lia.
  assert (Hw : wrap 8 (mem_a a - mem_b b) = 0 ↔ mem_a a = mem_b b).
  { pose proof (Ha a). pose proof (Hb b). unfold in_u, wrap in *. split; [|intros ->; by rewrite Z.sub_diag].
    intros Hm. apply Z.mod_divide in Hm as [q Hq]; [|lia]. nia. }
  destruct (Z.eqb_spec (wrap 8 (mem_a a - mem_b b)) 0) as [Hz|Hz]; cbn [negb].
  - rewrite IH. apply Hw in Hz. rewrite Hz. split; [by intros ->|by intros [= ?]].
  - split; [lia|]. intros [= ? _]. tauto.
Qed.

(** There is one C string at an address. *)
Lemma asciz_unique mem a t s : no_nul t → no_nul s → holds mem a (asciz t) → holds mem a (asciz s) → t = s.
Proof.
  intros Ht Hs Hh1 Hh2. destruct (strcmp_spec mem a t s [] Ht Hs Hh1) as (d & Hd & <-).
  destruct (strcmp_spec mem a s s [] Hs Hs Hh2) as (d' & Hd' & Hd0). rewrite Hd in Hd'. injection Hd' as <-. by apply Hd0.
Qed.

(** Buffers of the program. *)
Lemma buf_holds l : holds (buf_mem l) BUF l.
Proof. apply holds_lookup. intros i b Hi. unfold buf_mem. replace (Z.to_nat (BUF + Z.of_nat i - BUF)) with i by lia. by rewrite Hi. Qed.
Lemma buf_mem_ok l : Forall (in_u 8) l → mem_ok (buf_mem l).
Proof.
  intros H x. unfold buf_mem. destruct (l !! _) as [b|] eqn:E; cbn; [|unfold in_u; lia]. by eapply Forall_lookup_1 in H.
Qed.
