(* ===== verification/Memiter.v ===== *)
(** * Iterators over memory ([memiter.rs])

    A [MemIter] is a range of addresses; the parsers read words and numbers from its
    front.  The loops run while the first byte satisfies a condition; their fuel is
    the length of the range, after which there is no byte left. *)
From S2P Require Import Prelude Memory.

Record MemIter := mkMemIter { it_next : Z; it_limit : Z }.

Definition is_space (c : Z) : bool := (c =? 32) || (c =? 9) || (c =? 10) || (c =? 13).
Definition as_digit (c : Z) : option Z := if (48 <=? c) && (c <=? 57) then Some (c - 48) else None.

Definition from_raw (data size : Z) : MemIter := mkMemIter data (data +w size).
Definition with_next (n : Z) (it : MemIter) : MemIter := mkMemIter n (it_limit it).

Section memiter.
Context (mem : Mem).

Definition peek (it : MemIter) : option Z :=
  if it_next it <? it_limit it then Some (mem (it_next it)) else None.

(** [while let Some(c) = self.peek() { if !p(c) { break; } self.next += 1 }]. *)
Fixpoint skip_loop (p : Z → bool) (fuel : nat) (it : MemIter) : MemIter :=
  match fuel with
  | O => it
  | S fuel =>
      match peek it with
      | Some c => if negb (p c) then it else skip_loop p fuel (with_next (it_next it + 1) it)
      | None => it
      end
  end.
Definition it_fuel (it : MemIter) : nat := Z.to_nat (it_limit it - it_next it).
Definition skip_while (p : Z → bool) (it : MemIter) : MemIter := skip_loop p (it_fuel it) it.

Definition skip_space (it : MemIter) : MemIter := skip_while is_space it.

Definition it_len (it : MemIter) : Z := it_limit it -w it_next it.

(** Compares with the string at [str] of the memory [smem]. *)
Definition iseq (it : MemIter) (smem : Mem) (str : Z) : bool :=
  let self_len := it_limit it -w it_next it in
  let len := strnlen_s smem str (self_len +w 1) in
  (len =? self_len) && (memcmp_rs mem (it_next it) smem str len =? 0).

Definition parse_str (it : MemIter) : option MemIter * MemIter :=
  let it := skip_space it in
  let next := it_next it in
  let it := skip_while (λ c, negb (is_space c)) it in
  let size := it_next it -w next in
  if size =? 0 then (None, it) else (Some (from_raw next size), it).

(** [while let Some(d) = self.peek().and_then(as_digit)]. *)
Fixpoint digits_loop (fuel : nat) (value : Z) (it : MemIter) : Z * MemIter :=
  match fuel with
  | O => (value, it)
  | S fuel =>
      match peek it ≫= as_digit with
      | Some d => digits_loop fuel (value *w 10 +w d) (with_next (it_next it + 1) it)
      | None => (value, it)
      end
  end.
Definition parse_uint (it : MemIter) : option Z * MemIter :=
  let it := skip_space it in
  let next := it_next it in
  let '(value, it) := digits_loop (it_fuel it) 0 it in
  if it_next it =? next then (None, it) else (Some value, it).
End memiter.

(** [true] is [Ok(())]; on failure the iterator is unchanged. *)
Definition advance (it : MemIter) (v : Z) : bool * MemIter :=
  let p := it_next it +w v in
  if negb ((it_next it <=? p) && (p <=? it_limit it)) then (false, it) else (true, with_next p it).
Definition read (it : MemIter) (v : Z) : option Z * MemIter :=
  let next := it_next it in
  let '(ok, it) := advance it v in
  if ok : bool then (Some next, it) else (None, it).
Definition get_next (it : MemIter) : Z := it_next it.
Definition get_limit (it : MemIter) : Z := it_limit it.
Definition as_slice (mem : Mem) (it : MemIter) : list Z := bytes mem (it_next it) (it_len it).

(** ** The bytes left *)
Definition it_wf (it : MemIter) : Prop := 0 ≤ it_next it ≤ it_limit it ∧ it_limit it < 2 ^ 64.
Definition it_bytes (mem : Mem) (it : MemIter) : list Z := bytes mem (it_next it) (it_limit it - it_next it).

Lemma it_len_wf it : it_wf it → it_len it = it_limit it - it_next it.
Proof. intros [??]. apply wsub_small. lia. Qed.
Lemma as_slice_wf mem it : it_wf it → as_slice mem it = it_bytes mem it.
Proof. intros H. unfold as_slice. by rewrite it_len_wf. Qed.
Lemma from_raw_wf a n : 0 ≤ a → 0 ≤ n → a + n < 2 ^ 64 → it_wf (from_raw a n) ∧ from_raw a n = mkMemIter a (a + n).
Proof. intros. unfold from_raw. rewrite wadd_small by lia. unfold it_wf. cbn. split; [lia|done]. Qed.

(** [advance] moves over the given number of bytes, or fails if there are fewer: the
    wrap-around of the address is caught. *)
Lemma advance_spec it v :
  it_wf it → in_u 64 v →
  advance it v = if decide (v ≤ it_limit it - it_next it) then (true, with_next (it_next it + v) it) else (false, it).
Proof.
  intros [[H0 H1] H2] Hv. unfold advance, in_u in *. case_decide as Hd.
  - rewrite wadd_small by lia. destruct (Z.leb_spec (it_next it) (it_next it + v)); [|lia].
    destruct (Z.leb_spec (it_next it + v) (it_limit it)); [done|lia].
  - destruct (decide (it_next it + v < 2 ^ 64)).
    + rewrite wadd_small by lia. destruct (Z.leb_spec (it_next it + v) (it_limit it)); [lia|].
      by rewrite andb_false_r.
    + assert (it_next it +w v = it_next it + v - 2 ^ 64) as ->.
      { unfold wadd, wrap. symmetry. apply (Z.mod_unique_pos _ _ 1); lia. }
      destruct (Z.leb_spec (it_next it) (it_next it + v - 2 ^ 64)); [lia|done].
Qed.

Section spec.
Context (mem : Mem).

(** The loop stops at the first byte that fails the condition, or at the limit. *)
Lemma skip_loop_spec p fuel it :
  it_next it ≤ it_limit it → it_limit it - it_next it ≤ Z.of_nat fuel →
  ∃ n, skip_loop mem p fuel it = with_next n it ∧ it_next it ≤ n ≤ it_limit it ∧
    (∀ x, it_next it ≤ x < n → p (mem x) = true) ∧ (n < it_limit it → p (mem n) = false).
Proof.
  revert it. induction fuel as [|fuel IH]; intros it Hle Hf; cbn [skip_loop].
  { exists (it_next it). destruct it; cbn in *. split_and!; (done || lia). }
  unfold peek. destruct (Z.ltb_spec (it_next it) (it_limit it)) as [Hlt|Hge].
  - destruct (p (mem (it_next it))) eqn:Hp; cbn [negb].
    + destruct (IH (with_next (it_next it + 1) it)) as (n & -> & Hn & Hx & Hs); cbn [with_next it_next it_limit] in *; [lia..|].
      exists n. split_and!; [done|lia..| |done]. intros x ?. destruct (decide (x = it_next it)) as [->|]; [done|]. apply Hx. lia.
    + exists (it_next it). destruct it; cbn in *. split_and!; (done || lia).
  - exists (it_next it). destruct it; cbn in *. split_and!; (done || lia).
Qed.

(** The bytes skipped and the rest. *)
Lemma skip_while_spec p it :
  it_wf it →
  ∃ n, skip_while mem p it = with_next n it ∧ it_wf (with_next n it) ∧ it_next it ≤ n ∧
    let skipped := bytes mem (it_next it) (n - it_next it) in
    let rest := it_bytes mem (with_next n it) in
    it_bytes mem it = skipped ++ rest ∧ Forall (λ c, p c = true) skipped ∧
    (∀ c, head rest = Some c → p c = false).
Proof.
  intros [Hle Hl]. unfold skip_while, it_fuel.
  destruct (skip_loop_spec p (Z.to_nat (it_limit it - it_next it)) it) as (n & -> & Hn & Hx & Hs); [lia..|].
  exists n. cbn [with_next it_next it_limit]. unfold it_wf, it_bytes. cbn [with_next it_next it_limit].
  split_and!; [done|lia..|by apply bytes_split| |].
  - apply Forall_bytes. intros x ?. apply Hx. lia.
  - intros c. destruct (decide (n < it_limit it)) as [Hlt|].
    + rewrite bytes_cons by lia. intros [= <-]. by apply Hs.
    + rewrite bytes_nil by lia. done.
Qed.

(** Reading the digits of a number. *)
Definition decimal (v : Z) (ds : list Z) : Z := foldl (λ v c, v *w 10 +w (c - 48)) v ds.
Definition is_digit (c : Z) : bool := (48 <=? c) && (c <=? 57).

Lemma as_digit_is c : as_digit c = if is_digit c then Some (c - 48) else None.
Proof. done. Qed.

Lemma digits_loop_spec fuel v it :
  it_next it ≤ it_limit it → it_limit it - it_next it ≤ Z.of_nat fuel →
  ∃ n, digits_loop mem fuel v it = (decimal v (bytes mem (it_next it) (n - it_next it)), with_next n it) ∧
    skip_loop mem is_digit fuel it = with_next n it ∧ it_next it ≤ n.
Proof.
  revert v it. induction fuel as [|fuel IH]; intros v it Hle Hf; cbn [digits_loop skip_loop].
  { exists (it_next it). rewrite bytes_nil by lia. by destruct it. }
  unfold peek. destruct (Z.ltb_spec (it_next it) (it_limit it)) as [Hlt|Hge].
  - cbn [mbind option_bind]. rewrite as_digit_is. destruct (is_digit (mem (it_next it))) eqn:Hp; cbn [negb].
    + destruct (IH (v *w 10 +w (mem (it_next it) - 48)) (with_next (it_next it + 1) it)) as (n & -> & -> & Hn); cbn [with_next it_next it_limit] in *; [lia..|].
      exists n. rewrite (bytes_cons mem (it_next it)) by lia. split_and!; [|done|lia].
      replace (n - (it_next it + 1)) with (n - it_next it - 1) by lia. done.
    + exists (it_next it). rewrite bytes_nil by lia. by destruct it.
  - exists (it_next it). cbn. rewrite bytes_nil by lia. by destruct it.
Qed.
End spec.

(** ** Words, numbers and comparison *)
Section parse.
Context (mem : Mem).

(** [iseq]: the bytes left are exactly the string. *)
Lemma iseq_spec it smem str :
  mem_ok mem → mem_ok smem → it_wf it → it_limit it - it_next it < 2 ^ 64 - 1 → str ≠ 0 →
  iseq mem it smem str = true ↔ no_nul (it_bytes mem it) ∧ holds smem str (asciz (it_bytes mem it)).
Proof.
  intros Hm Hsm Hwf Hn Hstr. pose proof Hwf as [Hle Hl]. unfold iseq, it_bytes. rewrite wsub_small by lia.
  assert (Hn0 : 0 ≤ it_limit it - it_next it) by lia. revert Hn Hn0. generalize (it_limit it - it_next it). intros n Hn Hn0.
  rewrite (wadd_small n 1) by lia.
  unfold strnlen_s. rewrite (proj2 (Z.eqb_neq str 0) Hstr).
  pose proof (strnlen_loop_spec smem str 0 (Z.to_nat (n + 1)) _ eq_refl) as Hs.
  assert (Hh : holds smem str (asciz (bytes mem (it_next it) n)) ↔
    bytes smem str n = bytes mem (it_next it) n ∧ smem (str + n) = 0).
  { unfold asciz. rewrite holds_app, holds_cons. unfold holds at 1. rewrite length_bytes, Z2Nat.id by lia.
    split; [intros (?&?&_)|intros []]; done. }
  rewrite Hh. clear Hh. destruct (strnlen_loop _ _ _ _) as [k|]; cbn [from_option id].
  - destruct Hs as (Hk & Hk0 & Hx). rewrite andb_true_iff, Z.eqb_eq. unfold memcmp_rs. split.
    + intros [-> Hc%Z.eqb_eq]. apply memcmp_loop_spec in Hc; [|done..]. rewrite Z2Nat.id in Hc by lia.
      split; [|done]. unfold no_nul. rewrite Hc. apply Forall_lookup. intros i b [Hi ->]%bytes_lookup. apply Hx. lia.
    + intros (Hnn & Hb & H0). assert (k = n) as ->.
      { destruct (decide (k = n)); [done|]. exfalso. unfold no_nul in Hnn. rewrite <-Hb, Forall_lookup in Hnn.
        eapply (Hnn (Z.to_nat k) (smem (str + k))); [|done]. apply bytes_lookup. split; [lia|]. f_equal. lia. }
      split; [done|]. apply Z.eqb_eq. apply memcmp_loop_spec; [done..|]. by rewrite Z2Nat.id by lia.
  - destruct (Z.eqb_spec (n + 1) n); [lia|]. cbn. split; [done|]. intros (_ & _ & H0). exfalso.
    apply (Hs n); [lia|done].
Qed.

(** [parse_str]: skips white space and returns the word up to the next white space,
    if there is one. *)
Definition word_at (it : MemIter) (r : option MemIter) (it' : MemIter) : Prop :=
  ∃ spaces word, it_bytes mem it = spaces ++ word ++ it_bytes mem it' ∧
    Forall (λ c, is_space c = true) spaces ∧ Forall (λ c, is_space c = false) word ∧
    (∀ c, head (it_bytes mem it') = Some c → is_space c = true) ∧
    match r with
    | Some w => it_wf w ∧ it_bytes mem w = word ∧ word ≠ []
    | None => word = [] ∧ it_bytes mem it' = []
    end.

Lemma parse_str_spec it :
  it_wf it → ∃ r it', parse_str mem it = (r, it') ∧ it_wf it' ∧ it_limit it' = it_limit it ∧ word_at it r it'.
Proof.
  intros Hwf. unfold parse_str, skip_space.
  destruct (skip_while_spec mem is_space it Hwf) as (n1 & -> & Hw1 & Hn1 & Hb1 & Hs1 & Hh1).
  destruct (skip_while_spec mem (λ c, negb (is_space c)) _ Hw1) as (n2 & -> & Hw2 & Hn2 & Hb2 & Hs2 & Hh2).
  cbn [with_next it_next it_limit] in *. destruct Hw2 as [[? ?] ?]. cbn [with_next it_next it_limit] in *. pose proof Hw1 as [[? ?] ?]. cbn [with_next it_next it_limit] in *.
  rewrite wsub_small by lia.
  assert (Hword : Forall (λ c, is_space c = false) (bytes mem n1 (n2 - n1))).
  { eapply Forall_impl; [exact Hs2|]. intros c. cbn. apply negb_true_iff. }
  assert (Hrest : ∀ c, head (it_bytes mem (mkMemIter n2 (it_limit it))) = Some c → is_space c = true).
  { intros c Hc. apply negb_false_iff. by apply Hh2. }
  unfold with_next in *. cbn [it_limit] in *.
  destruct (Z.eqb_spec (n2 - n1) 0) as [He|He]; do 2 eexists; (split; [done|]); (split; [unfold it_wf; cbn; lia|]); (split; [done|]);
    exists (bytes mem (it_next it) (n1 - it_next it)), (bytes mem n1 (n2 - n1));
    (split; [by rewrite Hb1, Hb2|]); (split; [done|]); (split; [done|]); (split; [done|]).
  - rewrite bytes_nil by lia. split; [done|]. assert (n2 = n1) as -> by lia.
    destruct (it_bytes mem (mkMemIter n1 (it_limit it))) as [|c l]; [done|]. specialize (Hrest c eq_refl). specialize (Hh1 c eq_refl). congruence.
  - destruct (from_raw_wf n1 (n2 - n1)) as [Hfw ->]; [lia..|]. split_and!; [unfold it_wf; cbn; lia..| |].
    + unfold it_bytes. cbn. f_equal. lia.
    + rewrite bytes_cons by lia. done.
Qed.

(** [parse_uint]: skips white space and reads the digits that follow, modulo
    [2^64]. *)
Lemma parse_uint_spec it :
  it_wf it → ∃ r it', parse_uint mem it = (r, it') ∧ it_wf it' ∧ it_limit it' = it_limit it ∧
    ∃ spaces ds, it_bytes mem it = spaces ++ ds ++ it_bytes mem it' ∧
      Forall (λ c, is_space c = true) spaces ∧ Forall (λ c, is_digit c = true) ds ∧
      (∀ c, head (ds ++ it_bytes mem it') = Some c → is_space c = false) ∧
      (∀ c, head (it_bytes mem it') = Some c → is_digit c = false) ∧
      r = match ds with [] => None | _ => Some (decimal 0 ds) end.
Proof.
  intros Hwf. unfold parse_uint, skip_space.
  destruct (skip_while_spec mem is_space it Hwf) as (n1 & -> & Hw1 & Hn1 & Hb1 & Hs1 & Hh1).
  destruct (skip_while_spec mem is_digit _ Hw1) as (n2 & Hsk & Hw2 & Hn2 & Hb2 & Hs2 & Hh2).
  destruct (digits_loop_spec mem (it_fuel (with_next n1 it)) 0 (with_next n1 it)) as (n3 & -> & Hsk' & Hn3).
  { destruct Hw1 as [[_ H] _]. exact H. } { unfold it_fuel. lia. }
  unfold skip_while in Hsk. rewrite Hsk in Hsk'. unfold with_next in Hsk'. cbn in Hsk'. injection Hsk' as <-.
  cbn [with_next it_next it_limit] in *.
  destruct (Z.eqb_spec n2 n1) as [->|Hne]; do 2 eexists; (split; [done|]); (split; [exact Hw2|]); (split; [done|]);
    (exists (bytes mem (it_next it) (n1 - it_next it)));
    [exists []|exists (bytes mem n1 (n2 - n1))].
  - split_and!; [done|done|done|done|done|done].
  - split_and!; [by rewrite Hb1, Hb2|done|done|by rewrite <-Hb2|done|].
    rewrite bytes_cons by lia. done.
Qed.
End parse.
