(* ===== verification/CInterface.v ===== *)
(** * C entry points of the pool, the page tables and the iterators

    The functions with [extern "C"] of [mpool.rs], [mm.rs] and [memiter.rs] that are not
    next to what they call.  C code makes a pool on its stack, lets it fall back on
    another, and finishes it: the theorem shows that no page is lost on the way. *)
From S2P Require Import Prelude Addr Mode Arch Mpool Mm Memory Memiter.

(** ** Pools *)
Definition mpool_init (entry_size : Z) : exec MPool := assert_then (PAGE_SIZE =? entry_size) (Done MPool_new).
(** The new pool, and [from] without its fallback. *)
Definition mpool_init_from (from : MPool) : MPool * MPool :=
  let '(p, from) := MPool_new_from from in (p, MPool_base (mpool_pool from)).
Definition mpool_init_with_fallback (fallback : MPool) : MPool := MPool_new_with_fallback fallback.
(** The finished pool, whose lists the merge empties, and its fallback. *)
Definition mpool_fini (p : MPool) : MPool * option MPool :=
  match MPool_drop p with
  | Some f => (MPool_base Pool_new, Some f)
  | None => (MPool_base (mpool_pool p), None)
  end.
Definition mpool_free (p : MPool) (ptr : Z) : MPool := MPool_free p ptr.

(** ** Page tables *)
Definition mm_identity_map_nolock {A : ArchMM} (t : PageTable) (begin end_ : paddr_t) (mode : Z) (st : MmState)
    : exec (Z * PageTable * MmState) :=
  '(ok, t, st) ← identity_map (SG := Stage1) t begin end_ mode st;
  Done (if ok : bool then pa_addr begin else 0, t, st).

(** ** Iterators *)
Definition memiter_init (data size : Z) : MemIter := from_raw data size.
(** [str] is written only on success. *)
Definition memiter_parse_str (mem : Mem) (it str : MemIter) : bool * MemIter * MemIter :=
  let '(r, it) := parse_str mem it in
  match r with Some s => (true, it, s) | None => (false, it, str) end.
Definition memiter_iseq (mem : Mem) (it : MemIter) (smem : Mem) (str : Z) : bool := iseq mem it smem str.

(** ** A pool on the stack *)

Definition falls_back (m : MPool) : bool := match m with MPool_base _ => false | MPool_fallback _ _ => true end.
Lemma alloc_falls_back m r m' : MPool_alloc m = (r, m') → falls_back m' = falls_back m.
Proof.
  destruct m as [p|p f]; cbn [MPool_alloc]; destruct (Pool_alloc p) as [[?|?] q]; [by intros [= _ <-]..|].
  destruct (MPool_alloc f). by intros [= _ <-].
Qed.
Lemma alloc_pages_falls_back m n a r m' : MPool_alloc_pages m n a = Done (r, m') → falls_back m' = falls_back m.
Proof.
  destruct m as [p|p f]; cbn [MPool_alloc_pages]; intros ([x q] & _ & H)%bind_Done_inv; [by injection H as _ <-|].
  destruct x; [by injection H as _ <-|]. apply bind_Done_inv in H as ([? ?] & _ & [= _ <-]). done.
Qed.
Lemma with_pool_falls_back m p : falls_back (mpool_with_pool m p) = falls_back m.
Proof. by destruct m. Qed.
Lemma step_falls_back c c' : pool_step c c' → falls_back c'.1 = falls_back c.1.
Proof.
  destruct 1; cbn [fst]; unfold MPool_free, MPool_free_pages; rewrite ?with_pool_falls_back; eauto using alloc_falls_back, alloc_pages_falls_back.
Qed.
Lemma run_pages c c' :
  rtc pool_step c c' → mpool_ok c.1 →
  mpool_ok c'.1 ∧ c'.2 ++ mpool_pages c'.1 ≡ₚ c.2 ++ mpool_pages c.1 ∧ falls_back c'.1 = falls_back c.1.
Proof.
  induction 1 as [c|c c1 c' Hs _ IH]; [done|]. intros Hok. destruct (pool_step_inv c c1 Hs Hok) as [Hok1 Hp]. destruct (IH Hok1) as (? & Hp' & Hf).
  split_and!; [done|by rewrite Hp'|]. by rewrite Hf, (step_falls_back _ _ Hs).
Qed.

(** A pool on the stack loses nothing.  [mpool_init_from] moves all pages to the new
    pool; and after any use of a pool that falls back on [f], [mpool_fini] leaves it
    empty and [f] with all pages but those still held. *)
Theorem c_pool_lifecycle (f m : MPool) (held : list Z) :
  mpool_ok f → rtc pool_step (mpool_init_with_fallback f, []) (m, held) →
  (∃ p f', mpool_fini m = (p, Some f') ∧ mpool_pages p = [] ∧ mpool_ok f' ∧ held ++ mpool_pages f' ≡ₚ mpool_pages f) ∧
  (mpool_init_from f).1 = f ∧ mpool_pages (mpool_init_from f).2 = [].
Proof.
  intros Hok Hrun. split; [|by destruct f]. destruct (run_pages _ _ Hrun) as (Hm & Hp & Hf); [done|]. cbn [fst snd] in *.
  destruct m as [p|p g]; [done|]. destruct (MPool_drop_spec p g Hm) as (f' & Hd & Hok' & Hp'). unfold mpool_fini. rewrite Hd.
  do 2 eexists. split_and!; [done..|]. by rewrite Hp', Hp.
Qed.
Lemma c_pool_lifecycle_witness :
  ∃ p f', mpool_fini (mpool_init_with_fallback demo_pool) = (p, Some f') ∧ mpool_pages f' ≡ₚ mpool_pages demo_pool.
Proof.
  destruct (c_pool_lifecycle demo_pool (mpool_init_with_fallback demo_pool) []) as [(p & f' & H & _ & _ & Hp) _].
  - exact demo_pool_ok.
  - apply rtc_refl.
  - exists p, f'. exact (conj H Hp).
Defined.
