(* ===== verification/Cpio.v ===== *)
(** * The ramdisk: cpio archives ([cpio.rs])

    An archive is a sequence of files, each a header of 26 bytes, the name and the
    contents, both padded to an even length.  The reference is the encoder
    [Cpio.archive]: [find_file] on an archive in memory returns the contents of the
    first file of the given name. *)
From S2P Require Import Prelude Memory Memiter.

(** Offsets in [#[repr(C, packed(1))] struct CpioHeader]. *)
Definition SIZEOF_CpioHeader : Z := 26.
Definition header_namesize (mem : Mem) (h : Z) : Z := rd16 mem (h + 20).
Definition header_filesize (mem : Mem) (h : Z) (i : Z) : Z := rd16 mem (h + 22 + 2 * i).

Record CpioResult := mkCpioResult { cr_name : Z; cr_contents : Z; cr_size : Z }.

(** The bytes of the constant in [parse_cpio], which has no terminator of its own. *)
Definition TRAILER : list Z := [84; 82; 65; 73; 76; 69; 82; 33; 33; 33; 10].

Section cpio.
(** Memory, and the bytes of the program that follow the constant. *)
Context (mem : Mem) (after_trailer : list Z).

(** The name length is rounded up in [u16]. *)
Definition parse_cpio (it : MemIter) : exec (option CpioResult * MemIter) :=
  match read it SIZEOF_CpioHeader with
  | (None, it) => Done (None, it)
  | (Some header, it) =>
      let name_len := Z.land (wrap 16 (header_namesize mem header + 1)) (2 ^ 16 - 1 - 1) in
      match read it name_len with
      | (None, it) => Done (None, it)
      | (Some name, it) =>
          let contents_len := Z.lor (wshl (header_filesize mem header 0) 16) (header_filesize mem header 1) in
          match read it (Z.land (contents_len +w 1) (wnot 1)) with
          | (None, it) => Done (None, it)
          | (Some contents, it) =>
              d ← strcmp mem name (TRAILER ++ after_trailer);
              if d =? 0 then Done (None, it)
              else Done (Some (mkCpioResult name contents contents_len), it)
          end
      end
  end.

(** [while let Some(result) = parse_cpio(&mut iter)]; [test] is the condition on the
    name.  The fuel is never used up, see [find_loop_total]. *)
Fixpoint find_loop (test : Z → exec bool) (fuel : nat) (iter : MemIter) : exec (option MemIter) :=
  match fuel with
  | O => Panic
  | S fuel =>
      '(r, iter) ← parse_cpio iter;
      match r with
      | None => Done None
      | Some result =>
          found ← test (cr_name result);
          if found : bool then Done (Some (from_raw (cr_contents result) (cr_size result)))
          else find_loop test fuel iter
      end
  end.

(** The file name is an iterator over the memory [fmem]. *)
Definition find_file_memiter (cpio : MemIter) (fmem : Mem) (filename : MemIter) : exec (option MemIter) :=
  find_loop (λ name, Done (iseq fmem filename mem name)) (S (it_fuel cpio)) cpio.

(** The file name is a string constant; only whether [strcmp] is zero matters. *)
Definition find_file (cpio : MemIter) (filename : list Z) : exec (option MemIter) :=
  find_loop (λ name, d ← strcmp mem name filename; Done (d =? 0)) (S (it_fuel cpio)) cpio.
End cpio.

(** ** The format *)
Module Cpio.
Record file := mkFile {
  (** The fields of the header before the name size. *)
  f_meta : list Z;
  f_name : list Z;
  f_data : list Z;
}.
(** A byte of padding after an odd number of bytes. *)
Definition pad (l : list Z) : list Z := l ++ (if Nat.odd (length l) then [0] else []).
Definition le16 (v : Z) : list Z := [le_byte v 0; le_byte v 1].
Definition header (f : file) : list Z :=
  f_meta f ++ le16 (Z.of_nat (length (asciz (f_name f)))) ++
  le16 (Z.of_nat (length (f_data f)) / 2 ^ 16) ++ le16 (Z.of_nat (length (f_data f)) mod 2 ^ 16).
Definition encode (f : file) : list Z := header f ++ pad (asciz (f_name f)) ++ pad (f_data f).
Definition archive (fs : list file) : list Z := mjoin (encode <$> fs).

(** The sizes fit in the fields, also after rounding up. *)
Definition file_ok (f : file) : Prop :=
  length (f_meta f) = 20%nat ∧ no_nul (f_name f) ∧ Z.of_nat (length (f_name f)) < 2 ^ 16 - 2 ∧
  Z.of_nat (length (f_data f)) < 2 ^ 32.

(** The contents of the first file called [name], before one called [stop]. *)
Fixpoint lookup (stop name : list Z) (fs : list file) : option (list Z) :=
  match fs with
  | [] => None
  | f :: fs =>
      if decide (f_name f = stop) then None
      else if decide (f_name f = name) then Some (f_data f) else lookup stop name fs
  end.
End Cpio.
Import Cpio.

(** ** Reading the fields *)
Lemma rd16_le16 mem a v : in_u 16 v → holds mem a (le16 v) → rd16 mem a = v.
Proof.
  intros Hv H. unfold le16 in H. rewrite !holds_cons in H. destruct H as (H0 & H1 & _). unfold rd16. rewrite H0, H1.
  pose proof (le_byte_sum v 1 ltac:(lia)) as S1. pose proof (le_byte_sum v 0 ltac:(lia)) as S0.
  change (2 ^ (8 * (1 + 1))) with (2 ^ 16) in S1. rewrite Z.mod_small in S1 by exact Hv.
  change (8 * (0 + 1)) with (8 * 1) in S0. change (2 ^ (8 * 0)) with 1 in S0. rewrite Z.mod_1_r in S0.
  change (2 ^ (8 * 1)) with (2 ^ 8) in *. lia.
Qed.

Lemma length_pad l : Z.of_nat (length (pad l)) = Z.of_nat (length l) + Z.of_nat (length l) mod 2.
Proof.
  unfold pad. rewrite length_app. destruct (Nat.odd (length l)) eqn:E; cbn [length].
  - apply Nat.odd_spec in E as [k ->]. replace (Z.of_nat (2 * k + 1)) with (1 + Z.of_nat k * 2) by lia.
    rewrite Z_mod_plus_full. change (1 mod 2) with 1. lia.
  - rewrite <-Nat.negb_even in E. apply negb_false_iff, Nat.even_spec in E as [k ->].
    replace (Z.of_nat (2 * k)) with (Z.of_nat k * 2) by lia. rewrite Z_mod_mult. lia.
Qed.

(** [(n + 1) & !1] rounds up to an even number. *)
Lemma round_even_16 n : 0 ≤ n < 2 ^ 16 - 1 → Z.land (wrap 16 (n + 1)) (2 ^ 16 - 1 - 1) = n + n mod 2.
Proof.
  intros Hn. rewrite wrap_small by (split; lia).
  assert (Z.land (n + 1) (2 ^ 16 - 1 - 1) = Z.land (n + 1) (wnot (2 ^ 1 - 1))) as ->.
  { apply Z.bits_inj'. intros k Hk. rewrite !Z.land_spec. destruct (decide (k < 16)) as [Hlt|].
    - f_equal. unfold wnot. change (2 ^ 16 - 1 - 1) with (Z.lnot 1 mod 2 ^ 16).
      change (2 ^ 64 - 1 - (2 ^ 1 - 1)) with (Z.lnot 1 mod 2 ^ 64). by rewrite !Z.mod_pow2_bits_low by lia.
    - rewrite (testbit_small (n + 1) 16 k) by (unfold in_u; lia). done. }
  rewrite land_wnot_mask by (unfold in_u; lia). change (2 ^ 1) with 2.
  pose proof (Z.mod_pos_bound n 2 ltac:(lia)).
  rewrite Zplus_mod. assert (n mod 2 = 0 ∨ n mod 2 = 1) as [-> | ->] by lia;
    [change ((0 + 1 mod 2) mod 2) with 1|change ((1 + 1 mod 2) mod 2) with 0]; lia.
Qed.
Lemma round_even_64 n : 0 ≤ n < 2 ^ 64 - 1 → Z.land (n +w 1) (wnot 1) = n + n mod 2.
Proof.
  intros Hn. rewrite wadd_small by lia. change (wnot 1) with (wnot (2 ^ 1 - 1)).
  rewrite land_wnot_mask by (unfold in_u; lia). change (2 ^ 1) with 2.
  pose proof (Z.mod_pos_bound n 2 ltac:(lia)).
  rewrite Zplus_mod. assert (n mod 2 = 0 ∨ n mod 2 = 1) as [-> | ->] by lia;
    [change ((0 + 1 mod 2) mod 2) with 1|change ((1 + 1 mod 2) mod 2) with 0]; lia.
Qed.

(** The two halves of the file size. *)
Lemma halves_lor n : 0 ≤ n < 2 ^ 32 → Z.lor (wshl (n / 2 ^ 16) 16) (n mod 2 ^ 16) = n.
Proof.
  intros Hn. assert (0 ≤ n / 2 ^ 16 < 2 ^ 16) by (split; [apply Z.div_pos; lia|apply Z.div_lt_upper_bound; lia]).
  unfold wshl. rewrite Z.shiftl_mul_pow2 by lia. rewrite wrap_small by (unfold in_u; lia).
  rewrite <-add_is_lor; [pose proof (Z.div_mod n (2 ^ 16) ltac:(lia)); lia|].
  rewrite <-Z.shiftl_mul_pow2 by lia. apply Z.bits_inj'. intros k Hk. rewrite Z.land_spec, Z.bits_0.
  destruct (decide (k < 16)); [by rewrite Z.shiftl_spec_low|].
  rewrite Z.mod_pow2_bits_high by lia. by rewrite andb_false_r.
Qed.

Lemma read_ok it v :
  it_wf it → 0 ≤ v → it_next it + v ≤ it_limit it → read it v = (Some (it_next it), with_next (it_next it + v) it).
Proof.
  intros Hwf Hv Hle. pose proof Hwf as [??]. unfold read.
  rewrite advance_spec by (done || (unfold in_u; lia)). by rewrite decide_True by lia.
Qed.
(** In any case [read] stays in the range. *)
Lemma read_spec it v :
  it_wf it → in_u 64 v →
  read it v = if decide (v ≤ it_limit it - it_next it) then (Some (it_next it), with_next (it_next it + v) it) else (None, it).
Proof. intros Hwf Hv. unfold read. rewrite advance_spec by done. by destruct (decide _). Qed.
Lemma with_next_wf it n : it_wf it → it_next it ≤ n ≤ it_limit it → it_wf (with_next n it).
Proof. unfold it_wf. cbn. lia. Qed.

Section find.
Context (mem : Mem) (tl rest : list Z).
Hypothesis (Hmem : mem_ok mem) (Htl : no_nul tl).
(** The string the end marker is compared with: the constant runs on to the first
    zero byte of the program behind it. *)
Local Abbreviation after := (tl ++ 0 :: rest).
Local Abbreviation stop := (TRAILER ++ tl).

Lemma trailer_asciz : TRAILER ++ after = asciz stop ++ rest.
Proof. unfold asciz. by rewrite <-!app_assoc. Qed.
Lemma stop_no_nul : no_nul stop.
Proof. apply Forall_app. split; [|done]. by repeat constructor. Qed.

(** [strcmp] ends at the terminator of the constant operand. *)
Lemma strcmp_total a s r : ∃ d, strcmp mem a (asciz s ++ r) = Done d.
Proof.
  revert a. induction s as [|y s IH]; intros a; cbn [asciz app strcmp].
  - destruct (mem a =? 0); cbn; eauto.
  - change ((s ++ [0]) ++ r) with (asciz s ++ r). destruct (_ && _); [|eauto]. destruct (negb _); eauto.
Qed.

Lemma file_len_range a : in_u 32 (Z.lor (wshl (header_filesize mem a 0) 16) (header_filesize mem a 1)).
Proof.
  pose proof (rd16_range mem (a + 22 + 2 * 0) Hmem) as H0. pose proof (rd16_range mem (a + 22 + 2 * 1) Hmem) as H1.
  unfold header_filesize. set (x := rd16 mem (a + 22 + 2 * 0)) in *. set (y := rd16 mem (a + 22 + 2 * 1)) in *. unfold in_u in *.
  assert (Hx : (x * 2 ^ 16 + y) / 2 ^ 16 = x) by (rewrite Z.div_add_l by lia; rewrite Z.div_small by lia; lia).
  assert (Hy : (x * 2 ^ 16 + y) mod 2 ^ 16 = y) by (rewrite Z.add_comm, Z_mod_plus_full; apply Z.mod_small; lia).
  pose proof (halves_lor (x * 2 ^ 16 + y) ltac:(lia)) as H. rewrite Hx, Hy in H. rewrite H. lia.
Qed.

(** On any bytes [parse_cpio] returns; a file it finds lies between the old and the
    new position, at least a header further. *)
Lemma parse_cpio_total it :
  it_wf it →
  ∃ r it', parse_cpio mem after it = Done (r, it') ∧ it_wf it' ∧ it_limit it' = it_limit it ∧
    it_next it ≤ it_next it' ∧
    ∀ res, r = Some res → it_next it + 26 ≤ cr_name res ≤ cr_contents res ∧ 0 ≤ cr_size res ∧
      cr_contents res + cr_size res ≤ it_next it'.
Proof.
  intros Hwf. unfold parse_cpio.
  rewrite (read_spec it SIZEOF_CpioHeader Hwf ltac:(done)).
  destruct (decide (SIZEOF_CpioHeader ≤ _)) as [Hd1|]; [|by do 2 eexists; split_and!].
  unfold SIZEOF_CpioHeader in *. set (h := it_next it) in *.
  assert (Hw1 : it_wf (with_next (h + 26) it)) by (apply with_next_wf; unfold h in *; [done|lia]).
  set (nl := Z.land (wrap 16 _) _).
  assert (Hnl : in_u 16 nl).
  { apply in_u_bits; [lia|apply Z.land_nonneg; right; lia|]. intros n Hn. unfold nl. rewrite Z.land_spec.
    rewrite (testbit_small _ 16 n); [done| |lia]. by apply wrap_range. }
  unfold in_u in Hnl. rewrite (read_spec _ nl Hw1 ltac:(unfold in_u; lia)).
  destruct (decide (nl ≤ _)) as [Hd2|]; [|do 2 eexists; split_and!; [done..|cbn; lia|done]].
  cbn [with_next it_next it_limit] in *.
  assert (Hw2 : it_wf (with_next (h + 26 + nl) (with_next (h + 26) it))) by (apply (with_next_wf it); unfold h in *; [done|lia]).
  set (cl := Z.lor _ _). pose proof (file_len_range h : in_u 32 cl) as Hcl. unfold in_u in Hcl.
  rewrite round_even_64 by lia. pose proof (Z.mod_pos_bound cl 2 ltac:(lia)).
  rewrite (read_spec _ (cl + cl mod 2) Hw2 ltac:(unfold in_u; lia)).
  cbn [with_next it_next it_limit] in *.
  destruct (decide (cl + cl mod 2 ≤ _)) as [Hd3|]; [|do 2 eexists; split_and!; [done..|cbn; lia|done]].
  rewrite trailer_asciz. destruct (strcmp_total (h + 26) stop rest) as (d & ->). cbn [mbind exec_bind].
  assert (Hw3 : it_wf (with_next (h + 26 + nl + (cl + cl mod 2)) (with_next (h + 26 + nl) (with_next (h + 26) it)))) by (apply (with_next_wf it); unfold h in *; [done|lia]).
  destruct (d =? 0); do 2 eexists; (split; [done|]); (split; [done|]); (split; [done|]); (split; [cbn; lia|]); intros res [= <-]; cbn; lia.
Qed.

(** The fuel is more than the files there can be. *)
Lemma find_loop_total test fuel it :
  (∀ a, ∃ b, test a = Done b) → it_wf it → (it_fuel it < fuel)%nat →
  ∃ r, find_loop mem after test fuel it = Done r ∧
    ∀ w, r = Some w → it_wf w ∧ it_next it ≤ it_next w ∧ it_limit w ≤ it_limit it.
Proof.
  intros Ht. revert it. induction fuel as [|fuel IH]; intros it Hwf Hf; [lia|]. cbn [find_loop].
  destruct (parse_cpio_total it Hwf) as (r & it' & -> & Hwf' & Hl & Hn & Hr). cbn [mbind exec_bind].
  destruct r as [res|]; [|by eexists]. destruct (Hr res eq_refl) as (Hc & Hs & He). clear Hr.
  destruct (Ht (cr_name res)) as ([] & ->); cbn [mbind exec_bind].
  - eexists. split; [done|]. intros w [= <-]. destruct Hwf as [Hwf1 Hwf2]. destruct Hwf' as [Hwf1' Hwf2'].
    destruct (from_raw_wf (cr_contents res) (cr_size res)) as [Hw ->]; [lia..|]. cbn. unfold it_wf. cbn. lia.
  - pose proof Hwf as [? ?]. pose proof Hwf' as [? ?]. destruct (IH it') as (r & -> & Hr); [done|unfold it_fuel in *; rewrite Hl; lia|]. exists r. split; [done|].
    intros w Hw. destruct (Hr w Hw) as (?&?&?). rewrite Hl in *. split_and!; (done || lia).
Qed.

(** ** Archives *)
Lemma length_header f : length (f_meta f) = 20%nat → length (header f) = 26%nat.
Proof. intros H. unfold header. rewrite !length_app, H. done. Qed.

(** The parts of an encoded file in memory. *)
Lemma encode_parts a f :
  file_ok f → holds mem a (encode f) →
  let n := a + 26 in
  let c := n + Z.of_nat (length (pad (asciz (f_name f)))) in
  header_namesize mem a = Z.of_nat (length (asciz (f_name f))) ∧
  Z.lor (wshl (header_filesize mem a 0) 16) (header_filesize mem a 1) = Z.of_nat (length (f_data f)) ∧
  holds mem n (asciz (f_name f)) ∧ holds mem c (f_data f) ∧
  a + Z.of_nat (length (encode f)) = c + Z.of_nat (length (pad (f_data f))).
Proof.
  intros (Hm & Hnn & Hn & Hd) Hh n c. unfold encode in *. rewrite !length_app, (length_header f Hm).
  rewrite !holds_app, (length_header f Hm) in Hh. change (Z.of_nat 26) with 26 in Hh. fold n in Hh. fold c in Hh.
  destruct Hh as (Hhd & Hna & Hda). unfold header in Hhd. rewrite !holds_app in Hhd. rewrite Hm in Hhd. cbn [length le16] in Hhd.
  destruct Hhd as (_ & Hns & Hf0 & Hf1). apply holds_app in Hna as [Hna _]. apply holds_app in Hda as [Hda _].
  assert (Hl : Z.of_nat (length (asciz (f_name f))) = Z.of_nat (length (f_name f)) + 1) by (unfold asciz; rewrite length_app; cbn; lia).
  assert (0 ≤ Z.of_nat (length (f_data f)) / 2 ^ 16 < 2 ^ 16) by (split; [apply Z.div_pos; lia|apply Z.div_lt_upper_bound; lia]).
  pose proof (Z.mod_pos_bound (Z.of_nat (length (f_data f))) (2 ^ 16) ltac:(lia)).
  split_and!; [| |done|done|unfold c, n; lia].
  - unfold header_namesize. change (Z.of_nat 20) with 20 in Hns. apply rd16_le16; [unfold in_u; lia|done].
  - unfold header_filesize. change (Z.of_nat 20) with 20 in *. change (Z.of_nat 2) with 2 in *.
    change (2 * 0) with 0. change (2 * 1) with 2.
    replace (a + 22 + 0) with (a + 20 + 2) by lia. replace (a + 22 + 2) with (a + 20 + 2 + 2) by lia.
    rewrite (rd16_le16 mem _ (Z.of_nat (length (f_data f)) / 2 ^ 16)), (rd16_le16 mem _ (Z.of_nat (length (f_data f)) mod 2 ^ 16)) by (done || (unfold in_u; lia)).
    apply halves_lor. lia.
Qed.

(** [parse_cpio] reads one encoded file and moves behind it. *)
Lemma parse_cpio_encode it f :
  it_wf it → file_ok f → holds mem (it_next it) (encode f) →
  it_next it + Z.of_nat (length (encode f)) ≤ it_limit it →
  ∃ c, parse_cpio mem after it =
      Done (if decide (f_name f = stop) then None
            else Some (mkCpioResult (it_next it + 26) c (Z.of_nat (length (f_data f)))),
            with_next (it_next it + Z.of_nat (length (encode f))) it) ∧
    holds mem (it_next it + 26) (asciz (f_name f)) ∧ holds mem c (f_data f) ∧
    it_next it ≤ c ∧ c + Z.of_nat (length (f_data f)) ≤ it_limit it.
Proof.
  intros Hwf Hok Hh Hle. destruct (encode_parts _ f Hok Hh) as (Hns & Hfs & Hna & Hda & Hlen).
  destruct Hok as (Hm & Hnn & Hn & Hd). set (a := it_next it) in *.
  pose proof (length_pad (asciz (f_name f))) as Hp1. pose proof (length_pad (f_data f)) as Hp2.
  pose proof (Z.mod_pos_bound (Z.of_nat (length (f_data f))) 2 ltac:(lia)).
  pose proof (Z.mod_pos_bound (Z.of_nat (length (asciz (f_name f)))) 2 ltac:(lia)).
  assert (Hl : Z.of_nat (length (asciz (f_name f))) = Z.of_nat (length (f_name f)) + 1) by (unfold asciz; rewrite length_app; cbn; lia).
  unfold parse_cpio, SIZEOF_CpioHeader. rewrite read_ok by (done || (fold a; lia)). fold a.
  rewrite Hns, Hfs, round_even_16, round_even_64 by lia. rewrite <-Hp1, <-Hp2.
  rewrite read_ok; [|apply with_next_wf; fold a; [done|lia]|lia|cbn; lia]. cbn [with_next it_next].
  rewrite read_ok; [|apply (with_next_wf it); fold a; [done|lia]|lia|cbn; lia]. cbn [with_next it_next].
  rewrite trailer_asciz.
  destruct (strcmp_spec mem (a + 26) (f_name f) stop rest Hnn stop_no_nul Hna) as (d & -> & Hd0). cbn [mbind exec_bind].
  eexists. rewrite Hlen. split; [|split; [done|split; [exact Hda|split; [lia|]]]].
  - destruct (Z.eqb_spec d 0) as [E|E]; case_decide; try done; tauto.
  - lia.
Qed.

Lemma archive_cons f fs : archive (f :: fs) = encode f ++ archive fs.
Proof. done. Qed.

(** The loop over an archive followed by less than a header. *)
Lemma find_loop_archive test name fs junk fuel it :
  (∀ a t, no_nul t → it_next it < a → holds mem a (asciz t) → test a = Done (bool_decide (t = name))) →
  it_wf it → Forall file_ok fs → (length junk < 26)%nat →
  it_bytes mem it = archive fs ++ junk → (length fs < fuel)%nat →
  ∃ r, find_loop mem after test fuel it = Done r ∧
    match lookup stop name fs with
    | Some data => ∃ w, r = Some w ∧ it_wf w ∧ it_bytes mem w = data
    | None => r = None
    end.
Proof.
  revert fuel it. induction fs as [|f fs IH]; intros fuel it Ht Hwf Hok Hj Hb Hf; destruct fuel as [|fuel]; try (cbn in Hf; lia).
  - cbn [find_loop lookup]. unfold parse_cpio. rewrite read_spec by done. rewrite decide_False; [by eexists|].
    pose proof (f_equal length Hb) as Hl. unfold it_bytes in Hl. rewrite length_bytes in Hl. cbn in Hl. unfold SIZEOF_CpioHeader. lia.
  - apply Forall_cons in Hok as [Hokf Hok]. rewrite archive_cons, <-app_assoc in Hb.
    pose proof (f_equal length Hb) as Hl. unfold it_bytes in Hl. rewrite length_bytes, length_app in Hl.
    destruct Hwf as [Hwf1 Hwf2].
    assert (Hsp : it_next it + Z.of_nat (length (encode f)) ≤ it_limit it) by lia.
    unfold it_bytes in Hb. rewrite (bytes_split mem _ (it_next it + Z.of_nat (length (encode f)))) in Hb by lia.
    apply app_inj_1 in Hb as [Hb1 Hb2]; [|rewrite length_bytes; lia].
    replace (it_next it + Z.of_nat (length (encode f)) - it_next it) with (Z.of_nat (length (encode f))) in Hb1 by lia.
    destruct (parse_cpio_encode it f) as (c & Hpc & Hna & Hda & Hc1 & Hc2); [by split|done..|].
    cbn [find_loop lookup]. rewrite Hpc. cbn [mbind exec_bind]. case_decide as Hstop; [by eexists|].
    cbn [cr_name]. rewrite (Ht _ (f_name f)); [|by destruct Hokf as (_ & ? & _)|lia|done]. cbn [mbind exec_bind].
    destruct (decide (f_name f = name)) as [He|He].
    + rewrite bool_decide_true by done. cbn [cr_contents cr_size]. eexists. split; [done|].
      destruct (from_raw_wf c (Z.of_nat (length (f_data f)))) as [Hw ->]; [lia..|].
      eexists. split; [done|]. split; [unfold it_wf; cbn; lia|]. unfold it_bytes. cbn.
      replace (c + Z.of_nat (length (f_data f)) - c) with (Z.of_nat (length (f_data f))) by lia. exact Hda.
    + rewrite bool_decide_false by done. apply IH; [|apply with_next_wf; [by split|lia]|done..|exact Hb2|cbn in Hf; lia].
      intros a t ? Ha. apply Ht; [done|]. cbn in Ha. lia.
Qed.

Lemma archive_fuel fs junk it : Forall file_ok fs → it_bytes mem it = archive fs ++ junk → (length fs < S (it_fuel it))%nat.
Proof.
  intros Hok Hb. pose proof (f_equal length Hb) as Hl. unfold it_bytes in Hl. rewrite length_bytes, length_app in Hl.
  assert (length fs ≤ length (archive fs))%nat; [|unfold it_fuel; lia]. clear Hb Hl.
  induction Hok as [|f fs (Hm & _) _ IH]; [done|]. rewrite archive_cons. unfold encode.
  rewrite !length_app, (length_header f Hm). cbn. lia.
Qed.

Lemma find_file_spec it name fs junk :
  it_wf it → Forall file_ok fs → no_nul name → (length junk < 26)%nat → it_bytes mem it = archive fs ++ junk →
  ∃ r, find_file mem after it (asciz name) = Done r ∧
    match lookup stop name fs with
    | Some data => ∃ w, r = Some w ∧ it_wf w ∧ it_bytes mem w = data
    | None => r = None
    end.
Proof.
  intros Hwf Hok Hn Hj Hb. eapply find_loop_archive; [|done..|by eapply archive_fuel].
  intros a t Ht _ Ha. destruct (strcmp_spec mem a t name [] Ht Hn Ha) as (d & Hd & Hd0). rewrite app_nil_r in Hd. rewrite Hd.
  cbn [mbind exec_bind]. f_equal. destruct (Z.eqb_spec d 0); case_bool_decide; tauto.
Qed.

Lemma find_file_memiter_spec it fmem filename fs junk :
  mem_ok fmem → it_wf it → it_wf filename → it_limit filename - it_next filename < 2 ^ 64 - 1 →
  Forall file_ok fs → (length junk < 26)%nat →
  it_bytes mem it = archive fs ++ junk → no_nul (it_bytes fmem filename) →
  ∃ r, find_file_memiter mem after it fmem filename = Done r ∧
    match lookup stop (it_bytes fmem filename) fs with
    | Some data => ∃ w, r = Some w ∧ it_wf w ∧ it_bytes mem w = data
    | None => r = None
    end.
Proof.
  intros Hfm Hwf Hfw Hfl Hok Hj Hb Hnn. eapply find_loop_archive; [|done..|by eapply archive_fuel].
  intros a t Ht Hlt Ha. f_equal. pose proof Hwf as [[? ?] ?]. apply eq_iff_eq_true.
  rewrite iseq_spec, bool_decide_eq_true by (done || lia). split.
  - intros [_ Hh]. eapply asciz_unique; done.
  - intros ->. done.
Qed.
End find.

(** C23: [find_file] decodes what the archive format encodes: on an archive in memory,
    followed by fewer than the 26 bytes of a header, it returns the contents of the first
    file with the given name, and nothing if there is none.  The end marker [TRAILER!!!]
    of the format does not stop the search, against the comment of [parse_cpio]: the
    constant it compares with is [TRAILER!!!] and a newline without a NUL behind it, so
    the search stops early only at a file whose name is that constant with the bytes
    [tl] that follow it in memory up to the next NUL. *)
Theorem find_file_decodes mem tl rest it name fs junk :
  mem_ok mem → no_nul tl → it_wf it → Forall file_ok fs → no_nul name → (length junk < 26)%nat →
  it_bytes mem it = archive fs ++ junk →
  ∃ r, find_file mem (tl ++ 0 :: rest) it (asciz name) = Done r ∧
    match lookup (TRAILER ++ tl) name fs with
    | Some data => ∃ w, r = Some w ∧ it_wf w ∧ it_bytes mem w = data
    | None => r = None
    end.
Proof. intros Hm Ht. by apply find_file_spec. Qed.

(** C24: on any bytes at all, [find_file] and [find_file_memiter] come to an end, and
    a file they return lies within the archive. *)
Theorem find_file_in_bounds mem tl rest it name fmem filename :
  mem_ok mem → it_wf it →
  (∃ r, find_file mem (tl ++ 0 :: rest) it (asciz name) = Done r ∧
     ∀ w, r = Some w → it_wf w ∧ it_next it ≤ it_next w ∧ it_limit w ≤ it_limit it) ∧
  (∃ r, find_file_memiter mem (tl ++ 0 :: rest) it fmem filename = Done r ∧
     ∀ w, r = Some w → it_wf w ∧ it_next it ≤ it_next w ∧ it_limit w ≤ it_limit it).
Proof.
  intros Hm Hwf. split; apply find_loop_total; try done; try lia.
  - intros a. destruct (strcmp_total mem a name []) as (d & Hd). rewrite app_nil_r in Hd. rewrite Hd. by eexists.
  - intros a. by eexists.
Qed.

(** ** An archive of two files with the usual end marker *)
Module CpioDemo.
Definition meta : list Z := replicate 20 7.
(** The name of the end marker of cpio archives. *)
Definition end_marker : list Z := [84; 82; 65; 73; 76; 69; 82; 33; 33; 33].
Definition files : list file :=
  [mkFile meta [97] [1; 2; 3]; mkFile meta [98; 99] [4; 5]; mkFile meta end_marker []].
Definition image : list Z := archive files.
Definition mem : Mem := buf_mem image.
Definition it : MemIter := mkMemIter BUF (BUF + Z.of_nat (length image)).

Lemma cpio_mem_bytes : mem_ok mem.
Proof.
  assert (Forall (in_u 8) image) as H.
  { apply Forall_forall. intros b Hb. assert (Forall (λ b, (0 <=? b) && (b <? 256) = true) image) as Hall by (vm_compute; by repeat constructor).
    rewrite Forall_forall in Hall. apply Hall, andb_prop in Hb as [??]. unfold in_u. lia. }
  intros x. unfold mem, buf_mem. destruct (image !! _) as [b|] eqn:E; cbn; [|unfold in_u; lia].
  by eapply (Forall_lookup_1 _ _ _ _ H).
Qed.
Lemma files_ok : Forall file_ok files.
Proof.
  repeat (apply Forall_cons; split); [..|by apply Forall_nil];
    (split_and!; [done|unfold no_nul; cbn; repeat (apply Forall_cons; split; [done|]); by apply Forall_nil|vm_compute; done|vm_compute; done]).
Qed.
Lemma image_bytes : it_bytes mem it = archive files ++ [].
Proof. vm_compute. reflexivity. Qed.
Lemma it_ok : it_wf it.
Proof. vm_compute. split; [split; congruence|done]. Qed.

Lemma find_file_decodes_witness :
  lookup (TRAILER ++ []) [98; 99] files = Some [4; 5] ∧
  ∃ r, find_file mem ([] ++ 0 :: []) it (asciz [98; 99]) = Done r ∧
    ∃ w, r = Some w ∧ it_wf w ∧ it_bytes mem w = [4; 5].
Proof.
  split; [reflexivity|].
  refine (find_file_decodes mem [] [] it [98; 99] files [] cpio_mem_bytes (Forall_nil_2 _) it_ok files_ok _ _ image_bytes).
  - by apply Forall_cons_2, Forall_cons_2, Forall_nil_2.
  - vm_compute. lia.
Defined.
Lemma find_file_in_bounds_witness :
  ∃ r, find_file mem ([] ++ 0 :: []) it (asciz [97]) = Done r ∧
    ∀ w, r = Some w → it_wf w ∧ it_next it ≤ it_next w ∧ it_limit w ≤ it_limit it.
Proof. exact (proj1 (find_file_in_bounds mem [] [] it [97] mem it cpio_mem_bytes it_ok)). Defined.

(** The end marker does not end the enumeration: it is found as a file, since the
    constant of the code has another name. *)
Lemma end_marker_is_found :
  find_file mem ([] ++ 0 :: []) it (asciz end_marker) = Done (Some (mkMemIter (BUF + 102) (BUF + 102))).
Proof. vm_compute. reflexivity. Qed.
End CpioDemo.
