(* ===== verification/Fdt.v ===== *)
(** * Flattened device trees ([fdt.rs])

    A node of the tree is a cursor into the structure block: the slice of the block
    that begins with the node's properties.  The tokenizer reads big-endian words,
    keeps to 4-byte boundaries and panics where the code does: on unknown tokens,
    when the block ends within padding, and on names beyond the strings block. *)
From S2P Require Import Prelude Addr Memory.

(** A [&[u8]]: the bytes from [s_ptr] on. *)
Record slice := mkSlice { s_ptr : Z; s_len : Z }.
Definition split_at (s : slice) (mid : Z) : exec (slice * slice) :=
  assert_then (mid <=? s_len s) (Done (mkSlice (s_ptr s) mid, mkSlice (s_ptr s + mid) (s_len s - mid))).

(** ** The header: big-endian words at an address *)
Definition SIZEOF_FdtHeader : Z := 40.
Definition SIZEOF_FdtReserveEntry : Z := 16.
Definition hdr_magic (mem : Mem) (h : Z) : Z := be32 mem h.
Definition hdr_totalsize (mem : Mem) (h : Z) : Z := be32 mem (h + 4).
Definition hdr_off_dt_struct (mem : Mem) (h : Z) : Z := be32 mem (h + 8).
Definition hdr_off_dt_strings (mem : Mem) (h : Z) : Z := be32 mem (h + 12).
Definition hdr_off_mem_rsvmap (mem : Mem) (h : Z) : Z := be32 mem (h + 16).
Definition hdr_version (mem : Mem) (h : Z) : Z := be32 mem (h + 20).
Definition hdr_last_comp_version (mem : Mem) (h : Z) : Z := be32 mem (h + 24).
Definition hdr_size_dt_strings (mem : Mem) (h : Z) : Z := be32 mem (h + 32).
Definition hdr_size_dt_struct (mem : Mem) (h : Z) : Z := be32 mem (h + 36).

Module FdtToken.
Inductive t := BeginNode | EndNode | Prop_ | Nop | End_.
#[global] Instance t_eq_dec : EqDecision t.
Proof. solve_decision. Defined.
Definition try_from (value : Z) : result t unit :=
  match value with
  | 1 => Ok BeginNode
  | 2 => Ok EndNode
  | 3 => Ok Prop_
  | 4 => Ok Nop
  | 9 => Ok End_
  | _ => Err tt
  end.
End FdtToken.

Definition FDT_VERSION : Z := 17.
Definition FDT_MAGIC : Z := 0xd00dfeed.
Definition FDT_TOKEN_ALIGNMENT : Z := 4.

Record FdtNode := mkFdtNode { nd_hdr : Z; nd_data : slice; nd_strs : slice }.
Record FdtTokenizer := mkTok { t_cur : slice; t_strs : slice }.
Definition set_cur (t : FdtTokenizer) (s : slice) : FdtTokenizer := mkTok s (t_strs t).

(** [fdt_parse_number]; [None] unless the value has 4 or 8 bytes. *)
Definition fdt_parse_number (mem : Mem) (data : slice) : exec (option Z) :=
  assert_then (is_aligned (s_ptr data) FDT_TOKEN_ALIGNMENT)
    (Done (match s_len data with
           | 4 => Some (be32 mem (s_ptr data))
           | 8 => Some (be64 mem (s_ptr data))
           | _ => None
           end)).

(** ** The tokenizer *)
Section tokenizer.
Context (mem : Mem).

Definition tok_align (t : FdtTokenizer) : exec FdtTokenizer :=
  let modular := s_ptr (t_cur t) mod FDT_TOKEN_ALIGNMENT in
  '(_, cur) ← split_at (t_cur t) ((FDT_TOKEN_ALIGNMENT - modular) mod FDT_TOKEN_ALIGNMENT);
  Done (set_cur t cur).

Definition tok_bytes (t : FdtTokenizer) (size : Z) : exec (option slice * FdtTokenizer) :=
  if s_len (t_cur t) <? size then Done (None, t)
  else
    '(first, rest) ← split_at (t_cur t) size;
    t ← tok_align (set_cur t rest);
    Done (Some first, t).

Definition tok_u32 (t : FdtTokenizer) : exec (option Z * FdtTokenizer) :=
  '(b, t) ← tok_bytes t 4;
  match b with
  | None => Done (None, t)
  | Some b => Done (Some (be32 mem (s_ptr b)), t)
  end.

(** The bytes left bound the rounds of each loop. *)
Definition tok_fuel (t : FdtTokenizer) : nat := S (Z.to_nat (s_len (t_cur t))).

Definition token_step (t : FdtTokenizer) : exec (FdtTokenizer + option FdtToken.t * FdtTokenizer) :=
  '(v, t) ← tok_u32 t;
  match v with
  | None => Done (inr (None, t))
  | Some v =>
      token ← unwrap_res (FdtToken.try_from v);
      Done (if bool_decide (token ≠ FdtToken.Nop) then inr (Some token, t) else inl t)
  end.
Definition token (t : FdtTokenizer) : exec (option FdtToken.t * FdtTokenizer) :=
  while_loop token_step (tok_fuel t) t.

Definition rewind (t : FdtTokenizer) : FdtTokenizer :=
  set_cur t (mkSlice (s_ptr (t_cur t) - FDT_TOKEN_ALIGNMENT) (s_len (t_cur t) + FDT_TOKEN_ALIGNMENT)).

(** [true] is [Some(expect)]. *)
Definition token_expect (t : FdtTokenizer) (expect : FdtToken.t) : exec (bool * FdtTokenizer) :=
  '(tk, t) ← token t;
  match tk with
  | None => Done (false, t)
  | Some tk => if bool_decide (tk ≠ expect) then Done (false, rewind t) else Done (true, t)
  end.

(** The string with its terminator. *)
Definition tok_str (t : FdtTokenizer) : exec (option slice * FdtTokenizer) :=
  match strnlen_loop mem (s_ptr (t_cur t)) 0 (Z.to_nat (s_len (t_cur t))) with
  | None => Done (None, t)
  | Some i =>
      '(first, rest) ← split_at (t_cur t) (i + 1);
      t ← tok_align (set_cur t rest);
      Done (Some first, t)
  end.

Definition collapse (t : FdtTokenizer) : FdtTokenizer :=
  set_cur t (mkSlice (s_ptr (t_cur t) + s_len (t_cur t)) 0).

(** The address of the name and the value.  The guard collapses the cursor where the
    function fails after the token. *)
Definition next_property (t : FdtTokenizer) : exec (option (Z * slice) * FdtTokenizer) :=
  '(ok, t) ← token_expect t FdtToken.Prop_;
  if negb ok then Done (None, t)
  else
  '(size, t) ← tok_u32 t;
  match size with
  | None => Done (None, collapse t)
  | Some size =>
      '(nameoff, t) ← tok_u32 t;
      match nameoff with
      | None => Done (None, collapse t)
      | Some nameoff =>
          '(buf, t) ← tok_bytes t size;
          match buf with
          | None => Done (None, collapse t)
          | Some buf =>
              assert_then (nameoff <=? s_len (t_strs t)) (Done (Some (s_ptr (t_strs t) + nameoff, buf), t))
          end
      end
  end.

Definition next_subnode (t : FdtTokenizer) : exec (option slice * FdtTokenizer) :=
  '(ok, t) ← token_expect t FdtToken.BeginNode;
  if negb ok then Done (None, t)
  else
  '(name, t) ← tok_str t;
  match name with
  | None => Done (None, collapse t)
  | Some name => Done (Some name, t)
  end.

Definition skip_properties_step (t : FdtTokenizer) : exec (FdtTokenizer + FdtTokenizer) :=
  '(p, t) ← next_property t;
  Done (if bool_decide (is_Some p) then inl t else inr t).
Definition skip_properties (t : FdtTokenizer) : exec FdtTokenizer :=
  while_loop skip_properties_step (tok_fuel t) t.

(** The two nested loops of [skip_node] as one: a round enters a subnode, or leaves
    one.  The result is whether the function returns [Some(())]. *)
Definition skip_node_step (s : FdtTokenizer * Z) : exec (FdtTokenizer * Z + bool * FdtTokenizer) :=
  let '(t, pending) := s in
  '(name, t) ← next_subnode t;
  match name with
  | Some _ => t ← skip_properties t; Done (inl (t, pending + 1))
  | None =>
      '(tk, t) ← token t;
      match tk with
      | None => Done (inr (false, t))
      | Some tk =>
          if bool_decide (tk ≠ FdtToken.EndNode) then Done (inr (false, collapse t))
          else Done (if pending - 1 =? 0 then inr (true, t) else inl (t, pending - 1))
      end
  end.
Definition skip_node (t : FdtTokenizer) : exec (bool * FdtTokenizer) :=
  t ← skip_properties t;
  while_loop skip_node_step (tok_fuel t) (t, 1).
End tokenizer.

(** ** Nodes *)
Section nodes.
Context (mem : Mem).

Definition new_root (hdr : Z) : option FdtNode :=
  if negb (hdr_magic mem hdr =? FDT_MAGIC) then None
  else
  let max_ver := hdr_version mem hdr in
  let min_ver := hdr_last_comp_version mem hdr in
  if (FDT_VERSION <? min_ver) || (max_ver <? FDT_VERSION) then None
  else Some (mkFdtNode hdr (mkSlice (hdr + hdr_off_dt_struct mem hdr) (hdr_size_dt_struct mem hdr))
                           (mkSlice (hdr + hdr_off_dt_strings mem hdr) (hdr_size_dt_strings mem hdr))).

Definition tok_new (n : FdtNode) : FdtTokenizer := mkTok (nd_data n) (nd_strs n).
Definition set_data (n : FdtNode) (s : slice) : FdtNode := mkFdtNode (nd_hdr n) s (nd_strs n).

Definition read_property_step (name : list Z) (t : FdtTokenizer) : exec (FdtTokenizer + result slice unit) :=
  '(p, t) ← next_property mem t;
  match p with
  | None => Done (inr (Err tt))
  | Some (prop_name, buf) =>
      d ← strcmp mem prop_name name;
      Done (if d =? 0 then inr (Ok buf) else inl t)
  end.
Definition read_property (n : FdtNode) (name : list Z) : exec (result slice unit) :=
  while_loop (read_property_step name) (tok_fuel (tok_new n)) (tok_new n).

(** The name of the first child, and the cursor moved to it. *)
Definition first_child (n : FdtNode) : exec (option slice * FdtNode) :=
  t ← skip_properties mem (tok_new n);
  '(name, t) ← next_subnode mem t;
  match name with
  | None => Done (None, n)
  | Some name => Done (Some name, set_data n (t_cur t))
  end.

Definition next_sibling (n : FdtNode) : exec (option slice * FdtNode) :=
  '(ok, t) ← skip_node mem (tok_new n);
  if negb ok then Done (None, n)
  else
  '(name, t) ← next_subnode mem t;
  match name with
  | None => Done (None, n)
  | Some name => Done (Some name, set_data n (t_cur t))
  end.

Definition find_child_step (child : list Z) (t : FdtTokenizer) : exec (FdtTokenizer + option FdtTokenizer) :=
  '(name, t) ← next_subnode mem t;
  match name with
  | None => Done (inr None)
  | Some name =>
      d ← strcmp mem (s_ptr name) child;
      if d =? 0 then Done (inr (Some t))
      else '(_, t) ← skip_node mem t; Done (inl t)
  end.
(** [true] is [Some(())]. *)
Definition find_child (n : FdtNode) (child : list Z) : exec (bool * FdtNode) :=
  t ← skip_properties mem (tok_new n);
  r ← while_loop (find_child_step child) (tok_fuel t) t;
  match r with
  | None => Done (false, n)
  | Some t => Done (true, set_data n (t_cur t))
  end.
End nodes.

(** ** Memory reservations *)

(** [v.to_be()] stored in [n] bytes. *)
Definition wr_be (n : Z) (mem : Mem) (a v : Z) : Mem :=
  λ x, if bool_decide (a ≤ x < a + n) then le_byte v (n - 1 - (x - a)) else mem x.

(** The entry is written with 8-byte stores, after everything from the map on moved up. *)
Definition add_mem_reservation (mem : Mem) (hdr addr len : Z) : exec Mem :=
  let begin := hdr + hdr_off_mem_rsvmap mem hdr in
  assert_then (is_aligned begin 8) (
  let old_size := wrap 32 (hdr_totalsize mem hdr - hdr_off_mem_rsvmap mem hdr) in
  let mem := wr_be 4 mem (hdr + 4) (wrap 32 (hdr_totalsize mem hdr + SIZEOF_FdtReserveEntry)) in
  let mem := wr_be 4 mem (hdr + 8) (wrap 32 (hdr_off_dt_struct mem hdr + SIZEOF_FdtReserveEntry)) in
  let mem := wr_be 4 mem (hdr + 12) (wrap 32 (hdr_off_dt_strings mem hdr + SIZEOF_FdtReserveEntry)) in
  let mem := memcpy mem (begin + SIZEOF_FdtReserveEntry) begin old_size in
  let mem := wr_be 8 mem begin addr in
  Done (wr_be 8 mem (begin + 8) len)).
Definition total_size (mem : Mem) (hdr : Z) : Z := hdr_totalsize mem hdr.
