(* ===== verification/FdtLoops.v ===== *)
(** * The loops of the device tree parser terminate

    Every operation of the tokenizer shortens what is left of the block or keeps it,
    whatever the bytes are; so each loop of [fdt.rs] ends, and the fuel of the
    definitions is enough. *)
From S2P Require Import Prelude Addr Memory Fdt.

Section loops.
Context (mem : Mem) (Hmem : mem_ok mem).

Definition tlen (t : FdtTokenizer) : Z := s_len (t_cur t).
Definition tmeasure (t : FdtTokenizer) : nat := Z.to_nat (tlen t).

(** What an operation may do to the cursor: consume at least [n] bytes, or keep the
    rest no longer. *)
Definition consumed (n : Z) (t t' : FdtTokenizer) : Prop := 0 ≤ tlen t' ∧ tlen t' + n ≤ tlen t.
Definition shorter (t t' : FdtTokenizer) : Prop := tlen t' ≤ tlen t.

Lemma consumed_shorter n t t' : 0 ≤ n → consumed n t t' → shorter t t'.
Proof. unfold consumed, shorter. lia. Qed.
Lemma consumed_measure n t t' : 0 < n → consumed n t t' → (tmeasure t' < tmeasure t)%nat.
Proof. unfold consumed, tmeasure. lia. Qed.

Lemma split_at_inv s mid a b :
  split_at s mid = Done (a, b) → mid ≤ s_len s ∧ a = mkSlice (s_ptr s) mid ∧ b = mkSlice (s_ptr s + mid) (s_len s - mid).
Proof. unfold split_at, assert_then. destruct (Z.leb_spec mid (s_len s)); [|done]. by intros [= <- <-]. Qed.

Lemma tok_align_len t t' : tok_align t = Done t' → 0 ≤ tlen t' ∧ tlen t' ≤ tlen t.
Proof.
  unfold tok_align. intros ([a b] & H & [= <-])%bind_Done_inv. apply split_at_inv in H as (Hle & _ & ->).
  pose proof (Z.mod_pos_bound (FDT_TOKEN_ALIGNMENT - s_ptr (t_cur t) mod FDT_TOKEN_ALIGNMENT) FDT_TOKEN_ALIGNMENT ltac:(done)).
  unfold tlen. cbn. lia.
Qed.

Lemma tok_bytes_len t size r t' :
  0 ≤ size → tok_bytes t size = Done (r, t') →
  match r with Some _ => consumed size t t' | None => t' = t end.
Proof.
  intros Hs. unfold tok_bytes. destruct (Z.ltb_spec (s_len (t_cur t)) size); [by intros [= <- <-]|].
  intros ([a b] & Hsp & (t1 & Hal & [= <- <-])%bind_Done_inv)%bind_Done_inv.
  apply split_at_inv in Hsp as (_ & _ & ->). apply tok_align_len in Hal. unfold consumed, tlen in *. cbn in Hal. lia.
Qed.

Lemma be32_range a : in_u 32 (be32 mem a).
Proof.
  pose proof (Hmem a). pose proof (Hmem (a + 1)). pose proof (Hmem (a + 2)). pose proof (Hmem (a + 2 + 1)).
  unfold be32, be16, in_u in *. lia.
Qed.

Lemma tok_u32_len t r t' :
  tok_u32 mem t = Done (r, t') → match r with Some v => in_u 32 v ∧ consumed 4 t t' | None => t' = t end.
Proof.
  unfold tok_u32. intros ([b t1] & Hb & H)%bind_Done_inv. apply tok_bytes_len in Hb; [|done].
  destruct b as [b|]; injection H as <- <-; [|done]. split; [apply be32_range|done].
Qed.

Lemma token_decreases : decreases (token_step mem) tmeasure.
Proof.
  intros t t'. unfold token_step. intros ([v t1] & Hv & H)%bind_Done_inv. apply tok_u32_len in Hv.
  destruct v as [v|]; [|done]. apply bind_Done_inv in H as (tk & _ & H). case_bool_decide; [done|]. injection H as <-.
  by eapply consumed_measure; [|apply Hv].
Qed.

Lemma token_len t r t' :
  token mem t = Done (r, t') → match r with Some _ => consumed 4 t t' | None => shorter t t' end.
Proof.
  intros H%while_loop_inv. remember (r, t') as rt eqn:Hrt. revert r t' Hrt.
  induction H as [s rt Hs|s s' rt Hs _ IH]; intros r t' ->; unfold token_step in Hs;
    apply bind_Done_inv in Hs as ([v t1] & Hv & Hs); apply tok_u32_len in Hv; (destruct v as [v|]; [apply bind_Done_inv in Hs as (tk & _ & Hs)|]).
  - case_bool_decide; [|done]. injection Hs as <- <-. apply Hv.
  - injection Hs as <- <-. subst. unfold shorter. lia.
  - case_bool_decide; [done|]. injection Hs as <-. specialize (IH r t' eq_refl). destruct Hv as [_ Hv].
    unfold consumed, shorter in *. destruct r; lia.
  - done.
Qed.

Lemma token_expect_len t e ok t' :
  token_expect mem t e = Done (ok, t') → if ok then consumed 4 t t' else shorter t t'.
Proof.
  unfold token_expect. intros ([tk t1] & Ht & H)%bind_Done_inv. apply token_len in Ht. destruct tk as [tk|].
  - case_bool_decide; injection H as <- <-; [|done]. unfold consumed, shorter, tlen in *. cbn. unfold FDT_TOKEN_ALIGNMENT. lia.
  - by injection H as <- <-.
Qed.

Lemma collapse_len t t' n : 0 ≤ n → consumed n t t' → shorter t (collapse t').
Proof. unfold consumed, shorter, tlen. cbn. lia. Qed.

Lemma next_property_len t r t' :
  next_property mem t = Done (r, t') → match r with Some _ => consumed 4 t t' | None => shorter t t' end.
Proof.
  unfold next_property. intros ([ok t1] & Ht & H)%bind_Done_inv. apply token_expect_len in Ht. destruct ok; cbn [negb] in H; [|by injection H as <- <-].
  apply bind_Done_inv in H as ([sz t2] & Hsz & H). apply tok_u32_len in Hsz. destruct sz as [sz|].
  2:{ injection H as <- <-. subst. by eapply (collapse_len _ _ 4). }
  destruct Hsz as [Hsz Hc2]. apply bind_Done_inv in H as ([no t3] & Hno & H). apply tok_u32_len in Hno. unfold consumed, in_u in *.
  destruct no as [no|]; [|injection H as <- <-; subst; unfold shorter, tlen in *; cbn; lia].
  apply bind_Done_inv in H as ([bf t4] & Hbf & H). apply tok_bytes_len in Hbf; [|lia].
  destruct bf as [bf|]; [|injection H as <- <-; subst; unfold shorter, tlen in *; cbn; lia].
  unfold assert_then in H. destruct (_ <=? _); [|done]. injection H as <- <-. unfold consumed in *. lia.
Qed.

Lemma tok_str_len t r t' :
  tok_str mem t = Done (r, t') → match r with Some _ => consumed 1 t t' | None => t' = t end.
Proof.
  unfold tok_str. pose proof (strnlen_loop_spec mem (s_ptr (t_cur t)) 0 (Z.to_nat (s_len (t_cur t))) _ eq_refl) as Hs.
  destruct (strnlen_loop _ _ _ _) as [i|]; [|by intros [= <- <-]].
  intros ([a b] & Hsp & (t1 & Hal & [= <- <-])%bind_Done_inv)%bind_Done_inv.
  apply split_at_inv in Hsp as (_ & _ & ->). apply tok_align_len in Hal. unfold consumed, tlen in *. cbn in Hal. lia.
Qed.

Lemma next_subnode_len t r t' :
  next_subnode mem t = Done (r, t') → match r with Some _ => consumed 4 t t' | None => shorter t t' end.
Proof.
  unfold next_subnode. intros ([ok t1] & Ht & H)%bind_Done_inv. apply token_expect_len in Ht. destruct ok; cbn [negb] in H; [|by injection H as <- <-].
  apply bind_Done_inv in H as ([nm t2] & Hn & H). apply tok_str_len in Hn. unfold consumed, shorter in *.
  destruct nm; injection H as <- <-; [lia|]. subst. unfold tlen in *. cbn. lia.
Qed.

Lemma skip_properties_decreases : decreases (skip_properties_step mem) tmeasure.
Proof.
  intros t t'. unfold skip_properties_step. intros ([p t1] & Hp & H)%bind_Done_inv. apply next_property_len in Hp.
  case_bool_decide as Hs; [|done]. injection H as <-. destruct Hs as [q ->]. by eapply consumed_measure; [|apply Hp].
Qed.

Lemma skip_properties_len t t' : skip_properties mem t = Done t' → shorter t t'.
Proof.
  intros H%while_loop_inv. induction H as [s t' Hs|s s' t' Hs _ IH]; unfold skip_properties_step in Hs;
    apply bind_Done_inv in Hs as ([p t1] & Hp & Hs); apply next_property_len in Hp; case_bool_decide as Hq; try done; injection Hs as ->.
  - destruct p; [by exfalso; eauto|done].
  - destruct Hq as [q ->]. unfold consumed, shorter in *. lia.
Qed.

Lemma skip_node_decreases : decreases (skip_node_step mem) (λ s, tmeasure s.1).
Proof.
  intros [t p] [t' p']. unfold skip_node_step. intros ([nm t1] & Hn & H)%bind_Done_inv. apply next_subnode_len in Hn.
  destruct nm as [nm|].
  - apply bind_Done_inv in H as (t2 & Hs & [= <- <-]). apply skip_properties_len in Hs. unfold consumed, shorter, tmeasure in *. cbn. lia.
  - apply bind_Done_inv in H as ([tk t2] & Ht & H). apply token_len in Ht. destruct tk as [tk|]; [|done].
    case_bool_decide; [done|]. destruct (_ =? 0); [done|]. injection H as <- <-. unfold consumed, shorter, tmeasure in *. cbn. lia.
Qed.

Lemma skip_node_len t ok t' : skip_node mem t = Done (ok, t') → shorter t t'.
Proof.
  unfold skip_node. intros (t1 & Hs & H%while_loop_inv)%bind_Done_inv. apply skip_properties_len in Hs.
  remember (t1, 1) as s eqn:E. remember (ok, t') as r eqn:Er. assert (Hshort : shorter t s.1) by by subst. clear E Hs.
  revert Hshort Er. induction H as [s r Hst|s s' r Hst _ IH]; intros Hsh ->; destruct s as [tk p]; cbn in Hsh; unfold skip_node_step in Hst;
    apply bind_Done_inv in Hst as ([nm t2] & Hn & Hst); apply next_subnode_len in Hn; (destruct nm as [nm|];
      [apply bind_Done_inv in Hst as (t3 & Hs & Hst); apply skip_properties_len in Hs
      |apply bind_Done_inv in Hst as ([k t3] & Ht & Hst); apply token_len in Ht; destruct k as [k|]; [case_bool_decide|]]);
    try (destruct (_ =? 0)); try done; injection Hst; intros; subst; unfold consumed, shorter, tlen in *; cbn in *; try lia.
  all: apply IH; [cbn; lia|done].
Qed.

Lemma read_property_decreases name : decreases (read_property_step mem name) tmeasure.
Proof.
  intros t t'. unfold read_property_step. intros ([p t1] & Hp & H)%bind_Done_inv. apply next_property_len in Hp.
  destruct p as [[pn buf]|]; [|done]. apply bind_Done_inv in H as (d & _ & H). destruct (d =? 0); [done|]. injection H as <-.
  by eapply consumed_measure; [|apply Hp].
Qed.

Lemma find_child_decreases child : decreases (find_child_step mem child) tmeasure.
Proof.
  intros t t'. unfold find_child_step. intros ([nm t1] & Hn & H)%bind_Done_inv. apply next_subnode_len in Hn.
  destruct nm as [nm|]; [|done]. apply bind_Done_inv in H as (d & _ & H). destruct (d =? 0); [done|].
  apply bind_Done_inv in H as ([ok t2] & Hs & [= <-]). apply skip_node_len in Hs. unfold consumed, shorter, tmeasure in *. lia.
Qed.

Lemma tok_fuel_measure t : (tmeasure t < tok_fuel t)%nat.
Proof. unfold tmeasure, tok_fuel, tlen. lia. Qed.
End loops.

(** C22: the loops of the parser terminate on every memory, whatever the bytes of the
    blob are: the loops over tokens, properties, skipped nodes and children have no
    infinite run, and with the fuel of the model, or any more of it, a loop gives the
    same result, so none of the results is due to the fuel. *)
Theorem fdt_loops_terminate (mem : Mem) (name : list Z) :
  mem_ok mem →
  halts (token_step mem) ∧ halts (skip_properties_step mem) ∧ halts (skip_node_step mem) ∧
  halts (read_property_step mem name) ∧ halts (find_child_step mem name) ∧
  ∀ t p fuel, (tok_fuel t ≤ fuel)%nat →
    while_loop (token_step mem) fuel t = token mem t ∧
    while_loop (skip_properties_step mem) fuel t = skip_properties mem t ∧
    while_loop (skip_node_step mem) fuel (t, p) = while_loop (skip_node_step mem) (tok_fuel t) (t, p) ∧
    while_loop (read_property_step mem name) fuel t = while_loop (read_property_step mem name) (tok_fuel t) t ∧
    while_loop (find_child_step mem name) fuel t = while_loop (find_child_step mem name) (tok_fuel t) t.
Proof.
  intros Hm. split_and!; eauto using decreases_halts, token_decreases, skip_properties_decreases, skip_node_decreases,
    read_property_decreases, find_child_decreases.
  intros t p fuel Hf. pose proof (tok_fuel_measure t) as Ht. split_and!; eapply while_loop_fuel;
    eauto using token_decreases, skip_properties_decreases, skip_node_decreases, read_property_decreases, find_child_decreases;
    cbn; lia.
Qed.
Lemma fdt_loops_terminate_witness :
  halts (find_child_step (buf_mem [0; 0; 0; 1; 118; 109; 49; 0; 0; 0; 0; 2; 0; 0; 0; 2]) [118; 109; 49; 0]).
Proof.
  apply (fdt_loops_terminate (buf_mem [0; 0; 0; 1; 118; 109; 49; 0; 0; 0; 0; 2; 0; 0; 0; 2]) [118; 109; 49; 0]).
  apply buf_mem_ok. repeat (apply Forall_cons; split; [done|]). by apply Forall_nil.
Defined.
