(* ===== verification/FdtTree.v ===== *)
(** * Device trees and their encoding

    [Dt.tree] is the data the structure block encodes.  The theorems show that the
    cursor operations of [fdt.rs] implement navigation in the tree: a cursor at the
    body of a node reads its properties, finds its children by name, and moves to its
    first child and to its next sibling. *)
From Stdlib Require Import String Ascii.
From S2P Require Import Prelude Addr Memory Fdt FdtLoops.

Module Dt.
(** A node: its name, its properties (offset of the name in the strings block, and
    value), its children. *)
Inductive tree := Tree (name : list Z) (props : list (Z * list Z)) (children : list tree).
Definition name (t : tree) : list Z := let 'Tree n _ _ := t in n.
Definition props (t : tree) : list (Z * list Z) := let 'Tree _ ps _ := t in ps.
Definition children (t : tree) : list tree := let 'Tree _ _ cs := t in cs.

Definition word (v : Z) : list Z := be_bytes 4 v.
(** Padded to a multiple of four bytes. *)
Definition pad4 (l : list Z) : list Z := l ++ replicate (Z.to_nat (- Z.of_nat (length l) mod 4)) 0.
Definition enc_prop (p : Z * list Z) : list Z :=
  word 3 ++ word (Z.of_nat (length p.2)) ++ word p.1 ++ pad4 p.2.
Definition enc_props (ps : list (Z * list Z)) : list Z := mjoin (enc_prop <$> ps).
Fixpoint enc (t : tree) : list Z :=
  let 'Tree n ps cs := t in
  word 1 ++ pad4 (asciz n) ++ enc_props ps ++ mjoin (enc <$> cs) ++ word 2.
Definition enc_nodes (cs : list tree) : list Z := mjoin (enc <$> cs).
(** What follows the name of a node. *)
Definition body (t : tree) : list Z := enc_props (props t) ++ enc_nodes (children t) ++ word 2.

(** The sizes fit in the fields. *)
Definition prop_ok (p : Z * list Z) : Prop := in_u 32 (Z.of_nat (length p.2)) ∧ in_u 32 p.1.
Fixpoint tree_ok (t : tree) : Prop :=
  let 'Tree n ps cs := t in
  no_nul n ∧ Forall prop_ok ps ∧ foldr (λ c P, tree_ok c ∧ P) True cs.
End Dt.
Import Dt.

Lemma tree_ind' (P : tree → Prop) :
  (∀ n ps cs, Forall P cs → P (Tree n ps cs)) → ∀ t, P t.
Proof.
  intros H. fix IH 1. intros [n ps cs]. apply H. induction cs as [|c cs IHcs]; constructor; [apply IH|apply IHcs].
Qed.

Lemma tree_ok_eq n ps cs : tree_ok (Tree n ps cs) ↔ no_nul n ∧ Forall prop_ok ps ∧ Forall tree_ok cs.
Proof.
  cbn [tree_ok]. assert (foldr (λ c P, tree_ok c ∧ P) True cs ↔ Forall tree_ok cs) as ->; [|done].
  induction cs as [|c cs IH]; cbn; [by rewrite Forall_nil|]. by rewrite Forall_cons, IH.
Qed.
Lemma enc_eq t : enc t = word 1 ++ pad4 (asciz (name t)) ++ body t.
Proof. by destruct t. Qed.

(** ** Lengths *)
Lemma length_word v : length (word v) = 4%nat.
Proof. done. Qed.
Lemma length_pad4 l : Z.of_nat (length (pad4 l)) = Z.of_nat (length l) + - Z.of_nat (length l) mod 4.
Proof.
  unfold pad4. rewrite length_app, length_replicate. pose proof (Z.mod_pos_bound (- Z.of_nat (length l)) 4 ltac:(lia)). lia.
Qed.
(** A multiple of four bytes. *)
Definition words (l : list Z) : Prop := aligned 4 (Z.of_nat (length l)).
Lemma words_nil : words [].
Proof. done. Qed.
Lemma words_app l1 l2 : words l1 → words l2 → words (l1 ++ l2).
Proof. unfold words. rewrite length_app, Nat2Z.inj_add. apply aligned_add. Qed.
Lemma words_word v : words (word v).
Proof. done. Qed.
Lemma words_pad4 l : words (pad4 l).
Proof.
  unfold words, aligned. rewrite length_pad4. rewrite Zplus_mod_idemp_r. by rewrite Z.add_opp_diag_r.
Qed.
Lemma words_prop p : words (enc_prop p).
Proof. unfold enc_prop. auto using words_app, words_word, words_pad4. Qed.
Lemma words_join {X} (f : X → list Z) l : (∀ x, words (f x)) → words (mjoin (f <$> l)).
Proof. intros Hf. induction l as [|x l IH]; [done|]. cbn. by apply words_app. Qed.
Lemma words_props ps : words (enc_props ps).
Proof. apply words_join, words_prop. Qed.
Lemma words_enc t : words (enc t).
Proof.
  induction t as [n ps cs IH] using tree_ind'. cbn [enc].
  apply words_app, words_app, words_app, words_app; [apply words_word|apply words_pad4|apply words_props| |apply words_word].
  induction IH as [|c cs Hc _ IH]; [done|]. cbn. by apply words_app.
Qed.
Lemma words_nodes cs : words (enc_nodes cs).
Proof. apply words_join, words_enc. Qed.
Lemma words_body t : words (body t).
Proof. unfold body. auto using words_app, words_word, words_props, words_nodes. Qed.
#[export] Hint Resolve words_nil words_app words_word words_pad4 words_prop words_props words_enc words_nodes words_body : hfo2.

(** ** Cursors *)
Section tree.
Context (mem : Mem) (Hmem : mem_ok mem).
(** The name at an offset of the strings block. *)
Context (pname : Z → list Z).

(** The slice is these bytes, on a 4-byte boundary. *)
Definition at_bytes (s : slice) (l : list Z) : Prop :=
  holds mem (s_ptr s) l ∧ s_len s = Z.of_nat (length l) ∧ aligned 4 (s_ptr s) ∧
  0 ≤ s_ptr s ∧ s_ptr s + s_len s < 2 ^ 64.
Definition tok_at (t : FdtTokenizer) (l : list Z) : Prop := at_bytes (t_cur t) l.

(** The cursor moved over [l]. *)
Definition adv (t : FdtTokenizer) (l : list Z) : FdtTokenizer :=
  set_cur t (mkSlice (s_ptr (t_cur t) + Z.of_nat (length l)) (s_len (t_cur t) - Z.of_nat (length l))).
Lemma tok_at_adv t l k : tok_at t (l ++ k) → words l → tok_at (adv t l) k.
Proof.
  intros (Hh & Hl & Ha & Hs & Hs') Hw. apply holds_app in Hh as [_ Hh]. rewrite length_app in Hl.
  split_and!; cbn; [done|lia|by apply aligned_add|lia|lia].
Qed.
Lemma adv_strs t l : t_strs (adv t l) = t_strs t.
Proof. done. Qed.
Lemma adv_nil t : adv t [] = t.
Proof. unfold adv, set_cur. destruct t as [[p n] s]. cbn. do 2 f_equal; lia. Qed.
Lemma adv_app t l1 l2 : adv t (l1 ++ l2) = adv (adv t l1) l2.
Proof. unfold adv, set_cur. cbn. rewrite length_app. do 2 f_equal; lia. Qed.

Lemma tok_align_at t k : tok_at t k → tok_align t = Done t.
Proof.
  intros (_ & Hl & Ha & _). unfold tok_align, FDT_TOKEN_ALIGNMENT, split_at, assert_then. unfold aligned in Ha. rewrite Ha.
  change ((4 - 0) mod 4) with 0. destruct (Z.leb_spec 0 (s_len (t_cur t))); [|lia]. cbn. unfold set_cur.
  destruct t as [[p n] s]. cbn. do 3 f_equal; lia.
Qed.

(** Reading [l] and its padding. *)
Lemma split_pad4_at t l k :
  tok_at t (pad4 l ++ k) →
  ('(first, rest) ← split_at (t_cur t) (Z.of_nat (length l)); t ← tok_align (set_cur t rest); Done (Some first, t))
  = Done (Some (mkSlice (s_ptr (t_cur t)) (Z.of_nat (length l))), adv t (pad4 l)).
Proof.
  intros (Hh & Hl & Ha & _). rewrite length_app in Hl. pose proof (length_pad4 l) as Hp.
  set (n := Z.of_nat (length l)) in *. pose proof (Z.mod_pos_bound (- n) 4 ltac:(lia)) as Hb.
  unfold split_at at 1, assert_then. destruct (Z.leb_spec n (s_len (t_cur t))); [|lia]. cbn [mbind exec_bind].
  unfold tok_align, FDT_TOKEN_ALIGNMENT. cbn [t_cur set_cur s_ptr].
  assert ((4 - (s_ptr (t_cur t) + n) mod 4) mod 4 = - n mod 4) as ->.
  { rewrite Zminus_mod_idemp_r. apply aligned_exists in Ha as [q ->]; [|lia].
    replace (4 - (q * 4 + n)) with (- n + (1 - q) * 4) by lia. by rewrite Z_mod_plus_full. }
  unfold split_at, assert_then. cbn [s_len s_ptr]. destruct (Z.leb_spec (- n mod 4) (s_len (t_cur t) - n)); [|lia].
  cbn. unfold adv, set_cur. cbn. rewrite Hp. do 4 f_equal; lia.
Qed.

Lemma tok_bytes_at t l k :
  tok_at t (pad4 l ++ k) →
  tok_bytes t (Z.of_nat (length l)) = Done (Some (mkSlice (s_ptr (t_cur t)) (Z.of_nat (length l))), adv t (pad4 l)).
Proof.
  intros H. unfold tok_bytes. destruct (Z.ltb_spec (s_len (t_cur t)) (Z.of_nat (length l))) as [Hlt|_]; [|by eapply split_pad4_at].
  destruct H as (_ & Hl & _). rewrite length_app in Hl. pose proof (length_pad4 l).
  pose proof (Z.mod_pos_bound (- Z.of_nat (length l)) 4 ltac:(lia)). lia.
Qed.

Lemma pad4_word v : pad4 (word v) = word v.
Proof. done. Qed.
Lemma tok_u32_at t v k : in_u 32 v → tok_at t (word v ++ k) → tok_u32 mem t = Done (Some v, adv t (word v)).
Proof.
  intros Hv H. unfold tok_u32. change 4 with (Z.of_nat (length (word v))). rewrite (tok_bytes_at t (word v) k) by done.
  cbn [mbind exec_bind s_ptr]. destruct H as (Hh & _). apply holds_app in Hh as [Hh _].
  by rewrite (be32_holds mem _ v Hv Hh).
Qed.

(** A token other than [Nop]. *)
Definition code_of (k : FdtToken.t) : Z :=
  match k with FdtToken.BeginNode => 1 | FdtToken.EndNode => 2 | FdtToken.Prop_ => 3 | FdtToken.Nop => 4 | FdtToken.End_ => 9 end.
Lemma code_of_ok k : FdtToken.try_from (code_of k) = Ok k ∧ in_u 32 (code_of k).
Proof. by destruct k. Qed.

Lemma token_at t tk k :
  tk ≠ FdtToken.Nop → tok_at t (word (code_of tk) ++ k) → token mem t = Done (Some tk, adv t (word (code_of tk))).
Proof.
  intros Hn H. destruct (code_of_ok tk) as [Hk Hu]. eapply (while_loop_runs _ tmeasure); [by apply token_decreases| |apply tok_fuel_measure].
  apply runs_exit. unfold token_step. rewrite (tok_u32_at t _ k) by done. cbn [mbind exec_bind]. rewrite Hk. cbn [unwrap_res mbind exec_bind].
  by rewrite bool_decide_true.
Qed.

Lemma token_expect_at t tk k :
  tk ≠ FdtToken.Nop → tok_at t (word (code_of tk) ++ k) → token_expect mem t tk = Done (true, adv t (word (code_of tk))).
Proof. intros Hn H. unfold token_expect. rewrite (token_at t tk k) by done. cbn [mbind exec_bind]. by rewrite bool_decide_false by tauto. Qed.
(** Another token is put back. *)
Lemma token_expect_other t e tk k :
  tk ≠ FdtToken.Nop → tk ≠ e → tok_at t (word (code_of tk) ++ k) → token_expect mem t e = Done (false, t).
Proof.
  intros Hn He H. unfold token_expect. rewrite (token_at t tk k) by done. cbn [mbind exec_bind]. rewrite bool_decide_true by done.
  unfold rewind, adv, set_cur, FDT_TOKEN_ALIGNMENT. cbn. destruct t as [[p n] s]. cbn. do 4 f_equal; lia.
Qed.

(** ** Properties *)
Lemma next_property_at t p k :
  prop_ok p → p.1 ≤ s_len (t_strs t) → tok_at t (enc_prop p ++ k) →
  ∃ b, next_property mem t = Done (Some (s_ptr (t_strs t) + p.1, b), adv t (enc_prop p)) ∧ at_bytes b p.2 ∧
    s_ptr b = s_ptr (t_cur t) + 12.
Proof.
  intros [Hl Ho] Hst H. unfold enc_prop in *. rewrite <-!app_assoc in H. unfold next_property.
  rewrite (token_expect_at t FdtToken.Prop_ _ ltac:(done) H). cbn [mbind exec_bind negb code_of].
  apply tok_at_adv in H as H1; [|done]. rewrite (tok_u32_at _ _ _ Hl H1). cbn [mbind exec_bind].
  apply tok_at_adv in H1 as H2; [|done]. rewrite (tok_u32_at _ _ _ Ho H2). cbn [mbind exec_bind].
  apply tok_at_adv in H2 as H3; [|done]. rewrite (tok_bytes_at _ _ _ H3). cbn [mbind exec_bind].
  rewrite !adv_strs. unfold assert_then. destruct (Z.leb_spec p.1 (s_len (t_strs t))); [|lia].
  rewrite !adv_app. eexists. split; [done|]. destruct H3 as (Hh & Hl3 & Ha & ? & ?). apply holds_app in Hh as [Hh _].
  unfold pad4 in Hh. apply holds_app in Hh as [Hh _]. rewrite length_app in Hl3. pose proof (length_pad4 p.2).
  pose proof (Z.mod_pos_bound (- Z.of_nat (length p.2)) 4 ltac:(lia)). unfold at_bytes. split_and!; cbn in *; (done || lia).
Qed.
Lemma next_property_other t tk k :
  tk ≠ FdtToken.Nop → tk ≠ FdtToken.Prop_ → tok_at t (word (code_of tk) ++ k) → next_property mem t = Done (None, t).
Proof. intros. unfold next_property. by rewrite (token_expect_other t _ tk k). Qed.

(** The name of a property lies in the strings block. *)
Definition name_ok (t : FdtTokenizer) (p : Z * list Z) : Prop :=
  p.1 ≤ s_len (t_strs t) ∧ no_nul (pname p.1) ∧ holds mem (s_ptr (t_strs t) + p.1) (asciz (pname p.1)).
Definition props_ok (t : FdtTokenizer) (ps : list (Z * list Z)) : Prop := Forall (λ p, prop_ok p ∧ name_ok t p) ps.

Lemma enc_props_cons p ps : enc_props (p :: ps) = enc_prop p ++ enc_props ps.
Proof. done. Qed.

(** The properties end at another token. *)
Lemma skip_properties_at t ps tk k :
  props_ok t ps → tk ≠ FdtToken.Nop → tk ≠ FdtToken.Prop_ → tok_at t (enc_props ps ++ word (code_of tk) ++ k) →
  skip_properties mem t = Done (adv t (enc_props ps)).
Proof.
  intros Hps Hn Hp H. eapply (while_loop_runs _ tmeasure); [by apply skip_properties_decreases| |apply tok_fuel_measure].
  revert t Hps H. induction ps as [|p ps IH]; intros t Hps H.
  - apply runs_exit. unfold skip_properties_step. rewrite (next_property_other t tk k) by done. cbn [mbind exec_bind].
    rewrite bool_decide_false by (by intros [? ?]). by rewrite adv_nil.
  - rewrite enc_props_cons, <-app_assoc in H. apply Forall_cons in Hps as [[Hp1 (Hp2 & _)] Hps].
    destruct (next_property_at t p _ Hp1 Hp2 H) as (b & Hb & _). rewrite enc_props_cons, adv_app.
    eapply runs_next; [|apply IH; [exact Hps|]].
    + unfold skip_properties_step. rewrite Hb. cbn [mbind exec_bind]. by rewrite bool_decide_true by eauto.
    + eapply tok_at_adv; [exact H|apply words_prop].
Qed.

(** ** Subnodes *)
Lemma strnlen_asciz a n l rest i :
  no_nul l → holds mem (a + i) (asciz l ++ rest) → (length (asciz l ++ rest) ≤ n)%nat →
  strnlen_loop mem a i n = Some (i + Z.of_nat (length l)).
Proof.
  revert n i. induction l as [|c l IH]; intros [|n] i Hn Hh Hl; cbn in Hl; try lia; cbn [asciz app] in Hh; apply holds_cons in Hh as [Hc Hh];
    cbn [strnlen_loop]; rewrite Hc.
  - cbn. f_equal. lia.
  - apply Forall_cons in Hn as [Hc0 Hn]. destruct (Z.eqb_spec c 0); [done|]. rewrite (IH n (i + 1)); [f_equal; cbn; lia|done| |unfold asciz; lia].
    by rewrite Z.add_assoc.
Qed.

Lemma tok_str_at t n k :
  no_nul n → tok_at t (pad4 (asciz n) ++ k) →
  ∃ b, tok_str mem t = Done (Some b, adv t (pad4 (asciz n))) ∧ holds mem (s_ptr b) (asciz n) ∧ s_len b = Z.of_nat (length (asciz n)).
Proof.
  intros Hn H. pose proof H as (Hh & Hl & _). unfold tok_str. unfold pad4 in Hh at 1. rewrite <-app_assoc in Hh.
  set (rest := replicate _ _ ++ k) in Hh.
  assert (length (asciz n ++ rest) = length (pad4 (asciz n) ++ k)) as Hlen by (unfold rest, pad4; by rewrite <-app_assoc).
  rewrite (strnlen_asciz (s_ptr (t_cur t)) _ n rest 0); [|done|by rewrite Z.add_0_r|rewrite Hl, Nat2Z.id; lia].
  assert (0 + Z.of_nat (length n) + 1 = Z.of_nat (length (asciz n))) as -> by (unfold asciz; rewrite length_app; cbn; lia).
  rewrite (split_pad4_at t (asciz n) k H). eexists. split; [done|]. split; [|done]. by apply holds_app in Hh as [Hh _].
Qed.

Lemma next_subnode_at t n k :
  no_nul n → tok_at t (word 1 ++ pad4 (asciz n) ++ k) →
  ∃ b, next_subnode mem t = Done (Some b, adv (adv t (word 1)) (pad4 (asciz n))) ∧ holds mem (s_ptr b) (asciz n) ∧
    s_len b = Z.of_nat (length (asciz n)).
Proof.
  intros Hn H. unfold next_subnode. rewrite (token_expect_at t FdtToken.BeginNode _ ltac:(done) H). cbn [mbind exec_bind negb code_of].
  apply tok_at_adv in H; [|done]. destruct (tok_str_at _ n k Hn H) as (b & -> & Hb). cbn [mbind exec_bind]. by eexists.
Qed.
Lemma next_subnode_other t tk k :
  tk ≠ FdtToken.Nop → tk ≠ FdtToken.BeginNode → tok_at t (word (code_of tk) ++ k) → next_subnode mem t = Done (None, t).
Proof. intros. unfold next_subnode. by rewrite (token_expect_other t _ tk k). Qed.

(** All names of properties are in order. *)
Fixpoint strs_ok (t : FdtTokenizer) (tr : tree) : Prop :=
  let 'Tree _ ps cs := tr in
  Forall (name_ok t) ps ∧ foldr (λ c P, strs_ok t c ∧ P) True cs.
Definition node_ok (t : FdtTokenizer) (tr : tree) : Prop := tree_ok tr ∧ strs_ok t tr.
Lemma node_ok_eq t n ps cs : node_ok t (Tree n ps cs) ↔ no_nul n ∧ props_ok t ps ∧ Forall (node_ok t) cs.
Proof.
  unfold node_ok, props_ok. rewrite tree_ok_eq. cbn [strs_ok].
  assert (foldr (λ c P, strs_ok t c ∧ P) True cs ↔ Forall (strs_ok t) cs) as ->.
  { induction cs as [|c cs IH]; cbn; [by rewrite Forall_nil|]. by rewrite Forall_cons, IH. }
  rewrite !Forall_and. tauto.
Qed.
Lemma strs_ok_strs t t' tr : t_strs t' = t_strs t → strs_ok t tr → strs_ok t' tr.
Proof.
  intros Hs. induction tr as [n ps cs IH] using tree_ind'. cbn [strs_ok]. unfold name_ok. rewrite Hs. intros [Hps Hcs]. split; [done|].
  induction IH as [|c cs Hc _ IH]; [done|]. cbn in *. destruct Hcs. split; auto.
Qed.
Lemma node_ok_strs t t' tr : t_strs t' = t_strs t → node_ok t tr → node_ok t' tr.
Proof. intros Hs []. split; [done|]. by eapply strs_ok_strs. Qed.
Lemma props_ok_strs t t' ps : t_strs t' = t_strs t → props_ok t ps → props_ok t' ps.
Proof. intros Hs. unfold props_ok, name_ok. by rewrite Hs. Qed.

Lemma enc_nodes_cons c cs : enc_nodes (c :: cs) = enc c ++ enc_nodes cs.
Proof. done. Qed.

(** What follows the properties begins with a token of another kind. *)
Lemma nodes_token cs e k :
  e ≠ FdtToken.Nop → e ≠ FdtToken.Prop_ →
  ∃ tk k', enc_nodes cs ++ word (code_of e) ++ k = word (code_of tk) ++ k' ∧ tk ≠ FdtToken.Nop ∧ tk ≠ FdtToken.Prop_.
Proof.
  intros Hn Hp. destruct cs as [|c cs]; [by exists e, k|].
  exists FdtToken.BeginNode. eexists. rewrite enc_nodes_cons, enc_eq. rewrite <-!app_assoc. done.
Qed.

Lemma skip_properties_node t ps cs e k :
  props_ok t ps → e ≠ FdtToken.Nop → e ≠ FdtToken.Prop_ →
  tok_at t (enc_props ps ++ enc_nodes cs ++ word (code_of e) ++ k) →
  skip_properties mem t = Done (adv t (enc_props ps)) ∧ tok_at (adv t (enc_props ps)) (enc_nodes cs ++ word (code_of e) ++ k).
Proof.
  intros Hps Hn Hp H. split; [|eapply tok_at_adv; [exact H|apply words_props]].
  destruct (nodes_token cs e k Hn Hp) as (tk & k' & Heq & Hn' & Hp'). rewrite Heq in H. by eapply skip_properties_at.
Qed.

(** The loop of [skip_node] passes over a node. *)
Lemma skip_node_runs tr t p k r :
  node_ok t tr → 0 < p → tok_at t (enc tr ++ k) → runs (skip_node_step mem) (adv t (enc tr), p) r → runs (skip_node_step mem) (t, p) r.
Proof.
  revert t p k r. induction tr as [n ps cs IH] using tree_ind'. intros t p k r Hok Hp H Hr.
  apply node_ok_eq in Hok as (Hn & Hps & Hcs). rewrite enc_eq, <-!app_assoc in H. cbn [name] in H.
  destruct (next_subnode_at t n _ Hn H) as (b & Hb & _). rewrite app_assoc in H.
  apply tok_at_adv in H; [|auto with hfo2]. rewrite adv_app in H. set (t1 := adv (adv t (word 1)) (pad4 (asciz n))) in *.
  unfold body in H. cbn [props children] in H. rewrite <-!app_assoc in H.
  destruct (skip_properties_node t1 ps cs FdtToken.EndNode k) as [Hsk H2]; [by eapply props_ok_strs|done..|exact H|].
  eapply runs_next. { unfold skip_node_step. rewrite Hb. cbn [mbind exec_bind]. rewrite Hsk. cbn [mbind exec_bind]. done. }
  assert (Hend : adv t (enc (Tree n ps cs)) = adv (adv (adv t1 (enc_props ps)) (enc_nodes cs)) (word 2)).
  { unfold t1. rewrite <-!adv_app. f_equal. }
  rewrite Hend in Hr.
  assert (Hcs2 : Forall (node_ok (adv t1 (enc_props ps))) cs) by (eapply Forall_impl; [exact Hcs|]; intros c Hc; by eapply node_ok_strs; [|exact Hc]).
  set (t2 := adv t1 (enc_props ps)) in *. clearbody t2. clear Hsk Hb Hend H t1 Hps Hcs.
  revert t2 Hcs2 H2 Hr. induction IH as [|c cs IHc _ IHcs]; intros t2 Hcs2 H2 Hr.
  - change (enc_nodes [] ++ word (code_of FdtToken.EndNode) ++ k) with (word (code_of FdtToken.EndNode) ++ k) in H2.
    eapply runs_next; [|exact Hr]. unfold skip_node_step. rewrite (next_subnode_other t2 FdtToken.EndNode k) by done. cbn [mbind exec_bind].
    rewrite (token_at t2 FdtToken.EndNode k) by done. cbn [mbind exec_bind]. rewrite bool_decide_false by tauto.
    destruct (Z.eqb_spec (p + 1 - 1) 0); [lia|]. replace (p + 1 - 1) with p by lia.
    change (enc_nodes []) with (@nil Z). by rewrite adv_nil.
  - apply Forall_cons in Hcs2 as [Hc Hcs2]. rewrite enc_nodes_cons, <-app_assoc in H2. rewrite enc_nodes_cons, adv_app in Hr.
    eapply IHc; [done|lia|exact H2|]. apply IHcs; [|eapply tok_at_adv; [exact H2|apply words_enc]|done].
    eapply Forall_impl; [exact Hcs2|]. intros c' Hc'. by eapply node_ok_strs; [|exact Hc'].
Qed.

Lemma skip_node_at t tr k :
  node_ok t tr → tok_at t (body tr ++ k) → skip_node mem t = Done (true, adv t (body tr)).
Proof.
  destruct tr as [n ps cs]. intros (_ & Hps & Hcs)%node_ok_eq H. unfold skip_node. unfold body in *. cbn [props children] in *.
  rewrite <-!app_assoc in H. change (word 2) with (word (code_of FdtToken.EndNode)) in H.
  destruct (skip_properties_node t ps cs FdtToken.EndNode k) as [-> H2]; [done..|]. cbn [mbind exec_bind].
  eapply (while_loop_runs _ (λ s, tmeasure s.1)); [by apply skip_node_decreases| |apply tok_fuel_measure].
  rewrite adv_app, adv_app. set (t2 := adv t (enc_props ps)) in *.
  assert (Hcs2 : Forall (node_ok t2) cs) by (eapply Forall_impl; [exact Hcs|]; intros c Hc; by eapply node_ok_strs; [|exact Hc]).
  clearbody t2. clear H Hps Hcs. revert t2 H2 Hcs2. induction cs as [|c cs IH]; intros t2 H2 Hcs2.
  - change (enc_nodes [] ++ word (code_of FdtToken.EndNode) ++ k) with (word (code_of FdtToken.EndNode) ++ k) in H2.
    apply runs_exit. unfold skip_node_step. rewrite (next_subnode_other t2 FdtToken.EndNode k) by done. cbn [mbind exec_bind].
    rewrite (token_at t2 FdtToken.EndNode k) by done. cbn [mbind exec_bind]. rewrite bool_decide_false by tauto.
    change (enc_nodes []) with (@nil Z). by rewrite adv_nil.
  - apply Forall_cons in Hcs2 as [Hc Hcs2]. rewrite enc_nodes_cons, <-app_assoc in H2. rewrite enc_nodes_cons, adv_app.
    eapply skip_node_runs; [done|lia|exact H2|]. apply IH; [eapply tok_at_adv; [exact H2|apply words_enc]|].
    eapply Forall_impl; [exact Hcs2|]. intros c' Hc'. by eapply node_ok_strs; [|exact Hc'].
Qed.

(** ** Navigation *)

(** The value of the first property of this name. *)
Fixpoint get_prop (name : list Z) (ps : list (Z * list Z)) : option (list Z) :=
  match ps with
  | [] => None
  | p :: ps => if decide (pname p.1 = name) then Some p.2 else get_prop name ps
  end.
(** The first child of this name, and the children after it. *)
Fixpoint get_child (nm : list Z) (cs : list tree) : option (tree * list tree) :=
  match cs with
  | [] => None
  | c :: cs => if decide (Dt.name c = nm) then Some (c, cs) else get_child nm cs
  end.

(** The properties and children a node cursor is in front of, up to the token [e]. *)
Definition node_at (n : FdtNode) (ps : list (Z * list Z)) (cs : list tree) (e : FdtToken.t) (k : list Z) : Prop :=
  at_bytes (nd_data n) (enc_props ps ++ enc_nodes cs ++ word (code_of e) ++ k) ∧
  props_ok (tok_new n) ps ∧ Forall (node_ok (tok_new n)) cs ∧ e ≠ FdtToken.Nop ∧ e ≠ FdtToken.Prop_ ∧ e ≠ FdtToken.BeginNode.
(** A cursor at the node [tr], followed by its siblings [sibs]. *)
Definition cursor (n : FdtNode) (tr : tree) (sibs : list tree) : Prop :=
  ∃ e k, at_bytes (nd_data n) (body tr ++ enc_nodes sibs ++ word (code_of e) ++ k) ∧
    node_ok (tok_new n) tr ∧ Forall (node_ok (tok_new n)) sibs ∧ e ≠ FdtToken.Nop ∧ e ≠ FdtToken.Prop_ ∧ e ≠ FdtToken.BeginNode.

Lemma cursor_node n tr sibs : cursor n tr sibs → ∃ k, node_at n (props tr) (children tr) FdtToken.EndNode k.
Proof.
  destruct tr as [nm ps cs]. intros (e & k & H & (_ & ? & ?)%node_ok_eq & _). eexists. split_and!; try done.
  unfold body in H. cbn [props children] in *. rewrite <-!app_assoc in H. exact H.
Qed.
(** Moving the cursor to a child. *)
Lemma node_cursor n ps cs1 c cs2 e k d :
  node_at n ps (cs1 ++ c :: cs2) e k → at_bytes d (body c ++ enc_nodes cs2 ++ word (code_of e) ++ k) → cursor (set_data n d) c cs2.
Proof.
  intros (_ & _ & Hcs & He) Hd. apply Forall_app in Hcs as [_ Hcs]. apply Forall_cons in Hcs as [Hc Hcs].
  assert (Hs : ∀ tr, node_ok (tok_new n) tr → node_ok (tok_new (set_data n d)) tr) by (intros tr; by apply node_ok_strs).
  exists e, k. split; [done|]. split; [auto|]. split; [by eapply Forall_impl|done].
Qed.
Lemma get_child_split nm cs c sibs : get_child nm cs = Some (c, sibs) → ∃ cs1, cs = cs1 ++ c :: sibs.
Proof.
  induction cs as [|c' cs IH]; cbn; [done|]. case_decide; [intros [= -> ->]; by exists []|].
  intros [cs1 ->]%IH. by exists (c' :: cs1).
Qed.

Lemma read_property_at n ps cs e k nm :
  node_at n ps cs e k → no_nul nm →
  ∃ r, read_property mem n (asciz nm) = Done r ∧
    match get_prop nm ps with
    | Some v => ∃ b, r = Ok b ∧ at_bytes b v
    | None => r = Err tt
    end.
Proof.
  intros (H & Hps & _ & Hn & Hp & _) Hnm.
  assert (∃ r, runs (read_property_step mem (asciz nm)) (tok_new n) r ∧
    match get_prop nm ps with Some v => ∃ b, r = Ok b ∧ at_bytes b v | None => r = Err tt end) as (r & Hr & Hs).
  2:{ exists r. split; [|done]. eapply (while_loop_runs _ tmeasure); [by apply read_property_decreases|done|apply tok_fuel_measure]. }
  change (nd_data n) with (t_cur (tok_new n)) in H. revert H Hps. generalize (tok_new n). clear n.
  destruct (nodes_token cs e k Hn Hp) as (tk & k' & -> & Hn' & Hp').
  induction ps as [|p ps IH]; intros t H Hps.
  - exists (Err tt). split; [|done]. apply runs_exit. unfold read_property_step.
    by rewrite (next_property_other t tk k').
  - rewrite enc_props_cons, <-app_assoc in H. apply Forall_cons in Hps as [[Hp1 (Hp2 & Hnn & Hst)] Hps].
    destruct (next_property_at t p _ Hp1 Hp2 H) as (b & Hb & Hbv & _).
    destruct (strcmp_spec mem _ _ nm [] Hnn Hnm Hst) as (d & Hd & Hd0). rewrite app_nil_r in Hd. cbn [get_prop].
    assert (Hstep : read_property_step mem (asciz nm) t = Done (if d =? 0 then inr (Ok b) else inl (adv t (enc_prop p)))).
    { unfold read_property_step. rewrite Hb. cbn [mbind exec_bind]. by rewrite Hd. }
    destruct (Z.eqb_spec d 0) as [E|E]; case_decide as Hc; try (exfalso; tauto).
    + exists (Ok b). split; [by apply runs_exit|by eexists].
    + destruct (IH (adv t (enc_prop p))) as (r & Hr & Hs); [eapply tok_at_adv; [exact H|apply words_prop]|exact Hps|].
      exists r. split; [|done]. by eapply runs_next.
Qed.

(** Where the value is. *)
Lemma read_property_pos n ps1 q ps2 cs e k nm :
  node_at n (ps1 ++ q :: ps2) cs e k → no_nul nm → pname q.1 = nm → Forall (λ q, pname q.1 ≠ nm) ps1 →
  ∃ b, read_property mem n (asciz nm) = Done (Ok b) ∧ at_bytes b q.2 ∧
    s_ptr b = s_ptr (nd_data n) + Z.of_nat (length (enc_props ps1)) + 12.
Proof.
  intros (H & Hps & _) Hnm Hq Hne.
  assert (∃ b, runs (read_property_step mem (asciz nm)) (tok_new n) (Ok b) ∧ at_bytes b q.2 ∧
    s_ptr b = s_ptr (t_cur (tok_new n)) + Z.of_nat (length (enc_props ps1)) + 12) as (b & Hr & Hs).
  2:{ exists b. split; [|done]. eapply (while_loop_runs _ tmeasure); [by apply read_property_decreases|done|apply tok_fuel_measure]. }
  change (nd_data n) with (t_cur (tok_new n)) in H. revert H Hps. generalize (tok_new n). clear n.
  induction Hne as [|p ps1 Hp Hne IH]; intros t H Hps.
  all: cbn [app] in H, Hps; rewrite enc_props_cons, <-app_assoc in H; apply Forall_cons in Hps as [[Hp1 (Hp2 & Hnn & Hst)] Hps].
  all: destruct (next_property_at t _ _ Hp1 Hp2 H) as (b & Hb & Hbv & Hpos); destruct (strcmp_spec mem _ _ nm [] Hnn Hnm Hst) as (d & Hd & Hd0).
  all: rewrite app_nil_r in Hd.
  - exists b. rewrite Z.add_0_r. split_and!; [|done..]. apply runs_exit. unfold read_property_step. rewrite Hb. cbn [mbind exec_bind]. rewrite Hd. cbn [mbind exec_bind].
    by rewrite (proj2 Hd0 Hq).
  - destruct (IH (adv t (enc_prop p))) as (b' & Hr & Hb' & Hpos'); [eapply tok_at_adv; [exact H|apply words_prop]|exact Hps|].
    exists b'. split_and!; [|done|rewrite enc_props_cons, length_app, Hpos'; cbn; lia].
    eapply runs_next; [|exact Hr]. unfold read_property_step. rewrite Hb. cbn [mbind exec_bind]. rewrite Hd. cbn [mbind exec_bind].
    destruct (Z.eqb_spec d 0) as [E|]; [|done]. by apply Hd0 in E.
Qed.

(** The cursor moved into the first node of [cs]. *)
Lemma next_subnode_node t c cs e k :
  node_ok t c → tok_at t (enc_nodes (c :: cs) ++ word (code_of e) ++ k) →
  ∃ b, next_subnode mem t = Done (Some b, adv (adv t (word 1)) (pad4 (asciz (name c)))) ∧ holds mem (s_ptr b) (asciz (name c)) ∧
    tok_at (adv (adv t (word 1)) (pad4 (asciz (name c)))) (body c ++ enc_nodes cs ++ word (code_of e) ++ k).
Proof.
  intros Hok H. rewrite enc_nodes_cons, enc_eq, <-!app_assoc in H.
  destruct (next_subnode_at t (name c) (body c ++ enc_nodes cs ++ word (code_of e) ++ k)) as (b & Hb & Hnm & _); [by destruct c as [nm ps cs']; apply node_ok_eq in Hok as [? _]|exact H|].
  exists b. split_and!; [done..|]. apply tok_at_adv in H; [|apply words_word]. by apply tok_at_adv in H; [|apply words_pad4].
Qed.

Lemma find_child_at n ps cs e k nm :
  node_at n ps cs e k → no_nul nm →
  match get_child nm cs with
  | Some (c, sibs) => ∃ d, find_child mem n (asciz nm) = Done (true, set_data n d) ∧
      at_bytes d (body c ++ enc_nodes sibs ++ word (code_of e) ++ k) ∧ s_ptr d + s_len d = s_ptr (nd_data n) + s_len (nd_data n)
  | None => find_child mem n (asciz nm) = Done (false, n)
  end.
Proof.
  intros (H & Hps & Hcs & Hn & Hp & Hb) Hnm. change (nd_data n) with (t_cur (tok_new n)) in H.
  destruct (skip_properties_node _ ps cs e k Hps Hn Hp H) as [Hsk H2]. unfold find_child. rewrite Hsk. cbn [mbind exec_bind].
  set (t2 := adv (tok_new n) (enc_props ps)) in *.
  assert (Hcs2 : Forall (node_ok t2) cs) by (eapply Forall_impl; [exact Hcs|]; intros c Hc; by eapply node_ok_strs; [|exact Hc]).
  set (end_ := s_ptr (nd_data n) + s_len (nd_data n)).
  assert (Hend : s_ptr (t_cur t2) + s_len (t_cur t2) = end_) by (cbn; lia). clearbody t2 end_. clear H Hps Hcs Hsk.
  assert (∃ r, runs (find_child_step mem (asciz nm)) t2 r ∧
    match get_child nm cs with
    | Some (c, sibs) => ∃ t, r = Some t ∧ tok_at t (body c ++ enc_nodes sibs ++ word (code_of e) ++ k) ∧
        s_ptr (t_cur t) + s_len (t_cur t) = end_
    | None => r = None
    end) as (r & Hr & Hs).
  2:{ rewrite (while_loop_runs _ tmeasure _ _ r (find_child_decreases mem Hmem _) Hr (tok_fuel_measure t2)). cbn [mbind exec_bind].
      destruct (get_child nm cs) as [[c sibs]|]; [destruct Hs as (t & -> & Hs); by eexists|by rewrite Hs]. }
  revert t2 H2 Hcs2 Hend. induction cs as [|c cs IH]; intros t2 H2 Hcs2 Hend.
  - exists None. split; [|done]. apply runs_exit. unfold find_child_step. by rewrite (next_subnode_other t2 e k).
  - apply Forall_cons in Hcs2 as [Hc Hcs2]. destruct (next_subnode_node t2 c cs e k Hc H2) as (b & Hsn & Hbn & H3). cbn [get_child].
    assert (Hcn : no_nul (name c)) by (destruct c as [? ? ?]; by apply node_ok_eq in Hc as [? _]).
    destruct (strcmp_spec mem _ _ nm [] Hcn Hnm Hbn) as (d & Hd & Hd0). rewrite app_nil_r in Hd.
    set (t3 := adv (adv t2 (word 1)) (pad4 (asciz (name c)))) in *.
    assert (Hstep : find_child_step mem (asciz nm) t2 = if d =? 0 then Done (inr (Some t3)) else '(_, t) ← skip_node mem t3; Done (inl t)).
    { unfold find_child_step. rewrite Hsn. cbn [mbind exec_bind]. by rewrite Hd. }
    destruct (Z.eqb_spec d 0) as [E|E]; case_decide as Hdc; try (exfalso; tauto).
    + exists (Some t3). split; [by apply runs_exit|]. exists t3. split_and!; [done..|cbn; lia].
    + rewrite (skip_node_at t3 c (enc_nodes cs ++ word (code_of e) ++ k)) in Hstep; [|by eapply node_ok_strs; [|exact Hc]|done].
      cbn [mbind exec_bind] in Hstep. destruct (IH (adv t3 (body c))) as (r & Hr & Hs).
      * eapply tok_at_adv; [exact H3|apply words_body].
      * eapply Forall_impl; [exact Hcs2|]. intros c' Hc'. by eapply node_ok_strs; [|exact Hc'].
      * cbn; lia.
      * exists r. split; [|done]. by eapply runs_next.
Qed.

Lemma first_child_at n ps cs e k :
  node_at n ps cs e k →
  match cs with
  | c :: sibs => ∃ b d, first_child mem n = Done (Some b, set_data n d) ∧ holds mem (s_ptr b) (asciz (name c)) ∧
      at_bytes d (body c ++ enc_nodes sibs ++ word (code_of e) ++ k)
  | [] => first_child mem n = Done (None, n)
  end.
Proof.
  intros (H & Hps & Hcs & Hn & Hp & Hb). change (nd_data n) with (t_cur (tok_new n)) in H.
  destruct (skip_properties_node _ ps cs e k Hps Hn Hp H) as [Hsk H2]. unfold first_child. rewrite Hsk. cbn [mbind exec_bind].
  destruct cs as [|c cs].
  - by rewrite (next_subnode_other _ e k).
  - apply Forall_cons in Hcs as [Hc _]. 
    destruct (next_subnode_node (adv (tok_new n) (enc_props ps)) c cs e k) as (b & -> & Hbn & H3);
      [by eapply node_ok_strs; [|exact Hc]|exact H2|].
    cbn [mbind exec_bind]. by do 2 eexists.
Qed.

Lemma next_sibling_at n tr sibs :
  cursor n tr sibs →
  match sibs with
  | c :: sibs => ∃ b n', next_sibling mem n = Done (Some b, n') ∧ holds mem (s_ptr b) (asciz (name c)) ∧ cursor n' c sibs
  | [] => next_sibling mem n = Done (None, n)
  end.
Proof.
  intros (e & k & H & Htr & Hcs & He & He' & He''). change (nd_data n) with (t_cur (tok_new n)) in H. unfold next_sibling.
  rewrite (skip_node_at _ tr (enc_nodes sibs ++ word (code_of e) ++ k)) by done. cbn [mbind exec_bind negb].
  apply tok_at_adv in H; [|apply words_body]. destruct sibs as [|c sibs].
  - by rewrite (next_subnode_other _ e k).
  - apply Forall_cons in Hcs as [Hc Hcs].
    destruct (next_subnode_node (adv (tok_new n) (body tr)) c sibs e k) as (b & -> & Hbn & H3);
      [by eapply node_ok_strs; [|exact Hc]|exact H|].
    assert (Hs : ∀ d tr, node_ok (tok_new n) tr → node_ok (tok_new (set_data n d)) tr) by (intros d tr'; by apply node_ok_strs).
    cbn [mbind exec_bind]. do 2 eexists. split_and!; [done..|]. exists e, k. split; [exact H3|].
    split; [by apply Hs|]. split; [|done]. eapply Forall_impl; [exact Hcs|]. intros ?. apply Hs.
Qed.

(** The operations as moves of the cursor. *)
Lemma cursor_read_property n tr sibs nm :
  cursor n tr sibs → no_nul nm →
  ∃ r, read_property mem n (asciz nm) = Done r ∧
    match get_prop nm (props tr) with Some v => ∃ b, r = Ok b ∧ at_bytes b v | None => r = Err tt end.
Proof. intros [k Hn]%cursor_node. intros Hnm. exact (read_property_at n _ _ _ k nm Hn Hnm). Qed.
Lemma cursor_find_child n tr sibs nm :
  cursor n tr sibs → no_nul nm →
  match get_child nm (children tr) with
  | Some (c, sibs) => ∃ n', find_child mem n (asciz nm) = Done (true, n') ∧ cursor n' c sibs
  | None => find_child mem n (asciz nm) = Done (false, n)
  end.
Proof.
  intros [k Hn]%cursor_node Hnm. pose proof (find_child_at n _ _ _ k nm Hn Hnm) as Hf.
  destruct (get_child nm (children tr)) as [[c s]|] eqn:Hg; [|done]. destruct Hf as (d & Hf & Hd & _).
  apply get_child_split in Hg as [cs1 Hg]. rewrite Hg in Hn. eexists. split; [done|]. by eapply node_cursor.
Qed.
Lemma cursor_first_child n tr sibs :
  cursor n tr sibs →
  match children tr with
  | c :: cs => ∃ b n', first_child mem n = Done (Some b, n') ∧ holds mem (s_ptr b) (asciz (name c)) ∧ cursor n' c cs
  | [] => first_child mem n = Done (None, n)
  end.
Proof.
  intros [k Hn]%cursor_node. pose proof (first_child_at n _ _ _ k Hn) as Hf.
  destruct (children tr) as [|c cs] eqn:Hg; [done|]. destruct Hf as (b & d & Hf & Hb & Hd).
  do 2 eexists. split_and!; [done..|]. by apply (node_cursor n (props tr) [] c cs FdtToken.EndNode k d).
Qed.

(** ** Blobs *)

(** A version the parser accepts; the structure block is one node and the end token. *)
Definition dtb_at (hdr : Z) (root : tree) : Prop :=
  hdr_magic mem hdr = FDT_MAGIC ∧ hdr_last_comp_version mem hdr ≤ FDT_VERSION ≤ hdr_version mem hdr ∧
  at_bytes (mkSlice (hdr + hdr_off_dt_struct mem hdr) (hdr_size_dt_struct mem hdr)) (enc root ++ word 9) ∧
  node_ok (mkTok (mkSlice 0 0) (mkSlice (hdr + hdr_off_dt_strings mem hdr) (hdr_size_dt_strings mem hdr))) root.

Lemma new_root_at hdr root :
  dtb_at hdr root → ∃ n, new_root mem hdr = Some n ∧ nd_hdr n = hdr ∧ node_at n [] [root] FdtToken.End_ [].
Proof.
  intros (Hm & [Hv1 Hv2] & Hs & Hr). unfold new_root. rewrite Hm, Z.eqb_refl. cbn [negb].
  rewrite (proj2 (Z.ltb_ge _ _) Hv1), (proj2 (Z.ltb_ge _ _) Hv2). cbn [orb]. eexists. split_and!; [done..|]. split_and!; try done.
  - cbn [nd_data enc_props enc_nodes fmap list_fmap mjoin list_join app code_of]. rewrite !app_nil_r. exact Hs.
  - by apply Forall_nil.
  - apply Forall_singleton. by eapply node_ok_strs; [|exact Hr].
Qed.
(** The root node, found by its name. *)
Lemma find_root_at hdr root :
  dtb_at hdr root →
  ∃ n n', new_root mem hdr = Some n ∧ find_child mem n (asciz (name root)) = Done (true, n') ∧ nd_hdr n' = hdr ∧ cursor n' root [].
Proof.
  intros (n & Hn & Hh & Hat)%new_root_at. exists n.
  assert (Hnm : no_nul (name root)).
  { destruct Hat as (_ & _ & Hr & _). rewrite Forall_singleton in Hr. destruct root. by apply node_ok_eq in Hr as [? _]. }
  pose proof (find_child_at n _ _ _ _ (name root) Hat Hnm) as Hf. cbn [get_child] in Hf. rewrite decide_True in Hf by done.
  destruct Hf as (d & Hf & Hd & _). eexists. split_and!; [done..|]. by apply (node_cursor n [] [] root [] FdtToken.End_ [] d).
Qed.
End tree.

(** C21: on a blob that encodes a device tree, the cursor operations of [fdt.rs]
    implement navigation in the tree.  [new_root] accepts the blob and finds the root
    node by its name; at any node, [read_property] returns the bytes of the first
    property of the name and fails if there is none, [find_child] moves to the first
    child of the name, [first_child] to the first child and [next_sibling] to the next
    sibling, each returning the name, and when there is no such node the cursor stays. *)
Theorem fdt_navigation_correct (mem : Mem) (pname : Z → list Z) (hdr : Z) (root : tree) :
  mem_ok mem → dtb_at mem pname hdr root →
  (∃ n n', new_root mem hdr = Some n ∧ find_child mem n (asciz (name root)) = Done (true, n') ∧ cursor mem pname n' root []) ∧
  ∀ n tr sibs nm, cursor mem pname n tr sibs → no_nul nm →
    (∃ r, read_property mem n (asciz nm) = Done r ∧
       match get_prop pname nm (props tr) with Some v => ∃ b, r = Ok b ∧ at_bytes mem b v | None => r = Err tt end) ∧
    match get_child nm (children tr) with
    | Some (c, cs) => ∃ n', find_child mem n (asciz nm) = Done (true, n') ∧ cursor mem pname n' c cs
    | None => find_child mem n (asciz nm) = Done (false, n)
    end ∧
    match children tr with
    | c :: cs => ∃ b n', first_child mem n = Done (Some b, n') ∧ holds mem (s_ptr b) (asciz (name c)) ∧ cursor mem pname n' c cs
    | [] => first_child mem n = Done (None, n)
    end ∧
    match sibs with
    | c :: cs => ∃ b n', next_sibling mem n = Done (Some b, n') ∧ holds mem (s_ptr b) (asciz (name c)) ∧ cursor mem pname n' c cs
    | [] => next_sibling mem n = Done (None, n)
    end.
Proof.
  intros Hm Hd. split.
  - destruct (find_root_at mem Hm pname hdr root Hd) as (n & n' & ? & ? & _ & ?). eauto.
  - intros n tr sibs nm Hc Hn. split_and!; [by apply (cursor_read_property mem Hm pname n tr sibs)|by apply (cursor_find_child mem Hm pname n tr sibs)
      |by apply (cursor_first_child mem Hm pname n tr sibs)|by apply (next_sibling_at mem Hm pname n tr sibs)].
Qed.

(** ** A blob *)
Module DtbDemo.
Definition str (s : string) : list Z := (λ c, Z.of_N (Ascii.N_of_ascii c)) <$> String.list_ascii_of_string s.
(** The strings block: the names of the properties. *)
Definition prop_names : list string :=
  ["#address-cells"; "#size-cells"; "device_type"; "reg"; "linux,initrd-start"; "linux,initrd-end"; "compatible";
   "debug_name"; "kernel_filename"; "mem_size"; "vcpu_count"]%string.
Definition strings : list Z := mjoin ((λ s, asciz (str s)) <$> prop_names).
Fixpoint offset (s : string) (l : list string) : Z :=
  match l with
  | [] => 0
  | t :: l => if String.eqb s t then 0 else Z.of_nat (length (asciz (str t))) + offset s l
  end.
(** The name at an offset. *)
Fixpoint name_from (l : list Z) : list Z :=
  match l with [] => [] | c :: l => if c =? 0 then [] else c :: name_from l end.
Definition pname (o : Z) : list Z := name_from (drop (Z.to_nat o) strings).
Definition prop (s : string) (v : list Z) : Z * list Z := (offset s prop_names, v).
Definition cstr (s : string) : list Z := asciz (str s).

Definition root : tree :=
  Tree [] [prop "#address-cells" (word 2); prop "#size-cells" (word 2)]
    [Tree (str "memory@0") [prop "device_type" (cstr "memory");
       prop "reg" (be_bytes 8 0 ++ be_bytes 8 0x20000000 ++ be_bytes 8 0x30000000 ++ be_bytes 8 0x10000)] [];
     Tree (str "memory@1") [prop "device_type" (cstr "memory"); prop "reg" (be_bytes 8 0x30020000 ++ be_bytes 8 0x10000)] [];
     Tree (str "cpus") [prop "#address-cells" (word 1)]
       [Tree (str "cpu@0") [prop "device_type" (cstr "cpu"); prop "reg" (word 7)] [];
        Tree (str "cpu@1") [prop "device_type" (cstr "cpu"); prop "reg" (word 9)] []];
     Tree (str "chosen") [prop "linux,initrd-start" (word 0x84000000); prop "linux,initrd-end" (be_bytes 8 0x84100000)] [];
     Tree (str "hypervisor") [prop "compatible" (cstr "foo,bar" ++ cstr "hafnium,hafnium")]
       [Tree (str "vm1") [prop "debug_name" (cstr "primary")] [];
        Tree (str "vm2") [prop "debug_name" (cstr "secondary"); prop "kernel_filename" (cstr "kernel");
          prop "mem_size" (word 0x100000); prop "vcpu_count" (word 4)] []]].

Definition struct_block : list Z := enc root ++ word 9.
(** The header, an empty reservation map, the structure block, the strings block. *)
Definition blob : list Z :=
  word FDT_MAGIC ++ word (56 + Z.of_nat (length struct_block) + Z.of_nat (length strings)) ++ word 56 ++
  word (56 + Z.of_nat (length struct_block)) ++ word 40 ++ word 17 ++ word 16 ++ word 0 ++
  word (Z.of_nat (length strings)) ++ word (Z.of_nat (length struct_block)) ++
  replicate 16 0 ++ struct_block ++ strings.
Definition blob_value : list Z := Eval vm_compute in blob.
Definition mem : Mem := buf_mem blob_value.

Lemma dtb_mem_bytes : mem_ok mem.
Proof. apply buf_mem_ok. by_computation. Qed.
Lemma blob_at : dtb_at mem pname BUF root.
Proof.
  split; [vm_compute; reflexivity|]. split; [vm_compute; split; discriminate|]. split.
  - split; [vm_compute; reflexivity|]. split; [vm_compute; reflexivity|]. split; [vm_compute; reflexivity|]. by_computation.
  - repeat first [apply Forall_cons; split | apply Forall_nil_2 | apply node_ok_eq; split_and! | split; unfold prop_ok, name_ok, in_u, no_nul, holds; by_computation | by_computation].
Qed.
(** The cursor at the root node. *)
Definition root_node : FdtNode := Eval vm_compute in
  match new_root mem BUF with
  | Some n => match find_child mem n [0] with Done (_, n') => n' | Panic => n end
  | None => mkFdtNode 0 (mkSlice 0 0) (mkSlice 0 0)
  end.
Lemma root_node_at : cursor mem pname root_node root [].
Proof.
  destruct (find_root_at mem dtb_mem_bytes pname BUF root blob_at) as (n & n' & Hn & Hf & _ & Hc).
  vm_compute in Hn. injection Hn as <-. vm_compute in Hf. by injection Hf as <-.
Qed.
Lemma fdt_navigation_correct_witness :
  ∃ n n', new_root mem BUF = Some n ∧ find_child mem n [0] = Done (true, n') ∧ cursor mem pname n' root [].
Proof. exact (proj1 (fdt_navigation_correct mem pname BUF root dtb_mem_bytes blob_at)). Defined.
End DtbDemo.
