(* ===== verification/Manifest.v ===== *)
(** * The manifest ([manifest.rs])

    The manifest is the node [hypervisor] of the device tree: a list of compatible
    names and one child [vm<id>] per virtual machine.  [manifest_init] reads it with
    the cursor operations of [Fdt]; errors are the values of [Error]. *)
From S2P Require Import Prelude Addr Memory Memiter Fdt.

Definition VM_NAME_BUF_SIZE : Z := 2 + 5 + 1.
Definition MANIFEST_MAX_STRING_LENGTH : Z := 32.

Module Error.
Inductive t :=
| NoHypervisorFdtNode | NotCompatible | ReservedVmId | NoPrimaryVm | TooManyVms | PropertyNotFound
| MalformedString | StringTooLong | MalformedStringList | MalformedInteger | IntegerOverflow.
#[global] Instance t_eq_dec : EqDecision t.
Proof. solve_decision. Defined.
End Error.

Record ManifestVm := mkManifestVm {
  debug_name : list Z;
  kernel_filename : list Z;
  mem_size : Z;
  vcpu_count : Z;
}.
Record Manifest := mkManifest { mf_vms : list ManifestVm }.

(** String constants, without their terminators. *)
Definition S_hypervisor : list Z := [104; 121; 112; 101; 114; 118; 105; 115; 111; 114].
Definition S_compatible : list Z := [99; 111; 109; 112; 97; 116; 105; 98; 108; 101].
Definition S_hafnium : list Z := [104; 97; 102; 110; 105; 117; 109; 44; 104; 97; 102; 110; 105; 117; 109].
Definition S_debug_name : list Z := [100; 101; 98; 117; 103; 95; 110; 97; 109; 101].
Definition S_kernel_filename : list Z :=
  [107; 101; 114; 110; 101; 108; 95; 102; 105; 108; 101; 110; 97; 109; 101].
Definition S_mem_size : list Z := [109; 101; 109; 95; 115; 105; 122; 101].
Definition S_vcpu_count : list Z := [118; 99; 112; 117; 95; 99; 111; 117; 110; 116].

(** ** Node names *)

(** The decimal digits of a number, as [Display] prints them; five are enough for a
    [u16]. *)
Fixpoint digits (fuel : nat) (n : Z) (acc : list Z) : list Z :=
  match fuel with
  | O => acc
  | S fuel =>
      let acc := (48 + n mod 10) :: acc in
      if n / 10 =? 0 then acc else digits fuel (n / 10) acc
  end.
Definition display_u16 (n : Z) : list Z := digits 5 n [].

(** [BufWrite::write_str]: appends, or fails if the buffer is full. *)
Definition write_str (buf : list Z) (s : list Z) : exec (list Z) :=
  if Z.of_nat (length buf) + Z.of_nat (length s) <=? VM_NAME_BUF_SIZE then Done (buf ++ s) else Panic.
(** [write!(buf, "vm{}\0", vm_id).unwrap()]. *)
Definition generate_vm_node_name (vm_id : Z) : exec (list Z) :=
  buf ← write_str [] [118; 109];
  buf ← write_str buf (display_u16 vm_id);
  write_str buf [0].

(** ** Properties *)
Section manifest.
Context (mem : Mem).

Definition read_string (node : FdtNode) (property : list Z) (out : list Z) : exec (result (list Z) Error.t) :=
  r ← read_property mem node property;
  match r with
  | Err _ => Done (Err Error.PropertyNotFound)
  | Ok data =>
      if negb (bool_decide (strnlen_loop mem (s_ptr data) 0 (Z.to_nat (s_len data)) = Some (s_len data -w 1)))
      then Done (Err Error.MalformedString)
      else if Z.of_nat (length out) <? s_len data then Done (Err Error.StringTooLong)
      else Done (Ok (bytes mem (s_ptr data) (s_len data) ++ drop (Z.to_nat (s_len data)) out))
  end.

Definition read_u64 (node : FdtNode) (property : list Z) : exec (result Z Error.t) :=
  r ← read_property mem node property;
  match r with
  | Err _ => Done (Err Error.PropertyNotFound)
  | Ok data =>
      n ← fdt_parse_number mem data;
      Done (match n with Some v => Ok v | None => Err Error.MalformedInteger end)
  end.

Definition read_u16 (node : FdtNode) (property : list Z) : exec (result Z Error.t) :=
  r ← read_u64 node property;
  match r with
  | Err e => Done (Err e)
  | Ok value => Done (if value <? 2 ^ 16 then Ok value else Err Error.IntegerOverflow)
  end.

(** ** [StringList] *)
Definition StringList_read_from (node : FdtNode) (property : list Z) : exec (result MemIter Error.t) :=
  r ← read_property mem node property;
  match r with
  | Err _ => Done (Err Error.PropertyNotFound)
  | Ok data =>
      (* [data.last().unwrap()] *)
      assert_then (0 <? s_len data)
        (if negb (mem (s_ptr data + s_len data - 1) =? 0) then Done (Err Error.MalformedStringList)
         else Done (Ok (from_raw (s_ptr data) (s_len data - 1))))
  end.
Definition has_next (l : MemIter) : bool := 0 <? it_len l.
(** The entry and the rest of the list. *)
Definition StringList_get_next (l : MemIter) : exec (MemIter * MemIter) :=
  assert_then (has_next l)
    (match strnlen_loop mem (it_next l) 0 (Z.to_nat (it_len l)) with
     | Some pos =>
         let ret := from_raw (get_next l) pos in
         let '(ok, l) := advance l (pos +w 1) in
         assert_then ok (Done (ret, l))
     | None =>
         let ret := l in
         let '(ok, l) := advance l (it_len l) in
         assert_then ok (Done (ret, l))
     end).
Definition contains_step (asciz : list Z) (it : MemIter) : exec (MemIter + bool) :=
  if has_next it then
    '(entry, it) ← StringList_get_next it;
    if iseq mem entry (buf_mem asciz) BUF then Done (inr true) else Done (inl it)
  else Done (inr false).
Definition StringList_contains (l : MemIter) (asciz : list Z) : exec bool :=
  while_loop (contains_step asciz) (S (it_fuel l)) l.

(** ** Virtual machines *)
Definition zero_string : list Z := replicate (Z.to_nat MANIFEST_MAX_STRING_LENGTH) 0.

Definition ManifestVm_new (node : FdtNode) (vm_id : Z) : exec (result ManifestVm Error.t) :=
  r ← read_string node (asciz S_debug_name) zero_string;
  match r with
  | Err e => Done (Err e)
  | Ok debug_name =>
      if negb (vm_id =? HF_PRIMARY_VM_ID) then
        r ← read_string node (asciz S_kernel_filename) zero_string;
        match r with
        | Err e => Done (Err e)
        | Ok kernel_filename =>
            r ← read_u64 node (asciz S_mem_size);
            match r with
            | Err e => Done (Err e)
            | Ok mem_size =>
                r ← read_u16 node (asciz S_vcpu_count);
                match r with
                | Err e => Done (Err e)
                | Ok vcpu_count => Done (Ok (mkManifestVm debug_name kernel_filename mem_size vcpu_count))
                end
            end
        end
      else Done (Ok (mkManifestVm debug_name zero_string 0 0))
  end.

(** [for vm_id in 0..HF_VM_ID_OFFSET]: whether one of the nodes exists. *)
Fixpoint reserved_loop (hyp_node : FdtNode) (ids : list Z) : exec bool :=
  match ids with
  | [] => Done false
  | vm_id :: ids =>
      vm_name ← generate_vm_node_name vm_id;
      '(found, _) ← find_child mem hyp_node vm_name;
      if found : bool then Done true else reserved_loop hyp_node ids
  end.

(** [for i in 0..=MAX_VMS]: the VMs so far and whether the primary was found. *)
Fixpoint vm_loop (hyp_node : FdtNode) (idxs : list Z) (vms : list ManifestVm) (found_primary_vm : bool)
    : exec (result (list ManifestVm * bool) (list ManifestVm * Error.t)) :=
  match idxs with
  | [] => Done (Ok (vms, found_primary_vm))
  | i :: idxs =>
      let vm_id := wrap 16 (HF_VM_ID_OFFSET + i) in
      vm_name ← generate_vm_node_name vm_id;
      '(found, vm_node) ← find_child mem hyp_node vm_name;
      if negb found then Done (Ok (vms, found_primary_vm))
      else if i =? MAX_VMS then Done (Err (vms, Error.TooManyVms))
      else
        let primary := vm_id =? HF_PRIMARY_VM_ID in
        assert_then (negb (primary && found_primary_vm))
        (r ← ManifestVm_new vm_node vm_id;
         match r with
         | Err e => Done (Err (vms, e))
         | Ok vm =>
             (* [ArrayVec::push] *)
             assert_then (Z.of_nat (length vms) <? MAX_VMS)
               (vm_loop hyp_node idxs (vms ++ [vm]) (found_primary_vm || primary))
         end)
  end.

(** [Manifest::init]: the result, and the manifest also when it fails. *)
Definition manifest_init (fdt : FdtNode) (m : Manifest) : exec (result unit Error.t * Manifest) :=
  let m := mkManifest [] in
  '(found, hyp_node) ← find_child mem fdt (asciz S_hypervisor);
  if negb found then Done (Err Error.NoHypervisorFdtNode, m)
  else
  r ← StringList_read_from hyp_node (asciz S_compatible);
  match r with
  | Err e => Done (Err e, m)
  | Ok compatible_list =>
      compatible ← StringList_contains compatible_list (asciz S_hafnium);
      if negb compatible then Done (Err Error.NotCompatible, m)
      else
      reserved ← reserved_loop hyp_node (seqZ 0 HF_VM_ID_OFFSET);
      if reserved : bool then Done (Err Error.ReservedVmId, m)
      else
      r ← vm_loop hyp_node (seqZ 0 (MAX_VMS + 1)) [] false;
      match r with
      | Err (vms, e) => Done (Err e, mkManifest vms)
      | Ok (vms, found_primary_vm) =>
          Done (if negb found_primary_vm then Err Error.NoPrimaryVm else Ok tt, mkManifest vms)
      end
  end.
End manifest.
