(* ===== verification/ManifestSpec.v ===== *)
(** * The manifest as a function of the device tree

    [Mspec.manifest] is what the manifest of a device tree is, on trees instead of
    bytes.  [manifest_init] on the encoding of a tree computes it. *)
From Stdlib Require Import String.
From S2P Require Import Prelude Addr Memory Memiter Fdt FdtLoops FdtTree Manifest.
Import Dt.

Module Mspec.
(** One string, terminated, without other zero bytes, of at most 32 bytes. *)
Definition str_value (v : list Z) : result (list Z) Error.t :=
  if decide (Forall (λ b, b ≠ 0) (removelast v) ∧ last v = Some 0) then
    if (32 <? length v)%nat then Err Error.StringTooLong else Ok (v ++ replicate (32 - length v) 0)
  else Err Error.MalformedString.
(** A big-endian number of 4 or 8 bytes. *)
Definition be_value (v : list Z) : Z := foldl (λ a b, a * 2 ^ 8 + b) 0 v.
Definition num_value (v : list Z) : result Z Error.t :=
  if decide (length v = 4%nat ∨ length v = 8%nat) then Ok (be_value v) else Err Error.MalformedInteger.
Definition u16_value (v : list Z) : result Z Error.t :=
  match num_value v with
  | Err e => Err e
  | Ok n => if n <? 2 ^ 16 then Ok n else Err Error.IntegerOverflow
  end.
(** The strings of a list: they end at zero bytes. *)
Fixpoint split_nul (l : list Z) : list (list Z) :=
  match l with
  | [] => []
  | c :: l =>
      if c =? 0 then [] :: split_nul l
      else match split_nul l with
           | [] => [[c]]
           | e :: es => (c :: e) :: es
           end
  end.
Definition vm_name (id : Z) : list Z := [118; 109] ++ display_u16 id.

Section spec.
Context (pname : Z → list Z).

(** The value of a property, by a function. *)
Definition prop {X} (f : list Z → result X Error.t) (nm : list Z) (tr : tree) : result X Error.t :=
  match get_prop pname nm (props tr) with None => Err Error.PropertyNotFound | Some v => f v end.

Definition vm (tr : tree) (id : Z) : result ManifestVm Error.t :=
  match prop str_value S_debug_name tr with
  | Err e => Err e
  | Ok name =>
      if id =? HF_PRIMARY_VM_ID then Ok (mkManifestVm name zero_string 0 0)
      else match prop str_value S_kernel_filename tr, prop num_value S_mem_size tr, prop u16_value S_vcpu_count tr with
           | Err e, _, _ => Err e
           | _, Err e, _ => Err e
           | _, _, Err e => Err e
           | Ok file, Ok size, Ok count => Ok (mkManifestVm name file size count)
           end
  end.

(** The VMs with the given ids, as long as there are nodes for them. *)
Fixpoint vms (hyp : tree) (ids : list Z) (acc : list ManifestVm) : list ManifestVm * option Error.t :=
  match ids with
  | [] => (acc, None)
  | i :: ids =>
      match get_child (vm_name (1 + i)) (children hyp) with
      | None => (acc, None)
      | Some (tr, _) =>
          if i =? MAX_VMS then (acc, Some Error.TooManyVms)
          else match vm tr (1 + i) with
               | Err e => (acc, Some e)
               | Ok v => vms hyp ids (acc ++ [v])
               end
      end
  end.

Definition manifest (cs : list tree) : result unit Error.t * list ManifestVm :=
  match get_child S_hypervisor cs with
  | None => (Err Error.NoHypervisorFdtNode, [])
  | Some (hyp, _) =>
      match get_prop pname S_compatible (props hyp) with
      | None => (Err Error.PropertyNotFound, [])
      | Some v =>
          if decide (last v ≠ Some 0) then (Err Error.MalformedStringList, [])
          else if decide (S_hafnium ∉ split_nul (removelast v)) then (Err Error.NotCompatible, [])
          else if decide (is_Some (get_child (vm_name 0) (children hyp))) then (Err Error.ReservedVmId, [])
          else match vms hyp (seqZ 0 (MAX_VMS + 1)) [] with
               | (l, Some e) => (Err e, l)
               | ([], None) => (Err Error.NoPrimaryVm, [])
               | (l, None) => (Ok tt, l)
               end
      end
  end.
(** The list of compatible names is there and has no byte, not even the last NUL. *)
Definition no_bytes (cs : list tree) : bool :=
  match get_child S_hypervisor cs with
  | Some (hyp, _) => bool_decide (get_prop pname S_compatible (props hyp) = Some [])
  | None => false
  end.
End spec.
End Mspec.
Import Mspec.

(** ** Names *)
Lemma length_digits fuel n acc : (length (digits fuel n acc) ≤ fuel + length acc)%nat.
Proof.
  revert n acc. induction fuel as [|fuel IH]; intros n acc; cbn [digits]; [done|].
  destruct (_ =? 0); [cbn; lia|]. etrans; [apply IH|]. cbn. lia.
Qed.
Lemma digits_no_nul fuel n acc : no_nul acc → no_nul (digits fuel n acc).
Proof.
  revert n acc. induction fuel as [|fuel IH]; intros n acc Ha; cbn [digits]; [done|].
  assert (no_nul ((48 + n mod 10) :: acc)).
  { constructor; [|done]. pose proof (Z.mod_pos_bound n 10 ltac:(lia)). lia. }
  destruct (_ =? 0); [done|]. by apply IH.
Qed.
Lemma vm_name_no_nul id : no_nul (vm_name id).
Proof. unfold vm_name. do 2 (apply Forall_cons; split; [done|]). by apply digits_no_nul, Forall_nil_2. Qed.
Lemma generate_vm_node_name_spec id : generate_vm_node_name id = Done (asciz (vm_name id)).
Proof.
  unfold generate_vm_node_name, write_str, vm_name, asciz. pose proof (length_digits 5 id [] : (length (display_u16 id) ≤ 5)%nat).
  unfold VM_NAME_BUF_SIZE.
  repeat (rewrite (proj2 (Z.leb_le _ _)) by (rewrite ?length_app; cbn [length]; lia); cbn [mbind exec_bind]). done.
Qed.

(** The program's string constants. *)
Ltac solve_no_nul := unfold no_nul; repeat (apply Forall_cons; split; [done|]); by apply Forall_nil.
Lemma hypervisor_no_nul : no_nul S_hypervisor. Proof. solve_no_nul. Qed.
Lemma compatible_no_nul : no_nul S_compatible. Proof. solve_no_nul. Qed.
Lemma hafnium_no_nul : no_nul S_hafnium. Proof. solve_no_nul. Qed.
Lemma debug_name_no_nul : no_nul S_debug_name. Proof. solve_no_nul. Qed.
Lemma kernel_filename_no_nul : no_nul S_kernel_filename. Proof. solve_no_nul. Qed.
Lemma mem_size_no_nul : no_nul S_mem_size. Proof. solve_no_nul. Qed.
Lemma vcpu_count_no_nul : no_nul S_vcpu_count. Proof. solve_no_nul. Qed.
#[local] Hint Resolve vm_name_no_nul hypervisor_no_nul compatible_no_nul hafnium_no_nul debug_name_no_nul
  kernel_filename_no_nul mem_size_no_nul vcpu_count_no_nul : hfo2.

(** ** Splitting lists of strings *)
Lemma split_nul_app e r : no_nul e → split_nul (e ++ 0 :: r) = e :: split_nul r.
Proof.
  induction 1 as [|c e Hc _ IH]; [done|]. cbn. destruct (Z.eqb_spec c 0); [done|]. by rewrite IH.
Qed.
Lemma split_nul_last e : no_nul e → e ≠ [] → split_nul e = [e].
Proof.
  induction 1 as [|c e Hc _ IH]; [done|]. intros _. cbn. destruct (Z.eqb_spec c 0); [done|].
  destruct e as [|c' e]; [done|]. by rewrite IH.
Qed.

Section proof.
Context (mem : Mem) (Hmem : mem_ok mem) (pname : Z → list Z).

Lemma at_bytes_eq b v : at_bytes mem b v → bytes mem (s_ptr b) (s_len b) = v.
Proof. intros (Hh & -> & _). exact Hh. Qed.

(** The first zero byte is the last byte. *)
Lemma terminated_spec b v :
  at_bytes mem b v → Z.of_nat (length v) < 2 ^ 64 →
  bool_decide (strnlen_loop mem (s_ptr b) 0 (Z.to_nat (s_len b)) = Some (s_len b -w 1))
  = bool_decide (Forall (λ b, b ≠ 0) (removelast v) ∧ last v = Some 0).
Proof.
  intros (Hh & Hl & _) Hlt. rewrite Hl, Nat2Z.id. apply bool_decide_ext.
  pose proof (strnlen_loop_spec mem (s_ptr b) 0 (length v) _ eq_refl) as Hs. rewrite holds_lookup in Hh.
  destruct (decide (v = [])) as [->|Hne].
  { cbn. split; [done|]. by intros []. }
  destruct (exists_last Hne) as (s & x & ->). rewrite removelast_last, last_snoc.
  rewrite length_app in *. cbn [length] in *. rewrite wsub_small by lia.
  assert (Hx : mem (s_ptr b + Z.of_nat (length s)) = x).
  { apply Hh. rewrite lookup_app_r, Nat.sub_diag by lia. done. }
  assert (Hsl : ∀ i c, s !! i = Some c → mem (s_ptr b + Z.of_nat i) = c).
  { intros i c Hc. apply Hh. by apply lookup_app_l_Some. }
  rewrite Forall_lookup. split.
  - intros Heq. rewrite Heq in Hs. destruct Hs as (_ & H0 & Hb).
    replace (Z.of_nat (length s + 1) - 1) with (Z.of_nat (length s)) in * by lia. split; [|by rewrite <-Hx, H0].
    intros i c Hc. rewrite <-(Hsl i c Hc). apply Hb. apply lookup_lt_Some in Hc. lia.
  - intros [Hall [= ->]]. destruct (strnlen_loop _ _ _ _) as [k|] eqn:E.
    + destruct Hs as (Hk & H0 & Hb). f_equal. destruct (decide (k = Z.of_nat (length s))) as [->|]; [lia|]. exfalso.
      destruct (lookup_lt_is_Some_2 s (Z.to_nat k)) as [c Hc]; [lia|]. apply (Hall _ _ Hc). rewrite <-(Hsl _ _ Hc), <-H0. f_equal. lia.
    + exfalso. apply (Hs (Z.of_nat (length s))); [lia|done].
Qed.

Lemma value_fits n ps cs e k nm v :
  node_at mem pname n ps cs e k → get_prop pname nm ps = Some v → Z.of_nat (length v) < 2 ^ 32.
Proof.
  intros (_ & Hps & _). induction Hps as [|p ps [[[_ Hp] _] _] _ IH]; cbn; [done|].
  case_decide; [|done]. by intros [= <-].
Qed.

Lemma read_string_at n ps cs e k nm :
  node_at mem pname n ps cs e k → no_nul nm →
  read_string mem n (asciz nm) zero_string
  = Done (match get_prop pname nm ps with None => Err Error.PropertyNotFound | Some v => str_value v end).
Proof.
  intros Hn Hnm. unfold read_string. destruct (read_property_at mem Hmem pname n ps cs e k nm Hn Hnm) as (r & -> & Hr). cbn [mbind exec_bind].
  destruct (get_prop pname nm ps) as [v|] eqn:Hg; [|by rewrite Hr]. destruct Hr as (b & -> & Hb).
  pose proof (value_fits _ _ _ _ _ _ _ Hn Hg) as Hlt.
  rewrite (terminated_spec b v Hb) by lia. unfold str_value. rewrite bool_decide_decide.
  destruct (decide (_ ∧ _)); cbn [negb]; [|done]. rewrite (at_bytes_eq b v Hb). destruct Hb as (_ & -> & _).
  change (Z.of_nat (length zero_string)) with (Z.of_nat 32).
  destruct (Z.ltb_spec (Z.of_nat 32) (Z.of_nat (length v))), (Nat.ltb_spec 32 (length v)); try lia; [done|].
  rewrite Nat2Z.id. unfold zero_string. by rewrite drop_replicate.
Qed.

Lemma be32_bytes a : be32 mem a = be_value (bytes mem a 4).
Proof.
  do 4 (rewrite bytes_cons by lia; cbn [Z.sub Z.add Z.opp Z.pos_sub Pos.pred_double]). rewrite bytes_nil by lia.
  replace (a + 1 + 1) with (a + 2) by lia. unfold be32, be16, be_value. cbn [foldl]. lia.
Qed.
Lemma be64_bytes a : be64 mem a = be_value (bytes mem a 8).
Proof.
  change 8 with (4 + 4). rewrite bytes_app by lia. unfold be64. rewrite !be32_bytes. unfold be_value. rewrite foldl_app.
  generalize (foldl (λ x y, x * 2 ^ 8 + y) 0 (bytes mem a 4)). intros x.
  do 4 (rewrite bytes_cons by lia; cbn [Z.sub Z.add Z.opp Z.pos_sub Pos.pred_double]). rewrite bytes_nil by lia. cbn [foldl]. lia.
Qed.
Lemma match_4_8 (z : Z) (x y w : option Z) : z ≠ 4 → z ≠ 8 → match z with 4 => x | 8 => y | _ => w end = w.
Proof. intros H4 H8. destruct z as [|q|q]; try done. do 4 (destruct q as [q|q|]; try done). Qed.
Lemma parse_number_at b v :
  at_bytes mem b v →
  fdt_parse_number mem b = Done (if decide (length v = 4%nat ∨ length v = 8%nat) then Some (be_value v) else None).
Proof.
  intros (Hh & Hl & Ha & _). unfold fdt_parse_number, assert_then, is_aligned, FDT_TOKEN_ALIGNMENT.
  change (4 -w 1) with (2 ^ 2 - 1). rewrite land_mask by lia. change (2 ^ 2) with 4. rewrite Ha. cbn [Z.eqb]. rewrite Hl. f_equal.
  case_decide as Hc.
  - unfold holds in Hh. destruct Hc as [Hc|Hc]; rewrite Hc in *; cbn [Z.of_nat Pos.of_succ_nat Pos.succ] in *; f_equal; rewrite <-Hh;
      [apply be32_bytes|apply be64_bytes].
  - apply match_4_8; lia.
Qed.

Lemma read_u64_at n ps cs e k nm :
  node_at mem pname n ps cs e k → no_nul nm →
  read_u64 mem n (asciz nm)
  = Done (match get_prop pname nm ps with None => Err Error.PropertyNotFound | Some v => num_value v end).
Proof.
  intros Hn Hnm. unfold read_u64. destruct (read_property_at mem Hmem pname n ps cs e k nm Hn Hnm) as (r & -> & Hr). cbn [mbind exec_bind].
  destruct (get_prop pname nm ps) as [v|]; [|by rewrite Hr]. destruct Hr as (b & -> & Hb).
  rewrite (parse_number_at b v Hb). cbn [mbind exec_bind]. unfold num_value. by case_decide.
Qed.
Lemma read_u16_at n ps cs e k nm :
  node_at mem pname n ps cs e k → no_nul nm →
  read_u16 mem n (asciz nm)
  = Done (match get_prop pname nm ps with None => Err Error.PropertyNotFound | Some v => u16_value v end).
Proof.
  intros Hn Hnm. unfold read_u16. rewrite (read_u64_at n ps cs e k nm Hn Hnm). cbn [mbind exec_bind].
  destruct (get_prop pname nm ps) as [v|]; [|done]. unfold u16_value. by destruct (num_value v).
Qed.

(** ** Lists of strings *)
Definition it_small (it : MemIter) : Prop := it_wf it ∧ it_limit it - it_next it < 2 ^ 64 - 1.

(** The first string of the list and the others. *)
Lemma get_next_spec it :
  it_small it → it_bytes mem it ≠ [] →
  ∃ entry it' e, StringList_get_next mem it = Done (entry, it') ∧ it_small entry ∧ it_small it' ∧ (it_fuel it' < it_fuel it)%nat ∧
    it_bytes mem entry = e ∧ no_nul e ∧ split_nul (it_bytes mem it) = e :: split_nul (it_bytes mem it').
Proof.
  intros [Hwf Hsm] Hne. pose proof Hwf as [[Hw1 Hw2] Hw3]. unfold StringList_get_next, has_next. rewrite it_len_wf by done.
  assert (Hpos : 0 < it_limit it - it_next it).
  { destruct (decide (0 < it_limit it - it_next it)); [done|]. exfalso. apply Hne. unfold it_bytes. apply bytes_nil. lia. }
  rewrite (proj2 (Z.ltb_lt _ _) Hpos). cbn [assert_then].
  pose proof (strnlen_loop_spec mem (it_next it) 0 (Z.to_nat (it_limit it - it_next it)) _ eq_refl) as Hs.
  destruct (strnlen_loop _ _ _ _) as [pos|].
  - destruct Hs as (Hp & H0 & Hb). rewrite wadd_small by lia. rewrite advance_spec by (done || (unfold in_u; lia)).
    rewrite decide_True by lia. destruct (from_raw_wf (it_next it) pos) as [Hfw Hfe]; [lia..|]. unfold get_next. rewrite Hfe in *.
    set (e := bytes mem (it_next it) pos).
    assert (Hnn : no_nul e) by (unfold e, no_nul; rewrite Forall_bytes; intros x ?; replace x with (it_next it + (x - it_next it)) by lia; apply Hb; lia).
    exists (mkMemIter (it_next it) (it_next it + pos)), (with_next (it_next it + (pos + 1)) it), e.
    unfold it_small, it_wf, it_fuel, it_bytes. cbn [with_next it_next it_limit]. split_and!; try done; try lia.
    + unfold e. f_equal. lia.
    + rewrite (bytes_split mem _ (it_next it + pos) (it_limit it)) by lia.
      replace (it_next it + pos - it_next it) with pos by lia. fold e.
      rewrite (bytes_cons mem (it_next it + pos)) by lia. rewrite H0, split_nul_app by done. do 3 f_equal; lia.
  - rewrite advance_spec by (done || (unfold in_u; lia)). rewrite decide_True by lia.
    assert (Hnn : no_nul (it_bytes mem it)) by (unfold it_bytes, no_nul; rewrite Forall_bytes; intros x ?; replace x with (it_next it + (x - it_next it)) by lia; apply Hs; lia).
    exists it, (with_next (it_next it + (it_limit it - it_next it)) it), (it_bytes mem it).
    unfold it_small, it_wf, it_fuel. cbn [with_next it_next it_limit]. split_and!; try done; try lia.
    rewrite split_nul_last by done. f_equal. unfold it_bytes. cbn [with_next it_next it_limit]. by rewrite bytes_nil by lia.
Qed.

Lemma contains_loop s fuel it :
  no_nul s → Forall (in_u 8) s → it_small it → (it_fuel it < fuel)%nat →
  while_loop (contains_step mem (asciz s)) fuel it = Done (bool_decide (s ∈ split_nul (it_bytes mem it))).
Proof.
  intros Hn Hs. revert it. induction fuel as [|fuel IH]; intros it Hit Hf; [lia|]. cbn [while_loop]. unfold contains_step at 2.
  pose proof Hit as [Hwf Hsm]. unfold has_next. rewrite it_len_wf by done.
  destruct (Z.ltb_spec 0 (it_limit it - it_next it)) as [Hpos|Hz].
  - destruct (get_next_spec it Hit) as (entry & it' & e & -> & [He1 He2] & Hit' & Hm & He & Hnn & ->).
    { unfold it_bytes. by rewrite bytes_cons. }
    cbn [mbind exec_bind].
    assert (Hq : iseq mem entry (buf_mem (asciz s)) BUF = bool_decide (s = e)).
    { apply eq_iff_eq_true. rewrite bool_decide_eq_true. rewrite iseq_spec; [|done| |done..].
      - rewrite He. split; [intros [_ Hh]|intros <-; split; [done|apply buf_holds]].
        symmetry. by eapply asciz_unique; [..|exact Hh|apply buf_holds].
      - apply buf_mem_ok. apply Forall_app. split; [done|]. constructor; [unfold in_u; lia|constructor]. }
    rewrite Hq. case_bool_decide as Hse.
    + cbn. f_equal. symmetry. apply bool_decide_eq_true. subst. by left.
    + cbn. rewrite IH by (done || lia). f_equal. apply bool_decide_ext. rewrite elem_of_cons. tauto.
  - unfold it_bytes. rewrite bytes_nil by lia. cbn. f_equal.
Qed.

(** The last byte of an empty value is not there. *)
Lemma string_list_empty n ps cs e k nm :
  node_at mem pname n ps cs e k → no_nul nm → get_prop pname nm ps = Some [] → StringList_read_from mem n (asciz nm) = Panic.
Proof.
  intros Hn Hnm Hg. unfold StringList_read_from. destruct (read_property_at mem Hmem pname n ps cs e k nm Hn Hnm) as (r & -> & Hr).
  cbn [mbind exec_bind]. rewrite Hg in Hr. destruct Hr as (b & -> & _ & Hl & _). cbn [length] in Hl.
  by rewrite (proj2 (Z.ltb_ge 0 (s_len b))) by lia.
Qed.
Lemma string_list_at n ps cs e k nm v :
  node_at mem pname n ps cs e k → no_nul nm → get_prop pname nm ps = Some v → v ≠ [] →
  ∃ r, StringList_read_from mem n (asciz nm) = Done r ∧
    if decide (last v ≠ Some 0) then r = Err Error.MalformedStringList
    else ∃ it, r = Ok it ∧ it_small it ∧ it_bytes mem it = removelast v.
Proof.
  intros Hn Hnm Hg Hv. unfold StringList_read_from. destruct (read_property_at mem Hmem pname n ps cs e k nm Hn Hnm) as (r & -> & Hr).
  cbn [mbind exec_bind]. pose proof (value_fits _ _ _ _ _ _ _ Hn Hg) as Hlt. rewrite Hg in Hr. destruct Hr as (b & -> & Hb).
  pose proof Hb as (Hh & Hl & _ & Hp & Hq). destruct (exists_last Hv) as (s & x & ->). rewrite removelast_last, last_snoc.
  rewrite length_app in Hl. cbn [length] in Hl. rewrite length_app in Hlt. cbn [length] in Hlt.
  rewrite (proj2 (Z.ltb_lt 0 (s_len b))) by lia. cbn [assert_then].
  apply holds_app in Hh as [Hhs Hhx]. apply holds_cons in Hhx as [Hx _].
  replace (s_ptr b + s_len b - 1) with (s_ptr b + Z.of_nat (length s)) by lia. rewrite Hx.
  destruct (Z.eqb_spec x 0) as [->|Hx0]; cbn [negb].
  - eexists. split; [done|]. rewrite decide_False by tauto.
    destruct (from_raw_wf (s_ptr b) (s_len b - 1)) as [Hfw Hfe]; [lia..|]. rewrite Hfe. eexists. split; [done|]. split.
    + split; [unfold it_wf; cbn; lia|cbn; lia].
    + unfold it_bytes. cbn. replace (s_ptr b + (s_len b - 1) - s_ptr b) with (Z.of_nat (length s)) by lia. exact Hhs.
  - eexists. split; [done|]. by rewrite decide_True by congruence.
Qed.

(** ** The manifest *)

(** The nodes found are nodes of the tree. *)
Lemma child_node_at n ps cs e k nm c sibs d :
  node_at mem pname n ps cs e k → get_child nm cs = Some (c, sibs) →
  at_bytes mem d (body c ++ enc_nodes sibs ++ word (code_of e) ++ k) →
  node_at mem pname (set_data n d) (props c) (children c) FdtToken.EndNode (enc_nodes sibs ++ word (code_of e) ++ k).
Proof.
  intros (_ & _ & Hcs & _) Hg Hd.
  assert (Hc : node_ok mem pname (tok_new n) c).
  { clear Hd. induction Hcs as [|c' cs' Hc' _ IH]; cbn in Hg; [done|]. case_decide; [by injection Hg as <- <-|by apply IH]. }
  destruct c as [nm' ps' cs']. eapply (node_ok_strs _ _ _ (tok_new (set_data n d))) in Hc; [|done].
  apply node_ok_eq in Hc as (_ & ? & ?). split_and!; try done.
  unfold body in Hd. cbn [props children] in *. by rewrite <-!app_assoc in Hd.
Qed.

Lemma ManifestVm_new_at n c k id :
  node_at mem pname n (props c) (children c) FdtToken.EndNode k →
  ManifestVm_new mem n id = Done (vm pname c id).
Proof.
  intros Hn. unfold ManifestVm_new, vm.
  assert (Hs : ∀ nm, no_nul nm → read_string mem n (asciz nm) zero_string = Done (prop pname str_value nm c))
    by (intros; by apply (read_string_at _ _ _ _ _ _ Hn)).
  rewrite !Hs by auto with hfo2. rewrite (read_u64_at _ _ _ _ _ S_mem_size Hn) by auto with hfo2.
  rewrite (read_u16_at _ _ _ _ _ S_vcpu_count Hn) by auto with hfo2.
  fold (prop pname num_value S_mem_size c) (prop pname u16_value S_vcpu_count c). cbn [mbind exec_bind].
  destruct (prop pname str_value S_debug_name c); [|done]. destruct (id =? HF_PRIMARY_VM_ID); cbn [negb]; [done|].
  destruct (prop pname str_value S_kernel_filename c); [|done]. destruct (prop pname num_value S_mem_size c); [|done].
  by destruct (prop pname u16_value S_vcpu_count c).
Qed.

(** The result of the loop over the VM nodes. *)
Definition vm_result (r : list ManifestVm * option Error.t) : result (list ManifestVm * bool) (list ManifestVm * Error.t) :=
  match r with
  | (l, Some e) => Err (l, e)
  | (l, None) => Ok (l, bool_decide (l ≠ []))
  end.

Lemma vm_loop_at n hyp k m acc :
  node_at mem pname n (props hyp) (children hyp) FdtToken.EndNode k →
  Z.of_nat (length acc) + Z.of_nat m = MAX_VMS + 1 →
  vm_loop mem n (seqZ (Z.of_nat (length acc)) (Z.of_nat m)) acc (bool_decide (acc ≠ []))
  = Done (vm_result (vms pname hyp (seqZ (Z.of_nat (length acc)) (Z.of_nat m)) acc)).
Proof.
  intros Hn. revert acc. induction m as [|m IH]; intros acc Hm.
  { rewrite seqZ_nil by lia. done. }
  rewrite seqZ_cons by lia. replace (Z.pred (Z.of_nat (S m))) with (Z.of_nat m) by lia. cbn [vm_loop vms].
  assert (MAX_VMS = 16) as HM by done. assert (HF_VM_ID_OFFSET = 1) as HO by done. assert (HF_PRIMARY_VM_ID = 1) as HP by done.
  set (i := Z.of_nat (length acc)) in *. rewrite HO. rewrite wrap_small by (unfold in_u; lia).
  rewrite generate_vm_node_name_spec. cbn [mbind exec_bind].
  pose proof (find_child_at mem Hmem pname n _ _ _ _ (vm_name (1 + i)) Hn ltac:(auto with hfo2)) as Hf.
  destruct (get_child (vm_name (1 + i)) (children hyp)) as [[c sibs]|] eqn:Hg; [|rewrite Hf; done].
  destruct Hf as (d & -> & Hd & _). cbn [mbind exec_bind negb]. destruct (Z.eqb_spec i MAX_VMS) as [|Hi]; [done|].
  assert (Hpr : (1 + i =? HF_PRIMARY_VM_ID) = bool_decide (acc = [])).
  { rewrite HP. destruct acc; cbn in i; [done|]. rewrite bool_decide_false by done. apply Z.eqb_neq. unfold i. cbn. lia. }
  rewrite Hpr. assert (Hno : bool_decide (acc = []) && bool_decide (acc ≠ []) = false) by (by destruct acc). rewrite Hno. cbn [negb assert_then].
  rewrite (ManifestVm_new_at _ c (enc_nodes sibs ++ word (code_of FdtToken.EndNode) ++ k)) by (by eapply child_node_at).
  cbn [mbind exec_bind]. destruct (vm pname c (1 + i)) as [v|e]; [|done].
  rewrite (proj2 (Z.ltb_lt i MAX_VMS)) by lia. cbn [assert_then].
  assert (Hacc : bool_decide (acc ≠ []) || bool_decide (acc = []) = bool_decide (acc ++ [v] ≠ [])) by (by destruct acc). rewrite Hacc.
  specialize (IH (acc ++ [v])). rewrite length_app in IH. cbn [length] in IH.
  replace (Z.of_nat (length acc + 1)) with (Z.succ i) in IH by (unfold i; lia). apply IH. lia.
Qed.

Lemma manifest_init_spec n ps cs e k m :
  node_at mem pname n ps cs e k →
  manifest_init mem n m =
    if no_bytes pname cs then Panic else Done (let '(r, l) := manifest pname cs in (r, mkManifest l)).
Proof.
  intros Hn. unfold manifest_init, manifest, no_bytes.
  pose proof (find_child_at mem Hmem pname n _ _ _ _ S_hypervisor Hn ltac:(auto with hfo2)) as Hf.
  destruct (get_child S_hypervisor cs) as [[hyp sibs]|] eqn:Hg; [|by rewrite Hf].
  destruct Hf as (d & -> & Hd & _). cbn [mbind exec_bind negb].
  pose proof (child_node_at _ _ _ _ _ _ _ _ _ Hn Hg Hd) as Hh. set (n' := set_data n d) in *.
  set (k' := enc_nodes sibs ++ word (code_of e) ++ k) in *.
  destruct (get_prop pname S_compatible (props hyp)) as [v|] eqn:Hv.
  2:{ unfold StringList_read_from. destruct (read_property_at mem Hmem pname n' _ _ _ _ S_compatible Hh ltac:(auto with hfo2)) as (r & -> & Hr).
      rewrite Hv in Hr. by rewrite Hr. }
  destruct (decide (v = [])) as [->|Hne]; [by rewrite (string_list_empty n' _ _ _ _ S_compatible Hh ltac:(auto with hfo2) Hv)|].
  rewrite bool_decide_false by congruence.
  destruct (string_list_at n' _ _ _ _ S_compatible v Hh ltac:(auto with hfo2) Hv Hne) as (r & -> & Hr).
  cbn [mbind exec_bind]. destruct (decide (last v ≠ Some 0)); [by rewrite Hr|]. destruct Hr as (it & -> & Hit & Hib).
  unfold StringList_contains. rewrite contains_loop; [|auto with hfo2|by repeat (apply Forall_cons; split; [unfold in_u; lia|])|done|lia].
  cbn [mbind exec_bind]. rewrite Hib. rewrite bool_decide_decide. destruct (decide (S_hafnium ∈ split_nul (removelast v))) as [Hin|Hin].
  2:{ rewrite decide_True by done. done. }
  rewrite (decide_False (P := S_hafnium ∉ _)) by tauto. cbn [negb].
  change (seqZ 0 HF_VM_ID_OFFSET) with [0]. cbn [reserved_loop]. rewrite generate_vm_node_name_spec. cbn [mbind exec_bind].
  pose proof (find_child_at mem Hmem pname n' _ _ _ _ (vm_name 0) Hh ltac:(auto with hfo2)) as Hf.
  destruct (get_child (vm_name 0) (children hyp)) as [[c0 s0]|].
  { destruct Hf as (d0 & -> & _). cbn [mbind exec_bind]. by rewrite decide_True by eauto. }
  rewrite Hf. cbn [mbind exec_bind]. rewrite decide_False by (by intros [? ?]).
  pose proof (vm_loop_at n' hyp k' 17 [] Hh ltac:(done)) as Hvm. cbn [length] in Hvm. change (Z.of_nat 0) with 0 in Hvm.
  change (Z.of_nat 17) with (MAX_VMS + 1) in Hvm. rewrite (bool_decide_false ([] ≠ [])) in Hvm by tauto. rewrite Hvm.
  cbn [mbind exec_bind]. destruct (vms pname hyp (seqZ 0 (MAX_VMS + 1)) []) as [[|? ?] [er|]]; done.
Qed.
End proof.

(** ** Any bytes *)

(** The strings are terminated within their arrays, the numbers have their widths. *)
Definition vm_ok (v : ManifestVm) : Prop :=
  length (debug_name v) = 32%nat ∧ 0 ∈ debug_name v ∧ length (kernel_filename v) = 32%nat ∧ 0 ∈ kernel_filename v ∧
  in_u 64 (mem_size v) ∧ in_u 16 (vcpu_count v).

Section any.
Context (mem : Mem) (Hmem : mem_ok mem).

Lemma read_string_ok n nm s : read_string mem n nm zero_string = Done (Ok s) → length s = 32%nat ∧ 0 ∈ s.
Proof.
  unfold read_string. intros ([b|] & _ & H)%bind_Done_inv; [|done]. case_bool_decide as Hs; cbn [negb] in H; [|done].
  change (Z.of_nat (length zero_string)) with 32 in H. destruct (Z.ltb_spec 32 (s_len b)) as [|Hle]; [done|]. injection H as <-.
  pose proof (strnlen_loop_spec mem (s_ptr b) 0 (Z.to_nat (s_len b)) _ eq_refl) as Hp. rewrite Hs in Hp. destruct Hp as (Hp & Hz & _).
  rewrite wsub_small in * by lia. split.
  - rewrite length_app, length_drop, length_bytes. change (length zero_string) with 32%nat. lia.
  - apply elem_of_app. left. rewrite <-Hz. apply list_elem_of_lookup. exists (Z.to_nat (s_len b - 1)).
    unfold bytes. rewrite list_lookup_fmap, lookup_seqZ_lt by lia. cbn. do 2 f_equal. lia.
Qed.

Lemma be64_range a : in_u 64 (be64 mem a).
Proof.
  pose proof (be32_range mem Hmem a). pose proof (be32_range mem Hmem (a + 4)). unfold be64, in_u in *. lia.
Qed.
Lemma parse_number_ok b v : fdt_parse_number mem b = Done (Some v) → in_u 64 v.
Proof.
  unfold fdt_parse_number, assert_then. destruct (is_aligned _ _); [|done]. intros [= H].
  pose proof (be32_range mem Hmem (s_ptr b)) as H4. pose proof (be64_range (s_ptr b)).
  destruct (decide (s_len b = 4)) as [E|E4]; [rewrite E in H; injection H as <-; unfold in_u in *; lia|].
  destruct (decide (s_len b = 8)) as [E|E8]; [rewrite E in H; by injection H as <-|]. by rewrite match_4_8 in H.
Qed.
Lemma read_u64_ok n nm v : read_u64 mem n nm = Done (Ok v) → in_u 64 v.
Proof.
  unfold read_u64. intros ([b|] & _ & H)%bind_Done_inv; [|done]. apply bind_Done_inv in H as ([w|] & Hp & H); [|done].
  injection H as ->. by eapply parse_number_ok.
Qed.
Lemma read_u16_ok n nm v : read_u16 mem n nm = Done (Ok v) → in_u 16 v.
Proof.
  unfold read_u16. intros ([w|] & Hw & H)%bind_Done_inv; [|done]. apply read_u64_ok in Hw. destruct (Z.ltb_spec w (2 ^ 16)); [|done].
  injection H as <-. unfold in_u in *. lia.
Qed.

Lemma ManifestVm_new_ok n id v : ManifestVm_new mem n id = Done (Ok v) → vm_ok v.
Proof.
  assert (Hz : length zero_string = 32%nat ∧ 0 ∈ zero_string) by (split; [done|by left]).
  unfold ManifestVm_new. intros ([name|] & Hn & H)%bind_Done_inv; [apply read_string_ok in Hn as [Hn1 Hn2]|done].
  destruct (id =? HF_PRIMARY_VM_ID); cbn [negb] in H.
  { injection H as <-. unfold vm_ok, in_u. cbn. destruct Hz. split_and!; (done || lia). }
  apply bind_Done_inv in H as ([file|] & Hf & H); [apply read_string_ok in Hf as [Hf1 Hf2]|done].
  apply bind_Done_inv in H as ([size|] & Hs & H); [apply read_u64_ok in Hs|done].
  apply bind_Done_inv in H as ([count|] & Hc & H); [apply read_u16_ok in Hc|done]. by injection H as <-.
Qed.

Lemma vm_loop_ok n ids acc found r :
  vm_loop mem n ids acc found = Done r → Forall vm_ok acc → (length acc ≤ 16)%nat → (found = true → acc ≠ []) →
  let vms := match r with Ok (l, _) => l | Err (l, _) => l end in
  Forall vm_ok vms ∧ (length vms ≤ 16)%nat ∧ match r with Ok (l, true) => l ≠ [] | _ => True end.
Proof.
  revert acc found. induction ids as [|i ids IH]; intros acc found; cbn [vm_loop].
  { intros [= <-] Ha Hl Hf. split_and!; try done. destruct found; auto. }
  intros (nm & _ & ([fd nd] & _ & H)%bind_Done_inv)%bind_Done_inv Ha Hl Hf.
  destruct fd; cbn [negb] in H. 2:{ injection H as <-. split_and!; try done. destruct found; auto. }
  destruct (i =? MAX_VMS); [by injection H as <-|]. unfold assert_then in H. destruct (negb _); [|done].
  apply bind_Done_inv in H as ([v|er] & Hv & H); [|by injection H as <-].
  apply ManifestVm_new_ok in Hv. destruct (Z.ltb_spec (Z.of_nat (length acc)) MAX_VMS) as [Hlt|]; [|done].
  unfold MAX_VMS in Hlt. apply IH in H; [done|by apply Forall_app; split; [|apply Forall_singleton]|rewrite length_app; cbn; lia|by destruct acc].
Qed.

Lemma manifest_init_ok n m r m' :
  manifest_init mem n m = Done (r, m') →
  Forall vm_ok (mf_vms m') ∧ Z.of_nat (length (mf_vms m')) ≤ MAX_VMS ∧ (r = Ok tt → mf_vms m' ≠ []).
Proof.
  assert (Hnil : ∀ e, Done (Err e, mkManifest []) = Done (r, m') →
    Forall vm_ok (mf_vms m') ∧ Z.of_nat (length (mf_vms m')) ≤ MAX_VMS ∧ (r = Ok tt → mf_vms m' ≠ [])).
  { intros e [= <- <-]. split_and!; [by apply Forall_nil|done|done]. }
  unfold manifest_init. intros ([fd nd] & _ & H)%bind_Done_inv. destruct fd; cbn [negb] in H; [|by eapply Hnil].
  apply bind_Done_inv in H as ([l|] & _ & H); [|by eapply Hnil]. apply bind_Done_inv in H as (b & _ & H).
  destruct b; cbn [negb] in H; [|by eapply Hnil]. apply bind_Done_inv in H as (b & _ & H). destruct b; [by eapply Hnil|].
  apply bind_Done_inv in H as (res & Hv & H). apply vm_loop_ok in Hv as (Ha & Hl & Hr); [|by apply Forall_nil|cbn; lia|done].
  unfold MAX_VMS. destruct res as [[l' f]|[l' er]]; injection H as <- <-; cbn; split_and!; try done; try lia. by destruct f.
Qed.
End any.

(** C15: reading the manifest is a function of the device tree.  On a cursor at a node
    that encodes a tree, [Manifest::init] returns what [Mspec.manifest] says of the
    tree, errors included: the first error in the order of the checks, or the VMs in
    the order of their ids.  The exception is a list of compatible names without any
    byte: the specification calls it malformed, the code panics on it. *)
Theorem manifest_init_correct (mem : Mem) (pname : Z → list Z) (n : FdtNode) (root : tree) (sibs : list tree) (m : Manifest) :
  mem_ok mem → cursor mem pname n root sibs →
  manifest_init mem n m =
    if Mspec.no_bytes pname (children root) then Panic
    else Done (let '(r, l) := Mspec.manifest pname (children root) in (r, mkManifest l)).
Proof. intros Hm [k Hn]%cursor_node. exact (manifest_init_spec mem Hm pname n _ _ _ k m Hn). Qed.

(** C27: whatever the bytes of the blob are, a manifest that [Manifest::init] returns
    is well formed: at most [MAX_VMS] VMs, each with strings that end within their
    arrays and numbers of their widths, and at least one VM if it reports success. *)
Theorem manifest_init_typed (mem : Mem) (n : FdtNode) (m m' : Manifest) (r : result unit Error.t) :
  mem_ok mem → manifest_init mem n m = Done (r, m') →
  Forall vm_ok (mf_vms m') ∧ Z.of_nat (length (mf_vms m')) ≤ MAX_VMS ∧ (r = Ok tt → mf_vms m' ≠ []).
Proof. intros Hm H. by eapply manifest_init_ok. Qed.

(** ** The manifest of the blob *)
Module ManifestDemo.
Import DtbDemo.
Definition pad32 (l : list Z) : list Z := l ++ replicate (32 - length l) 0.
Definition vms : list ManifestVm :=
  [mkManifestVm (pad32 (str "primary")) zero_string 0 0;
   mkManifestVm (pad32 (str "secondary")) (pad32 (str "kernel")) 0x100000 4].

Lemma manifest_init_correct_witness : manifest_init mem root_node (mkManifest []) = Done (Ok tt, mkManifest vms).
Proof.
  rewrite (manifest_init_correct mem pname root_node root [] _ dtb_mem_bytes root_node_at). vm_compute. reflexivity.
Defined.
Lemma manifest_init_typed_witness : Forall vm_ok vms ∧ Z.of_nat (length vms) ≤ MAX_VMS ∧ (Ok tt = Ok tt :> result unit Error.t → vms ≠ []).
Proof. apply (manifest_init_typed mem root_node (mkManifest []) (mkManifest vms) (Ok tt) dtb_mem_bytes). vm_compute. reflexivity. Defined.

(** An empty list of compatible names is not reported: the code panics. *)
Definition empty_root : tree := Tree [] [] [Tree (str "hypervisor") [prop "compatible" []] []].
Definition empty_block : list Z := Eval vm_compute in enc empty_root ++ word 9 ++ strings.
Lemma empty_compatible_panics :
  let n := mkFdtNode 0 (mkSlice BUF (Z.of_nat (length (enc empty_root)) + 4))
             (mkSlice (BUF + Z.of_nat (length (enc empty_root)) + 4) (Z.of_nat (length strings))) in
  (r ← find_child (buf_mem empty_block) n [0]; manifest_init (buf_mem empty_block) r.2 (mkManifest [])) = Panic.
Proof. vm_compute. reflexivity. Qed.
End ManifestDemo.
