(* ===== verification/FdtHandler.v ===== *)
(** * What the boot code reads from the device tree ([fdt_handler.rs], [boot_params.rs])

    The boot parameters, their extraction from the tree (the ramdisk, the CPUs, the
    memory ranges), mapping the blob into the hypervisor's table and patching it for
    the primary VM.  The blob is memory of the hypervisor: [patch] changes it.  A
    loop over siblings ends because the cursor moves on. *)
From Stdlib Require Import String.
From S2P Require Import Prelude Addr Mode Arch Mpool Mm MemoryManager Memory Fdt.

(** ** Boot parameters *)
Definition MAX_MEM_RANGES : Z := 20.
Record MemRange := mkMemRange { r_begin : paddr_t; r_end : paddr_t }.
Definition MemRange_new (b e : paddr_t) : MemRange := mkMemRange b e.
Record BootParams := mkBootParams {
  cpu_ids : list Z;
  cpu_count : Z;
  mem_ranges : list MemRange;
  mem_ranges_count : Z;
  initrd_begin : paddr_t;
  initrd_end : paddr_t;
  kernel_arg : Z;
}.
Definition bp_set_ranges (l : list MemRange) (p : BootParams) : BootParams :=
  mkBootParams (cpu_ids p) (cpu_count p) l (mem_ranges_count p) (initrd_begin p) (initrd_end p) (kernel_arg p).
Definition bp_set_count (n : Z) (p : BootParams) : BootParams :=
  mkBootParams (cpu_ids p) (cpu_count p) (mem_ranges p) n (initrd_begin p) (initrd_end p) (kernel_arg p).
Record BootParamsUpdate := mkBootParamsUpdate {
  reserved_ranges : list MemRange;
  reserved_ranges_count : Z;
  upd_initrd_begin : paddr_t;
  upd_initrd_end : paddr_t;
}.
Definition BootParamsUpdate_new (b e : paddr_t) : BootParamsUpdate :=
  mkBootParamsUpdate (replicate (Z.to_nat MAX_MEM_RANGES) (MemRange_new (pa_init 0) (pa_init 0))) 0 b e.

(** [&s[a..b]]. *)
Definition sub_slice (s : slice) (a b : Z) : exec slice :=
  assert_then ((a <=? b) && (b <=? s_len s)) (Done (mkSlice (s_ptr s + a) (b - a))).

(** The bytes of a string constant. *)
Definition lit (s : string) : list Z := (λ c, Z.of_N (Ascii.N_of_ascii c)) <$> String.list_ascii_of_string s.
Definition S_chosen : list Z := Eval vm_compute in lit "chosen".
Definition S_initrd_start : list Z := Eval vm_compute in lit "linux,initrd-start".
Definition S_initrd_end : list Z := Eval vm_compute in lit "linux,initrd-end".
Definition S_cpus : list Z := Eval vm_compute in lit "cpus".
Definition S_cpu : list Z := Eval vm_compute in lit "cpu".
Definition S_memory : list Z := Eval vm_compute in lit "memory".
Definition S_address_cells : list Z := Eval vm_compute in lit "#address-cells".
Definition S_size_cells : list Z := Eval vm_compute in lit "#size-cells".
Definition S_device_type : list Z := Eval vm_compute in lit "device_type".
Definition S_reg : list Z := Eval vm_compute in lit "reg".

(** ** Reading *)
Section read.
Context (mem : Mem).

Definition read_number (n : FdtNode) (name : list Z) : exec (result Z unit) :=
  r ← read_property mem n name;
  match r with
  | Err _ => Done (Err tt)
  | Ok data => v ← fdt_parse_number mem data; Done (match v with Some v => Ok v | None => Err tt end)
  end.

(** The memory after the write, one store of the value's width: it faults on an address
    that is not a multiple of it. *)
Definition write_number (n : FdtNode) (name : list Z) (value : Z) : exec (result unit unit * Mem) :=
  r ← read_property mem n name;
  match r with
  | Err _ => Done (Err tt, mem)
  | Ok data =>
      match s_len data with
      | 4 => assert_then (is_aligned (s_ptr data) 4) (Done (Ok tt, wr_be 4 mem (s_ptr data) (wrap 32 value)))
      | 8 => assert_then (is_aligned (s_ptr data) 8) (Done (Ok tt, wr_be 8 mem (s_ptr data) value))
      | _ => Done (Err tt, mem)
      end
  end.

Definition find_initrd (n : FdtNode) : exec (option (paddr_t * paddr_t)) :=
  '(found, node) ← find_child mem n (asciz S_chosen);
  if negb found then Done None
  else
  b ← read_number node (asciz S_initrd_start);
  match b with
  | Err _ => Done None
  | Ok initrd_begin =>
      e ← read_number node (asciz S_initrd_end);
      match e with
      | Err _ => Done None
      | Ok initrd_end => Done (Some (pa_init initrd_begin, pa_init initrd_end))
      end
  end.

(** The size in bytes that a [cells] property gives, one word without it. *)
Definition cells_size (n : FdtNode) (name : list Z) : exec Z :=
  r ← read_number n name;
  Done (match r with Ok size => size *w 4 | Err _ => 4 end).

(** The test of [device_type], and [reg]. *)
Definition device_reg (n : FdtNode) (ty : list Z) : exec (option slice) :=
  r ← read_property mem n (asciz S_device_type);
  match r with
  | Err _ => Done None
  | Ok data =>
      if bool_decide (bytes mem (s_ptr data) (s_len data) = asciz ty) then
        r ← read_property mem n (asciz S_reg);
        Done (match r with Ok data => Some data | Err _ => None end)
      else Done None
  end.

(** [if node.next_sibling().is_none() { break }]: leaves the loop with [r], or goes on
    with the state [s] at the sibling. *)
Definition next_or_break {S R} (n : FdtNode) (s : FdtNode → S) (r : R) : exec (S + R) :=
  '(name, n) ← next_sibling mem n;
  Done (match name with None => inr r | Some _ => inl (s n) end).
Definition node_fuel (n : FdtNode) : nat := S (Z.to_nat (s_len (nd_data n))).

(** *** CPUs *)

(** The entries of one CPU; [None] is [return None]. *)
Definition cpu_entry_step (address_size : Z) (s : slice * Z * list Z)
    : exec (slice * Z * list Z + option Z * list Z) :=
  let '(data, count, ids) := s in
  if address_size <=? s_len data then
    if MAX_CPUS <=? count then Done (inr (None, ids))
    else
    first ← sub_slice data 0 address_size;
    v ← fdt_parse_number mem first;
    match v with
    | None => Done (inr (None, ids))
    | Some v =>
        ids ← array_set ids count v;
        data ← sub_slice data address_size (s_len data);
        Done (inl (data, count + 1, ids))
    end
  else Done (inr (Some count, ids)).
Definition cpu_entries (address_size : Z) (data : slice) (count : Z) (ids : list Z) : exec (option Z * list Z) :=
  while_loop (cpu_entry_step address_size) (S (Z.to_nat (s_len data))) (data, count, ids).

Definition cpu_node_step (address_size : Z) (s : FdtNode * Z * list Z)
    : exec (FdtNode * Z * list Z + option Z * list Z) :=
  let '(node, count, ids) := s in
  d ← device_reg node S_cpu;
  match d with
  | None => next_or_break node (λ node, (node, count, ids)) (Some count, ids)
  | Some data =>
      '(r, ids) ← cpu_entries address_size data count ids;
      match r with
      | None => Done (inr (None, ids))
      | Some count => next_or_break node (λ node, (node, count, ids)) (Some count, ids)
      end
  end.
(** The number of CPUs, and the array also when it fails. *)
Definition find_cpus (n : FdtNode) (ids : list Z) : exec (option Z * list Z) :=
  '(found, node) ← find_child mem n (asciz S_cpus);
  if negb found then Done (None, ids)
  else
  address_size ← cells_size node (asciz S_address_cells);
  '(name, node) ← first_child mem node;
  match name with
  | None => Done (None, ids)
  | Some _ => while_loop (cpu_node_step address_size) (node_fuel node) (node, 0, ids)
  end.

(** *** Memory ranges *)

Definition range_step (address_size entry_size : Z) (s : slice * Z * list MemRange)
    : exec (slice * Z * list MemRange + Z * list MemRange) :=
  let '(data, idx, ranges) := s in
  if entry_size <=? s_len data then
    a ← sub_slice data 0 address_size;
    a ← fdt_parse_number mem a;
    addr ← unwrap_opt a;
    l ← sub_slice data address_size entry_size;
    l ← fdt_parse_number mem l;
    len ← unwrap_opt l;
    '(idx, ranges) ← (if idx <? MAX_MEM_RANGES then
                        ranges ← array_set ranges idx (mkMemRange (pa_init addr) (pa_init (addr +w len)));
                        Done (idx + 1, ranges)
                      else Done (idx, ranges));
    data ← sub_slice data entry_size (s_len data);
    Done (inl (data, idx, ranges))
  else Done (inr (idx, ranges)).
Definition node_ranges (address_size entry_size : Z) (data : slice) (idx : Z) (ranges : list MemRange)
    : exec (Z * list MemRange) :=
  while_loop (range_step address_size entry_size) (S (Z.to_nat (s_len data))) (data, idx, ranges).

Definition memory_node_step (address_size entry_size : Z) (s : FdtNode * Z * list MemRange)
    : exec (FdtNode * Z * list MemRange + Z * list MemRange) :=
  let '(node, idx, ranges) := s in
  d ← device_reg node S_memory;
  match d with
  | None => next_or_break node (λ node, (node, idx, ranges)) (idx, ranges)
  | Some data =>
      '(idx, ranges) ← node_ranges address_size entry_size data idx ranges;
      next_or_break node (λ node, (node, idx, ranges)) (idx, ranges)
  end.
(** [true] is [Some(())]. *)
Definition find_memory_ranges (n : FdtNode) (p : BootParams) : exec (bool * BootParams) :=
  address_size ← cells_size n (asciz S_address_cells);
  size_size ← cells_size n (asciz S_size_cells);
  let entry_size := address_size +w size_size in
  '(name, node) ← first_child mem n;
  match name with
  | None => Done (false, p)
  | Some _ =>
      '(idx, ranges) ← while_loop (memory_node_step address_size entry_size) (node_fuel node) (node, 0, mem_ranges p);
      Done (true, bp_set_count idx (bp_set_ranges ranges p))
  end.
End read.

(** ** Mapping and patching *)
Section handler.
Context {A : ArchMM}.

(** Reading the header, in words, faults past the end of the hypervisor's address space,
    which [identity_map] does not report, and at an address that is not a multiple of 4. *)
Definition header_mapped (fdt_addr : paddr_t) : bool :=
  (pa_addr fdt_addr + SIZEOF_FdtHeader <=? ptable_addr_space_end (SG := Stage1)) && is_aligned (pa_addr fdt_addr) 4.

(** The guard of the mapped header: its failure is ignored. *)
Definition unmap_header (t : PageTable) (fdt_addr : paddr_t) (st : MmState) : exec (PageTable * MmState) :=
  '(_, t, st) ← unmap (SG := Stage1) t fdt_addr (pa_add fdt_addr SIZEOF_FdtHeader) st;
  Done (t, st).

Definition fdt_map (mem : Mem) (t : PageTable) (fdt_addr : paddr_t) (st : MmState)
    : exec (option FdtNode * PageTable * MmState) :=
  '(ok, t, st) ← identity_map (SG := Stage1) t fdt_addr (pa_add fdt_addr SIZEOF_FdtHeader) Mode.R st;
  if negb ok then Done (None, t, st)
  else
  assert_then (header_mapped fdt_addr) (
  match new_root mem (pa_addr fdt_addr) with
  | None => '(t, st) ← unmap_header t fdt_addr st; Done (None, t, st)
  | Some node =>
      '(ok, t, st) ← identity_map (SG := Stage1) t fdt_addr (pa_add fdt_addr (total_size mem (pa_addr fdt_addr))) Mode.R st;
      if negb ok then '(t, st) ← unmap_header t fdt_addr st; Done (None, t, st)
      else Done (Some node, t, st)
  end).

Definition fdt_unmap (mem : Mem) (t : PageTable) (fdt : Z) (st : MmState) : exec (bool * PageTable * MmState) :=
  let fdt_addr := pa_init fdt in
  unmap (SG := Stage1) t fdt_addr (pa_add fdt_addr (total_size mem fdt)) st.

(** Reserving the hypervisor's memory and the ranges of the update. *)
Definition reserve_layout (mem : Mem) (hdr : Z) (lay : Layout) : exec Mem :=
  mem ← add_mem_reservation mem hdr (pa_addr (layout_text_begin lay))
          (pa_difference (layout_text_begin lay) (layout_text_end lay));
  mem ← add_mem_reservation mem hdr (pa_addr (layout_rodata_begin lay))
          (pa_difference (layout_rodata_begin lay) (layout_rodata_end lay));
  add_mem_reservation mem hdr (pa_addr (layout_data_begin lay))
    (pa_difference (layout_data_begin lay) (layout_data_end lay)).
Fixpoint reserve_ranges (mem : Mem) (hdr : Z) (ranges : list MemRange) (n : nat) (i : Z) : exec Mem :=
  match n with
  | O => Done mem
  | S n =>
      r ← unwrap_opt (ranges !! Z.to_nat i);
      mem ← add_mem_reservation mem hdr (pa_addr (r_begin r)) (pa_addr (r_end r) -w pa_addr (r_begin r));
      reserve_ranges mem hdr ranges n (i + 1)
  end.

(** What [patch] does to the blob once it is mapped for writing. *)
Definition patch_blob (mem : Mem) (node : FdtNode) (hdr : Z) (p : BootParamsUpdate) (lay : Layout)
    : exec (result unit unit * Mem) :=
  '(found, node) ← find_child mem node (asciz []);
  if negb found then Done (Err tt, mem)
  else
  '(found, node) ← find_child mem node (asciz S_chosen);
  if negb found then Done (Err tt, mem)
  else
  '(r, mem) ← write_number mem node (asciz S_initrd_start) (pa_addr (upd_initrd_begin p));
  match r with
  | Err _ => Done (Err tt, mem)
  | Ok _ =>
      '(r, mem) ← write_number mem node (asciz S_initrd_end) (pa_addr (upd_initrd_end p));
      match r with
      | Err _ => Done (Err tt, mem)
      | Ok _ =>
          mem ← reserve_layout mem hdr lay;
          mem ← reserve_ranges mem hdr (reserved_ranges p) (Z.to_nat (reserved_ranges_count p)) 0;
          Done (Ok tt, mem)
      end
  end.

(** The range to unmap after the changes is that of the blob's new size. *)
Definition patch (mem : Mem) (t : PageTable) (fdt_addr : paddr_t) (p : BootParamsUpdate) (lay : Layout) (st : MmState)
    : exec (result unit unit * Mem * PageTable * MmState) :=
  let fdt := pa_addr fdt_addr in
  '(ok, t, st) ← identity_map (SG := Stage1) t fdt_addr (pa_add fdt_addr SIZEOF_FdtHeader) Mode.R st;
  if negb ok then Done (Err tt, mem, t, st)
  else
  assert_then (header_mapped fdt_addr) (
  match new_root mem fdt with
  | None => '(t, st) ← unmap_header t fdt_addr st; Done (Err tt, mem, t, st)
  | Some node =>
      let size := total_size mem fdt in
      '(ok, t, st) ← identity_map (SG := Stage1) t fdt_addr (pa_add fdt_addr (size + PAGE_SIZE)) (Z.lor Mode.R Mode.W) st;
      if negb ok then '(t, st) ← unmap_header t fdt_addr st; Done (Err tt, mem, t, st)
      else
      '(r, mem) ← patch_blob mem node fdt p lay;
      match r with
      | Err _ =>
          '(_, t, st) ← unmap (SG := Stage1) t fdt_addr (pa_add fdt_addr (size + PAGE_SIZE)) st;
          Done (Err tt, mem, t, st)
      | Ok _ =>
          '(ok, t, st) ← unmap (SG := Stage1) t fdt_addr (pa_add fdt_addr (total_size mem fdt + PAGE_SIZE)) st;
          Done (if ok : bool then Ok tt else Err tt, mem, t, st)
      end
  end).
End handler.
