(* ===== verification/FdtHandlerSpec.v ===== *)
(** * What the boot code reads from a device tree

    On a blob that encodes a tree, [find_initrd], [find_cpus] and
    [find_memory_ranges] return what [Hspec] says of the tree.  Their loops end on
    any bytes. *)
From Stdlib Require Import String.
From S2P Require Import Prelude Addr Memory Fdt FdtLoops FdtTree Manifest ManifestSpec FdtHandler.
Import Dt Mspec.

(** ** Termination *)
Section loops.
Context (mem : Mem) (Hmem : mem_ok mem).
Definition nlen (n : FdtNode) : nat := Z.to_nat (s_len (nd_data n)).

Lemma next_sibling_len n r n' :
  next_sibling mem n = Done (r, n') → match r with Some _ => (nlen n' < nlen n)%nat | None => n' = n end.
Proof.
  unfold next_sibling. intros ([ok t1] & Hs & H)%bind_Done_inv. apply skip_node_len in Hs; [|done].
  destruct ok; cbn [negb] in H; [|by injection H as <- <-]. apply bind_Done_inv in H as ([nm t2] & Hn & H).
  apply next_subnode_len in Hn; [|done]. destruct nm; injection H as <- <-; [|done].
  unfold consumed, shorter, nlen, tlen in *. cbn in *. lia.
Qed.
Lemma next_or_break_decreases {S R} n (s : FdtNode → S) (r : R) (m : S → nat) s' :
  (∀ n', m (s n') = nlen n') → next_or_break mem n s r = Done (inl s') → (m s' < nlen n)%nat.
Proof.
  intros Hm. unfold next_or_break. intros ([nm n1] & Hs & H)%bind_Done_inv. apply next_sibling_len in Hs.
  destruct nm; [|done]. injection H as <-. by rewrite Hm.
Qed.

Lemma sub_slice_inv s a b s' : sub_slice s a b = Done s' → a ≤ b ≤ s_len s ∧ s' = mkSlice (s_ptr s + a) (b - a).
Proof. unfold sub_slice, assert_then. destruct (Z.leb_spec a b), (Z.leb_spec b (s_len s)); try done. by intros [= <-]. Qed.
Lemma parse_number_len b v : fdt_parse_number mem b = Done (Some v) → s_len b = 4 ∨ s_len b = 8.
Proof.
  unfold fdt_parse_number, assert_then. destruct (is_aligned _ _); [|done]. intros [= H].
  destruct (decide (s_len b = 4)) as [|H4]; [by left|]. destruct (decide (s_len b = 8)) as [|H8]; [by right|]. by rewrite match_4_8 in H.
Qed.

Lemma cpu_entry_decreases a : decreases (cpu_entry_step mem a) (λ '(d, _, _), Z.to_nat (s_len d)).
Proof.
  intros [[d c] ids] [[d' c'] ids']. unfold cpu_entry_step. destruct (_ <=? _); [|done]. destruct (_ <=? _); [done|].
  intros (f & Hf & (v & Hv & H)%bind_Done_inv)%bind_Done_inv. apply sub_slice_inv in Hf as [? ->]. destruct v as [v|]; [|done].
  apply parse_number_len in Hv. cbn in Hv. apply bind_Done_inv in H as (ids1 & _ & H). apply bind_Done_inv in H as (d1 & Hd & [= <- <- <-]).
  apply sub_slice_inv in Hd as [? ->]. cbn. lia.
Qed.
Lemma cpu_node_decreases a : decreases (cpu_node_step mem a) (λ '(n, _, _), nlen n).
Proof.
  intros [[n c] ids] s'. unfold cpu_node_step. intros (d & _ & H)%bind_Done_inv.
  destruct d as [d|]; [apply bind_Done_inv in H as ([[c1|] ids1] & _ & H); [|done]|];
    apply (next_or_break_decreases _ _ _ (λ '(n, _, _), nlen n)) in H; done.
Qed.
Lemma range_decreases a e : decreases (range_step mem a e) (λ '(d, _, _), Z.to_nat (s_len d)).
Proof.
  intros [[d c] rs] [[d' c'] rs']. unfold range_step. destruct (_ <=? _); [|done].
  intros (f & Hf & (v & Hv & H)%bind_Done_inv)%bind_Done_inv. apply sub_slice_inv in Hf as [? ->]. apply bind_Done_inv in H as (v' & Hv' & H).
  destruct v as [v|]; [|done]. apply parse_number_len in Hv. cbn in Hv. apply bind_Done_inv in H as (f2 & Hf2 & H). apply sub_slice_inv in Hf2 as [? ->].
  apply bind_Done_inv in H as (w & _ & H). apply bind_Done_inv in H as (w' & _ & H). apply bind_Done_inv in H as ([i1 rs1] & _ & H).
  apply bind_Done_inv in H as (d1 & Hd & [= <- <- <-]). apply sub_slice_inv in Hd as [? ->]. cbn. lia.
Qed.
Lemma memory_node_decreases a e : decreases (memory_node_step mem a e) (λ '(n, _, _), nlen n).
Proof.
  intros [[n c] rs] s'. unfold memory_node_step. intros (d & _ & H)%bind_Done_inv.
  destruct d as [d|]; [apply bind_Done_inv in H as ([c1 rs1] & _ & H)|];
    apply (next_or_break_decreases _ _ _ (λ '(n, _, _), nlen n)) in H; done.
Qed.
End loops.

(** The loops that read CPUs and memory ranges terminate on every memory and for
    every size of the entries, zero included. *)
Theorem boot_loops_terminate (mem : Mem) (address_size entry_size : Z) :
  mem_ok mem →
  halts (cpu_entry_step mem address_size) ∧ halts (cpu_node_step mem address_size) ∧
  halts (range_step mem address_size entry_size) ∧ halts (memory_node_step mem address_size entry_size).
Proof.
  intros Hm. split_and!; eauto using decreases_halts, cpu_entry_decreases, cpu_node_decreases, range_decreases, memory_node_decreases.
Qed.

(** ** The values in the tree *)
Module Hspec.
Definition number (v : list Z) : option Z :=
  if decide (length v = 4%nat ∨ length v = 8%nat) then Some (be_value v) else None.
(** The complete entries of [k] bytes. *)
Fixpoint chunks (fuel k : nat) (l : list Z) : list (list Z) :=
  match fuel with
  | O => []
  | S fuel => if (k <=? length l)%nat then take k l :: chunks fuel k (drop k l) else []
  end.
Definition entries (k : nat) (l : list Z) : list (list Z) := chunks (length l) k l.

Section spec.
Context (pname : Z → list Z).
Definition prop_number (nm : list Z) (tr : tree) : option Z := get_prop pname nm (props tr) ≫= number.
(** The bytes of a number of cells, one if the property is absent or malformed. *)
Definition cells (nm : list Z) (tr : tree) : Z :=
  match prop_number nm tr with Some n => wrap 64 (n * 4) | None => 4 end.
Definition initrd (tr : tree) : option (paddr_t * paddr_t) :=
  '(chosen, _) ← get_child S_chosen (children tr);
  b ← prop_number S_initrd_start chosen;
  e ← prop_number S_initrd_end chosen;
  Some (pa_init b, pa_init e).
(** The [reg] property of a node of the device type. *)
Definition device (ty : list Z) (tr : tree) : list Z :=
  if decide (get_prop pname S_device_type (props tr) = Some (asciz ty)) then default [] (get_prop pname S_reg (props tr)) else [].
(** The ids of the CPUs of the nodes, in order. *)
Definition cpus (k : nat) (nodes : list tree) : list Z := mjoin ((λ tr, be_value <$> entries k (device S_cpu tr)) <$> nodes).
Definition range_of (a : nat) (v : list Z) : MemRange :=
  mkMemRange (pa_init (be_value (take a v))) (pa_init (be_value (take a v) +w be_value (drop a v))).
Definition ranges (a k : nat) (nodes : list tree) : list MemRange :=
  mjoin ((λ tr, range_of a <$> entries k (device S_memory tr)) <$> nodes).
End spec.
End Hspec.
Import Hspec.

Lemma chunks_fuel k f1 f2 l : (0 < k)%nat → (length l ≤ f1)%nat → (length l ≤ f2)%nat → chunks f1 k l = chunks f2 k l.
Proof.
  intros Hk. revert f2 l. induction f1 as [|f1 IH]; intros [|f2] l H1 H2; cbn [chunks]; try done.
  - destruct (Nat.leb_spec k (length l)); [lia|done].
  - destruct (Nat.leb_spec k (length l)); [lia|done].
  - destruct (Nat.leb_spec k (length l)); [|done]. f_equal. apply IH; rewrite length_drop; lia.
Qed.
Lemma entries_unfold k l : (0 < k)%nat → entries k l = if (k <=? length l)%nat then take k l :: entries k (drop k l) else [].
Proof.
  intros Hk. unfold entries. destruct l as [|c l]; [destruct k; [lia|done]|]. cbn [length chunks]. change (length (c :: l)) with (S (length l)).
  destruct (Nat.leb_spec k (S (length l))); [|done]. f_equal. apply chunks_fuel; [done|rewrite length_drop; cbn; lia|done].
Qed.

Lemma initrd_start_no_nul : no_nul S_initrd_start. Proof. solve_no_nul. Qed.
Lemma initrd_end_no_nul : no_nul S_initrd_end. Proof. solve_no_nul. Qed.
Lemma chosen_no_nul : no_nul S_chosen. Proof. solve_no_nul. Qed.
Lemma cpus_no_nul : no_nul S_cpus. Proof. solve_no_nul. Qed.
Lemma address_cells_no_nul : no_nul S_address_cells. Proof. solve_no_nul. Qed.
Lemma size_cells_no_nul : no_nul S_size_cells. Proof. solve_no_nul. Qed.
Lemma device_type_no_nul : no_nul S_device_type. Proof. solve_no_nul. Qed.
Lemma reg_no_nul : no_nul S_reg. Proof. solve_no_nul. Qed.
#[local] Hint Resolve initrd_start_no_nul initrd_end_no_nul chosen_no_nul cpus_no_nul address_cells_no_nul size_cells_no_nul
  device_type_no_nul reg_no_nul : hfo2.

Section read.
Context (mem : Mem) (Hmem : mem_ok mem) (pname : Z → list Z).

Lemma read_number_at n tr sibs nm :
  cursor mem pname n tr sibs → no_nul nm →
  read_number mem n (asciz nm) = Done (match prop_number pname nm tr with Some v => Ok v | None => Err tt end).
Proof.
  intros Hc Hn. unfold read_number, prop_number. destruct (cursor_read_property mem Hmem pname n tr sibs nm Hc Hn) as (r & -> & Hr).
  cbn [mbind exec_bind]. destruct (get_prop pname nm (props tr)) as [v|]; [|by rewrite Hr]. destruct Hr as (b & -> & Hb).
  rewrite (parse_number_at mem b v Hb). cbn. unfold number. by case_decide.
Qed.
Lemma cells_size_at n tr sibs nm :
  cursor mem pname n tr sibs → no_nul nm → cells_size mem n (asciz nm) = Done (cells pname nm tr).
Proof.
  intros Hc Hn. unfold cells_size, cells. rewrite (read_number_at n tr sibs nm Hc Hn). cbn [mbind exec_bind].
  by destruct (prop_number pname nm tr).
Qed.
Lemma find_initrd_at n tr sibs : cursor mem pname n tr sibs → find_initrd mem n = Done (initrd pname tr).
Proof.
  intros Hc. unfold find_initrd, initrd. pose proof (cursor_find_child mem Hmem pname n tr sibs S_chosen Hc ltac:(auto with hfo2)) as Hf.
  destruct (get_child S_chosen (children tr)) as [[ch s]|]; [|by rewrite Hf]. destruct Hf as (n' & -> & Hc'). cbn [mbind exec_bind negb].
  rewrite !(read_number_at n' ch s) by auto with hfo2. cbn [mbind exec_bind option_bind].
  destruct (prop_number pname S_initrd_start ch); [|done]. cbn. by destruct (prop_number pname S_initrd_end ch).
Qed.

Lemma device_reg_at n tr sibs ty :
  cursor mem pname n tr sibs →
  ∃ r, device_reg mem n ty = Done r ∧
    match r with Some b => at_bytes mem b (device pname ty tr) | None => device pname ty tr = [] end.
Proof.
  intros Hc. unfold device_reg, device.
  destruct (cursor_read_property mem Hmem pname n tr sibs S_device_type Hc ltac:(auto with hfo2)) as (r & -> & Hr). cbn [mbind exec_bind].
  destruct (get_prop pname S_device_type (props tr)) as [v|].
  2:{ rewrite Hr. eexists. split; [done|]. cbn. by rewrite decide_False. }
  destruct Hr as (b & -> & Hb). rewrite (at_bytes_eq mem b v Hb). rewrite bool_decide_decide. destruct (decide (v = asciz ty)) as [->|Hne].
  2:{ eexists. split; [done|]. cbn. rewrite decide_False; [done|]. congruence. }
  destruct (cursor_read_property mem Hmem pname n tr sibs S_reg Hc ltac:(auto with hfo2)) as (r & -> & Hr). cbn [mbind exec_bind].
  rewrite decide_True by done. eexists. split; [done|].
  destruct (get_prop pname S_reg (props tr)) as [w|]; [destruct Hr as (b' & -> & ?); done|by rewrite Hr].
Qed.

(** ** Entries *)
Lemma at_bytes_sub b l i j :
  at_bytes mem b l → 0 ≤ i ≤ j → j ≤ Z.of_nat (length l) → aligned 4 i →
  sub_slice b i j = Done (mkSlice (s_ptr b + i) (j - i)) ∧
  at_bytes mem (mkSlice (s_ptr b + i) (j - i)) (take (Z.to_nat (j - i)) (drop (Z.to_nat i) l)).
Proof.
  intros (Hh & Hl & Ha & H0 & H64) Hi Hj Hal. unfold sub_slice, assert_then.
  rewrite (proj2 (Z.leb_le i j)), (proj2 (Z.leb_le j (s_len b))) by lia. cbn [andb]. split; [done|]. unfold at_bytes. cbn [s_ptr s_len].
  assert (Hlen : length (take (Z.to_nat (j - i)) (drop (Z.to_nat i) l)) = Z.to_nat (j - i)).
  { rewrite length_take, length_drop. lia. }
  split_and!; [|rewrite Hlen; lia|by apply aligned_add|lia|lia].
  rewrite holds_lookup in *. intros k c Hk. apply lookup_take_Some in Hk as [Hk _]. rewrite lookup_drop in Hk.
  rewrite <-(Hh _ _ Hk). f_equal. lia.
Qed.

Definition cell_size (k : nat) : Prop := k = 4%nat ∨ k = 8%nat.
Lemma cell_aligned k : cell_size k → aligned 4 (Z.of_nat k).
Proof. by intros [->| ->]. Qed.

(** The first [k] bytes as a number, and the rest. *)
Lemma parse_first b l k :
  at_bytes mem b l → cell_size k → (k ≤ length l)%nat →
  (first ← sub_slice b 0 (Z.of_nat k); fdt_parse_number mem first) = Done (Some (be_value (take k l))).
Proof.
  intros Hb Hk Hle. destruct (at_bytes_sub b l 0 (Z.of_nat k) Hb) as [-> Hs]; [lia..|done|]. cbn [mbind exec_bind].
  rewrite (parse_number_at mem _ _ Hs). rewrite Z.sub_0_r, Nat2Z.id. cbn [Z.to_nat drop]. rewrite decide_True; [done|].
  rewrite length_take_le by done. exact Hk.
Qed.
Lemma sub_rest b l k :
  at_bytes mem b l → (k ≤ length l)%nat → aligned 4 (Z.of_nat k) →
  ∃ b', sub_slice b (Z.of_nat k) (s_len b) = Done b' ∧ at_bytes mem b' (drop k l).
Proof.
  intros Hb Hle Hal. pose proof Hb as (_ & Hl & _). destruct (at_bytes_sub b l (Z.of_nat k) (s_len b) Hb) as [Hs Hb']; [lia|lia|done|].
  eexists. split; [exact Hs|]. rewrite Nat2Z.id in Hb'. rewrite take_ge in Hb'; [done|]. rewrite length_drop. lia.
Qed.

(** *** CPUs *)
Lemma take_insert_S {X} (a : list X) i v : (i < length a)%nat → take (S i) (<[i := v]> a) = take i a ++ [v].
Proof. intros Hi. rewrite (take_S_r _ _ v) by by apply list_lookup_insert_eq. by rewrite take_insert_ge. Qed.

Lemma cpu_entries_at k b l count ids :
  cell_size k → at_bytes mem b l → Z.of_nat (length ids) = MAX_CPUS → 0 ≤ count ≤ MAX_CPUS →
  let vs := be_value <$> entries k l in
  let count' := count + Z.of_nat (length vs) in
  ∃ ids', cpu_entries mem (Z.of_nat k) b count ids = Done (if count' <=? MAX_CPUS then Some count' else None, ids') ∧
    Z.of_nat (length ids') = MAX_CPUS ∧ (count' ≤ MAX_CPUS → take (Z.to_nat count') ids' = take (Z.to_nat count) ids ++ vs).
Proof.
  intros Hk Hb Hids Hc. cbv zeta.
  assert (∃ ids', runs (cpu_entry_step mem (Z.of_nat k)) (b, count, ids)
      (if count + Z.of_nat (length (be_value <$> entries k l)) <=? MAX_CPUS then Some (count + Z.of_nat (length (be_value <$> entries k l))) else None, ids') ∧
    Z.of_nat (length ids') = MAX_CPUS ∧ (count + Z.of_nat (length (be_value <$> entries k l)) ≤ MAX_CPUS →
      take (Z.to_nat (count + Z.of_nat (length (be_value <$> entries k l)))) ids' = take (Z.to_nat count) ids ++ (be_value <$> entries k l))) as (ids' & Hr & Hrest).
  2:{ exists ids'. split; [|done]. eapply while_loop_runs; [apply cpu_entry_decreases|exact Hr|cbn; lia]. }
  assert (Hk0 : (0 < k)%nat) by (destruct Hk; lia).
  remember (length l) as m eqn:Hm. revert l b count ids Hm Hb Hids Hc. induction (lt_wf m) as [m _ IH]. intros l b count ids -> Hb Hids Hc.
  pose proof Hb as (_ & Hl & _). rewrite (entries_unfold k l Hk0). destruct (Nat.leb_spec k (length l)) as [Hle|Hgt].
  - destruct (decide (count = MAX_CPUS)) as [->|Hlt].
    { exists ids. split_and!; [|done|rewrite length_fmap; cbn [length]; lia]. apply runs_exit. unfold cpu_entry_step.
      rewrite (proj2 (Z.leb_le (Z.of_nat k) _)), Z.leb_refl by lia. rewrite (proj2 (Z.leb_gt _ _)) by (rewrite length_fmap; cbn [length]; lia). done. }
    destruct (sub_rest b l k Hb Hle (cell_aligned k Hk)) as (b' & Hsb & Hb').
    pose proof (parse_first b l k Hb Hk Hle) as Hpf. apply bind_Done_inv in Hpf as (f & Hsf & Hpf).
    destruct (IH (length (drop k l)) ltac:(rewrite length_drop; lia) (drop k l) b' (count + 1) (<[Z.to_nat count := be_value (take k l)]> ids) eq_refl Hb')
      as (ids' & Hr & Hl' & Htk); [by rewrite length_insert|lia|].
    exists ids'. rewrite fmap_cons. cbn [length]. rewrite Nat2Z.inj_succ.
    replace (count + Z.succ (Z.of_nat (length (be_value <$> entries k (drop k l))))) with (count + 1 + Z.of_nat (length (be_value <$> entries k (drop k l)))) by lia.
    split_and!; [|done|].
    + eapply runs_next; [|exact Hr]. unfold cpu_entry_step. rewrite (proj2 (Z.leb_le (Z.of_nat k) _)), (proj2 (Z.leb_gt MAX_CPUS _)) by lia.
      rewrite Hsf. cbn [mbind exec_bind]. rewrite Hpf. cbn [mbind exec_bind]. rewrite array_set_ok by lia. cbn [mbind exec_bind]. rewrite Hsb. done.
    + intros Hle'. rewrite Htk by done. replace (Z.to_nat (count + 1)) with (S (Z.to_nat count)) by lia. rewrite take_insert_S by lia.
      by rewrite <-app_assoc.
  - exists ids. cbn [fmap list_fmap length]. rewrite Z.add_0_r, app_nil_r, (proj2 (Z.leb_le _ _)) by lia. split_and!; [|done|done].
    apply runs_exit. unfold cpu_entry_step. by rewrite (proj2 (Z.leb_gt (Z.of_nat k) _)) by lia.
Qed.

(** The nodes from a cursor on. *)
Lemma next_or_break_at {S R} n tr sibs (s : FdtNode → S) (r : R) :
  cursor mem pname n tr sibs →
  match sibs with
  | c :: sibs => ∃ n', next_or_break mem n s r = Done (inl (s n')) ∧ cursor mem pname n' c sibs
  | [] => next_or_break mem n s r = Done (inr r)
  end.
Proof.
  intros Hc. pose proof (next_sibling_at mem Hmem pname n tr sibs Hc) as Hn. unfold next_or_break.
  destruct sibs as [|c sibs]; [by rewrite Hn|]. destruct Hn as (b & n' & -> & _ & Hc'). by eexists.
Qed.

Lemma cpus_cons k tr nodes : cpus pname k (tr :: nodes) = (be_value <$> entries k (device pname S_cpu tr)) ++ cpus pname k nodes.
Proof. done. Qed.
Lemma entries_nil k : entries k [] = [].
Proof. done. Qed.

Lemma cpu_nodes_at k n tr sibs count ids :
  cell_size k → cursor mem pname n tr sibs → Z.of_nat (length ids) = MAX_CPUS → 0 ≤ count ≤ MAX_CPUS →
  let vs := cpus pname k (tr :: sibs) in
  let count' := count + Z.of_nat (length vs) in
  ∃ ids', runs (cpu_node_step mem (Z.of_nat k)) (n, count, ids) (if count' <=? MAX_CPUS then Some count' else None, ids') ∧
    (count' ≤ MAX_CPUS → take (Z.to_nat count') ids' = take (Z.to_nat count) ids ++ vs).
Proof.
  intros Hk. cbv zeta. revert n tr count ids. induction sibs as [|c sibs IH]; intros n tr count ids Hc Hids Hcnt.
  all: rewrite cpus_cons, length_app, Nat2Z.inj_add.
  all: destruct (device_reg_at n tr _ S_cpu Hc) as (d & Hd & Hdv).
  all: set (vs := be_value <$> entries k (device pname S_cpu tr)) in *.
  all: assert (∃ ids1, (d ← device_reg mem n S_cpu;
           match d with None => Done (Some count, ids) | Some data => cpu_entries mem (Z.of_nat k) data count ids end)
         = Done (if count + Z.of_nat (length vs) <=? MAX_CPUS then Some (count + Z.of_nat (length vs)) else None, ids1) ∧
         Z.of_nat (length ids1) = MAX_CPUS ∧ (count + Z.of_nat (length vs) ≤ MAX_CPUS → take (Z.to_nat (count + Z.of_nat (length vs))) ids1 = take (Z.to_nat count) ids ++ vs))
       as (ids1 & Hstep & Hl1 & Ht1) by
    (rewrite Hd; cbn [mbind exec_bind]; destruct d as [b|];
      [by apply cpu_entries_at|exists ids; unfold vs; rewrite Hdv, entries_nil; cbn [fmap list_fmap length];
        rewrite Z.add_0_r, app_nil_r, (proj2 (Z.leb_le _ _)) by lia; done]).
  all: rewrite Hd in Hstep; cbn [mbind exec_bind] in Hstep.
  all: assert (Hrun : count + Z.of_nat (length vs) ≤ MAX_CPUS → cpu_node_step mem (Z.of_nat k) (n, count, ids) =
         next_or_break mem n (λ node, (node, count + Z.of_nat (length vs), ids1)) (Some (count + Z.of_nat (length vs)), ids1)) by
    (intros Hle; rewrite (proj2 (Z.leb_le _ _) Hle) in Hstep; unfold cpu_node_step; rewrite Hd; cbn [mbind exec_bind];
     destruct d as [b|]; [rewrite Hstep; done|injection Hstep as Hs1 Hs2; by rewrite <-Hs1, <-Hs2]).
  all: assert (Hfail : MAX_CPUS < count + Z.of_nat (length vs) → cpu_node_step mem (Z.of_nat k) (n, count, ids) = Done (inr (None, ids1))) by
    (intros Hgt; rewrite (proj2 (Z.leb_gt _ _) Hgt) in Hstep; unfold cpu_node_step; rewrite Hd; cbn [mbind exec_bind];
     destruct d as [b|]; [rewrite Hstep; done|done]).
  - pose proof (next_or_break_at n tr [] (λ node, (node, count + Z.of_nat (length vs), ids1)) (Some (count + Z.of_nat (length vs)), ids1) Hc) as Hnb.
    exists ids1. change (cpus pname k []) with (@nil Z). cbn [length]. rewrite Z.add_0_r, app_nil_r. split; [|done]. apply runs_exit.
    destruct (Z.leb_spec (count + Z.of_nat (length vs)) MAX_CPUS); [by rewrite Hrun|by apply Hfail].
  - pose proof (next_or_break_at n tr (c :: sibs) (λ node, (node, count + Z.of_nat (length vs), ids1)) (Some (count + Z.of_nat (length vs)), ids1) Hc) as (n' & Hnb & Hc').
    destruct (decide (count + Z.of_nat (length vs) ≤ MAX_CPUS)) as [Hle|Hgt].
    + destruct (IH n' c (count + Z.of_nat (length vs)) ids1 Hc' Hl1) as (ids' & Hr & Ht); [lia|]. exists ids'.
      rewrite Z.add_assoc. split; [eapply runs_next; [|exact Hr]; by rewrite Hrun|].
      intros Hle'. rewrite Ht by done. rewrite Ht1 by done. by rewrite app_assoc.
    + exists ids1. rewrite (proj2 (Z.leb_gt _ _)) by lia. split; [|lia]. apply runs_exit, Hfail. lia.
Qed.

Lemma find_cpus_at n tr sibs cs s k ids :
  cursor mem pname n tr sibs → get_child S_cpus (children tr) = Some (cs, s) → children cs ≠ [] →
  cells pname S_address_cells cs = Z.of_nat k → cell_size k → Z.of_nat (length ids) = MAX_CPUS →
  let vs := cpus pname k (children cs) in
  ∃ ids', find_cpus mem n ids = Done (if Z.of_nat (length vs) <=? MAX_CPUS then Some (Z.of_nat (length vs)) else None, ids') ∧
    (Z.of_nat (length vs) ≤ MAX_CPUS → take (length vs) ids' = vs).
Proof.
  intros Hc Hg Hne Hcell Hk Hids. cbv zeta. unfold find_cpus.
  pose proof (cursor_find_child mem Hmem pname n tr sibs S_cpus Hc ltac:(auto with hfo2)) as Hf. rewrite Hg in Hf.
  destruct Hf as (n1 & -> & Hc1). cbn [mbind exec_bind negb]. rewrite (cells_size_at n1 cs s) by auto with hfo2. cbn [mbind exec_bind].
  pose proof (cursor_first_child mem Hmem pname n1 cs s Hc1) as Hfc. destruct (children cs) as [|c nodes]; [done|].
  destruct Hfc as (b & n2 & -> & _ & Hc2). cbn [mbind exec_bind]. rewrite Hcell.
  destruct (cpu_nodes_at k n2 c nodes 0 ids Hk Hc2 Hids) as (ids' & Hr & Ht); [done|]. rewrite Z.add_0_l in *.
  exists ids'. split; [|by rewrite Nat2Z.id in Ht].
  eapply while_loop_runs; [by apply cpu_node_decreases|exact Hr|unfold node_fuel, nlen; lia].
Qed.

(** *** Memory ranges *)
Definition cap (l : list MemRange) : list MemRange := take (Z.to_nat MAX_MEM_RANGES) l.
Lemma cap_cap l1 l2 : cap (cap l1 ++ l2) = cap (l1 ++ l2).
Proof.
  unfold cap. destruct (decide (Z.to_nat MAX_MEM_RANGES ≤ length l1)%nat) as [Hle|Hgt].
  - rewrite !take_app_le by (rewrite ?length_take; lia). by rewrite take_take, Nat.min_id.
  - by rewrite (take_ge l1) by lia.
Qed.
Lemma length_cap l : Z.of_nat (length (cap l)) ≤ MAX_MEM_RANGES.
Proof. unfold cap. rewrite length_take. unfold MAX_MEM_RANGES. lia. Qed.

(** [rs] has the ranges [acc] at its front. *)
Definition filled (acc rs : list MemRange) : Prop :=
  Z.of_nat (length rs) = MAX_MEM_RANGES ∧ Z.of_nat (length acc) ≤ MAX_MEM_RANGES ∧ take (length acc) rs = acc.
Lemma filled_push acc rs r :
  filled acc rs →
  ∃ rs', (if Z.of_nat (length acc) <? MAX_MEM_RANGES then
            ranges ← array_set rs (Z.of_nat (length acc)) r; Done (Z.of_nat (length acc) + 1, ranges)
          else Done (Z.of_nat (length acc), rs)) = Done (Z.of_nat (length (cap (acc ++ [r]))), rs') ∧ filled (cap (acc ++ [r])) rs'.
Proof.
  intros (Hl & Ha & Ht). destruct (Z.ltb_spec (Z.of_nat (length acc)) MAX_MEM_RANGES) as [Hlt|Hge].
  - rewrite array_set_ok by lia. cbn [mbind exec_bind]. rewrite Nat2Z.id. unfold cap.
    rewrite take_ge by (rewrite length_app; cbn; unfold MAX_MEM_RANGES in *; lia). rewrite length_app. cbn [length].
    eexists. split; [do 2 f_equal; lia|]. unfold filled. rewrite length_insert, length_app. cbn [length]. split_and!; [lia|lia|].
    rewrite Nat.add_1_r, take_insert_S by lia. by rewrite Ht.
  - exists rs. unfold cap. rewrite take_app_le by (unfold MAX_MEM_RANGES in *; lia). rewrite take_ge by (unfold MAX_MEM_RANGES in *; lia). done.
Qed.

Lemma parse_second b l a k :
  at_bytes mem b l → cell_size a → cell_size (k - a) → (k ≤ length l)%nat →
  (x ← sub_slice b (Z.of_nat a) (Z.of_nat k); fdt_parse_number mem x) = Done (Some (be_value (drop a (take k l)))).
Proof.
  intros Hb Ha Hk Hle. assert (a ≤ k)%nat by (destruct Hk; lia).
  destruct (at_bytes_sub b l (Z.of_nat a) (Z.of_nat k) Hb) as [-> Hs]; [lia..|by apply cell_aligned|]. cbn [mbind exec_bind].
  rewrite (parse_number_at mem _ _ Hs). replace (Z.to_nat (Z.of_nat k - Z.of_nat a)) with (k - a)%nat by lia. rewrite Nat2Z.id.
  rewrite take_drop_commute. replace (a + (k - a))%nat with k by lia. rewrite decide_True; [done|].
  rewrite length_drop, length_take_le by done. exact Hk.
Qed.

Lemma node_ranges_at a k b l acc rs :
  cell_size a → cell_size (k - a) → at_bytes mem b l → filled acc rs →
  let acc' := cap (acc ++ (range_of a <$> entries k l)) in
  ∃ rs', node_ranges mem (Z.of_nat a) (Z.of_nat k) b (Z.of_nat (length acc)) rs = Done (Z.of_nat (length acc'), rs') ∧ filled acc' rs'.
Proof.
  intros Ha Hk Hb Hf. cbv zeta. assert (Hk0 : (0 < k)%nat) by (destruct Hk; lia).
  assert (Hkal : aligned 4 (Z.of_nat k)) by (replace k with (a + (k - a))%nat by (destruct Hk; lia); rewrite Nat2Z.inj_add; apply aligned_add; by apply cell_aligned).
  assert (∃ rs', runs (range_step mem (Z.of_nat a) (Z.of_nat k)) (b, Z.of_nat (length acc), rs)
     (Z.of_nat (length (cap (acc ++ (range_of a <$> entries k l)))), rs') ∧ filled (cap (acc ++ (range_of a <$> entries k l))) rs') as (rs' & Hr & Hrest).
  2:{ exists rs'. split; [|done]. eapply while_loop_runs; [apply range_decreases|exact Hr|cbn; lia]. }
  remember (length l) as m eqn:Hm. revert l b acc rs Hm Hb Hf. induction (lt_wf m) as [m _ IH]. intros l b acc rs -> Hb Hf.
  pose proof Hb as (_ & Hl & _). rewrite (entries_unfold k l Hk0). destruct (Nat.leb_spec k (length l)) as [Hle|Hgt].
  - destruct (sub_rest b l k Hb Hle Hkal) as (b' & Hsb & Hb').
    assert (Hal : (a ≤ k)%nat) by (destruct Hk; lia).
    pose proof (parse_first b l a Hb Ha ltac:(lia)) as Hp1. apply bind_Done_inv in Hp1 as (f & Hsf & Hp1).
    pose proof (parse_second b l a k Hb Ha Hk Hle) as Hp2. apply bind_Done_inv in Hp2 as (g & Hsg & Hp2).
    set (r := range_of a (take k l)).
    assert (Hrr : r = mkMemRange (pa_init (be_value (take a l))) (pa_init (be_value (take a l) +w be_value (drop a (take k l))))).
    { unfold r, range_of. by rewrite take_take, Nat.min_l by done. }
    destruct (filled_push acc rs r Hf) as (rs1 & Hpush & Hf1).
    destruct (IH (length (drop k l)) ltac:(rewrite length_drop; lia) (drop k l) b' (cap (acc ++ [r])) rs1 eq_refl Hb' Hf1) as (rs' & Hr & Hf').
    exists rs'. rewrite fmap_cons. fold r. rewrite cap_cap, <-app_assoc in Hr. rewrite cap_cap, <-app_assoc in Hf'. split; [|done].
    eapply runs_next; [|exact Hr]. unfold range_step. rewrite (proj2 (Z.leb_le (Z.of_nat k) _)) by lia.
    rewrite Hsf. cbn [mbind exec_bind]. rewrite Hp1. cbn [mbind exec_bind unwrap_opt]. rewrite Hsg. cbn [mbind exec_bind]. rewrite Hp2.
    cbn [mbind exec_bind unwrap_opt]. rewrite <-Hrr. cbn [mbind exec_bind] in Hpush. rewrite Hpush. cbn [mbind exec_bind]. by rewrite Hsb.
  - exists rs. rewrite app_nil_r. assert (cap acc = acc) as -> by (apply take_ge; destruct Hf as (_ & ? & _); unfold MAX_MEM_RANGES in *; lia).
    split; [|done]. apply runs_exit. unfold range_step. by rewrite (proj2 (Z.leb_gt (Z.of_nat k) _)) by lia.
Qed.

Lemma memory_nodes_at a k n tr sibs acc rs :
  cell_size a → cell_size (k - a) → cursor mem pname n tr sibs → filled acc rs →
  let acc' := cap (acc ++ ranges pname a k (tr :: sibs)) in
  ∃ rs', runs (memory_node_step mem (Z.of_nat a) (Z.of_nat k)) (n, Z.of_nat (length acc), rs) (Z.of_nat (length acc'), rs') ∧ filled acc' rs'.
Proof.
  intros Ha Hk. cbv zeta. revert n tr acc rs. induction sibs as [|c sibs IH]; intros n tr acc rs Hc Hf.
  all: change (ranges pname a k (tr :: ?ss)) with ((range_of a <$> entries k (device pname S_memory tr)) ++ ranges pname a k ss).
  all: destruct (device_reg_at n tr _ S_memory Hc) as (d & Hd & Hdv).
  all: set (vs := range_of a <$> entries k (device pname S_memory tr)) in *.
  all: assert (∃ rs1, memory_node_step mem (Z.of_nat a) (Z.of_nat k) (n, Z.of_nat (length acc), rs) =
         next_or_break mem n (λ node, (node, Z.of_nat (length (cap (acc ++ vs))), rs1)) (Z.of_nat (length (cap (acc ++ vs))), rs1) ∧ filled (cap (acc ++ vs)) rs1)
       as (rs1 & Hstep & Hf1) by
    (unfold memory_node_step; rewrite Hd; cbn [mbind exec_bind]; destruct d as [b|];
      [destruct (node_ranges_at a k b _ acc rs Ha Hk Hdv Hf) as (rs1 & -> & Hf1); exists rs1; done
      |exists rs; unfold vs; rewrite Hdv, entries_nil, app_nil_r; destruct Hf as (? & ? & ?); unfold cap;
       rewrite (take_ge acc) by (unfold MAX_MEM_RANGES in *; lia); done]).
  - exists rs1. change (ranges pname a k []) with (@nil MemRange). rewrite app_nil_r. split; [|done]. apply runs_exit. rewrite Hstep.
    exact (next_or_break_at n tr [] (λ node, (node, Z.of_nat (length (cap (acc ++ vs))), rs1)) _ Hc).
  - destruct (next_or_break_at n tr (c :: sibs) (λ node, (node, Z.of_nat (length (cap (acc ++ vs))), rs1)) (Z.of_nat (length (cap (acc ++ vs))), rs1) Hc) as (n' & Hnb & Hc').
    destruct (IH n' c (cap (acc ++ vs)) rs1 Hc' Hf1) as (rs' & Hr & Hf'). rewrite cap_cap, <-app_assoc in Hr. rewrite cap_cap, <-app_assoc in Hf'.
    exists rs'. split; [|done]. eapply runs_next; [|exact Hr]. by rewrite Hstep.
Qed.

Lemma find_memory_ranges_at n tr sibs a k bp :
  cursor mem pname n tr sibs → children tr ≠ [] → cells pname S_address_cells tr = Z.of_nat a → cells pname S_size_cells tr = Z.of_nat (k - a) →
  cell_size a → cell_size (k - a) → Z.of_nat (length (mem_ranges bp)) = MAX_MEM_RANGES →
  let vs := cap (ranges pname a k (children tr)) in
  ∃ rs', find_memory_ranges mem n bp = Done (true, bp_set_count (Z.of_nat (length vs)) (bp_set_ranges rs' bp)) ∧ filled vs rs'.
Proof.
  intros Hc Hne Hca Hcs Ha Hk Hl. cbv zeta. unfold find_memory_ranges.
  rewrite !(cells_size_at n tr sibs) by auto with hfo2. cbn [mbind exec_bind]. rewrite Hca, Hcs.
  assert (Z.of_nat a +w Z.of_nat (k - a) = Z.of_nat k) as -> by (rewrite wadd_small; destruct Ha, Hk; lia).
  pose proof (cursor_first_child mem Hmem pname n tr sibs Hc) as Hfc. destruct (children tr) as [|c nodes]; [done|].
  destruct Hfc as (b & n2 & -> & _ & Hc2). cbn [mbind exec_bind].
  destruct (memory_nodes_at a k n2 c nodes [] (mem_ranges bp) Ha Hk Hc2) as (rs' & Hr & Hf); [by split|]. cbn [app length] in *.
  exists rs'. split; [|done]. rewrite (while_loop_runs _ (λ '(n, _, _), nlen n) _ _ _ (memory_node_decreases mem Hmem _ _) Hr) by (unfold node_fuel, nlen; lia). done.
Qed.
End read.

(** C25: reading the boot parameters is a function of the device tree.  At the root
    node: [find_initrd] returns the two numbers of the node [chosen]; [find_cpus]
    stores the ids of all CPU nodes in order and counts them, and fails if there are
    more than [MAX_CPUS]; [find_memory_ranges] stores the ranges of all memory nodes in
    order, at most [MAX_MEM_RANGES] of them.  This is for trees whose addresses, sizes
    and ids have one or two cells and which have a node [cpus] with children: with other
    sizes the code fails or panics, and without CPU nodes [find_cpus] fails. *)
Theorem boot_params_correct (mem : Mem) (pname : Z → list Z) (n : FdtNode) (root cs : tree) (sibs s : list tree)
    (ids : list Z) (bp : BootParams) (k a e : nat) :
  mem_ok mem → cursor mem pname n root sibs →
  get_child S_cpus (children root) = Some (cs, s) → children cs ≠ [] →
  cells pname S_address_cells cs = Z.of_nat k → cell_size k → Z.of_nat (length ids) = MAX_CPUS →
  cells pname S_address_cells root = Z.of_nat a → cells pname S_size_cells root = Z.of_nat (e - a) →
  cell_size a → cell_size (e - a) → Z.of_nat (length (mem_ranges bp)) = MAX_MEM_RANGES →
  let vs := cpus pname k (children cs) in
  let rs := take (Z.to_nat MAX_MEM_RANGES) (ranges pname a e (children root)) in
  find_initrd mem n = Done (initrd pname root) ∧
  (∃ ids', find_cpus mem n ids = Done (if Z.of_nat (length vs) <=? MAX_CPUS then Some (Z.of_nat (length vs)) else None, ids') ∧
     (Z.of_nat (length vs) ≤ MAX_CPUS → take (length vs) ids' = vs)) ∧
  (∃ bp', find_memory_ranges mem n bp = Done (true, bp') ∧
     mem_ranges_count bp' = Z.of_nat (length rs) ∧ take (length rs) (mem_ranges bp') = rs).
Proof.
  intros Hm Hc Hg Hne Hk Hks Hids Ha He Has Hes Hbp. cbv zeta.
  split_and!; [by eapply find_initrd_at|by eapply (find_cpus_at mem Hm pname n root sibs cs s)|].
  destruct (find_memory_ranges_at mem Hm pname n root sibs a e bp) as (rs' & Hf & (_ & _ & Ht)); try done.
  { intros Hnil. by rewrite Hnil in Hg. }
  eexists. split; [exact Hf|]. by split.
Qed.

(** ** The parameters of the blob *)
Module HandlerDemo.
Import DtbDemo.
Lemma boot_loops_terminate_witness : halts (range_step mem 0 0).
Proof. apply (boot_loops_terminate mem 0 0 dtb_mem_bytes). Defined.

Definition zero_params : BootParams :=
  mkBootParams (replicate 8 0) 0 (replicate 20 (mkMemRange (pa_init 0) (pa_init 0))) 0 (pa_init 0) (pa_init 0) 0.
Definition range (b e : Z) : MemRange := mkMemRange (pa_init b) (pa_init e).
Lemma boot_params_correct_witness :
  find_initrd mem root_node = Done (Some (pa_init 0x84000000, pa_init 0x84100000)) ∧
  (∃ ids', find_cpus mem root_node (replicate 8 0) = Done (Some 2, ids') ∧ take 2 ids' = [7; 9]) ∧
  (∃ bp', find_memory_ranges mem root_node zero_params = Done (true, bp') ∧ mem_ranges_count bp' = 3 ∧
     take 3 (mem_ranges bp') = [range 0 0x20000000; range 0x30000000 0x30010000; range 0x30020000 0x30030000]).
Proof.
  destruct (get_child S_cpus (children root)) as [[cs s]|] eqn:Hg; [|vm_compute in Hg; discriminate].
  pose proof Hg as Hcs. vm_compute in Hcs. injection Hcs as Hcs _.
  destruct (boot_params_correct mem pname root_node root cs [] s (replicate 8 0) zero_params 4 8 16 dtb_mem_bytes root_node_at Hg) as (H1 & H2 & H3);
    [subst cs; vm_compute; first [reflexivity|discriminate|by left|by right]..|].
  subst cs. split_and!; [exact H1| |exact H3].
  destruct H2 as (ids' & H2 & H2'). exists ids'. split; [exact H2|]. apply H2'. vm_compute. discriminate.
Defined.

(** A node of memory with no cells of size: the code panics. *)
Definition bad_root : tree :=
  Tree [] [prop "#size-cells" (word 0)] [Tree (str "memory") [prop "device_type" (cstr "memory"); prop "reg" (word 0)] []].
Definition bad_block : list Z := Eval vm_compute in enc bad_root ++ word 9 ++ strings.
Lemma zero_size_cells_panics :
  let n := mkFdtNode 0 (mkSlice BUF (Z.of_nat (length (enc bad_root)) + 4))
             (mkSlice (BUF + Z.of_nat (length (enc bad_root)) + 4) (Z.of_nat (length strings))) in
  (r ← find_child (buf_mem bad_block) n [0]; find_memory_ranges (buf_mem bad_block) r.2 zero_params) = Panic.
Proof. vm_compute. reflexivity. Qed.
End HandlerDemo.
