(* ===== verification/FdtPatch.v ===== *)
(** * Patching the device tree

    [blob_at]: memory holds the encoding of a device tree with its reservation map and
    its strings.  [add_mem_reservation] moves the rest of the blob and puts one entry
    in front of the map; [write_number] replaces the value of a property.  Both leave
    a blob that encodes the changed tree. *)
From Stdlib Require Import String.
From S2P Require Import Prelude Addr MemoryManager Memory Fdt FdtLoops FdtTree Manifest ManifestSpec FdtHandler FdtHandlerSpec.
Import Dt Mspec.

(** ** Bytes *)
Lemma holds_ext mem mem' a a' l :
  holds mem a l → (∀ i, 0 ≤ i < Z.of_nat (length l) → mem' (a' + i) = mem (a + i)) → holds mem' a' l.
Proof.
  rewrite !holds_lookup. intros H He i b Hi. rewrite He; [by apply H|]. apply lookup_lt_Some in Hi. lia.
Qed.
Lemma be32_ext mem mem' a a' : (∀ i, 0 ≤ i < 4 → mem' (a' + i) = mem (a + i)) → be32 mem' a' = be32 mem a.
Proof.
  intros H. unfold be32, be16. pose proof (H 0 ltac:(lia)) as H0. pose proof (H 1 ltac:(lia)) as H1. pose proof (H 2 ltac:(lia)) as H2.
  pose proof (H 3 ltac:(lia)) as H3. rewrite !Z.add_0_r in H0. replace (a + 2 + 1) with (a + 3) by lia. replace (a' + 2 + 1) with (a' + 3) by lia.
  by rewrite H0, H1, H2, H3.
Qed.
Lemma wr_be_holds n mem a v : holds (wr_be (Z.of_nat n) mem a v) a (be_bytes n v).
Proof.
  apply holds_lookup. intros i b Hi. pose proof (lookup_lt_Some _ _ _ Hi) as Hlt. rewrite length_be_bytes in Hlt.
  unfold wr_be. rewrite bool_decide_true by lia.
  assert (∀ n i, (i < n)%nat → be_bytes n v !! i = Some (le_byte v (Z.of_nat (n - 1 - i)))) as Hb.
  { clear. induction n as [|n IH]; intros i Hi; [lia|]. cbn [be_bytes]. destruct i as [|i]; cbn; [do 3 f_equal; lia|]. rewrite IH by lia. do 3 f_equal. lia. }
  rewrite Hb in Hi by done. injection Hi as <-. f_equal. lia.
Qed.
Lemma be_bytes_mod n v : be_bytes n (v mod 2 ^ (8 * Z.of_nat n)) = be_bytes n v.
Proof.
  assert (∀ k m, (m ≤ k)%nat → be_bytes m (v mod 2 ^ (8 * Z.of_nat k)) = be_bytes m v) as H; [|by apply H].
  intros k m. induction m as [|m IH]; intros Hm; [done|]. cbn [be_bytes]. rewrite IH by lia. f_equal. unfold le_byte.
  apply Z.bits_inj'. intros i Hi. rewrite <-!Z.shiftr_div_pow2 by lia. destruct (Z_lt_ge_dec i 8).
  - rewrite !Z.mod_pow2_bits_low, !Z.shiftr_spec, Z.mod_pow2_bits_low by lia. done.
  - by rewrite !Z.mod_pow2_bits_high by lia.
Qed.
Lemma wr_be_other n mem a v x : ¬ a ≤ x < a + n → wr_be n mem a v x = mem x.
Proof. intros H. unfold wr_be. by rewrite bool_decide_false. Qed.
Lemma be32_wr_be mem a v : in_u 32 v → be32 (wr_be 4 mem a v) a = v.
Proof. intros Hv. apply be32_holds; [done|]. apply (wr_be_holds 4). Qed.

(** ** Memory stays bytes *)
Lemma mem_ok_wr_be n mem a v : mem_ok mem → mem_ok (wr_be n mem a v).
Proof. intros H x. unfold wr_be. case_bool_decide; [|apply H]. unfold le_byte. apply Z.mod_pos_bound. lia. Qed.
Lemma mem_ok_reservation mem hdr a l mem' : mem_ok mem → add_mem_reservation mem hdr a l = Done mem' → mem_ok mem'.
Proof.
  intros H. unfold add_mem_reservation, assert_then. cbv zeta. destruct (is_aligned _ _); [|done]. intros [= <-].
  by repeat (apply mem_ok_wr_be || apply mem_ok_memcpy).
Qed.
Lemma write_number_mem mem n nm v r mem' : mem_ok mem → write_number mem n nm v = Done (r, mem') → mem_ok mem'.
Proof.
  intros Hm. unfold write_number. intros ([b|] & _ & H)%bind_Done_inv; [|by injection H as <- <-].
  assert (H4 : mem_ok (wr_be 4 mem (s_ptr b) (wrap 32 v))) by by apply mem_ok_wr_be.
  assert (H8 : mem_ok (wr_be 8 mem (s_ptr b) v)) by by apply mem_ok_wr_be.
  destruct (s_len b) as [|q|q]; [by injection H as <- <-| |by injection H as <- <-].
  unfold assert_then in H. do 4 (destruct q as [q|q|]; try (by injection H as <- <-); try (destruct (is_aligned _ _); [by injection H as <- <-|done])).
Qed.
Lemma reserve_ranges_mem mem hdr l n i mem' : mem_ok mem → reserve_ranges mem hdr l n i = Done mem' → mem_ok mem'.
Proof.
  revert mem i. induction n as [|n IH]; intros mem i Hm; cbn [reserve_ranges]; [by intros [= <-]|].
  intros (r & _ & H)%bind_Done_inv. apply bind_Done_inv in H as (m1 & H1 & H). eapply IH; [|exact H]. by eapply mem_ok_reservation.
Qed.
Lemma reserve_layout_mem mem hdr lay mem' : mem_ok mem → reserve_layout mem hdr lay = Done mem' → mem_ok mem'.
Proof.
  intros Hm. unfold reserve_layout. intros (m1 & H1 & H)%bind_Done_inv. apply bind_Done_inv in H as (m2 & H2 & H).
  apply mem_ok_reservation in H1; [|done]. apply mem_ok_reservation in H2; [|done]. by apply mem_ok_reservation in H.
Qed.
Lemma patch_blob_mem mem n hdr u lay r mem' : mem_ok mem → patch_blob mem n hdr u lay = Done (r, mem') → mem_ok mem'.
Proof.
  intros Hm. unfold patch_blob. intros ([f1 n1] & _ & H)%bind_Done_inv. destruct f1; cbn [negb] in H; [|by injection H as <- <-].
  apply bind_Done_inv in H as ([f2 n2] & _ & H). destruct f2; cbn [negb] in H; [|by injection H as <- <-].
  apply bind_Done_inv in H as ([r1 m1] & H1 & H). apply write_number_mem in H1; [|done]. destruct r1; [|by injection H as <- <-].
  apply bind_Done_inv in H as ([r2 m2] & H2 & H). apply write_number_mem in H2; [|done]. destruct r2; [|by injection H as <- <-].
  apply bind_Done_inv in H as (m3 & H3 & H). apply bind_Done_inv in H as (m4 & H4 & [= <- <-]). eapply reserve_ranges_mem; [|exact H4].
  by eapply reserve_layout_mem.
Qed.

(** ** Blobs *)
Record dtb := mkDtb {
  d_root : tree;
  (** Reserved memory: address and size. *)
  d_rsv : list (Z * Z);
  d_strs : list Z;
}.
Definition enc_rsv (l : list (Z * Z)) : list Z :=
  mjoin ((λ '(a, n), be_bytes 8 a ++ be_bytes 8 n) <$> l) ++ replicate 16 0.

Section blob.
Context (pname : Z → list Z).

(** The names of the properties are in the strings block. *)
Definition name_in (strs : list Z) (q : Z * list Z) : Prop :=
  in_u 32 q.1 ∧ no_nul (pname q.1) ∧ ∃ rest, drop (Z.to_nat q.1) strs = asciz (pname q.1) ++ rest.
Fixpoint names_in (strs : list Z) (tr : tree) : Prop :=
  let 'Tree _ ps cs := tr in Forall (name_in strs) ps ∧ foldr (λ c P, names_in strs c ∧ P) True cs.

(** The parts of the blob, in this order. *)
Record blob_at (mem : Mem) (hdr : Z) (d : dtb) : Prop := {
  ba_magic : hdr_magic mem hdr = FDT_MAGIC;
  ba_version : hdr_last_comp_version mem hdr ≤ FDT_VERSION ≤ hdr_version mem hdr;
  ba_tree : tree_ok (d_root d);
  ba_names : names_in (d_strs d) (d_root d);
  ba_hdr : 0 ≤ hdr ∧ aligned 4 (hdr + hdr_off_dt_struct mem hdr) ∧ hdr + hdr_totalsize mem hdr < 2 ^ 64;
  ba_rsv_aligned : aligned 8 (hdr + hdr_off_mem_rsvmap mem hdr);
  ba_rsv_off : SIZEOF_FdtHeader ≤ hdr_off_mem_rsvmap mem hdr ∧
    hdr_off_mem_rsvmap mem hdr + Z.of_nat (length (enc_rsv (d_rsv d))) ≤ hdr_off_dt_struct mem hdr;
  ba_rsv : holds mem (hdr + hdr_off_mem_rsvmap mem hdr) (enc_rsv (d_rsv d));
  ba_struct_off : hdr_off_dt_struct mem hdr + hdr_size_dt_struct mem hdr ≤ hdr_off_dt_strings mem hdr;
  ba_struct : holds mem (hdr + hdr_off_dt_struct mem hdr) (enc (d_root d) ++ word 9) ∧
    hdr_size_dt_struct mem hdr = Z.of_nat (length (enc (d_root d) ++ word 9));
  ba_strs_off : hdr_off_dt_strings mem hdr + hdr_size_dt_strings mem hdr ≤ hdr_totalsize mem hdr;
  ba_strs : holds mem (hdr + hdr_off_dt_strings mem hdr) (d_strs d) ∧
    hdr_size_dt_strings mem hdr = Z.of_nat (length (d_strs d));
}.

Lemma names_in_strs mem strs t tr :
  holds mem (s_ptr (t_strs t)) strs → s_len (t_strs t) = Z.of_nat (length strs) → names_in strs tr → strs_ok mem pname t tr.
Proof.
  intros Hh Hl. induction tr as [nm ps cs IH] using tree_ind'. cbn [names_in strs_ok]. intros [Hps Hcs]. split.
  - eapply Forall_impl; [exact Hps|]. intros q ([Hq0 _] & Hnn & rest & Hd).
    assert (Hlen : (Z.to_nat q.1 + length (asciz (pname q.1)) ≤ length strs)%nat).
    { apply (f_equal length) in Hd. rewrite length_drop, length_app in Hd. unfold asciz in *. rewrite length_app in *. cbn [length] in *. lia. }
    split_and!; [lia|done|]. rewrite <-(take_drop (Z.to_nat q.1) strs) in Hh. apply holds_app in Hh as [_ Hh]. rewrite Hd in Hh.
    apply holds_app in Hh as [Hh _]. rewrite length_take_le in Hh by lia. by rewrite Z2Nat.id in Hh by lia.
  - clear Hps. induction IH as [|c cs Hc _ IH]; [done|]. cbn in *. destruct Hcs. split; auto.
Qed.

(** A blob is a device tree for the parser. *)
Lemma blob_dtb mem hdr d : blob_at mem hdr d → dtb_at mem pname hdr (d_root d).
Proof.
  intros []. split; [done|]. split; [done|]. destruct ba_hdr0 as (? & ? & ?), ba_struct0 as [Hs Hl], ba_strs0 as [Hst Hsl]. split.
  - unfold at_bytes. cbn [s_ptr s_len]. split_and!; try done; [|lia]. pose proof ba_rsv_off0. unfold SIZEOF_FdtHeader in *. lia.
  - split; [done|]. by eapply names_in_strs.
Qed.

(** ** Reservations *)
Section reserve.
Context (mem : Mem) (hdr addr len : Z) (d : dtb).
Context (Hmem : mem_ok mem) (Hb : blob_at mem hdr d).
Context (Hfit : hdr_totalsize mem hdr + 16 < 2 ^ 32) (Hfit64 : hdr + hdr_totalsize mem hdr + 16 < 2 ^ 64).
Context (mem' : Mem) (Hdone : add_mem_reservation mem hdr addr len = Done mem').
Let rsv := hdr_off_mem_rsvmap mem hdr.
Let total := hdr_totalsize mem hdr.

Lemma reserve_bounds : 40 ≤ rsv ∧ rsv + 16 ≤ total ∧ total < 2 ^ 32 - 16 ∧ 0 ≤ hdr_off_dt_struct mem hdr < 2 ^ 32 - 16 ∧
  0 ≤ hdr_off_dt_strings mem hdr < 2 ^ 32 - 16.
Proof.
  destruct Hb. unfold rsv, total. destruct ba_rsv_off0 as [H1 H2].
  destruct ba_struct0 as [_ H7], ba_strs0 as [_ H8]. unfold SIZEOF_FdtHeader, enc_rsv in *. rewrite length_app, length_replicate in H2. lia.
Qed.

(** The memory after the change, in terms of the one before. *)
Lemma reserve_mem : ∃ m, mem' = wr_be 8 (wr_be 8 (memcpy m (hdr + rsv + 16) (hdr + rsv) (wrap 32 (total - rsv))) (hdr + rsv) addr) (hdr + rsv + 8) len ∧
  m = wr_be 4 (wr_be 4 (wr_be 4 mem (hdr + 4) (total + 16)) (hdr + 8) (hdr_off_dt_struct mem hdr + 16)) (hdr + 12) (hdr_off_dt_strings mem hdr + 16).
Proof.
  pose proof reserve_bounds as (? & ? & ? & ? & ?). unfold add_mem_reservation, assert_then in Hdone. cbv zeta in Hdone. unfold SIZEOF_FdtReserveEntry in Hdone.
  destruct (is_aligned _ _); [|done]. injection Hdone as <-. fold rsv total. eexists. split; [done|]. rewrite (wrap_small 32 (total + 16)) by (split; lia).
  set (m1 := wr_be 4 mem (hdr + 4) (total + 16)).
  assert (Hs : hdr_off_dt_struct m1 hdr = hdr_off_dt_struct mem hdr).
  { apply be32_ext. intros i Hi. unfold m1. apply wr_be_other. lia. }
  rewrite Hs, (wrap_small 32 (hdr_off_dt_struct mem hdr + 16)) by (split; lia).
  set (m2 := wr_be 4 m1 (hdr + 8) (hdr_off_dt_struct mem hdr + 16)).
  assert (Hst : hdr_off_dt_strings m2 hdr = hdr_off_dt_strings mem hdr).
  { apply be32_ext. intros i Hi. unfold m2, m1. rewrite !wr_be_other by lia. done. }
  by rewrite Hst, (wrap_small 32 (hdr_off_dt_strings mem hdr + 16)) by (split; lia).
Qed.
Lemma reserve_moved x : hdr + rsv + 16 ≤ x < hdr + total + 16 → mem' x = mem (x - 16).
Proof.
  intros Hx. pose proof reserve_bounds as (? & ? & ? & ? & ?). destruct reserve_mem as (m & -> & ->).
  rewrite !wr_be_other by lia. unfold memcpy. rewrite wrap_small by (split; lia). rewrite bool_decide_true by lia.
  rewrite !wr_be_other by lia. f_equal. lia.
Qed.
Lemma reserve_entry : holds mem' (hdr + rsv) (be_bytes 8 addr ++ be_bytes 8 len).
Proof.
  destruct reserve_mem as (m0 & -> & _). apply holds_app. split; [|apply (wr_be_holds 8)].
  set (m := memcpy _ _ _ _).
  eapply holds_ext; [apply (wr_be_holds 8 m)|]. rewrite length_be_bytes. intros i Hi. apply wr_be_other. lia.
Qed.
Lemma reserve_header x : hdr ≤ x < hdr + 40 → mem' x =
  wr_be 4 (wr_be 4 (wr_be 4 mem (hdr + 4) (total + 16)) (hdr + 8) (hdr_off_dt_struct mem hdr + 16)) (hdr + 12) (hdr_off_dt_strings mem hdr + 16) x.
Proof.
  intros Hx. pose proof reserve_bounds as (? & ? & ? & ? & ?). destruct reserve_mem as (m & -> & ->).
  by rewrite (wr_be_other 8), (wr_be_other 8), memcpy_other by lia.
Qed.
Lemma reserve_fields :
  hdr_magic mem' hdr = hdr_magic mem hdr ∧ hdr_totalsize mem' hdr = total + 16 ∧
  hdr_off_dt_struct mem' hdr = hdr_off_dt_struct mem hdr + 16 ∧ hdr_off_dt_strings mem' hdr = hdr_off_dt_strings mem hdr + 16 ∧
  hdr_off_mem_rsvmap mem' hdr = rsv ∧ hdr_version mem' hdr = hdr_version mem hdr ∧
  hdr_last_comp_version mem' hdr = hdr_last_comp_version mem hdr ∧
  hdr_size_dt_strings mem' hdr = hdr_size_dt_strings mem hdr ∧ hdr_size_dt_struct mem' hdr = hdr_size_dt_struct mem hdr.
Proof.
  pose proof reserve_bounds as (? & ? & ? & ? & ?).
  assert (Hout : ∀ a, hdr ≤ a → a + 4 ≤ hdr + 40 → (a + 4 ≤ hdr + 4 ∨ hdr + 16 ≤ a) → be32 mem' a = be32 mem a).
  { intros a Ha1 Ha2 Ha3. apply be32_ext. intros i Hi. rewrite reserve_header by lia. by rewrite !wr_be_other by lia. }
  unfold hdr_magic, hdr_totalsize, hdr_off_dt_struct, hdr_off_dt_strings, hdr_version, hdr_last_comp_version, hdr_size_dt_strings, hdr_size_dt_struct.
  unfold hdr_off_mem_rsvmap. fold (hdr_off_dt_struct mem hdr) (hdr_off_dt_strings mem hdr). split_and!.
  all: try (apply Hout; lia).
  - rewrite <-(be32_wr_be mem (hdr + 4) (total + 16)) by (split; lia). apply be32_ext. intros i Hi. rewrite reserve_header by lia.
    by rewrite (wr_be_other 4), (wr_be_other 4) by lia.
  - rewrite <-(be32_wr_be (wr_be 4 mem (hdr + 4) (total + 16)) (hdr + 8) (hdr_off_dt_struct mem hdr + 16)) by (split; lia).
    apply be32_ext. intros i Hi. rewrite reserve_header by lia. by rewrite (wr_be_other 4) by lia.
  - rewrite <-(be32_wr_be (wr_be 4 (wr_be 4 mem (hdr + 4) (total + 16)) (hdr + 8) (hdr_off_dt_struct mem hdr + 16)) (hdr + 12) (hdr_off_dt_strings mem hdr + 16)) by (split; lia).
    apply be32_ext. intros i Hi. by rewrite reserve_header by lia.
Qed.

Lemma reserve_spec : blob_at mem' hdr (mkDtb (d_root d) ((addr, len) :: d_rsv d) (d_strs d)).
Proof.
  pose proof reserve_bounds as (? & ? & ? & ? & ?). pose proof reserve_fields as (F1 & F2 & F3 & F4 & F5 & F6 & F7 & F8 & F9). destruct Hb.
  assert (Henc : enc_rsv ((addr, len) :: d_rsv d) = (be_bytes 8 addr ++ be_bytes 8 len) ++ enc_rsv (d_rsv d)).
  { unfold enc_rsv. rewrite fmap_cons. cbn [mjoin list_join]. by rewrite <-!app_assoc. }
  destruct ba_struct0 as [Hs Hsl], ba_strs0 as [Hst Hstl], ba_hdr0 as (? & ? & ?).
  split; cbn [d_root d_rsv d_strs]; rewrite ?F1, ?F2, ?F3, ?F4, ?F5, ?F6, ?F7, ?F8, ?F9, ?Henc; try done;
    assert (Er : rsv = hdr_off_mem_rsvmap mem hdr) by done; assert (Et : total = hdr_totalsize mem hdr) by done; try lia.
  - split_and!; [done| |lia]. rewrite Z.add_assoc. by apply aligned_add.
  - rewrite !length_app, !length_be_bytes. lia.
  - apply holds_app. split; [apply reserve_entry|]. rewrite length_app, !length_be_bytes. eapply holds_ext; [exact ba_rsv0|].
    intros i Hi. rewrite reserve_moved by lia. f_equal. lia.
  - split; [|done]. eapply holds_ext; [exact Hs|]. intros i Hi. rewrite reserve_moved by lia. f_equal. lia.
  - split; [|done]. eapply holds_ext; [exact Hst|]. intros i Hi. rewrite reserve_moved by lia. f_equal. lia.
Qed.
End reserve.

(** ** Replacing the value of a property *)

(** The first property of the name, with another value. *)
Fixpoint upd_prop (nm : list Z) (f : list Z → list Z) (ps : list (Z * list Z)) : list (Z * list Z) :=
  match ps with
  | [] => []
  | q :: ps => if decide (pname q.1 = nm) then (q.1, f q.2) :: ps else q :: upd_prop nm f ps
  end.
(** The first child of the name, changed. *)
Fixpoint upd_child (nm : list Z) (f : tree → tree) (cs : list tree) : list tree :=
  match cs with
  | [] => []
  | c :: cs => if decide (Dt.name c = nm) then f c :: cs else c :: upd_child nm f cs
  end.
Definition upd_props (f : list (Z * list Z) → list (Z * list Z)) (tr : tree) : tree :=
  let 'Tree nm ps cs := tr in Tree nm (f ps) cs.
Definition upd_children (f : list tree → list tree) (tr : tree) : tree :=
  let 'Tree nm ps cs := tr in Tree nm ps (f cs).
(** A number in as many bytes as the old value has. *)
Definition num_bytes (x : Z) (v : list Z) : list Z := be_bytes (length v) (x mod 2 ^ (8 * Z.of_nat (length v))).

(** Where the value of the first property of the name begins, after the first property
    of the node: its header is three words. *)
Fixpoint prop_offset (nm : list Z) (ps : list (Z * list Z)) : Z :=
  match ps with
  | [] => 0
  | q :: ps => if decide (pname q.1 = nm) then 12 else Z.of_nat (length (enc_prop q)) + prop_offset nm ps
  end.
(** Where the properties of the first child of the name begin, after the first child. *)
Fixpoint child_offset (nm : list Z) (cs : list tree) : Z :=
  match cs with
  | [] => 0
  | c :: cs => if decide (Dt.name c = nm) then Z.of_nat (length (word 1 ++ pad4 (asciz nm)))
               else Z.of_nat (length (enc c)) + child_offset nm cs
  end.

Lemma get_prop_split nm ps v :
  get_prop pname nm ps = Some v →
  ∃ ps1 q ps2, ps = ps1 ++ q :: ps2 ∧ pname q.1 = nm ∧ q.2 = v ∧ Forall (λ q, pname q.1 ≠ nm) ps1 ∧
    (∀ f, upd_prop nm f ps = ps1 ++ (q.1, f v) :: ps2) ∧ prop_offset nm ps = Z.of_nat (length (enc_props ps1)) + 12.
Proof.
  induction ps as [|q ps IH]; cbn [get_prop]; [done|]. case_decide as Hq.
  - intros [= <-]. exists [], q, ps. split_and!; [done..|by apply Forall_nil| |]; [intros f|]; cbn; by rewrite decide_True.
  - intros (ps1 & q' & ps2 & -> & ? & ? & Hne & Hu & Ho)%IH. exists (q :: ps1), q', ps2. split_and!; [done..|by constructor| |].
    + intros f. cbn. rewrite decide_False by done. by rewrite Hu.
    + cbn [app prop_offset]. rewrite decide_False by done. rewrite Ho, enc_props_cons, length_app. lia.
Qed.
Lemma get_child_split' nm cs c sibs :
  get_child nm cs = Some (c, sibs) →
  ∃ cs1, cs = cs1 ++ c :: sibs ∧ Dt.name c = nm ∧ Forall (λ c, Dt.name c ≠ nm) cs1 ∧ (∀ f, upd_child nm f cs = cs1 ++ f c :: sibs) ∧
    child_offset nm cs = Z.of_nat (length (enc_nodes cs1 ++ word 1 ++ pad4 (asciz nm))).
Proof.
  induction cs as [|c' cs IH]; cbn [get_child]; [done|]. case_decide as Hc.
  - intros [= -> ->]. exists []. split_and!; [done..|by apply Forall_nil| |]; [intros f|]; cbn [upd_child child_offset]; by rewrite decide_True.
  - intros (cs1 & -> & ? & Hne & Hu & Ho)%IH. exists (c' :: cs1). split_and!; [done..|by constructor| |].
    + intros f. cbn. rewrite decide_False by done. by rewrite Hu.
    + cbn [app child_offset]. rewrite decide_False by done. rewrite Ho, enc_nodes_cons, <-app_assoc, (length_app (enc c')). lia.
Qed.

(** The same bytes with another value in the middle. *)
Lemma holds_splice mem mem' a l v v' r :
  holds mem a (l ++ v ++ r) → length v' = length v → holds mem' (a + Z.of_nat (length l)) v' →
  (∀ x, ¬ a + Z.of_nat (length l) ≤ x < a + Z.of_nat (length l) + Z.of_nat (length v) → mem' x = mem x) →
  holds mem' a (l ++ v' ++ r).
Proof.
  intros H Hl Hv Ho. rewrite !holds_app in *. destruct H as (H1 & H2 & H3). split_and!; [|done|].
  - eapply holds_ext; [exact H1|]. intros i Hi. apply Ho. lia.
  - rewrite Hl. eapply holds_ext; [exact H3|]. intros i Hi. apply Ho. lia.
Qed.

Lemma enc_props_app ps1 ps2 : enc_props (ps1 ++ ps2) = enc_props ps1 ++ enc_props ps2.
Proof. unfold enc_props. by rewrite fmap_app, join_app. Qed.
Lemma enc_nodes_app cs1 cs2 : enc_nodes (cs1 ++ cs2) = enc_nodes cs1 ++ enc_nodes cs2.
Proof. unfold enc_nodes. by rewrite fmap_app, join_app. Qed.
Lemma pad4_id v : length v = 4%nat ∨ length v = 8%nat → pad4 v = v.
Proof. intros Hv. unfold pad4. destruct Hv as [-> | ->]; cbn; by rewrite app_nil_r. Qed.

Lemma names_in_eq strs n ps cs : names_in strs (Tree n ps cs) ↔ Forall (name_in strs) ps ∧ Forall (names_in strs) cs.
Proof.
  cbn [names_in]. assert (foldr (λ c P, names_in strs c ∧ P) True cs ↔ Forall (names_in strs) cs) as ->; [|done].
  induction cs as [|c cs IH]; cbn; [by split|]. by rewrite IH, Forall_cons.
Qed.

(** A blob in which the bytes of the tree changed in one place. *)
Lemma blob_splice mem mem' hdr d root' l v v' r :
  blob_at mem hdr d → tree_ok root' → names_in (d_strs d) root' →
  enc (d_root d) ++ word 9 = l ++ v ++ r → enc root' ++ word 9 = l ++ v' ++ r → length v' = length v →
  let a := hdr + hdr_off_dt_struct mem hdr + Z.of_nat (length l) in
  holds mem' a v' → (∀ x, ¬ a ≤ x < a + Z.of_nat (length v) → mem' x = mem x) →
  blob_at mem' hdr (mkDtb root' (d_rsv d) (d_strs d)) ∧ ∀ o, 0 ≤ o ≤ 36 → be32 mem' (hdr + o) = be32 mem (hdr + o).
Proof.
  intros [] Hok Hnm Henc Henc' Hlen a Hv Ho. destruct ba_hdr0 as (? & ? & ?), ba_rsv_off0, ba_struct0 as [Hs Hsl], ba_strs0 as [Hst Hstl].
  assert (Hl : Z.of_nat (length l) + Z.of_nat (length v) ≤ hdr_size_dt_struct mem hdr) by (rewrite Hsl, Henc, !length_app; lia).
  assert (Hf : ∀ o, 0 ≤ o ≤ 36 → be32 mem' (hdr + o) = be32 mem (hdr + o)).
  { intros o Hr. apply be32_ext. intros i Hi. apply Ho. unfold a, SIZEOF_FdtHeader in *. lia. }
  assert (F0 : hdr_magic mem' hdr = hdr_magic mem hdr). { unfold hdr_magic. rewrite <-(Z.add_0_r hdr). by apply Hf. }
  assert (hdr_off_mem_rsvmap mem' hdr = hdr_off_mem_rsvmap mem hdr) as F1 by (by apply Hf).
  assert (hdr_off_dt_struct mem' hdr = hdr_off_dt_struct mem hdr) as F2 by (by apply Hf).
  assert (hdr_off_dt_strings mem' hdr = hdr_off_dt_strings mem hdr) as F3 by (by apply Hf).
  assert (hdr_size_dt_struct mem' hdr = hdr_size_dt_struct mem hdr) as F4 by (by apply Hf).
  assert (hdr_size_dt_strings mem' hdr = hdr_size_dt_strings mem hdr) as F5 by (by apply Hf).
  assert (hdr_totalsize mem' hdr = hdr_totalsize mem hdr) as F6 by (by apply Hf).
  assert (hdr_version mem' hdr = hdr_version mem hdr) as F7 by (by apply Hf).
  assert (hdr_last_comp_version mem' hdr = hdr_last_comp_version mem hdr) as F8 by (by apply Hf).
  split; [|done]. split; cbn [d_root d_rsv d_strs]; rewrite ?F0, ?F1, ?F2, ?F3, ?F4, ?F5, ?F6, ?F7, ?F8; try done.
  - eapply holds_ext; [exact ba_rsv0|]. intros i Hi. apply Ho. unfold a. lia.
  - rewrite Henc', Hsl, Henc, !length_app, Hlen. split; [|done]. rewrite Henc in Hs. by eapply holds_splice.
  - split; [|done]. eapply holds_ext; [exact Hst|]. intros i Hi. apply Ho. unfold a. lia.
Qed.

(** The bytes up to the properties of a child of the root, and what follows it. *)
Definition lead (nm : list Z) (ps : list (Z * list Z)) (cs1 : list tree) (cnm : list Z) : list Z :=
  word 1 ++ pad4 (asciz nm) ++ enc_props ps ++ enc_nodes cs1 ++ word 1 ++ pad4 (asciz cnm).
Definition trail (sibs : list tree) : list Z := enc_nodes sibs ++ word 2 ++ word 9.
Lemma enc_child nm ps cs1 c sibs :
  enc (Tree nm ps (cs1 ++ c :: sibs)) ++ word 9 = lead nm ps cs1 (name c) ++ body c ++ trail sibs.
Proof.
  rewrite enc_eq. unfold body at 1. cbn [name props children]. rewrite enc_nodes_app, enc_nodes_cons, (enc_eq c). unfold lead, trail. by rewrite <-!app_assoc.
Qed.
(** The cursor at the child. *)
Definition child_node (mem : Mem) (hdr : Z) (nm : list Z) (ps : list (Z * list Z)) (cs1 : list tree) (c : tree) (sibs : list tree) (n : FdtNode) : Prop :=
  nd_strs n = mkSlice (hdr + hdr_off_dt_strings mem hdr) (hdr_size_dt_strings mem hdr) ∧
  nd_data n = mkSlice (hdr + hdr_off_dt_struct mem hdr + Z.of_nat (length (lead nm ps cs1 (name c))))
                (Z.of_nat (length (body c ++ trail sibs))).
Lemma words_lead nm ps cs1 cnm : words (lead nm ps cs1 cnm).
Proof. unfold lead. auto 10 with hfo2. Qed.

Lemma child_cursor_at mem hdr d nm ps cs1 c sibs n :
  blob_at mem hdr d → d_root d = Tree nm ps (cs1 ++ c :: sibs) → child_node mem hdr nm ps cs1 c sibs n →
  node_at mem pname n (props c) (children c) FdtToken.EndNode (trail sibs).
Proof.
  intros Hb Hr [Hst Hd]. destruct (blob_dtb _ _ _ Hb) as (_ & _ & Hat & Hok). rewrite Hr in Hat, Hok.
  apply node_ok_eq in Hok as (_ & _ & Hok). apply Forall_app in Hok as [_ Hok]. apply Forall_cons in Hok as [Hc _].
  eapply (node_ok_strs _ _ _ (tok_new n)) in Hc; [|cbn; exact Hst]. destruct c as [cnm cps ccs]. apply node_ok_eq in Hc as (_ & ? & ?). cbn [props children].
  split_and!; try done. rewrite Hd. rewrite enc_child in Hat. unfold body in *. cbn [props children name] in *.
  destruct Hat as (Hh & Hl & Ha & Hp & Hb64). cbn [s_ptr s_len] in *. rewrite <-!app_assoc in *. apply holds_app in Hh as [_ Hh].
  rewrite length_app in Hl. split_and!; cbn [s_ptr s_len]; try done; try lia. apply aligned_add; [done|apply words_lead].
Qed.

(** [write_number] on a property of a child of the root. *)
Section write.
Context (mem : Mem) (hdr : Z) (d : dtb) (nm : list Z) (ps : list (Z * list Z)) (cs1 sibs : list tree) (c : tree) (n : FdtNode).
Context (Hmem : mem_ok mem) (Hb : blob_at mem hdr d) (Hroot : d_root d = Tree nm ps (cs1 ++ c :: sibs)).
Context (Hn : child_node mem hdr nm ps cs1 c sibs n).
Context (pn v : list Z) (x : Z).
Context (Hpn : no_nul pn) (Hv : get_prop pname pn (props c) = Some v) (Hlen : length v = 4%nat ∨ length v = 8%nat).
Let c' := upd_props (upd_prop pn (num_bytes x)) c.
Let root' := Tree nm ps (cs1 ++ c' :: sibs).

Lemma write_wf : tree_ok root' ∧ names_in (d_strs d) root'.
Proof.
  destruct Hb as [_ _ Hok Hnm _ _ _ _ _ _ _ _]. rewrite Hroot in Hok, Hnm. unfold root', c'. destruct c as [cnm cps ccs]. cbn [upd_props props] in *.
  destruct (get_prop_split _ _ _ Hv) as (ps1 & q & ps2 & -> & _ & Hq & _ & -> & _).
  rewrite !tree_ok_eq, !Forall_app, !Forall_cons, !tree_ok_eq, !Forall_app, !Forall_cons in *.
  rewrite !names_in_eq, !Forall_app, !Forall_cons, !names_in_eq, !Forall_app, !Forall_cons in *.
  unfold prop_ok, name_in in *. cbn [fst snd] in *. subst v. unfold num_bytes. rewrite length_be_bytes. tauto.
Qed.

(** The address of the value. *)
Definition write_addr : Z := hdr + hdr_off_dt_struct mem hdr + Z.of_nat (length (lead nm ps cs1 (name c))) + prop_offset pn (props c).
Definition write_done : Prop :=
  ∃ mem', write_number mem n (asciz pn) x = Done (Ok tt, mem') ∧ blob_at mem' hdr (mkDtb root' (d_rsv d) (d_strs d)) ∧
    child_node mem' hdr nm ps cs1 c' sibs n ∧ mem_ok mem' ∧ hdr_totalsize mem' hdr = hdr_totalsize mem hdr ∧
    hdr_off_dt_struct mem' hdr = hdr_off_dt_struct mem hdr ∧ ∀ a, ¬ hdr ≤ a < hdr + hdr_totalsize mem hdr → mem' a = mem a.
(** The store faults exactly when the address is not a multiple of the value's width. *)
Lemma write_number_spec :
  if is_aligned write_addr (Z.of_nat (length v)) then write_done else write_number mem n (asciz pn) x = Panic.
Proof.
  destruct write_wf as [Hok' Hnm']. pose proof (child_cursor_at _ _ _ _ _ _ _ _ _ Hb Hroot Hn) as Hat.
  assert (Hmem' : ∀ r mem', write_number mem n (asciz pn) x = Done (r, mem') → mem_ok mem') by (intros r mem'; by apply write_number_mem).
  destruct (get_prop_split _ _ _ Hv) as (ps1 & q & ps2 & Hps & Hq & Hqv & Hne & Hupd & Hoff). rewrite Hps in Hat.
  destruct (read_property_pos mem Hmem pname n ps1 q ps2 _ _ _ pn Hat Hpn Hq Hne) as (b & Hr & (Hbv & Hbl & _) & Hpos).
  set (v' := num_bytes x v). assert (Hv' : length v' = length v) by apply length_be_bytes.
  assert (Haddr : s_ptr b = write_addr).
  { rewrite Hpos. destruct Hn as [_ ->]. cbn [s_ptr]. unfold write_addr. lia. }
  destruct (is_aligned write_addr (Z.of_nat (length v))) eqn:Hal.
  2: { unfold write_number. rewrite Hr. cbn [mbind exec_bind]. rewrite Hbl, Hqv, Haddr.
    destruct Hlen as [Hl8|Hl8]; rewrite Hl8 in Hal |- *; [change (Z.of_nat 4) with 4 in * | change (Z.of_nat 8) with 8 in *]; by rewrite Hal. }
  assert (∃ mem', write_number mem n (asciz pn) x = Done (Ok tt, mem') ∧ holds mem' (s_ptr b) v' ∧
      ∀ a, ¬ s_ptr b ≤ a < s_ptr b + Z.of_nat (length v) → mem' a = mem a) as (mem' & Hw & Hh & Ho).
  { unfold write_number. rewrite Hr. cbn [mbind exec_bind]. rewrite Hbl, Hqv, Haddr. subst v'. unfold num_bytes.
    destruct Hlen as [Hl8|Hl8]; rewrite Hl8 in Hal |- *; [change (Z.of_nat 4) with 4 in * | change (Z.of_nat 8) with 8 in *];
      rewrite Hal; eexists; (split; [done|]).
    - split; [apply (wr_be_holds 4)|]. intros a Ha. apply wr_be_other. lia.
    - split; [|intros a Ha; apply wr_be_other; lia]. rewrite be_bytes_mod. apply (wr_be_holds 8). }
  set (l := lead nm ps cs1 (name c) ++ enc_props ps1 ++ word 3 ++ word (Z.of_nat (length v)) ++ word q.1).
  set (r := enc_props ps2 ++ enc_nodes (children c) ++ word 2 ++ trail sibs).
  assert (Henc : ∀ w, length w = length v → enc (Tree nm ps (cs1 ++ Tree (name c) (ps1 ++ (q.1, w) :: ps2) (children c) :: sibs)) ++ word 9 = l ++ w ++ r).
  { intros w Hw'. rewrite enc_child. unfold body. cbn [name props children]. rewrite enc_props_app, enc_props_cons. unfold enc_prop. cbn [fst snd].
    rewrite pad4_id by (by rewrite Hw'). unfold l, r. rewrite Hw'. by rewrite <-!app_assoc. }
  assert (Hc : c = Tree (name c) (ps1 ++ (q.1, v) :: ps2) (children c)).
  { rewrite <-Hqv, <-surjective_pairing, <-Hps. by destruct c. }
  assert (Hc' : c' = Tree (name c) (ps1 ++ (q.1, v') :: ps2) (children c)).
  { unfold c', v'. rewrite <-(Hupd (num_bytes x)). by destruct c. }
  assert (Ha : s_ptr b = hdr + hdr_off_dt_struct mem hdr + Z.of_nat (length l)).
  { rewrite Hpos. destruct Hn as [_ ->]. cbn [s_ptr]. unfold l. rewrite !length_app, !length_word. lia. }
  rewrite Ha in *.
  assert (Henc' : enc root' ++ word 9 = l ++ v' ++ r) by (unfold root'; rewrite Hc'; by apply Henc).
  assert (Henc0 : enc (d_root d) ++ word 9 = l ++ v ++ r) by (rewrite Hroot, Hc; by apply Henc).
  destruct (blob_splice mem mem' hdr d root' l v v' r) as [Hb' Hf]; try done.
  exists mem'. split_and!; [done..| | |by apply Hf|by apply Hf|].
  - destruct Hn as [Hn1 Hn2]. split.
    + rewrite Hn1. f_equal; [f_equal|]; symmetry; by apply Hf.
    + rewrite Hn2. unfold body. rewrite Hc', Hc. cbn [name props children]. rewrite !enc_props_app, !enc_props_cons. unfold enc_prop. cbn [fst snd].
      rewrite !length_app, !pad4_id, Hv' by (by rewrite ?Hv'). f_equal. do 2 f_equal. symmetry. by apply Hf.
  - by eapply Hmem'.
  - destruct Hb. destruct ba_rsv_off0, ba_hdr0, ba_struct0 as [_ Hsl], ba_strs0 as [_ Hstl]. unfold SIZEOF_FdtHeader in *.
    rewrite Henc0, !length_app in Hsl. intros a Hout. apply Ho. lia.
Qed.
End write.
End blob.
Import Hspec.

(** ** The whole patch *)

(** The entries [patch] adds, in their order. *)
Definition entry (b e : paddr_t) : Z * Z := (pa_addr b, pa_difference b e).
Definition range_entry (r : MemRange) : Z * Z := entry (r_begin r) (r_end r).
Definition layout_entries (lay : Layout) : list (Z * Z) :=
  [entry (layout_text_begin lay) (layout_text_end lay); entry (layout_rodata_begin lay) (layout_rodata_end lay);
   entry (layout_data_begin lay) (layout_data_end lay)].
Definition range_entries (p : BootParamsUpdate) : list (Z * Z) :=
  range_entry <$> take (Z.to_nat (reserved_ranges_count p)) (reserved_ranges p).
Definition add_entries (es : list (Z * Z)) (d : dtb) : dtb := mkDtb (d_root d) (rev es ++ d_rsv d) (d_strs d).

(** The blob after the entries: a longer one, and nothing else changed. *)
Definition extended (pname : Z → list Z) (mem mem' : Mem) (hdr : Z) (d' : dtb) (n : Z) : Prop :=
  mem_ok mem' ∧ blob_at pname mem' hdr d' ∧ hdr_totalsize mem' hdr = hdr_totalsize mem hdr + n ∧
  ∀ a, ¬ hdr ≤ a < hdr + hdr_totalsize mem hdr + n → mem' a = mem a.
Definition room (mem : Mem) (hdr n : Z) : Prop := hdr_totalsize mem hdr + n < 2 ^ 32 ∧ hdr + hdr_totalsize mem hdr + n < 2 ^ 64.

Section patch.
Context (pname : Z → list Z).

Lemma extended_trans mem1 mem2 mem3 hdr d2 d3 n m :
  0 ≤ m → extended pname mem1 mem2 hdr d2 n → extended pname mem2 mem3 hdr d3 m → extended pname mem1 mem3 hdr d3 (n + m).
Proof.
  intros Hm (_ & _ & Ht1 & Hf1) (Hok & Hb & Ht2 & Hf2). split_and!; [done..|lia|]. intros a Ha. rewrite Hf2, Hf1; [done|lia|lia].
Qed.
Lemma reserve_one mem hdr b e d :
  mem_ok mem → blob_at pname mem hdr d → room mem hdr 16 →
  ∃ mem', add_mem_reservation mem hdr (pa_addr b) (pa_difference b e) = Done mem' ∧ extended pname mem mem' hdr (add_entries [entry b e] d) 16.
Proof.
  intros Hm Hb [H32 H64].
  assert (∃ mem', add_mem_reservation mem hdr (pa_addr b) (pa_difference b e) = Done mem') as [mem' Hd].
  { eexists. unfold add_mem_reservation. cbv zeta. pose proof (proj2 (is_aligned_spec _ 3 ltac:(lia)) (ba_rsv_aligned _ _ _ _ Hb)) as Ha. change (2 ^ 3) with 8 in Ha. by rewrite Ha. }
  exists mem'. split; [done|]. split_and!; [by eapply mem_ok_reservation|by eapply reserve_spec|by eapply reserve_fields|].
  intros a Ha. pose proof (reserve_bounds pname mem hdr d Hb H32) as (? & ? & ? & ? & ?).
  destruct (reserve_mem pname mem hdr _ _ d Hb H32 _ Hd) as (m & -> & ->).
  rewrite !(wr_be_other 8) by lia. rewrite memcpy_other by (rewrite wrap_small by (split; lia); lia). by rewrite !wr_be_other by lia.
Qed.

Lemma reserve_ranges_spec mem hdr d l n i :
  mem_ok mem → blob_at pname mem hdr d → 0 ≤ i → (Z.to_nat i + n ≤ length l)%nat → room mem hdr (16 * Z.of_nat n) →
  ∃ mem', reserve_ranges mem hdr l n i = Done mem' ∧
    extended pname mem mem' hdr (add_entries (range_entry <$> take n (drop (Z.to_nat i) l)) d) (16 * Z.of_nat n).
Proof.
  revert mem d i. induction n as [|n IH]; intros mem d i Hm Hb Hi Hl [H32 H64]; cbn [reserve_ranges].
  { exists mem. split; [done|]. split_and!; [done|by destruct d|lia|done]. }
  destruct (l !! Z.to_nat i) as [r|] eqn:Hr; [|apply lookup_ge_None in Hr; lia]. cbn [unwrap_opt mbind exec_bind].
  destruct (reserve_one mem hdr (r_begin r) (r_end r) d Hm Hb ltac:(split; lia)) as (mem1 & Hd1 & H1). pose proof H1 as (Hm1 & Hb1 & Ht1 & _).
  destruct (IH _ _ (i + 1) Hm1 Hb1) as (mem' & Hmem' & Hx); [lia|lia|split; rewrite Ht1; lia|]. exists mem'.
  unfold pa_difference in Hd1. rewrite Hd1. cbn [mbind exec_bind]. split; [done|].
  rewrite (drop_S _ _ _ Hr). cbn [take]. replace (16 * Z.of_nat (S n)) with (16 + 16 * Z.of_nat n) by lia.
  eapply extended_trans; [lia|exact H1|]. revert Hx. unfold add_entries. cbn [d_root d_rsv d_strs rev app fmap list_fmap].
  replace (Z.to_nat (i + 1)) with (S (Z.to_nat i)) by lia. by rewrite <-!app_assoc.
Qed.
Lemma reserve_layout_spec mem hdr lay d :
  mem_ok mem → blob_at pname mem hdr d → room mem hdr 48 →
  ∃ mem', reserve_layout mem hdr lay = Done mem' ∧ extended pname mem mem' hdr (add_entries (layout_entries lay) d) 48.
Proof.
  intros Hm Hb [H32 H64]. unfold reserve_layout.
  destruct (reserve_one mem hdr (layout_text_begin lay) (layout_text_end lay) d Hm Hb ltac:(split; lia)) as (mem1 & -> & H1).
  pose proof H1 as (Hm1 & Hb1 & Ht1 & _). cbn [mbind exec_bind].
  destruct (reserve_one _ hdr (layout_rodata_begin lay) (layout_rodata_end lay) _ Hm1 Hb1 ltac:(split; lia)) as (mem2 & -> & H2).
  pose proof H2 as (Hm2 & Hb2 & Ht2 & _). cbn [mbind exec_bind].
  destruct (reserve_one _ hdr (layout_data_begin lay) (layout_data_end lay) _ Hm2 Hb2 ltac:(split; lia)) as (mem3 & -> & H3).
  exists mem3. split; [done|].
  eapply (extended_trans _ _ _ _ _ _ 16 32); [lia|exact H1|]. eapply (extended_trans _ _ _ _ _ _ 16 16); [lia|exact H2|exact H3].
Qed.

(** The ramdisk of the update, in the node [chosen]. *)
Definition set_initrd (p : BootParamsUpdate) (c : tree) : tree :=
  upd_props (upd_prop pname S_initrd_end (num_bytes (pa_addr (upd_initrd_end p))))
    (upd_props (upd_prop pname S_initrd_start (num_bytes (pa_addr (upd_initrd_begin p)))) c).
Definition patched (lay : Layout) (p : BootParamsUpdate) (d : dtb) : dtb :=
  add_entries (layout_entries lay ++ range_entries p)
    (mkDtb (upd_children (upd_child S_chosen (set_initrd p)) (d_root d)) (d_rsv d) (d_strs d)).

Lemma get_prop_upd_ne nm nm' f ps : nm ≠ nm' → get_prop pname nm (upd_prop pname nm' f ps) = get_prop pname nm ps.
Proof.
  intros Hne. induction ps as [|q ps IH]; [done|]. cbn [upd_prop]. case_decide as Hq; cbn [get_prop fst snd].
  - rewrite !decide_False; [done|congruence..].
  - by rewrite IH.
Qed.
Lemma get_prop_upd nm f ps v : get_prop pname nm ps = Some v → get_prop pname nm (upd_prop pname nm f ps) = Some (f v).
Proof.
  induction ps as [|q ps IH]; [done|]. cbn [get_prop upd_prop]. case_decide as Hq; cbn [get_prop fst snd].
  - intros [= <-]. by rewrite decide_True.
  - intros Hv. rewrite decide_False by done. auto.
Qed.
(** A value of the same length leaves every property where it is. *)
Lemma pad4_same_length l l' : length l = length l' → length (pad4 l) = length (pad4 l').
Proof. intros H. unfold pad4. by rewrite !length_app, !length_replicate, H. Qed.
Lemma prop_offset_upd nm nm' f ps : (∀ v, length (f v) = length v) → prop_offset pname nm (upd_prop pname nm' f ps) = prop_offset pname nm ps.
Proof.
  intros Hf. induction ps as [|q ps IH]; [done|]. cbn [upd_prop]. case_decide as Hq; cbn [prop_offset fst snd]; [|by rewrite IH].
  case_decide; [done|]. f_equal. unfold enc_prop. cbn [fst snd]. by rewrite !length_app, !length_word, (pad4_same_length (f q.2) q.2).
Qed.
Lemma props_upd f c : props (upd_props f c) = f (props c).
Proof. by destruct c. Qed.
Lemma name_upd f c : name (upd_props f c) = name c.
Proof. by destruct c. Qed.
Lemma be_value_bytes n v : be_value (be_bytes n v) = v mod 2 ^ (8 * Z.of_nat n).
Proof.
  assert (∀ a, foldl (λ a b, a * 2 ^ 8 + b) a (be_bytes n v) = a * 2 ^ (8 * Z.of_nat n) + v mod 2 ^ (8 * Z.of_nat n)) as H; [|by apply H].
  induction n as [|n IH]; intros a; cbn [be_bytes foldl]; [cbn; rewrite Z.mod_1_r; lia|]. rewrite IH. unfold le_byte.
  replace (8 * Z.of_nat (S n)) with (8 * Z.of_nat n + 8) by lia. rewrite Z.pow_add_r by lia.
  rewrite (Z.rem_mul_r v (2 ^ (8 * Z.of_nat n)) (2 ^ 8)) by lia. lia.
Qed.
Lemma number_num_bytes x v : length v = 4%nat ∨ length v = 8%nat → number (num_bytes x v) = Some (x mod 2 ^ (8 * Z.of_nat (length v))).
Proof.
  intros Hv. unfold number, num_bytes. rewrite length_be_bytes, decide_True by done. by rewrite be_value_bytes, Z.mod_mod by lia.
Qed.
Lemma start_ne_end : S_initrd_end ≠ S_initrd_start.
Proof. done. Qed.

(** Finding the node [chosen]. *)
Lemma find_chosen mem hdr d nm ps cs c sibs node :
  mem_ok mem → blob_at pname mem hdr d → d_root d = Tree [] ps cs → get_child nm cs = Some (c, sibs) → no_nul nm → new_root mem hdr = Some node →
  ∃ n n' cs1, find_child mem node (asciz []) = Done (true, n) ∧ find_child mem n (asciz nm) = Done (true, n') ∧
    cs = cs1 ++ c :: sibs ∧ name c = nm ∧ (∀ f, upd_child nm f cs = cs1 ++ f c :: sibs) ∧ child_node mem hdr [] ps cs1 c sibs n' ∧
    child_offset nm cs = Z.of_nat (length (enc_nodes cs1 ++ word 1 ++ pad4 (asciz nm))).
Proof.
  intros Hm Hb Hr Hg Hnm Hnew. pose proof (blob_dtb _ _ _ _ Hb) as Hd. destruct (new_root_at mem pname hdr _ Hd) as (node' & Hn' & _ & Hat).
  rewrite Hnew in Hn'. injection Hn' as <-. rewrite Hr in Hat.
  assert (Hdata : nd_data node = mkSlice (hdr + hdr_off_dt_struct mem hdr) (hdr_size_dt_struct mem hdr) ∧
    nd_strs node = mkSlice (hdr + hdr_off_dt_strings mem hdr) (hdr_size_dt_strings mem hdr)).
  { revert Hnew. unfold new_root. destruct (negb _); [done|]. cbv zeta. destruct (_ || _); [done|]. by intros [= <-]. }
  pose proof (find_child_at mem Hm pname node _ _ _ _ [] Hat (Forall_nil_2 _)) as Hf. cbn [get_child name] in Hf. rewrite decide_True in Hf by done.
  destruct Hf as (d1 & Hf1 & Hd1 & He1).
  destruct (cursor_node mem pname _ _ _ (node_cursor mem pname node [] [] _ [] _ _ d1 Hat Hd1)) as (k & Hat1). cbn [props children] in Hat1.
  assert (Hk : k = word 9).
  { destruct Hat1 as ((Hh & Hl & _) & _), Hd1 as (Hh' & Hl' & _). cbn [nd_data set_data] in *. unfold holds in *. rewrite <-Hl in Hh. rewrite <-Hl', Hh in Hh'.
    unfold body in Hh'. cbn [props children] in Hh'. rewrite <-!app_assoc in Hh'. do 3 apply app_inv_head in Hh'. exact Hh'. }
  subst k. pose proof (find_child_at mem Hm pname _ _ _ _ _ nm Hat1 Hnm) as Hf. rewrite Hg in Hf. destruct Hf as (d2 & Hf2 & Hd2 & He2).
  destruct (get_child_split' _ _ _ _ Hg) as (cs1 & -> & Hcn & _ & Hupd & Hoff). do 3 eexists. split_and!; try done. split; [apply Hdata|].
  cbn [nd_data set_data] in *. destruct Hdata as [Hdata _]. rewrite Hdata in He1. cbn [s_ptr s_len] in He1.
  destruct Hd2 as (_ & Hl2 & _). destruct d2 as [p2 l2]. cbn [s_ptr s_len] in *.
  destruct Hb as [_ _ _ _ _ _ _ _ _ [_ Hsl] _ _]. rewrite Hr, enc_child, length_app in Hsl.
  unfold trail. change (word 2) with (word (code_of FdtToken.EndNode)) in *. f_equal; [|exact Hl2]. 
  rewrite Hl2 in He2. unfold trail in Hsl. change (word 2) with (word (code_of FdtToken.EndNode)) in Hsl. lia.
Qed.

(** Both writes. *)
Lemma set_initrd_spec mem hdr d ps cs1 c sibs n p v1 v2 :
  mem_ok mem → blob_at pname mem hdr d → d_root d = Tree [] ps (cs1 ++ c :: sibs) → child_node mem hdr [] ps cs1 c sibs n →
  get_prop pname S_initrd_start (props c) = Some v1 → length v1 = 4%nat ∨ length v1 = 8%nat →
  get_prop pname S_initrd_end (props c) = Some v2 → length v2 = 4%nat ∨ length v2 = 8%nat →
  let w1 := write_number mem n (asciz S_initrd_start) (pa_addr (upd_initrd_begin p)) in
  let w2 mem1 := write_number mem1 n (asciz S_initrd_end) (pa_addr (upd_initrd_end p)) in
  if is_aligned (write_addr pname mem hdr [] ps cs1 c S_initrd_start) (Z.of_nat (length v1)) &&
     is_aligned (write_addr pname mem hdr [] ps cs1 c S_initrd_end) (Z.of_nat (length v2))
  then ∃ mem1 mem2, w1 = Done (Ok tt, mem1) ∧ w2 mem1 = Done (Ok tt, mem2) ∧
    extended pname mem mem2 hdr (mkDtb (Tree [] ps (cs1 ++ set_initrd p c :: sibs)) (d_rsv d) (d_strs d)) 0
  else w1 = Panic ∨ ∃ mem1, w1 = Done (Ok tt, mem1) ∧ w2 mem1 = Panic.
Proof.
  intros Hm Hb Hr Hn Hv1 Hl1 Hv2 Hl2 w1 w2. subst w1 w2. cbn beta.
  pose proof (write_number_spec pname mem hdr d [] ps cs1 sibs c n Hm Hb Hr Hn S_initrd_start v1 (pa_addr (upd_initrd_begin p)) initrd_start_no_nul Hv1 Hl1) as Hw1.
  destruct (is_aligned (write_addr _ _ _ _ _ _ _ S_initrd_start) _); cbn [andb]; [|by left].
  destruct Hw1 as (mem1 & Hw1 & Hb1 & Hn1 & Hm1 & Ht1 & Ho1 & Hf1). set (c1 := upd_props _ c) in *.
  assert (Hv2' : get_prop pname S_initrd_end (props c1) = Some v2) by (unfold c1; rewrite props_upd, get_prop_upd_ne by apply start_ne_end; done).
  pose proof (write_number_spec pname mem1 hdr _ [] ps cs1 sibs c1 n Hm1 Hb1 eq_refl Hn1 S_initrd_end v2 (pa_addr (upd_initrd_end p)) initrd_end_no_nul Hv2' Hl2) as Hw2.
  assert (write_addr pname mem1 hdr [] ps cs1 c1 S_initrd_end = write_addr pname mem hdr [] ps cs1 c S_initrd_end) as Ha.
  { unfold write_addr, c1. rewrite Ho1, name_upd, props_upd, prop_offset_upd; [done|]. intros v. apply length_be_bytes. }
  rewrite Ha in Hw2. destruct (is_aligned (write_addr _ _ _ _ _ _ _ S_initrd_end) _); [|by eauto].
  destruct Hw2 as (mem2 & Hw2 & Hb2 & Hn2 & Hm2 & Ht2 & _ & Hf2).
  exists mem1, mem2. split_and!; [done..|]. split_and!; [done|exact Hb2|lia|]. intros a Ha'. rewrite Hf2, Hf1; [done|lia|lia].
Qed.
(** The address of the value of a property of the node [chosen]. *)
Definition chosen_value (mem : Mem) (hdr : Z) (d : dtb) (c : tree) (nm : list Z) : Z :=
  hdr + hdr_off_dt_struct mem hdr + Z.of_nat (length (word 1 ++ pad4 (asciz (name (d_root d))) ++ enc_props (props (d_root d)))) +
  child_offset S_chosen (children (d_root d)) + prop_offset pname nm (props c).

(** The ramdisk the patched tree names. *)
Lemma initrd_patched lay p d c sibs v1 v2 :
  get_child S_chosen (children (d_root d)) = Some (c, sibs) →
  get_prop pname S_initrd_start (props c) = Some v1 → length v1 = 4%nat ∨ length v1 = 8%nat →
  get_prop pname S_initrd_end (props c) = Some v2 → length v2 = 4%nat ∨ length v2 = 8%nat →
  initrd pname (d_root (patched lay p d)) =
    Some (pa_init (pa_addr (upd_initrd_begin p) mod 2 ^ (8 * Z.of_nat (length v1))), pa_init (pa_addr (upd_initrd_end p) mod 2 ^ (8 * Z.of_nat (length v2)))).
Proof.
  intros Hg Hv1 Hl1 Hv2 Hl2. unfold initrd, patched, add_entries. cbn [d_root]. destruct (d_root d) as [nm ps cs]. cbn [upd_children children] in *.
  assert (∀ cs, get_child S_chosen cs = Some (c, sibs) → get_child S_chosen (upd_child S_chosen (set_initrd p) cs) = Some (set_initrd p c, sibs)) as Hc.
  { clear. induction cs as [|c' cs IH]; [done|]. cbn [get_child upd_child]. case_decide as Hn.
    - intros [= -> ->]. cbn [get_child]. rewrite decide_True; [done|]. unfold set_initrd. by rewrite !name_upd.
    - intros H. cbn [get_child]. rewrite decide_False by done. auto. }
  rewrite (Hc _ Hg). cbn [mbind option_bind]. unfold prop_number, set_initrd. rewrite !props_upd.
  rewrite (get_prop_upd_ne S_initrd_start), (get_prop_upd S_initrd_start _ _ v1) by (done || (apply not_symmetry; apply start_ne_end)). cbn [mbind option_bind].
  rewrite number_num_bytes by done. cbn [mbind option_bind].
  rewrite (get_prop_upd S_initrd_end _ _ v2) by (by rewrite get_prop_upd_ne by apply start_ne_end). cbn [mbind option_bind]. by rewrite number_num_bytes.
Qed.
End patch.

(** C16: patching the device tree for the primary VM.  On a blob that encodes a tree
    whose node [chosen] has both ramdisk properties, with 4 or 8 bytes, with its
    reservation map at a multiple of 8 and with room for the new entries, [patch_blob]
    succeeds if each of the two values lies at a multiple of its own width, and leaves
    a blob that encodes the tree with the two values replaced and, in front of the
    reservation map, one entry for each of the text, the rodata and the data of the
    hypervisor and for each reserved range; a reader of the new blob finds the new
    ramdisk.  No byte outside the blob and its new entries is written.  If one of the
    values does not lie at a multiple of its width, which the format allows for the
    8-byte ones, the store faults and the hypervisor panics. *)
Theorem patch_blob_correct (pname : Z → list Z) (mem : Mem) (hdr : Z) (d : dtb) (node : FdtNode) (c : tree) (sibs : list tree)
    (v1 v2 : list Z) (p : BootParamsUpdate) (lay : Layout) :
  mem_ok mem → blob_at pname mem hdr d → new_root mem hdr = Some node → name (d_root d) = [] →
  get_child S_chosen (children (d_root d)) = Some (c, sibs) →
  get_prop pname S_initrd_start (props c) = Some v1 → length v1 = 4%nat ∨ length v1 = 8%nat →
  get_prop pname S_initrd_end (props c) = Some v2 → length v2 = 4%nat ∨ length v2 = 8%nat →
  0 ≤ reserved_ranges_count p ≤ Z.of_nat (length (reserved_ranges p)) →
  let grow := 16 * (3 + reserved_ranges_count p) in
  room mem hdr grow →
  if is_aligned (chosen_value pname mem hdr d c S_initrd_start) (Z.of_nat (length v1)) &&
     is_aligned (chosen_value pname mem hdr d c S_initrd_end) (Z.of_nat (length v2))
  then ∃ mem', patch_blob mem node hdr p lay = Done (Ok tt, mem') ∧
    blob_at pname mem' hdr (patched pname lay p d) ∧ total_size mem' hdr = total_size mem hdr + grow ∧
    (∀ a, ¬ hdr ≤ a < hdr + total_size mem hdr + grow → mem' a = mem a) ∧
    initrd pname (d_root (patched pname lay p d)) =
      Some (pa_init (pa_addr (upd_initrd_begin p) mod 2 ^ (8 * Z.of_nat (length v1))),
            pa_init (pa_addr (upd_initrd_end p) mod 2 ^ (8 * Z.of_nat (length v2))))
  else patch_blob mem node hdr p lay = Panic.
Proof.
  intros Hm Hb Hnew Hname Hg Hv1 Hl1 Hv2 Hl2 Hcount grow [H32 H64]. pose proof (initrd_patched pname lay p d c sibs v1 v2 Hg Hv1 Hl1 Hv2 Hl2) as Hi.
  unfold chosen_value. destruct (d_root d) as [nm ps cs] eqn:Hroot. cbn [name props children] in *. subst nm.
  destruct (find_chosen pname mem hdr d _ ps cs c sibs node Hm Hb Hroot Hg chosen_no_nul Hnew) as (n & n' & cs1 & Hf1 & Hf2 & -> & Hcn & Hupd & Hn' & Hoff).
  assert (Ha : ∀ nm, hdr + hdr_off_dt_struct mem hdr + Z.of_nat (length (word 1 ++ pad4 (asciz []) ++ enc_props ps)) +
    child_offset S_chosen (cs1 ++ c :: sibs) + prop_offset pname nm (props c) = write_addr pname mem hdr [] ps cs1 c nm).
  { intros nm. rewrite Hoff. unfold write_addr, lead. rewrite Hcn, !length_app. lia. }
  rewrite !Ha. pose proof (set_initrd_spec pname mem hdr d ps cs1 c sibs n' p v1 v2 Hm Hb Hroot Hn' Hv1 Hl1 Hv2 Hl2) as Hw. cbv zeta in Hw.
  unfold patch_blob. rewrite Hf1. cbn [mbind exec_bind negb]. rewrite Hf2. cbn [mbind exec_bind negb].
  destruct (is_aligned _ _ && is_aligned _ _); [|by destruct Hw as [-> | (mem1 & -> & Hw)]; [|cbn [mbind exec_bind]; rewrite Hw]].
  destruct Hw as (mem1 & mem2 & -> & Hw2 & He2). cbn [mbind exec_bind]. rewrite Hw2. cbn [mbind exec_bind].
  pose proof He2 as (Hm2 & Hb2 & Ht2 & _).
  destruct (reserve_layout_spec pname mem2 hdr lay _ Hm2 Hb2 ltac:(split; lia)) as (mem3 & -> & He3). pose proof He3 as (Hm3 & Hb3 & Ht3 & _).
  destruct (reserve_ranges_spec pname _ hdr _ (reserved_ranges p) (Z.to_nat (reserved_ranges_count p)) 0 Hm3 Hb3) as (mem4 & Hmem4 & He4); [lia..|split; lia|].
  pose proof (extended_trans pname _ _ _ _ _ _ 48 (16 * Z.of_nat (Z.to_nat (reserved_ranges_count p))) ltac:(lia) He3 He4) as He.
  destruct (extended_trans pname _ _ _ _ _ _ 0 (48 + 16 * Z.of_nat (Z.to_nat (reserved_ranges_count p))) ltac:(lia) He2 He) as (Hm4 & Hb4 & Ht4 & Hfr).
  exists mem4. cbn [mbind exec_bind]. split; [by rewrite Hmem4|].
  unfold total_size. replace (0 + (48 + 16 * Z.of_nat (Z.to_nat (reserved_ranges_count p)))) with grow in * by (unfold grow; lia).
  split_and!; [|done|exact Hfr|done]. revert Hb4. unfold patched, add_entries, range_entries. cbn [d_root d_rsv d_strs]. rewrite Hroot. cbn [upd_children].
  rewrite Hupd, rev_app_distr, <-app_assoc. done.
Qed.

(** ** The blob of the demonstration, patched *)
Module PatchDemo.
Definition pname : Z → list Z := DtbDemo.pname.
Definition mem : Mem := DtbDemo.mem.
Definition d : dtb := mkDtb DtbDemo.root [] DtbDemo.strings.
Lemma root_names : names_in pname DtbDemo.strings DtbDemo.root.
Proof.
  assert (∀ q, in_u 32 q.1 → no_nul (pname q.1) → take (length (asciz (pname q.1))) (drop (Z.to_nat q.1) DtbDemo.strings) = asciz (pname q.1) →
    name_in pname DtbDemo.strings q) as Hq.
  { intros q H1 H2 H3. split_and!; [done..|]. eexists. rewrite <-H3 at 1. symmetry. apply take_drop. }
  repeat first [apply Forall_cons; split | apply Forall_nil_2 | apply names_in_eq; split | apply Hq; unfold in_u, no_nul; by_computation].
Qed.
Lemma demo_blob : blob_at pname mem BUF d.
Proof.
  split.
  - by_computation.
  - by_computation.
  - apply DtbDemo.blob_at.
  - apply root_names.
  - split_and!; unfold aligned; by_computation.
  - unfold aligned. by_computation.
  - by_computation.
  - unfold holds. by_computation.
  - by_computation.
  - unfold holds. by_computation.
  - by_computation.
  - unfold holds. by_computation.
Qed.
Definition p : BootParamsUpdate := mkBootParamsUpdate [mkMemRange (pa_init 0x20000) (pa_init 0x28000)] 1 (pa_init 0x85000000) (pa_init 0x85040000).
(** A reader finds the new ramdisk, and the hypervisor and the range are reserved. *)
Lemma patch_blob_correct_witness :
  ∃ node mem', new_root mem BUF = Some node ∧ patch_blob mem node BUF p demo_layout = Done (Ok tt, mem') ∧
    blob_at pname mem' BUF (patched pname demo_layout p d) ∧
    d_rsv (patched pname demo_layout p d) = [(0x20000, 0x8000); (0x40006000, 0x3000); (0x40004000, 0x1800); (0x40000000, 0x4000)] ∧
    initrd pname (d_root (patched pname demo_layout p d)) = Some (pa_init 0x85000000, pa_init 0x85040000).
Proof.
  destruct (new_root mem BUF) as [node|] eqn:Hn; [|vm_compute in Hn; discriminate].
  destruct (get_child S_chosen (children DtbDemo.root)) as [[c sibs]|] eqn:Hg; [|vm_compute in Hg; discriminate].
  pose proof (patch_blob_correct pname mem BUF d node c sibs (word 0x84000000) (be_bytes 8 0x84100000) p demo_layout) as H.
  assert (is_aligned (chosen_value pname mem BUF d c S_initrd_start) 4 && is_aligned (chosen_value pname mem BUF d c S_initrd_end) 8 = true) as Ha.
  { vm_compute in Hg. injection Hg as <- _. vm_compute. reflexivity. }
  change (Z.of_nat (length (word 0x84000000))) with 4 in H. change (Z.of_nat (length (be_bytes 8 0x84100000))) with 8 in H. rewrite Ha in H.
  destruct H as (mem' & H1 & H2 & _ & _ & H3);
    [exact DtbDemo.dtb_mem_bytes|exact demo_blob|exact Hn|reflexivity|exact Hg| |by left| |by right|done|split; by_computation|].
  - vm_compute in Hg. injection Hg as <- _. vm_compute. reflexivity.
  - vm_compute in Hg. injection Hg as <- _. vm_compute. reflexivity.
  - exists node, mem'. split_and!; [done|exact H1|exact H2|vm_compute; reflexivity|exact H3].
Defined.
End PatchDemo.
