(* ===== verification/FdtC.v ===== *)
(** * The C interface of the device tree ([fdt.rs], [fdt_handler.rs])

    C code holds a node as the struct [fdt_node] of pointers; every call converts it to
    an [FdtNode] and back.  The conversion takes the length of the slice from the
    header, whatever the position of the node is: the theorems show that navigation
    is still right, and by how much the slice of an inner node is too long. *)
From Stdlib Require Import String.
From S2P Require Import Prelude Addr Mode Arch Mpool Mm MemoryManager Memory Fdt FdtLoops FdtTree Manifest ManifestSpec FdtHandler FdtHandlerSpec FdtPatch.
Import Dt.

Module FdtC.
Record fdt_node := mk_node { hdr : Z; begin : Z; end_ : Z; strs : Z }.

(** [impl From<fdt_node> for FdtNode]. *)
Definition FdtNode_from (mem : Mem) (n : fdt_node) : FdtNode :=
  let data_size := hdr_size_dt_struct mem (hdr n) in
  let strs_size := hdr_size_dt_strings mem (hdr n) in
  mkFdtNode (hdr n) (mkSlice (begin n) data_size) (mkSlice (strs n) strs_size).
(** [impl From<FdtNode> for fdt_node]. *)
Definition fdt_node_from (n : FdtNode) : fdt_node :=
  mk_node (nd_hdr n) (s_ptr (nd_data n)) (s_ptr (nd_data n) + s_len (nd_data n)) (s_ptr (nd_strs n)).

(** The node is written only on success. *)
Definition fdt_root_node (mem : Mem) (node : fdt_node) (hdr : Z) : exec (bool * fdt_node) :=
  assert_then (is_aligned hdr 4)
    (Done (match new_root mem hdr with
           | None => (false, node)
           | Some n => (true, fdt_node_from n)
           end)).
Definition fdt_find_child (mem : Mem) (c_node : fdt_node) (child : list Z) : exec (bool * fdt_node) :=
  '(ret, node) ← find_child mem (FdtNode_from mem c_node) child;
  Done (ret, fdt_node_from node).
(** The pointer and size, if the property exists. *)
Definition fdt_read_property (mem : Mem) (node : fdt_node) (name : list Z) : exec (option (Z * Z)) :=
  r ← read_property mem (FdtNode_from mem node) name;
  Done (match r with
        | Err _ => None
        | Ok buf => Some (s_ptr buf, wrap 32 (s_len buf))
        end).

(** [fdt_find_cpus]: the ids and the count, 0 if [find_cpus] fails. *)
Definition fdt_find_cpus (mem : Mem) (root : fdt_node) (cpu_ids : list Z) : exec (Z * list Z) :=
  '(count, ids) ← find_cpus mem (FdtNode_from mem root) cpu_ids;
  Done (default 0 count, ids).
Definition fdt_find_memory_ranges (mem : Mem) (root : fdt_node) (p : BootParams) : exec BootParams :=
  '(_, p) ← find_memory_ranges mem (FdtNode_from mem root) p;
  Done p.
(** The two results are written only on success. *)
Definition fdt_find_initrd (mem : Mem) (n : fdt_node) (begin end_ : paddr_t) : exec (bool * paddr_t * paddr_t) :=
  r ← find_initrd mem (FdtNode_from mem n);
  Done (match r with
        | None => (false, begin, end_)
        | Some (b, e) => (true, b, e)
        end).

Section handler.
Context {A : ArchMM}.
(** The address of the header, or the null pointer. *)
Definition fdt_map (mem : Mem) (t : PageTable) (fdt_addr : paddr_t) (n : fdt_node) (st : MmState)
    : exec (Z * fdt_node * PageTable * MmState) :=
  '(node, t, st) ← FdtHandler.fdt_map mem t fdt_addr st;
  match node with
  | None => Done (0, n, t, st)
  | Some node => Done (pa_addr fdt_addr, fdt_node_from node, t, st)
  end.
Definition fdt_unmap (mem : Mem) (t : PageTable) (fdt : Z) (st : MmState) : exec (bool * PageTable * MmState) :=
  FdtHandler.fdt_unmap mem t fdt st.
Definition fdt_patch (mem : Mem) (t : PageTable) (fdt_addr : paddr_t) (p : BootParamsUpdate) (lay : Layout) (st : MmState)
    : exec (bool * Mem * PageTable * MmState) :=
  '(r, mem, t, st) ← patch mem t fdt_addr p lay st;
  Done (is_ok r, mem, t, st).
End handler.

(** ** Navigation *)
Section nav.
Context (mem : Mem) (Hmem : mem_ok mem) (pname : Z → list Z).

(** The node of the blob with this header, converted. *)
Definition size (cn : fdt_node) : Z := hdr_size_dt_struct mem (hdr cn).
Definition c_cursor (cn : fdt_node) (tr : tree) (sibs : list tree) : Prop := cursor mem pname (FdtNode_from mem cn) tr sibs.

(** Bytes behind the slice do not matter to a cursor. *)
Lemma cursor_longer n n' tr sibs :
  cursor mem pname n tr sibs → nd_strs n' = nd_strs n → s_ptr (nd_data n') = s_ptr (nd_data n) →
  s_len (nd_data n) ≤ s_len (nd_data n') → s_ptr (nd_data n') + s_len (nd_data n') < 2 ^ 64 → cursor mem pname n' tr sibs.
Proof.
  intros (e & k & (Hh & Hl & Ha & H0 & _) & Hok & Hs & He) Hst Hp Hle Hend.
  set (l := body tr ++ _) in Hh, Hl. set (m := s_len (nd_data n') - s_len (nd_data n)).
  exists e, (k ++ bytes mem (s_ptr (nd_data n) + s_len (nd_data n)) m).
  assert (Hok' : ∀ c, node_ok mem pname (tok_new n) c → node_ok mem pname (tok_new n') c).
  { intros c. apply node_ok_strs. cbn. done. }
  split; [|split; [auto|split; [by eapply Forall_impl|done]]].
  replace (body tr ++ enc_nodes sibs ++ word (code_of e) ++ k ++ _) with (l ++ bytes mem (s_ptr (nd_data n) + s_len (nd_data n)) m)
    by (unfold l; by rewrite <-!app_assoc).
  assert (Hb : Z.of_nat (length (bytes mem (s_ptr (nd_data n) + s_len (nd_data n)) m)) = m).
  { unfold bytes. rewrite length_fmap, length_seqZ. lia. }
  split_and!; [|rewrite length_app, Nat2Z.inj_add, Hb; lia|by rewrite Hp|by rewrite Hp|done].
  rewrite Hp. apply holds_app. split; [done|]. rewrite <-Hl. unfold holds. by rewrite Hb.
Qed.

(** Converting back and forth. *)
Lemma converted_cursor n tr sibs :
  cursor mem pname n tr sibs → s_len (nd_strs n) = hdr_size_dt_strings mem (nd_hdr n) →
  s_len (nd_data n) ≤ hdr_size_dt_struct mem (nd_hdr n) → s_ptr (nd_data n) + hdr_size_dt_struct mem (nd_hdr n) < 2 ^ 64 →
  c_cursor (fdt_node_from n) tr sibs.
Proof.
  intros Hc Hs Hl He. eapply cursor_longer; [exact Hc|..]; cbn; [|done..]. destruct n as [h d [p s]]. cbn in *. by rewrite Hs.
Qed.
Lemma root_roundtrip h n : new_root mem h = Some n → FdtNode_from mem (fdt_node_from n) = n.
Proof. unfold new_root. destruct (negb _); [done|]. destruct (_ || _); [done|]. by intros [= <-]. Qed.
End nav.
End FdtC.
Import FdtC.

(** The C interface navigates the tree as the Rust one does, though the slices it
    works on are too long.  From a C node whose conversion is a cursor at a node of a
    tree, [fdt_find_child] ends at the first child of the name or stays, and
    [fdt_read_property] returns the value of the first property of the name.  After a
    move to a child the slice of the converted node ends [begin cn' - begin cn] bytes
    behind that of [cn]: for the inner nodes of a blob, behind its structure block. *)
Theorem c_navigation (mem : Mem) (pname : Z → list Z) (cn : fdt_node) (tr : tree) (sibs : list tree) (nm : list Z) :
  mem_ok mem → c_cursor mem pname cn tr sibs → no_nul nm → begin cn + 2 * size mem cn < 2 ^ 64 →
  (∃ r, fdt_read_property mem cn (asciz nm) = Done r ∧
     match get_prop pname nm (props tr) with
     | Some v => ∃ a, r = Some (a, Z.of_nat (length v) mod 2 ^ 32) ∧ holds mem a v
     | None => r = None
     end) ∧
  match get_child nm (children tr) with
  | Some (c, cs) => ∃ cn', fdt_find_child mem cn (asciz nm) = Done (true, cn') ∧ c_cursor mem pname cn' c cs ∧
      hdr cn' = hdr cn ∧ begin cn < begin cn' ∧ end_ cn' = begin cn + size mem cn ∧
      s_ptr (nd_data (FdtNode_from mem cn')) + s_len (nd_data (FdtNode_from mem cn')) = end_ cn' + (begin cn' - begin cn)
  | None => ∃ cn', fdt_find_child mem cn (asciz nm) = Done (false, cn') ∧ c_cursor mem pname cn' tr sibs
  end.
Proof.
  intros Hm Hc Hn Hend. split.
  - destruct (cursor_read_property mem Hm pname _ _ _ nm Hc Hn) as (r & Hr & Hv). unfold fdt_read_property. rewrite Hr. cbn [mbind exec_bind].
    destruct (get_prop pname nm (props tr)) as [v|]; [|subst; by eexists]. destruct Hv as (b & -> & (Hh & Hl & _)). eexists. split; [done|].
    eexists. split; [|exact Hh]. by rewrite Hl.
  - pose proof Hc as [k Hn1]%cursor_node. pose proof (find_child_at mem Hm pname _ _ _ _ k nm Hn1 Hn) as Hf. unfold fdt_find_child.
    destruct (get_child nm (children tr)) as [[c cs]|] eqn:Hg.
    + destruct Hf as (d & -> & Hd & Hp). apply get_child_split in Hg as [cs1 Hg]. rewrite Hg in Hn1.
      pose proof (node_cursor mem pname _ _ _ _ _ _ _ d Hn1 Hd) as Hcur. cbn [mbind exec_bind]. eexists. split; [done|].
      assert (Hlt : 0 ≤ s_len d < size mem cn).
      { destruct Hn1 as ((_ & Hl & _) & _), Hd as (_ & Hl' & _). cbn [FdtNode_from nd_data s_len] in Hl. unfold size. rewrite Hl, Hl'.
        rewrite enc_nodes_app, enc_nodes_cons, enc_eq, !length_app, !length_word. lia. }
      cbn in Hp. unfold size in *. split_and!; [|done|cbn; lia..].
      apply (converted_cursor mem pname _ _ _ Hcur); cbn; [done|lia|lia].
    + rewrite Hf. cbn [mbind exec_bind]. eexists. split; [done|]. exact Hc.
Qed.

(** The first child of the root, through the C interface. *)
Definition demo_root : fdt_node := fdt_node_from DtbDemo.root_node.
Definition chosen : list Z := DtbDemo.str "chosen".
Lemma demo_root_at : c_cursor DtbDemo.mem DtbDemo.pname demo_root DtbDemo.root [].
Proof. apply converted_cursor; [exact DtbDemo.root_node_at|vm_compute; (reflexivity || discriminate)..]. Qed.
Lemma c_navigation_witness :
  ∃ cn, fdt_find_child DtbDemo.mem demo_root (asciz chosen) = Done (true, cn) ∧
    s_ptr (nd_data (FdtNode_from DtbDemo.mem cn)) + s_len (nd_data (FdtNode_from DtbDemo.mem cn)) = end_ cn + (begin cn - begin demo_root).
Proof.
  destruct (c_navigation DtbDemo.mem DtbDemo.pname demo_root DtbDemo.root [] chosen DtbDemo.dtb_mem_bytes demo_root_at) as [_ H].
  - unfold no_nul. by_computation.
  - vm_compute. reflexivity.
  - destruct (get_child chosen (children DtbDemo.root)) as [[c cs]|] eqn:Hg; [|vm_compute in Hg; discriminate Hg].
    destruct H as (cn & H & _ & _ & _ & _ & Hs). exists cn. exact (conj H Hs).
Defined.
