(* ===== verification/FdtDump.v ===== *)
(** * Printing a device tree ([FdtHeader::dump] of [fdt.rs])

    [dump] walks over the whole blob and logs what it finds.  The log is a list of
    events, one for each call of [dlog!] but those that only format a value.  Two
    loops of the code have no bound, the search for the end of a property's name and
    the walk over the reservations: they get [fuel], and the theorem says how much is
    enough for a blob.  The other loops consume the structure block. *)
From Stdlib Require Import String.
From S2P Require Import Prelude Addr Memory Fdt FdtLoops FdtTree Manifest ManifestSpec FdtHandler FdtHandlerSpec FdtPatch.
Import Dt.

Inductive event :=
| EInvalid
| ENode (depth : Z) (name : list Z)
| EProp (depth : Z) (name value : list Z)
| ERsvmap (off : Z)
| EEntry (address size : Z).

Section dump.
Context (mem : Mem) (fuel : nat).

(** [asciz_to_utf8]. *)
Definition asciz_to_utf8 (ptr : Z) : exec (list Z) :=
  len ← unwrap_opt (strnlen_loop mem ptr 0 fuel);
  Done (bytes mem ptr len).

Definition dump_prop_step (depth : Z) (s : FdtTokenizer * list event) : exec (FdtTokenizer * list event + FdtTokenizer * list event) :=
  let '(t, out) := s in
  '(p, t) ← next_property mem t;
  match p with
  | None => Done (inr (t, out))
  | Some (name, buf) =>
      name ← asciz_to_utf8 name;
      Done (inl (t, out ++ [EProp depth name (bytes mem (s_ptr buf) (s_len buf))]))
  end.
Definition dump_props (depth : Z) (t : FdtTokenizer) (out : list event) : exec (FdtTokenizer * list event) :=
  while_loop (dump_prop_step depth) (tok_fuel t) (t, out).

(** The two nested loops as one: a round enters a subnode, or leaves one.  [true] is
    the [break]. *)
Definition dump_node_step (s : FdtTokenizer * Z * list event) : exec (FdtTokenizer * Z * list event + bool * list event) :=
  let '(t, depth, out) := s in
  '(name, t) ← next_subnode mem t;
  match name with
  | Some name =>
      let out := out ++ [ENode depth (bytes mem (s_ptr name) (s_len name))] in
      let depth := depth +w 1 in
      '(t, out) ← dump_props depth t out;
      Done (inl (t, depth, out))
  | None =>
      '(tk, t) ← token mem t;
      if bool_decide (tk ≠ Some FdtToken.EndNode) then Done (inr (false, out))
      else
      let depth := depth -w 1 in
      Done (if depth =? 0 then inr (true, out) else inl (t, depth, out))
  end.

Definition rsv_step (s : Z * list event) : exec (Z * list event + list event) :=
  let '(entry, out) := s in
  let address := be64 mem entry in
  let size := be64 mem (entry + 8) in
  assert_then (is_aligned entry 8)
    (Done (if negb (address =? 0) || negb (size =? 0)
           then inl (entry + SIZEOF_FdtReserveEntry, out ++ [EEntry address size])
           else inr out)).

Definition dump (hdr : Z) : exec (list event) :=
  match new_root mem hdr with
  | None => Done [EInvalid]
  | Some node =>
      let t := tok_new node in
      '(whole, out) ← while_loop dump_node_step (tok_fuel t) (t, 0, []);
      if negb whole then Done out
      else while_loop rsv_step fuel (hdr + hdr_off_mem_rsvmap mem hdr, out ++ [ERsvmap (hdr_off_mem_rsvmap mem hdr)])
  end.
End dump.

(** ** What is printed for a tree *)
Section spec.
Context (pname : Z → list Z).
Definition prop_event (depth : Z) (p : Z * list Z) : event := EProp depth (pname p.1) p.2.
Fixpoint tree_events (depth : Z) (tr : tree) : list event :=
  let 'Tree n ps cs := tr in
  ENode depth (asciz n) :: (prop_event (depth + 1) <$> ps) ++ mjoin (tree_events (depth + 1) <$> cs).
Definition rsv_event (e : Z * Z) : event := EEntry e.1 e.2.
End spec.

Section proof.
Context (mem : Mem) (Hmem : mem_ok mem) (pname : Z → list Z) (fuel : nat).

Lemma dump_prop_decreases depth : decreases (dump_prop_step mem fuel depth) (λ s, tmeasure s.1).
Proof.
  intros [t out] [t' out']. unfold dump_prop_step. intros ([p t1] & Hp & H)%bind_Done_inv. apply next_property_len in Hp; [|done].
  destruct p as [[nm b]|]; [|done]. apply bind_Done_inv in H as (l & _ & [= <- _]). by eapply consumed_measure; [|apply Hp].
Qed.
Lemma dump_props_len depth t out t' out' : dump_props mem fuel depth t out = Done (t', out') → shorter t t'.
Proof.
  intros H%while_loop_inv. remember (t, out) as s eqn:Es. remember (t', out') as r eqn:Er.
  assert (Hs : shorter t s.1) by (subst; unfold shorter; cbn; lia). clear Es. revert Er.
  induction H as [s r Hst|s s' r Hst _ IH]; intros ->; destruct s as [t1 o1]; unfold dump_prop_step in Hst;
    apply bind_Done_inv in Hst as ([p t2] & Hp & Hst); apply next_property_len in Hp; try done; destruct p as [[nm b]|]; try done;
    try (apply bind_Done_inv in Hst as (l & _ & Hst)); try discriminate; injection Hst; intros; subst; cbn in Hs, Hp;
    unfold consumed, shorter in *; try lia.
  apply IH; [cbn; lia|done].
Qed.
Lemma dump_node_decreases : decreases (dump_node_step mem fuel) (λ s, tmeasure s.1.1).
Proof.
  intros [[t d] o] [[t' d'] o']. unfold dump_node_step. intros ([nm t1] & Hn & H)%bind_Done_inv. apply next_subnode_len in Hn; [|done].
  destruct nm as [nm|].
  - cbv zeta in H. apply bind_Done_inv in H as ([t2 o2] & Hs & [= <- _ _]). apply dump_props_len in Hs. unfold consumed, shorter, tmeasure in *. cbn. lia.
  - apply bind_Done_inv in H as ([tk t2] & Ht & H). apply token_len in Ht; [|done]. case_bool_decide as Hk; [done|]. cbv zeta in H.
    destruct tk as [tk|]; [|discriminate]. destruct (_ =? 0); [done|]. injection H as <- _ _. unfold consumed, shorter, tmeasure in *. cbn. lia.
Qed.

(** ** The walk over a tree *)

(** The names of the properties end within [fuel] bytes. *)
Fixpoint names_short (tr : tree) : Prop :=
  let 'Tree _ ps cs := tr in
  Forall (λ p, (length (pname p.1) < fuel)%nat) ps ∧ foldr (λ c P, names_short c ∧ P) True cs.
Lemma names_short_eq n ps cs :
  names_short (Tree n ps cs) ↔ Forall (λ p, (length (pname p.1) < fuel)%nat) ps ∧ Forall names_short cs.
Proof.
  cbn [names_short]. assert (foldr (λ c P, names_short c ∧ P) True cs ↔ Forall names_short cs) as ->; [|done].
  induction cs as [|c cs IH]; cbn; [by rewrite Forall_nil|]. by rewrite Forall_cons, IH.
Qed.

Lemma asciz_to_utf8_at a s : no_nul s → holds mem a (asciz s) → (length s < fuel)%nat → asciz_to_utf8 mem fuel a = Done s.
Proof.
  intros Hn Hh Hf. unfold asciz_to_utf8. rewrite (strnlen_asciz mem a fuel s [] 0); [|done|by rewrite Z.add_0_r, app_nil_r|].
  - cbn [unwrap_opt mbind exec_bind]. rewrite Z.add_0_l. apply holds_app in Hh as [Hh _]. by rewrite Hh.
  - rewrite app_nil_r. unfold asciz. rewrite length_app. cbn. lia.
Qed.
Lemma dump_props_at depth t ps tk k out :
  props_ok mem pname t ps → Forall (λ p, (length (pname p.1) < fuel)%nat) ps → tk ≠ FdtToken.Nop → tk ≠ FdtToken.Prop_ →
  tok_at mem t (enc_props ps ++ word (code_of tk) ++ k) →
  dump_props mem fuel depth t out = Done (adv t (enc_props ps), out ++ (prop_event pname depth <$> ps)).
Proof.
  intros Hps Hsh Hn Hp H. eapply (while_loop_runs _ (λ s, tmeasure s.1)); [apply dump_prop_decreases| |apply tok_fuel_measure].
  revert t out Hps H. induction Hsh as [|p ps Hlen Hsh IH]; intros t out Hps H.
  - apply runs_exit. unfold dump_prop_step. rewrite (next_property_other mem Hmem t tk k) by done. cbn [mbind exec_bind].
    by rewrite adv_nil, app_nil_r.
  - rewrite enc_props_cons, <-app_assoc in H. apply Forall_cons in Hps as [[Hp1 (Hp2 & Hnn & Hnm)] Hps].
    destruct (next_property_at mem Hmem t p _ Hp1 Hp2 H) as (b & Hb & (Hh & Hl & _) & _). rewrite enc_props_cons, adv_app.
    eapply runs_next.
    + unfold dump_prop_step. rewrite Hb. cbn [mbind exec_bind]. rewrite (asciz_to_utf8_at _ _ Hnn Hnm Hlen). cbn [mbind exec_bind].
      rewrite Hl, Hh. reflexivity.
    + replace (out ++ (prop_event pname depth <$> p :: ps)) with ((out ++ [prop_event pname depth p]) ++ (prop_event pname depth <$> ps))
        by (by rewrite <-app_assoc).
      apply IH; [exact Hps|]. eapply tok_at_adv; [exact H|apply words_prop].
Qed.

(** One round at the beginning of a node, and one at its end. *)
Lemma dump_open t n ps cs k depth out :
  no_nul n → props_ok mem pname t ps → Forall (λ p, (length (pname p.1) < fuel)%nat) ps → in_u 64 (depth + 1) →
  tok_at mem t (word 1 ++ pad4 (asciz n) ++ enc_props ps ++ enc_nodes cs ++ word 2 ++ k) →
  let t' := adv t (word 1 ++ pad4 (asciz n) ++ enc_props ps) in
  dump_node_step mem fuel (t, depth, out)
    = Done (inl (t', depth + 1, out ++ ENode depth (asciz n) :: (prop_event pname (depth + 1) <$> ps))) ∧
  tok_at mem t' (enc_nodes cs ++ word 2 ++ k).
Proof.
  intros Hn Hps Hsh Hd H t'. destruct (next_subnode_at mem Hmem t n _ Hn H) as (b & Hb & Hnm & Hlen). rewrite app_assoc in H.
  apply tok_at_adv in H; [|auto with hfo2]. rewrite adv_app in H. set (t1 := adv (adv t (word 1)) (pad4 (asciz n))) in *.
  assert (Ht' : t' = adv t1 (enc_props ps)) by (unfold t', t1; by rewrite <-!adv_app, app_assoc).
  split; [|rewrite Ht'; eapply tok_at_adv; [exact H|apply words_props]].
  destruct (nodes_token cs FdtToken.EndNode k) as (tk & k' & Heq & Hk1 & Hk2); [done..|].
  change (word 2) with (word (code_of FdtToken.EndNode)) in H. rewrite Heq in H.
  unfold dump_node_step. rewrite Hb. cbn [mbind exec_bind]. cbv zeta. rewrite Hlen, Hnm. rewrite (wadd_small depth 1 Hd).
  rewrite (dump_props_at (depth + 1) t1 ps tk k') by done. cbn [mbind exec_bind]. rewrite Ht', <-app_assoc. reflexivity.
Qed.
Lemma dump_close t k depth out :
  0 < depth < 2 ^ 64 → tok_at mem t (word 2 ++ k) →
  dump_node_step mem fuel (t, depth, out)
    = Done (if depth - 1 =? 0 then inr (true, out) else inl (adv t (word 2), depth - 1, out)).
Proof.
  intros Hd H. unfold dump_node_step. rewrite (next_subnode_other mem Hmem t FdtToken.EndNode k) by done. cbn [mbind exec_bind].
  rewrite (token_at mem Hmem t FdtToken.EndNode k) by done. cbn [mbind exec_bind]. rewrite bool_decide_false by (intros H'; by apply H').
  by rewrite wsub_small by lia.
Qed.

(** Nodes below the root, and lists of them. *)
Definition passes (tr : tree) : Prop := ∀ t depth k out r,
  node_ok mem pname t tr → names_short tr → 0 < depth → depth + Z.of_nat (length (enc tr)) < 2 ^ 64 →
  tok_at mem t (enc tr ++ k) →
  runs (dump_node_step mem fuel) (adv t (enc tr), depth, out ++ tree_events pname depth tr) r →
  runs (dump_node_step mem fuel) (t, depth, out) r.
Lemma dump_nodes cs t depth k out r :
  Forall passes cs → Forall (node_ok mem pname t) cs → Forall names_short cs → 0 < depth →
  depth + Z.of_nat (length (enc_nodes cs)) < 2 ^ 64 → tok_at mem t (enc_nodes cs ++ k) →
  runs (dump_node_step mem fuel) (adv t (enc_nodes cs), depth, out ++ mjoin (tree_events pname depth <$> cs)) r →
  runs (dump_node_step mem fuel) (t, depth, out) r.
Proof.
  intros Hp. revert t out. induction Hp as [|c cs Hc _ IH]; intros t out Hok Hsh Hd Hlt H Hr.
  - change (enc_nodes []) with (@nil Z) in Hr. rewrite adv_nil in Hr. cbn in Hr. by rewrite app_nil_r in Hr.
  - apply Forall_cons in Hok as [Hok Hoks]. apply Forall_cons in Hsh as [Hsh Hshs]. rewrite enc_nodes_cons in *. rewrite length_app in Hlt.
    rewrite <-app_assoc in H. eapply Hc; [done..|lia|exact H|]. eapply IH; [|done|done|lia|by eapply tok_at_adv; [exact H|apply words_enc]|].
    + eapply Forall_impl; [exact Hoks|]. intros c' Hc'. by eapply node_ok_strs; [|exact Hc'].
    + rewrite adv_app in Hr. cbn [fmap list_fmap mjoin list_join] in Hr. by rewrite app_assoc in Hr.
Qed.
Lemma dump_node n ps cs t depth k out r :
  Forall passes cs → node_ok mem pname t (Tree n ps cs) → names_short (Tree n ps cs) → 0 ≤ depth →
  depth + Z.of_nat (length (enc (Tree n ps cs))) < 2 ^ 64 → tok_at mem t (enc (Tree n ps cs) ++ k) →
  let out' := out ++ tree_events pname depth (Tree n ps cs) in
  (if depth =? 0 then r = (true, out') else runs (dump_node_step mem fuel) (adv t (enc (Tree n ps cs)), depth, out') r) →
  runs (dump_node_step mem fuel) (t, depth, out) r.
Proof.
  intros Hp (Hn & Hps & Hcs)%node_ok_eq [Hsh Hshs]%names_short_eq Hd Hlt H out' Hr. rewrite enc_eq in Hlt, H, Hr. unfold body in Hlt, H, Hr.
  cbn [name props children] in Hlt, H, Hr. rewrite !length_app, !length_word in Hlt. rewrite <-!app_assoc in H.
  destruct (dump_open t n ps cs k depth out) as [Hst H2]; [done..|split; lia|exact H|].
  eapply runs_next; [exact Hst|]. set (t' := adv t (word 1 ++ pad4 (asciz n) ++ enc_props ps)) in *.
  eapply dump_nodes; [exact Hp| |exact Hshs|lia|lia|exact H2|].
  - eapply Forall_impl; [exact Hcs|]. intros c Hc. by eapply node_ok_strs; [|exact Hc].
  - apply tok_at_adv in H2; [|apply words_nodes].
    assert (Hout : (out ++ ENode depth (asciz n) :: (prop_event pname (depth + 1) <$> ps)) ++ mjoin (tree_events pname (depth + 1) <$> cs) = out').
    { unfold out'. cbn [tree_events]. by rewrite <-app_assoc. }
    rewrite Hout. pose proof (dump_close _ k (depth + 1) out' ltac:(lia) H2) as Hc. replace (depth + 1 - 1) with depth in Hc by lia.
    destruct (depth =? 0); [subst r; by apply runs_exit|]. eapply runs_next; [exact Hc|]. unfold t'. by rewrite <-!adv_app, <-!app_assoc.
Qed.
Lemma passes_all tr : passes tr.
Proof.
  induction tr as [n ps cs IH] using tree_ind'. intros t depth k out r Hok Hsh Hd Hlt H Hr. eapply dump_node; [done..|lia|done|done|].
  cbv zeta. by destruct (Z.eqb_spec depth 0); [lia|].
Qed.

(** ** The reservations *)
Lemma be64_holds a v l : in_u 64 v → holds mem a (be_bytes 8 v ++ l) → be64 mem a = v ∧ holds mem (a + 8) l.
Proof.
  intros Hv [Hh Hl]%holds_app. split; [|exact Hl]. rewrite be64_bytes. change 8 with (Z.of_nat (length (be_bytes 8 v))). rewrite Hh.
  rewrite be_value_bytes. apply Z.mod_small, Hv.
Qed.
Definition rsv_ok (e : Z * Z) : Prop := in_u 64 e.1 ∧ in_u 64 e.2 ∧ e ≠ (0, 0).
Lemma rsv_loop l n a out :
  Forall rsv_ok l → (length l < n)%nat → aligned 8 a → holds mem a (enc_rsv l) →
  while_loop (rsv_step mem) n (a, out) = Done (out ++ (rsv_event <$> l)).
Proof.
  intros Hl. revert n a out. induction Hl as [|[x y] l (Hx & Hy & Hz) _ IH]; intros [|n] a out Hf Ha H; try (cbn in Hf; lia); cbn [while_loop];
    (assert (is_aligned a 8 = true) as Ha' by (apply (is_aligned_spec _ 3); [lia|exact Ha])).
  - change (enc_rsv []) with (be_bytes 8 0 ++ be_bytes 8 0 ++ []) in H. apply be64_holds in H as [H1 H]; [|done].
    apply be64_holds in H as [H2 _]; [|done]. unfold rsv_step. rewrite H1, H2, Ha'. cbn. by rewrite app_nil_r.
  - change (enc_rsv ((x, y) :: l)) with (((be_bytes 8 x ++ be_bytes 8 y) ++ mjoin ((λ '(a, n), be_bytes 8 a ++ be_bytes 8 n) <$> l)) ++ replicate 16 0) in H.
    rewrite <-!app_assoc in H. apply be64_holds in H as [H1 H]; [|done]. apply be64_holds in H as [H2 H]; [|done].
    assert (rsv_step mem (a, out) = Done (inl (a + SIZEOF_FdtReserveEntry, out ++ [EEntry x y]))) as ->.
    { unfold rsv_step. rewrite H1, H2, Ha'. by destruct (Z.eqb_spec x 0) as [->|], (Z.eqb_spec y 0) as [->|]. }
    cbn [mbind exec_bind]. cbn [length] in Hf. rewrite IH; [by rewrite <-app_assoc|lia|by apply aligned_add|].
    unfold SIZEOF_FdtReserveEntry. replace (a + 16) with (a + 8 + 8) by lia. exact H.
Qed.

(** The names of a blob end within its strings block. *)
Lemma names_in_short strs tr : names_in pname strs tr → (length strs ≤ fuel)%nat → names_short tr.
Proof.
  intros H Hf. induction tr as [n ps cs IH] using tree_ind'. apply names_in_eq in H as [Hps Hcs]. apply names_short_eq. split.
  - eapply Forall_impl; [exact Hps|]. intros p (_ & _ & rest & Hd). apply (f_equal length) in Hd.
    rewrite length_drop, length_app in Hd. unfold asciz in Hd. rewrite length_app in Hd. cbn [length] in Hd. lia.
  - clear Hps. induction IH as [|c cs Hc _ IH]; [done|]. apply Forall_cons in Hcs as [??]. auto.
Qed.
End proof.

(** [dump] shows the whole blob.  On a blob that encodes a device tree, with room for
    the names and the reservations, it returns and has logged the nodes of the tree in
    depth-first order with their properties and depths, and then the entries of the
    reservation map. *)
Theorem dump_correct (mem : Mem) (pname : Z → list Z) (fuel : nat) (hdr : Z) (d : dtb) :
  mem_ok mem → blob_at pname mem hdr d → Forall rsv_ok (d_rsv d) → (length (d_strs d) + length (d_rsv d) < fuel)%nat →
  dump mem fuel hdr = Done (tree_events pname 0 (d_root d) ++ ERsvmap (hdr_off_mem_rsvmap mem hdr) :: (rsv_event <$> d_rsv d)).
Proof.
  intros Hm Hb Hr Hf. destruct (new_root_at mem pname hdr _ (blob_dtb pname mem hdr d Hb)) as (n & Hn & _ & Hat). unfold dump. rewrite Hn.
  destruct Hat as (Hat & _ & Hok & _). rewrite Forall_singleton in Hok. unfold enc_nodes in Hat. cbn [fmap list_fmap mjoin list_join app enc_props] in Hat.
  rewrite app_nil_r in Hat. pose proof Hat as (_ & Hl & _ & H0 & Hend). rewrite !length_app, !length_word in Hl.
  rewrite (while_loop_runs _ (λ s, tmeasure s.1.1) _ _ (true, tree_events pname 0 (d_root d)));
    [|by apply dump_node_decreases| |apply tok_fuel_measure].
  - cbn [mbind exec_bind negb]. rewrite (rsv_loop mem (d_rsv d)); [by rewrite <-app_assoc|done|lia|apply Hb|apply Hb].
  - destruct (d_root d) as [nm ps cs] eqn:Hroot. eapply (dump_node mem Hm pname fuel nm ps cs);
      [|exact Hok|eapply names_in_short; [rewrite <-Hroot; apply Hb|lia]|lia|lia|exact Hat|reflexivity].
    apply Forall_forall. intros c _. by apply passes_all.
Qed.

(** The blob of the demonstration. *)
Lemma dump_correct_witness :
  dump DtbDemo.mem 200 BUF = Done (tree_events DtbDemo.pname 0 DtbDemo.root ++ [ERsvmap 40]).
Proof.
  apply (dump_correct DtbDemo.mem DtbDemo.pname 200 BUF PatchDemo.d DtbDemo.dtb_mem_bytes PatchDemo.demo_blob); [by apply Forall_nil_2|].
  vm_compute. lia.
Defined.
