(* ===== verification/BootFlow.v ===== *)
(** * Boot parameters and the boot flow ([boot_params.rs], [boot_flow.rs])

    The platform says where the device tree and the ramdisk are; the two platforms of
    the repository ([src/boot_flow/linux.c], [android.c]) are instances.  The blob is
    mapped, read and unmapped again. *)
From S2P Require Import Prelude Addr Mode Arch Mpool Mm MemoryManager Memory Fdt Manifest FdtHandler.

Record Platform := mkPlatform {
  plat_get_fdt_addr : paddr_t;
  plat_get_kernel_arg : Z;
  plat_get_initrd_range : Mem → FdtNode → exec (option (paddr_t * paddr_t));
}.
(** The boot loader leaves the address of the tree in [plat_fdt_addr]. *)
Definition linux (plat_fdt_addr : Z) : Platform :=
  mkPlatform (pa_init plat_fdt_addr) plat_fdt_addr find_initrd.
Definition android (lay : Layout) : Platform :=
  mkPlatform (layout_fdt_begin lay) 0 (λ _ _, Done (Some (layout_initrd_begin lay, layout_initrd_end lay))).

(** [BootParams::init]; the parameters also when it fails. *)
Definition BootParams_init (plat : Platform) (mem : Mem) (fdt_root : FdtNode) (p : BootParams)
    : exec (result unit unit * BootParams) :=
  let p := mkBootParams (cpu_ids p) (cpu_count p) (mem_ranges p) 0 (initrd_begin p) (initrd_end p) (plat_get_kernel_arg plat) in
  r ← plat_get_initrd_range plat mem fdt_root;
  match r with
  | None => Done (Err tt, p)
  | Some (b, e) =>
      let p := mkBootParams (cpu_ids p) (cpu_count p) (mem_ranges p) (mem_ranges_count p) b e (kernel_arg p) in
      '(n, ids) ← find_cpus mem fdt_root (cpu_ids p);
      match n with
      | None => Done (Err tt, mkBootParams ids (cpu_count p) (mem_ranges p) (mem_ranges_count p) b e (kernel_arg p))
      | Some n =>
          let p := mkBootParams ids n (mem_ranges p) (mem_ranges_count p) b e (kernel_arg p) in
          '(ok, p) ← find_memory_ranges mem fdt_root p;
          Done (if ok : bool then Ok tt else Err tt, p)
      end
  end.

Section boot.
Context {A : ArchMM}.

Definition boot_params_patch_fdt (plat : Platform) (mem : Mem) (t : PageTable) (p : BootParamsUpdate) (lay : Layout)
    (st : MmState) : exec (result unit unit * Mem * PageTable * MmState) :=
  patch mem t (plat_get_fdt_addr plat) p lay st.

(** The [try] block: what is read while the blob is mapped. *)
Definition read_boot (plat : Platform) (mem : Mem) (fdt_root : FdtNode) (manifest : Manifest) (params : BootParams)
    : exec (result unit unit * Manifest * BootParams) :=
  '(found, fdt_root) ← find_child mem fdt_root (asciz []);
  if negb found then Done (Err tt, manifest, params)
  else
  '(r, manifest) ← manifest_init mem fdt_root manifest;
  match r with
  | Err _ => Done (Err tt, manifest, params)
  | Ok _ => '(r, params) ← BootParams_init plat mem fdt_root params; Done (r, manifest, params)
  end.

Definition boot_flow_init (plat : Platform) (mem : Mem) (t : PageTable) (manifest : Manifest) (params : BootParams)
    (st : MmState) : exec (result unit unit * Manifest * BootParams * PageTable * MmState) :=
  '(root, t, st) ← fdt_map mem t (plat_get_fdt_addr plat) st;
  match root with
  | None => Done (Err tt, manifest, params, t, st)
  | Some fdt_root =>
      '(ret, manifest, params) ← read_boot plat mem fdt_root manifest params;
      '(ok, t, st) ← fdt_unmap mem t (pa_addr (plat_get_fdt_addr plat)) st;
      Done (if ok : bool then ret else Err tt, manifest, params, t, st)
  end.
End boot.
