(* ===== verification/Abi.v ===== *)
(** * The hypercall ABI ([abi.rs])

    What [hf_vcpu_run] returns to the scheduler, packed in 64 bits by
    [HfVCpuRunReturn::into_raw] and unpacked by the VMs with
    [hf_vcpu_run_return_decode] of [inc/vmapi/hf/abi.h]. *)
From S2P Require Import Prelude Addr.

Inductive HfVCpuRunReturn :=
| Preempted
| Yield
| WaitForInterrupt (ns : Z)
| WaitForMessage (ns : Z)
| WakeUp (vm_id vcpu : Z)
| Message (vm_id : Z)
| NotifyWaiters
| Aborted.

#[export] Instance HfVCpuRunReturn_eq_dec : EqDecision HfVCpuRunReturn.
Proof. solve_decision. Defined.

Definition into_raw (r : HfVCpuRunReturn) : Z :=
  match r with
  | Preempted => 0
  | Yield => 1
  | WaitForInterrupt ns => Z.lor 2 (wshl ns 8)
  | WaitForMessage ns => Z.lor 3 (wshl ns 8)
  | WakeUp vm_id vcpu => Z.lor (Z.lor 4 (wshl vm_id 32)) (wshl vcpu 16)
  | Message vm_id => Z.lor 5 (wshl vm_id 8)
  | NotifyWaiters => 6
  | Aborted => 7
  end.

(** [hf_vcpu_run_return_decode]; the id fields are 16 bits wide.  [None] is a code
    outside of the enumeration. *)
Definition hf_vcpu_run_return_decode (res : Z) : option HfVCpuRunReturn :=
  match Z.land res 0xff with
  | 0 => Some Preempted
  | 1 => Some Yield
  | 2 => Some (WaitForInterrupt (Z.shiftr res 8))
  | 3 => Some (WaitForMessage (Z.shiftr res 8))
  | 4 => Some (WakeUp (wrap 16 (Z.shiftr res 32)) (Z.land (Z.shiftr res 16) 0xffff))
  | 5 => Some (Message (wrap 16 (Z.shiftr res 8)))
  | 6 => Some NotifyWaiters
  | 7 => Some Aborted
  | _ => None
  end.

Inductive HfShare := Give | Lend | Share.
#[export] Instance HfShare_eq_dec : EqDecision HfShare.
Proof. solve_decision. Defined.

(** [TryFrom<usize> for HfShare]. *)
Definition HfShare_try_from (from : Z) : result HfShare unit :=
  match from with 0 => Ok Give | 1 => Ok Lend | 2 => Ok Share | _ => Err tt end.

(** The fields have the types the code gives them. *)
Definition run_return_typed (r : HfVCpuRunReturn) : Prop :=
  match r with
  | WaitForInterrupt ns | WaitForMessage ns => in_u 64 ns
  | WakeUp vm_id vcpu => in_u 16 vm_id ∧ in_u 16 vcpu
  | Message vm_id => in_u 16 vm_id
  | _ => True
  end.
(** A sleep duration keeps its low 56 bits. *)
Definition truncate_ns (r : HfVCpuRunReturn) : HfVCpuRunReturn :=
  match r with
  | WaitForInterrupt ns => WaitForInterrupt (ns mod 2 ^ 56)
  | WaitForMessage ns => WaitForMessage (ns mod 2 ^ 56)
  | _ => r
  end.

(** ** Packing *)
Lemma lor_shift_add c x k : 0 ≤ k → in_u k c → Z.lor c (x * 2 ^ k) = c + x * 2 ^ k.
Proof.
  intros Hk Hc. symmetry. apply add_is_lor. apply Z.bits_inj'. intros n Hn.
  rewrite Z.land_spec, Z.bits_0. destruct (decide (n < k)).
  - by rewrite Z.mul_pow2_bits_low, andb_false_r by lia.
  - by rewrite (testbit_small c k) by (done || lia).
Qed.

Lemma wshl_small x k : 0 ≤ k → 0 ≤ x → x * 2 ^ k < 2 ^ 64 → wshl x k = x * 2 ^ k.
Proof. intros. unfold wshl. rewrite Z.shiftl_mul_pow2 by done. apply wrap_small. split; lia. Qed.

Lemma wshl_8 x : wshl x 8 = x mod 2 ^ 56 * 2 ^ 8.
Proof.
  unfold wshl, wrap. rewrite Z.shiftl_mul_pow2 by lia.
  change (2 ^ 64) with (2 ^ 56 * 2 ^ 8). by rewrite Zmult_mod_distr_r.
Qed.

Lemma land_ff x : Z.land x 0xff = x mod 2 ^ 8.
Proof. apply (land_mask x 8). lia. Qed.

(** A code in the low byte and a field above it. *)
Lemma low_byte c x : in_u 8 c → Z.land (c + x * 2 ^ 8) 0xff = c.
Proof. intros [??]. rewrite land_ff, Z_mod_plus_full. apply Z.mod_small. lia. Qed.
Lemma high_field c x : in_u 8 c → Z.shiftr (c + x * 2 ^ 8) 8 = x.
Proof.
  intros [??]. rewrite Z.shiftr_div_pow2, Z.div_add by lia. rewrite Z.div_small by lia. done.
Qed.

(** The scheduler's view: decoding an encoded return value gives the value
    back, with every id intact and a sleep duration reduced to its low 56 bits;
    the encoding fits in 64 bits. *)
Theorem run_return_roundtrip r :
  run_return_typed r →
  in_u 64 (into_raw r) ∧ hf_vcpu_run_return_decode (into_raw r) = Some (truncate_ns r).
Proof.
  intros Ht. destruct r as [| |ns|ns|v c|v| |]; cbn [into_raw truncate_ns run_return_typed] in *;
    try (split; [split; lia|done]).
  - rewrite wshl_8, lor_shift_add by (done || lia).
    pose proof (Z.mod_pos_bound ns (2 ^ 56) ltac:(lia)).
    split; [split; lia|]. unfold hf_vcpu_run_return_decode. by rewrite low_byte, high_field.
  - rewrite wshl_8, lor_shift_add by (done || lia).
    pose proof (Z.mod_pos_bound ns (2 ^ 56) ltac:(lia)).
    split; [split; lia|]. unfold hf_vcpu_run_return_decode. by rewrite low_byte, high_field.
  - destruct Ht as [[??] [??]]. rewrite !wshl_small by lia.
    rewrite <-Z.lor_assoc, (Z.lor_comm (v * _)).
    replace (v * 2 ^ 32) with (v * 2 ^ 16 * 2 ^ 16) by lia.
    assert (Z.lor (c * 2 ^ 16) (v * 2 ^ 16 * 2 ^ 16) = (c + v * 2 ^ 16) * 2 ^ 16) as ->.
    { rewrite <-!Z.shiftl_mul_pow2, <-Z.shiftl_lor by lia. rewrite !Z.shiftl_mul_pow2 by lia.
      rewrite lor_shift_add by (unfold in_u; lia). done. }
    rewrite lor_shift_add by (unfold in_u; lia).
    assert (Hx : 4 + (c + v * 2 ^ 16) * 2 ^ 16 = 4 + ((c + v * 2 ^ 16) * 2 ^ 8) * 2 ^ 8) by lia.
    split; [split; lia|]. unfold hf_vcpu_run_return_decode. rewrite Hx, low_byte by done. rewrite <-Hx.
    assert (Hd : (4 + (c + v * 2 ^ 16) * 2 ^ 16) / 2 ^ 16 = c + v * 2 ^ 16).
    { rewrite Z.div_add by lia. rewrite Z.div_small by lia. lia. }
    rewrite !Z.shiftr_div_pow2 by lia. change (2 ^ 32) with (2 ^ 16 * 2 ^ 16).
    rewrite <-Z.div_div, Hd by lia. rewrite Z.div_add by lia. rewrite (Z.div_small c) by lia.
    change 0xffff with (2 ^ 16 - 1). rewrite land_mask, Z_mod_plus_full, Z.mod_small by lia.
    by rewrite Z.add_0_l, wrap_small.
  - destruct Ht as [??]. rewrite wshl_small, lor_shift_add by (unfold in_u; lia).
    split; [split; lia|]. unfold hf_vcpu_run_return_decode. rewrite low_byte, high_field by done.
    by rewrite wrap_small.
Qed.

Lemma run_return_roundtrip_witness :
  hf_vcpu_run_return_decode (into_raw (WakeUp 0x1234 0xabcd)) = Some (WakeUp 0x1234 0xabcd).
Proof. apply (run_return_roundtrip (WakeUp 0x1234 0xabcd)). repeat split; lia. Defined.
