(* ===== verification/DList.v ===== *)
(** * The circular doubly linked list ([list.rs])

    The wait and ready lists of the mailboxes are rings of [ListEntry]s, each
    embedded in a [WaitEntry] or a [Mailbox].  The operations below are the
    pointer operations of the code, over a heap of [next] and [prev] fields; the
    refinement theorem states that they implement lists, with an unlinked entry
    being a ring of its own. *)
From stdpp Require Import gmap.
From S2P Require Import Prelude.

(** The [next] and [prev] fields, by the address of the entry. *)
Record links := mkLinks { nexts : gmap Z Z; prevs : gmap Z Z }.

Definition next_of (h : links) (e : Z) : exec Z := unwrap_opt (nexts h !! e).
Definition prev_of (h : links) (e : Z) : exec Z := unwrap_opt (prevs h !! e).
Definition set_next (h : links) (e v : Z) : links := mkLinks (<[e := v]> (nexts h)) (prevs h).
Definition set_prev (h : links) (e v : Z) : links := mkLinks (nexts h) (<[e := v]> (prevs h)).

Definition list_init (h : links) (e : Z) : links := set_prev (set_next h e e) e e.

Definition list_append (h : links) (l e : Z) : exec links :=
  let h := set_next h e l in
  p ← prev_of h l;
  let h := set_prev h e p in
  n ← next_of h e;
  let h := set_prev h n e in
  p ← prev_of h e;
  Done (set_next h p e).

Definition list_prepend (h : links) (l e : Z) : exec links :=
  n ← next_of h l;
  let h := set_next h e n in
  let h := set_prev h e l in
  n ← next_of h e;
  let h := set_prev h n e in
  p ← prev_of h e;
  Done (set_next h p e).

Definition list_empty (h : links) (l : Z) : exec bool := n ← next_of h l; Done (n =? l).

Definition list_remove (h : links) (e : Z) : exec links :=
  p ← prev_of h e;
  n ← next_of h e;
  let h := set_next h p n in
  n ← next_of h e;
  p ← prev_of h e;
  let h := set_prev h n p in
  Done (list_init h e).

Definition list_pop_front (h : links) (l : Z) : exec (Z * links) :=
  result ← next_of h l;
  h' ← list_remove h result;
  Done (result, h').

(** ** Representation *)

(** [a], the entries [xs] and [b] are linked in this order, both ways. *)
Fixpoint dseg (h : links) (a : Z) (xs : list Z) (b : Z) : Prop :=
  match xs with
  | [] => nexts h !! a = Some b ∧ prevs h !! b = Some a
  | x :: xs => nexts h !! a = Some x ∧ prevs h !! x = Some a ∧ dseg h x xs b
  end.
(** The ring with head [l] holds the entries [xs]. *)
Definition ring (h : links) (l : Z) (xs : list Z) : Prop := NoDup (l :: xs) ∧ dseg h l xs l.

Lemma dseg_app h a xs x ys b : dseg h a (xs ++ x :: ys) b ↔ dseg h a xs x ∧ dseg h x ys b.
Proof.
  revert a. induction xs as [|y xs IH]; intros a; cbn; [tauto|]. rewrite IH. tauto.
Qed.

(** A segment depends on the [next] fields of [a :: xs] and the [prev] fields of
    [xs ++ [b]] only. *)
Lemma dseg_frame h h' a xs b :
  (∀ q, q = a ∨ q ∈ xs → nexts h' !! q = nexts h !! q) →
  (∀ q, q = b ∨ q ∈ xs → prevs h' !! q = prevs h !! q) →
  dseg h a xs b → dseg h' a xs b.
Proof.
  revert a. induction xs as [|x xs IH]; intros a Hn Hp; cbn.
  - rewrite Hn, Hp by auto. done.
  - rewrite Hn by auto. rewrite Hp by (right; left). intros (? & ? & Hs). split_and!; [done..|].
    apply IH; [|..|done]; intros q Hq; [apply Hn|apply Hp]; set_solver.
Qed.

(** The last entry of a segment, [a] if it is direct. *)
Fixpoint lastof (a : Z) (xs : list Z) : Z := match xs with [] => a | x :: xs => lastof x xs end.
Definition firstof (b : Z) (xs : list Z) : Z := match xs with [] => b | x :: _ => x end.

Lemma dseg_last h a xs b : dseg h a xs b → prevs h !! b = Some (lastof a xs).
Proof. revert a. induction xs as [|x xs IH]; intros a; cbn; [tauto|]. intros (_ & _ & ?). eauto. Qed.
Lemma dseg_first h a xs b : dseg h a xs b → nexts h !! a = Some (firstof b xs).
Proof. destruct xs; cbn; tauto. Qed.
Lemma lastof_elem a xs : lastof a xs = a ∨ lastof a xs ∈ xs.
Proof.
  revert a. induction xs as [|x xs IH]; intros a; [by left|]. right. cbn.
  destruct (IH x) as [->|?]; [by left|by right].
Qed.

(** Redirecting the end of a segment. *)
Lemma dseg_retarget h h' a xs b b' :
  NoDup (a :: xs) → dseg h a xs b →
  (∀ q, q = a ∨ q ∈ xs → q ≠ lastof a xs → nexts h' !! q = nexts h !! q) →
  (∀ q, q ∈ xs → prevs h' !! q = prevs h !! q) →
  nexts h' !! lastof a xs = Some b' → prevs h' !! b' = Some (lastof a xs) →
  dseg h' a xs b'.
Proof.
  revert a. induction xs as [|x xs IH]; intros a Hnd Hs Hn Hp Hl Hb; cbn in *; [done|].
  destruct Hs as (H1 & H2 & Hs). apply NoDup_cons in Hnd as [Ha Hnd].
  rewrite Hn by (auto; destruct (lastof_elem x xs) as [->|?]; set_solver).
  rewrite Hp by (by left). split_and!; [done..|].
  apply IH; [done..| | |done|done]; intros q Hq; [apply Hn|apply Hp]; set_solver.
Qed.

Lemma list_init_ring h e : ring (list_init h e) e [].
Proof. split; [apply NoDup_singleton|]. cbn. by rewrite !lookup_insert_eq. Qed.

(** The fields of entries outside of [S] are untouched. *)
Definition unchanged (h h' : links) (S : list Z) : Prop :=
  ∀ q, q ∉ S → nexts h' !! q = nexts h !! q ∧ prevs h' !! q = prevs h !! q.

Lemma list_append_ring h l xs e :
  ring h l xs → e ∉ l :: xs →
  ∃ h', list_append h l e = Done h' ∧ ring h' l (xs ++ [e]) ∧ unchanged h h' (e :: l :: xs).
Proof.
  intros [Hnd Hs] He. pose proof (dseg_last _ _ _ _ Hs) as Hlast.
  pose proof (lastof_elem l xs) as Hin. set (p := lastof l xs) in *.
  assert (e ≠ l ∧ e ≠ p ∧ e ∉ xs) as (Hel & Hep & Hex) by set_solver.
  unfold list_append, next_of, prev_of. cbn [nexts prevs set_next set_prev].
  rewrite Hlast. cbn [unwrap_opt mbind exec_bind nexts prevs set_next set_prev].
  rewrite lookup_insert_eq. cbn [unwrap_opt mbind exec_bind nexts prevs set_next set_prev].
  rewrite lookup_insert_ne, lookup_insert_eq by done. cbn [unwrap_opt mbind exec_bind].
  eexists. split; [done|]. split; [split|].
  - rewrite app_comm_cons, NoDup_app. split_and!; [done|set_solver|apply NoDup_singleton].
  - apply dseg_app. split.
    + apply (dseg_retarget h _ l xs l e); [done..| | | |]; cbn [nexts prevs set_next set_prev].
      * intros q Hq Hqp. rewrite !lookup_insert_ne by set_solver. done.
      * intros q Hq. apply NoDup_cons in Hnd as [Hl _]. rewrite !lookup_insert_ne by set_solver. done.
      * by rewrite lookup_insert_eq.
      * by rewrite lookup_insert_ne, lookup_insert_eq by done.
    + cbn. rewrite lookup_insert_ne, !lookup_insert_eq by done. done.
  - intros q Hq. cbn. rewrite !lookup_insert_ne by set_solver. done.
Qed.

Lemma list_prepend_ring h l xs e :
  ring h l xs → e ∉ l :: xs →
  ∃ h', list_prepend h l e = Done h' ∧ ring h' l (e :: xs) ∧ unchanged h h' (e :: l :: xs).
Proof.
  intros [Hnd Hs] He. pose proof (dseg_first _ _ _ _ Hs) as Hf.
  assert (Hfx : firstof l xs = l ∨ firstof l xs ∈ xs) by (destruct xs; [by left|right; by left]).
  set (n := firstof l xs) in *. pose proof Hnd as [Hlx Hnx]%NoDup_cons.
  assert (e ≠ l ∧ e ≠ n ∧ e ∉ xs) as (Hel & Hen & Hex) by set_solver.
  unfold list_prepend, next_of, prev_of. rewrite Hf.
  cbn [unwrap_opt mbind exec_bind nexts prevs set_next set_prev].
  rewrite lookup_insert_eq. cbn [unwrap_opt mbind exec_bind nexts prevs set_next set_prev].
  rewrite lookup_insert_ne, lookup_insert_eq by done. cbn [unwrap_opt mbind exec_bind].
  eexists. split; [done|]. split; [split|].
  - apply NoDup_cons. split; [set_solver|]. by apply NoDup_cons.
  - cbn [dseg nexts prevs set_next set_prev]. rewrite lookup_insert_eq.
    rewrite (lookup_insert_ne _ n e), lookup_insert_eq by done. split_and!; [done..|].
    subst n. destruct xs as [|x xs]; cbn [firstof dseg] in *.
    + cbn [nexts prevs set_next set_prev]. by rewrite lookup_insert_ne, !lookup_insert_eq by done.
    + cbn [nexts prevs set_next set_prev]. rewrite lookup_insert_ne, !lookup_insert_eq by done.
      split_and!; [done..|]. destruct Hs as (_ & _ & Hs). apply NoDup_cons in Hnx as [Hxx Hnx].
      eapply dseg_frame, Hs; intros q Hq; cbn [nexts prevs set_next set_prev];
        rewrite !lookup_insert_ne by set_solver; done.
  - intros q Hq. cbn. rewrite !lookup_insert_ne by set_solver. done.
Qed.

Lemma list_empty_ring h l xs :
  ring h l xs → list_empty h l = Done (bool_decide (xs = [])).
Proof.
  intros [Hnd Hs]. unfold list_empty, next_of. rewrite (dseg_first _ _ _ _ Hs).
  cbn [unwrap_opt mbind exec_bind]. f_equal.
  destruct xs as [|x xs]; cbn [firstof]; [by rewrite Z.eqb_refl|].
  rewrite bool_decide_false by done. apply Z.eqb_neq. intros ->. apply NoDup_cons in Hnd as [Hl _].
  set_solver.
Qed.

Lemma list_remove_ring h l xs ys e :
  ring h l (xs ++ e :: ys) →
  ∃ h', list_remove h e = Done h' ∧ ring h' l (xs ++ ys) ∧ ring h' e [] ∧
        unchanged h h' (l :: xs ++ e :: ys).
Proof.
  intros [Hnd [Hs1 Hs2]%dseg_app]. pose proof (dseg_last _ _ _ _ Hs1) as Hp.
  pose proof (dseg_first _ _ _ _ Hs2) as Hn. pose proof (lastof_elem l xs) as Hpin.
  assert (Hnin : firstof l ys = l ∨ firstof l ys ∈ ys) by (destruct ys; [by left|right; by left]).
  set (p := lastof l xs) in *. set (n := firstof l ys) in *.
  apply NoDup_cons in Hnd as [Hl Hnd]. apply NoDup_app in Hnd as (Hndx & Hdisj & Hnde).
  apply NoDup_cons in Hnde as [Hey Hndy].
  assert (e ≠ l ∧ e ∉ xs ∧ e ≠ p ∧ e ≠ n) as (Hel & Hexs & Hep & Hen) by set_solver.
  unfold list_remove, next_of, prev_of. rewrite Hp, Hn.
  cbn [unwrap_opt mbind exec_bind nexts prevs set_next set_prev].
  rewrite lookup_insert_ne, Hn by done. cbn [unwrap_opt mbind exec_bind]. rewrite Hp.
  cbn [unwrap_opt mbind exec_bind]. eexists. split; [done|]. split; [|split; [apply list_init_ring|]].
  2:{ intros q Hq. cbn. rewrite !lookup_insert_ne by set_solver. done. }
  split. { apply NoDup_cons. split; [set_solver|]. apply NoDup_app. split_and!; [done|set_solver|done]. }
  set (h' := list_init _ e).
  assert (Hnx : ∀ q, q ≠ e → q ≠ p → nexts h' !! q = nexts h !! q).
  { intros q ??. cbn. by rewrite !lookup_insert_ne by done. }
  assert (Hpv : ∀ q, q ≠ e → q ≠ n → prevs h' !! q = prevs h !! q).
  { intros q ??. cbn. by rewrite !lookup_insert_ne by done. }
  assert (Hretarget : dseg h' l xs n).
  { apply (dseg_retarget h h' l xs e n); [by apply NoDup_cons; split; [set_solver|]|done|..].
    - intros q Hq ?. apply Hnx; [set_solver|done].
    - intros q Hq. apply Hpv; [set_solver|]. destruct Hnin as [->|?]; set_solver.
    - cbn. rewrite lookup_insert_ne, lookup_insert_eq by done. done.
    - cbn. rewrite lookup_insert_ne, lookup_insert_eq by done. done. }
  subst n. destruct ys as [|y ys]; cbn [firstof dseg] in *.
  - by rewrite app_nil_r.
  - apply dseg_app. split; [done|]. destruct Hs2 as (_ & _ & Hs2). apply NoDup_cons in Hndy as [Hyy _].
    eapply dseg_frame, Hs2; intros q Hq.
    + apply Hnx; [set_solver|]. destruct Hpin as [->|?]; set_solver.
    + apply Hpv; set_solver.
Qed.

Lemma list_pop_front_ring h l x xs :
  ring h l (x :: xs) →
  ∃ h', list_pop_front h l = Done (x, h') ∧ ring h' l xs ∧ ring h' x [] ∧
        unchanged h h' (l :: x :: xs).
Proof.
  intros Hr. destruct (list_remove_ring h l [] xs x Hr) as (h' & Hrem & ? & ? & ?).
  exists h'. unfold list_pop_front, next_of. destruct Hr as [_ Hs].
  rewrite (dseg_first _ _ _ _ Hs). cbn [firstof unwrap_opt mbind exec_bind]. rewrite Hrem. done.
Qed.

(** ** Refinement *)
Inductive dlist_op := OpAppend (e : Z) | OpPrepend (e : Z) | OpRemove (e : Z) | OpPopFront | OpEmpty.

(** One call on the heap; the answer is the popped entry, or 1/0 for [list_empty]. *)
Definition links_op (h : links) (l : Z) (op : dlist_op) : exec (option Z * links) :=
  match op with
  | OpAppend e => match list_append h l e with Done h' => Done (None, h') | Panic => Panic end
  | OpPrepend e => match list_prepend h l e with Done h' => Done (None, h') | Panic => Panic end
  | OpRemove e => match list_remove h e with Done h' => Done (None, h') | Panic => Panic end
  | OpPopFront => match list_pop_front h l with Done (x, h') => Done (Some x, h') | Panic => Panic end
  | OpEmpty => match list_empty h l with Done b => Done (Some (Z.b2z b), h) | Panic => Panic end
  end.
(** The same call on the list; [None] if the callers may not make it (linking an
    entry twice, removing one that is not linked, popping the empty list). *)
Definition dlist_spec (l : Z) (xs : list Z) (op : dlist_op) : option (option Z * list Z) :=
  match op with
  | OpAppend e => if decide (e ∉ l :: xs) then Some (None, xs ++ [e]) else None
  | OpPrepend e => if decide (e ∉ l :: xs) then Some (None, e :: xs) else None
  | OpRemove e => if decide (e ∈ xs) then Some (None, filter (λ x, x ≠ e) xs) else None
  | OpPopFront => match xs with x :: xs => Some (Some x, xs) | [] => None end
  | OpEmpty => Some (Some (Z.b2z (bool_decide (xs = []))), xs)
  end.

Fixpoint links_run (h : links) (l : Z) (ops : list dlist_op) : exec (list (option Z) * links) :=
  match ops with
  | [] => Done ([], h)
  | op :: ops => '(o, h1) ← links_op h l op; '(os, h2) ← links_run h1 l ops; Done (o :: os, h2)
  end.
Fixpoint dlist_run (l : Z) (xs : list Z) (ops : list dlist_op) : option (list (option Z) * list Z) :=
  match ops with
  | [] => Some ([], xs)
  | op :: ops => '(o, xs1) ← dlist_spec l xs op; '(os, xs2) ← dlist_run l xs1 ops; Some (o :: os, xs2)
  end.

Lemma filter_remove (e : Z) xs ys :
  NoDup (xs ++ e :: ys) → filter (λ x, x ≠ e) (xs ++ e :: ys) = xs ++ ys.
Proof.
  intros (Hx & Hd & Hy)%NoDup_app. apply NoDup_cons in Hy as [Hey Hy].
  assert (Hall : ∀ zs : list Z, e ∉ zs → filter (λ x, x ≠ e) zs = zs).
  { induction zs as [|z zs IH]; [done|]. intros Hz. rewrite filter_cons_True by set_solver.
    rewrite IH by set_solver. done. }
  rewrite filter_app, filter_cons_False by tauto. rewrite !Hall by set_solver. done.
Qed.

Lemma links_op_refines h l xs op o xs' :
  ring h l xs → dlist_spec l xs op = Some (o, xs') →
  ∃ h', links_op h l op = Done (o, h') ∧ ring h' l xs'.
Proof.
  intros Hr. destruct op as [e|e|e| |]; cbn [dlist_spec links_op].
  - case_decide as Hd; [|done]. intros [= <- <-].
    destruct (list_append_ring h l xs e Hr Hd) as (h' & -> & ? & _). eauto.
  - case_decide as Hd; [|done]. intros [= <- <-].
    destruct (list_prepend_ring h l xs e Hr Hd) as (h' & -> & ? & _). eauto.
  - case_decide as Hd; [|done]. intros [= <- <-].
    apply list_elem_of_split in Hd as (ys & zs & ->).
    destruct (list_remove_ring h l ys zs e Hr) as (h' & -> & ? & _).
    rewrite filter_remove by by destruct Hr as [[_ ?]%NoDup_cons _]. eauto.
  - destruct xs as [|x xs]; [done|]. intros [= <- <-].
    destruct (list_pop_front_ring h l x xs Hr) as (h' & -> & ? & _). eauto.
  - intros [= <- <-]. rewrite (list_empty_ring h l xs Hr). eauto.
Qed.

(** The pointer operations of [list.rs] implement lists: from a freshly
    initialised head, any allowed sequence of [list_append], [list_prepend],
    [list_remove], [list_pop_front] and [list_empty] calls returns without
    following a dangling pointer, answers what the same calls answer on the list
    of linked entries, and leaves a well-formed ring. *)
Theorem dlist_refines_list h l ops outs xs :
  dlist_run l [] ops = Some (outs, xs) →
  ∃ h', links_run (list_init h l) l ops = Done (outs, h') ∧ ring h' l xs.
Proof.
  assert (Hgen : ∀ h xs0 outs xs, ring h l xs0 → dlist_run l xs0 ops = Some (outs, xs) →
    ∃ h', links_run h l ops = Done (outs, h') ∧ ring h' l xs).
  { clear. induction ops as [|op ops IH]; intros h xs0 outs xs Hr Hrun; cbn [dlist_run links_run] in *.
    { simplify_eq. by exists h. }
    apply bind_Some in Hrun as ([o l1] & Hop & Hrun). apply bind_Some in Hrun as ([os l2] & Hrun & H).
    injection H as <- <-. destruct (links_op_refines h l xs0 op o l1 Hr Hop) as (h1 & -> & Hr1).
    cbn [mbind exec_bind]. destruct (IH h1 l1 os l2 Hr1 Hrun) as (h2 & -> & Hr2). by exists h2. }
  intros Hrun. eapply Hgen; [apply list_init_ring|done].
Qed.

Lemma dlist_refines_list_witness :
  ∃ h', links_run (list_init (mkLinks ∅ ∅) 8) 8
          [OpAppend 16; OpAppend 24; OpPrepend 32; OpRemove 16; OpPopFront; OpEmpty]
        = Done ([None; None; None; None; Some 32; Some 0], h') ∧ ring h' 8 [24].
Proof. apply dlist_refines_list. vm_compute. reflexivity. Defined.
