(* ===== verification/Spinlock.v ===== *)
(** * Spin locks ([spinlock.rs])

    Physical CPUs run lock programs concurrently; each atomic access to the lock
    word is one step of an interleaving.  A lock word is a boolean; the set
    [locked] holds the addresses of the words that are [true].  The theorems:
    mutual exclusion, and freedom from deadlock for CPUs that acquire locks in
    ascending address order, which [lock_both] establishes for two locks. *)
From stdpp Require Import gmap.
From S2P Require Import Prelude.

(** What one CPU does with locks; a [try_lock] branches on its result. *)
Inductive lprog :=
| PDone
| PLock (a : Z) (p : lprog)
| PTryLock (a : Z) (ok fail : lprog)
| PUnlock (a : Z) (p : lprog).

(** [RawSpinLock::lock_both] before [p]: the lower address first. *)
Definition lock_both (lhs rhs : Z) (p : lprog) : lprog :=
  if lhs <? rhs then PLock lhs (PLock rhs p) else PLock rhs (PLock lhs p).

(** A CPU: its remaining program and the guards it holds. *)
Record thread := mkThread { prog : lprog; held : list Z }.
Record lstate := mkLstate { locked : gset Z; threads : list thread }.

(** [compare_exchange(false, true)] of [lock], when it succeeds; a failing one
    changes nothing and is retried. *)
Definition cas_lock (w : gset Z) (a : Z) : option (gset Z) :=
  if decide (a ∈ w) then None else Some ({[a]} ∪ w).
(** [swap(true)] of [try_lock]: the result and the new words. *)
Definition swap_lock (w : gset Z) (a : Z) : bool * gset Z :=
  (negb (bool_decide (a ∈ w)), {[a]} ∪ w).
(** [store(false)] of [unlock]. *)
Definition store_unlock (w : gset Z) (a : Z) : gset Z := w ∖ {[a]}.

Definition remove_one (a : Z) (l : list Z) : list Z := filter (λ x, x ≠ a) l.

(** One atomic step of one CPU. *)
Definition thread_step (w : gset Z) (t : thread) : option (gset Z * thread) :=
  match prog t with
  | PDone => None
  | PLock a p => w' ← cas_lock w a; Some (w', mkThread p (a :: held t))
  | PTryLock a ok fail =>
      let '(b, w') := swap_lock w a in
      Some (w', if b : bool then mkThread ok (a :: held t) else mkThread fail (held t))
  | PUnlock a p => Some (store_unlock w a, mkThread p (remove_one a (held t)))
  end.

Inductive lstep : lstate → lstate → Prop :=
| lstep_intro w ts i t w' t' :
    ts !! i = Some t → thread_step w t = Some (w', t') →
    lstep (mkLstate w ts) (mkLstate w' (<[i := t']> ts)).

(** Guards are dropped only by their holder, and by the end of the program. *)
Fixpoint scoped (h : list Z) (p : lprog) : Prop :=
  match p with
  | PDone => h = []
  | PLock a p => scoped (a :: h) p
  | PTryLock a ok fail => scoped (a :: h) ok ∧ scoped h fail
  | PUnlock a p => a ∈ h ∧ scoped (remove_one a h) p
  end.
(** Blocking acquisitions are in ascending address order. *)
Fixpoint ordered (h : list Z) (p : lprog) : Prop :=
  match p with
  | PDone => True
  | PLock a p => Forall (λ x, x < a) h ∧ ordered (a :: h) p
  | PTryLock a ok fail => ordered (a :: h) ok ∧ ordered h fail
  | PUnlock a p => ordered (remove_one a h) p
  end.

Definition all_held (ts : list thread) : list Z := mjoin (held <$> ts).

(** Each lock word that is set is held once, and guards are scoped. *)
Definition lock_inv (s : lstate) : Prop :=
  NoDup (all_held (threads s)) ∧ (∀ a, a ∈ locked s ↔ a ∈ all_held (threads s)) ∧
  Forall (λ t, scoped (held t) (prog t)) (threads s).

Lemma all_held_insert ts i t t' :
  ts !! i = Some t →
  ∃ rest, all_held ts ≡ₚ held t ++ rest ∧ all_held (<[i := t']> ts) ≡ₚ held t' ++ rest.
Proof.
  intros Hi. exists (all_held (take i ts) ++ all_held (drop (S i) ts)). unfold all_held. split.
  - transitivity (mjoin (held <$> (take i ts ++ t :: drop (S i) ts))).
    { by rewrite (take_drop_middle ts i t Hi). }
    rewrite fmap_app, join_app, fmap_cons. cbn. rewrite !app_assoc.
    by rewrite (Permutation_app_comm (mjoin _) (held t)).
  - rewrite insert_take_drop by (by eapply lookup_lt_Some).
    rewrite fmap_app, join_app, fmap_cons. cbn. rewrite !app_assoc.
    by rewrite (Permutation_app_comm (mjoin _) (held t')).
Qed.

Lemma remove_one_perm a l : NoDup l → a ∈ l → l ≡ₚ a :: remove_one a l.
Proof.
  intros Hnd Hin. apply NoDup_Permutation; [done|..].
  - apply NoDup_cons. unfold remove_one. split; [|by apply NoDup_filter].
    rewrite list_elem_of_filter. tauto.
  - intros x. unfold remove_one. rewrite elem_of_cons, list_elem_of_filter.
    destruct (decide (x = a)) as [->|]; tauto.
Qed.

Lemma lstep_inv s s' : lstep s s' → lock_inv s → lock_inv s'.
Proof.
  intros [w ts i t w' t' Hi Hstep] (Hnd & Hw & Hsc). cbn [locked threads] in *.
  destruct (all_held_insert ts i t t' Hi) as (rest & Hold & Hnew).
  assert (Hst : scoped (held t) (prog t)) by (eapply Forall_lookup_1 in Hsc; [|done]; done).
  assert (Hgoal : NoDup (held t' ++ rest) ∧ (∀ a, a ∈ w' ↔ a ∈ held t' ++ rest) ∧
                  scoped (held t') (prog t')).
  { rewrite Hold in Hnd. assert (Hw0 : ∀ a, a ∈ w ↔ a ∈ held t ++ rest).
    { intros a. rewrite Hw. by rewrite Hold. }
    clear Hw Hnew Hold Hsc Hi. unfold thread_step in Hstep. destruct t as [p h]. cbn [prog held] in *.
    destruct p as [|a p|a ok fail|a p]; cbn [scoped] in Hst; [done|..].
    - unfold cas_lock in Hstep. case_decide as Hd; [done|]. cbn in Hstep. injection Hstep as <- <-.
      cbn. rewrite NoDup_cons. rewrite Hw0 in Hd. split_and!; [done..| |done]. set_solver.
    - unfold swap_lock in Hstep. injection Hstep as <- <-. destruct Hst as [Hok Hfail].
      case_bool_decide as Hd; cbn.
      + split_and!; [done| |done]. set_solver.
      + rewrite NoDup_cons. rewrite Hw0 in Hd. split_and!; [done..| |done]. set_solver.
    - injection Hstep as <- <-. destruct Hst as [Hin Hst]. cbn.
      pose proof Hnd as (Hh & Hdis & Hr)%NoDup_app. pose proof (remove_one_perm a h Hh Hin) as Hperm.
      rewrite Hperm in Hnd. cbn in Hnd. apply NoDup_cons in Hnd as [Ha Hnd].
      split_and!; [done| |done]. intros x. unfold store_unlock.
      assert (Hx : x ∈ h ↔ x = a ∨ x ∈ remove_one a h) by (rewrite <-elem_of_cons; by rewrite <-Hperm).
      rewrite elem_of_difference, elem_of_singleton, Hw0, !elem_of_app, Hx.
      rewrite elem_of_app in Ha. destruct (decide (x = a)) as [->|]; tauto. }
  destruct Hgoal as (H1 & H2 & H3). split_and!.
  - by rewrite Hnew.
  - intros a. rewrite H2. by rewrite Hnew.
  - apply Forall_insert; done.
Qed.

(** The system before any CPU has taken a lock. *)
Definition lstart (ps : list lprog) : lstate := mkLstate ∅ ((λ p, mkThread p []) <$> ps).

Lemma all_held_start ps : all_held ((λ p, mkThread p []) <$> ps) = [].
Proof. unfold all_held. induction ps as [|p ps IH]; [done|]. exact IH. Qed.

Lemma lstart_inv ps : Forall (scoped []) ps → lock_inv (lstart ps).
Proof.
  intros Hs. split_and!; cbn [lstart locked threads].
  - rewrite all_held_start. constructor.
  - intros a. rewrite all_held_start. set_solver.
  - apply Forall_fmap. eapply Forall_impl; [done|]. done.
Qed.

Lemma lreach_inv ps s : Forall (scoped []) ps → rtc lstep (lstart ps) s → lock_inv s.
Proof.
  intros Hs Hrun. refine (rtc_ind_r lock_inv (lstart ps) (lstart_inv ps Hs) _ s Hrun).
  eauto using lstep_inv.
Qed.

Lemma all_held_elem ts a : a ∈ all_held ts ↔ ∃ i t, ts !! i = Some t ∧ a ∈ held t.
Proof.
  unfold all_held. rewrite list_elem_of_join. split.
  - intros (l & Ha & (t & -> & Ht)%list_elem_of_fmap). apply list_elem_of_lookup_1 in Ht as [i Hi]. eauto.
  - intros (i & t & Hi & Ha). exists (held t). split; [done|]. apply list_elem_of_fmap. exists t. split; [done|]. by eapply list_elem_of_lookup_2.
Qed.

(** C33: mutual exclusion: in every interleaving of CPUs that release what they hold
    and nothing else, two different CPUs never hold the same lock, and a lock word is
    set exactly when some CPU holds the lock. *)
Theorem spinlock_mutual_exclusion ps s :
  Forall (scoped []) ps → rtc lstep (lstart ps) s →
  (∀ i j ti tj a, threads s !! i = Some ti → threads s !! j = Some tj → a ∈ held ti → a ∈ held tj → i = j) ∧
  (∀ a, a ∈ locked s ↔ ∃ i t, threads s !! i = Some t ∧ a ∈ held t).
Proof.
  intros Hs Hrun. destruct (lreach_inv ps s Hs Hrun) as (Hnd & Hw & _). split; [|intros a; by rewrite Hw, all_held_elem].
  intros i j ti tj a Hi Hj Hai Haj. destruct (decide (i = j)) as [|Hne]; [done|]. exfalso.
  destruct (all_held_insert (threads s) i ti (mkThread PDone []) Hi) as (rest & Hold & Hnew).
  assert (Hin : a ∈ rest).
  { assert (a ∈ all_held (<[i := mkThread PDone []]> (threads s))) as Hin.
    { apply all_held_elem. exists j, tj. by rewrite list_lookup_insert_ne. }
    rewrite Hnew in Hin. exact Hin. }
  rewrite Hold in Hnd. apply NoDup_app in Hnd as (_ & Hdis & _). by eapply Hdis.
Qed.

(** ** Deadlock freedom *)
Definition all_ordered (s : lstate) : Prop := Forall (λ t, ordered (held t) (prog t)) (threads s).

Lemma lstep_ordered s s' : lstep s s' → all_ordered s → all_ordered s'.
Proof.
  intros [w ts i t w' t' Hi Hstep] Ho. unfold all_ordered in *. cbn [threads] in *.
  apply Forall_insert; [done|]. eapply Forall_lookup_1 in Ho; [|done].
  destruct t as [p h]. unfold thread_step in Hstep. cbn [prog held] in *.
  destruct p as [|a p|a ok fail|a p]; cbn [ordered] in Ho; [done|..].
  - apply bind_Some in Hstep as (w1 & _ & [= <- <-]). apply Ho.
  - unfold swap_lock in Hstep. injection Hstep as <- <-. destruct Ho. by case_bool_decide.
  - by injection Hstep as <- <-.
Qed.

(** The lock a CPU is about to take with [lock]. *)
Definition waits (t : thread) : option Z := match prog t with PLock a _ => Some a | _ => None end.

(** If every unfinished CPU is blocked, the holder of the lock one waits for waits
    for a higher lock. *)
Lemma blocked_chain s i t a :
  lock_inv s → all_ordered s →
  (∀ t, t ∈ threads s → prog t = PDone ∨ ∃ b, waits t = Some b ∧ b ∈ locked s) →
  threads s !! i = Some t → waits t = Some a →
  ∃ j t' b, threads s !! j = Some t' ∧ waits t' = Some b ∧ a < b.
Proof.
  intros (_ & Hw & Hsc) Ho Hall Hi Ha.
  assert (Hal : a ∈ locked s).
  { destruct (Hall t) as [Hd|(b & Hb & Hbl)]; [by eapply list_elem_of_lookup_2|..].
    - unfold waits in Ha. by rewrite Hd in Ha.
    - congruence. }
  apply Hw in Hal. unfold all_held in Hal.
  apply list_elem_of_join in Hal as (h & Hah & (t' & -> & Ht')%list_elem_of_fmap).
  apply list_elem_of_lookup in Ht' as [j Hj]. exists j, t'.
  destruct (Hall t') as [Hd|(b & Hb & Hbl)]; [by eapply list_elem_of_lookup_2|..].
  - eapply Forall_lookup_1 in Hsc; [|done]. rewrite Hd in Hsc. cbn in Hsc. rewrite Hsc in Hah.
    by apply elem_of_nil in Hah.
  - exists b. split_and!; [done..|]. unfold all_ordered in Ho. eapply Forall_lookup_1 in Ho; [|done].
    unfold waits in Hb. destruct (prog t') as [|c p| |]; try done. injection Hb as ->.
    destruct Ho as [Hlt _]. rewrite Forall_forall in Hlt. by apply Hlt.
Qed.

Lemma no_ascending_chain (ts : list thread) :
  (∀ i t a, ts !! i = Some t → waits t = Some a →
     ∃ j t' b, ts !! j = Some t' ∧ waits t' = Some b ∧ a < b) →
  ∀ t a, t ∈ ts → waits t = Some a → False.
Proof.
  intros Hchain.
  assert (Hmax : ∀ l : list thread, (∀ t a, t ∈ l → waits t = Some a → False) ∨
    ∃ t a, t ∈ l ∧ waits t = Some a ∧ ∀ t' b, t' ∈ l → waits t' = Some b → b ≤ a).
  { induction l as [|t l IH]; [left; intros ?? []%elem_of_nil|].
    destruct (waits t) as [a|] eqn:Ha.
    - right. destruct IH as [Hnone|(t' & b & Hin & Hb & Hle)].
      + exists t, a. split_and!; [by left|done|]. intros t' b [->|Hin]%elem_of_cons Hb; [simplify_eq; lia|].
        by destruct (Hnone t' b).
      + destruct (decide (a ≤ b)).
        * exists t', b. split_and!; [by right|done|]. intros t2 c [->|Hin2]%elem_of_cons Hc;
            [simplify_eq; lia|eauto].
        * exists t, a. split_and!; [by left|done|]. intros t2 c [->|Hin2]%elem_of_cons Hc;
            [simplify_eq; lia|]. pose proof (Hle t2 c Hin2 Hc). lia.
    - destruct IH as [Hnone|(t' & b & Hin & Hb & Hle)].
      + left. intros t' c [->|Hin]%elem_of_cons Hc; [congruence|eauto].
      + right. exists t', b. split_and!; [by right|done|].
        intros t2 c [->|Hin2]%elem_of_cons Hc; [congruence|eauto]. }
  destruct (Hmax ts) as [?|(t & a & (i & Hi)%list_elem_of_lookup & Ha & Hle)]; [done|].
  destruct (Hchain i t a Hi Ha) as (j & t' & b & Hj & Hb & Hlt).
  pose proof (Hle t' b ltac:(by eapply list_elem_of_lookup_2) Hb). lia.
Qed.

(** A state in which no CPU can step has no unfinished CPU. *)
Lemma ordered_progress s :
  lock_inv s → all_ordered s → (∃ t, t ∈ threads s ∧ prog t ≠ PDone) → ∃ s', lstep s s'.
Proof.
  intros Hinv Hord (t & Ht & Hnd).
  destruct (decide (Exists (λ t, is_Some (thread_step (locked s) t)) (threads s))) as [Hex|Hno].
  { apply Exists_exists in Hex as (t1 & (i & Hi)%list_elem_of_lookup & [[w' t'] Hstep]).
    destruct s as [w ts]. exists (mkLstate w' (<[i := t']> ts)). by econstructor. }
  exfalso.
  assert (Hall : ∀ t, t ∈ threads s → prog t = PDone ∨ ∃ b, waits t = Some b ∧ b ∈ locked s).
  { intros t1 Ht1. destruct (thread_step (locked s) t1) eqn:Est.
    { destruct Hno. apply Exists_exists. exists t1. by rewrite Est. }
    unfold thread_step, waits in *. destruct (prog t1) as [|b p|b ok fail|b p]; [by left|right|done|done].
    exists b. split; [done|]. unfold cas_lock in Est. case_decide; [done|]. done. }
  destruct (Hall t Ht) as [?|(a & Ha & _)]; [done|].
  eapply (no_ascending_chain (threads s)); [|done..]. intros i t1 a1 Hi Ha1. by eapply blocked_chain.
Qed.

Lemma lreach_ordered ps s : Forall (ordered []) ps → rtc lstep (lstart ps) s → all_ordered s.
Proof.
  intros Ho Hrun. refine (rtc_ind_r all_ordered (lstart ps) _ _ s Hrun); [|eauto using lstep_ordered].
  apply Forall_fmap. eapply Forall_impl; [exact Ho|]. done.
Qed.

(** CPUs that take locks in ascending address order never deadlock: as long
    as one has not finished, some CPU can take a step other than spinning. *)
Theorem spinlock_no_deadlock ps s :
  Forall (scoped []) ps → Forall (ordered []) ps → rtc lstep (lstart ps) s →
  (∃ t, t ∈ threads s ∧ prog t ≠ PDone) → ∃ s', lstep s s'.
Proof. eauto using ordered_progress, lreach_inv, lreach_ordered. Qed.

(** [lock_both] takes two different locks in ascending order, whichever way its
    arguments are given, so it may be used in an ordered program. *)
Lemma lock_both_ordered lhs rhs h p :
  lhs ≠ rhs → Forall (λ x, x < Z.min lhs rhs) h →
  ordered (Z.max lhs rhs :: Z.min lhs rhs :: h) p → ordered h (lock_both lhs rhs p).
Proof.
  intros Hne Hh Hp. unfold lock_both. destruct (Z.ltb_spec lhs rhs); cbn [ordered].
  - rewrite Z.min_l, Z.max_r in * by lia. split_and!; [done| |done]. constructor; [lia|].
    eapply Forall_impl; [done|]. cbn. lia.
  - rewrite Z.min_r, Z.max_l in * by lia. split_and!; [done| |done]. constructor; [lia|].
    eapply Forall_impl; [done|]. cbn. lia.
Qed.

(** A critical section on two locks: both are taken with [lock_both] and the
    guards are dropped in the given order. *)
Definition pair_section (x y : Z) : lprog := lock_both x y (PUnlock x (PUnlock y PDone)).

Lemma pair_section_scoped x y : x ≠ y → scoped [] (pair_section x y).
Proof.
  intros Hne. unfold pair_section, lock_both. destruct (x <? y); cbn [scoped]; unfold remove_one;
    repeat (rewrite filter_cons; case_decide; try congruence); set_solver.
Qed.
Lemma pair_section_ordered x y : x ≠ y → ordered [] (pair_section x y).
Proof. intros Hne. apply lock_both_ordered; [done|constructor|done]. Qed.

(** C34: any number of CPUs that each call [lock_both] on two different locks, in
    any argument order, cannot deadlock, and no two of them are ever in the
    critical section of the same lock. *)
Theorem lock_both_no_deadlock (pairs : list (Z * Z)) s :
  Forall (λ '(x, y), x ≠ y) pairs →
  rtc lstep (lstart ((λ '(x, y), pair_section x y) <$> pairs)) s →
  lock_inv s ∧ ((∃ t, t ∈ threads s ∧ prog t ≠ PDone) → ∃ s', lstep s s').
Proof.
  intros Hne Hrun.
  assert (Hsc : Forall (scoped []) ((λ '(x, y), pair_section x y) <$> pairs)).
  { apply Forall_fmap. eapply Forall_impl; [exact Hne|]. intros [x y] H. by apply pair_section_scoped. }
  assert (Hor : Forall (ordered []) ((λ '(x, y), pair_section x y) <$> pairs)).
  { apply Forall_fmap. eapply Forall_impl; [exact Hne|]. intros [x y] H. by apply pair_section_ordered. }
  pose proof (lreach_inv _ _ Hsc Hrun). pose proof (lreach_ordered _ _ Hor Hrun).
  eauto using ordered_progress.
Qed.

(** ** Witnesses *)
Definition demo_progs : list lprog := [pair_section 64 128; pair_section 128 64].
Definition demo_state : lstate :=
  mkLstate {[64]} [mkThread (PLock 128 (PUnlock 64 (PUnlock 128 PDone))) [64];
                   mkThread (PLock 64 (PLock 128 (PUnlock 128 (PUnlock 64 PDone)))) []].

Lemma demo_reach : rtc lstep (lstart demo_progs) demo_state.
Proof.
  apply rtc_once. unfold lstart, demo_progs, demo_state.
  replace (mkLstate {[64]} _) with (mkLstate ({[64]} ∪ ∅)
    (<[0%nat := mkThread (PLock 128 (PUnlock 64 (PUnlock 128 PDone))) [64]]>
       ((λ p, mkThread p []) <$> [pair_section 64 128; pair_section 128 64]))) by (f_equal; set_solver).
  by econstructor.
Qed.

Lemma spinlock_mutual_exclusion_witness : 64 ∈ locked demo_state ∧ 128 ∉ locked demo_state.
Proof.
  destruct (spinlock_mutual_exclusion demo_progs demo_state) as [_ H].
  - repeat constructor; by apply pair_section_scoped.
  - exact demo_reach.
  - split; rewrite H.
    + exists 0%nat, (mkThread (PLock 128 (PUnlock 64 (PUnlock 128 PDone))) [64]). split; [done|by left].
    + intros ([|[|i]] & t & Ht & Hin); [injection Ht as <-; cbn in Hin; set_solver..|done].
Defined.
Lemma spinlock_no_deadlock_witness : ∃ s', lstep demo_state s'.
Proof.
  refine (spinlock_no_deadlock demo_progs demo_state _ _ demo_reach _).
  - repeat constructor; by apply pair_section_scoped.
  - repeat constructor; by apply pair_section_ordered.
  - eexists. split; [by left|]. done.
Defined.
Lemma lock_both_no_deadlock_witness : lock_inv demo_state.
Proof.
  refine (proj1 (lock_both_no_deadlock [(64, 128); (128, 64)] demo_state _ demo_reach)).
  repeat constructor; done.
Defined.
