(* ===== verification/ArchCpu.v ===== *)
(** * Register state and timers ([arch/aarch64.rs], [src/arch/aarch64/cpu.c], [timer.c])

    The register file of a vCPU, the functions that initialise it, and the
    virtual timer.  The hardware registers the functions read are in [Hw]; the
    virtual counter is an argument of each read, since time passes between two
    reads.  The memory layout is the one of the C code ([struct arch_regs], built
    for a GICv3), which the Rust code passes around by pointer. *)
From S2P Require Import Prelude Addr.

Definition FLOAT_REG_BYTES : Z := 16.
Record float_reg := mkFloat { low : Z; high : Z }.

Record ArchSysRegs := mkSysRegs {
  vmpidr_el2 : Z; csselr_el1 : Z; sctlr_el1 : Z; actlr_el1 : Z; cpacr_el1 : Z;
  ttbr0_el1 : Z; ttbr1_el1 : Z; tcr_el1 : Z; esr_el1 : Z; afsr0_el1 : Z; afsr1_el1 : Z;
  far_el1 : Z; mair_el1 : Z; vbar_el1 : Z; contextidr_el1 : Z; tpidr_el0 : Z;
  tpidrro_el0 : Z; tpidr_el1 : Z; amair_el1 : Z; cntkctl_el1 : Z; sp_el0 : Z; sp_el1 : Z;
  elr_el1 : Z; spsr_el1 : Z; par_el1 : Z; hcr_el2 : Z; cptr_el2 : Z; cnthctl_el2 : Z;
  vttbr_el2 : Z; mdcr_el2 : Z; mdscr_el1 : Z;
}.
Record ArchPeriRegs := mkPeri { cntv_cval_el0 : Z; cntv_ctl_el0 : Z }.
Record ArchRegs := mkRegs {
  r : list Z;
  pc : Z;
  spsr : Z;
  lazy : ArchSysRegs;
  fp : list float_reg;
  fpsr : Z;
  fpcr : Z;
  gic_ich_hcr_el2 : Z;
  gic_icc_sre_el2 : Z;
  peripherals : ArchPeriRegs;
}.

(** All registers zero: [ArchRegs::default()], and [memset_s] of [arch_regs_reset]. *)
Definition sys_default : ArchSysRegs :=
  mkSysRegs 0 0 0 0 0 0 0 0 0 0 0 0 0 0 0 0 0 0 0 0 0 0 0 0 0 0 0 0 0 0 0.
Definition regs_default : ArchRegs :=
  mkRegs (replicate 31 0) 0 0 sys_default (replicate 32 (mkFloat 0 0)) 0 0 0 0 (mkPeri 0 0).

(** Argument and return value register. *)
Definition r0 (regs : ArchRegs) : Z := nth 0 (r regs) 0.

(** [arch_regs_set_pc_arg] and [arch_regs_set_retval]. *)
Definition set_retval (regs : ArchRegs) (v : Z) : ArchRegs :=
  mkRegs (<[0%nat := v]> (r regs)) (pc regs) (spsr regs) (lazy regs) (fp regs) (fpsr regs)
    (fpcr regs) (gic_ich_hcr_el2 regs) (gic_icc_sre_el2 regs) (peripherals regs).
Definition set_pc_arg (regs : ArchRegs) (entry : ipaddr_t) (arg : Z) : ArchRegs :=
  mkRegs (<[0%nat := arg]> (r regs)) (ipa_addr entry) (spsr regs) (lazy regs) (fp regs)
    (fpsr regs) (fpcr regs) (gic_ich_hcr_el2 regs) (gic_icc_sre_el2 regs) (peripherals regs).

(** ** Hardware registers of the physical CPU *)
Record Hw := mkHw {
  hw_mdcr_el2 : Z;
  hw_pmcr_el0 : Z;
  hw_cntfrq_el0 : Z;
  (** The timer registers of the vCPU that is running. *)
  hw_cntv_ctl_el0 : Z;
  hw_cntv_cval_el0 : Z;
}.

(** [get_mdcr_el2_value] of [debug_el1.c]. *)
Definition get_mdcr_el2_value (hw : Hw) (vm_id : Z) : Z :=
  let v := Z.land (hw_mdcr_el2 hw) (Z.shiftl 0x3 12) in
  let v := Z.lor v (Z.land (Z.shiftr (Z.land 0xf800 (hw_pmcr_el0 hw)) 11) 0x1f) in
  let v := Z.lor v (Z.lor (Z.lor (Z.lor (Z.shiftl 1 19) (Z.shiftl 1 11)) (Z.shiftl 1 10)) (Z.shiftl 1 9)) in
  if negb (vm_id =? HF_PRIMARY_VM_ID) then Z.lor v (Z.shiftl 1 8) else v.

(** [arch_regs_reset], with [gic_regs_reset]. *)
Definition arch_regs_reset (hw : Hw) (regs : ArchRegs) (is_primary : bool) (vm_id vcpu_id : Z)
    (table : paddr_t) : ArchRegs :=
  let hcr0 := Z.lor (Z.lor (Z.lor (Z.lor (Z.lor (Z.shiftl 1 31) (Z.shiftl 1 21)) (Z.shiftl 1 19))
                (Z.shiftl 1 20)) (Z.shiftl 1 2)) (Z.shiftl 1 0) in
  let hcr := if is_primary then hcr0
             else Z.lor hcr0 (Z.lor (Z.lor (Z.lor (Z.shiftl 7 3) (Z.shiftl 1 9)) (Z.shiftl 1 10))
                               (Z.shiftl 3 13)) in
  let cnthctl := if is_primary then Z.lor (Z.shiftl 1 0) (Z.shiftl 1 1) else 0 in
  let icc_sre0 := Z.lor (Z.shiftl 1 0) (Z.shiftl 0x3 1) in
  {| r := r0 regs :: replicate 30 0;
     pc := pc regs;
     spsr := Z.lor 5 (Z.shiftl 0xf 6);
     lazy := {|
       vmpidr_el2 := vcpu_id; csselr_el1 := 0; sctlr_el1 := 0; actlr_el1 := 0; cpacr_el1 := 0;
       ttbr0_el1 := 0; ttbr1_el1 := 0; tcr_el1 := 0; esr_el1 := 0; afsr0_el1 := 0;
       afsr1_el1 := 0; far_el1 := 0; mair_el1 := 0; vbar_el1 := 0; contextidr_el1 := 0;
       tpidr_el0 := 0; tpidrro_el0 := 0; tpidr_el1 := 0; amair_el1 := 0; cntkctl_el1 := 0;
       sp_el0 := 0; sp_el1 := 0; elr_el1 := 0; spsr_el1 := 0; par_el1 := 0;
       hcr_el2 := hcr; cptr_el2 := 0; cnthctl_el2 := cnthctl;
       vttbr_el2 := Z.lor (pa_addr table) (wshl vm_id 48);
       mdcr_el2 := get_mdcr_el2_value hw vm_id;
       mdscr_el1 := 0 |};
     fp := replicate 32 (mkFloat 0 0);
     fpsr := 0;
     fpcr := 0;
     gic_ich_hcr_el2 := if is_primary then 0 else Z.shiftl 0x1f 10;
     gic_icc_sre_el2 := if is_primary then Z.lor icc_sre0 (Z.shiftl 1 3) else icc_sre0;
     peripherals := mkPeri 0 0 |}.

(** ** Virtual timer ([timer.c]) *)
Definition CNTV_CTL_EL0_ENABLE : Z := Z.shiftl 1 0.
Definition CNTV_CTL_EL0_IMASK : Z := Z.shiftl 1 1.
Definition CNTV_CTL_EL0_ISTATUS : Z := Z.shiftl 1 2.
Definition NANOS_PER_UNIT : Z := 1000000000.

Definition arch_timer_mask (regs : ArchRegs) : ArchRegs :=
  let p := peripherals regs in
  mkRegs (r regs) (pc regs) (spsr regs) (lazy regs) (fp regs) (fpsr regs) (fpcr regs)
    (gic_ich_hcr_el2 regs) (gic_icc_sre_el2 regs)
    (mkPeri (cntv_cval_el0 p) (Z.lor (cntv_ctl_el0 p) CNTV_CTL_EL0_IMASK)).

Definition ctl_enabled (ctl : Z) : bool :=
  negb (Z.land ctl CNTV_CTL_EL0_ENABLE =? 0) && (Z.land ctl CNTV_CTL_EL0_IMASK =? 0).
Definition arch_timer_enabled (regs : ArchRegs) : bool := ctl_enabled (cntv_ctl_el0 (peripherals regs)).

(** The division is the [udiv] instruction, which gives 0 for a zero frequency. *)
Definition ticks_to_ns (hw : Hw) (ticks : Z) : Z := (ticks *w NANOS_PER_UNIT) / hw_cntfrq_el0 hw.

Definition remaining_ticks (cval now : Z) : Z := if now <=? cval then cval - now else 0.
Definition arch_timer_remaining_ticks (now : Z) (regs : ArchRegs) : Z :=
  remaining_ticks (cntv_cval_el0 (peripherals regs)) now.
Definition arch_timer_remaining_ns (hw : Hw) (now : Z) (regs : ArchRegs) : Z :=
  ticks_to_ns hw (arch_timer_remaining_ticks now regs).
Definition arch_timer_pending (now : Z) (regs : ArchRegs) : bool :=
  if negb (arch_timer_enabled regs) then false
  else if negb (Z.land (cntv_ctl_el0 (peripherals regs)) CNTV_CTL_EL0_ISTATUS =? 0) then true
  else arch_timer_remaining_ticks now regs =? 0.

(** The [_current] variants read the hardware. *)
Definition arch_timer_enabled_current (hw : Hw) : bool := ctl_enabled (hw_cntv_ctl_el0 hw).
Definition arch_timer_disable_current (hw : Hw) : Hw :=
  mkHw (hw_mdcr_el2 hw) (hw_pmcr_el0 hw) (hw_cntfrq_el0 hw) 0 (hw_cntv_cval_el0 hw).
Definition arch_timer_remaining_ns_current (hw : Hw) (now : Z) : Z :=
  ticks_to_ns hw (remaining_ticks (hw_cntv_cval_el0 hw) now).

(** ** What the registers say *)

(** A flag of a register. *)
Definition flag (v k : Z) : bool := Z.testbit v k.

(** A masked timer does not fire again. *)
Lemma timer_mask_not_pending now regs : arch_timer_pending now (arch_timer_mask regs) = false.
Proof.
  unfold arch_timer_pending, arch_timer_enabled, ctl_enabled, arch_timer_mask. cbn [peripherals cntv_ctl_el0].
  change CNTV_CTL_EL0_IMASK with (2 ^ 1). change CNTV_CTL_EL0_ENABLE with (2 ^ 0).
  rewrite (land_pow2_eqb _ 1) by lia. rewrite Z.lor_spec, Z.pow2_bits_true by lia.
  rewrite orb_true_r. cbn. by rewrite andb_false_r.
Qed.

Lemma timer_pending_enabled now regs : arch_timer_pending now regs = true → arch_timer_enabled regs = true.
Proof. unfold arch_timer_pending. by destruct (arch_timer_enabled regs). Qed.

(** A timer that is enabled and not pending has time left. *)
Lemma timer_not_pending_remaining now regs :
  arch_timer_enabled regs = true → arch_timer_pending now regs = false →
  0 < arch_timer_remaining_ticks now regs.
Proof.
  unfold arch_timer_pending, arch_timer_remaining_ticks, remaining_ticks. intros ->. cbn.
  destruct (negb _); [done|]. destruct (Z.leb_spec now (cntv_cval_el0 (peripherals regs))); [|done].
  intros ?%Z.eqb_neq. lia.
Qed.

Lemma set_retval_r0 regs v : r regs ≠ [] → r0 (set_retval regs v) = v.
Proof. unfold r0, set_retval. cbn. by destruct (r regs). Qed.
