(* ===== verification/Cpu.v ===== *)
(** * Physical and virtual CPUs ([cpu.rs])

    A pointer to a [Cpu] is its index in the CPU manager ([None] is null), a
    pointer to a [VCpu] the index of its VM and its index in that VM.  The
    execution lock of a vCPU stays held while it runs, so its lock word is part of
    the state; a function that takes it with [lock] gives [None] while the lock is
    held, when the code spins.  The locks taken and released inside one function
    do not appear. *)
From S2P Require Import Prelude Addr Mode Arch Mpool Mm MmSpec MmMap MmTable MmQuery PageTables Stage2Modes ArchAarch64 ArchCpu Interrupts.

Definition STACK_SIZE : Z := PAGE_SIZE.

Module VCpuStatus.
Inductive t := Off | Ready | BlockedMailbox | BlockedInterrupt | Aborted.
#[global] Instance t_eq_dec : EqDecision t.
Proof. solve_decision. Defined.
End VCpuStatus.

Record VCpuFaultInfo := mkFault {
  f_ipaddr : ipaddr_t; f_vaddr : vaddr_t; f_pc : vaddr_t; f_mode : Z }.

Record VCpuInner := mkVCpuInner {
  vi_state : VCpuStatus.t;
  vi_cpu : option nat;
  vi_regs : ArchRegs;
}.
Definition VCpuInner_new : VCpuInner := mkVCpuInner VCpuStatus.Off None regs_default.
(** [VCpuInner::on]. *)
Definition vcpu_on (i : VCpuInner) (entry : ipaddr_t) (arg : Z) : VCpuInner :=
  mkVCpuInner VCpuStatus.Ready (vi_cpu i) (set_pc_arg (vi_regs i) entry arg).
Definition is_off (i : VCpuInner) : bool := bool_decide (vi_state i = VCpuStatus.Off).
(** Assignments to the fields. *)
Definition with_state (s : VCpuStatus.t) (i : VCpuInner) : VCpuInner := mkVCpuInner s (vi_cpu i) (vi_regs i).
Definition with_cpu (c : option nat) (i : VCpuInner) : VCpuInner := mkVCpuInner (vi_state i) c (vi_regs i).
Definition with_regs (f : ArchRegs → ArchRegs) (i : VCpuInner) : VCpuInner :=
  mkVCpuInner (vi_state i) (vi_cpu i) (f (vi_regs i)).

Record VCpu := mkVCpu {
  vc_vm : nat;
  vc_locked : bool;
  vc_inner : VCpuInner;
  vc_interrupts : Interrupts;
}.
Definition VCpu_new (vm : nat) : VCpu := mkVCpu vm false VCpuInner_new Interrupts_new.
Definition upd_inner (f : VCpuInner → VCpuInner) (v : VCpu) : VCpu :=
  mkVCpu (vc_vm v) (vc_locked v) (f (vc_inner v)) (vc_interrupts v).
Definition upd_interrupts (i : Interrupts) (v : VCpu) : VCpu :=
  mkVCpu (vc_vm v) (vc_locked v) (vc_inner v) i.
Definition set_lock (b : bool) (v : VCpu) : VCpu :=
  mkVCpu (vc_vm v) b (vc_inner v) (vc_interrupts v).

(** [vcpu_try_lock] and the [Drop] of [VCpuExecutionLocked] ([vcpu_unlock]). *)
Definition vcpu_try_lock (v : VCpu) : bool * VCpu := (negb (vc_locked v), set_lock true v).
Definition vcpu_unlock (v : VCpu) : VCpu := set_lock false v.
(** [vcpu_lock]: spins while the lock is held. *)
Definition vcpu_lock (v : VCpu) : option VCpu := if vc_locked v then None else Some (set_lock true v).

Record Cpu := mkCpu { cpu_id : Z; stack_bottom : Z; is_on : bool }.
Definition Cpu_new (id stack_bottom : Z) (on : bool) : Cpu := mkCpu id stack_bottom on.

(** [CpuManager::new]; [stacks] are the addresses of the [MAX_CPUS] stacks. *)
Definition CpuManager_new (cpu_ids : list Z) (boot_cpu_id : Z) (stacks : list Z) : exec (list Cpu) :=
  match stacks with
  | [] => Panic
  | boot_stack :: stacks =>
      let boot := Cpu_new boot_cpu_id (boot_stack +w STACK_SIZE) true in
      if negb (length (filter (λ id, boot_cpu_id = id) cpu_ids) =? 1)%nat then Panic
      else Done (boot :: zip_with (λ id stack, Cpu_new id (stack +w STACK_SIZE) false)
                           (filter (λ id, boot_cpu_id ≠ id) cpu_ids) stacks)
  end.

(** [CpuManager::lookup]. *)
Fixpoint lookup_from (i : nat) (cpus : list Cpu) (id : Z) : option nat :=
  match cpus with
  | [] => None
  | c :: cpus => if cpu_id c =? id then Some i else lookup_from (S i) cpus id
  end.
Definition lookup_cpu (cpus : list Cpu) (id : Z) : option nat := lookup_from 0 cpus id.
(** [CpuManager::index_of] of a pointer. *)
Definition index_of (c : option nat) : option nat := c.

(** [&vcpus[i]]: panics out of range, also for the offset of a null pointer. *)
Definition index_vcpu (vcpus : list VCpu) (i : option nat) : exec VCpu :=
  unwrap_opt (i ≫= λ i, vcpus !! i).

(** [CpuManager::cpu_on] for CPU [c], with the vCPUs of the primary VM: the
    previous state, the CPUs and the vCPUs; [None] while the vCPU is locked. *)
Definition cpu_on (cpus : list Cpu) (vcpus : list VCpu) (c : nat) (entry : ipaddr_t) (arg : Z)
    : exec (option (bool * list Cpu * list VCpu)) :=
  cpu ← unwrap_opt (cpus !! c);
  let prev := is_on cpu in
  let cpus' := <[c := mkCpu (cpu_id cpu) (stack_bottom cpu) true]> cpus in
  if negb prev then
    v ← index_vcpu vcpus (index_of (Some c));
    match vcpu_lock v with
    | None => Done None
    | Some v => Done (Some (prev, cpus', <[c := vcpu_unlock (upd_inner (λ i, vcpu_on i entry arg) v)]> vcpus))
    end
  else Done (Some (prev, cpus', vcpus)).
(** [cpu_off]. *)
Definition cpu_off (cpus : list Cpu) (c : nat) : list Cpu :=
  alter (λ cpu, mkCpu (cpu_id cpu) (stack_bottom cpu) false) c cpus.

(** [vcpu_secondary_reset_and_start] for vCPU [index] of the VM with id [vm_id] and
    page-table root [table]. *)
Definition vcpu_secondary_reset_and_start (hw : Hw) (vm_id : Z) (table : paddr_t) (index : Z)
    (v : VCpu) (entry : ipaddr_t) (arg : Z) : exec (option (bool * VCpu)) :=
  if negb (negb (vm_id =? HF_PRIMARY_VM_ID)) then Panic
  else match vcpu_lock v with
       | None => Done None
       | Some v =>
           let was_off := is_off (vc_inner v) in
           let v := if was_off
                    then upd_inner (λ i, vcpu_on (with_regs (λ regs,
                           arch_regs_reset hw regs false vm_id index table) i) entry arg) v
                    else v in
           Done (Some (was_off, vcpu_unlock v))
       end.

(** [vcpu_handle_page_fault] for a VM with page table [t]. *)
Definition vcpu_handle_page_fault {A : ArchMM} (t : PageTable) (f : VCpuFaultInfo) : exec bool :=
  let mask := Z.lor (f_mode f) Mode.INVALID in
  r ← get_mode (SG := Stage2) t (f_ipaddr f) (ipa_add (f_ipaddr f) 1);
  Done (match r with Ok mode => Z.land mode mask =? f_mode f | Err _ => false end).

(** ** The CPU manager *)
Lemma lookup_from_spec i cpus id k :
  lookup_from i cpus id = Some k ↔
  ∃ j c, k = (i + j)%nat ∧ cpus !! j = Some c ∧ cpu_id c = id ∧
         ∀ j' c', (j' < j)%nat → cpus !! j' = Some c' → cpu_id c' ≠ id.
Proof.
  revert i. induction cpus as [|c cpus IH]; intros i; cbn [lookup_from].
  { split; [done|]. intros (j & c & _ & Hj & _). by rewrite lookup_nil in Hj. }
  destruct (Z.eqb_spec (cpu_id c) id) as [Heq|Hne].
  - split.
    + intros [= <-]. exists 0%nat, c. split_and!; [lia|done..|]. lia.
    + intros (j & c' & -> & Hj & Hid & Hmin). destruct j as [|j]; [f_equal; lia|].
      by destruct (Hmin 0%nat c ltac:(lia) eq_refl).
  - rewrite IH. split.
    + intros (j & c' & -> & Hj & Hid & Hmin). exists (S j), c'. split_and!; [lia|done..|].
      intros [|j'] c'' Hlt Hl; [by injection Hl as <-|]. apply (Hmin j' c''); [lia|done].
    + intros (j & c' & -> & Hj & Hid & Hmin). destruct j as [|j]; [by injection Hj as <-|].
      exists j, c'. split_and!; [lia|done..|]. intros j' c'' Hlt Hl. apply (Hmin (S j') c''); [lia|done].
Qed.

Lemma lookup_from_none i cpus id : id ∉ cpu_id <$> cpus → lookup_from i cpus id = None.
Proof.
  revert i. induction cpus as [|c cpus IH]; intros i Hn; [done|]. cbn [lookup_from].
  rewrite fmap_cons, not_elem_of_cons in Hn. destruct Hn as [Hn1 Hn2].
  destruct (Z.eqb_spec (cpu_id c) id); [by subst|]. by apply IH.
Qed.

Lemma zip_with_cpu_ids ids stacks :
  cpu_id <$> zip_with (λ id stack, Cpu_new id (stack +w STACK_SIZE) false) ids stacks
  = take (length stacks) ids.
Proof.
  revert stacks. induction ids as [|id ids IH]; intros [|s stacks]; try done.
  cbn. f_equal. apply IH.
Qed.

Lemma zip_with_cpu_off ids stacks c :
  c ∈ zip_with (λ id stack, Cpu_new id (stack +w STACK_SIZE) false) ids stacks → is_on c = false.
Proof.
  revert stacks. induction ids as [|id ids IH]; intros [|s stacks]; cbn; try by intros []%elem_of_nil.
  intros [->|H]%elem_of_cons; [done|eauto].
Qed.

(** [CpuManager::new] panics exactly when the boot CPU is not listed once; it
    otherwise puts the boot CPU first, switched on, and after it the other listed
    CPUs that have a stack, in order and switched off, so that [lookup] finds the
    boot CPU at index 0 and every CPU at the index of its stack. *)
Theorem cpu_manager_new_correct cpu_ids boot stack0 stacks :
  NoDup cpu_ids →
  (boot ∉ cpu_ids → CpuManager_new cpu_ids boot (stack0 :: stacks) = Panic) ∧
  (boot ∈ cpu_ids → ∃ cpus, CpuManager_new cpu_ids boot (stack0 :: stacks) = Done cpus ∧
     cpu_id <$> cpus = boot :: take (length stacks) (filter (λ id, boot ≠ id) cpu_ids) ∧
     (∀ k c, cpus !! k = Some c → is_on c = bool_decide (k = 0%nat) ∧ lookup_cpu cpus (cpu_id c) = Some k) ∧
     (∀ id, id ∉ cpu_id <$> cpus → lookup_cpu cpus id = None)).
Proof.
  intros Hnd. unfold CpuManager_new.
  assert (Hf : filter (λ id, boot = id) cpu_ids = if decide (boot ∈ cpu_ids) then [boot] else []).
  { clear stacks. induction cpu_ids as [|id ids IH]; [done|]. apply NoDup_cons in Hnd as [Hid Hnd].
    rewrite filter_cons, IH by done. destruct (decide (boot = id)) as [->|Hne].
    - rewrite decide_False by done. rewrite decide_True; [done|by left].
    - destruct (decide (boot ∈ ids)); [rewrite decide_True|rewrite decide_False]; set_solver. }
  rewrite Hf. split.
  { intros Hn. by rewrite decide_False. }
  intros Hin. rewrite decide_True by done. cbn [length Nat.eqb negb].
  eexists. split; [done|]. rewrite fmap_cons, zip_with_cpu_ids. cbn [cpu_id Cpu_new].
  split_and!; [done| |].
  2:{ intros id Hn. apply lookup_from_none. by rewrite fmap_cons, zip_with_cpu_ids. }
  set (rest := zip_with _ _ _).
  assert (Hids : NoDup (boot :: (cpu_id <$> rest))).
  { unfold rest. rewrite zip_with_cpu_ids. apply NoDup_cons. split.
    - intros (i & Hi & _)%elem_of_take. apply list_elem_of_lookup_2, list_elem_of_filter in Hi.
      naive_solver.
    - eapply sublist_NoDup; [|apply sublist_take]. by apply NoDup_filter. }
  intros k c Hk. split.
  - destruct k as [|k]; [by injection Hk as <-|]. rewrite bool_decide_false by lia.
    apply (zip_with_cpu_off (filter (λ id, boot ≠ id) cpu_ids) stacks).
    by apply (list_elem_of_lookup_2 _ k).
  - apply lookup_from_spec. exists k, c. split_and!; [lia|done|done|].
    intros j c' Hj Hc' Heq. change (boot :: (cpu_id <$> rest)) with (cpu_id <$> (Cpu_new boot (stack0 +w STACK_SIZE) true :: rest)) in Hids.
    assert (j = k); [|lia]. eapply (NoDup_lookup _ _ _ (cpu_id c)); [exact Hids| |];
      rewrite list_lookup_fmap; [rewrite Hc'|rewrite Hk]; cbn; congruence.
Qed.

Lemma cpu_manager_new_witness :
  ∃ cpus, CpuManager_new [0x100; 0x101; 0x0] 0x101 [0x8000; 0x9000; 0xa000] = Done cpus ∧
    lookup_cpu cpus 0x101 = Some 0%nat.
Proof.
  destruct (cpu_manager_new_correct [0x100; 0x101; 0x0] 0x101 0x8000 [0x9000; 0xa000]) as [_ H].
  { repeat (apply NoDup_cons; split; [set_solver|]). constructor. }
  destruct H as (cpus & Heq & _ & Hl & _); [set_solver|]. exists cpus. split; [exact Heq|].
  injection Heq as <-. exact (proj2 (Hl 0%nat _ eq_refl)).
Defined.

(** [cpu_on] turns a CPU on once: the first call makes the vCPU of the primary
    VM with the same index ready to start at the entry point with the argument, and
    a later call reports the CPU as on and changes no vCPU. *)
Theorem cpu_on_once cpus vcpus c cpu v entry arg :
  cpus !! c = Some cpu → vcpus !! c = Some v → is_on cpu = false → vc_locked v = false →
  r (vi_regs (vc_inner v)) ≠ [] →
  ∃ cpus' vcpus' v',
    cpu_on cpus vcpus c entry arg = Done (Some (false, cpus', vcpus')) ∧
    vcpus' = <[c := v']> vcpus ∧ vi_state (vc_inner v') = VCpuStatus.Ready ∧
    pc (vi_regs (vc_inner v')) = ipa entry ∧ r0 (vi_regs (vc_inner v')) = arg ∧
    ∀ entry2 arg2, cpu_on cpus' vcpus' c entry2 arg2 = Done (Some (true, cpus', vcpus')).
Proof.
  intros Hc Hv Hoff Hl Hr. unfold cpu_on at 1. rewrite Hc. cbn [unwrap_opt mbind exec_bind].
  rewrite Hoff. cbn [negb]. unfold index_vcpu, index_of. cbn [mbind option_bind]. rewrite Hv.
  cbn [unwrap_opt mbind exec_bind]. unfold vcpu_lock. rewrite Hl. eexists _, _, _.
  split; [done|]. split_and!; [done|done|done| |].
  - cbn. unfold r0, set_pc_arg. cbn. by destruct (r _).
  - intros. unfold cpu_on. rewrite list_lookup_insert_eq by (by eapply lookup_lt_Some).
    cbn. by rewrite list_insert_insert_eq.
Qed.

Lemma cpu_on_once_witness : ∃ cpus' vcpus' v',
  cpu_on [mkCpu 0 0x1000 false] [VCpu_new 0] 0 (ipa_init 0x8000) 7 = Done (Some (false, cpus', vcpus')) ∧
  vcpus' = [v'] ∧ vi_state (vc_inner v') = VCpuStatus.Ready.
Proof.
  destruct (cpu_on_once [mkCpu 0 0x1000 false] [VCpu_new 0] 0 (mkCpu 0 0x1000 false) (VCpu_new 0)
    (ipa_init 0x8000) 7) as (cpus' & vcpus' & v' & H1 & H2 & H3 & _); [done..|].
  exists cpus', vcpus', v'. split_and!; [exact H1|exact H2|exact H3].
Defined.

(** ** Starting a vCPU of a secondary VM *)

(** The registers of a vCPU that has not run yet: entry point and argument are set,
    every other general or floating-point register is zero, the timer is off,
    stage-2 translation goes through [table] under the VMID [vm_id], and physical
    interrupts, SMCs, WFI/WFE and GIC accesses trap. *)
Definition clean_secondary_regs (vm_id index : Z) (table : paddr_t) (entry : ipaddr_t) (arg : Z)
    (regs : ArchRegs) : Prop :=
  r regs = arg :: replicate 30 0 ∧ pc regs = ipa entry ∧
  Forall (λ f, low f = 0 ∧ high f = 0) (fp regs) ∧ arch_timer_enabled regs = false ∧
  vmpidr_el2 (lazy regs) = index ∧
  vttbr_el2 (lazy regs) mod 2 ^ 48 = pa table ∧ vttbr_el2 (lazy regs) / 2 ^ 48 = vm_id ∧
  Forall (λ k, flag (hcr_el2 (lazy regs)) k = true) [0; 3; 4; 5; 13; 14; 19] ∧
  flag (mdcr_el2 (lazy regs)) 8 = true ∧ gic_ich_hcr_el2 regs = Z.shiftl 0x1f 10.

Lemma vttbr_fields vm_id t :
  in_u 16 vm_id → in_u 48 t → Z.lor t (wshl vm_id 48) = t + vm_id * 2 ^ 48.
Proof.
  intros Hv Ht. unfold wshl. rewrite Z.shiftl_mul_pow2, wrap_small by (unfold in_u in *; lia).
  symmetry. apply add_is_lor, Z.bits_inj'. intros n Hn. rewrite Z.land_spec, Z.bits_0.
  destruct (decide (n < 48)).
  - by rewrite Z.mul_pow2_bits_low, andb_false_r by lia.
  - by rewrite (testbit_small t 48) by (done || lia).
Qed.

Lemma mdcr_tde hw vm_id : vm_id ≠ HF_PRIMARY_VM_ID → flag (get_mdcr_el2_value hw vm_id) 8 = true.
Proof.
  intros Hp. unfold flag, get_mdcr_el2_value.
  destruct (Z.eqb_spec vm_id HF_PRIMARY_VM_ID) as [|_]; [done|]. cbn [negb].
  rewrite Z.lor_spec. by rewrite orb_true_r.
Qed.

(** [vcpu_secondary_reset_and_start] starts a vCPU that is off with clean
    registers and confined to the VM's own page table, and does nothing to a vCPU
    that is on. *)
Theorem secondary_start_clean hw vm_id table index v entry arg :
  vm_id ≠ HF_PRIMARY_VM_ID → in_u 16 vm_id → in_u 48 (pa table) → vc_locked v = false →
  ∃ was_off v', vcpu_secondary_reset_and_start hw vm_id table index v entry arg = Done (Some (was_off, v')) ∧
    vc_locked v' = false ∧
    if decide (vi_state (vc_inner v) = VCpuStatus.Off)
    then was_off = true ∧ vi_state (vc_inner v') = VCpuStatus.Ready ∧
         clean_secondary_regs vm_id index table entry arg (vi_regs (vc_inner v'))
    else was_off = false ∧ v' = v.
Proof.
  intros Hp Hid Ht Hl. unfold vcpu_secondary_reset_and_start.
  destruct (Z.eqb_spec vm_id HF_PRIMARY_VM_ID) as [|_]; [done|]. cbn [negb].
  unfold vcpu_lock. rewrite Hl. eexists _, _. split; [done|]. split; [done|].
  unfold is_off. cbn [vc_inner set_lock]. case_decide as Hs.
  - rewrite bool_decide_true by done. split_and!; [done|done|].
    unfold clean_secondary_regs. cbn.
    unfold pa_addr. rewrite vttbr_fields by done. split_and!; try done.
    + repeat constructor.
    + rewrite Z.mod_add by lia. apply Z.mod_small. apply Ht.
    + rewrite Z.div_add, Z.div_small by (apply Ht || lia). lia.
    + repeat constructor.
    + by apply mdcr_tde.
  - rewrite bool_decide_false by done. split; [done|]. destruct v. cbn in *. by subst.
Qed.

Definition demo_hw : Hw := mkHw 0 0 1000000 0 0.
Lemma secondary_start_witness : ∃ was_off v',
  vcpu_secondary_reset_and_start demo_hw 2 (pa_init 0x200000) 0 (VCpu_new 1) (ipa_init 0x8000) 7
    = Done (Some (was_off, v')) ∧ was_off = true ∧
  clean_secondary_regs 2 0 (pa_init 0x200000) (ipa_init 0x8000) 7 (vi_regs (vc_inner v')).
Proof.
  destruct (secondary_start_clean demo_hw 2 (pa_init 0x200000) 0 (VCpu_new 1) (ipa_init 0x8000) 7)
    as (w & v' & Heq & _ & H); [done|by split|by split|done|]. exists w, v'. split; [exact Heq|].
  change (decide _) with (decide (VCpuStatus.Off = VCpuStatus.Off)) in H. by destruct H as (? & _ & ?).
Defined.

(** ** Page faults *)
Lemma fault_mask m f :
  in_u 7 m → in_u 3 f →
  (Z.land m (Z.lor f Mode.INVALID) =? f) = bf_contains m f && negb (Z.testbit m 4).
Proof.
  intros Hm Hf.
  assert (Hall : Forall (λ m, Forall (λ f, (Z.land m (Z.lor f Mode.INVALID) =? f) =
    bf_contains m f && negb (Z.testbit m 4)) (seqZ 0 8)) all_modes)
    by (by_computation).
  rewrite Forall_forall in Hall. specialize (Hall m (elem_of_all_modes m Hm)).
  rewrite Forall_forall in Hall. apply Hall, elem_of_seqZ. unfold in_u in Hf. lia.
Qed.

Section fault.
Context (p : Aarch64.pa_bits).
#[local] Hint Extern 0 ArchMM => exact (aarch64 p) : typeclass_instances.
#[local] Hint Extern 0 Stage => exact (@Stage2 (aarch64 p)) : typeclass_instances.
#[local] Hint Extern 0 (ArchLaws _) => exact (aarch64_laws p) : typeclass_instances.

(** The page after that of a faulting address, as the code computes it. *)
Lemma fault_page_end x :
  in_u 64 x → page_of x < round_up_to_page (x +w 1) ≤ ptable_end ↔ x < ptable_end.
Proof.
  intros Hx. pose proof root_geometry as (_ & _ & Hend). pose proof root_end_aligned as Hal.
  pose proof (Z.mod_pos_bound x 4096 ltac:(lia)). destruct Hx as [Hx0 Hx1].
  destruct (decide (x + 4096 < 2 ^ 64)) as [Hs|Hs].
  - rewrite wadd_small by lia. destruct (round_up_to_page_spec (x + 1)) as [Ha Hb]; [lia..|].
    apply aligned_exists in Ha as [q Hq]; [|lia]. apply aligned_exists in Hal as [n Hn]; [|lia].
    pose proof (Z.div_mod x 4096 ltac:(lia)). unfold page_of. lia.
  - unfold page_of. lia.
Qed.

Lemma page_fault_returns t f :
  wf_ptable t → in_u 64 (ipa (f_ipaddr f)) → ∃ resume, vcpu_handle_page_fault t f = Done resume.
Proof.
  intros Hwf Hx. unfold vcpu_handle_page_fault, get_mode, ipa_add, ipa_init, ipa_addr. cbn [ipa].
  destruct (get_attrs_spec t (ipa (f_ipaddr f)) (ipa (f_ipaddr f) +w 1)) as ([a|] & -> & _); [done..| |]; cbn; eauto.
Qed.

(** C35: [vcpu_handle_page_fault] never panics and lets the vCPU resume exactly when
    its VM's page table allows the attempted access: the page is inside the address
    space, valid, and carries every right the access needs. *)
Theorem page_fault_correct t f :
  wf_ptable t → in_u 64 (ipa (f_ipaddr f)) → in_u 3 (f_mode f) →
  ∃ resume, vcpu_handle_page_fault t f = Done resume ∧
    (resume = true ↔ ipa (f_ipaddr f) < vm_end p ∧
       ∃ m, vm_mode p t (ipa (f_ipaddr f)) = Some m ∧ Z.testbit m 4 = false ∧ bf_contains m (f_mode f) = true).
Proof.
  intros Hwf Hx Hf. unfold vcpu_handle_page_fault, get_mode, ipa_add, ipa_init, ipa_addr. cbn [ipa].
  set (x := ipa (f_ipaddr f)) in *.
  destruct (get_attrs_spec t x (x +w 1)) as (r & -> & Hr); [done..|].
  fold (page_of x) in Hr. pose proof (fault_page_end x Hx) as Hpe.
  assert (Hiff : ∀ a, r = Ok a ↔ x < ptable_end ∧ ptable_attrs t x = a).
  { intros a. rewrite Hr. split.
    - intros [He Ha]. split; [by apply Hpe|]. apply Ha. destruct Hpe as [Hpe _].
      destruct (round_up_to_page_mult (x +w 1)). pose proof (Z.mod_pos_bound x 4096 ltac:(lia)). unfold page_of in *.
      specialize (Hpe He). pose proof root_geometry as (_ & _ & Hend). destruct Hx.
      rewrite wadd_small in He |- * by lia. destruct (round_up_to_page_spec (x + 1)); lia.
    - intros [He <-]. split; [by apply Hpe|]. intros y Hy. pose proof root_geometry as (_ & _ & Hend).
      destruct Hx. pose proof (Z.mod_pos_bound x 4096 ltac:(lia)).
      rewrite wadd_small in Hy by lia. destruct (round_up_to_page_spec (x + 1)) as [Ha Hb]; [lia..|].
      apply aligned_exists in Ha as [q Hq]; [|lia]. pose proof (Z.div_mod x 4096 ltac:(lia)).
      unfold page_of in *. apply ptable_attrs_page; [lia..|]. unfold page_of.
      assert (y / 4096 = x / 4096) as Hd; [|pose proof (Z.div_mod y 4096 ltac:(lia)); lia].
      symmetry. apply (Z.div_unique_pos y 4096 (x / 4096) (y - 4096 * (x / 4096))); lia. }
  rewrite vm_mode_attrs. destruct r as [a|[]]; cbn.
  - destruct (proj1 (Hiff a) eq_refl) as [Hlt ->]. eexists. split; [done|].
    fold (mode_of a). destruct (mode_of_stage2 a) as [Hm7 _].
    rewrite fault_mask, andb_true_iff, negb_true_iff by done. unfold norm. rewrite no_access_bits. split.
    + intros [Hc Hv]. split; [done|]. exists (mode_of a). by rewrite Hv.
    + intros (_ & m & Hm & Hv & Hc). by destruct (_ && _); simplify_eq.
  - eexists. split; [done|]. split; [done|]. intros [Hlt _].
    discriminate (proj2 (Hiff (ptable_attrs t x)) (conj Hlt eq_refl)).
Qed.
End fault.

Lemma page_fault_witness :
  ∃ resume, vcpu_handle_page_fault (A := Demo.demo_arch) Demo.table
    (mkFault (ipa_init 0x40000123) (va_init 0) (va_init 0) Mode.R) = Done resume.
Proof.
  destruct (page_fault_correct Aarch64.PA40 Demo.table
    (mkFault (ipa_init 0x40000123) (va_init 0) (va_init 0) Mode.R)) as (resume & H & _);
    [exact Demo.table_wf|by split|by split|]. exists resume. exact H.
Defined.
