(* ===== verification/Vm.v ===== *)
(** * Virtual machines and mailboxes ([vm.rs])

    A pointer to a [Vm] is its index in the VM manager, a pointer to a
    [WaitEntry] the index of the VM it belongs to and its index in that VM's
    [wait_entries].  The wait and ready lists are intrusive rings; by the
    refinement of [DList] they are lists of entries here, and the links of an entry
    that is in no ring are those of a ring of its own: the two sets of [Links] hold
    the entries whose links are not.  A send or receive page of 0 is the null
    pointer.  [arch] of [VmInner] is only used by the context switch and left
    out. *)
From stdpp Require Import gmap.
From S2P Require Import Prelude Addr Mode Arch Mpool Mm MemoryManager ArchCpu Interrupts Cpu.

Definition LOG_BUFFER_SIZE : Z := 256.

Module MailboxState.
Inductive t := Empty | Received | Read.
#[global] Instance t_eq_dec : EqDecision t.
Proof. solve_decision. Defined.
End MailboxState.

(** A [WaitEntry]; the VM whose mailbox it waits for is the one with id [snd]. *)
Notation entry := (nat * nat)%type.
Record Links := mkLinked { wait_linked : gset entry; ready_linked : gset entry }.

Record Mailbox := mkMailbox {
  mb_state : MailboxState.t;
  mb_recv : Z;
  mb_send : Z;
  waiter_list : list entry;
  ready_list : list entry;
}.
Definition Mailbox_init : Mailbox := mkMailbox MailboxState.Empty 0 0 [] [].
Definition mb_set_state (s : MailboxState.t) (m : Mailbox) : Mailbox :=
  mkMailbox s (mb_recv m) (mb_send m) (waiter_list m) (ready_list m).
Definition mb_set_waiters (l : list entry) (m : Mailbox) : Mailbox :=
  mkMailbox (mb_state m) (mb_recv m) (mb_send m) l (ready_list m).
Definition mb_set_ready (l : list entry) (m : Mailbox) : Mailbox :=
  mkMailbox (mb_state m) (mb_recv m) (mb_send m) (waiter_list m) l.

(** [Mailbox::fetch_waiter]. *)
Definition fetch_waiter (m : Mailbox) (lk : Links) : option entry * Mailbox * Links :=
  if negb (bool_decide (mb_state m = MailboxState.Empty)) || (mb_recv m =? 0)
  then (None, m, lk)
  else match waiter_list m with
       | [] => (None, m, lk)
       | e :: l => (Some e, mb_set_waiters l m, mkLinked (wait_linked lk ∖ {[e]}) (ready_linked lk))
       end.
(** [Mailbox::is_waiter_list_empty]. *)
Definition is_waiter_list_empty (m : Mailbox) : bool := bool_decide (waiter_list m = []).
(** [Mailbox::try_read]. *)
Definition try_read (m : Mailbox) : bool * Mailbox :=
  if bool_decide (mb_state m = MailboxState.Received)
  then (true, mb_set_state MailboxState.Read m) else (false, m).
Definition set_read (m : Mailbox) : Mailbox := mb_set_state MailboxState.Read m.
Definition set_received (m : Mailbox) : Mailbox := mb_set_state MailboxState.Received m.

(** A local pool ([MPool::new_with_fallback]) and its drop at the end of the scope. *)
Definition new_local (st : MmState) : MmState := with_pool st (MPool_new_with_fallback (st_pool st)).
Definition drop_local (st : MmState) : MmState :=
  with_pool st (default (st_pool st) (MPool_drop (st_pool st))).

Section stage1.
Context {A : ArchMM} {RD : ReduceCrate}.

(** [Mailbox::configure_stage1]: the hypervisor's table [hp].  The guard of the
    second mapping unmaps the send page with [unwrap]. *)
Definition configure_stage1 (m : Mailbox) (pa_send_begin pa_send_end pa_recv_begin pa_recv_end : paddr_t)
    (hp : PageTable) (st : MmState) : exec (bool * Mailbox * PageTable * MmState) :=
  '(ok, hp, st) ← identity_map (SG := Stage1) hp pa_send_begin pa_send_end Mode.R st;
  if negb ok then
    '(hp, st) ← mm_defrag hp st; Done (false, m, hp, st)
  else
  '(ok, hp, st) ← identity_map (SG := Stage1) hp pa_recv_begin pa_recv_end Mode.W st;
  if negb ok then
    '(hp, st) ← mm_defrag hp st;
    '(ok, hp, st) ← unmap (SG := Stage1) hp pa_send_begin pa_send_end st;
    assert_then ok (Done (false, m, hp, st))
  else
    Done (true, mkMailbox (mb_state m) (pa_addr pa_recv_begin) (pa_addr pa_send_begin)
                  (waiter_list m) (ready_list m), hp, st).
End stage1.

Record VmInner := mkVmInner {
  log_buffer : list Z;
  ptable : PageTable;
  mailbox : Mailbox;
  wait_entries : list nat;
}.
Definition with_ptable (t : PageTable) (i : VmInner) : VmInner :=
  mkVmInner (log_buffer i) t (mailbox i) (wait_entries i).
Definition with_mailbox (m : Mailbox) (i : VmInner) : VmInner :=
  mkVmInner (log_buffer i) (ptable i) m (wait_entries i).
Definition with_log (l : list Z) (i : VmInner) : VmInner :=
  mkVmInner l (ptable i) (mailbox i) (wait_entries i).

Definition is_configured (i : VmInner) : bool :=
  negb (mb_send (mailbox i) =? 0) && negb (mb_recv (mailbox i) =? 0).
(** [VmInner::is_empty]. *)
Definition mailbox_empty (i : VmInner) : bool :=
  bool_decide (mb_state (mailbox i) = MailboxState.Empty).
(** [VmInner::set_empty]. *)
Definition set_empty (i : VmInner) : VmInner :=
  with_mailbox (mb_set_state MailboxState.Empty (mailbox i)) i.

(** [VmInner::dequeue_ready_list]: the index of the entry, as an id. *)
Definition dequeue_ready_list (i : VmInner) (lk : Links) : option Z * VmInner * Links :=
  match ready_list (mailbox i) with
  | [] => (None, i, lk)
  | e :: l => (Some (wrap 16 (Z.of_nat e.2)), with_mailbox (mb_set_ready l (mailbox i)) i,
               mkLinked (wait_linked lk) (ready_linked lk ∖ {[e]}))
  end.
(** [VmInner::enqueue_ready_list]. *)
Definition enqueue_ready_list (i : VmInner) (e : entry) (lk : Links) : VmInner * Links :=
  (with_mailbox (mb_set_ready (ready_list (mailbox i) ++ [e]) (mailbox i)) i,
   mkLinked (wait_linked lk) (ready_linked lk ∪ {[e]})).

(** [VmInner::wait_for] of the VM at index [self] with entries [entries]: indexing
    past the [MAX_VMS] entries panics. *)
Definition wait_for (self : nat) (i : VmInner) (target : VmInner) (target_id : Z) (lk : Links)
    : exec (bool * VmInner * Links) :=
  if negb (Z.to_nat target_id <? length (wait_entries i))%nat then Panic
  else
    let e := (self, Z.to_nat target_id) in
    if bool_decide (e ∈ wait_linked lk) then Done (false, target, lk)
    else Done (true,
               with_mailbox (mb_set_waiters (waiter_list (mailbox target) ++ [e]) (mailbox target)) target,
               mkLinked (wait_linked lk ∪ {[e]}) (ready_linked lk)).

(** [VmInner::debug_log]: the bytes given to [dlog!] when the buffer is flushed. *)
Definition debug_log (i : VmInner) (c : Z) : exec (option (list Z) * VmInner) :=
  '(flush, buf) ←
    (if (c =? 10) || (c =? 0) then Done (true, log_buffer i)
     else if LOG_BUFFER_SIZE <=? Z.of_nat (length (log_buffer i)) then Panic
     else let buf := log_buffer i ++ [c] in Done (Z.of_nat (length buf) =? LOG_BUFFER_SIZE, buf));
  Done (if flush : bool then (Some buf, with_log [] i) else (None, with_log buf i)).

Section inner.
Context {A : ArchMM} {RD : ReduceCrate}.

(** [VmInner::configure_pages].  The guards restore the original modes with
    [unwrap], the receive page before the send page; the local pool is dropped
    after them. *)
Definition configure_pages (i : VmInner) (pa_send_begin pa_send_end : paddr_t) (orig_send_mode : Z)
    (pa_recv_begin pa_recv_end : paddr_t) (orig_recv_mode : Z) (hp : PageTable) (st : MmState)
    : exec (bool * VmInner * PageTable * MmState) :=
  let st := new_local st in
  '(ok, t, st) ← identity_map (SG := Stage2) (ptable i) pa_send_begin pa_send_end
     (Z.lor (Z.lor (Z.lor Mode.UNOWNED Mode.SHARED) Mode.R) Mode.W) st;
  if negb ok then Done (false, with_ptable t i, hp, drop_local st)
  else
  '(ok, t, st) ← identity_map (SG := Stage2) t pa_recv_begin pa_recv_end
     (Z.lor (Z.lor Mode.UNOWNED Mode.SHARED) Mode.R) st;
  if negb ok then
    '(t, st) ← mm_vm_defrag t st;
    '(ok, t, st) ← identity_map (SG := Stage2) t pa_send_begin pa_send_end orig_send_mode st;
    assert_then ok (Done (false, with_ptable t i, hp, drop_local st))
  else
  '(ok, m, hp, st) ← configure_stage1 (mailbox i) pa_send_begin pa_send_end pa_recv_begin pa_recv_end hp st;
  if negb ok then
    '(ok, t, st) ← identity_map (SG := Stage2) t pa_recv_begin pa_recv_end orig_recv_mode st;
    assert_then ok (
    '(ok, t, st) ← identity_map (SG := Stage2) t pa_send_begin pa_send_end orig_send_mode st;
    assert_then ok (Done (false, with_ptable t (with_mailbox m i), hp, drop_local st)))
  else Done (true, with_ptable t (with_mailbox m i), hp, drop_local st).

(** [VmInner::configure]. *)
Definition configure (i : VmInner) (send recv : ipaddr_t) (hp : PageTable) (st : MmState)
    : exec (bool * VmInner * PageTable * MmState) :=
  if negb (is_aligned (ipa_addr send) PAGE_SIZE) || negb (is_aligned (ipa_addr recv) PAGE_SIZE)
  then Done (false, i, hp, st)
  else
  let pa_send_begin := pa_from_ipa send in
  let pa_send_end := pa_add pa_send_begin PAGE_SIZE in
  let pa_recv_begin := pa_from_ipa recv in
  let pa_recv_end := pa_add pa_recv_begin PAGE_SIZE in
  if pa_addr pa_send_begin =? pa_addr pa_recv_begin then Done (false, i, hp, st)
  else if is_configured i then Done (false, i, hp, st)
  else
  r ← get_mode (SG := Stage2) (ptable i) send (ipa_add send PAGE_SIZE);
  match r with
  | Err _ => Done (false, i, hp, st)
  | Ok orig_send_mode =>
      if negb (Mode.valid_owned_exclusive orig_send_mode
               && bf_contains orig_send_mode (Z.lor Mode.R Mode.W))
      then Done (false, i, hp, st)
      else
      r ← get_mode (SG := Stage2) (ptable i) recv (ipa_add recv PAGE_SIZE);
      match r with
      | Err _ => Done (false, i, hp, st)
      | Ok orig_recv_mode =>
          if negb (Mode.valid_owned_exclusive orig_recv_mode && bf_contains orig_recv_mode Mode.R)
          then Done (false, i, hp, st)
          else configure_pages i pa_send_begin pa_send_end orig_send_mode
                 pa_recv_begin pa_recv_end orig_recv_mode hp st
      end
  end.

Record Vm := mkVm {
  vm_id : Z;
  vcpus : list VCpu;
  vm_inner : VmInner;
  aborting : bool;
}.
Definition upd_vm_inner (f : VmInner → VmInner) (vm : Vm) : Vm :=
  mkVm (vm_id vm) (vcpus vm) (f (vm_inner vm)) (aborting vm).
Definition upd_vcpu (k : nat) (f : VCpu → VCpu) (vm : Vm) : Vm :=
  mkVm (vm_id vm) (alter f k (vcpus vm)) (vm_inner vm) (aborting vm).
Definition get_ptable_raw (vm : Vm) : paddr_t := pa_init (root (ptable (vm_inner vm))).

(** What the memory of the VM array holds, before it is initialised, where the log
    buffer of the VM at an index will be. *)
Class StaleLogs := stale_log : nat → list Z.

(** [VmInner::init] for the VM at index [vm]; the log buffer is left as it is. *)
Definition VmInner_init {LG : StaleLogs} (vm : nat) (st : MmState) : exec (result VmInner unit * MmState) :=
  '(ok, t, st) ← mm_vm_init st;
  match t with
  | Some t => Done (Ok (mkVmInner (stale_log vm) t Mailbox_init (replicate (Z.to_nat MAX_VMS) vm)), st)
  | None => Done (Err tt, st)
  end.

(** [Vm::init]: [push_unchecked] past the [MAX_CPUS] elements of the array is
    undefined. *)
Definition Vm_init {LG : StaleLogs} (idx : nat) (id vcpu_count : Z) (st : MmState) : exec (result Vm unit * MmState) :=
  '(r, st) ← VmInner_init idx st;
  match r with
  | Err _ => Done (Err tt, st)
  | Ok inner =>
      if MAX_CPUS <? vcpu_count then Panic
      else Done (Ok (mkVm id (replicate (Z.to_nat vcpu_count) (VCpu_new idx)) inner false), st)
  end.

(** [VmManager::new_vm]. *)
Definition new_vm {LG : StaleLogs} (vms : list Vm) (vcpu_count : Z) (st : MmState)
    : exec (option nat * list Vm * MmState) :=
  if MAX_VMS <=? Z.of_nat (length vms) then Done (None, vms, st)
  else
    let idx := length vms in
    let id := Z.of_nat idx + HF_VM_ID_OFFSET in
    '(r, st) ← Vm_init idx (wrap 16 id) vcpu_count st;
    match r with
    | Ok vm => Done (Some idx, vms ++ [vm], st)
    | Err _ => Done (None, vms, st)
    end.
End inner.

(** [VmManager::get_vm_index]: the assertion fails for id 0. *)
Definition get_vm_index (vm_id : Z) : exec nat :=
  assert_then (HF_VM_ID_OFFSET <=? vm_id) (Done (Z.to_nat (vm_id - HF_VM_ID_OFFSET))).
(** [VmManager::get] and [get_mut]: the pointer, [None] if there is no such VM. *)
Definition get_vm (vms : list Vm) (id : Z) : exec (option nat) :=
  i ← get_vm_index id;
  Done (if (i <? length vms)%nat then Some i else None).
(** [VmManager::get_primary]. *)
Definition primary_index : nat := Z.to_nat (HF_PRIMARY_VM_ID - HF_VM_ID_OFFSET).
(** [VmManager::len]. *)
Definition vm_len (vms : list Vm) : Z := wrap 16 (Z.of_nat (length vms)).
(** [vm_get_vcpu]. *)
Definition vm_get_vcpu (vm : Vm) (vcpu_index : Z) : exec VCpu :=
  assert_then (vcpu_index <? Z.of_nat (length (vcpus vm)))
    (unwrap_opt (vcpus vm !! Z.to_nat vcpu_index)).
(** [vm_get_vcpu_count]. *)
Definition vm_get_vcpu_count (vm : Vm) : Z := wrap 16 (Z.of_nat (length (vcpus vm))).
