(* ===== verification/Spci.v ===== *)
(** * Memory sharing over SPCI ([spci.rs], [spci_architected_message.rs])

    Messages are bytes in memory, read with the layout of the [#[repr(C)]]
    structures.  Memory is a function from physical addresses to bytes: mailbox
    pages are identity mapped in the hypervisor.  An enumeration read from memory
    with a value it does not have is undefined behaviour and modelled as
    [Panic]. *)
From S2P Require Import Prelude Addr Mode Arch Mpool Mm MemoryManager MmTable Access Vm Memory.

(** ** [spci.rs] *)
Definition SPCI_VERSION_MAJOR : Z := 0x0.
Definition SPCI_VERSION_MINOR : Z := 0x9.
Definition SPCI_VERSION_MAJOR_OFFSET : Z := 16.

Inductive SpciReturn :=
| Success | NotSupported | InvalidParameters | NoMemory | Busy | Interrupted | Denied | Retry.
#[export] Instance SpciReturn_eq_dec : EqDecision SpciReturn.
Proof. solve_decision. Defined.
Definition spci_return_code (r : SpciReturn) : Z :=
  match r with
  | Success => 0 | NotSupported => -1 | InvalidParameters => -2 | NoMemory => -3
  | Busy => -4 | Interrupted => -5 | Denied => -6 | Retry => -7
  end.

Module SpciMemoryShare.
Inductive t := Lend | Relinquish | Donate.
#[global] Instance t_eq_dec : EqDecision t.
Proof. solve_decision. Defined.
(** The [u16] representation. *)
Definition of_raw (v : Z) : exec t :=
  match v with 0 => Done Lend | 1 => Done Relinquish | 2 => Done Donate | _ => Panic end.
End SpciMemoryShare.

Definition IMPDEF : Z := 1.
Definition BLOCK : Z := 1.
Definition NOTIFY : Z := 1.

Record SpciMessage := mkSpciMessage {
  flags : Z; reserved_1 : Z; length_ : Z; target_vm_id : Z; source_vm_id : Z; reserved_2 : Z }.
Definition SIZEOF_SpciMessage : Z := 16.
Definition SPCI_MSG_PAYLOAD_MAX : Z := HF_MAILBOX_SIZE - SIZEOF_SpciMessage.
(** [ptr::read] and [ptr::write] of a message header. *)
Definition read_message (mem : Mem) (a : Z) : SpciMessage :=
  mkSpciMessage (rd16 mem a) (rd16 mem (a + 2)) (rd32 mem (a + 4)) (rd16 mem (a + 8))
    (rd16 mem (a + 10)) (rd32 mem (a + 12)).
Definition write_message (mem : Mem) (a : Z) (m : SpciMessage) : Mem :=
  let mem := wr 2 mem a (flags m) in
  let mem := wr 2 mem (a + 2) (reserved_1 m) in
  let mem := wr 4 mem (a + 4) (length_ m) in
  let mem := wr 2 mem (a + 8) (target_vm_id m) in
  let mem := wr 2 mem (a + 10) (source_vm_id m) in
  wr 4 mem (a + 12) (reserved_2 m).
(** [SpciMessage::get_architected_message_header] of the message at [a]. *)
Definition get_architected_message_header (a : Z) : Z := a + SIZEOF_SpciMessage.

(** [SpciArchitectedMessageHeader], [SpciMemoryRegion], its constituents and
    [SpciMemoryLend]. *)
Definition SIZEOF_SpciArchitectedMessageHeader : Z := 8.
Definition header_type (mem : Mem) (a : Z) : exec SpciMemoryShare.t := SpciMemoryShare.of_raw (rd16 mem a).
Definition header_payload (a : Z) : Z := a + SIZEOF_SpciArchitectedMessageHeader.
Definition SIZEOF_SpciMemoryRegion : Z := 8.
Definition region_count (mem : Mem) (a : Z) : Z := rd32 mem (a + 4).
Definition region_constituents (a : Z) : Z := a + SIZEOF_SpciMemoryRegion.
Definition SIZEOF_SpciMemoryRegionConstituent : Z := 16.
Definition constituent_address (mem : Mem) (a : Z) : Z := rd64 mem a.
Definition constituent_page_count (mem : Mem) (a : Z) : Z := rd32 mem (a + 8).
Definition SIZEOF_SpciMemoryLend : Z := 8.
Definition lend_borrower_attributes (mem : Mem) (a : Z) : Z := rd16 mem (a + 2).
Definition lend_payload (a : Z) : Z := a + SIZEOF_SpciMemoryLend.

Inductive SpciLendAccess := RO_NX | RO_X | RW_NX | RW_X.
Definition SPCI_LEND_ACCESS_OFFSET : Z := 0x7.
Definition SPCI_LEND_ACCESS_MASK : Z := Z.shiftl 0x3 SPCI_LEND_ACCESS_OFFSET.
Definition spci_get_lend_access_attr (lend_attr : Z) : exec SpciLendAccess :=
  match Z.shiftr (Z.land lend_attr SPCI_LEND_ACCESS_MASK) SPCI_LEND_ACCESS_OFFSET with
  | 0 => Done RO_NX | 1 => Done RO_X | 2 => Done RW_NX | 3 => Done RW_X | _ => Panic
  end.
Definition spci_memory_attrs_to_mode (memory_attributes : Z) : exec Z :=
  a ← spci_get_lend_access_attr (wrap 16 memory_attributes);
  Done (match a with
        | RO_NX => Mode.R
        | RO_X => Z.lor Mode.R Mode.X
        | RW_NX => Z.lor Mode.R Mode.W
        | RW_X => Z.lor (Z.lor Mode.R Mode.W) Mode.X
        end).

(** ** Transition tables ([spci_msg_check_transition]) *)
Record SpciMemTransitions := mkTransition {
  tr_orig_from_mode : Z; tr_orig_to_mode : Z; tr_from_mode : Z; tr_to_mode : Z }.

Definition NA : Z := Z.lor Mode.INVALID Mode.UNOWNED.
Definition NA' : Z := Z.lor (Z.lor Mode.INVALID Mode.UNOWNED) Mode.SHARED.
Definition donate_transitions : list SpciMemTransitions := [
  mkTransition Mode.empty NA NA Mode.empty;
  mkTransition Mode.INVALID Mode.UNOWNED NA Mode.empty;
  mkTransition Mode.SHARED (Z.lor Mode.UNOWNED Mode.SHARED) NA Mode.empty;
  mkTransition Mode.empty NA' NA' Mode.empty].
Definition relinquish_transitions : list SpciMemTransitions := [
  mkTransition Mode.UNOWNED Mode.INVALID NA' Mode.empty;
  mkTransition (Z.lor Mode.UNOWNED Mode.SHARED) Mode.SHARED NA' Mode.empty].
Definition shared_lend_transitions : list SpciMemTransitions := [
  mkTransition Mode.empty NA' Mode.SHARED (Z.lor Mode.UNOWNED Mode.SHARED);
  mkTransition Mode.empty NA Mode.SHARED (Z.lor Mode.UNOWNED Mode.SHARED)].

Definition state_mask : Z := Z.lor (Z.lor Mode.INVALID Mode.UNOWNED) Mode.SHARED.
Fixpoint spci_msg_get_next_state (transitions : list SpciMemTransitions)
    (memory_to_attributes orig_from_mode orig_to_mode : Z) : result (Z * Z) unit :=
  let orig_from_state := Z.land orig_from_mode state_mask in
  let orig_to_state := Z.land orig_to_mode state_mask in
  match transitions with
  | [] => Err tt
  | tr :: transitions =>
      if (orig_from_state =? tr_orig_from_mode tr) && (orig_to_state =? tr_orig_to_mode tr)
      then Ok (Z.lor (tr_from_mode tr) (Z.land (Mode.complement state_mask) orig_from_mode),
               Z.lor (tr_to_mode tr) memory_to_attributes)
      else spci_msg_get_next_state transitions memory_to_attributes orig_from_mode orig_to_mode
  end.

Definition transition_table (share : SpciMemoryShare.t) : list SpciMemTransitions :=
  match share with
  | SpciMemoryShare.Donate => donate_transitions
  | SpciMemoryShare.Relinquish => relinquish_transitions
  | SpciMemoryShare.Lend => shared_lend_transitions
  end.

Section share.
Context {A : ArchMM} {RD : ReduceCrate}.

Definition spci_msg_check_transition (to_inner from_inner : VmInner) (share : SpciMemoryShare.t)
    (begin end_ : ipaddr_t) (memory_to_attributes : Z) : exec (result (Z * Z * Z) unit) :=
  if negb (is_aligned (ipa_addr begin) PAGE_SIZE) || negb (is_aligned (ipa_addr end_) PAGE_SIZE)
  then Done (Err tt)
  else
  r ← get_mode (SG := Stage2) (ptable from_inner) begin end_;
  match r with
  | Err _ => Done (Err tt)
  | Ok orig_from_mode =>
      r ← get_mode (SG := Stage2) (ptable to_inner) begin end_;
      match r with
      | Err _ => Done (Err tt)
      | Ok orig_to_mode =>
          match spci_msg_get_next_state (transition_table share) memory_to_attributes
                  orig_from_mode orig_to_mode with
          | Err _ => Done (Err tt)
          | Ok (from_mode, to_mode) => Done (Ok (orig_from_mode, from_mode, to_mode))
          end
      end
  end.

(** [spci_share_memory] of the region at [memory_region] between two different
    VMs ([same]: whether they are one). *)
Definition spci_share_memory (same : bool) (to_inner from_inner : VmInner) (mem : Mem)
    (memory_region memory_to_attributes : Z) (share : SpciMemoryShare.t) (st : MmState)
    : exec (SpciReturn * VmInner * VmInner * MmState) :=
  if same then Done (InvalidParameters, to_inner, from_inner, st)
  else
  let st := new_local st in
  let constituent := region_constituents memory_region in
  let size := constituent_page_count mem constituent *w PAGE_SIZE in
  let begin := ipa_init (constituent_address mem constituent) in
  let end_ := ipa_add begin size in
  r ← spci_msg_check_transition to_inner from_inner share begin end_ memory_to_attributes;
  match r with
  | Err _ => Done (InvalidParameters, to_inner, from_inner, drop_local st)
  | Ok (orig_from_mode, from_mode, to_mode) =>
      let pa_begin := pa_from_ipa begin in
      let pa_end := pa_from_ipa end_ in
      '(ok, ft, st) ← identity_map (SG := Stage2) (ptable from_inner) pa_begin pa_end from_mode st;
      if negb ok then Done (NoMemory, to_inner, with_ptable ft from_inner, drop_local st)
      else
      '(ok, tot, st) ← identity_map (SG := Stage2) (ptable to_inner) pa_begin pa_end to_mode st;
      if negb ok then
        '(ft, st) ← mm_vm_defrag ft st;
        '(ok, ft, st) ← identity_map (SG := Stage2) ft pa_begin pa_end orig_from_mode st;
        assert_then ok
          (Done (NoMemory, with_ptable tot to_inner, with_ptable ft from_inner, drop_local st))
      else Done (Success, with_ptable tot to_inner, with_ptable ft from_inner, drop_local st)
  end.

(** [spci_validate_call_share_memory]. *)
Definition spci_validate_call_share_memory (same : bool) (to_inner from_inner : VmInner) (mem : Mem)
    (memory_region memory_share_size memory_to_attributes : Z) (share : SpciMemoryShare.t) (st : MmState)
    : exec (SpciReturn * VmInner * VmInner * MmState) :=
  let max_count := region_count mem memory_region in
  if negb (memory_share_size =? SIZEOF_SpciMemoryRegion +w SIZEOF_SpciMemoryRegionConstituent *w max_count)
  then Done (InvalidParameters, to_inner, from_inner, st)
  else spci_share_memory same to_inner from_inner mem memory_region memory_to_attributes share st.

(** [spci_msg_handle_architected_message] of the replica at [amr].  The last copy
    counts in units of the header type, 8 bytes each: it may read past the buffer of
    the CPU, a page of the image, and write past the receive page. *)
Definition spci_msg_handle_architected_message (same : bool) (to_inner from_inner : VmInner) (mem : Mem)
    (amr : Z) (from_msg_replica : SpciMessage) (to_msg : Z) (hp : PageTable) (st : MmState)
    : exec (SpciReturn * VmInner * VmInner * Mem * MmState) :=
  let from_msg_payload_length := length_ from_msg_replica in
  message_type ← header_type mem amr;
  let payload := header_payload amr in
  '(ret, to_inner, from_inner, st) ←
    match message_type with
    | SpciMemoryShare.Donate | SpciMemoryShare.Relinquish =>
        let memory_share_size := from_msg_payload_length -w SIZEOF_SpciArchitectedMessageHeader in
        spci_validate_call_share_memory same to_inner from_inner mem payload memory_share_size
          (Z.lor (Z.lor Mode.R Mode.W) Mode.X) message_type st
    | SpciMemoryShare.Lend =>
        let borrower_attributes := lend_borrower_attributes mem payload in
        let memory_share_size :=
          from_msg_payload_length -w SIZEOF_SpciArchitectedMessageHeader -w SIZEOF_SpciMemoryLend in
        to_mode ← spci_memory_attrs_to_mode borrower_attributes;
        spci_validate_call_share_memory same to_inner from_inner mem (lend_payload payload)
          memory_share_size to_mode message_type st
    end;
  mem ← (if bool_decide (ret = Success) then
           let bytes := from_msg_payload_length * SIZEOF_SpciArchitectedMessageHeader in
           assert_then (from_msg_payload_length <=? SPCI_MSG_PAYLOAD_MAX) (
           assert_then (el2_reads hp (amr + PAGE_SIZE) (bytes - PAGE_SIZE) && el2_writes hp (to_msg + SIZEOF_SpciMessage) bytes) (
           Done (memcpy mem (to_msg + SIZEOF_SpciMessage) amr bytes)))
         else Done mem);
  assert_then (el2_writes hp to_msg SIZEOF_SpciMessage)
    (Done (ret, to_inner, from_inner, write_message mem to_msg from_msg_replica, st)).
End share.
