(* ===== verification/Hypervisor.v ===== *)
(** * The hypercalls ([hypervisor.rs])

    The state of the hypervisor and one definition per operation of
    [impl Hypervisor].  A call runs to completion on one physical CPU; the locks it
    takes and releases on the way are not part of the state, the execution locks of
    the vCPUs, which outlive the calls, are.  [hw] are the registers of the CPU the
    call runs on, each [now] one read of its virtual counter.  The result of a call
    that switches to another vCPU holds that vCPU ([Some]).  Log output is left
    out. *)
From S2P Require Import Prelude Addr Mode Arch Mpool Mm MemoryManager MmTable Access Abi ArchCpu Interrupts Cpu Vm Memory Spci.

(** A pointer to a vCPU: its VM and its index in it. *)
Notation vref := (nat * nat)%type.

Record Hypervisor := mkHypervisor {
  (** [mpool], the TLB maintenance issued and the stage-2 invalidation switch. *)
  hv_mm : MmState;
  (** [memory_manager.hypervisor_ptable]. *)
  hv_ptable : PageTable;
  (** [cpu_manager] and [vm_manager]. *)
  hv_cpus : list Cpu;
  hv_vms : list Vm;
  (** The links of the wait entries. *)
  hv_links : Links;
  hv_mem : Mem;
}.

Definition set_mm (st : MmState) (hv : Hypervisor) : Hypervisor :=
  mkHypervisor st (hv_ptable hv) (hv_cpus hv) (hv_vms hv) (hv_links hv) (hv_mem hv).
Definition set_hv_ptable (t : PageTable) (hv : Hypervisor) : Hypervisor :=
  mkHypervisor (hv_mm hv) t (hv_cpus hv) (hv_vms hv) (hv_links hv) (hv_mem hv).
Definition set_vms (vms : list Vm) (hv : Hypervisor) : Hypervisor :=
  mkHypervisor (hv_mm hv) (hv_ptable hv) (hv_cpus hv) vms (hv_links hv) (hv_mem hv).
Definition set_links (lk : Links) (hv : Hypervisor) : Hypervisor :=
  mkHypervisor (hv_mm hv) (hv_ptable hv) (hv_cpus hv) (hv_vms hv) lk (hv_mem hv).
Definition set_mem (mem : Mem) (hv : Hypervisor) : Hypervisor :=
  mkHypervisor (hv_mm hv) (hv_ptable hv) (hv_cpus hv) (hv_vms hv) (hv_links hv) mem.

(** Following a pointer; the code only holds pointers to existing objects. *)
Definition vm_of (hv : Hypervisor) (v : nat) : exec Vm := unwrap_opt (hv_vms hv !! v).
Definition vcpu_of (hv : Hypervisor) (c : vref) : exec VCpu :=
  vm ← vm_of hv c.1; unwrap_opt (vcpus vm !! c.2).
Definition upd_vm (v : nat) (f : Vm → Vm) (hv : Hypervisor) : Hypervisor :=
  set_vms (alter f v (hv_vms hv)) hv.
Definition upd_vc (c : vref) (f : VCpu → VCpu) (hv : Hypervisor) : Hypervisor :=
  upd_vm c.1 (upd_vcpu c.2 f) hv.
Definition set_inner (v : nat) (i : VmInner) (hv : Hypervisor) : Hypervisor :=
  upd_vm v (upd_vm_inner (λ _, i)) hv.

(** ** Scheduling *)

(** The sleep time of a blocked vCPU with a running timer. *)
Definition sleep_ns (hw : Hw) (now : Z) : Z :=
  if arch_timer_enabled_current hw then arch_timer_remaining_ns_current hw now else HF_SLEEP_INDEFINITE.

Definition switch_to_primary (hw : Hw) (now : Z) (hv : Hypervisor) (current : vref)
    (primary_ret : HfVCpuRunReturn) (secondary_state : VCpuStatus.t) : exec (vref * Hypervisor) :=
  primary ← vm_of hv primary_index;
  cur ← vcpu_of hv current;
  idx ← unwrap_opt (index_of (vi_cpu (vc_inner cur)));
  _ ← index_vcpu (vcpus primary) (Some idx);
  let next := (primary_index, idx) in
  let primary_ret :=
    match primary_ret with
    | WaitForInterrupt _ => WaitForInterrupt (sleep_ns hw now)
    | WaitForMessage _ => WaitForMessage (sleep_ns hw now)
    | ret => ret
    end in
  let hv := upd_vc next (upd_inner (with_regs (λ regs, set_retval regs (into_raw primary_ret)))) hv in
  let hv := upd_vc current (upd_inner (with_state secondary_state)) hv in
  Done (next, hv).

Definition preempt (hw : Hw) (now : Z) (hv : Hypervisor) (current : vref) : exec (vref * Hypervisor) :=
  switch_to_primary hw now hv current Preempted VCpuStatus.Ready.
Definition wait_for_interrupt (hw : Hw) (now : Z) (hv : Hypervisor) (current : vref)
    : exec (vref * Hypervisor) :=
  switch_to_primary hw now hv current (WaitForInterrupt HF_SLEEP_INDEFINITE) VCpuStatus.BlockedInterrupt.
(** Also the timer registers after the call. *)
Definition vcpu_off (hw : Hw) (now : Z) (hv : Hypervisor) (current : vref) : exec (vref * Hypervisor * Hw) :=
  let hw := arch_timer_disable_current hw in
  '(next, hv) ← switch_to_primary hw now hv current (WaitForInterrupt HF_SLEEP_INDEFINITE) VCpuStatus.Off;
  Done (next, hv, hw).
Definition spci_yield (hw : Hw) (now : Z) (hv : Hypervisor) (current : vref)
    : exec (option vref * Hypervisor) :=
  vm ← vm_of hv current.1;
  if vm_id vm =? HF_PRIMARY_VM_ID then Done (None, hv)
  else '(next, hv) ← switch_to_primary hw now hv current Yield VCpuStatus.Ready; Done (Some next, hv).
Definition wake_up (hw : Hw) (now : Z) (hv : Hypervisor) (current target_vcpu : vref)
    : exec (vref * Hypervisor) :=
  vm ← vm_of hv target_vcpu.1;
  switch_to_primary hw now hv current (WakeUp (vm_id vm) (Z.of_nat target_vcpu.2)) VCpuStatus.Ready.
(** [None]: the primary VM aborts, and the CPU spins. *)
Definition abort (hw : Hw) (now : Z) (hv : Hypervisor) (current : vref)
    : exec (option (vref * Hypervisor)) :=
  vm ← vm_of hv current.1;
  if vm_id vm =? HF_PRIMARY_VM_ID then Done None
  else
    let hv := upd_vm current.1 (λ vm, mkVm (vm_id vm) (vcpus vm) (vm_inner vm) true) hv in
    '(next, hv) ← switch_to_primary hw now hv current Aborted VCpuStatus.Aborted;
    Done (Some (next, hv)).

Definition vm_get_id (hv : Hypervisor) (current : vref) : exec Z := vm ← vm_of hv current.1; Done (vm_id vm).
Definition vm_get_count (hv : Hypervisor) : Z := vm_len (hv_vms hv).
Definition vcpu_get_count (hv : Hypervisor) (id : Z) (current : vref) : exec (option Z) :=
  cur ← vm_of hv current.1;
  if negb (vm_id cur =? HF_PRIMARY_VM_ID) then Done None
  else
    v ← get_vm (hv_vms hv) id;
    match v with
    | None => Done None
    | Some v => vm ← vm_of hv v; Done (Some (vm_get_vcpu_count vm))
    end.

(** ** Interrupts *)
Definition internal_interrupt_inject (hw : Hw) (now : Z) (hv : Hypervisor) (target_vcpu : vref) (intid : Z)
    (current : vref) : exec (Z * option vref * Hypervisor) :=
  target ← vcpu_of hv target_vcpu;
  let '(ok, ints) := inject (vc_interrupts target) intid in
  let hv := upd_vc target_vcpu (upd_interrupts ints) hv in
  if ok : bool then
    vm ← vm_of hv current.1;
    if vm_id vm =? HF_PRIMARY_VM_ID then Done (1, None, hv)
    else if negb (bool_decide (current = target_vcpu)) then
      '(next, hv) ← wake_up hw now hv current target_vcpu; Done (0, Some next, hv)
    else Done (0, None, hv)
  else Done (0, None, hv).

Definition interrupt_enable (hv : Hypervisor) (intid : Z) (on : bool) (current : vref)
    : exec (bool * Hypervisor) :=
  cur ← vcpu_of hv current;
  let '(ok, ints) := enable (vc_interrupts cur) intid on in
  Done (ok, upd_vc current (upd_interrupts ints) hv).
Definition interrupt_get (hv : Hypervisor) (current : vref) : exec (Z * Hypervisor) :=
  cur ← vcpu_of hv current;
  let '(intid, ints) := get (vc_interrupts cur) in
  Done (intid, upd_vc current (upd_interrupts ints) hv).

Definition is_injection_allowed (current_vm_id target_vm_id : Z) : bool :=
  (current_vm_id =? HF_PRIMARY_VM_ID) || (current_vm_id =? target_vm_id).
Definition interrupt_inject (hw : Hw) (now : Z) (hv : Hypervisor) (target_vm_id target_vcpu_idx intid : Z)
    (current : vref) : exec (Z * option vref * Hypervisor) :=
  v ← get_vm (hv_vms hv) target_vm_id;
  match v with
  | None => Done (-1, None, hv)
  | Some v =>
      if HF_NUM_INTIDS <=? intid then Done (-1, None, hv)
      else
      cur ← vm_of hv current.1;
      if negb (is_injection_allowed (vm_id cur) target_vm_id) then Done (-1, None, hv)
      else
      target_vm ← vm_of hv v;
      match vcpus target_vm !! Z.to_nat target_vcpu_idx with
      | None => Done (-1, None, hv)
      | Some _ => internal_interrupt_inject hw now hv (v, Z.to_nat target_vcpu_idx) intid current
      end
  end.

(** ** Running vCPUs *)

(** [vcpu_prepare_run] without the lock: what happens to the vCPU whose lock has
    been taken.  [Ok]: it shall run. *)
Definition prepare_locked (hw : Hw) (now1 now2 : Z) (vm : Vm) (v : VCpu) (cpu : option nat)
    (run_ret : HfVCpuRunReturn) : result unit HfVCpuRunReturn * Vm * VCpu :=
  let st := vi_state (vc_inner v) in
  if aborting vm then
    (Err run_ret, vm,
     if bool_decide (st = VCpuStatus.Aborted) then v else upd_inner (with_state VCpuStatus.Aborted) v)
  else
  let run vm v := (Ok tt, vm, upd_inner (with_cpu cpu) v) in
  let deliver_or_block :=
    if negb (is_interrupted (vc_interrupts v)) && negb (arch_timer_pending now1 (vi_regs (vc_inner v))) then
      let regs := vi_regs (vc_inner v) in
      let run_ret :=
        if negb (arch_timer_enabled regs) then run_ret
        else let ns := arch_timer_remaining_ns hw now2 regs in
             if bool_decide (st = VCpuStatus.BlockedMailbox) then WaitForMessage ns else WaitForInterrupt ns in
      (Err run_ret, vm, v)
    else run vm v in
  match st with
  | VCpuStatus.Off | VCpuStatus.Aborted => (Err run_ret, vm, v)
  | VCpuStatus.BlockedMailbox =>
      let '(ok, m) := try_read (mailbox (vm_inner vm)) in
      if ok : bool then
        run (upd_vm_inner (with_mailbox m) vm)
            (upd_inner (with_regs (λ regs, set_retval regs (wrap 64 (spci_return_code Success)))) v)
      else deliver_or_block
  | VCpuStatus.BlockedInterrupt => deliver_or_block
  | VCpuStatus.Ready => run vm v
  end.

Definition vcpu_prepare_run (hw : Hw) (now1 now2 : Z) (hv : Hypervisor) (current vcpu : vref)
    (run_ret : HfVCpuRunReturn) : exec (result vref HfVCpuRunReturn * Hypervisor) :=
  v ← vcpu_of hv vcpu;
  let '(got, v) := vcpu_try_lock v in
  if negb got then Done (Err run_ret, hv)
  else
  vm ← vm_of hv vcpu.1;
  cur ← vcpu_of hv current;
  let '(res, vm, v) := prepare_locked hw now1 now2 vm v (vi_cpu (vc_inner cur)) run_ret in
  let put v := upd_vm vcpu.1 (λ _, upd_vcpu vcpu.2 (λ _, v) vm) hv in
  match res with
  | Ok _ => Done (Ok vcpu, put v)
  | Err ret => Done (Err ret, put (vcpu_unlock v))
  end.

Definition vcpu_run (hw : Hw) (now1 now2 now3 : Z) (hv : Hypervisor) (id vcpu_idx : Z) (current : vref)
    : exec (result vref HfVCpuRunReturn * Hypervisor) :=
  let ret := WaitForInterrupt HF_SLEEP_INDEFINITE in
  cur ← vm_of hv current.1;
  if negb (vm_id cur =? HF_PRIMARY_VM_ID) then Done (Err ret, hv)
  else if id =? HF_PRIMARY_VM_ID then Done (Err ret, hv)
  else
  v ← get_vm (hv_vms hv) id;
  match v with
  | None => Done (Err ret, hv)
  | Some v =>
      vm ← vm_of hv v;
      match vcpus vm !! Z.to_nat vcpu_idx with
      | None => Done (Err ret, hv)
      | Some _ =>
          let vcpu := (v, Z.to_nat vcpu_idx) in
          '(r, hv) ← vcpu_prepare_run hw now1 now2 hv current vcpu ret;
          match r with
          | Err ret => Done (Err ret, hv)
          | Ok locked =>
              vc ← vcpu_of hv locked;
              if arch_timer_pending now3 (vi_regs (vc_inner vc)) then
                '(_, _, hv) ← internal_interrupt_inject hw now3 hv vcpu HF_VIRTUAL_TIMER_INTID locked;
                Done (Ok locked, upd_vc locked (upd_inner (with_regs arch_timer_mask)) hv)
              else Done (Ok locked, hv)
          end
      end
  end.

(** ** Mailboxes *)
Definition waiter_result (hw : Hw) (now : Z) (hv : Hypervisor) (id : Z) (inner : VmInner) (current : vref)
    : exec (Z * option vref * Hypervisor) :=
  if is_waiter_list_empty (mailbox inner) then Done (0, None, hv)
  else if id =? HF_PRIMARY_VM_ID then Done (1, None, hv)
  else '(next, hv) ← switch_to_primary hw now hv current NotifyWaiters VCpuStatus.Ready;
       Done (0, Some next, hv).

Definition spci_msg_recv (hw : Hw) (now : Z) (hv : Hypervisor) (attributes : Z) (current : vref)
    : exec (SpciReturn * option vref * Hypervisor) :=
  vm ← vm_of hv current.1;
  let block := bf_contains attributes BLOCK in
  if vm_id vm =? HF_PRIMARY_VM_ID then Done (Interrupted, None, hv)
  else
  let '(ok, m) := try_read (mailbox (vm_inner vm)) in
  let hv := upd_vm current.1 (upd_vm_inner (with_mailbox m)) hv in
  if ok : bool then Done (Success, None, hv)
  else if negb block then Done (Retry, None, hv)
  else
  cur ← vcpu_of hv current;
  if negb (is_interrupted (vc_interrupts cur)) then
    '(next, hv) ← switch_to_primary hw now hv current (WaitForMessage HF_SLEEP_INDEFINITE)
                    VCpuStatus.BlockedMailbox;
    Done (Interrupted, Some next, hv)
  else Done (Interrupted, None, hv).

Definition mailbox_writable_get (hv : Hypervisor) (current : vref) : exec (option Z * Hypervisor) :=
  vm ← vm_of hv current.1;
  let '(r, i, lk) := dequeue_ready_list (vm_inner vm) (hv_links hv) in
  Done (r, set_links lk (set_inner current.1 i hv)).

Definition mailbox_waiter_get (hv : Hypervisor) (id : Z) (current : vref) : exec (option Z * Hypervisor) :=
  cur ← vm_of hv current.1;
  if negb (vm_id cur =? HF_PRIMARY_VM_ID) then Done (None, hv)
  else
  v ← get_vm (hv_vms hv) id;
  match v with
  | None => Done (None, hv)
  | Some v =>
      vm ← vm_of hv v;
      let '(e, m, lk) := fetch_waiter (mailbox (vm_inner vm)) (hv_links hv) in
      let hv := set_links lk (upd_vm v (upd_vm_inner (with_mailbox m)) hv) in
      match e with
      | None => Done (None, hv)
      | Some e =>
          owner ← vm_of hv e.1;
          waiting ← unwrap_opt (wait_entries (vm_inner owner) !! e.2);
          waiting_vm ← vm_of hv waiting;
          let hv :=
            if negb (bool_decide (e ∈ ready_linked (hv_links hv))) then
              let '(i, lk) := enqueue_ready_list (vm_inner waiting_vm) e (hv_links hv) in
              set_links lk (set_inner waiting i hv)
            else hv in
          Done (Some (vm_id waiting_vm), hv)
      end
  end.

Definition mailbox_clear (hw : Hw) (now : Z) (hv : Hypervisor) (current : vref)
    : exec (Z * option vref * Hypervisor) :=
  vm ← vm_of hv current.1;
  match mb_state (mailbox (vm_inner vm)) with
  | MailboxState.Empty => Done (0, None, hv)
  | MailboxState.Received => Done (-1, None, hv)
  | MailboxState.Read =>
      let i := set_empty (vm_inner vm) in
      waiter_result hw now (set_inner current.1 i hv) (vm_id vm) i current
  end.

Section memory.
Context {A : ArchMM} {RD : ReduceCrate}.

Definition vm_configure (hw : Hw) (now : Z) (hv : Hypervisor) (send recv : ipaddr_t) (current : vref)
    : exec (Z * option vref * Hypervisor) :=
  vm ← vm_of hv current.1;
  '(ok, i, hp, st) ← configure (vm_inner vm) send recv (hv_ptable hv) (hv_mm hv);
  let hv := set_mm st (set_hv_ptable hp (set_inner current.1 i hv)) in
  if negb ok then Done (-1, None, hv)
  else waiter_result hw now hv (vm_id vm) i current.

(** The static [MESSAGE_BUFFER]: one page per CPU id below [MAX_CPUS]. *)
Context (MESSAGE_BUFFER : Z).
Definition cpu_get_buffer (cpu_id : Z) : exec Z :=
  assert_then (cpu_id <? MAX_CPUS) (Done (MESSAGE_BUFFER + cpu_id * PAGE_SIZE)).

(** The end of [spci_msg_send]: the message is in the mailbox of VM [to]. *)
Definition deliver (hw : Hw) (now : Z) (hv : Hypervisor) (to from : nat) (current : vref)
    : exec (SpciReturn * option vref * Hypervisor) :=
  to_vm ← vm_of hv to;
  from_vm ← vm_of hv from;
  let primary_ret := Message (vm_id to_vm) in
  if vm_id to_vm =? HF_PRIMARY_VM_ID then
    let hv := upd_vm to (upd_vm_inner (λ i, with_mailbox (set_read (mailbox i)) i)) hv in
    '(next, hv) ← switch_to_primary hw now hv current primary_ret VCpuStatus.Ready;
    Done (Success, Some next, hv)
  else
    let hv := upd_vm to (upd_vm_inner (λ i, with_mailbox (set_received (mailbox i)) i)) hv in
    if negb (vm_id from_vm =? HF_PRIMARY_VM_ID) then
      '(next, hv) ← switch_to_primary hw now hv current primary_ret VCpuStatus.Ready;
      Done (Success, Some next, hv)
    else Done (Success, None, hv).

Definition spci_msg_send (hw : Hw) (now : Z) (hv : Hypervisor) (attributes : Z) (current : vref)
    : exec (SpciReturn * option vref * Hypervisor) :=
  let from := current.1 in
  from_vm ← vm_of hv from;
  let notify := bf_contains attributes NOTIFY in
  let from_msg := mb_send (mailbox (vm_inner from_vm)) in
  if from_msg =? 0 then Done (InvalidParameters, None, hv)
  else
  assert_then (el2_reads (hv_ptable hv) from_msg SIZEOF_SpciMessage) (
  let replica := read_message (hv_mem hv) from_msg in
  let len := length_ replica in
  if negb (source_vm_id replica =? vm_id from_vm) then Done (InvalidParameters, None, hv)
  else if SPCI_MSG_PAYLOAD_MAX <? len then Done (InvalidParameters, None, hv)
  else if target_vm_id replica =? vm_id from_vm then Done (InvalidParameters, None, hv)
  else
  to ← get_vm (hv_vms hv) (target_vm_id replica);
  match to with
  | None => Done (InvalidParameters, None, hv)
  | Some to =>
      to_vm ← vm_of hv to;
      if negb (mailbox_empty (vm_inner to_vm)) || negb (is_configured (vm_inner to_vm)) then
        if notify then
          '(_, i, lk) ← wait_for from (vm_inner from_vm) (vm_inner to_vm) (vm_id to_vm) (hv_links hv);
          Done (Busy, None, set_links lk (set_inner to i hv))
        else Done (Busy, None, hv)
      else
      let to_msg := mb_recv (mailbox (vm_inner to_vm)) in
      if bf_contains (flags replica) IMPDEF then
        assert_then (el2_writes (hv_ptable hv) to_msg (SIZEOF_SpciMessage + len) &&
                     el2_reads (hv_ptable hv) (from_msg + SIZEOF_SpciMessage) len) (
        let mem := write_message (hv_mem hv) to_msg replica in
        let mem := memcpy mem (to_msg + SIZEOF_SpciMessage) (from_msg + SIZEOF_SpciMessage) len in
        deliver hw now (set_mem mem hv) to from current)
      else
        cur ← vcpu_of hv current;
        cpu ← unwrap_opt (vi_cpu (vc_inner cur) ≫= λ c, hv_cpus hv !! c);
        buffer ← cpu_get_buffer (cpu_id cpu);
        if PAGE_SIZE <? len then Done (InvalidParameters, None, hv)
        else if len <? SIZEOF_SpciArchitectedMessageHeader then Done (InvalidParameters, None, hv)
        else
        assert_then (el2_reads (hv_ptable hv) (get_architected_message_header from_msg) len) (
        let mem := memcpy (hv_mem hv) buffer (get_architected_message_header from_msg) len in
        '(ret, to_i, from_i, mem, st) ←
          spci_msg_handle_architected_message (bool_decide (to = from)) (vm_inner to_vm) (vm_inner from_vm)
            mem buffer replica to_msg (hv_ptable hv) (hv_mm hv);
        let hv := set_mm st (set_mem mem (set_inner from from_i (set_inner to to_i hv))) in
        if negb (bool_decide (ret = Success)) then Done (ret, None, hv)
        else deliver hw now hv to from current)
  end).

(** ** Memory *)

(** [clear_memory] with the pool of [st]: success, the stage-1 table, memory and
    the pool.  The write faults past the end of the hypervisor's address space,
    which [identity_map] does not report. *)
Definition clear_memory (hp : PageTable) (mem : Mem) (begin end_ : paddr_t) (st : MmState)
    : exec (bool * PageTable * Mem * MmState) :=
  let size := pa_difference begin end_ in
  let region := pa_addr begin in
  '(ok, hp, st) ← identity_map (SG := Stage1) hp begin end_ Mode.W st;
  if negb ok then
    '(hp, st) ← mm_defrag hp st; Done (false, hp, mem, st)
  else
    assert_then (region + size <=? ptable_addr_space_end (SG := Stage1)) (
    let mem := memset mem region 0 size in
    '(ok, hp, st) ← unmap (SG := Stage1) hp begin end_ st;
    assert_then ok (Done (true, hp, mem, st))).

Definition share_modes (share : HfShare) : Z * Z :=
  let rwx := Z.lor (Z.lor Mode.R Mode.W) Mode.X in
  match share with
  | Give => (Z.lor Mode.INVALID Mode.UNOWNED, rwx)
  | Lend => (Mode.INVALID, Z.lor rwx Mode.UNOWNED)
  | Share => (Z.lor rwx Mode.SHARED, Z.lor (Z.lor rwx Mode.UNOWNED) Mode.SHARED)
  end.

(** The checks of [share_memory] on the modes before the transfer: the mode of the
    sender, if the transfer is allowed. *)
Definition share_allowed (from_t to_t : PageTable) (begin end_ : ipaddr_t) (share : HfShare)
    : exec (result Z unit) :=
  r ← get_mode (SG := Stage2) from_t begin end_;
  match r with
  | Err _ => Done (Err tt)
  | Ok orig_from_mode =>
      if bf_contains orig_from_mode Mode.INVALID then Done (Err tt)
      else if bf_contains orig_from_mode Mode.UNOWNED then
        r ← get_mode (SG := Stage2) to_t begin end_;
        match r with
        | Err _ => Done (Err tt)
        | Ok to_mode =>
            if bf_contains to_mode Mode.UNOWNED then Done (Err tt)
            else if negb (bool_decide (share = Give)) then Done (Err tt)
            else Done (Ok orig_from_mode)
        end
      else if bf_contains orig_from_mode Mode.SHARED then Done (Err tt)
      else Done (Ok orig_from_mode)
  end.

(** The transfer itself: sender, scrubbing, recipient, with the roll-backs; the
    tables of the sender, of the recipient and of the hypervisor, memory and pool. *)
Definition share_transfer (from_t to_t hp : PageTable) (mem : Mem) (begin end_ : paddr_t)
    (orig_from_mode from_mode to_mode : Z) (st : MmState)
    : exec (bool * PageTable * PageTable * PageTable * Mem * MmState) :=
  '(ok, from_t, st) ← identity_map (SG := Stage2) from_t begin end_ from_mode st;
  if negb ok then Done (false, from_t, to_t, hp, mem, st)
  else
  '(ok, hp, mem, st) ← clear_memory hp mem begin end_ st;
  if negb ok then
    '(ok, from_t, st) ← identity_map (SG := Stage2) from_t begin end_ orig_from_mode st;
    assert_then ok (Done (false, from_t, to_t, hp, mem, st))
  else
  '(ok, to_t, st) ← identity_map (SG := Stage2) to_t begin end_ to_mode st;
  if negb ok then
    '(from_t, st) ← mm_vm_defrag from_t st;
    '(ok, from_t, st) ← identity_map (SG := Stage2) from_t begin end_ orig_from_mode st;
    assert_then ok (Done (false, from_t, to_t, hp, mem, st))
  else Done (true, from_t, to_t, hp, mem, st).

Definition share_memory (hv : Hypervisor) (id : Z) (addr : ipaddr_t) (size : Z) (share : HfShare) (current : vref)
    : exec (bool * Hypervisor) :=
  let from := current.1 in
  from_vm ← vm_of hv from;
  if id =? vm_id from_vm then Done (false, hv)
  else
  to ← get_vm (hv_vms hv) id;
  match to with
  | None => Done (false, hv)
  | Some to =>
      to_vm ← vm_of hv to;
      let begin := addr in
      let end_ := ipa_add addr size in
      if negb (is_aligned (ipa_addr begin) PAGE_SIZE) || negb (is_aligned (ipa_addr end_) PAGE_SIZE)
      then Done (false, hv)
      else
      let '(from_mode, to_mode) := share_modes share in
      let from_t := ptable (vm_inner from_vm) in
      let to_t := ptable (vm_inner to_vm) in
      r ← share_allowed from_t to_t begin end_ share;
      match r with
      | Err _ => Done (false, set_mm (drop_local (new_local (hv_mm hv))) hv)
      | Ok orig_from_mode =>
          '(ok, from_t, to_t, hp, mem, st) ←
            share_transfer from_t to_t (hv_ptable hv) (hv_mem hv) (pa_from_ipa begin) (pa_from_ipa end_)
              orig_from_mode from_mode to_mode (new_local (hv_mm hv));
          let hv := upd_vm from (upd_vm_inner (with_ptable from_t)) hv in
          let hv := upd_vm to (upd_vm_inner (with_ptable to_t)) hv in
          Done (ok, set_mm (drop_local st) (set_mem mem (set_hv_ptable hp hv)))
      end
  end.

Definition spci_version : Z :=
  Z.lor (Z.shiftl SPCI_VERSION_MAJOR SPCI_VERSION_MAJOR_OFFSET) SPCI_VERSION_MINOR.

(** [Hypervisor::debug_log]: the bytes logged. *)
Definition hv_debug_log (hv : Hypervisor) (c : Z) (current : vref) : exec (option (list Z) * Hypervisor) :=
  vm ← vm_of hv current.1;
  '(out, i) ← debug_log (vm_inner vm) c;
  Done (out, set_inner current.1 i hv).
End memory.
