(* ===== verification/Load.v ===== *)
(** * Loading the virtual machines ([load.rs])

    The primary VM gets all memory but the hypervisor's and the secondaries'; each
    secondary VM of the manifest gets a range carved out of the memory ranges of the
    boot parameters, with its kernel at the beginning.  The functions work on the
    hypervisor's state, its memory included. *)
From Stdlib Require Import String.
From S2P Require Import Prelude Addr Mode Arch Mpool Mm MemoryManager ArchCpu Cpu Vm Memory Memiter Cpio Manifest FdtHandler Hypervisor.

(** [as_asciz]: the bytes before the first zero. *)
Fixpoint as_asciz (l : list Z) : list Z :=
  match l with
  | [] => []
  | c :: l => if c =? 0 then [] else c :: as_asciz l
  end.

(** [str::from_utf8(..).is_ok()]: well-formed UTF-8, without overlong forms and
    surrogates. *)
Definition cont (c : Z) : bool := (0x80 <=? c) && (c <=? 0xbf).
Definition between (a b c : Z) : bool := (a <=? c) && (c <=? b).
Fixpoint utf8_ok (l : list Z) : bool :=
  match l with
  | [] => true
  | a :: l1 =>
      if a <? 0x80 then utf8_ok l1
      else match l1 with
      | [] => false
      | b :: l2 =>
          if between 0xc2 0xdf a && cont b then utf8_ok l2
          else match l2 with
          | [] => false
          | c :: l3 =>
              if ((a =? 0xe0) && between 0xa0 0xbf b || between 0xe1 0xec a && cont b || (a =? 0xed) && between 0x80 0x9f b
                  || between 0xee 0xef a && cont b) && cont c then utf8_ok l3
              else match l3 with
              | [] => false
              | d :: l4 =>
                  if ((a =? 0xf0) && between 0x90 0xbf b || between 0xf1 0xf3 a && cont b || (a =? 0xf4) && between 0x80 0x8f b)
                     && cont c && cont d then utf8_ok l4
                  else false
              end
          end
      end
  end.

(** ** Ranges *)

(** [carve_out_mem_range]: the range found, and the ranges without it. *)
Fixpoint carve_out_mem_range (ranges : list MemRange) (size_to_find : Z)
    : result (paddr_t * paddr_t) unit * list MemRange :=
  match ranges with
  | [] => (Err tt, [])
  | mr :: ranges =>
      if size_to_find <=? pa_difference (r_begin mr) (r_end mr) then
        let found_end := r_end mr in
        let found_begin := pa_init (pa_addr (r_end mr) -w size_to_find) in
        (Ok (found_begin, found_end), mkMemRange (r_begin mr) found_begin :: ranges)
      else
        let '(r, ranges) := carve_out_mem_range ranges size_to_find in
        (r, mr :: ranges)
  end.

(** One reserved range more, if there is room. *)
Definition push_reserved (u : BootParamsUpdate) (b e : paddr_t) : exec (result unit unit * BootParamsUpdate) :=
  if MAX_MEM_RANGES <=? reserved_ranges_count u then Done (Err tt, u)
  else
    l ← array_set (reserved_ranges u) (reserved_ranges_count u) (mkMemRange b e);
    Done (Ok tt, mkBootParamsUpdate l (reserved_ranges_count u + 1) (upd_initrd_begin u) (upd_initrd_end u)).
Fixpoint reserved_difference (u : BootParamsUpdate) (l : list (MemRange * MemRange))
    : exec (result unit unit * BootParamsUpdate) :=
  match l with
  | [] => Done (Ok tt, u)
  | (before, after) :: l =>
      '(r, u) ← (if pa_addr (r_begin before) <? pa_addr (r_begin after)
                 then push_reserved u (r_begin before) (r_begin after) else Done (Ok tt, u));
      match r with
      | Err _ => Done (Err tt, u)
      | Ok _ =>
          '(r, u) ← (if pa_addr (r_end after) <? pa_addr (r_end before)
                     then push_reserved u (r_end after) (r_end before) else Done (Ok tt, u));
          match r with
          | Err _ => Done (Err tt, u)
          | Ok _ => reserved_difference u l
          end
      end
  end.
Definition update_reserved_ranges (u : BootParamsUpdate) (before after : list MemRange)
    : exec (result unit unit * BootParamsUpdate) :=
  assert_then (length before =? length after)%nat (reserved_difference u (zip before after)).

(** Rounds the last addresses down to the page size. *)
Fixpoint round_ends (l : list MemRange) : exec (list MemRange) :=
  match l with
  | [] => Done []
  | mr :: l =>
      e ← round_down (pa_addr (r_end mr)) PAGE_SIZE;
      l ← round_ends l;
      Done (mkMemRange (r_begin mr) (pa_init e) :: l)
  end.

Section load.
Context {A : ArchMM} {RD : ReduceCrate} {LG : StaleLogs}.
(** The bytes of the program behind the constant of [parse_cpio]. *)
Context (after_trailer : list Z) (lay : Layout).

(** [copy_to_unmapped].  The write faults past the end of the hypervisor's address
    space. *)
Definition copy_to_unmapped (hv : Hypervisor) (to : paddr_t) (from_it : MemIter) : exec (bool * Hypervisor) :=
  let from := get_next from_it in
  let size := it_len from_it in
  let to_end := pa_add to size in
  '(ok, hp, st) ← identity_map (SG := Stage1) (hv_ptable hv) to to_end Mode.W (hv_mm hv);
  if negb ok then Done (false, set_hv_ptable hp (set_mm st hv))
  else
    assert_then (pa_addr to + size <=? ptable_addr_space_end (SG := Stage1)) (
    let mem := memcpy (hv_mem hv) (pa_addr to) from size in
    '(ok, hp, st) ← unmap (SG := Stage1) hp to to_end st;
    assert_then ok (Done (true, set_mem mem (set_hv_ptable hp (set_mm st hv))))).

Definition S_vmlinuz : list Z := Eval vm_compute in lit "vmlinuz".
Definition S_initrd_img : list Z := Eval vm_compute in lit "initrd.img".
Definition RWX : Z := Z.lor (Z.lor Mode.R Mode.W) Mode.X.

(** The memory of the new primary VM, and its entry point. *)
Definition start_primary (hv : Hypervisor) (v : nat) (primary_begin : paddr_t) (arg : Z) : exec (bool * Hypervisor) :=
  vm ← vm_of hv v;
  '(ok, t, st) ← identity_map (SG := Stage2) (ptable (vm_inner vm)) (pa_init 0) (pa_init (1024 * 1024 * 1024 * 1024)) RWX (hv_mm hv);
  let hv := upd_vm v (upd_vm_inner (with_ptable t)) (set_mm st hv) in
  if negb ok then Done (false, hv)
  else
  '(ok, t, st) ← vm_unmap_hypervisor lay t (hv_mm hv);
  let hv := upd_vm v (upd_vm_inner (with_ptable t)) (set_mm st hv) in
  if negb ok then Done (false, hv)
  else
  _ ← vcpu_of hv (v, 0%nat);
  Done (true, upd_vc (v, 0%nat) (upd_inner (λ i, vcpu_on i (ipa_from_pa primary_begin) arg)) hv).

(** [load_primary]: the iterator over the primary's ramdisk. *)
Definition load_primary (hv : Hypervisor) (cpio : MemIter) (arg : Z) : exec (result MemIter unit * Hypervisor) :=
  let primary_begin := layout_primary_begin lay in
  it ← find_file (hv_mem hv) after_trailer cpio (asciz S_vmlinuz);
  match it with
  | None => Done (Err tt, hv)
  | Some it =>
      '(ok, hv) ← copy_to_unmapped hv primary_begin it;
      if negb ok then Done (Err tt, hv)
      else
      initrd ← find_file (hv_mem hv) after_trailer cpio (asciz S_initrd_img);
      match initrd with
      | None => Done (Err tt, hv)
      | Some initrd =>
          '(v, vms, st) ← new_vm (hv_vms hv) MAX_CPUS (hv_mm hv);
          let hv := set_vms vms (set_mm st hv) in
          match v with
          | None => Done (Err tt, hv)
          | Some v =>
              vm ← vm_of hv v;
              if negb (vm_id vm =? HF_PRIMARY_VM_ID) then Done (Err tt, hv)
              else
              '(ok, hv) ← start_primary hv v primary_begin arg;
              Done (if ok : bool then Ok initrd else Err tt, hv)
          end
      end
  end.

(** ** Secondary VMs *)

(** Creates a VM in the range and starts it; where the code logs an error and
    continues, the state is kept. *)
Definition start_secondary (hw : Hw) (hv : Hypervisor) (vcpu_count : Z) (mem_begin mem_end : paddr_t) : exec Hypervisor :=
  '(v, vms, st) ← new_vm (hv_vms hv) vcpu_count (hv_mm hv);
  let hv := set_vms vms (set_mm st hv) in
  match v with
  | None => Done hv
  | Some v =>
      vm ← vm_of hv v;
      '(ok, t, st) ← identity_map (SG := Stage2) (ptable (vm_inner vm)) mem_begin mem_end RWX (hv_mm hv);
      let hv := upd_vm v (upd_vm_inner (with_ptable t)) (set_mm st hv) in
      if negb ok then Done hv
      else
      c ← vcpu_of hv (v, 0%nat);
      r ← vcpu_secondary_reset_and_start hw (vm_id vm) (pa_init (root t)) 0 c (ipa_from_pa mem_begin)
            (pa_difference mem_begin mem_end);
      '(_, c) ← unwrap_opt r;
      Done (upd_vc (v, 0%nat) (λ _, c) hv)
  end.

(** One VM of the manifest: the ranges left, [Err] is [return Err(())]. *)
Definition load_vm (hw : Hw) (hv : Hypervisor) (cpio : MemIter) (ranges : list MemRange) (mvm : ManifestVm)
    : exec (result (list MemRange) unit * Hypervisor) :=
  (* the log message *)
  assert_then (utf8_ok (as_asciz (debug_name mvm))) (
  let filename := as_asciz (kernel_filename mvm) in
  k ← find_file_memiter (hv_mem hv) after_trailer cpio (buf_mem (kernel_filename mvm)) (from_raw BUF (Z.of_nat (length filename)));
  match k with
  | None => assert_then (utf8_ok filename) (Done (Ok ranges, hv))
  | Some kernel =>
      mem_size ← round_up (mem_size mvm) PAGE_SIZE;
      if mem_size <? it_len kernel then Done (Ok ranges, hv)
      else
      match carve_out_mem_range ranges mem_size with
      | (Err _, ranges) => Done (Ok ranges, hv)
      | (Ok (mem_begin, mem_end), ranges) =>
          '(ok, hv) ← copy_to_unmapped hv mem_begin kernel;
          if negb ok then Done (Ok ranges, hv)
          else
          p ← get_vm (hv_vms hv) HF_PRIMARY_VM_ID;
          primary ← unwrap_opt p;
          vm ← vm_of hv primary;
          '(ok, t, st) ← unmap (SG := Stage2) (ptable (vm_inner vm)) mem_begin mem_end (hv_mm hv);
          let hv := upd_vm primary (upd_vm_inner (with_ptable t)) (set_mm st hv) in
          if negb ok then Done (Err tt, hv)
          else
          hv ← start_secondary hw hv (vcpu_count mvm) mem_begin mem_end;
          Done (Ok ranges, hv)
      end
  end).

Fixpoint load_vms (hw : Hw) (hv : Hypervisor) (cpio : MemIter) (ranges : list MemRange) (i : Z) (vms : list ManifestVm)
    : exec (result (list MemRange) unit * Hypervisor) :=
  match vms with
  | [] => Done (Ok ranges, hv)
  | mvm :: vms =>
      let vm_id := wrap 16 (HF_VM_ID_OFFSET + i) in
      if vm_id =? HF_PRIMARY_VM_ID then load_vms hw hv cpio ranges (i + 1) vms
      else
      '(r, hv) ← load_vm hw hv cpio ranges mvm;
      match r with
      | Err _ => Done (Err tt, hv)
      | Ok ranges => load_vms hw hv cpio ranges (i + 1) vms
      end
  end.

Definition load_secondary (hw : Hw) (hv : Hypervisor) (m : Manifest) (cpio : MemIter) (params : BootParams)
    (update : BootParamsUpdate) : exec (result unit unit * BootParamsUpdate * Hypervisor) :=
  (* [clone_from_slice], [truncate] *)
  assert_then (length (mem_ranges params) =? Z.to_nat MAX_MEM_RANGES)%nat (
  ranges ← round_ends (take (Z.to_nat (mem_ranges_count params)) (mem_ranges params));
  '(r, hv) ← load_vms hw hv cpio ranges 0 (mf_vms m);
  match r with
  | Err _ => Done (Err tt, update, hv)
  | Ok ranges =>
      (* [&params.mem_ranges[0..params.mem_ranges_count]] *)
      assert_then (mem_ranges_count params <=? Z.of_nat (length (mem_ranges params))) (
      '(r, update) ← update_reserved_ranges update (take (Z.to_nat (mem_ranges_count params)) (mem_ranges params)) ranges;
      Done (r, update, hv))
  end).
End load.
