(* ===== verification/ManifestTests.v ===== *)
(** * The unit tests of the manifest ([manifest.rs], [mod test])

    The tests write device-tree sources, compile them with the tool [dtc] and read the
    manifest of the result.  Each test is a function of the compiler, and passes when
    it is [Done]; [m0] is the manifest that the tests leave uninitialised.  The
    theorem: with any compiler that encodes the trees the sources describe, wherever
    it puts the names of properties, all tests pass. *)
From Stdlib Require Import String.
From S2P Require Import Prelude Addr Memory Fdt FdtLoops FdtTree Manifest ManifestSpec Load.
Import Dt.

(** ** The builder *)
Module ManifestDtBuilder.
Import DtbDemo.
Definition NL : list Z := [10].
Definition QUOTE : list Z := [34].
(** [format!("{}", n)] of a [u64]. *)
Definition display_u64 (n : Z) : list Z := digits 20 n [].

Record t := mk { dts : list Z }.
Definition push_str (b : t) (s : list Z) : t := mk (dts b ++ s).

Definition start_child (name : string) (b : t) : t := push_str (push_str b (str name)) (str " {" ++ NL).
Definition end_child (b : t) : t := push_str b (str "};" ++ NL).
Definition new : t := start_child "/" (push_str (push_str (mk []) (str "/dts-v1/;" ++ NL)) NL).
(** What is piped into the compiler. *)
Definition build (dtc : list Z → list Z) (b : t) : list Z := dtc (dts (end_child b)).

Definition string_property (name value : string) (b : t) : t :=
  push_str b (str name ++ str " = " ++ QUOTE ++ str value ++ QUOTE ++ str ";" ++ NL).
(** [value.join(sep)]. *)
Fixpoint join (sep : list Z) (l : list string) : list Z :=
  match l with
  | [] => []
  | [s] => str s
  | s :: l => str s ++ sep ++ join sep l
  end.
Definition string_list_property (name : string) (value : list string) (b : t) : t :=
  let b := push_str b (str name ++ str " = " ++ QUOTE) in
  let b := push_str b (join (QUOTE ++ str ", " ++ QUOTE) value) in
  push_str b (QUOTE ++ str ";" ++ NL).
Definition integer_property (name : string) (value : Z) (b : t) : t :=
  push_str b (str name ++ str " = <" ++ display_u64 value ++ str ">;" ++ NL).

Definition compatible (value : list string) : t → t := string_list_property "compatible" value.
Definition compatible_hafnium : t → t := compatible ["hafnium,hafnium"%string].
Definition debug_name (value : string) : t → t := string_property "debug_name" value.
Definition kernel_filename (value : string) : t → t := string_property "kernel_filename" value.
Definition vcpu_count (value : Z) : t → t := integer_property "vcpu_count" value.
Definition mem_size (value : Z) : t → t := integer_property "mem_size" value.
End ManifestDtBuilder.

(** ** The tests *)
Declare Scope builder_scope.
Delimit Scope builder_scope with builder.
Notation "b '.>' f" := (f b) (at level 50, left associativity, only parsing) : builder_scope.

Section tests.
Import ManifestDtBuilder.
Context (dtc : list Z → list Z) (m0 : Manifest).
Open Scope builder_scope.
Open Scope string_scope.
Open Scope list_scope.
Open Scope Z_scope.
Abbreviation DT := ManifestDtBuilder.new.

(** The blob is in memory at [BUF]. *)
Definition get_fdt_root (dtb : list Z) : exec (option FdtNode) :=
  match new_root (buf_mem dtb) BUF with
  | None => Done None
  | Some node => '(_, node) ← find_child (buf_mem dtb) node [0]; Done (Some node)
  end.
(** [m.init(&fdt_root)] for the root of the blob, and the manifest after it. *)
Definition init_of (dtb : list Z) (m : Manifest) : exec (result unit Error.t * Manifest) :=
  root ← get_fdt_root dtb;
  root ← unwrap_opt root;
  manifest_init (buf_mem dtb) root m.
(** [assert_eq!(m.init(&fdt_root).unwrap_err(), e)]. *)
Definition assert_err (dtb : list Z) (m : Manifest) (e : Error.t) : exec Manifest :=
  '(r, m) ← init_of dtb m;
  match r with
  | Ok _ => Panic
  | Err e' => assert_then (bool_decide (e' = e)) (Done m)
  end.
(** [m.init(&fdt_root).unwrap()]. *)
Definition init_ok (dtb : list Z) (m : Manifest) : exec Manifest :=
  '(r, m) ← init_of dtb m;
  _ ← unwrap_res r;
  Done m.

Definition no_hypervisor_node : exec unit :=
  let dtb := build dtc DT in
  _ ← assert_err dtb m0 Error.NoHypervisorFdtNode; Done tt.

Definition no_compatible_property : exec unit :=
  let dtb := DT .> start_child "hypervisor" .> end_child .> build dtc in
  _ ← assert_err dtb m0 Error.PropertyNotFound; Done tt.

Definition not_compatible : exec unit :=
  let dtb := DT .> start_child "hypervisor" .> compatible ["foo,bar"] .> end_child .> build dtc in
  _ ← assert_err dtb m0 Error.NotCompatible; Done tt.

Definition compatible_one_of_many : exec unit :=
  let dtb :=
    DT .> start_child "hypervisor" .> compatible ["foo,bar"; "hafnium,hafnium"]
       .> start_child "vm1" .> debug_name "primary" .> end_child
       .> end_child .> build dtc in
  _ ← init_ok dtb m0; Done tt.

Definition no_vm_nodes : exec unit :=
  let dtb := DT .> start_child "hypervisor" .> compatible_hafnium .> end_child .> build dtc in
  _ ← assert_err dtb m0 Error.NoPrimaryVm; Done tt.

Definition LAST_VALID : string := "1234567890123456789012345678901".
Definition FIRST_INVALID : string := "12345678901234567890123456789012".
Definition gen_long_string_dtb (valid : bool) : exec (list Z) :=
  assert_then (Z.of_nat (length (DtbDemo.str LAST_VALID)) + 1 =? MANIFEST_MAX_STRING_LENGTH) (
  assert_then (Z.of_nat (length (DtbDemo.str FIRST_INVALID)) + 1 =? MANIFEST_MAX_STRING_LENGTH + 1) (
  Done (DT .> start_child "hypervisor" .> compatible_hafnium
           .> start_child "vm1" .> debug_name (if valid then LAST_VALID else FIRST_INVALID) .> end_child
           .> end_child .> build dtc))).
Definition long_string : exec unit :=
  dtb_last_valid ← gen_long_string_dtb true;
  dtb_first_invalid ← gen_long_string_dtb false;
  m ← init_ok dtb_last_valid m0;
  _ ← assert_err dtb_first_invalid m Error.StringTooLong; Done tt.

Definition reserved_vm_id : exec unit :=
  let dtb :=
    DT .> start_child "hypervisor" .> compatible_hafnium
       .> start_child "vm1" .> debug_name "primary_vm" .> end_child
       .> start_child "vm0" .> debug_name "reserved_vm" .> vcpu_count 1 .> mem_size 0x1000 .> kernel_filename "kernel" .> end_child
       .> end_child .> build dtc in
  _ ← assert_err dtb m0 Error.ReservedVmId; Done tt.

Definition gen_vcpu_count_limit_dtb (count : Z) : list Z :=
  DT .> start_child "hypervisor" .> compatible_hafnium
     .> start_child "vm1" .> debug_name "primary_vm" .> end_child
     .> start_child "vm2" .> debug_name "secondary_vm" .> vcpu_count count .> mem_size 0x1000 .> kernel_filename "kernel" .> end_child
     .> end_child .> build dtc.
Definition vcpu_count_limit : exec unit :=
  let dtb_last_valid := gen_vcpu_count_limit_dtb (2 ^ 16 - 1) in
  let dtb_first_invalid := gen_vcpu_count_limit_dtb (2 ^ 16 - 1 + 1) in
  m ← init_ok dtb_last_valid m0;
  assert_then (length (mf_vms m) =? 2)%nat (
  vm ← unwrap_opt (mf_vms m !! 1%nat);
  assert_then (Manifest.vcpu_count vm =? 2 ^ 16 - 1) (
  _ ← assert_err dtb_first_invalid m Error.IntegerOverflow; Done tt)).

(** The strings and numbers of a VM. *)
Definition assert_string (field : list Z) (s : string) (k : exec unit) : exec unit :=
  assert_then (bool_decide (as_asciz field = DtbDemo.str s)) k.
Definition valid : exec unit :=
  let dtb :=
    DT .> start_child "hypervisor" .> compatible_hafnium
       .> start_child "vm1" .> debug_name "primary_vm" .> end_child
       .> start_child "vm3" .> debug_name "second_secondary_vm" .> vcpu_count 43 .> mem_size 0x12345
       .> kernel_filename "second_kernel" .> end_child
       .> start_child "vm2" .> debug_name "first_secondary_vm" .> vcpu_count 42 .> mem_size 12345
       .> kernel_filename "first_kernel" .> end_child
       .> end_child .> build dtc in
  m ← init_ok dtb m0;
  assert_then (length (mf_vms m) =? 3)%nat (
  vm ← unwrap_opt (mf_vms m !! 0%nat);
  assert_string (Manifest.debug_name vm) "primary_vm" (
  vm ← unwrap_opt (mf_vms m !! 1%nat);
  assert_string (Manifest.debug_name vm) "first_secondary_vm" (
  assert_then (Manifest.vcpu_count vm =? 42) (
  assert_then (Manifest.mem_size vm =? 12345) (
  assert_string (Manifest.kernel_filename vm) "first_kernel" (
  vm ← unwrap_opt (mf_vms m !! 2%nat);
  assert_string (Manifest.debug_name vm) "second_secondary_vm" (
  assert_then (Manifest.vcpu_count vm =? 43) (
  assert_then (Manifest.mem_size vm =? 0x12345) (
  assert_string (Manifest.kernel_filename vm) "second_kernel" (Done tt)))))))))).

Definition tests : list (exec unit) :=
  [no_hypervisor_node; no_compatible_property; not_compatible; compatible_one_of_many; no_vm_nodes;
   long_string; reserved_vm_id; vcpu_count_limit; valid].
End tests.

(** ** The sources and their trees *)

(** A node of the source: name, properties, children. *)
Inductive value := Strings (l : list string) | Cell (n : Z).
Inductive dts := Node (nm : string) (ps : list (string * value)) (cs : list dts).
Definition root_of (cs : list dts) : dts := Node "/" [] cs.

(** The text of a source. *)
Definition source_prop (p : string * value) (b : ManifestDtBuilder.t) : ManifestDtBuilder.t :=
  match p.2 with
  | Strings l => ManifestDtBuilder.string_list_property p.1 l b
  | Cell n => ManifestDtBuilder.integer_property p.1 n b
  end.
Fixpoint source_node (t : dts) (b : ManifestDtBuilder.t) : ManifestDtBuilder.t :=
  let 'Node nm ps cs := t in
  let b := ManifestDtBuilder.start_child nm b in
  let b := foldl (λ b p, source_prop p b) b ps in
  let b := foldl (λ b c, source_node c b) b cs in
  ManifestDtBuilder.end_child b.
Definition source (t : dts) : list Z :=
  ManifestDtBuilder.dts (source_node t (ManifestDtBuilder.mk (DtbDemo.str "/dts-v1/;" ++ [10; 10]))).

(** The tree it describes, with the names of properties in place. *)
Inductive rtree := RTree (nm : list Z) (ps : list (list Z * list Z)) (cs : list rtree).
Definition value_bytes (v : value) : list Z :=
  match v with Strings l => mjoin (DtbDemo.cstr <$> l) | Cell n => word n end.
Definition node_name (nm : string) : list Z := if String.eqb nm "/" then [] else DtbDemo.str nm.
Fixpoint described (t : dts) : rtree :=
  let 'Node nm ps cs := t in
  RTree (node_name nm) ((λ p, (DtbDemo.str p.1, value_bytes p.2)) <$> ps) (described <$> cs).
Fixpoint resolved (pname : Z → list Z) (tr : tree) : rtree :=
  let 'Tree nm ps cs := tr in
  RTree nm ((λ p, (pname p.1, p.2)) <$> ps) (resolved pname <$> cs).

(** The compiler's output for a source is a blob that encodes the tree. *)
Definition compiles (dtc : list Z → list Z) (t : dts) : Prop :=
  Forall (in_u 8) (dtc (source t)) ∧
  ∃ pname tr, dtb_at (buf_mem (dtc (source t))) pname BUF tr ∧ resolved pname tr = described t.

(** ** The manifest depends on the resolved tree only *)
Section resolved.
Context (f g : Z → list Z).
Definition same (a b : tree) : Prop := resolved f a = resolved g b.
Lemma same_inv a b :
  same a b → name a = name b ∧ (λ p, (f p.1, p.2)) <$> props a = (λ p, (g p.1, p.2)) <$> props b ∧ Forall2 same (children a) (children b).
Proof.
  destruct a as [n ps cs], b as [n' ps' cs']. intros [= Hn Hp Hc]. split_and!; [done..|]. cbn [children].
  revert cs' Hc. induction cs as [|c cs IH]; intros [|c' cs'] Hc; try discriminate; [done|]. injection Hc as Hc Hcs. by constructor; [|apply IH].
Qed.
Lemma same_prop nm ps qs :
  (λ p, (f p.1, p.2)) <$> ps = (λ p, (g p.1, p.2)) <$> qs → get_prop f nm ps = get_prop g nm qs.
Proof.
  revert qs. induction ps as [|[o v] ps IH]; intros [|[o' v'] qs] H; try discriminate; [done|]. injection H as Ho Hv H. subst v'.
  cbn. rewrite Ho. by rewrite (IH _ H).
Qed.
Lemma same_child nm cs ds :
  Forall2 same cs ds →
  match get_child nm cs, get_child nm ds with
  | Some (c, _), Some (d, _) => same c d
  | None, None => True
  | _, _ => False
  end.
Proof.
  induction 1 as [|c d cs ds H Hs IH]; [done|]. cbn. destruct (same_inv _ _ H) as [<- _]. by destruct (decide _).
Qed.
Lemma same_vm a b id : same a b → Mspec.vm f a id = Mspec.vm g b id.
Proof. intros (_ & Hp & _)%same_inv. unfold Mspec.vm, Mspec.prop. by rewrite !(same_prop _ _ _ Hp). Qed.
Lemma same_vms a b ids acc : same a b → Mspec.vms f a ids acc = Mspec.vms g b ids acc.
Proof.
  intros H. pose proof (same_inv _ _ H) as (_ & _ & Hc). revert acc. induction ids as [|i ids IH]; intros acc; [done|]. cbn [Mspec.vms].
  pose proof (same_child (Mspec.vm_name (1 + i)) _ _ Hc) as Hch.
  destruct (get_child _ (children a)) as [[c ?]|], (get_child _ (children b)) as [[d ?]|]; try done.
  rewrite (same_vm _ _ _ Hch). destruct (_ =? _); [done|]. destruct (Mspec.vm _ _ _); [apply IH|done].
Qed.
Lemma same_manifest cs ds : Forall2 same cs ds → Mspec.manifest f cs = Mspec.manifest g ds.
Proof.
  intros H. unfold Mspec.manifest. pose proof (same_child S_hypervisor _ _ H) as Hch.
  destruct (get_child _ cs) as [[c ?]|], (get_child _ ds) as [[d ?]|]; try done.
  pose proof (same_inv _ _ Hch) as (_ & Hp & Hc). rewrite (same_prop _ _ _ Hp), (same_vms _ _ _ _ Hch).
  destruct (get_prop g _ _) as [v|]; [|done]. do 2 (destruct (decide _); [done|]). pose proof (same_child (Mspec.vm_name 0) _ _ Hc) as H0.
  assert (is_Some (get_child (Mspec.vm_name 0) (children c)) ↔ is_Some (get_child (Mspec.vm_name 0) (children d))) as Hi.
  { destruct (get_child _ (children c)) as [[??]|], (get_child _ (children d)) as [[??]|]; try done. }
  by rewrite (decide_ext _ _ _ _ Hi).
Qed.
Lemma same_no_bytes cs ds : Forall2 same cs ds → Mspec.no_bytes f cs = Mspec.no_bytes g ds.
Proof.
  intros H. unfold Mspec.no_bytes. pose proof (same_child S_hypervisor _ _ H) as Hch.
  destruct (get_child _ cs) as [[c ?]|], (get_child _ ds) as [[d ?]|]; try done.
  destruct (same_inv _ _ Hch) as (_ & Hp & _). by rewrite (same_prop _ _ _ Hp).
Qed.
End resolved.

(** The tree of a source over the names of [DtbDemo]. *)
Fixpoint tree_of (t : dts) : tree :=
  let 'Node nm ps cs := t in
  Tree (node_name nm) ((λ p, DtbDemo.prop p.1 (value_bytes p.2)) <$> ps) (tree_of <$> cs).
Abbreviation pnames := DtbDemo.pname.
Definition expected (t : dts) : result unit Error.t * Manifest :=
  let '(r, l) := Mspec.manifest pnames (children (tree_of t)) in (r, mkManifest l).

Lemma init_of_source dtc t m :
  compiles dtc t → resolved pnames (tree_of t) = described t → name (tree_of t) = [] → Mspec.no_bytes pnames (children (tree_of t)) = false →
  init_of (dtc (source t)) m = Done (expected t).
Proof.
  intros (Hb & pname & tr & Hd & Hr) Ht Hnm Hc. pose proof (buf_mem_ok _ Hb) as Hm.
  assert (Hs : same pname pnames tr (tree_of t)) by (unfold same; congruence). destruct (same_inv _ _ _ _ Hs) as (Hn & _ & Hcs).
  destruct (find_root_at _ Hm pname BUF tr Hd) as (n & n' & Hn1 & Hf & _ & Hcur). unfold init_of, get_fdt_root. rewrite Hn1.
  rewrite Hn, Hnm in Hf. change (asciz []) with [0] in Hf. rewrite Hf. cbn [mbind exec_bind unwrap_opt].
  apply cursor_node in Hcur as [k Hcur]. rewrite (manifest_init_spec _ Hm pname _ _ _ _ k m Hcur).
  rewrite (same_no_bytes _ _ _ _ Hcs), Hc. unfold expected. by rewrite (same_manifest _ _ _ _ Hcs).
Qed.

(** ** The sources of the tests *)
Definition vm_node (nm name : string) : dts := Node nm [("debug_name"%string, Strings [name])] [].
Definition secondary_node (nm name kernel : string) (count size : Z) : dts :=
  Node nm [("debug_name", Strings [name]); ("vcpu_count", Cell count); ("mem_size", Cell size); ("kernel_filename", Strings [kernel])]%string [].
Definition hyp (compat : list string) (vms : list dts) : dts := root_of [Node "hypervisor" [("compatible"%string, Strings compat)] vms].
Definition hafnium : list dts → dts := hyp ["hafnium,hafnium"%string].
Definition limit_vms (count : Z) : list dts := [vm_node "vm1" "primary_vm"; secondary_node "vm2" "secondary_vm" "kernel" count 0x1000].
Definition sources : list dts :=
  [root_of []; root_of [Node "hypervisor" [] []]; hyp ["foo,bar"%string] [];
   hyp ["foo,bar"; "hafnium,hafnium"]%string [vm_node "vm1" "primary"]; hafnium [];
   hafnium [vm_node "vm1" LAST_VALID]; hafnium [vm_node "vm1" FIRST_INVALID];
   hafnium [vm_node "vm1" "primary_vm"; secondary_node "vm0" "reserved_vm" "kernel" 1 0x1000];
   hafnium (limit_vms (2 ^ 16 - 1)); hafnium (limit_vms (2 ^ 16));
   hafnium [vm_node "vm1" "primary_vm"; secondary_node "vm3" "second_secondary_vm" "second_kernel" 43 0x12345;
            secondary_node "vm2" "first_secondary_vm" "first_kernel" 42 12345]].

(** A test whose blob is that of a source reads its manifest. *)
Lemma run_init {X} dtc t m (k : result unit Error.t * Manifest → exec X) :
  compiles dtc t → resolved pnames (tree_of t) = described t → name (tree_of t) = [] → Mspec.no_bytes pnames (children (tree_of t)) = false →
  (init_of (dtc (source t)) m ≫= k) = k (expected t).
Proof. intros. by rewrite init_of_source. Qed.
Lemma build_source dtc b t : ManifestDtBuilder.dts (ManifestDtBuilder.end_child b) = source t → ManifestDtBuilder.build dtc b = dtc (source t).
Proof. unfold ManifestDtBuilder.build. by intros ->. Qed.
Ltac run_source H :=
  match type of H with
  | compiles ?d ?t =>
      match goal with |- context [init_of (ManifestDtBuilder.build d ?b) ?m] => rewrite (build_source d b t) by (vm_compute; reflexivity) end;
      rewrite (run_init d t _ _ H) by (vm_compute; (reflexivity || discriminate || exact I));
      let e := eval vm_compute in (expected t) in change (expected t) with e; cbn [mbind exec_bind unwrap_res unwrap_opt]
  end.
Ltac test := cbv zeta; unfold assert_err, init_ok.

(** All unit tests of [manifest.rs] pass. *)
Theorem manifest_tests_pass (dtc : list Z → list Z) (m0 : Manifest) :
  Forall (compiles dtc) sources → Forall (λ t, t = Done tt) (tests dtc m0).
Proof.
  intros Hc. unfold sources in Hc. repeat (apply Forall_cons in Hc as [? Hc]). repeat apply Forall_cons_2; [..|by apply Forall_nil_2].
  - unfold no_hypervisor_node. test. run_source H. reflexivity.
  - unfold no_compatible_property. test. run_source H0. reflexivity.
  - unfold not_compatible. test. run_source H1. reflexivity.
  - unfold compatible_one_of_many. test. run_source H2. reflexivity.
  - unfold no_vm_nodes. test. run_source H3. reflexivity.
  - unfold long_string, gen_long_string_dtb. repeat change (Z.of_nat _ + 1 =? _) with true. cbn [assert_then mbind exec_bind]. test. run_source H4. run_source H5. reflexivity.
  - unfold reserved_vm_id. test. run_source H6. reflexivity.
  - unfold vcpu_count_limit, gen_vcpu_count_limit_dtb. test. run_source H7. run_source H8. reflexivity.
  - unfold valid. test. run_source H9. reflexivity.
Qed.

(** ** A compiler for these sources *)
Definition blob_of (root : tree) : list Z :=
  let block := enc root ++ word 9 in
  word FDT_MAGIC ++ word (56 + Z.of_nat (length block) + Z.of_nat (length DtbDemo.strings)) ++ word 56 ++
  word (56 + Z.of_nat (length block)) ++ word 40 ++ word 17 ++ word 16 ++ word 0 ++
  word (Z.of_nat (length DtbDemo.strings)) ++ word (Z.of_nat (length block)) ++ replicate 16 0 ++ block ++ DtbDemo.strings.
Definition demo_dtc (text : list Z) : list Z :=
  match list_find (λ t, source t = text) sources with Some (_, t) => blob_of (tree_of t) | None => [] end.
Ltac compiled :=
  let e := fresh in
  match goal with |- compiles ?d ?t => let v := eval vm_compute in (d (source t)) in assert (e : d (source t) = v) by (vm_compute; reflexivity); unfold compiles; rewrite e; clear e;
    let tr := eval vm_compute in (tree_of t) in split; [unfold in_u; by_computation|exists pnames, tr; split; [|vm_compute; reflexivity]] end;
  split; [vm_compute; reflexivity|]; split; [vm_compute; split; discriminate|]; split;
  [split; [vm_compute; reflexivity|]; split; [vm_compute; reflexivity|]; split; [vm_compute; reflexivity|]; by_computation|
   repeat first [apply Forall_cons; split | apply Forall_nil_2 | apply node_ok_eq; split_and! | split; unfold prop_ok, name_ok, in_u, no_nul, holds; by_computation | by_computation]].
Lemma demo_dtc_compiles : Forall (compiles demo_dtc) sources.
Proof. repeat apply Forall_cons_2; [compiled..|by apply Forall_nil_2]. Qed.
Lemma manifest_tests_pass_witness : Forall (λ t, t = Done tt) (tests demo_dtc (mkManifest [])).
Proof. apply (manifest_tests_pass demo_dtc (mkManifest [])). exact demo_dtc_compiles. Defined.
