(* ===== verification/UnitTests.v ===== *)
(** * The other unit tests of the Rust code

    The tests of [abi.rs], [fdt.rs] and [fdt_handler.rs] as functions that are [Done]
    when the test passes.  They run on the architecture of the unit tests, [fake]. *)
From S2P Require Import Prelude Addr Mode Arch Abi Mpool Mm MemoryManager Memory Fdt FdtLoops FdtTree Manifest ManifestSpec FdtHandler.

(** [assert_eq!] of numbers. *)
Definition assert_eq (a b : Z) : exec unit := assert_then (a =? b) (Done tt).

(** ** [abi.rs] *)
Module AbiTest.
Definition encode_preempted : exec unit := assert_eq (into_raw Preempted) 0.
Definition encode_yield : exec unit := assert_eq (into_raw Yield) 1.
Definition encode_wait_for_interrupt : exec unit := assert_eq (into_raw (WaitForInterrupt HF_SLEEP_INDEFINITE)) 0xffffffffffffff02.
Definition encode_wait_for_interrupt_sleep_too_long : exec unit := assert_eq (into_raw (WaitForInterrupt 0xcc22888888888888)) 0x2288888888888802.
Definition encode_wait_for_message : exec unit := assert_eq (into_raw (WaitForMessage HF_SLEEP_INDEFINITE)) 0xffffffffffffff03.
Definition encode_wait_for_message_sleep_too_long : exec unit := assert_eq (into_raw (WaitForMessage 0xaa99777777777777)) 0x9977777777777703.
Definition encode_wake_up : exec unit := assert_eq (into_raw (WakeUp 0x1234 0xabcd)) 0x1234abcd0004.
Definition encode_notify_waiters : exec unit := assert_eq (into_raw NotifyWaiters) 6.
Definition encode_aborted : exec unit := assert_eq (into_raw Aborted) 7.
Definition tests : list (exec unit) :=
  [encode_preempted; encode_yield; encode_wait_for_interrupt; encode_wait_for_interrupt_sleep_too_long; encode_wait_for_message;
   encode_wait_for_message_sleep_too_long; encode_wake_up; encode_notify_waiters; encode_aborted].
End AbiTest.

(** ** [fdt.rs] *)
Module FdtTest.
Definition TEST_DTB : list Z :=
  [
   208; 13; 254; 237; 0; 0; 1; 68; 0; 0; 0; 56; 0; 0; 1; 8; 0; 0; 0; 40; 0; 0; 0; 17; 0; 0; 0; 16; 0; 0; 0; 0; 0; 0;
   0; 60; 0; 0; 0; 208; 0; 0; 0; 0; 0; 0; 0; 0; 0; 0; 0; 0; 0; 0; 0; 0; 0; 0; 0; 1; 0; 0; 0; 0; 0; 0; 0; 3; 0; 0; 0;
   10; 0; 0; 0; 0; 83; 111; 109; 101; 77; 111; 100; 101; 108; 0; 0; 0; 0; 0; 0; 3; 0; 0; 0; 8; 0; 0; 0; 6; 78; 111;
   116; 104; 105; 110; 103; 0; 0; 0; 0; 3; 0; 0; 0; 4; 0; 0; 0; 17; 0; 0; 0; 2; 0; 0; 0; 3; 0; 0; 0; 4; 0; 0; 0; 32;
   0; 0; 0; 2; 0; 0; 0; 1; 109; 101; 109; 111; 114; 121; 64; 48; 0; 0; 0; 0; 0; 0; 0; 3; 0; 0; 0; 7; 0; 0; 0; 44;
   109; 101; 109; 111; 114; 121; 0; 0; 0; 0; 0; 3; 0; 0; 0; 16; 0; 0; 0; 56; 0; 0; 0; 0; 0; 0; 0; 0; 0; 0; 0; 0; 32;
   0; 0; 0; 0; 0; 0; 2; 0; 0; 0; 1; 99; 112; 117; 115; 0; 0; 0; 0; 0; 0; 0; 3; 0; 0; 0; 4; 0; 0; 0; 17; 0; 0; 0; 1;
   0; 0; 0; 3; 0; 0; 0; 4; 0; 0; 0; 32; 0; 0; 0; 0; 0; 0; 0; 2; 0; 0; 0; 2; 0; 0; 0; 9; 109; 111; 100; 101; 108; 0;
   99; 111; 109; 112; 97; 116; 105; 98; 108; 101; 0; 35; 97; 100; 100; 114; 101; 115; 115; 45; 99; 101; 108; 108;
   115; 0; 35; 115; 105; 122; 101; 45; 99; 101; 108; 108; 115; 0; 100; 101; 118; 105; 99; 101; 95; 116; 121; 112;
   101; 0; 114; 101; 103; 0].
(** The blob is at [BUF]. *)
Definition total_size : exec unit := assert_eq (Fdt.total_size (buf_mem TEST_DTB) BUF) (Z.of_nat (length TEST_DTB)).
End FdtTest.

(** ** [fdt_handler.rs] *)
Module FdtHandlerTest.
Definition TEST_DTB : list Z :=
  [
   208; 13; 254; 237; 0; 0; 1; 127; 0; 0; 0; 56; 0; 0; 1; 48; 0; 0; 0; 40; 0; 0; 0; 17; 0; 0; 0; 16; 0; 0; 0; 0; 0;
   0; 0; 79; 0; 0; 0; 248; 0; 0; 0; 0; 0; 0; 0; 0; 0; 0; 0; 0; 0; 0; 0; 0; 0; 0; 0; 1; 0; 0; 0; 0; 0; 0; 0; 3; 0; 0;
   0; 4; 0; 0; 0; 0; 0; 0; 0; 2; 0; 0; 0; 3; 0; 0; 0; 4; 0; 0; 0; 15; 0; 0; 0; 2; 0; 0; 0; 1; 109; 101; 109; 111;
   114; 121; 64; 48; 0; 0; 0; 0; 0; 0; 0; 3; 0; 0; 0; 7; 0; 0; 0; 27; 109; 101; 109; 111; 114; 121; 0; 0; 0; 0; 0; 3;
   0; 0; 0; 32; 0; 0; 0; 39; 0; 0; 0; 0; 0; 0; 0; 0; 0; 0; 0; 0; 32; 0; 0; 0; 0; 0; 0; 0; 48; 0; 0; 0; 0; 0; 0; 0; 0;
   1; 0; 0; 0; 0; 0; 2; 0; 0; 0; 1; 109; 101; 109; 111; 114; 121; 64; 49; 0; 0; 0; 0; 0; 0; 0; 3; 0; 0; 0; 7; 0; 0;
   0; 27; 109; 101; 109; 111; 114; 121; 0; 0; 0; 0; 0; 3; 0; 0; 0; 16; 0; 0; 0; 39; 0; 0; 0; 0; 48; 2; 0; 0; 0; 0; 0;
   0; 0; 1; 0; 0; 0; 0; 0; 2; 0; 0; 0; 1; 99; 104; 111; 115; 101; 110; 0; 0; 0; 0; 0; 3; 0; 0; 0; 4; 0; 0; 0; 43; 0;
   0; 0; 0; 0; 0; 0; 3; 0; 0; 0; 4; 0; 0; 0; 62; 0; 0; 0; 0; 0; 0; 0; 2; 0; 0; 0; 2; 0; 0; 0; 9; 35; 97; 100; 100;
   114; 101; 115; 115; 45; 99; 101; 108; 108; 115; 0; 35; 115; 105; 122; 101; 45; 99; 101; 108; 108; 115; 0; 100;
   101; 118; 105; 99; 101; 95; 116; 121; 112; 101; 0; 114; 101; 103; 0; 108; 105; 110; 117; 120; 44; 105; 110; 105;
   116; 114; 100; 45; 115; 116; 97; 114; 116; 0; 108; 105; 110; 117; 120; 44; 105; 110; 105; 116; 114; 100; 45; 101;
   110; 100; 0].
Definition TEST_HEAP_SIZE : Z := PAGE_SIZE * 10.
#[local] Existing Instance fake.

(** [layout_fake.c]; the console of the architecture maps nothing. *)
Definition manager (st : MmState) : exec (option PageTable * MmState) :=
  '(r, m) ← PageTable_new (SG := Stage1) (st_pool st);
  match r with
  | Err _ => Done (None, with_pool st m)
  | Ok t =>
      '(t, st) ← identity_map_unwrap t (pa_init 0) (pa_init 100) Mode.X (with_pool st m);
      '(t, st) ← identity_map_unwrap t (pa_init 200) (pa_init 300) Mode.R st;
      '(t, st) ← identity_map_unwrap t (pa_init 400) (pa_init 500) (Z.lor Mode.R Mode.W) st;
      Done (Some t, st)
  end.
(** The ranges of the parameters, as pairs of addresses. *)
Definition range_of (p : BootParams) (i : nat) : exec (Z * Z) :=
  r ← unwrap_opt (mem_ranges p !! i);
  Done (pa_addr (r_begin r), pa_addr (r_end r)).
Definition assert_range (p : BootParams) (i : nat) (b e : Z) : exec unit :=
  r ← range_of p i;
  assert_then ((r.1 =? b) && (r.2 =? e)) (Done tt).

(** [test_heap] is the address of the heap; the blob is at [BUF]. *)
Definition find_memory_ranges (test_heap : Z) : exec unit :=
  pages ← Pages_from_raw_u8 test_heap TEST_HEAP_SIZE;
  pages ← unwrap_res pages;
  let ppool := MPool_free_pages MPool_new pages in
  '(mm, st) ← manager (mkMmState ppool [] false);
  ptable ← unwrap_opt mm;
  let mem := buf_mem TEST_DTB in
  '(n, ptable, st) ← fdt_map mem ptable (pa_init BUF) st;
  n ← unwrap_opt n;
  '(found, n) ← find_child mem n [0];
  assert_then found (
  let params :=
    mkBootParams (replicate (Z.to_nat MAX_CPUS) 0) 0 (replicate (Z.to_nat MAX_MEM_RANGES) (MemRange_new (pa_init 0) (pa_init 0))) 0
      (pa_init 0) (pa_init 0) 0 in
  '(_, params) ← FdtHandler.find_memory_ranges mem n params;
  '(ok, ptable, st) ← fdt_unmap mem ptable BUF st;
  assert_then ok (
  _ ← assert_eq (mem_ranges_count params) 3;
  _ ← assert_range params 0 0x00000000 0x20000000;
  _ ← assert_range params 1 0x30000000 0x30010000;
  assert_range params 2 0x30020000 0x30030000)).
End FdtHandlerTest.

(** These tests pass too. *)
Theorem unit_tests_pass :
  Forall (λ t, t = Done tt) (AbiTest.tests ++ [FdtTest.total_size; FdtHandlerTest.find_memory_ranges 0x100800]).
Proof. repeat apply Forall_cons_2; [vm_compute; reflexivity..|by apply Forall_nil_2]. Qed.
