(* ===== verification/LoadRanges.v ===== *)
(** * Memory ranges of the loader

    [carve_out_mem_range] takes memory from the end of a range,
    [update_reserved_ranges] computes what was taken. *)
From S2P Require Import Prelude Addr Memory FdtHandler Hypervisor Load.

(** The addresses of a range. *)
Definition in_range (r : MemRange) (x : Z) : Prop := pa (r_begin r) ≤ x < pa (r_end r).
#[export] Instance in_range_dec r x : Decision (in_range r x).
Proof. unfold in_range. apply _. Defined.
Definition range_ok (r : MemRange) : Prop := 0 ≤ pa (r_begin r) ≤ pa (r_end r) ∧ pa (r_end r) < 2 ^ 64.
#[export] Instance range_ok_dec r : Decision (range_ok r).
Proof. unfold range_ok. apply _. Defined.
Definition range_size (r : MemRange) : Z := pa (r_end r) - pa (r_begin r).
Lemma range_difference r : range_ok r → pa_difference (r_begin r) (r_end r) = range_size r.
Proof. unfold range_ok, pa_difference, pa_addr, range_size. intros. apply wsub_small. lia. Qed.

(** No address is in two of the ranges. *)
Definition ranges_disjoint (l : list MemRange) : Prop :=
  ∀ i j r s x, l !! i = Some r → l !! j = Some s → in_range r x → in_range s x → i = j.

(** A range that got smaller. *)
Definition shrunk (r r' : MemRange) : Prop := r_begin r' = r_begin r ∧ pa (r_begin r) ≤ pa (r_end r') ≤ pa (r_end r).
Lemma shrunk_in r r' x : shrunk r r' → in_range r' x → in_range r x.
Proof. intros [Hb He]. unfold in_range. rewrite Hb. lia. Qed.
Lemma shrunk_refl r : range_ok r → shrunk r r.
Proof. unfold range_ok, shrunk. intros. split; [done|lia]. Qed.
#[export] Instance shrunk_trans : Transitive shrunk.
Proof. intros r1 r2 r3 [Ha Hb] [Hc Hd]. rewrite Ha in *. unfold shrunk. split; [congruence|lia]. Qed.
Lemma disjoint_shrunk l l' : Forall2 shrunk l l' → ranges_disjoint l → ranges_disjoint l'.
Proof.
  intros H2 Hd i j r' s' x Hi Hj Hr Hs.
  destruct (Forall2_lookup_r _ _ _ _ _ H2 Hi) as (r & Hir & Hsr). destruct (Forall2_lookup_r _ _ _ _ _ H2 Hj) as (s & Hjs & Hss).
  eapply Hd; eauto using shrunk_in.
Qed.

(** The range carved out is the end of the first range that is large enough. *)
Lemma carve_out_spec l size r l' :
  Forall range_ok l → 0 ≤ size → carve_out_mem_range l size = (r, l') →
  match r with
  | Ok (b, e) => ∃ i mr, l !! i = Some mr ∧ size ≤ range_size mr ∧ e = r_end mr ∧ b = pa_init (pa (r_end mr) - size) ∧
      l' = <[i := mkMemRange (r_begin mr) b]> l ∧ Forall (λ m, range_size m < size) (take i l)
  | Err _ => l' = l ∧ Forall (λ m, range_size m < size) l
  end.
Proof.
  intros Hl Hs. revert r l'. induction Hl as [|mr l Hmr Hl IH]; intros r l'; cbn [carve_out_mem_range].
  { intros [= <- <-]. split; [done|by apply Forall_nil]. }
  rewrite range_difference by done. destruct (Z.leb_spec size (range_size mr)) as [Hle|Hgt].
  - intros [= <- <-]. exists 0%nat, mr. destruct Hmr as [Hmr Hm64].
    split_and!; [done..| |cbn|by apply Forall_nil].
    + f_equal. unfold pa_addr. apply wsub_small. unfold range_size in Hle. lia.
    + done.
  - destruct (carve_out_mem_range l size) as [r1 l1]. intros [= <- <-]. specialize (IH r1 l1 eq_refl). destruct r1 as [[b e]|].
    + destruct IH as (i & mr' & Hi & Hle & He & Hb & Hl' & Hf). exists (S i), mr'. split_and!; try done; [by cbn; f_equal|].
      cbn. by constructor.
    + destruct IH as [-> Hf]. split; [done|by constructor].
Qed.

(** The consequences for a set of ranges: the range is taken from one of them and is
    in no range that is left. *)
Lemma carve_out_taken l size b e l' :
  Forall range_ok l → ranges_disjoint l → 0 ≤ size → carve_out_mem_range l size = (Ok (b, e), l') →
  pa e - pa b = size ∧ Forall2 shrunk l l' ∧ Forall range_ok l' ∧
  (∃ mr, mr ∈ l ∧ e = r_end mr ∧ pa (r_begin mr) ≤ pa b) ∧
  (∀ x, pa b ≤ x < pa e → (∃ mr, mr ∈ l ∧ in_range mr x) ∧ ∀ mr, mr ∈ l' → ¬ in_range mr x).
Proof.
  intros Hok Hd Hs H. apply carve_out_spec in H as (i & mr & Hi & Hle & -> & -> & -> & _); [|done..].
  pose proof (proj1 (Forall_lookup _ _) Hok i mr Hi) as Hmr. unfold range_ok, range_size in *.
  assert (Hsh : Forall2 shrunk l (<[i := mkMemRange (r_begin mr) (pa_init (pa (r_end mr) - size))]> l)).
  { apply Forall2_same_length_lookup. split; [by rewrite length_insert|]. intros j x y Hx Hy.
    destruct (decide (i = j)) as [<-|Hne].
    - rewrite list_lookup_insert_eq in Hy by by eapply lookup_lt_Some. simplify_eq. split; [done|cbn; lia].
    - rewrite list_lookup_insert_ne in Hy by done. simplify_eq. apply shrunk_refl. by eapply Forall_lookup_1. }
  split_and!; [cbn; lia|done| | |].
  - apply Forall_lookup. intros j r Hj. destruct (Forall2_lookup_r _ _ _ _ _ Hsh Hj) as (r0 & Hr0 & [Hb He]).
    pose proof (proj1 (Forall_lookup _ _) Hok j r0 Hr0) as H0. unfold range_ok in *. rewrite Hb. lia.
  - exists mr. split_and!; [by eapply list_elem_of_lookup_2|done|cbn; lia].
  - intros x Hx. cbn in Hx. assert (Hin : in_range mr x) by (unfold in_range; lia).
    split; [exists mr; split; [by eapply list_elem_of_lookup_2|done]|].
    intros s [j Hj]%list_elem_of_lookup Hs'. destruct (decide (i = j)) as [<-|Hne].
    + rewrite list_lookup_insert_eq in Hj by by eapply lookup_lt_Some. simplify_eq. unfold in_range in Hs'. cbn in Hs'. lia.
    + rewrite list_lookup_insert_ne in Hj by done. apply Hne. by eapply Hd.
Qed.

(** ** Reserved ranges *)
Definition update_ok (u : BootParamsUpdate) : Prop :=
  Z.of_nat (length (reserved_ranges u)) = MAX_MEM_RANGES ∧ 0 ≤ reserved_ranges_count u ≤ MAX_MEM_RANGES.
Definition reserved (u : BootParamsUpdate) : list MemRange := take (Z.to_nat (reserved_ranges_count u)) (reserved_ranges u).

Lemma push_reserved_spec u b e :
  update_ok u → ∃ r u', push_reserved u b e = Done (r, u') ∧ update_ok u' ∧
    upd_initrd_begin u' = upd_initrd_begin u ∧ upd_initrd_end u' = upd_initrd_end u ∧
    match r with
    | Ok _ => reserved u' = reserved u ++ [mkMemRange b e] ∧ reserved_ranges_count u' = reserved_ranges_count u + 1
    | Err _ => u' = u ∧ reserved_ranges_count u = MAX_MEM_RANGES
    end.
Proof.
  intros [Hl Hc]. unfold push_reserved, MAX_MEM_RANGES in *. destruct (Z.leb_spec 20 (reserved_ranges_count u)).
  { exists (Err tt), u. split_and!; (done || lia). }
  unfold array_set, assert_then. rewrite (proj2 (Z.ltb_lt _ _)) by lia. cbn [mbind exec_bind]. do 2 eexists. split; [done|].
  unfold update_ok, reserved, MAX_MEM_RANGES. cbn [reserved_ranges reserved_ranges_count upd_initrd_begin upd_initrd_end].
  rewrite length_insert. split_and!; try done; try lia.
  replace (Z.to_nat (reserved_ranges_count u + 1)) with (S (Z.to_nat (reserved_ranges_count u))) by lia.
  rewrite (take_S_r _ _ (mkMemRange b e)) by (apply list_lookup_insert_eq; lia). by rewrite take_insert_ge by lia.
Qed.

(** A range within a range, at any place of it. *)
Definition within (r r' : MemRange) : Prop :=
  pa (r_begin r) ≤ pa (r_begin r') ∧ pa (r_begin r') ≤ pa (r_end r') ∧ pa (r_end r') ≤ pa (r_end r).
#[export] Instance within_dec r r' : Decision (within r r').
Proof. unfold within. apply _. Defined.

(** What is missing of a range at its begin and at its end. *)
Definition cut (b e : paddr_t) : list MemRange := if bool_decide (pa b < pa e) then [mkMemRange b e] else [].
Definition difference (b a : MemRange) : list MemRange := cut (r_begin b) (r_begin a) ++ cut (r_end a) (r_end b).
Definition difference_of (l : list (MemRange * MemRange)) : list MemRange := mjoin (uncurry difference <$> l).

Lemma in_cut b e x : (∃ m, m ∈ cut b e ∧ in_range m x) ↔ pa b ≤ x < pa e.
Proof.
  unfold cut, in_range. case_bool_decide.
  - split; [by intros (m & ->%list_elem_of_singleton & Hm)|]. intros. exists (mkMemRange b e). split; [by left|done].
  - split; [by intros (m & Hm%not_elem_of_nil & _)|lia].
Qed.
Lemma in_app l l' x : (∃ m, m ∈ l ++ l' ∧ in_range m x) ↔ (∃ m, m ∈ l ∧ in_range m x) ∨ (∃ m, m ∈ l' ∧ in_range m x).
Proof. setoid_rewrite elem_of_app. naive_solver. Qed.
Lemma in_difference b a x : within b a → (∃ m, m ∈ difference b a ∧ in_range m x) ↔ in_range b x ∧ ¬ in_range a x.
Proof. intros (H1 & H2 & H3). unfold difference. rewrite in_app, !in_cut. unfold in_range. lia. Qed.

(** The addresses of the difference are those of a range that its remainder lost. *)
Lemma in_difference_of before after x :
  Forall2 within before after →
  (∃ m, m ∈ difference_of (zip before after) ∧ in_range m x) ↔
  ∃ i b a, before !! i = Some b ∧ after !! i = Some a ∧ in_range b x ∧ ¬ in_range a x.
Proof.
  induction 1 as [|b a before after Hw H2 IH].
  { split; [by intros (m & Hm%not_elem_of_nil & _)|by intros (? & ? & ? & ? & _)]. }
  change (difference_of (zip (b :: before) (a :: after))) with (difference b a ++ difference_of (zip before after)).
  rewrite in_app, in_difference, IH by done. split.
  - intros [?|(i & b' & a' & ?)]; [by exists 0%nat, b, a|by exists (S i), b', a'].
  - intros ([|i] & b' & a' & Hi1 & Hi2 & ?); cbn in Hi1, Hi2; [left; by simplify_eq|right; by exists i, b', a'].
Qed.

(** One of the two tests of the loop: a range is added if something is missing. *)
Lemma push_cut u b e :
  update_ok u →
  ∃ r u', (if pa b <? pa e then push_reserved u b e else Done (Ok tt, u)) = Done (r, u') ∧ update_ok u' ∧
    upd_initrd_begin u' = upd_initrd_begin u ∧ upd_initrd_end u' = upd_initrd_end u ∧
    (r = Ok tt ↔ reserved_ranges_count u + Z.of_nat (length (cut b e)) ≤ MAX_MEM_RANGES) ∧
    (r = Ok tt → reserved u' = reserved u ++ cut b e ∧
      reserved_ranges_count u' = reserved_ranges_count u + Z.of_nat (length (cut b e))).
Proof.
  intros Hu. unfold cut. destruct (Z.ltb_spec (pa b) (pa e)).
  - rewrite bool_decide_true by done. destruct (push_reserved_spec u b e Hu) as (r & u1 & -> & Hu1 & Hb1 & He1 & Hr). exists r, u1.
    split_and!; try done; destruct r as [[]|]; cbn [length]; [|destruct Hr as [-> Hr]|done..].
    + split; [|done]. intros _. destruct Hr as [_ Hr], Hu1 as [_ Hu1]. lia.
    + split; [done|lia].
  - rewrite bool_decide_false by lia. exists (Ok tt), u. cbn [length]. rewrite app_nil_r. destruct Hu as [Hl Hc].
    split_and!; try done; [split; [lia|done]|intros _; split; [done|lia]].
Qed.

Lemma reserved_difference_spec l u :
  update_ok u →
  ∃ r u', reserved_difference u l = Done (r, u') ∧ update_ok u' ∧
    upd_initrd_begin u' = upd_initrd_begin u ∧ upd_initrd_end u' = upd_initrd_end u ∧
    (r = Ok tt ↔ reserved_ranges_count u + Z.of_nat (length (difference_of l)) ≤ MAX_MEM_RANGES) ∧
    (r = Ok tt → reserved u' = reserved u ++ difference_of l).
Proof.
  revert u. induction l as [|[b a] l IH]; intros u Hu; cbn [reserved_difference].
  { exists (Ok tt), u. unfold difference_of. cbn. rewrite app_nil_r. destruct Hu as [? [? ?]]. split_and!; try done. split; [lia|done]. }
  change (difference_of ((b, a) :: l)) with (difference b a ++ difference_of l). unfold difference. rewrite !length_app. unfold pa_addr.
  destruct (push_cut u (r_begin b) (r_begin a) Hu) as (r1 & u1 & -> & Hu1 & Hb1 & He1 & Hok1 & Hres1). cbn [mbind exec_bind].
  destruct r1 as [[]|[]]; cbn [mbind exec_bind].
  2:{ exists (Err tt), u1. split_and!; try done. split; [done|]. intros. assert (Err tt = Ok tt :> result unit unit) by (apply Hok1; lia). done. }
  destruct (Hres1 eq_refl) as [Hr1 Hc1].
  destruct (push_cut u1 (r_end a) (r_end b) Hu1) as (r2 & u2 & -> & Hu2 & Hb2 & He2 & Hok2 & Hres2). cbn [mbind exec_bind].
  destruct r2 as [[]|[]].
  2:{ exists (Err tt), u2. split_and!; try congruence. split; [done|]. intros. assert (Err tt = Ok tt :> result unit unit) by (apply Hok2; lia). done. }
  destruct (Hres2 eq_refl) as [Hr2 Hc2]. destruct (IH u2 Hu2) as (r & u3 & -> & Hu3 & Hb3 & He3 & Hok & Hres).
  exists r, u3. split_and!; try congruence.
  - rewrite Hok, Hc2, Hc1. lia.
  - intros Hr. by rewrite Hres, Hr2, Hr1, <-!app_assoc by done.
Qed.

(** [carve_out_mem_range] takes exactly the requested number of bytes from the
    end of the first range that has them and leaves the other ranges as they are; it
    fails, changing nothing, exactly when no range is large enough. *)
Theorem carve_out_correct l size :
  Forall range_ok l → 0 ≤ size →
  match carve_out_mem_range l size with
  | (Ok (b, e), l') => ∃ i mr, l !! i = Some mr ∧ size ≤ range_size mr ∧ e = r_end mr ∧ b = pa_init (pa (r_end mr) - size) ∧
      l' = <[i := mkMemRange (r_begin mr) b]> l ∧ Forall (λ m, range_size m < size) (take i l)
  | (Err _, l') => l' = l ∧ Forall (λ m, range_size m < size) l
  end.
Proof.
  intros Hl Hs. destruct (carve_out_mem_range l size) as [r l'] eqn:H. apply carve_out_spec in H; [|done..].
  by destruct r as [[b e]|].
Qed.

(** C26: [update_reserved_ranges] reserves exactly the memory that was taken.  For any
    lists of which each range of [after] lies within the range of [before] of the same
    index, at its begin, its end or in the middle, the call never panics; it succeeds
    exactly when there is room for what is to be added, a range for each range that was
    cut at its begin and one for each that was cut at its end; then an address is
    reserved if it was before or lies in a range of [before] but not in its remainder
    in [after].  The place of the initial ramdisk is kept. *)
Theorem update_reserved_ranges_correct u before after :
  update_ok u → Forall2 within before after →
  ∃ r u', update_reserved_ranges u before after = Done (r, u') ∧ update_ok u' ∧
    upd_initrd_begin u' = upd_initrd_begin u ∧ upd_initrd_end u' = upd_initrd_end u ∧
    (r = Ok tt ↔ reserved_ranges_count u + Z.of_nat (length (difference_of (zip before after))) ≤ MAX_MEM_RANGES) ∧
    (r = Ok tt → ∀ x, (∃ m, m ∈ reserved u' ∧ in_range m x) ↔
       (∃ m, m ∈ reserved u ∧ in_range m x) ∨
       ∃ i b a, before !! i = Some b ∧ after !! i = Some a ∧ in_range b x ∧ ¬ in_range a x).
Proof.
  intros Hu H2. unfold update_reserved_ranges. rewrite (Forall2_length _ _ _ H2), Nat.eqb_refl. cbn [assert_then].
  destruct (reserved_difference_spec (zip before after) u Hu) as (r & u' & -> & Hu' & Hb & He & Hok & Hres). exists r, u'.
  split_and!; try done; [apply Hok..|]. intros Hr x. by rewrite Hres, in_app, in_difference_of by done.
Qed.

(** ** Examples *)
Module RangeDemo.
Definition range (b e : Z) : MemRange := mkMemRange (pa_init b) (pa_init e).
Definition ranges : list MemRange := [range 0x80000000 0x80100000; range 0x90000000 0x94000000].

Lemma carve_out_correct_witness :
  match carve_out_mem_range ranges 0x200000 with
  | (Ok (b, e), l') => ∃ i mr, ranges !! i = Some mr ∧ 0x200000 ≤ range_size mr ∧ e = r_end mr ∧ b = pa_init (pa (r_end mr) - 0x200000) ∧
      l' = <[i := mkMemRange (r_begin mr) b]> ranges ∧ Forall (λ m, range_size m < 0x200000) (take i ranges)
  | (Err _, l') => l' = ranges ∧ Forall (λ m, range_size m < 0x200000) ranges
  end.
Proof. apply (carve_out_correct ranges 0x200000); [by_computation|lia]. Defined.

(** The first range loses its begin, the second one its begin and its end. *)
Definition left_over : list MemRange := [range 0x80001000 0x80100000; range 0x90200000 0x93e00000].
Definition no_update : BootParamsUpdate := BootParamsUpdate_new (pa_init 0) (pa_init 0).
Lemma update_reserved_ranges_correct_witness :
  ∃ u', update_reserved_ranges no_update ranges left_over = Done (Ok tt, u') ∧ reserved_ranges_count u' = 3 ∧
    (∃ m, m ∈ reserved u' ∧ in_range m 0x80000fff) ∧ (∃ m, m ∈ reserved u' ∧ in_range m 0x93e00000) ∧
    ¬ ∃ m, m ∈ reserved u' ∧ in_range m 0x90200000.
Proof.
  destruct (update_reserved_ranges_correct no_update ranges left_over) as (r & u' & H & _ & _ & _ & Hok & Hin).
  - split; vm_compute; [reflexivity|split; discriminate].
  - repeat constructor; vm_compute; discriminate.
  - assert (Hr : r = Ok tt) by (apply Hok; vm_compute; discriminate). subst r. specialize (Hin eq_refl). exists u'. split_and!; [done| | | |].
    + vm_compute in H. by injection H as <-.
    + apply Hin. right. exists 0%nat, (range 0x80000000 0x80100000), (range 0x80001000 0x80100000).
      split_and!; [done..| |]; unfold in_range; cbn; lia.
    + apply Hin. right. exists 1%nat, (range 0x90000000 0x94000000), (range 0x90200000 0x93e00000).
      split_and!; [done..| |]; unfold in_range; cbn; lia.
    + intros [(m & Hm & _)|([|[|i]] & b & a & Hb & Ha & Hx & Hn)]%Hin; [by apply not_elem_of_nil in Hm|..]; cbn in Hb, Ha; simplify_eq;
        unfold in_range in *; cbn in *; lia.
Defined.

(** A range that ends in its first page: rounding its end down leaves a range of
    negative size, the difference wraps, and a VM gets memory below the range. *)
Lemma small_range_escapes :
  (l ← round_ends [range 0x80000100 0x80000200]; Done (carve_out_mem_range l 0x100000).1)
  = Done (Ok (pa_init 0x7ff00000, pa_init 0x80000000)).
Proof. vm_compute. reflexivity. Qed.
End RangeDemo.
