(* ===== verification/Init.v ===== *)
(** * Initialisation ([init.rs])

    [one_time_init] builds the hypervisor from nothing on the boot CPU; [cpu_main]
    hands a CPU that was turned on the vCPU of the primary VM it runs first.  Console,
    trap vectors and system registers of the CPU are not part of the state. *)
From S2P Require Import Prelude Addr Mode Arch Mpool Mm MemoryManager ArchCpu Cpu Vm Memory Memiter Manifest FdtHandler BootFlow Hypervisor Load.

(** A pointer to a CPU: the static record of the boot CPU, or an element of the
    array of the CPU manager. *)
Inductive cpu_ptr := BootCpu | Managed (i : nat).
#[export] Instance cpu_ptr_eq_dec : EqDecision cpu_ptr.
Proof. solve_decision. Defined.

(** What the image and the machine provide. *)
Record Machine := mkMachine {
  m_layout : Layout;
  m_plat : Platform;
  m_after_trailer : list Z;
  m_hw : Hw;
  (** The address of [PTABLE_BUF], the id of the boot CPU, the stacks. *)
  m_ptable_buf : Z;
  m_boot_cpu_id : Z;
  m_callstacks : list Z;
}.

(** [INITED] and [HYPERVISOR]; before it is written there is only memory. *)
Record Global := mkGlobal { g_inited : bool; g_hypervisor : option Hypervisor; g_mem : Mem }.

Section init.
Context {A : ArchMM} {RD : ReduceCrate} {LG : StaleLogs}.

(** The pool and the memory manager. *)
Definition init_mm (m : Machine) : exec (PageTable * MmState) :=
  let ppool := MPool_free_pages MPool_new (mkPages (m_ptable_buf m) HEAP_PAGES) in
  '(mm, st) ← MemoryManager_new (m_layout m) (mkMmState ppool [] false);
  mm ← unwrap_opt mm;
  Done (hypervisor_ptable mm, st).

(** From the boot flow to the new [Hypervisor]; the manifest and the parameters are
    not initialised before. *)
Definition init_hypervisor (m : Machine) (mem : Mem) (manifest : Manifest) (params : BootParams)
    : exec (Hypervisor * Manifest * BootParams) :=
  '(hp, st) ← init_mm m;
  '(r, manifest, params, hp, st) ← boot_flow_init (m_plat m) mem hp manifest params st;
  _ ← unwrap_res r;
  assert_then (cpu_count params <=? Z.of_nat (length (cpu_ids params))) (
  cpus ← CpuManager_new (take (Z.to_nat (cpu_count params)) (cpu_ids params)) (m_boot_cpu_id m) (m_callstacks m);
  Done (mkHypervisor st hp cpus [] (mkLinked ∅ ∅) mem, manifest, params)).

(** Loads the VMs from the ramdisk. *)
Definition init_vms (m : Machine) (hv : Hypervisor) (manifest : Manifest) (params : BootParams)
    : exec (BootParamsUpdate * Hypervisor) :=
  '(ok, hp, st) ← identity_map (SG := Stage1) (hv_ptable hv) (initrd_begin params) (initrd_end params) Mode.R (hv_mm hv);
  assert_then ok (
  let hv := set_hv_ptable hp (set_mm st hv) in
  let cpio := from_raw (pa_addr (initrd_begin params)) (pa_difference (initrd_begin params) (initrd_end params)) in
  '(r, hv) ← load_primary (m_after_trailer m) (m_layout m) hv cpio (kernel_arg params);
  primary_initrd ← unwrap_res r;
  let update := BootParamsUpdate_new (pa_from_va (va_init (get_next primary_initrd)))
                                     (pa_from_va (va_init (get_limit primary_initrd))) in
  '(r, update, hv) ← load_secondary (m_after_trailer m) (m_hw m) hv manifest cpio params update;
  _ ← unwrap_res r;
  Done (update, hv)).

Definition one_time_init (m : Machine) (c : cpu_ptr) (g : Global) (manifest : Manifest) (params : BootParams)
    : exec (cpu_ptr * Global) :=
  if bool_decide (c ≠ BootCpu) || g_inited g then Done (c, g)
  else
  '(hv, manifest, params) ← init_hypervisor m (g_mem g) manifest params;
  '(update, hv) ← init_vms m hv manifest params;
  '(r, mem, hp, st) ← boot_params_patch_fdt (m_plat m) (hv_mem hv) (hv_ptable hv) update (m_layout m) (hv_mm hv);
  _ ← unwrap_res r;
  '(hp, st) ← mm_defrag hp st;
  let hv := set_mem mem (set_hv_ptable hp (set_mm (mm_vm_enable_invalidation st) hv)) in
  Done (Managed 0, mkGlobal true (Some hv) mem).

(** [cpu_main]: the vCPU to run.  The offset of a pointer that is not in the array is
    out of its range. *)
Definition cpu_main (hw : Hw) (c : cpu_ptr) (hv : Hypervisor) : exec (vref * Hypervisor) :=
  match c with
  | BootCpu => Panic
  | Managed i =>
      primary ← vm_of hv primary_index;
      _ ← vcpu_of hv (primary_index, i);
      cpu ← unwrap_opt (hv_cpus hv !! i);
      Done ((primary_index, i),
            upd_vc (primary_index, i)
              (upd_inner (λ v, with_regs (λ regs, arch_regs_reset hw regs true (vm_id primary) (cpu_id cpu) (get_ptable_raw primary))
                                 (with_cpu (Some i) v))) hv)
  end.
End init.
