(* ===== verification/Api.v ===== *)
(** * The entry points of the hypercall handlers ([api.rs])

    The exception handlers call these functions with the vCPU that trapped.  [next]
    is the out-parameter: [Some] when the call stores the vCPU to switch to. *)
From S2P Require Import Prelude Addr Mode Arch Mpool Mm Abi ArchCpu Interrupts Cpu Vm Memory Spci Hypervisor.

Definition api_preempt (hw : Hw) (now : Z) (hv : Hypervisor) (current : vref) : exec (vref * Hypervisor) :=
  preempt hw now hv current.
Definition api_wait_for_interrupt (hw : Hw) (now : Z) (hv : Hypervisor) (current : vref)
    : exec (vref * Hypervisor) := wait_for_interrupt hw now hv current.
Definition api_vcpu_off (hw : Hw) (now : Z) (hv : Hypervisor) (current : vref)
    : exec (vref * Hypervisor * Hw) := vcpu_off hw now hv current.
Definition api_spci_yield (hw : Hw) (now : Z) (hv : Hypervisor) (current : vref)
    : exec (Z * option vref * Hypervisor) :=
  '(next, hv) ← spci_yield hw now hv current; Done (spci_return_code Success, next, hv).
Definition api_wake_up (hw : Hw) (now : Z) (hv : Hypervisor) (current target_vcpu : vref)
    : exec (vref * Hypervisor) := wake_up hw now hv current target_vcpu.
Definition api_abort (hw : Hw) (now : Z) (hv : Hypervisor) (current : vref)
    : exec (option (vref * Hypervisor)) := abort hw now hv current.
Definition api_vm_get_id (hv : Hypervisor) (current : vref) : exec Z := vm_get_id hv current.
Definition api_vm_get_count (hv : Hypervisor) : Z := vm_get_count hv.
Definition api_vcpu_get_count (hv : Hypervisor) (id : Z) (current : vref) : exec Z :=
  r ← vcpu_get_count hv id current; Done (default 0 r).

(** The registers of the vCPU have been saved: its execution lock is dropped. *)
Definition api_regs_state_saved (hv : Hypervisor) (current : vref) : exec Hypervisor :=
  vm ← vm_of hv current.1;
  Done (if negb (vm_id vm =? HF_PRIMARY_VM_ID) then upd_vc current vcpu_unlock hv else hv).

Definition api_vcpu_run (hw : Hw) (now1 now2 now3 : Z) (hv : Hypervisor) (id vcpu_idx : Z) (current : vref)
    : exec (Z * option vref * Hypervisor) :=
  '(r, hv) ← vcpu_run hw now1 now2 now3 hv id vcpu_idx current;
  match r with
  | Ok vcpu => Done (into_raw Preempted, Some vcpu, hv)
  | Err ret => Done (into_raw ret, None, hv)
  end.

Definition api_spci_msg_recv (hw : Hw) (now : Z) (hv : Hypervisor) (attributes : Z) (current : vref)
    : exec (Z * option vref * Hypervisor) :=
  '(ret, next, hv) ← spci_msg_recv hw now hv attributes current; Done (spci_return_code ret, next, hv).
Definition api_mailbox_writable_get (hv : Hypervisor) (current : vref) : exec (Z * Hypervisor) :=
  '(r, hv) ← mailbox_writable_get hv current; Done (default (-1) r, hv).
Definition api_mailbox_waiter_get (hv : Hypervisor) (id : Z) (current : vref) : exec (Z * Hypervisor) :=
  '(r, hv) ← mailbox_waiter_get hv id current; Done (default (-1) r, hv).
Definition api_mailbox_clear (hw : Hw) (now : Z) (hv : Hypervisor) (current : vref)
    : exec (Z * option vref * Hypervisor) := mailbox_clear hw now hv current.
Definition api_interrupt_enable (hv : Hypervisor) (intid : Z) (on : bool) (current : vref)
    : exec (Z * Hypervisor) :=
  '(ok, hv) ← interrupt_enable hv intid on current; Done (if ok : bool then 0 else -1, hv).
Definition api_interrupt_get (hv : Hypervisor) (current : vref) : exec (Z * Hypervisor) := interrupt_get hv current.
Definition api_interrupt_inject (hw : Hw) (now : Z) (hv : Hypervisor)
    (target_vm_id target_vcpu_idx intid : Z) (current : vref) : exec (Z * option vref * Hypervisor) :=
  interrupt_inject hw now hv target_vm_id target_vcpu_idx intid current.

Section memory.
Context {A : ArchMM} {RD : ReduceCrate} (MESSAGE_BUFFER : Z).
Definition api_vm_configure (hw : Hw) (now : Z) (hv : Hypervisor) (send recv : ipaddr_t) (current : vref)
    : exec (Z * option vref * Hypervisor) := vm_configure hw now hv send recv current.
Definition api_spci_msg_send (hw : Hw) (now : Z) (hv : Hypervisor) (attributes : Z) (current : vref)
    : exec (Z * option vref * Hypervisor) :=
  '(ret, next, hv) ← spci_msg_send MESSAGE_BUFFER hw now hv attributes current;
  Done (spci_return_code ret, next, hv).
(** The sharing request is untrusted. *)
Definition api_share_memory (hv : Hypervisor) (id : Z) (addr : ipaddr_t) (size share : Z) (current : vref)
    : exec (Z * Hypervisor) :=
  match HfShare_try_from share with
  | Err _ => Done (-1, hv)
  | Ok share => '(ok, hv) ← share_memory hv id addr size share current; Done (if ok : bool then 0 else -1, hv)
  end.
End memory.
Definition api_spci_version : Z := spci_version.
Definition api_debug_log (hv : Hypervisor) (c : Z) (current : vref) : exec (Z * option (list Z) * Hypervisor) :=
  '(out, hv) ← hv_debug_log hv c current; Done (0, out, hv).
