(* ===== verification/Psci.v ===== *)
(** * Power management of CPUs ([src/arch/aarch64/hypervisor/psci_handler.c], [smc.c])

    The state a handler of an exception works on, a small monad for the handlers, and
    the PSCI calls of the primary VM, which are passed on to the firmware, and of
    secondary VMs, which start and stop vCPUs.  The firmware at EL3 is a parameter: a
    function from its state and the registers of an [smc] instruction to the
    registers it returns ([None] if it does not return, as for a CPU it turns off).
    Integers are truncated where the C prototypes do. *)
From S2P Require Import Prelude Addr Mode Arch Mpool Mm Abi ArchCpu Interrupts Cpu Vm Memory Spci Hypervisor Api.

(** ** State of the handlers *)

(** A physical CPU: the vCPU on it ([tpidr_el2]) and the registers the vCPU uses, of
    which [pc] and [spsr] are [elr_el2] and [spsr_el2] while an exception is handled;
    the timer of EL2; the registers the hypervisor only reads; the debug registers by
    their number in an [msr] or [mrs] instruction; the VMIDs in the [vttbr_el2] of
    each [tlbi vmalle1] so far. *)
Record Pcpu := mkPcpu {
  p_current : vref;
  p_regs : ArchRegs;
  p_cnthp_ctl : Z;
  p_cnthp_cval : Z;
  p_pmcr : Z;
  p_cntfrq : Z;
  p_debug : Z → Z;
  p_tlbi : list Z;
}.

(** The hypervisor, the CPU that runs the handler, [last_vcpu_on_cpu] of each VM and
    CPU, and the firmware. *)
Record St (FS : Type) := mkSt {
  st_hv : Hypervisor;
  st_cpu : Pcpu;
  st_last : nat → nat → Z;
  st_fw : FS;
}.
Arguments mkSt {FS}. Arguments st_hv {FS}. Arguments st_cpu {FS}. Arguments st_last {FS}. Arguments st_fw {FS}.

(** The registers of the CPU that the Rust code reads. *)
Definition hw_of (c : Pcpu) : Hw :=
  mkHw (mdcr_el2 (lazy (p_regs c))) (p_pmcr c) (p_cntfrq c)
    (cntv_ctl_el0 (peripherals (p_regs c))) (cntv_cval_el0 (peripherals (p_regs c))).

Definition set_current (v : vref) (c : Pcpu) : Pcpu :=
  mkPcpu v (p_regs c) (p_cnthp_ctl c) (p_cnthp_cval c) (p_pmcr c) (p_cntfrq c) (p_debug c) (p_tlbi c).
Definition set_live (r : ArchRegs) (c : Pcpu) : Pcpu :=
  mkPcpu (p_current c) r (p_cnthp_ctl c) (p_cnthp_cval c) (p_pmcr c) (p_cntfrq c) (p_debug c) (p_tlbi c).
Definition set_cnthp (ctl cval : Z) (c : Pcpu) : Pcpu :=
  mkPcpu (p_current c) (p_regs c) ctl cval (p_pmcr c) (p_cntfrq c) (p_debug c) (p_tlbi c).
Definition set_debug (d : Z → Z) (c : Pcpu) : Pcpu :=
  mkPcpu (p_current c) (p_regs c) (p_cnthp_ctl c) (p_cnthp_cval c) (p_pmcr c) (p_cntfrq c) d (p_tlbi c).
Definition add_tlbi (vmid : Z) (c : Pcpu) : Pcpu :=
  mkPcpu (p_current c) (p_regs c) (p_cnthp_ctl c) (p_cnthp_cval c) (p_pmcr c) (p_cntfrq c) (p_debug c) (vmid :: p_tlbi c).

(** ** The monad of the handlers

    A handler ends with a value, panics, or keeps the CPU for ever ([None]: it spins,
    or the firmware has turned it off), which leaves a state to the other CPUs. *)
Definition handler (FS A : Type) : Type := St FS → exec (option A * St FS).
#[export] Instance handler_ret FS : MRet (handler FS) := λ A a s, Done (Some a, s).
#[export] Instance handler_bind FS : MBind (handler FS) := λ A B k m s,
  match m s with
  | Panic => Panic
  | Done (None, s') => Done (None, s')
  | Done (Some a, s') => k a s'
  end.
Definition asks {FS A} (f : St FS → A) : handler FS A := λ s, Done (Some (f s), s).
Definition modify {FS} (f : St FS → St FS) : handler FS unit := λ s, Done (Some tt, f s).
Definition gone {FS A} : handler FS A := λ s, Done (None, s).
Definition panic {FS A} : handler FS A := λ _, Panic.
Definition lift {FS A} (m : exec A) : handler FS A := λ s, a ← m; Done (Some a, s).
(** Following a pointer into the state of the hypervisor. *)
Definition peek {FS A} (f : Hypervisor → exec A) : handler FS A := λ s, a ← f (st_hv s); Done (Some a, s).
(** A call of the Rust code. *)
Definition rust {FS A} (f : Hypervisor → exec (A * Hypervisor)) : handler FS A := λ s,
  '(a, hv) ← f (st_hv s); Done (Some a, mkSt hv (st_cpu s) (st_last s) (st_fw s)).
Definition on_hv {FS} (f : Hypervisor → Hypervisor) : handler FS unit :=
  modify (λ s, mkSt (f (st_hv s)) (st_cpu s) (st_last s) (st_fw s)).
Definition on_cpu {FS} (f : Pcpu → Pcpu) : handler FS unit :=
  modify (λ s, mkSt (st_hv s) (f (st_cpu s)) (st_last s) (st_fw s)).

(** ** Calls of the firmware ([smc.h], [smc.c]) *)
Record smc_res := mkRes { res0 : Z; res1 : Z; res2 : Z; res3 : Z }.
Definition set_res0 (v : Z) (r : smc_res) : smc_res := mkRes v (res1 r) (res2 r) (res3 r).

Definition SMCCC_CONVENTION_MASK : Z := 0x40000000.
Definition SMCCC_32_BIT : Z := 0.
Definition SMCCC_64_BIT : Z := 0x40000000.
Definition SMCCC_SERVICE_CALL_MASK : Z := 0x3f000000.
Definition SMCCC_STANDARD_SECURE_SERVICE_CALL : Z := 0x04000000.
Definition SMCCC_CALLER_HYPERVISOR : Z := 0.
Definition SMCCC_ERROR_UNKNOWN : Z := -1.

(** [x & ~SMCCC_CONVENTION_MASK] for an unsigned [x]. *)
Definition no_convention (x : Z) : Z := Z.ldiff x SMCCC_CONVENTION_MASK.

Section calls.
Context {FS : Type} (el3 : FS → list Z → option smc_res * FS).

Definition smc_internal (func : Z) (args : list Z) (caller_id : Z) : handler FS smc_res := λ s,
  let '(r, fw) := el3 (st_fw s) (func :: args ++ [caller_id]) in
  Done (r, mkSt (st_hv s) (st_cpu s) (st_last s) fw).
Definition smc32 (func a0 a1 a2 : Z) : handler FS smc_res :=
  smc_internal (Z.lor func SMCCC_32_BIT) (wrap 32 <$> [a0; a1; a2; 0; 0; 0]) SMCCC_CALLER_HYPERVISOR.
Definition smc64 (func a0 a1 a2 : Z) : handler FS smc_res :=
  smc_internal (Z.lor func SMCCC_64_BIT) [a0; a1; a2; 0; 0; 0] SMCCC_CALLER_HYPERVISOR.
Definition smc_forward (func a0 a1 a2 a3 a4 a5 caller_id : Z) : handler FS smc_res :=
  smc_internal func [a0; a1; a2; a3; a4; a5] caller_id.
End calls.

(** ** PSCI ([psci.h]) *)
Definition PSCI_VERSION_0_2 : Z := 0x00000002.
Definition PSCI_VERSION_1_0 : Z := 0x00010000.
Definition PSCI_VERSION_1_1 : Z := 0x00010001.
Definition PSCI_VERSION : Z := 0x84000000.
Definition PSCI_CPU_SUSPEND : Z := 0x84000001.
Definition PSCI_CPU_OFF : Z := 0x84000002.
Definition PSCI_CPU_ON : Z := 0x84000003.
Definition PSCI_AFFINITY_INFO : Z := 0x84000004.
Definition PSCI_SYSTEM_OFF : Z := 0x84000008.
Definition PSCI_SYSTEM_RESET : Z := 0x84000009.
Definition PSCI_FEATURES : Z := 0x8400000a.
(** [MIGRATE], [MIGRATE_INFO_TYPE], [MIGRATE_INFO_UP_CPU], [CPU_FREEZE],
    [CPU_DEFAULT_SUSPEND], [NODE_HW_STATE], [SYSTEM_SUSPEND], [SET_SYSPEND_MODE],
    [STAT_RESIDENCY], [STAT_COUNT], [SYSTEM_RESET2], [MEM_PROTECT] and
    [MEM_PROTECT_CHECK_RANGE]: known and blocked. *)
Definition psci_blocked : list Z :=
  [0x84000005; 0x84000006; 0x84000007; 0x8400000b; 0x8400000c; 0x8400000d; 0x8400000e;
   0x8400000f; 0x84000010; 0x84000011; 0x84000012; 0x84000013; 0x84000014].

Definition PSCI_RETURN_OFF : Z := 1.
Definition PSCI_RETURN_ON : Z := 0.
Definition PSCI_RETURN_SUCCESS : Z := 0.
(** The error codes are of type [int]; stored in a register they are sign extended. *)
Definition PSCI_ERROR_NOT_SUPPORTED : Z := wrap 64 SMCCC_ERROR_UNKNOWN.
Definition PSCI_ERROR_INVALID_PARAMETERS : Z := wrap 64 (-2).
Definition PSCI_ERROR_DENIED : Z := wrap 64 (-3).
Definition PSCI_ERROR_ALREADY_ON : Z := wrap 64 (-4).

(** Membership in the cases of a [switch]. *)
Definition one_of (x : Z) (l : list Z) : bool := existsb (Z.eqb x) l.

Section psci.
Context {FS : Type} (el3 : FS → list Z → option smc_res * FS).
(** The address of the entry point and of each [struct cpu]; the version found at
    boot; the rounds after which the loop of [PSCI_CPU_ON] is given up; a read of the
    virtual counter. *)
Context (cpu_entry : Z) (cpu_addr : nat → Z) (el3_psci_version : Z) (rounds : nat) (now : Z).
Abbreviation H := (handler FS).

(** [arch_one_time_init]: the version the handlers work with. *)
Definition arch_one_time_init : H Z :=
  res ← smc32 el3 PSCI_VERSION 0 0 0;
  let version := wrap 32 (res0 res) in
  mret (if one_of version [PSCI_VERSION_0_2; PSCI_VERSION_1_0; PSCI_VERSION_1_1] then version else 0).

(** [cpu_find]. *)
Definition cpu_find (id : Z) : H (option nat) := asks (λ s, lookup_cpu (hv_cpus (st_hv s)) id).
Definition set_cpus (cpus : list Cpu) (hv : Hypervisor) : Hypervisor :=
  mkHypervisor (hv_mm hv) (hv_ptable hv) cpus (hv_vms hv) (hv_links hv) (hv_mem hv).
(** [cpu_off] and [cpu_on] on the state; a CPU that finds the vCPU locked spins after
    it has set the flag. *)
Definition psci_cpu_off (c : nat) : H unit := on_hv (λ hv, set_cpus (cpu_off (hv_cpus hv) c) hv).
Definition psci_cpu_on (c : nat) (entry : ipaddr_t) (arg : Z) : H bool :=
  primary ← peek (λ hv, vm_of hv primary_index);
  cpus ← asks (λ s, hv_cpus (st_hv s));
  r ← lift (cpu_on cpus (vcpus primary) c entry arg);
  match r with
  | None =>
      _ ← on_hv (set_cpus (alter (λ cpu, mkCpu (cpu_id cpu) (stack_bottom cpu) true) c cpus));
      gone
  | Some (prev, cpus, vcs) =>
      _ ← on_hv (set_cpus cpus);
      _ ← on_hv (upd_vm primary_index (λ vm, mkVm (vm_id vm) vcs (vm_inner vm) (aborting vm)));
      mret prev
  end.

(** The firmware reports a CPU that is turning itself off as on. *)
Fixpoint cpu_on_loop (n : nat) (id : Z) (c : nat) : H Z :=
  match n with
  | O => gone
  | S n =>
      res ← smc64 el3 PSCI_CPU_ON id cpu_entry (cpu_addr c);
      if res0 res =? PSCI_ERROR_ALREADY_ON then cpu_on_loop n id c else mret (res0 res)
  end.

(** The vCPU [vcpu] and its CPU. *)
Definition the_vcpu (vcpu : vref) : H VCpu := peek (λ hv, vcpu_of hv vcpu).
Definition the_vm (vcpu : vref) : H Vm := peek (λ hv, vm_of hv vcpu.1).
Definition vcpu_get_cpu (vcpu : vref) : H nat := v ← the_vcpu vcpu; lift (unwrap_opt (vi_cpu (vc_inner v))).
(** Stores to the registers saved in a vCPU. *)
Definition upd_regs (vcpu : vref) (f : ArchRegs → ArchRegs) : H unit :=
  _ ← the_vcpu vcpu; on_hv (upd_vc vcpu (upd_inner (with_regs f))).

(** [psci_primary_vm_handler]: whether the request was a PSCI one, and [*ret], which
    holds [ret] before. *)
Definition psci_primary_vm_handler (vcpu : vref) (func a0 a1 a2 ret : Z) : H (bool * Z) :=
  if el3_psci_version =? 0 then
    mret (Z.land func SMCCC_SERVICE_CALL_MASK =? SMCCC_STANDARD_SECURE_SERVICE_CALL, wrap 64 SMCCC_ERROR_UNKNOWN)
  else
  let f := no_convention func in
  if f =? PSCI_VERSION then mret (true, PSCI_VERSION_1_1)
  else if f =? PSCI_FEATURES then
    let g := no_convention a0 in
    if g =? PSCI_CPU_SUSPEND then
      if el3_psci_version =? PSCI_VERSION_0_2 then mret (true, 0)
      else res ← smc32 el3 func a0 0 0; mret (true, Z.land (res0 res) 0x3)
    else if one_of g [PSCI_VERSION; PSCI_FEATURES; PSCI_SYSTEM_OFF; PSCI_SYSTEM_RESET;
                      PSCI_AFFINITY_INFO; PSCI_CPU_OFF; PSCI_CPU_ON] then mret (true, 0)
    else mret (true, PSCI_ERROR_NOT_SUPPORTED)
  else if one_of f [PSCI_SYSTEM_OFF; PSCI_SYSTEM_RESET] then
    _ ← smc32 el3 f 0 0 0; panic
  else if f =? PSCI_AFFINITY_INFO then
    c ← cpu_find a0;
    match c with
    | None => mret (true, PSCI_ERROR_INVALID_PARAMETERS)
    | Some c =>
        if negb (a1 =? 0) then mret (true, PSCI_ERROR_NOT_SUPPORTED)
        else
          cpu ← peek (λ hv, unwrap_opt (hv_cpus hv !! c));
          mret (true, if is_on cpu then PSCI_RETURN_ON else PSCI_RETURN_OFF)
    end
  else if f =? PSCI_CPU_SUSPEND then
    _ ← upd_regs vcpu (λ regs, set_pc_arg regs (ipa_init a1) a2);
    c ← vcpu_get_cpu vcpu;
    res ← smc64 el3 PSCI_CPU_SUSPEND a0 cpu_entry (cpu_addr c);
    mret (true, res0 res)
  else if f =? PSCI_CPU_OFF then
    c ← vcpu_get_cpu vcpu;
    _ ← psci_cpu_off c;
    _ ← smc32 el3 PSCI_CPU_OFF 0 0 0;
    panic
  else if f =? PSCI_CPU_ON then
    c ← cpu_find a0;
    match c with
    | None => mret (true, PSCI_ERROR_INVALID_PARAMETERS)
    | Some c =>
        was_on ← psci_cpu_on c (ipa_init a1) a2;
        if was_on : bool then mret (true, PSCI_ERROR_ALREADY_ON)
        else
          r ← cpu_on_loop rounds a0 c;
          if negb (r =? PSCI_RETURN_SUCCESS) then _ ← psci_cpu_off c; mret (true, r)
          else mret (true, r)
    end
  else if one_of f psci_blocked then mret (true, PSCI_ERROR_NOT_SUPPORTED)
  else mret (false, ret).

(** [vcpu_id_to_index]: the id, truncated to the type of an index. *)
Definition vcpu_id_to_index (vcpu_id : Z) : Z := wrap 16 vcpu_id.

(** [psci_secondary_vm_handler]: also [*next]. *)
Definition psci_secondary_vm_handler (vcpu : vref) (func a0 a1 a2 ret : Z) (next : option vref)
    : H (bool * Z * option vref) :=
  let f := no_convention func in
  if f =? PSCI_VERSION then mret (true, PSCI_VERSION_1_1, next)
  else if f =? PSCI_FEATURES then
    let g := no_convention a0 in
    if g =? PSCI_CPU_SUSPEND then mret (true, 0x2, next)
    else if one_of g [PSCI_VERSION; PSCI_FEATURES; PSCI_AFFINITY_INFO; PSCI_CPU_OFF; PSCI_CPU_ON]
    then mret (true, 0, next)
    else mret (true, PSCI_ERROR_NOT_SUPPORTED, next)
  else if f =? PSCI_AFFINITY_INFO then
    let lowest_affinity_level := wrap 32 a1 in
    let idx := vcpu_id_to_index a0 in
    vm ← the_vm vcpu;
    if negb (lowest_affinity_level =? 0) then mret (true, PSCI_ERROR_INVALID_PARAMETERS, next)
    else if vm_get_vcpu_count vm <=? idx then mret (true, PSCI_ERROR_INVALID_PARAMETERS, next)
    else
      let t := (vcpu.1, Z.to_nat idx) in
      v ← the_vcpu t;
      let '(got, v) := vcpu_try_lock v in
      if negb got then mret (true, PSCI_RETURN_ON, next)
      else
        let ret := if is_off (vc_inner v) then PSCI_RETURN_OFF else PSCI_RETURN_ON in
        _ ← on_hv (upd_vc t (λ _, vcpu_unlock v));
        mret (true, ret, next)
  else if f =? PSCI_CPU_SUSPEND then
    hw ← asks (λ s, hw_of (st_cpu s));
    n ← rust (λ hv, api_wait_for_interrupt hw now hv vcpu);
    mret (true, PSCI_RETURN_SUCCESS, Some n)
  else if f =? PSCI_CPU_OFF then
    hw ← asks (λ s, hw_of (st_cpu s));
    '(n, hw') ← rust (λ hv, '(n, hv, hw) ← api_vcpu_off hw now hv vcpu; Done ((n, hw), hv));
    _ ← on_cpu (λ c, set_live (let g := p_regs c in
          mkRegs (r g) (pc g) (spsr g) (lazy g) (fp g) (fpsr g) (fpcr g) (gic_ich_hcr_el2 g) (gic_icc_sre_el2 g)
            (mkPeri (hw_cntv_cval_el0 hw') (hw_cntv_ctl_el0 hw'))) c);
    mret (true, PSCI_ERROR_DENIED, Some n)
  else if f =? PSCI_CPU_ON then
    let idx := vcpu_id_to_index a0 in
    vm ← the_vm vcpu;
    if vm_get_vcpu_count vm <=? idx then mret (true, PSCI_ERROR_INVALID_PARAMETERS, next)
    else
      let t := (vcpu.1, Z.to_nat idx) in
      v ← the_vcpu t;
      hw ← asks (λ s, hw_of (st_cpu s));
      started ← lift (vcpu_secondary_reset_and_start hw (vm_id vm) (get_ptable_raw vm) idx v (ipa_init a1) a2);
      match started with
      | None => gone
      | Some (was_off, v) =>
          _ ← on_hv (upd_vc t (λ _, v));
          if was_off : bool then
            n ← rust (λ hv, api_wake_up hw now hv vcpu t);
            mret (true, PSCI_RETURN_SUCCESS, Some n)
          else mret (true, PSCI_ERROR_ALREADY_ON, next)
      end
  else if one_of f (PSCI_SYSTEM_OFF :: PSCI_SYSTEM_RESET :: psci_blocked)
  then mret (true, PSCI_ERROR_NOT_SUPPORTED, next)
  else mret (false, ret, next).

Definition psci_handler (vcpu : vref) (func a0 a1 a2 ret : Z) (next : option vref) : H (bool * Z * option vref) :=
  vm ← the_vm vcpu;
  if vm_id vm =? HF_PRIMARY_VM_ID then
    '(b, ret) ← psci_primary_vm_handler vcpu func a0 a1 a2 ret; mret (b, ret, next)
  else psci_secondary_vm_handler vcpu func a0 a1 a2 ret next.
End psci.
