(* ===== verification/Handler.v ===== *)
(** * Exceptions from VMs and the switch between vCPUs

    [src/arch/aarch64/hypervisor/handler.c], the part of [debug_el1.c] that handles
    accesses to debug registers, and the paths of [exceptions.S] from an exception of
    a VM to the return to a VM.  The assembly saves the registers of the VM in its
    vCPU and restores them from there; during a call to C or Rust the general
    registers are used by the callee, so they are read from the vCPU afterwards.  The
    hypervisor is compiled without floating-point registers. *)
From S2P Require Import Prelude Addr Mode Arch Mpool Mm Abi ArchCpu Interrupts Cpu Vm Memory Spci Hypervisor Api Psci.

(** ** Registers *)

(** Assignments to the fields of a register file. *)
Definition with_r (l : list Z) (g : ArchRegs) : ArchRegs :=
  mkRegs l (pc g) (spsr g) (lazy g) (fp g) (fpsr g) (fpcr g) (gic_ich_hcr_el2 g) (gic_icc_sre_el2 g) (peripherals g).
Definition with_pc (v : Z) (g : ArchRegs) : ArchRegs :=
  mkRegs (r g) v (spsr g) (lazy g) (fp g) (fpsr g) (fpcr g) (gic_ich_hcr_el2 g) (gic_icc_sre_el2 g) (peripherals g).
Definition with_spsr (v : Z) (g : ArchRegs) : ArchRegs :=
  mkRegs (r g) (pc g) v (lazy g) (fp g) (fpsr g) (fpcr g) (gic_ich_hcr_el2 g) (gic_icc_sre_el2 g) (peripherals g).
Definition with_lazy (l : ArchSysRegs) (g : ArchRegs) : ArchRegs :=
  mkRegs (r g) (pc g) (spsr g) l (fp g) (fpsr g) (fpcr g) (gic_ich_hcr_el2 g) (gic_icc_sre_el2 g) (peripherals g).
Definition with_fp (l : list float_reg) (sr cr : Z) (g : ArchRegs) : ArchRegs :=
  mkRegs (r g) (pc g) (spsr g) (lazy g) l sr cr (gic_ich_hcr_el2 g) (gic_icc_sre_el2 g) (peripherals g).
Definition with_gic (hcr sre : Z) (g : ArchRegs) : ArchRegs :=
  mkRegs (r g) (pc g) (spsr g) (lazy g) (fp g) (fpsr g) (fpcr g) hcr sre (peripherals g).
Definition with_peripherals (p : ArchPeriRegs) (g : ArchRegs) : ArchRegs :=
  mkRegs (r g) (pc g) (spsr g) (lazy g) (fp g) (fpsr g) (fpcr g) (gic_ich_hcr_el2 g) (gic_icc_sre_el2 g) p.
Definition with_hcr (v : Z) (l : ArchSysRegs) : ArchSysRegs :=
  mkSysRegs (vmpidr_el2 l) (csselr_el1 l) (sctlr_el1 l) (actlr_el1 l) (cpacr_el1 l) (ttbr0_el1 l) (ttbr1_el1 l)
    (tcr_el1 l) (esr_el1 l) (afsr0_el1 l) (afsr1_el1 l) (far_el1 l) (mair_el1 l) (vbar_el1 l) (contextidr_el1 l)
    (tpidr_el0 l) (tpidrro_el0 l) (tpidr_el1 l) (amair_el1 l) (cntkctl_el1 l) (sp_el0 l) (sp_el1 l) (elr_el1 l)
    (spsr_el1 l) (par_el1 l) v (cptr_el2 l) (cnthctl_el2 l) (vttbr_el2 l) (mdcr_el2 l) (mdscr_el1 l).
Definition with_mdscr (v : Z) (l : ArchSysRegs) : ArchSysRegs :=
  mkSysRegs (vmpidr_el2 l) (csselr_el1 l) (sctlr_el1 l) (actlr_el1 l) (cpacr_el1 l) (ttbr0_el1 l) (ttbr1_el1 l)
    (tcr_el1 l) (esr_el1 l) (afsr0_el1 l) (afsr1_el1 l) (far_el1 l) (mair_el1 l) (vbar_el1 l) (contextidr_el1 l)
    (tpidr_el0 l) (tpidrro_el0 l) (tpidr_el1 l) (amair_el1 l) (cntkctl_el1 l) (sp_el0 l) (sp_el1 l) (elr_el1 l)
    (spsr_el1 l) (par_el1 l) (hcr_el2 l) (cptr_el2 l) (cnthctl_el2 l) (vttbr_el2 l) (mdcr_el2 l) v.

(** General register [i]. *)
Definition x_reg (g : ArchRegs) (i : nat) : Z := nth i (r g) 0.
(** The registers [sel] picks from [src], the others from [dst]. *)
Definition pick (sel : nat → bool) (src dst : list Z) : list Z :=
  imap (λ i x, if sel i then nth i src 0 else x) dst.
(** [x0] to [x18], [x29] and [x30] are saved on entry, [x19] to [x28] on a switch. *)
Definition volatile (i : nat) : bool := (i <? 19)%nat || (28 <? i)%nat.
Definition nonvolatile (i : nat) : bool := negb (volatile i).

(** ** [handler.c] *)
Definition HCR_EL2_VI : Z := Z.shiftl 1 7.
Definition GET_EC (esr : Z) : Z := Z.shiftr esr 26.
Definition GET_NEXT_PC_INC (esr : Z) : Z := if negb (Z.land esr (Z.shiftl 1 25) =? 0) then 4 else 2.

(** [set_virtual_interrupt] and [set_virtual_interrupt_current] on the register;
    [~HCR_EL2_VI] is a number of 32 bits, so the upper half is cleared as well. *)
Definition vi_bit (hcr : Z) (enable : bool) : Z :=
  if enable then Z.lor hcr HCR_EL2_VI else Z.land hcr (Z.ldiff (2 ^ 32 - 1) HCR_EL2_VI).
Definition set_virtual_interrupt (enable : bool) (g : ArchRegs) : ArchRegs :=
  with_lazy (with_hcr (vi_bit (hcr_el2 (lazy g)) enable) (lazy g)) g.

Definition HF_VM_GET_ID : Z := 0xff00.
Definition HF_VM_GET_COUNT : Z := 0xff01.
Definition HF_VCPU_GET_COUNT : Z := 0xff02.
Definition HF_VCPU_RUN : Z := 0xff03.
Definition HF_VM_CONFIGURE : Z := 0xff05.
Definition HF_MAILBOX_CLEAR : Z := 0xff08.
Definition HF_MAILBOX_WRITABLE_GET : Z := 0xff09.
Definition HF_MAILBOX_WAITER_GET : Z := 0xff0a.
Definition HF_INTERRUPT_ENABLE : Z := 0xff0b.
Definition HF_INTERRUPT_GET : Z := 0xff0c.
Definition HF_INTERRUPT_INJECT : Z := 0xff0d.
Definition HF_SHARE_MEMORY : Z := 0xff0e.
Definition HF_DEBUG_LOG : Z := 0xbd000000.
Definition SPCI_VERSION_32 : Z := 0x84000060.
Definition SPCI_MSG_RECV_32 : Z := 0x84000062.
Definition SPCI_MSG_SEND_32 : Z := 0x84000064.
Definition SPCI_YIELD_32 : Z := 0x84000067.

(** What the hardware reports of an exception. *)
Inductive exception := Sync (esr far hpfar : Z) | Irq | Fiq | Serr.

Section handlers.
Context {A : ArchMM} {RD : ReduceCrate} (MESSAGE_BUFFER : Z).
Context {FS : Type} (el3 : FS → list Z → option smc_res * FS).
Context (cpu_entry : Z) (cpu_addr : nat → Z) (el3_psci_version : Z) (rounds : nat) (now1 now2 now3 : Z).
(** The contents of stack memory that the C code returns without initialising it. *)
Context (undef : smc_res).
Abbreviation H := (handler FS).
Abbreviation psci_call := (psci_handler el3 cpu_entry cpu_addr el3_psci_version rounds now1).

Definition current : H vref := asks (λ s, p_current (st_cpu s)).
Definition the_hw : H Hw := asks (λ s, hw_of (st_cpu s)).
Definition live : H ArchRegs := asks (λ s, p_regs (st_cpu s)).
Definition on_live (f : ArchRegs → ArchRegs) : H unit := on_cpu (λ c, set_live (f (p_regs c)) c).
Definition vcpu_get_regs (vcpu : vref) : H ArchRegs := v ← the_vcpu vcpu; mret (vi_regs (vc_inner v)).
(** [vm_get_id(vcpu_get_vm(vcpu))]. *)
Definition get_vm_id (vcpu : vref) : H Z := vm ← the_vm vcpu; mret (vm_id vm).

Definition complete_saving_state (vcpu : vref) : H unit :=
  g ← live;
  _ ← upd_regs vcpu (with_peripherals (peripherals g));
  _ ← rust (λ hv, hv ← api_regs_state_saved hv vcpu; Done (tt, hv));
  id ← get_vm_id vcpu;
  if id =? HF_PRIMARY_VM_ID then
    on_cpu (set_cnthp (cntv_ctl_el0 (peripherals g)) (cntv_cval_el0 (peripherals g)))
  else mret tt.

Definition begin_restoring_state (vcpu : vref) : H unit :=
  g ← vcpu_get_regs vcpu;
  _ ← on_live (with_peripherals (peripherals g));
  id ← get_vm_id vcpu;
  if id =? HF_PRIMARY_VM_ID then on_cpu (set_cnthp 0 0) else mret tt.

(** [invalidate_vm_tlb]: the VMID is that in [vttbr_el2]. *)
Definition invalidate_vm_tlb : H unit :=
  on_cpu (λ c, add_tlbi (Z.shiftr (vttbr_el2 (lazy (p_regs c))) 48) c).
Definition maybe_invalidate_tlb (vcpu : vref) : H unit :=
  c ← vcpu_get_cpu vcpu;
  last ← asks (λ s, st_last s vcpu.1 c);
  if negb (last =? Z.of_nat vcpu.2) then
    _ ← invalidate_vm_tlb;
    modify (λ s, mkSt (st_hv s) (st_cpu s)
      (λ v k, if bool_decide ((v, k) = (vcpu.1, c)) then Z.of_nat vcpu.2 else st_last s v k) (st_fw s))
  else mret tt.

Definition vcpu_is_interrupted (vcpu : vref) : H bool := v ← the_vcpu vcpu; mret (is_interrupted (vc_interrupts v)).
Definition update_vi (next : option vref) : H unit :=
  match next with
  | None => c ← current; b ← vcpu_is_interrupted c; on_live (set_virtual_interrupt b)
  | Some n => b ← vcpu_is_interrupted n; upd_regs n (set_virtual_interrupt b)
  end.

(** SMC calls are not forwarded: no client has the privilege. *)
Definition smc_check_client_privileges (vcpu : vref) : bool := false.
Definition smc_forwarder (vcpu : vref) (ret : smc_res) : H (bool * smc_res) :=
  g ← vcpu_get_regs vcpu;
  client_id ← get_vm_id vcpu;
  if smc_check_client_privileges vcpu then
    res ← smc_forward el3 (wrap 32 (x_reg g 0)) (x_reg g 1) (x_reg g 2) (x_reg g 3) (x_reg g 4) (x_reg g 5)
            (x_reg g 6) client_id;
    mret (true, res)
  else mret (false, ret).

(** Results are stored in a 64-bit register: signed ones are sign extended. *)
Definition spci_handler (func a1 : Z) (ret : Z) (next : option vref) : H (bool * Z * option vref) :=
  c ← current;
  hw ← the_hw;
  let f := no_convention func in
  if f =? SPCI_VERSION_32 then mret (true, wrap 64 api_spci_version, next)
  else if f =? SPCI_YIELD_32 then
    '(ret, n) ← rust (λ hv, '(ret, n, hv) ← api_spci_yield hw now1 hv c; Done ((ret, n), hv));
    mret (true, wrap 64 ret, from_option Some next n)
  else if f =? SPCI_MSG_SEND_32 then
    '(ret, n) ← rust (λ hv, '(ret, n, hv) ← api_spci_msg_send MESSAGE_BUFFER hw now1 hv (wrap 32 a1) c;
                            Done ((ret, n), hv));
    mret (true, wrap 64 ret, from_option Some next n)
  else if f =? SPCI_MSG_RECV_32 then
    '(ret, n) ← rust (λ hv, '(ret, n, hv) ← api_spci_msg_recv hw now1 hv (wrap 32 a1) c; Done ((ret, n), hv));
    mret (true, wrap 64 ret, from_option Some next n)
  else mret (false, ret, next).

(** The [switch] of [hvc_handler]. *)
Definition hf_call (func a1 a2 a3 : Z) (next : option vref) : H (Z * option vref) :=
  c ← current;
  hw ← the_hw;
  if func =? HF_VM_GET_ID then id ← peek (λ hv, api_vm_get_id hv c); mret (id, next)
  else if func =? HF_VM_GET_COUNT then n ← asks (λ s, api_vm_get_count (st_hv s)); mret (n, next)
  else if func =? HF_VCPU_GET_COUNT then
    n ← peek (λ hv, api_vcpu_get_count hv (wrap 16 a1) c); mret (n, next)
  else if func =? HF_VCPU_RUN then
    '(ret, n) ← rust (λ hv, '(ret, n, hv) ← api_vcpu_run hw now1 now2 now3 hv (wrap 16 a1) (wrap 16 a2) c;
                            Done ((ret, n), hv));
    mret (ret, from_option Some next n)
  else if func =? HF_VM_CONFIGURE then
    '(ret, n) ← rust (λ hv, '(ret, n, hv) ← api_vm_configure hw now1 hv (ipa_init a1) (ipa_init a2) c;
                            Done ((ret, n), hv));
    mret (wrap 64 ret, from_option Some next n)
  else if func =? HF_MAILBOX_CLEAR then
    '(ret, n) ← rust (λ hv, '(ret, n, hv) ← api_mailbox_clear hw now1 hv c; Done ((ret, n), hv));
    mret (wrap 64 ret, from_option Some next n)
  else if func =? HF_MAILBOX_WRITABLE_GET then
    ret ← rust (λ hv, api_mailbox_writable_get hv c); mret (wrap 64 ret, next)
  else if func =? HF_MAILBOX_WAITER_GET then
    ret ← rust (λ hv, api_mailbox_waiter_get hv (wrap 16 a1) c); mret (wrap 64 ret, next)
  else if func =? HF_INTERRUPT_ENABLE then
    ret ← rust (λ hv, api_interrupt_enable hv (wrap 32 a1) (negb (a2 =? 0)) c); mret (wrap 64 ret, next)
  else if func =? HF_INTERRUPT_GET then ret ← rust (λ hv, api_interrupt_get hv c); mret (ret, next)
  else if func =? HF_INTERRUPT_INJECT then
    '(ret, n) ← rust (λ hv, '(ret, n, hv) ← api_interrupt_inject hw now1 hv (wrap 16 a1) (wrap 16 a2) (wrap 32 a3) c;
                            Done ((ret, n), hv));
    mret (wrap 64 ret, from_option Some next n)
  else if func =? HF_SHARE_MEMORY then
    ret ← rust (λ hv, api_share_memory hv (wrap 16 (Z.shiftr a1 32)) (ipa_init a2) a3 (Z.land a1 0xffffffff) c);
    mret (wrap 64 ret, next)
  else if func =? HF_DEBUG_LOG then
    ret ← rust (λ hv, '(ret, _, hv) ← api_debug_log hv (wrap 8 a1) c; Done (ret, hv)); mret (wrap 64 ret, next)
  else mret (wrap 64 (-1), next).

Definition hvc_handler (a0 a1 a2 a3 : Z) : H (smc_res * option vref) :=
  c ← current;
  '(b, ret, new) ← psci_call c (wrap 32 a0) a1 a2 a3 (res0 undef) None;
  if b : bool then mret (set_res0 ret undef, new)
  else
  '(b, ret, new) ← spci_handler a0 a1 ret new;
  if b : bool then _ ← update_vi new; mret (set_res0 ret undef, new)
  else
  '(ret, new) ← hf_call (wrap 32 a0) a1 a2 a3 new;
  _ ← update_vi new;
  mret (set_res0 ret undef, new).

Definition smc_handler (vcpu : vref) (ret : smc_res) (next : option vref) : H (bool * smc_res * option vref) :=
  g ← vcpu_get_regs vcpu;
  let func := wrap 32 (x_reg g 0) in
  '(b, v, next) ← psci_call vcpu func (x_reg g 1) (x_reg g 2) (x_reg g 3) (res0 ret) next;
  let ret := set_res0 v ret in
  if b : bool then mret (true, ret, next)
  else if no_convention func =? HF_DEBUG_LOG then
    _ ← rust (λ hv, '(r, _, hv) ← api_debug_log hv (wrap 8 (x_reg g 1)) vcpu; Done (r, hv));
    mret (true, ret, next)
  else '(b, ret) ← smc_forwarder vcpu ret; mret (b, ret, next).

Definition irq_lower : H vref :=
  c ← current; hw ← the_hw; rust (λ hv, api_preempt hw now1 hv c).
Definition fiq_lower : H vref := irq_lower.
(** [api_abort]; an aborting primary VM does not return. *)
Definition do_abort (vcpu : vref) : H vref :=
  hw ← the_hw;
  r ← peek (λ hv, api_abort hw now1 hv vcpu);
  match r with
  | None => gone
  | Some (n, hv) => _ ← on_hv (λ _, hv); mret n
  end.
Definition serr_lower : H vref := c ← current; do_abort c.

Definition fault_info_init (esr far hpfar : Z) (pc mode : Z) : VCpuFaultInfo :=
  let fsc := Z.land esr 0x3f in
  if (fsc =? 0x10) && negb (Z.land esr (Z.shiftl 1 10) =? 0) then
    mkFault (ipa_init (wshl hpfar 8)) (va_init 0) (va_init pc) mode
  else mkFault (ipa_init (Z.lor (wshl hpfar 8) (Z.land far (PAGE_SIZE - 1)))) (va_init far) (va_init pc) mode.

(** Resumes the vCPU or aborts its VM. *)
Definition handle_fault (vcpu : vref) (esr far hpfar mode : Z) : H (option vref) :=
  g ← vcpu_get_regs vcpu;
  vm ← the_vm vcpu;
  ok ← lift (vcpu_handle_page_fault (ptable (vm_inner vm)) (fault_info_init esr far hpfar (pc g) mode));
  if ok : bool then mret None else n ← do_abort vcpu; mret (Some n).

Definition sync_lower_exception (esr far hpfar : Z) : H (option vref) :=
  vcpu ← current;
  let ec := GET_EC esr in
  if ec =? 0x01 then
    _ ← upd_regs vcpu (λ g, with_pc (pc g +w GET_NEXT_PC_INC esr) g);
    hw ← the_hw;
    if negb (Z.land esr 1 =? 0) then
      (* the variable for the next vCPU is not initialised *)
      n ← rust (λ hv, '(_, n, hv) ← api_spci_yield hw now1 hv vcpu; Done (n, hv));
      match n with Some n => mret (Some n) | None => panic end
    else n ← rust (λ hv, api_wait_for_interrupt hw now1 hv vcpu); mret (Some n)
  else if ec =? 0x24 then
    handle_fault vcpu esr far hpfar (if negb (Z.land esr (Z.shiftl 1 6) =? 0) then Mode.W else Mode.R)
  else if ec =? 0x20 then handle_fault vcpu esr far hpfar Mode.X
  else if ec =? 0x17 then
    g ← vcpu_get_regs vcpu;
    let smc_pc := pc g in
    '(b, ret, next) ← smc_handler vcpu undef None;
    let ret := if negb b then set_res0 PSCI_ERROR_NOT_SUPPORTED ret else ret in
    _ ← upd_regs vcpu (with_pc (smc_pc +w GET_NEXT_PC_INC esr));
    _ ← upd_regs vcpu (λ g, with_r (<[3 := res3 ret]> (<[2 := res2 ret]> (<[1 := res1 ret]> (<[0 := res0 ret]> (r g)))))%nat g);
    mret next
  else if ec =? 0x18 then panic
  else n ← do_abort vcpu; mret (Some n).

(** ** Debug registers ([debug_el1.c]) *)
Definition NUM_GP_REGS : Z := 31.
Definition ISS_SYSREG_MASK : Z := Z.ldiff (Z.ldiff (Z.shiftl 1 22 - 1) (Z.shiftl 0x1f 5)) 1.
Definition GET_ISS_SYSREG (esr : Z) : Z := Z.land ISS_SYSREG_MASK esr.
Definition GET_ISS_OP0 (esr : Z) : Z := Z.shiftr (Z.land 0x300000 esr) 20.
Definition GET_ISS_OP1 (esr : Z) : Z := Z.shiftr (Z.land 0x1c000 esr) 14.
Definition GET_ISS_RT (esr : Z) : Z := Z.shiftr (Z.land 0x3e0 esr) 5.
Definition ISS_IS_READ (esr : Z) : bool := negb (Z.land 1 esr =? 0).
Definition MDSCR_EL1 : Z := 0x240004.
(** [MDRAR], [DBGAUTHSTATUS], [OSLSR]. *)
Definition EL1_DEBUG_REGISTERS_READ : list Z := [0x200400; 0x2c1c1c; 0x280402].
(** [DBGCLAIMCLR], [DBGCLAIMSET], [DBGPRCR], [MDCCINT], [MDSCR], [OSDLR], [OSDTRRX],
    [OSDTRTX], [OSECCR], and sixteen each of [DBGBCR], [DBGBVR], [DBGWCR], [DBGWVR]. *)
Definition EL1_DEBUG_REGISTERS_READ_WRITE : list Z :=
  [0x2c1c12; 0x2c1c10; 0x280408; 0x200004; MDSCR_EL1; 0x280406; 0x240000; 0x240006; 0x24000c] ++
  mjoin ((λ base, (λ i, base + 2 * i) <$> seqZ 0 16) <$> [0x2a0000; 0x280000; 0x2e0000; 0x2c0000]).
Definition EL1_DEBUG_REGISTERS : list Z := EL1_DEBUG_REGISTERS_READ ++ EL1_DEBUG_REGISTERS_READ_WRITE.

(** [read_msr] and [write_msr] of a debug register; [mdscr_el1] is one of the
    registers that are switched. *)
Definition debug_read (reg : Z) (c : Pcpu) : Z :=
  if reg =? MDSCR_EL1 then mdscr_el1 (lazy (p_regs c)) else p_debug c reg.
Definition debug_write (reg v : Z) (c : Pcpu) : Pcpu :=
  if reg =? MDSCR_EL1 then set_live (with_lazy (with_mdscr v (lazy (p_regs c))) (p_regs c)) c
  else set_debug (λ k, if k =? reg then v else p_debug c k) c.

Definition is_debug_el1_register_access (esr : Z) : bool :=
  (GET_ISS_OP0 esr =? 0x2) && negb (GET_ISS_OP1 esr =? 0x1).

Definition debug_el1_process_access (vcpu : vref) (vm_id esr : Z) : H bool :=
  if negb (vm_id =? HF_PRIMARY_VM_ID) then mret false
  else
  let sys_register := GET_ISS_SYSREG esr in
  let rt := GET_ISS_RT esr in
  if negb (rt <? NUM_GP_REGS) then panic
  else
  g ← vcpu_get_regs vcpu;
  let value := x_reg g (Z.to_nat rt) in
  if ISS_IS_READ esr then
    value ← asks (λ s, if one_of sys_register EL1_DEBUG_REGISTERS then debug_read sys_register (st_cpu s) else value);
    _ ← upd_regs vcpu (λ g, with_r (<[Z.to_nat rt := value]> (r g)) g);
    mret true
  else
    _ ← (if one_of sys_register EL1_DEBUG_REGISTERS_READ_WRITE then on_cpu (debug_write sys_register value)
         else mret tt);
    mret true.

Definition handle_system_register_access (esr : Z) : H (option vref) :=
  vcpu ← current;
  id ← get_vm_id vcpu;
  if negb (GET_EC esr =? 0x18) then panic
  else if negb (is_debug_el1_register_access esr) then n ← do_abort vcpu; mret (Some n)
  else
  ok ← debug_el1_process_access vcpu id esr;
  if negb ok then n ← do_abort vcpu; mret (Some n)
  else
  _ ← upd_regs vcpu (λ g, with_pc (pc g +w GET_NEXT_PC_INC esr) g);
  mret None.

(** ** [exceptions.S] *)
Definition save_volatile_to_vcpu : H unit :=
  c ← current;
  g ← live;
  upd_regs c (λ s, with_spsr (spsr g) (with_pc (pc g) (with_r (pick volatile (r g) (r s)) s))).
Definition save_nonvolatile : H unit :=
  c ← current;
  g ← live;
  upd_regs c (λ s, with_r (pick nonvolatile (r g) (r s)) s).

Definition vcpu_restore_volatile_and_run (vcpu : vref) : H unit :=
  s ← vcpu_get_regs vcpu;
  on_live (λ g, with_spsr (spsr s) (with_pc (pc s) (with_r (pick volatile (r s) (r g)) g))).
Definition vcpu_restore_nonvolatile_and_run (vcpu : vref) : H unit :=
  s ← vcpu_get_regs vcpu;
  _ ← on_live (λ g, with_r (pick nonvolatile (r s) (r g)) g);
  vcpu_restore_volatile_and_run vcpu.

Definition vcpu_restore_all_and_run (vcpu : vref) : H unit :=
  _ ← on_cpu (set_current vcpu);
  _ ← begin_restoring_state vcpu;
  s ← vcpu_get_regs vcpu;
  _ ← on_live (λ g, with_gic (gic_ich_hcr_el2 s) (gic_icc_sre_el2 s)
                      (with_lazy (lazy s) (with_fp (fp s) (fpsr s) (fpcr s) g)));
  _ ← maybe_invalidate_tlb vcpu;
  vcpu_restore_nonvolatile_and_run vcpu.

Definition vcpu_switch (vcpu : vref) : H unit :=
  _ ← save_nonvolatile;
  c ← current;
  g ← live;
  _ ← upd_regs c (λ s, with_fp (fp g) (fpsr g) (fpcr g)
                         (with_gic (gic_ich_hcr_el2 g) (gic_icc_sre_el2 g) (with_lazy (lazy g) s)));
  _ ← complete_saving_state c;
  vcpu_restore_all_and_run vcpu.

(** The end of an exception: the vCPU to switch to, if any. *)
Definition resume (next : option vref) (back : vref → H unit) : H unit :=
  match next with
  | Some n => vcpu_switch n
  | None => c ← current; back c
  end.
Definition lower_exception (h : H vref) : H unit :=
  _ ← save_volatile_to_vcpu;
  n ← h;
  vcpu_switch n.

(** The registers after a hypercall: results in [x0] to [x3], zeroes to [x17]. *)
Definition hvc_result (ret : smc_res) (l : list Z) : list Z :=
  imap (λ i x, if (i <? 4)%nat then nth i [res0 ret; res1 ret; res2 ret; res3 ret] 0
               else if (i <? 18)%nat then 0 else x) l.
Definition lower_sync_exception (esr far hpfar : Z) : H unit :=
  if GET_EC esr =? 0x16 then
    g ← live;
    '(ret, new) ← hvc_handler (x_reg g 0) (x_reg g 1) (x_reg g 2) (x_reg g 3);
    _ ← on_live (λ g, with_r (hvc_result ret (r g)) g);
    match new with
    | None => mret tt
    | Some n => _ ← save_volatile_to_vcpu; vcpu_switch n
    end
  else
    _ ← save_volatile_to_vcpu;
    if GET_EC esr =? 0x18 then
      _ ← save_nonvolatile;
      n ← handle_system_register_access esr;
      resume n vcpu_restore_nonvolatile_and_run
    else
      n ← sync_lower_exception esr far hpfar;
      resume n vcpu_restore_volatile_and_run.

Definition handle (e : exception) : H unit :=
  match e with
  | Sync esr far hpfar => lower_sync_exception esr far hpfar
  | Irq => lower_exception irq_lower
  | Fiq => lower_exception fiq_lower
  | Serr => lower_exception serr_lower
  end.
End handlers.
