(* ===== verification/Frames.v ===== *)
(** * What the hypercalls leave alone

    Most hypercalls change little of the state.  [frame P] says that a call keeps a
    projection [P] of every VM and everything outside of the VMs but memory, which
    stays made of bytes; the lemmas prove it for each call that does not concern page
    tables, for every projection that ignores what the call may change. *)
From S2P Require Import Prelude Addr Mode Arch ArchAarch64 Mpool Mm MemoryManager Abi ArchCpu Interrupts.
From S2P Require Import Cpu Vm Memory Spci Hypervisor Api.

Lemma mem_ok_write_message mem a m : mem_ok mem → mem_ok (write_message mem a m).
Proof. intros H. unfold write_message. cbv zeta. by do 6 apply mem_ok_wr. Qed.

Lemma vm_of_Some hv v vm : vm_of hv v = Done vm → hv_vms hv !! v = Some vm.
Proof. unfold vm_of. by destruct (hv_vms hv !! v) as [vm'|]; [intros [= ->]|]. Qed.

(** ** Projections *)

(** [P] ignores the registers, state and interrupts of vCPUs, the state of the
    mailbox, the log buffer and the abort flag. *)
Record quiet {X} (P : Vm → X) : Prop := {
  q_inner k f vm : P (upd_vcpu k (upd_inner f) vm) = P vm;
  q_ints k i vm : P (upd_vcpu k (upd_interrupts i) vm) = P vm;
  q_state s vm : P (upd_vm_inner (with_mailbox (mb_set_state s (mailbox (vm_inner vm)))) vm) = P vm;
  q_abort b vm : P (mkVm (vm_id vm) (vcpus vm) (vm_inner vm) b) = P vm;
}.
(** [P] also ignores the buffers of the debug log. *)
Definition quiet_log {X} (P : Vm → X) : Prop := ∀ l vm, P (upd_vm_inner (with_log l) vm) = P vm.
(** [P] also ignores the execution locks. *)
Definition quiet_vcpu {X} (P : Vm → X) : Prop := ∀ k f vm, P (upd_vcpu k f vm) = P vm.
(** [P] also ignores the mailbox, but for its pages. *)
Definition quiet_mailbox {X} (P : Vm → X) : Prop :=
  ∀ m vm, mb_send m = mb_send (mailbox (vm_inner vm)) → mb_recv m = mb_recv (mailbox (vm_inner vm)) →
    P (upd_vm_inner (with_mailbox m) vm) = P vm.

(** A change that [P] does not see; [L]: the links of the wait entries stay. *)
Record frame {X} (L : bool) (P : Vm → X) (hv hv' : Hypervisor) : Prop := {
  fr_mm : hv_mm hv' = hv_mm hv;
  fr_hp : hv_ptable hv' = hv_ptable hv;
  fr_cpus : hv_cpus hv' = hv_cpus hv;
  fr_vms : P <$> hv_vms hv' = P <$> hv_vms hv;
  fr_links : L = true → hv_links hv' = hv_links hv;
  fr_mem : mem_ok (hv_mem hv) → mem_ok (hv_mem hv');
}.
#[export] Instance frame_preorder {X} L (P : Vm → X) : PreOrder (frame L P).
Proof.
  split.
  - intros hv. by split.
  - intros h1 h2 h3 [] []. split; try congruence; [|auto]. intros HL. rewrite fr_links1, fr_links0; auto.
Qed.

Section frames.
Context {X : Type} (P : Vm → X).

Lemma frame_weaken L hv hv' : frame true P hv hv' → frame L P hv hv'.
Proof. intros []. split; auto. Qed.

Lemma frame_upd_vm L v f hv :
  (∀ vm, hv_vms hv !! v = Some vm → P (f vm) = P vm) → frame L P hv (upd_vm v f hv).
Proof.
  intros Hf. split; [done..| |done|done]. unfold upd_vm. cbn [hv_vms set_vms].
  apply list_eq. intros i. rewrite !list_lookup_fmap. destruct (decide (i = v)) as [->|Hne].
  - rewrite list_lookup_alter_eq. destruct (hv_vms hv !! v) as [vm|] eqn:Hv; [|done]. cbn. by rewrite Hf.
  - by rewrite list_lookup_alter_ne.
Qed.
Lemma frame_set_inner L v i vm hv :
  hv_vms hv !! v = Some vm → P (upd_vm_inner (λ _, i) vm) = P vm → frame L P hv (set_inner v i hv).
Proof. intros Hv Hi. apply frame_upd_vm. intros vm' Hv'. by simplify_eq. Qed.
Lemma frame_set_links lk hv : frame false P hv (set_links lk hv).
Proof. by split. Qed.
Lemma frame_set_mem L mem hv : (mem_ok (hv_mem hv) → mem_ok mem) → frame L P hv (set_mem mem hv).
Proof. by split. Qed.

(** The VMs as [P] sees them. *)
Lemma frame_lookup L hv hv' v vm :
  frame L P hv hv' → hv_vms hv !! v = Some vm → ∃ vm', hv_vms hv' !! v = Some vm' ∧ P vm' = P vm.
Proof.
  intros [_ _ _ Hv _ _] Hl. apply (f_equal (lookup v)) in Hv. rewrite !list_lookup_fmap, Hl in Hv. cbn in Hv.
  destruct (hv_vms hv' !! v) as [vm'|]; [|done]. injection Hv as Hv. by exists vm'.
Qed.

Context (Q : quiet P).
Lemma frame_vc_inner L c f hv : frame L P hv (upd_vc c (upd_inner f) hv).
Proof. apply frame_upd_vm. intros vm _. apply (q_inner _ Q). Qed.
Lemma frame_vc_ints L c i hv : frame L P hv (upd_vc c (upd_interrupts i) hv).
Proof. apply frame_upd_vm. intros vm _. apply (q_ints _ Q). Qed.

(** ** Calls [P] does not see *)
Lemma switch_to_primary_frame L hw now hv c ret s next hv' :
  switch_to_primary hw now hv c ret s = Done (next, hv') → frame L P hv hv'.
Proof.
  intros H. unfold switch_to_primary in H. do 4 (apply bind_Done_inv in H as (? & _ & H)). cbv zeta in H.
  injection H as <- <-. etrans; apply frame_vc_inner.
Qed.

Lemma internal_inject_frame L hw now hv t intid c r next hv' :
  internal_interrupt_inject hw now hv t intid c = Done (r, next, hv') → frame L P hv hv'.
Proof.
  intros H. unfold internal_interrupt_inject in H. apply bind_Done_inv in H as (tv & _ & H).
  destruct (inject _ _) as [ok ints]. cbv zeta in H. destruct ok.
  - apply bind_Done_inv in H as (vm & _ & H). destruct (_ =? _); [injection H as <- <- <-; apply frame_vc_ints|].
    destruct (negb _); [|injection H as <- <- <-; apply frame_vc_ints].
    apply bind_Done_inv in H as ([n h] & Hw & [= <- <- <-]). unfold wake_up in Hw.
    apply bind_Done_inv in Hw as (? & _ & Hw). etrans; [apply frame_vc_ints|]. by eapply switch_to_primary_frame.
  - injection H as <- <- <-. apply frame_vc_ints.
Qed.

Lemma waiter_result_frame L hw now hv id i c r next hv' :
  waiter_result hw now hv id i c = Done (r, next, hv') → frame L P hv hv'.
Proof.
  intros H. unfold waiter_result in H. destruct (is_waiter_list_empty _); [by simplify_eq|].
  destruct (_ =? _); [by simplify_eq|]. apply bind_Done_inv in H as ([n h] & Hs & [= <- <- <-]).
  by eapply switch_to_primary_frame.
Qed.

(** [try_read] only changes the state of the mailbox. *)
Lemma try_read_quiet vm ok m :
  try_read (mailbox (vm_inner vm)) = (ok, m) → P (upd_vm_inner (with_mailbox m) vm) = P vm.
Proof.
  unfold try_read. case_bool_decide; intros [= <- <-]; [by apply (q_state _ Q)|].
  pose proof (q_state _ Q (mb_state (mailbox (vm_inner vm))) vm) as Hs.
  by destruct vm as [? ? [? ? [] ?] ?].
Qed.

Lemma spci_msg_recv_frame L hw now hv a c r next hv' :
  spci_msg_recv hw now hv a c = Done (r, next, hv') → frame L P hv hv'.
Proof.
  intros H. unfold spci_msg_recv in H. apply bind_Done_inv in H as (vm & Hvm%vm_of_Some & H).
  destruct (_ =? _); [by simplify_eq|]. destruct (try_read _) as [ok m] eqn:Ht. cbv zeta in H.
  assert (Hf : frame L P hv (upd_vm c.1 (upd_vm_inner (with_mailbox m)) hv)).
  { apply frame_upd_vm. intros vm' Hvm'. simplify_eq. by eapply try_read_quiet. }
  destruct ok; [by simplify_eq|]. destruct (negb _); [by simplify_eq|].
  apply bind_Done_inv in H as (cur & _ & H). destruct (negb _); [|by simplify_eq].
  apply bind_Done_inv in H as ([n h] & Hs & [= <- <- <-]). etrans; [exact Hf|]. by eapply switch_to_primary_frame.
Qed.

Lemma mailbox_clear_frame L hw now hv c r next hv' :
  mailbox_clear hw now hv c = Done (r, next, hv') → frame L P hv hv'.
Proof.
  intros H. unfold mailbox_clear in H. apply bind_Done_inv in H as (vm & Hvm%vm_of_Some & H).
  destruct (mb_state _); [by simplify_eq..|]. apply (waiter_result_frame L) in H.
  etrans; [|exact H]. eapply frame_set_inner; [done|]. apply (q_state _ Q).
Qed.

Lemma interrupt_inject_frame L hw now hv id idx intid c r next hv' :
  interrupt_inject hw now hv id idx intid c = Done (r, next, hv') → frame L P hv hv'.
Proof.
  intros H. unfold interrupt_inject in H. apply bind_Done_inv in H as (v & _ & H). destruct v as [v|]; [|by simplify_eq].
  destruct (_ <=? _); [by simplify_eq|]. apply bind_Done_inv in H as (cur & _ & H).
  destruct (negb _); [by simplify_eq|]. apply bind_Done_inv in H as (tv & _ & H).
  destruct (vcpus tv !! _); [|by simplify_eq]. by eapply internal_inject_frame.
Qed.

Lemma debug_log_frame L hv ch c out hv' : quiet_log P → hv_debug_log hv ch c = Done (out, hv') → frame L P hv hv'.
Proof.
  intros QL H. unfold hv_debug_log in H. apply bind_Done_inv in H as (vm & Hvm%vm_of_Some & H).
  apply bind_Done_inv in H as ([o i] & Hd & [= <- <-]). eapply frame_set_inner; [done|]. unfold debug_log in Hd.
  apply bind_Done_inv in Hd as ([fl buf] & _ & Hd). destruct fl; simplify_eq; apply QL.
Qed.

Lemma deliver_frame L hw now hv to from c r next hv' :
  deliver hw now hv to from c = Done (r, next, hv') → frame L P hv hv'.
Proof.
  intros H. unfold deliver in H. apply bind_Done_inv in H as (tv & _ & H). apply bind_Done_inv in H as (fv & _ & H).
  cbv zeta in H.
  assert (Hq : ∀ s, frame L P hv (upd_vm to (upd_vm_inner (λ i, with_mailbox (mb_set_state s (mailbox i)) i)) hv)).
  { intros s. apply frame_upd_vm. intros vm _. apply (q_state _ Q). }
  destruct (_ =? _).
  - apply bind_Done_inv in H as ([n h] & Hs & [= <- <- <-]). apply (switch_to_primary_frame L) in Hs.
    etrans; [|exact Hs]. apply Hq.
  - destruct (negb _).
    + apply bind_Done_inv in H as ([n h] & Hs & [= <- <- <-]). apply (switch_to_primary_frame L) in Hs.
      etrans; [|exact Hs]. apply Hq.
    + injection H as <- <- <-. apply Hq.
Qed.

(** ** Calls that take execution locks *)
Section vcpu.
Context (QV : quiet_vcpu P).

Lemma prepare_locked_quiet hw n1 n2 vm v cpu ret res vm' v' :
  prepare_locked hw n1 n2 vm v cpu ret = (res, vm', v') → P vm' = P vm.
Proof.
  unfold prepare_locked. intros H. destruct (aborting vm); [by simplify_eq|].
  destruct (vi_state (vc_inner v)); try (by simplify_eq).
  - destruct (try_read _) as [ok m] eqn:Ht. destruct ok; [simplify_eq; by eapply try_read_quiet|].
    destruct (_ && _); by simplify_eq.
  - destruct (_ && _); by simplify_eq.
Qed.

Lemma vcpu_prepare_run_frame L hw n1 n2 hv c v ret r hv' :
  vcpu_prepare_run hw n1 n2 hv c v ret = Done (r, hv') → frame L P hv hv'.
Proof.
  intros H. unfold vcpu_prepare_run in H. apply bind_Done_inv in H as (vc & _ & H).
  destruct (vcpu_try_lock vc) as [got vc']. destruct got; cbn [negb] in H; [|by simplify_eq].
  apply bind_Done_inv in H as (vm & Hvm%vm_of_Some & H). apply bind_Done_inv in H as (cur & _ & H).
  destruct (prepare_locked _ _ _ _ _ _ _) as [[res vm'] v'] eqn:Hp.
  apply prepare_locked_quiet in Hp. cbv zeta in H.
  assert (Hfr : ∀ w, frame L P hv (upd_vm v.1 (λ _, upd_vcpu v.2 (λ _, w) vm') hv)).
  { intros w. apply frame_upd_vm. intros vm0 Hvm0. simplify_eq. by rewrite QV. }
  destruct res; injection H as <- <-; apply Hfr.
Qed.

Lemma vcpu_run_frame L hw n1 n2 n3 hv id idx c r hv' :
  vcpu_run hw n1 n2 n3 hv id idx c = Done (r, hv') → frame L P hv hv'.
Proof.
  intros H. unfold vcpu_run in H. apply bind_Done_inv in H as (cur & _ & H).
  destruct (negb _); [by simplify_eq|]. destruct (_ =? _); [by simplify_eq|].
  apply bind_Done_inv in H as (v & _ & H). destruct v as [v|]; [|by simplify_eq].
  apply bind_Done_inv in H as (vm & _ & H). destruct (vcpus vm !! _); [|by simplify_eq].
  apply bind_Done_inv in H as ([r1 hv1] & Hp & H). apply (vcpu_prepare_run_frame L) in Hp.
  destruct r1 as [l|]; [|by simplify_eq]. apply bind_Done_inv in H as (vc & _ & H).
  destruct (arch_timer_pending _ _); [|by simplify_eq].
  apply bind_Done_inv in H as ([[a b] hv2] & Hi & [= <- <-]). apply (internal_inject_frame L) in Hi.
  etrans; [exact Hp|]. etrans; [exact Hi|]. apply frame_vc_inner.
Qed.

Lemma regs_state_saved_frame L hv c hv' : api_regs_state_saved hv c = Done hv' → frame L P hv hv'.
Proof.
  intros H. apply bind_Done_inv in H as (vm & _ & [= <-]).
  destruct (negb _); [apply frame_upd_vm; intros ? _; apply QV|done].
Qed.
End vcpu.

(** ** Calls that change the lists of mailboxes *)
Section mailbox.
Context (QM : quiet_mailbox P).

Lemma mailbox_writable_get_frame hv c r hv' : mailbox_writable_get hv c = Done (r, hv') → frame false P hv hv'.
Proof.
  intros H. unfold mailbox_writable_get in H. apply bind_Done_inv in H as (vm & Hvm%vm_of_Some & H).
  destruct (dequeue_ready_list _ _) as [[r' i] lk] eqn:Hd. injection H as <- <-.
  etrans; [|apply frame_set_links]. eapply frame_set_inner; [done|]. unfold dequeue_ready_list in Hd.
  destruct (ready_list _); simplify_eq; [|by apply QM]. by destruct vm.
Qed.

Lemma mailbox_waiter_get_frame hv id c r hv' : mailbox_waiter_get hv id c = Done (r, hv') → frame false P hv hv'.
Proof.
  intros H. unfold mailbox_waiter_get in H. apply bind_Done_inv in H as (cur & _ & H).
  destruct (negb _); [by simplify_eq|]. apply bind_Done_inv in H as (v & _ & H). destruct v as [v|]; [|by simplify_eq].
  apply bind_Done_inv in H as (vm & Hvm%vm_of_Some & H). destruct (fetch_waiter _ _) as [[e m] lk] eqn:Hfw. cbv zeta in H.
  set (hv1 := set_links lk _) in H.
  assert (Hf : frame false P hv hv1).
  { etrans; [|apply frame_set_links]. apply frame_upd_vm. intros ? Hvm'. rewrite Hvm in Hvm'. injection Hvm' as <-.
    unfold fetch_waiter in Hfw. apply QM; (destruct (_ || _); [|destruct (waiter_list _)]); by simplify_eq. }
  clearbody hv1. destruct e as [e|]; [|by simplify_eq]. apply bind_Done_inv in H as (ow & _ & H).
  apply bind_Done_inv in H as (w & _ & H). apply bind_Done_inv in H as (wvm & Hw%vm_of_Some & H).
  etrans; [exact Hf|]. destruct (negb _); [|by simplify_eq].
  destruct (enqueue_ready_list _ _ _) as [i lk'] eqn:He. injection He as <- <-. injection H as <- <-.
  etrans; [|apply frame_set_links]. eapply frame_set_inner; [done|]. by apply QM.
Qed.

Lemma wait_for_frame hv self i to tv id lk b ti lk' :
  hv_vms hv !! to = Some tv → wait_for self i (vm_inner tv) id lk = Done (b, ti, lk') →
  frame false P hv (set_links lk' (set_inner to ti hv)).
Proof.
  intros Ht H. etrans; [|apply frame_set_links]. eapply frame_set_inner; [done|]. unfold wait_for in H.
  destruct (negb _); [done|]. cbv zeta in H. case_bool_decide; simplify_eq; [by destruct tv|by apply QM].
Qed.
End mailbox.
End frames.
