(* ===== verification/Ownership.v ===== *)
(** * Who owns a page and who may access it

    The sharing state machine of one page, independent of page tables: what the
    modes of the VMs say about it ([None]: neither owned nor accessible), when these
    are consistent, and that the exchanges the hypervisor allows between two VMs
    keep them so. *)
From S2P Require Import Prelude Addr Mode Arch Mpool Mm MemoryManager Stage2Modes Abi Vm Memory Spci Hypervisor.

Definition owner (o : option Z) : bool := match o with Some m => negb (Z.testbit m 5) | None => false end.
Definition access (o : option Z) : bool := match o with Some m => negb (Z.testbit m 4) | None => false end.
Definition exclusive (o : option Z) : bool :=
  match o with Some m => negb (Z.testbit m 4) && negb (Z.testbit m 6) | None => false end.
(** Access to a page somebody else owns. *)
Definition borrower (o : option Z) : bool := access o && negb (owner o).

Lemma owner_norm m : owner (norm m) = negb (Z.testbit m 5).
Proof. unfold norm, owner. rewrite no_access_bits.
  destruct (Z.testbit m 4) eqn:E4, (Z.testbit m 5) eqn:E5; cbn [andb]; by rewrite ?E4, ?E5. Qed.
Lemma access_norm m : access (norm m) = negb (Z.testbit m 4).
Proof. unfold norm, access. rewrite no_access_bits.
  destruct (Z.testbit m 4) eqn:E4, (Z.testbit m 5) eqn:E5; cbn [andb]; by rewrite ?E4, ?E5. Qed.
Lemma exclusive_norm m : exclusive (norm m) = negb (Z.testbit m 4) && negb (Z.testbit m 6).
Proof. unfold norm, exclusive. rewrite no_access_bits.
  destruct (Z.testbit m 4) eqn:E4, (Z.testbit m 5) eqn:E5; cbn [andb]; by rewrite ?E4, ?E5. Qed.
Lemma exclusive_access o : exclusive o = true → access o = true.
Proof. destruct o as [m|]; unfold exclusive, access; [|done]. by destruct (Z.testbit m 4). Qed.

(** One page, seen by all VMs: at most one VM owns it, at most one borrows it, and
    exclusive access is exclusive. *)
Record page_isolated (f : nat → option Z) : Prop := {
  iso_owner i j : owner (f i) = true → owner (f j) = true → i = j;
  iso_borrower i j : borrower (f i) = true → borrower (f j) = true → i = j;
  iso_exclusive i j : exclusive (f i) = true → access (f j) = true → i = j;
}.

(** Two VMs between which the page may be exchanged: together they hold every claim
    to it. *)
Definition pair_closed (f t : option Z) : Prop :=
  owner f = true ∧ exclusive f = true ∨ borrower f = true ∧ owner t = true ∨
  owner f = true ∧ borrower t = true.
(** Two VMs with consistent claims. *)
Definition pair_ok (f t : option Z) : Prop :=
  (owner f = true → owner t = true → False) ∧ (borrower f = true → borrower t = true → False) ∧
  (exclusive f = true → access t = false) ∧ (exclusive t = true → access f = false).

Lemma pair_closed_others f i k j :
  page_isolated f → pair_closed (f i) (f k) → j ≠ i → j ≠ k →
  owner (f j) = false ∧ access (f j) = false.
Proof.
  intros [Ho Hb He] Hc Hi Hk.
  assert (Hown : ∀ w, w ≠ j → owner (f w) = true → owner (f j) = false).
  { intros w Hw Hwo. apply not_true_is_false. intros Hj. by destruct Hw; apply Ho. }
  destruct Hc as [[H1 H2]|[[H1 H2]|[H1 H2]]].
  - split; [by apply (Hown i)|]. apply not_true_is_false. intros Hj. by destruct Hi; symmetry; apply He.
  - assert (Hnj : owner (f j) = false) by (by apply (Hown k)). split; [done|].
    apply not_true_is_false. intros Hj. destruct Hi. apply Hb; [|done]. unfold borrower. by rewrite Hj, Hnj.
  - assert (Hnj : owner (f j) = false) by (by apply (Hown i)). split; [done|].
    apply not_true_is_false. intros Hj. destruct Hk. apply Hb; [|done]. unfold borrower. by rewrite Hj, Hnj.
Qed.

(** An exchange between two VMs that hold all claims keeps the page isolated. *)
Lemma page_isolated_exchange f g i k :
  page_isolated f → i ≠ k → pair_closed (f i) (f k) → pair_ok (g i) (g k) →
  (∀ j, j ≠ i → j ≠ k → g j = f j) → page_isolated g.
Proof.
  intros Hiso Hne Hc (Ho & Hb & He1 & He2) Hg.
  assert (Hoth : ∀ j, j ≠ i → j ≠ k → owner (g j) = false ∧ access (g j) = false).
  { intros j Hi Hk. rewrite Hg by done. by eapply pair_closed_others. }
  assert (Hwho : ∀ j, owner (g j) = true ∨ access (g j) = true → j = i ∨ j = k).
  { intros j Hj. destruct (decide (j = i)); [by left|]. destruct (decide (j = k)); [by right|].
    destruct (Hoth j) as [H1 H2]; [done..|]. destruct Hj; congruence. }
  assert (Hacc : ∀ j, borrower (g j) = true → access (g j) = true).
  { intros j Hj. unfold borrower in Hj. by apply andb_prop in Hj as [? _]. }
  split; intros a b Ha Hb'.
  - destruct (Hwho a) as [->| ->], (Hwho b) as [->| ->]; auto; by destruct Ho.
  - destruct (Hwho a) as [->| ->], (Hwho b) as [->| ->]; auto; by destruct Hb.
  - pose proof (exclusive_access _ Ha).
    destruct (Hwho a) as [->| ->], (Hwho b) as [->| ->]; auto; [rewrite He1 in Hb'|rewrite He2 in Hb']; done.
Qed.

(** A VM that owns a page exclusively may give up anything. *)
Lemma page_isolated_single f g i :
  page_isolated f → owner (f i) = true → exclusive (f i) = true →
  (∀ j, j ≠ i → g j = f j) → page_isolated g.
Proof.
  intros Hiso Hoi Hei Hg.
  assert (Hoth : ∀ j, j ≠ i → owner (g j) = false ∧ access (g j) = false).
  { intros j Hj. rewrite Hg by done. eapply (pair_closed_others f i i); [done|by left|done..]. }
  split; intros a b Ha Hb; destruct (decide (a = i)) as [->|Hai], (decide (b = i)) as [->|Hbi]; auto;
    try (destruct (Hoth a) as [H1 H2]; [done|]); try (destruct (Hoth b) as [H3 H4]; [done|]);
    try pose proof (exclusive_access _ Ha); unfold borrower in *;
    repeat match goal with H : _ && _ = true |- _ => apply andb_prop in H as [??] end; congruence.
Qed.

(** ** The transitions of SPCI *)
Lemma state_bits m c n : Z.land m state_mask = c → 4 ≤ n ≤ 6 → Z.testbit m n = Z.testbit c n.
Proof.
  intros <- Hn. rewrite Z.land_spec. assert (n = 4 ∨ n = 5 ∨ n = 6) as [->|[->| ->]] by lia;
    by rewrite andb_true_r.
Qed.
Lemma keep_rights_bits fm m n :
  4 ≤ n ≤ 6 → Z.testbit (Z.lor fm (Z.land (Mode.complement state_mask) m)) n = Z.testbit fm n.
Proof.
  intros Hn. rewrite Z.lor_spec, Z.land_spec.
  assert (n = 4 ∨ n = 5 ∨ n = 6) as [->|[->| ->]] by lia; by rewrite orb_false_r.
Qed.
Lemma rights_bits tm a n : in_u 3 a → 4 ≤ n ≤ 6 → Z.testbit (Z.lor tm a) n = Z.testbit tm n.
Proof. intros Ha Hn. rewrite Z.lor_spec, (testbit_small a 3 n) by (done || lia). by rewrite orb_false_r. Qed.

(** The effect of one row of a transition table. *)
Definition row_safe (tr : SpciMemTransitions) : Prop :=
  pair_closed (norm (tr_orig_from_mode tr)) (norm (tr_orig_to_mode tr)) ∧
  pair_ok (norm (tr_from_mode tr)) (norm (tr_to_mode tr)) ∧
  xorb (owner (norm (tr_from_mode tr))) (owner (norm (tr_to_mode tr))) = true ∧
  Z.land (tr_from_mode tr) 15 = 0 ∧ Z.land (tr_to_mode tr) 15 = 0.

Lemma table_safe share : Forall row_safe (transition_table share).
Proof.
  destruct share; repeat (apply Forall_cons; split); try apply Forall_nil; try done;
    (split_and!; [unfold pair_closed; cbn; tauto|unfold pair_ok; cbn; split_and!; done|done..]).
Qed.

Lemma next_state_row trs attrs om tm r :
  spci_msg_get_next_state trs attrs om tm = Ok r →
  ∃ tr, tr ∈ trs ∧ Z.land om state_mask = tr_orig_from_mode tr ∧ Z.land tm state_mask = tr_orig_to_mode tr ∧
    r = (Z.lor (tr_from_mode tr) (Z.land (Mode.complement state_mask) om), Z.lor (tr_to_mode tr) attrs).
Proof.
  induction trs as [|tr trs IH]; [done|]. cbn [spci_msg_get_next_state].
  destruct (_ && _) eqn:Hc.
  - intros [= <-]. apply andb_prop in Hc as [H1%Z.eqb_eq H2%Z.eqb_eq]. exists tr. by split; [left|].
  - intros (tr' & Hin & ?)%IH. exists tr'. split; [by right|done].
Qed.

Lemma norm_same m m' o :
  (∀ n, 4 ≤ n ≤ 6 → Z.testbit m n = Z.testbit m' n) → o = norm m →
  owner o = owner (norm m') ∧ access o = access (norm m') ∧ exclusive o = exclusive (norm m').
Proof.
  intros Hb ->. rewrite !owner_norm, !access_norm, !exclusive_norm, !Hb by lia. done.
Qed.

Lemma next_state_safe share attrs orig_from orig_to from_mode to_mode :
  in_u 3 attrs →
  spci_msg_get_next_state (transition_table share) attrs orig_from orig_to = Ok (from_mode, to_mode) →
  pair_closed (norm orig_from) (norm orig_to) ∧ pair_ok (norm from_mode) (norm to_mode) ∧
  xorb (owner (norm from_mode)) (owner (norm to_mode)) = true ∧
  (∀ n, 0 ≤ n < 3 → Z.testbit from_mode n = Z.testbit orig_from n ∧ Z.testbit to_mode n = Z.testbit attrs n).
Proof.
  intros Ha H. apply next_state_row in H as (tr & Hin & Hf & Ht & [= -> ->]).
  pose proof (table_safe share) as Hall. rewrite Forall_forall in Hall.
  destruct (Hall tr Hin) as (Hc & Hp & Hx & Hr1 & Hr2). clear Hall.
  destruct (norm_same orig_from (tr_orig_from_mode tr) _ (λ n Hn, state_bits _ _ n Hf Hn) eq_refl) as (A1 & A2 & A3).
  destruct (norm_same orig_to (tr_orig_to_mode tr) _ (λ n Hn, state_bits _ _ n Ht Hn) eq_refl) as (B1 & B2 & B3).
  destruct (norm_same _ (tr_from_mode tr) _ (λ n Hn, keep_rights_bits (tr_from_mode tr) orig_from n Hn) eq_refl) as (C1 & C2 & C3).
  destruct (norm_same _ (tr_to_mode tr) _ (λ n Hn, rights_bits (tr_to_mode tr) attrs n Ha Hn) eq_refl) as (D1 & D2 & D3).
  unfold pair_closed, pair_ok, borrower in *. rewrite A1, A2, A3, B1, B2, C1, C2, C3, D1, D2, D3.
  split_and!; try done; try apply Hp. intros n Hn.
  assert (Hlow : ∀ z, Z.land z 15 = 0 → Z.testbit z n = false).
  { intros z Hz. apply (f_equal (λ z, Z.testbit z n)) in Hz. rewrite Z.land_spec, Z.bits_0 in Hz.
    change 15 with (Z.ones 4) in Hz. rewrite Z.ones_spec_low, andb_true_r in Hz by lia. done. }
  rewrite !Z.lor_spec, Z.land_spec, (Hlow _ Hr1), (Hlow _ Hr2). cbn [orb]. split; [|done].
  assert (n = 0 ∨ n = 1 ∨ n = 2) as [->|[->| ->]] by lia; done.
Qed.

(** C20: every exchange the SPCI transition tables allow starts from two VMs that
    hold all claims to the page between them (so no third VM is affected), and leaves
    exactly one of them as its owner, at most one as borrower, and nobody else with
    access when one has exclusive access; the sender keeps its access rights bits and
    the recipient gets the requested ones. *)
Theorem spci_transition_safe share attrs orig_from orig_to from_mode to_mode :
  in_u 3 attrs →
  spci_msg_get_next_state (transition_table share) attrs orig_from orig_to = Ok (from_mode, to_mode) →
  pair_closed (norm orig_from) (norm orig_to) ∧ pair_ok (norm from_mode) (norm to_mode) ∧
  xorb (owner (norm from_mode)) (owner (norm to_mode)) = true ∧
  (∀ n, 0 ≤ n < 3 → Z.testbit from_mode n = Z.testbit orig_from n ∧ Z.testbit to_mode n = Z.testbit attrs n).
Proof. apply next_state_safe. Qed.

Lemma spci_transition_witness :
  pair_ok (norm (Z.lor NA 3)) (norm 7) ∧
  spci_msg_get_next_state (transition_table SpciMemoryShare.Donate) 7 3 NA = Ok (Z.lor NA 3, 7).
Proof.
  split; [|done].
  destruct (spci_transition_safe SpciMemoryShare.Donate 7 3 NA (Z.lor NA 3) 7) as (_ & H & _); [by split|done|].
  exact H.
Defined.
