(* ===== verification/Sharing.v ===== *)
(** * Memory sharing on modes

    The building blocks of [configure], [share_memory] and [spci_share_memory] keep
    every page table well formed, conserve the pages of the pool, and change the
    modes of the VMs exactly as requested; a call that fails puts the modes back. *)
From S2P Require Import Prelude Addr Mode Arch ArchAarch64 Mpool Mm MmSpec MmMap MmTable MmDefrag MmQuery.
From S2P Require Import PageTables MemoryManager Stage2Modes Abi ArchCpu Interrupts Cpu Vm Memory Spci Hypervisor.
From S2P Require Import Frames Ownership.

(** ** Pools *)
Lemma new_local_inv st : st_inv st → st_inv (new_local st) ∧ mpool_pages (st_pool (new_local st)) = mpool_pages (st_pool st).
Proof.
  intros [Hm Hp]. unfold st_inv, pool_inv, new_local. cbn. split; [|done]. split; [|done].
  split; [|done]. split; constructor.
Qed.

Lemma drop_local_inv st :
  st_inv st → st_inv (drop_local st) ∧ mpool_pages (st_pool (drop_local st)) ≡ₚ mpool_pages (st_pool st).
Proof.
  intros [Hm Hp]. unfold st_inv, pool_inv, drop_local. cbn [with_pool st_pool].
  destruct (st_pool st) as [q|q f] eqn:Eq; [by cbn|].
  destruct (MPool_drop_spec q f Hm) as (m' & Hd & Hok & Hpp). rewrite Hd. cbn [default].
  split; [|by rewrite Hpp]. split; [done|]. by rewrite Hpp.
Qed.

(** Replacing one block of a page list. *)
Lemma perm_replace {X} (l a a' r p p' : list X) :
  a ++ p ≡ₚ a' ++ p' → l ++ a ++ r ++ p ≡ₚ l ++ a' ++ r ++ p'.
Proof.
  intros H. apply Permutation_app_head. rewrite (Permutation_app_comm r p), (Permutation_app_comm r p').
  rewrite !app_assoc. by rewrite H.
Qed.

(** ** One table and the pool *)
Section step.
Context {A : ArchMM} {L : ArchLaws A} {SG : Stage} {SL : StageLaws L SG}.

(** A call on a table left it and the pool sound and lost no page. *)
Definition kept (t : PageTable) (st : MmState) (t' : PageTable) (st' : MmState) : Prop :=
  wf_ptable t' ∧ st_inv st' ∧
  ptable_pages t ++ mpool_pages (st_pool st) ≡ₚ ptable_pages t' ++ mpool_pages (st_pool st').

Lemma identity_map_kept t b e mode st ok t' st' :
  wf_ptable t → st_inv st → 0 ≤ pa b < ptable_end →
  identity_map t b e mode st = Done (ok, t', st') →
  kept t st t' st' ∧
  ∀ x, 0 ≤ x < ptable_end → ptable_mapping t' x =
    if ok && bool_decide (upd_begin b ≤ x < upd_end e) then mapped (mode_to_attrs mode) else ptable_mapping t x.
Proof.
  intros Hwf Hst Hb H.
  destruct (identity_update_spec t b e (mode_to_attrs mode) 0 st)
    as (ok1 & t1 & st1 & Heq & ? & ? & ? & Hx & _); [left; split; [done|apply stage_attrs_ok]|done..|].
  unfold identity_map in H. rewrite H in Heq. injection Heq as <- <- <-. by split.
Qed.

Lemma unmap_kept t b e st ok t' st' :
  wf_ptable t → st_inv st → 0 ≤ pa b < ptable_end →
  unmap t b e st = Done (ok, t', st') →
  kept t st t' st' ∧
  ∀ x, 0 ≤ x < ptable_end → ptable_mapping t' x =
    if ok && bool_decide (upd_begin b ≤ x < upd_end e) then None else ptable_mapping t x.
Proof.
  intros Hwf Hst Hb H.
  destruct (identity_update_spec t b e (mode_to_attrs (Z.lor (Z.lor Mode.UNOWNED Mode.INVALID) Mode.SHARED))
    Flags.UNMAP st) as (ok1 & t1 & st1 & Heq & ? & ? & ? & Hx & _); [by right|done..|].
  unfold unmap in H. rewrite H in Heq. injection Heq as <- <- <-. by split.
Qed.

Context {RD : ReduceCrate}.
Lemma defrag_kept t st t' m :
  wf_ptable t → st_inv st → defrag t (st_pool st) = Done (t', m) →
  kept t st t' (with_pool st m) ∧ ∀ x, 0 ≤ x < ptable_end → ptable_mapping t' x = ptable_mapping t x.
Proof.
  intros Hwf Hst H. destruct (defrag_spec t (st_pool st) Hwf Hst) as (t1 & m1 & Heq & Hm & Hw & Hx & Hp).
  rewrite H in Heq. injection Heq as <- <-. by split.
Qed.
End step.

(** ** The hypervisor's own table *)
Section stage1.
Context (p : Aarch64.pa_bits).
#[local] Hint Extern 0 ArchMM => exact (aarch64 p) : typeclass_instances.
#[local] Hint Extern 0 Stage => exact (@Stage1 (aarch64 p)) : typeclass_instances.
#[local] Hint Extern 0 (ArchLaws _) => exact (aarch64_laws p) : typeclass_instances.

Lemma stage1_end : ptable_end = 2 ^ 39.
Proof. done. Qed.

(** Past the end of the 39-bit address space of stage 1, [identity_update] reports
    success without doing anything, or panics. *)
Lemma stage1_update_beyond t b e a flags st :
  wf_ptable t → 2 ^ 39 ≤ pa b < 2 ^ 48 →
  identity_update t b e a flags st = Panic ∨
  ∃ st', identity_update t b e a flags st = Done (true, t, st') ∧ st_pool st' = st_pool st.
Proof.
  intros (Hlen & _) Hb. destruct b as [b]. cbn [pa] in Hb. unfold identity_update. cbv zeta.
  change (mk_paddr b) with (pa_init b). rewrite clear_pa_spec by (split; lia). rewrite (Z.mod_small b) by lia.
  set (b' := b - b mod 4096). set (e' := Z.min _ _).
  assert (Hb' : 2 ^ 39 ≤ b' < 2 ^ 48).
  { pose proof (Z.mod_pos_bound b 4096 ltac:(lia)). pose proof (Z.div_mod b 4096 ltac:(lia)). unfold b'.
    change (2 ^ 39) with (2 ^ 27 * 4096) in *. nia. }
  assert (Hi : (1 ≤ index b' 3)%nat).
  { pose proof (index_spec b' 3 ltac:(lia)) as Hi. change (esh 3) with 39 in Hi.
    assert (1 ≤ b' / 2 ^ 39 < 512).
    { split; [apply Z.div_le_lower_bound; lia|apply Z.div_lt_upper_bound; lia]. }
    rewrite Z.mod_small in Hi by lia. lia. }
  change (S max_level) with 3%nat. change root_table_count with 1%nat in Hlen.
  unfold map_root, slice_from. rewrite Hlen.
  destruct (Nat.leb_spec (index b' 3) 1) as [H1|]; [|by left]. right.
  assert (drop (index b' 3) (tables t) = []) as Hd by (apply drop_ge; lia).
  cbn [mbind exec_bind]. rewrite Hd. cbn [zip_blocks mbind exec_bind negb].
  rewrite take_ge by lia. rewrite app_nil_r. cbn [tables root mbind exec_bind]. rewrite Hlen.
  destruct (Nat.leb_spec (index b' 3) 1) as [_|]; [|lia]. cbn [mbind exec_bind]. rewrite Hd.
  cbn [zip_blocks mbind exec_bind negb]. rewrite take_ge, app_nil_r by lia. destruct t as [rt ts].
  eexists. split; [done|]. done.
Qed.

Lemma stage1_update_kept t b e a flags st ok t' st' :
  flags = 0 ∧ attrs_ok a ∨ flags = Flags.UNMAP →
  wf_ptable t → st_inv st → 0 ≤ pa b < 2 ^ 48 →
  identity_update t b e a flags st = Done (ok, t', st') → kept t st t' st'.
Proof.
  intros Hf Hwf Hst Hb H. destruct (decide (pa b < 2 ^ 39)) as [Hlt|Hge].
  - destruct (identity_update_spec t b e a flags st) as (ok1 & t1 & st1 & Heq & ? & ? & ? & _);
      [done..|rewrite stage1_end; lia|]. rewrite H in Heq. by injection Heq as <- <- <-.
  - destruct (stage1_update_beyond t b e a flags st) as [Hp|(st1 & Heq & Hpool)]; [done|lia|congruence|].
    rewrite H in Heq. injection Heq as -> -> ->. unfold kept, st_inv. by rewrite Hpool.
Qed.

Context {RD : ReduceCrate}.
Lemma mm_defrag_kept t st t' st' :
  wf_ptable t → st_inv st → mm_defrag t st = Done (t', st') →
  kept t st t' st' ∧ ∀ x, 0 ≤ x < ptable_end → ptable_mapping t' x = ptable_mapping t x.
Proof.
  intros Hwf Hst H. unfold mm_defrag in H. apply bind_Done_inv in H as ([t1 m] & Hd & [= <- <-]).
  by apply defrag_kept.
Qed.
End stage1.

(** ** Transfers between two VMs *)
Section transfer.
Context (p : Aarch64.pa_bits) {RD : ReduceCrate}.
#[local] Hint Extern 0 ArchMM => exact (aarch64 p) : typeclass_instances.
#[local] Hint Extern 0 (ArchLaws _) => exact (aarch64_laws p) : typeclass_instances.
Local Abbreviation wf1 := (wf_ptable (SG := @Stage1 (aarch64 p))).
Local Abbreviation wf2 := (wf_ptable (SG := @Stage2 (aarch64 p))).
Local Abbreviation pages1 := (ptable_pages (SG := @Stage1 (aarch64 p))).
Local Abbreviation pages2 := (ptable_pages (SG := @Stage2 (aarch64 p))).

(** A page-aligned range of addresses of the VMs. *)
Definition vm_range (b e : Z) : Prop := aligned 4096 b ∧ aligned 4096 e ∧ 0 ≤ b < e ∧ e ≤ vm_end p.

Lemma vm_end_48 : vm_end p ≤ 2 ^ 48.
Proof. unfold vm_end. pose proof (root_geometry (SG := @Stage2 (aarch64 p))) as (_ & _ & H). lia. Qed.

Lemma vm_range_upd b e x :
  vm_range b e → upd_begin (pa_init b) ≤ x < upd_end (SG := @Stage2 (aarch64 p)) (pa_init e) ↔ b ≤ x < e.
Proof.
  intros (Hb & He & Hbe & Hend). pose proof vm_end_48. unfold upd_begin, upd_end. cbn [pa pa_init].
  rewrite Hb, round_up_to_page_aligned by (done || (split; lia)). unfold vm_end in *.
  rewrite Z.min_l by lia. lia.
Qed.

(** The new mode of an address: changed in the range when the call succeeds. *)
Definition new_mode (ok : bool) (b e mode : Z) (old : Z → option Z) (x : Z) : option Z :=
  if ok && bool_decide (b ≤ x < e) then norm mode else old x.

Lemma identity_map_vm t b e mode st ok t' st' :
  wf2 t → st_inv st → stage2_mode mode → vm_range b e →
  identity_map (SG := @Stage2 (aarch64 p)) t (pa_init b) (pa_init e) mode st = Done (ok, t', st') →
  kept (SG := @Stage2 (aarch64 p)) t st t' st' ∧
  ∀ x, 0 ≤ x < vm_end p → vm_mode p t' x = new_mode ok b e mode (vm_mode p t) x.
Proof.
  intros Hwf Hst Hm Hr H. pose proof Hr as (_ & _ & ? & ?).
  destruct (identity_map_modes p t (pa_init b) (pa_init e) mode st)
    as (ok1 & t1 & st1 & Heq & ? & ? & ? & Hx & _); [done..|cbn; lia|].
  rewrite H in Heq. injection Heq as <- <- <-. split; [done|]. intros x Hxr. rewrite Hx by done.
  unfold new_mode, upd_range. by rewrite (bool_decide_ext _ _ (vm_range_upd b e x Hr)).
Qed.

Lemma mm_vm_defrag_kept t st t' st' :
  wf2 t → st_inv st → mm_vm_defrag t st = Done (t', st') →
  kept (SG := @Stage2 (aarch64 p)) t st t' st' ∧ ∀ x, 0 ≤ x < vm_end p → vm_mode p t' x = vm_mode p t x.
Proof.
  intros Hwf Hst H. unfold mm_vm_defrag in H. apply bind_Done_inv in H as ([t1 m] & Hd & [= <- <-]).
  apply defrag_kept in Hd as [Hk Hx]; [|done..]. split; [done|]. intros x Hxr. unfold vm_mode.
  by rewrite Hx.
Qed.

(** Going back to the mode the whole range had restores every mode. *)
Lemma new_mode_back b e m1 m0 (old f : Z → option Z) x :
  (∀ x, b ≤ x < e → old x = norm m0) → f x = new_mode true b e m1 old x →
  new_mode true b e m0 f x = old x.
Proof.
  intros Ho Hf. unfold new_mode in *. cbn in *. case_bool_decide; [by rewrite Ho|done].
Qed.

Lemma identity_map1_kept hp b e mode st ok hp' st' :
  wf1 hp → st_inv st → 0 ≤ pa b < 2 ^ 48 →
  identity_map (SG := @Stage1 (aarch64 p)) hp b e mode st = Done (ok, hp', st') →
  kept (SG := @Stage1 (aarch64 p)) hp st hp' st'.
Proof.
  intros Hwf Hst Hb H. unfold identity_map in H.
  refine (stage1_update_kept p hp b e _ 0 st ok hp' st' _ Hwf Hst Hb H).
  left. split; [done|]. apply (stage_attrs_ok (SG := @Stage1 (aarch64 p))).
Qed.
Lemma unmap1_kept hp b e st ok hp' st' :
  wf1 hp → st_inv st → 0 ≤ pa b < 2 ^ 48 →
  unmap (SG := @Stage1 (aarch64 p)) hp b e st = Done (ok, hp', st') →
  kept (SG := @Stage1 (aarch64 p)) hp st hp' st'.
Proof.
  intros Hwf Hst Hb H. unfold unmap in H.
  refine (stage1_update_kept p hp b e _ Flags.UNMAP st ok hp' st' _ Hwf Hst Hb H). by right.
Qed.

(** [clear_memory] overwrites the range with zeros if it succeeds, and nothing else. *)
Lemma clear_memory_spec hp mem b e st ok hp' mem' st' :
  wf1 hp → st_inv st → vm_range b e →
  clear_memory hp mem (pa_init b) (pa_init e) st = Done (ok, hp', mem', st') →
  kept (SG := @Stage1 (aarch64 p)) hp st hp' st' ∧
  ∀ x, mem' x = if ok && bool_decide (b ≤ x < e) then 0 else mem x.
Proof.
  intros Hwf Hst (Hb & He & Hbe & Hend) H. pose proof vm_end_48. unfold clear_memory in H.
  apply bind_Done_inv in H as ([[ok1 hp1] st1] & Hmap & H).
  assert (Hk1 : kept (SG := @Stage1 (aarch64 p)) hp st hp1 st1).
  { apply (identity_map1_kept hp (pa_init b) (pa_init e) Mode.W st ok1); [exact Hwf|exact Hst|cbn; lia|exact Hmap]. }
  destruct Hk1 as (Hw1 & Hst1 & Hp1). destruct ok1; cbn [negb] in H.
  - unfold assert_then in H. destruct (_ <=? _); [|done].
    apply bind_Done_inv in H as ([[ok2 hp2] st2] & Hun & H). destruct ok2; [|done]. injection H as <- <- <- <-.
    assert (Hk2 : kept (SG := @Stage1 (aarch64 p)) hp1 st1 hp2 st2).
    { apply (unmap1_kept hp1 (pa_init b) (pa_init e) st1 true); [exact Hw1|exact Hst1|cbn; lia|exact Hun]. }
    destruct Hk2 as (Hw2 & Hst2 & Hp2). split; [split_and!; [done..|by rewrite Hp1]|].
    intros x. unfold memset, pa_difference, pa_addr. cbn [pa pa_init].
    rewrite wsub_small by lia. replace (b + (e - b)) with e by lia. done.
  - apply bind_Done_inv in H as ([hp2 st2] & Hd & [= <- <- <- <-]).
    apply mm_defrag_kept in Hd as [(Hw2 & Hst2 & Hp2) _]; [|done..].
    split; [split_and!; [done..|by rewrite Hp1]|done].
Qed.

(** The pages of two VM tables, the hypervisor's table and the pool. *)
Definition pages3 (ft tot hp : PageTable) (st : MmState) : list Z :=
  pages2 ft ++ pages2 tot ++ pages1 hp ++ mpool_pages (st_pool st).
Lemma pages3_from ft tot hp st ft' st' :
  kept (SG := @Stage2 (aarch64 p)) ft st ft' st' → pages3 ft tot hp st ≡ₚ pages3 ft' tot hp st'.
Proof.
  intros (_ & _ & H). unfold pages3. rewrite (app_assoc (pages2 tot)), (app_assoc (pages2 tot)).
  by apply (perm_replace []).
Qed.
Lemma pages3_to ft tot hp st tot' st' :
  kept (SG := @Stage2 (aarch64 p)) tot st tot' st' → pages3 ft tot hp st ≡ₚ pages3 ft tot' hp st'.
Proof. intros (_ & _ & H). unfold pages3. by apply perm_replace. Qed.
Lemma pages3_hp ft tot hp st hp' st' :
  kept (SG := @Stage1 (aarch64 p)) hp st hp' st' → pages3 ft tot hp st ≡ₚ pages3 ft tot hp' st'.
Proof. intros (_ & _ & H). unfold pages3. by rewrite H. Qed.

(** Three sound tables and a sound pool. *)
Definition sound3 (ft tot hp : PageTable) (st : MmState) : Prop := wf2 ft ∧ wf2 tot ∧ wf1 hp ∧ st_inv st.

(** What a transfer guarantees: soundness, no lost page, and on success the modes
    asked for in the range; on failure, and outside of the range, nothing changes. *)
Definition transferred (ok : bool) (b e from_mode to_mode : Z) (ft tot hp : PageTable) (st : MmState)
    (ft' tot' hp' : PageTable) (st' : MmState) : Prop :=
  sound3 ft' tot' hp' st' ∧ pages3 ft tot hp st ≡ₚ pages3 ft' tot' hp' st' ∧
  ∀ x, 0 ≤ x < vm_end p →
    vm_mode p ft' x = new_mode ok b e from_mode (vm_mode p ft) x ∧
    vm_mode p tot' x = new_mode ok b e to_mode (vm_mode p tot) x.

Lemma share_transfer_spec ft tot hp mem b e orig from_mode to_mode st ok ft' tot' hp' mem' st' :
  sound3 ft tot hp st → vm_range b e → stage2_mode orig → stage2_mode from_mode → stage2_mode to_mode →
  (∀ x, b ≤ x < e → vm_mode p ft x = norm orig) →
  share_transfer ft tot hp mem (pa_init b) (pa_init e) orig from_mode to_mode st
    = Done (ok, ft', tot', hp', mem', st') →
  transferred ok b e from_mode to_mode ft tot hp st ft' tot' hp' st' ∧
  (∀ x, mem' x = mem x ∨ b ≤ x < e ∧ mem' x = 0) ∧ (ok = true → ∀ x, b ≤ x < e → mem' x = 0).
Proof.
  intros (Hf & Ht & Hh & Hst) Hr Ho Hfm Htm Horig H. unfold share_transfer in H.
  apply bind_Done_inv in H as ([[ok1 ft1] st1] & Hmap1 & H).
  apply identity_map_vm in Hmap1 as [Hk1 Hx1]; [|done..]. pose proof Hk1 as (Hw1 & Hst1 & _).
  pose proof (pages3_from ft tot hp st ft1 st1 Hk1) as Hp1.
  destruct ok1; cbn [negb] in H.
  2:{ injection H as <- <- <- <- <- <-. split_and!; [split_and!; [done..|]|by left|done].
      intros x Hx. by rewrite Hx1. }
  apply bind_Done_inv in H as ([[[ok2 hp2] mem2] st2] & Hclr & H).
  apply clear_memory_spec in Hclr as [Hk2 Hmem]; [|done..]. pose proof Hk2 as (Hw2 & Hst2 & _).
  pose proof (pages3_hp ft1 tot hp st1 hp2 st2 Hk2) as Hp2.
  assert (Hout : ∀ x, mem2 x = mem x ∨ b ≤ x < e ∧ mem2 x = 0).
  { intros x. rewrite Hmem. destruct ok2; cbn [andb]; [|by left]. case_bool_decide; [by right|by left]. }
  assert (Hback : ∀ t x, 0 ≤ x < vm_end p → vm_mode p t x = vm_mode p ft1 x →
    new_mode true b e orig (vm_mode p t) x = vm_mode p ft x).
  { intros t x Hx Heq. eapply new_mode_back; [done|]. by rewrite Heq, Hx1. }
  destruct ok2; cbn [negb] in H.
  2:{ apply bind_Done_inv in H as ([[ok3 ft3] st3] & Hmap3 & H). destruct ok3; [|done].
      injection H as <- <- <- <- <- <-. apply identity_map_vm in Hmap3 as [Hk3 Hx3]; [|done..].
      pose proof Hk3 as (Hw3 & Hst3 & _). split_and!; [split_and!; [done| |]|done|done].
      - rewrite Hp1, Hp2. by apply pages3_from.
      - intros x Hx. rewrite Hx3 by done. split; [by apply Hback|done]. }
  apply bind_Done_inv in H as ([[ok3 tot3] st3] & Hmap3 & H).
  apply identity_map_vm in Hmap3 as [Hk3 Hx3]; [|done..]. pose proof Hk3 as (Hw3 & Hst3 & _).
  pose proof (pages3_to ft1 tot hp2 st2 tot3 st3 Hk3) as Hp3.
  destruct ok3; cbn [negb] in H.
  - injection H as <- <- <- <- <- <-. split_and!; [split_and!; [done| |]|done|].
    + by rewrite Hp1, Hp2.
    + intros x Hx. by rewrite Hx1, Hx3.
    + intros _ x Hx. by rewrite Hmem, bool_decide_true.
  - apply bind_Done_inv in H as ([ft4 st4] & Hd & H). apply mm_vm_defrag_kept in Hd as [Hk4 Hx4]; [|done..].
    pose proof Hk4 as (Hw4 & Hst4 & _).
    apply bind_Done_inv in H as ([[ok5 ft5] st5] & Hmap5 & H). destruct ok5; [|done].
    injection H as <- <- <- <- <- <-. apply identity_map_vm in Hmap5 as [Hk5 Hx5]; [|done..].
    pose proof Hk5 as (Hw5 & Hst5 & _). split_and!; [split_and!; [done| |]|done|done].
    + rewrite Hp1, Hp2, Hp3, (pages3_from ft1 tot3 hp2 st3 ft4 st4 Hk4). by apply pages3_from.
    + intros x Hx. rewrite Hx5, Hx3 by done. split; [|done]. apply Hback; [done|]. by rewrite Hx4.
Qed.

(** ** The checks before a transfer *)
Lemma bf_contains_1 m k : 0 ≤ k → bf_contains m (2 ^ k) = Z.testbit m k.
Proof. intros Hk. pose proof (bf_contains_2 m k k Hk Hk) as H. by rewrite Z.lor_diag, andb_diag in H. Qed.

Lemma get_mode_vm t b e r :
  wf2 t → in_u 64 b → in_u 64 e → aligned 4096 b → aligned 4096 e →
  get_mode (SG := @Stage2 (aarch64 p)) t (ipa_init b) (ipa_init e) = Done r →
  ∀ m, r = Ok m → vm_range b e ∧ stage2_mode m ∧ ∀ x, b ≤ x < e → vm_mode p t x = norm m.
Proof.
  intros Hwf Hb He Hba Hea H m ->.
  destruct (get_mode_modes p t (ipa_init b) (ipa_init e)) as (r & Heq & Hr); [done..|].
  rewrite H in Heq. injection Heq as <-. destruct (Hr m eq_refl) as (Hbe & Hm & Hx). cbn [ipa ipa_init] in *.
  destruct Hb. split_and!; [split_and!; (done || lia)|done|]. intros x Hxr. by apply Hx.
Qed.

(** What [share_memory] has checked when it starts the transfer. *)
Lemma share_allowed_spec ft tot b e share r :
  wf2 ft → wf2 tot → in_u 64 b → in_u 64 e → aligned 4096 b → aligned 4096 e →
  share_allowed ft tot (ipa_init b) (ipa_init e) share = Done r →
  ∀ orig, r = Ok orig → vm_range b e ∧ stage2_mode orig ∧ (∀ x, b ≤ x < e → vm_mode p ft x = norm orig) ∧
    ∀ x, b ≤ x < e → pair_closed (vm_mode p ft x) (vm_mode p tot x).
Proof.
  intros Hf Ht Hb He Hba Hea H orig ->. unfold share_allowed in H.
  apply bind_Done_inv in H as (r & Hg & H). pose proof (get_mode_vm _ _ _ _ Hf Hb He Hba Hea Hg) as Hgs.
  destruct r as [m|]; [|done]. destruct (Hgs m eq_refl) as (Hr & Hm & Hx). clear Hgs.
  change Mode.INVALID with (2 ^ 4) in H. change Mode.UNOWNED with (2 ^ 5) in H. change Mode.SHARED with (2 ^ 6) in H.
  rewrite !bf_contains_1 in H by lia. destruct (Z.testbit m 4) eqn:E4; [done|].
  destruct (Z.testbit m 5) eqn:E5.
  - apply bind_Done_inv in H as (r & Hg2 & H). pose proof (get_mode_vm _ _ _ _ Ht Hb He Hba Hea Hg2) as Hgs.
    destruct r as [m2|]; [|done]. destruct (Hgs m2 eq_refl) as (_ & _ & Hx2). rewrite bf_contains_1 in H by lia.
    destruct (Z.testbit m2 5) eqn:E25; [done|]. destruct (negb _); [done|]. injection H as <-.
    split_and!; [apply Hr..|apply Hm|done|]. intros x Hxr. rewrite Hx, Hx2 by done. right; left.
    unfold borrower. by rewrite access_norm, !owner_norm, E4, E5, E25.
  - destruct (Z.testbit m 6) eqn:E6; [done|]. injection H as <-. split_and!; [apply Hr..|apply Hm|done|].
    intros x Hxr. rewrite Hx by done. left. by rewrite owner_norm, exclusive_norm, E4, E5, E6.
Qed.

Lemma share_modes_ok share :
  let '(fm, tm) := share_modes share in
  stage2_mode fm ∧ stage2_mode tm ∧ pair_ok (norm fm) (norm tm).
Proof.
  destruct share; (split_and!; [by_computation..|]);
    unfold pair_ok; vm_compute; split_and!; done.
Qed.

(** ** SPCI memory sharing *)

(** The result of [spci_msg_check_transition]. *)
Lemma check_transition_spec to_i from_i share b e attrs r :
  wf2 (ptable from_i) → wf2 (ptable to_i) → in_u 64 b → in_u 64 e →
  spci_msg_check_transition to_i from_i share (ipa_init b) (ipa_init e) attrs = Done r →
  ∀ orig fm tm, r = Ok (orig, fm, tm) → vm_range b e ∧ stage2_mode orig ∧
    ∃ orig_to, stage2_mode orig_to ∧
      spci_msg_get_next_state (transition_table share) attrs orig orig_to = Ok (fm, tm) ∧
      ∀ x, b ≤ x < e → vm_mode p (ptable from_i) x = norm orig ∧ vm_mode p (ptable to_i) x = norm orig_to.
Proof.
  intros Hf Ht Hb He H orig fm tm ->. unfold spci_msg_check_transition in H. cbn [ipa_addr ipa_init ipa] in H.
  destruct (is_aligned b PAGE_SIZE) eqn:Hba; [|done]. destruct (is_aligned e PAGE_SIZE) eqn:Hea; [|done].
  apply is_aligned_page in Hba. apply is_aligned_page in Hea. cbn [negb orb] in H.
  apply bind_Done_inv in H as (r1 & Hg1 & H). pose proof (get_mode_vm _ _ _ _ Hf Hb He Hba Hea Hg1) as Hs1.
  destruct r1 as [m1|]; [|done]. destruct (Hs1 m1 eq_refl) as (Hr & Hm1 & Hx1).
  apply bind_Done_inv in H as (r2 & Hg2 & H). pose proof (get_mode_vm _ _ _ _ Ht Hb He Hba Hea Hg2) as Hs2.
  destruct r2 as [m2|]; [|done]. destruct (Hs2 m2 eq_refl) as (_ & Hm2 & Hx2).
  destruct (spci_msg_get_next_state _ _ _ _) as [[fm' tm']|] eqn:Hn; [|done]. injection H as <- <- <-.
  split_and!; [apply Hr..|apply Hm1|]. exists m2. split_and!; [apply Hm2..|done|]. intros x Hx. auto.
Qed.

(** Modes made of the declared state bits and of rights are stage-2 modes. *)
Lemma next_state_modes share attrs orig orig_to fm tm :
  stage2_mode orig → in_u 3 attrs →
  spci_msg_get_next_state (transition_table share) attrs orig orig_to = Ok (fm, tm) →
  stage2_mode fm ∧ stage2_mode tm.
Proof.
  intros Ho Ha H. apply next_state_row in H as (tr & Hin & _ & _ & [= -> ->]).
  assert (Htr : Forall (λ tr, tr_from_mode tr ∈ [0; 16; 48; 64; 96; 112] ∧ tr_to_mode tr ∈ [0; 16; 48; 64; 96; 112])
    (transition_table share)) by (destruct share; by_computation).
  rewrite Forall_forall in Htr. destruct (Htr tr Hin) as [Hfm Htm].
  assert (Hall : Forall (λ m, Forall (λ f, stage2_mode (Z.lor f (Z.land (Mode.complement state_mask) m)))
    [0; 16; 48; 64; 96; 112]) (filter stage2_mode all_modes)) by (by_computation).
  assert (Hall2 : Forall (λ a, Forall (λ f, stage2_mode (Z.lor f a)) [0; 16; 48; 64; 96; 112]) (seqZ 0 8))
    by (by_computation).
  rewrite Forall_forall in Hall, Hall2. split.
  - assert (Hin' : orig ∈ filter stage2_mode all_modes).
    { apply list_elem_of_filter. split; [done|]. apply elem_of_all_modes, Ho. }
    specialize (Hall _ Hin'). rewrite Forall_forall in Hall. by apply Hall.
  - assert (Hin' : attrs ∈ seqZ 0 8) by (apply elem_of_seqZ; unfold in_u in Ha; lia).
    specialize (Hall2 _ Hin'). rewrite Forall_forall in Hall2. by apply Hall2.
Qed.

Lemma sound3_local ft tot hp st :
  sound3 ft tot hp st → sound3 ft tot hp (new_local st) ∧ pages3 ft tot hp (new_local st) = pages3 ft tot hp st.
Proof.
  intros (?&?&?&Hst). destruct (new_local_inv st Hst) as [? Hp]. split; [done|]. unfold pages3. by rewrite Hp.
Qed.
Lemma sound3_drop ft tot hp st :
  sound3 ft tot hp st → sound3 ft tot hp (drop_local st) ∧ pages3 ft tot hp (drop_local st) ≡ₚ pages3 ft tot hp st.
Proof.
  intros (?&?&?&Hst). destruct (drop_local_inv st Hst) as [? Hp]. split; [done|]. unfold pages3. by rewrite Hp.
Qed.

Lemma transferred_none b e fm tm ft tot hp st :
  sound3 ft tot hp st → transferred false b e fm tm ft tot hp st ft tot hp st.
Proof. intros Hs. split_and!; [done..|]. intros x _. done. Qed.
Lemma transferred_drop ok b e fm tm ft tot hp st ft' tot' hp' st' :
  transferred ok b e fm tm ft tot hp (new_local st) ft' tot' hp' st' → sound3 ft tot hp st →
  transferred ok b e fm tm ft tot hp st ft' tot' hp' (drop_local st').
Proof.
  intros (Hs & Hp & Hx) Hs0. destruct (sound3_drop _ _ _ _ Hs) as [Hs' Hp'].
  destruct (sound3_local _ _ _ _ Hs0) as [_ Hp0]. split_and!; [apply Hs'..| |done]. by rewrite Hp', <-Hp, Hp0.
Qed.

(** The two-table part of [spci_share_memory]. *)
Lemma spci_transfer_spec ft tot hp b e orig fm tm st ok1 ft1 st1 :
  sound3 ft tot hp st → vm_range b e → stage2_mode orig → stage2_mode fm → stage2_mode tm →
  (∀ x, b ≤ x < e → vm_mode p ft x = norm orig) →
  identity_map (SG := @Stage2 (aarch64 p)) ft (pa_init b) (pa_init e) fm st = Done (ok1, ft1, st1) →
  (ok1 = false → transferred false b e fm tm ft tot hp st ft1 tot hp st1) ∧
  (ok1 = true → ∀ ok2 tot2 st2,
     identity_map (SG := @Stage2 (aarch64 p)) tot (pa_init b) (pa_init e) tm st1 = Done (ok2, tot2, st2) →
     (ok2 = true → transferred true b e fm tm ft tot hp st ft1 tot2 hp st2) ∧
     (ok2 = false → ∀ ft3 st3 ft4 st4, mm_vm_defrag ft1 st2 = Done (ft3, st3) →
        identity_map (SG := @Stage2 (aarch64 p)) ft3 (pa_init b) (pa_init e) orig st3 = Done (true, ft4, st4) →
        transferred false b e fm tm ft tot hp st ft4 tot2 hp st4)).
Proof.
  intros (Hf & Ht & Hh & Hst) Hr Ho Hfm Htm Horig Hmap1.
  apply identity_map_vm in Hmap1 as [Hk1 Hx1]; [|done..]. pose proof Hk1 as (Hw1 & Hst1 & _).
  pose proof (pages3_from ft tot hp st ft1 st1 Hk1) as Hp1. split.
  { intros ->. split_and!; [done..|]. intros x Hx. by rewrite Hx1. }
  intros -> ok2 tot2 st2 Hmap2. apply identity_map_vm in Hmap2 as [Hk2 Hx2]; [|done..].
  pose proof Hk2 as (Hw2 & Hst2 & _). pose proof (pages3_to ft1 tot hp st1 tot2 st2 Hk2) as Hp2. split.
  { intros ->. split_and!; [done..|by rewrite Hp1|]. intros x Hx. by rewrite Hx1, Hx2. }
  intros -> ft3 st3 ft4 st4 Hd Hmap4. apply mm_vm_defrag_kept in Hd as [Hk3 Hx3]; [|done..].
  pose proof Hk3 as (Hw3 & Hst3 & _). apply identity_map_vm in Hmap4 as [Hk4 Hx4]; [|done..].
  pose proof Hk4 as (Hw4 & Hst4 & _). split_and!; [done..| |].
  - rewrite Hp1, Hp2, (pages3_from ft1 tot2 hp st2 ft3 st3 Hk3). by apply pages3_from.
  - intros x Hx. rewrite Hx4, Hx2 by done. split; [|done]. eapply new_mode_back; [done|].
    rewrite Hx3 by done. by rewrite Hx1.
Qed.

(** [spci_share_memory] on success exchanges the region of the first constituent
    as the transition table says, and on an error changes no mode. *)
Lemma spci_share_memory_spec to_i from_i mem region attrs share hp st ret to_i' from_i' st' :
  sound3 (ptable from_i) (ptable to_i) hp st → mem_ok mem → in_u 3 attrs →
  spci_share_memory false to_i from_i mem region attrs share st = Done (ret, to_i', from_i', st') →
  ∃ ft' tot' b e fm tm, to_i' = with_ptable tot' to_i ∧ from_i' = with_ptable ft' from_i ∧
    transferred (bool_decide (ret = Success)) b e fm tm (ptable from_i) (ptable to_i) hp st ft' tot' hp st' ∧
    (ret = Success → b = constituent_address mem (region_constituents region) ∧
       e = b + constituent_page_count mem (region_constituents region) * 4096 ∧ vm_range b e ∧
       ∃ orig orig_to, spci_msg_get_next_state (transition_table share) attrs orig orig_to = Ok (fm, tm) ∧
         ∀ x, b ≤ x < e → vm_mode p (ptable from_i) x = norm orig ∧ vm_mode p (ptable to_i) x = norm orig_to).
Proof.
  intros Hs Hmem Ha H. unfold spci_share_memory in H. cbv zeta in H.
  set (b := constituent_address mem (region_constituents region)) in *.
  set (n := constituent_page_count mem (region_constituents region)) in *.
  assert (Hb : in_u 64 b) by by apply rd64_range. assert (Hn : in_u 32 n) by by apply rd32_range.
  assert (Hsz : n *w PAGE_SIZE = n * 4096) by (rewrite PAGE_SIZE_val; apply wmul_small; unfold in_u in Hn; lia).
  rewrite Hsz in H. unfold ipa_add in H. cbn [ipa_addr ipa_init ipa] in H. set (e := b +w n * 4096) in *.
  assert (He : in_u 64 e) by (by apply wrap_range).
  destruct (sound3_local _ _ _ _ Hs) as [Hsl _]. pose proof Hsl as (Hf & Ht & _ & _).
  apply bind_Done_inv in H as (r & Hc & H).
  pose proof (check_transition_spec to_i from_i share b e attrs r Hf Ht Hb He Hc) as Hspec.
  destruct r as [[[orig fm] tm]|].
  2:{ injection H as <- <- <- <-. exists (ptable from_i), (ptable to_i), 0, 0, 0, 0.
      split; [by destruct to_i|]. split; [by destruct from_i|]. split; [|done].
      apply transferred_drop; [|done]. by apply transferred_none. }
  destruct (Hspec orig fm tm eq_refl) as (Hr & Ho & orig_to & Hot & Hnext & Hx). clear Hspec.
  destruct (next_state_modes share attrs orig orig_to fm tm Ho Ha Hnext) as [Hfm Htm].
  assert (Heb : e = b + n * 4096).
  { destruct Hr as (_ & _ & Hbe & Hend). pose proof vm_end_48. unfold e in *.
    unfold wadd, wrap in *. destruct (decide (b + n * 4096 < 2 ^ 64)) as [Hlt|Hge].
    - apply Z.mod_small. unfold in_u in *. lia.
    - exfalso. assert ((b + n * 4096) mod 2 ^ 64 = b + n * 4096 - 2 ^ 64) as Hm.
      { symmetry. apply (Z.mod_unique_pos _ _ 1); unfold in_u in *; lia. }
      rewrite Hm in Hbe. unfold in_u in *. lia. }
  assert (Hreq : b = b ∧ e = b + n * 4096 ∧ vm_range b e ∧ ∃ orig orig_to,
    spci_msg_get_next_state (transition_table share) attrs orig orig_to = Ok (fm, tm) ∧
    ∀ x, b ≤ x < e → vm_mode p (ptable from_i) x = norm orig ∧ vm_mode p (ptable to_i) x = norm orig_to).
  { split; [done|]. split; [done|]. split; [done|]. by exists orig, orig_to. }
  apply bind_Done_inv in H as ([[ok1 ft1] st1] & Hmap1 & H).
  destruct (spci_transfer_spec (ptable from_i) (ptable to_i) hp b e orig fm tm (new_local st) ok1 ft1 st1)
    as [Hno Hyes]; [done..|intros x Hxr; by apply Hx|done|].
  destruct ok1; cbn [negb] in H.
  2:{ injection H as <- <- <- <-. exists ft1, (ptable to_i), b, e, fm, tm.
      split; [by destruct to_i|]. split; [done|]. split; [|done]. apply transferred_drop; [|done]. by apply Hno. }
  apply bind_Done_inv in H as ([[ok2 tot2] st2] & Hmap2 & H).
  destruct (Hyes eq_refl ok2 tot2 st2 Hmap2) as [H2y H2n]. destruct ok2; cbn [negb] in H.
  - injection H as <- <- <- <-. exists ft1, tot2, b, e, fm, tm.
    do 2 (split; [done|]). split; [|done]. apply transferred_drop; [|done]. by apply H2y.
  - apply bind_Done_inv in H as ([ft3 st3] & Hd & H). apply bind_Done_inv in H as ([[ok4 ft4] st4] & Hmap4 & H).
    destruct ok4; [|done]. injection H as <- <- <- <-. exists ft4, tot2, b, e, fm, tm.
    do 2 (split; [done|]). split; [|done]. apply transferred_drop; [|done]. by eapply H2n.
Qed.

(** ** Mailbox configuration *)
Definition pages_hp (t hp : PageTable) (st : MmState) : list Z :=
  pages2 t ++ pages1 hp ++ mpool_pages (st_pool st).
Lemma pages_hp_vm t hp st t' st' :
  kept (SG := @Stage2 (aarch64 p)) t st t' st' → pages_hp t hp st ≡ₚ pages_hp t' hp st'.
Proof. intros (_ & _ & H). unfold pages_hp. by apply (perm_replace []). Qed.
Lemma pages_hp_hp t hp st hp' st' :
  kept (SG := @Stage1 (aarch64 p)) hp st hp' st' → pages_hp t hp st ≡ₚ pages_hp t hp' st'.
Proof. intros (_ & _ & H). unfold pages_hp. by rewrite H. Qed.

(** The hypervisor's view of the mailbox pages. *)
Definition s1_mapping (hp : PageTable) (x : Z) : option Z := ptable_mapping (SG := @Stage1 (aarch64 p)) hp x.
Definition s1_attrs (mode : Z) : option Z := mapped (mode_to_attrs (Stage := @Stage1 (aarch64 p)) mode).

(** A page of the VM at [b]. *)
Definition page_range (b : Z) : Prop := vm_range b (b + 4096).

Lemma s1_upd b x :
  aligned 4096 b → 0 ≤ b → b + 4096 ≤ 2 ^ 39 →
  upd_begin (pa_init b) ≤ x < upd_end (SG := @Stage1 (aarch64 p)) (pa_init (b + 4096)) ↔ b ≤ x < b + 4096.
Proof.
  intros Hb H0 Hend. unfold upd_begin, upd_end. cbn [pa pa_init].
  assert (aligned 4096 (b + 4096)) by (by apply aligned_add).
  rewrite Hb, round_up_to_page_aligned by (done || (split; lia)).
  change (ptable_end (SG := @Stage1 (aarch64 p))) with (2 ^ 39). rewrite Z.min_l by lia. lia.
Qed.

(** A page mapped or unmapped in the hypervisor; beyond its address space nothing is. *)
Lemma stage1_page_spec b a flags hp st ok hp' st' :
  flags = 0 ∧ attrs_ok a ∨ flags = Flags.UNMAP → wf1 hp → st_inv st → page_range b →
  identity_update (SG := @Stage1 (aarch64 p)) hp (pa_init b) (pa_init (b + 4096)) a flags st = Done (ok, hp', st') →
  kept (SG := @Stage1 (aarch64 p)) hp st hp' st' ∧
  ∀ x, 0 ≤ x < 2 ^ 39 → s1_mapping hp' x =
    if ok && bool_decide (b ≤ x < b + 4096) then (if decide (flags = 0) then mapped a else None) else s1_mapping hp x.
Proof.
  intros Hf Hwf Hst (Ha & _ & Hr & He) H. pose proof vm_end_48.
  split; [refine (stage1_update_kept p hp (pa_init b) _ _ _ st ok hp' st' Hf Hwf Hst _ H); cbn; lia|]. intros x Hx.
  destruct (decide (b < 2 ^ 39)) as [Hb|Hb].
  - assert (Hb' : b + 4096 ≤ 2 ^ 39).
    { apply aligned_exists in Ha as [q ->]; [|lia]. change (2 ^ 39) with (2 ^ 27 * 4096) in *. lia. }
    destruct (identity_update_spec (SG := @Stage1 (aarch64 p)) hp (pa_init b) (pa_init (b + 4096)) a flags st)
      as (ok1 & t1 & st1 & Heq & _ & _ & _ & Hm & _); [done..|change (ptable_end (SG := @Stage1 (aarch64 p))) with (2 ^ 39); cbn; lia|].
    rewrite H in Heq. injection Heq as <- <- <-. unfold s1_mapping. rewrite Hm by done.
    rewrite (bool_decide_ext _ _ (s1_upd b x Ha ltac:(lia) Hb')). destruct (ok && _); [|done]. by destruct Hf as [[-> _]| ->].
  - destruct (stage1_update_beyond p hp (pa_init b) (pa_init (b + 4096)) a flags st) as [Hp|(st1 & Heq & _)]; [done|cbn; lia|congruence|].
    rewrite H in Heq. injection Heq as -> -> ->. by rewrite bool_decide_false, andb_false_r by lia.
Qed.

(** The hypervisor's view of the pages [b1] (send) and [b2] (receive) after their
    configuration; a failed one may leave the send page unmapped. *)
Definition mailbox_s1 (ok : bool) (b1 b2 : Z) (hp hp' : PageTable) : Prop :=
  ∀ x, 0 ≤ x < 2 ^ 39 →
    if ok then s1_mapping hp' x = if bool_decide (b2 ≤ x < b2 + 4096) then s1_attrs Mode.W
                                  else if bool_decide (b1 ≤ x < b1 + 4096) then s1_attrs Mode.R else s1_mapping hp x
    else s1_mapping hp' x = s1_mapping hp x ∨ b1 ≤ x < b1 + 4096 ∧ s1_mapping hp' x = None.
Lemma configure_stage1_spec m b1 b2 hp st ok m' hp' st' :
  wf1 hp → st_inv st → page_range b1 → page_range b2 →
  configure_stage1 m (pa_init b1) (pa_init (b1 + 4096)) (pa_init b2) (pa_init (b2 + 4096)) hp st
    = Done (ok, m', hp', st') →
  kept (SG := @Stage1 (aarch64 p)) hp st hp' st' ∧
  m' = (if ok then mkMailbox (mb_state m) b2 b1 (waiter_list m) (ready_list m) else m) ∧ mailbox_s1 ok b1 b2 hp hp'.
Proof.
  intros Hwf Hst Hr1 Hr2 H. unfold configure_stage1 in H.
  assert (Hat : ∀ mode, 0 = 0 ∧ attrs_ok (mode_to_attrs (Stage := @Stage1 (aarch64 p)) mode) ∨ 0 = Flags.UNMAP).
  { intros mode. left. split; [done|]. apply (stage_attrs_ok (SG := @Stage1 (aarch64 p))). }
  apply bind_Done_inv in H as ([[ok1 hp1] st1] & Hmap1 & H).
  apply stage1_page_spec in Hmap1 as [(Hw1 & Hst1 & Hp1) Hx1]; [|done..]. rewrite decide_True in Hx1 by done.
  destruct ok1; cbn [negb] in H.
  2:{ apply bind_Done_inv in H as ([hp2 st2] & Hd & [= <- <- <- <-]).
      apply mm_defrag_kept in Hd as [(Hw2 & Hst2 & Hp2) Hx2]; [|done..]. split_and!; [split_and!; [done..|by rewrite Hp1]|done|].
      intros x Hx. left. unfold s1_mapping in *. by rewrite Hx2, Hx1. }
  apply bind_Done_inv in H as ([[ok2 hp2] st2] & Hmap2 & H).
  apply stage1_page_spec in Hmap2 as [(Hw2 & Hst2 & Hp2) Hx2]; [|done..]. rewrite decide_True in Hx2 by done.
  destruct ok2; cbn [negb] in H.
  - injection H as <- <- <- <-. split_and!; [split_and!; [done..|by rewrite Hp1]|done|]. intros x Hx. rewrite Hx2, Hx1 by done. done.
  - apply bind_Done_inv in H as ([hp3 st3] & Hd & H). apply mm_defrag_kept in Hd as [(Hw3 & Hst3 & Hp3) Hx3]; [|done..].
    apply bind_Done_inv in H as ([[ok4 hp4] st4] & Hun & H). destruct ok4; [|done]. injection H as <- <- <- <-.
    apply stage1_page_spec in Hun as [(Hw4 & Hst4 & Hp4) Hx4]; [|by right|done..].
    split_and!; [split_and!; [done..|by rewrite Hp1, Hp2, Hp3]|done|]. intros x Hx. rewrite Hx4 by done. cbn [andb].
    case_bool_decide; [by right|]. left. unfold s1_mapping in *. rewrite Hx3, Hx2, Hx1 by done. cbn [andb]. by rewrite bool_decide_false.
Qed.

(** The modes of the mailbox pages: the VM neither owns them nor has them for itself. *)
Definition send_mode : Z := Z.lor (Z.lor (Z.lor Mode.UNOWNED Mode.SHARED) Mode.R) Mode.W.
Definition recv_mode : Z := Z.lor (Z.lor Mode.UNOWNED Mode.SHARED) Mode.R.
Definition mailbox_modes (b1 b2 : Z) (old : Z → option Z) (x : Z) : option Z :=
  if bool_decide (b2 ≤ x < b2 + 4096) then norm recv_mode
  else if bool_decide (b1 ≤ x < b1 + 4096) then norm send_mode else old x.

(** What a configuration of the pages [b1] (send) and [b2] (receive) guarantees. *)
Definition configured (ok : bool) (b1 b2 : Z) (i : VmInner) (hp : PageTable) (st : MmState)
    (i' : VmInner) (hp' : PageTable) (st' : MmState) : Prop :=
  (∃ t', i' = with_ptable t' (with_mailbox
     (if ok then mkMailbox (mb_state (mailbox i)) b2 b1 (waiter_list (mailbox i)) (ready_list (mailbox i))
      else mailbox i) i)) ∧
  wf2 (ptable i') ∧ wf1 hp' ∧ st_inv st' ∧ pages_hp (ptable i) hp st ≡ₚ pages_hp (ptable i') hp' st' ∧
  (∀ x, 0 ≤ x < vm_end p → vm_mode p (ptable i') x =
     if ok then mailbox_modes b1 b2 (vm_mode p (ptable i)) x else vm_mode p (ptable i) x) ∧
  mailbox_s1 ok b1 b2 hp hp'.

Lemma configured_drop ok b1 b2 i hp st i' hp' st' :
  st_inv st → configured ok b1 b2 i hp (new_local st) i' hp' st' →
  configured ok b1 b2 i hp st i' hp' (drop_local st').
Proof.
  intros Hst (Hi & Hw & Hw' & Hs & Hp & Hx & Hy). destruct (drop_local_inv st' Hs) as [Hs' Hp'].
  destruct (new_local_inv st Hst) as [_ Hp0]. split_and!; [done..| |done|done].
  unfold pages_hp in *. by rewrite Hp', <-Hp, Hp0.
Qed.

Lemma with_ptable_same i : i = with_ptable (ptable i) (with_mailbox (mailbox i) i).
Proof. by destruct i. Qed.

Lemma mailbox_s1_same b1 b2 hp : mailbox_s1 false b1 b2 hp hp.
Proof. intros x _. by left. Qed.
#[local] Hint Resolve mailbox_s1_same : core.
Lemma configured_none b1 b2 i hp st :
  wf2 (ptable i) → wf1 hp → st_inv st → configured false b1 b2 i hp st i hp st.
Proof. intros. split_and!; [|done..]. eexists. apply with_ptable_same. Qed.

Lemma configure_pages_spec i b1 b2 o1 o2 hp st ok i' hp' st' :
  wf2 (ptable i) → wf1 hp → st_inv st → page_range b1 → page_range b2 → b1 ≠ b2 →
  stage2_mode o1 → stage2_mode o2 →
  (∀ x, b1 ≤ x < b1 + 4096 → vm_mode p (ptable i) x = norm o1) →
  (∀ x, b2 ≤ x < b2 + 4096 → vm_mode p (ptable i) x = norm o2) →
  configure_pages i (pa_init b1) (pa_init (b1 + 4096)) o1 (pa_init b2) (pa_init (b2 + 4096)) o2 hp st
    = Done (ok, i', hp', st') →
  configured ok b1 b2 i hp st i' hp' st'.
Proof.
  intros Hwf Hh Hst0 Hr1 Hr2 Hne Ho1 Ho2 Hm1 Hm2 H. unfold configure_pages in H. cbv zeta in H.
  fold send_mode in H. fold recv_mode in H.
  destruct (new_local_inv st Hst0) as [Hst _].
  assert (Hs : stage2_mode send_mode) by (by_computation).
  assert (Hrm : stage2_mode recv_mode) by (by_computation).
  apply bind_Done_inv in H as ([[ok1 t1] st1] & Hmap1 & H).
  apply identity_map_vm in Hmap1 as [Hk1 Hx1]; [|done..]. pose proof Hk1 as (Hw1 & Hst1 & _).
  pose proof (pages_hp_vm (ptable i) hp (new_local st) t1 st1 Hk1) as Hp1. destruct ok1; cbn [negb] in H.
  2:{ injection H as <- <- <- <-. apply configured_drop; [done|]. split_and!; [by exists t1; destruct i|done..]. }
  apply bind_Done_inv in H as ([[ok2 t2] st2] & Hmap2 & H).
  apply identity_map_vm in Hmap2 as [Hk2 Hx2]; [|done..]. pose proof Hk2 as (Hw2 & Hst2 & _).
  pose proof (pages_hp_vm t1 hp st1 t2 st2 Hk2) as Hp2. destruct ok2; cbn [negb] in H.
  2:{ apply bind_Done_inv in H as ([t3 st3] & Hd & H). apply mm_vm_defrag_kept in Hd as [Hk3 Hx3]; [|done..].
      pose proof Hk3 as (Hw3 & Hst3 & _). apply bind_Done_inv in H as ([[ok4 t4] st4] & Hmap4 & H).
      destruct ok4; [|done]. injection H as <- <- <- <-. apply identity_map_vm in Hmap4 as [Hk4 Hx4]; [|done..].
      pose proof Hk4 as (Hw4 & Hst4 & _). apply configured_drop; [done|].
      split_and!; [by exists t4; destruct i|done..| | |auto].
      - rewrite Hp1, Hp2, (pages_hp_vm t2 hp st2 t3 st3 Hk3). by apply pages_hp_vm.
      - intros x Hx. rewrite Hx4 by done. eapply new_mode_back; [done|]. rewrite Hx3, Hx2 by done. by apply Hx1. }
  apply bind_Done_inv in H as ([[[ok3 m3] hp3] st3] & Hs1 & H).
  apply configure_stage1_spec in Hs1 as (Hk3 & -> & Hs1x); [|done..]. pose proof Hk3 as (Hw3 & Hst3 & _).
  pose proof (pages_hp_hp t2 hp st2 hp3 st3 Hk3) as Hp3. destruct ok3; cbn [negb] in H.
  - injection H as <- <- <- <-. apply configured_drop; [done|]. split_and!; [by exists t2|done..| | |].
    + by rewrite Hp1, Hp2.
    + intros x Hx. cbn [ptable with_ptable]. rewrite Hx2 by done. unfold new_mode, mailbox_modes. cbn [andb].
      case_bool_decide; [done|]. rewrite Hx1 by done. done.
    + done.
  - apply bind_Done_inv in H as ([[ok4 t4] st4] & Hmap4 & H). destruct ok4; [|done].
    apply bind_Done_inv in H as ([[ok5 t5] st5] & Hmap5 & H). destruct ok5; [|done]. injection H as <- <- <- <-.
    apply identity_map_vm in Hmap4 as [Hk4 Hx4]; [|done..]. pose proof Hk4 as (Hw4 & Hst4 & _).
    apply identity_map_vm in Hmap5 as [Hk5 Hx5]; [|done..]. pose proof Hk5 as (Hw5 & Hst5 & _).
    apply configured_drop; [done|]. split_and!; [by exists t5|done..| | |done].
    + rewrite Hp1, Hp2, Hp3, (pages_hp_vm t2 hp3 st3 t4 st4 Hk4). by apply pages_hp_vm.
    + intros x Hx. cbn [ptable with_ptable]. rewrite Hx5 by done. unfold new_mode at 1. cbn [andb].
      case_bool_decide as Hd1; [by rewrite Hm1|]. rewrite Hx4 by done. unfold new_mode. cbn [andb].
      case_bool_decide as Hd2; [by rewrite Hm2|]. rewrite Hx2 by done. unfold new_mode. cbn [andb].
      rewrite bool_decide_false by done. rewrite Hx1 by done. unfold new_mode. by rewrite bool_decide_false.
Qed.

Lemma valid_owned_exclusive_bits m :
  Mode.valid_owned_exclusive m = true →
  Z.testbit m 4 = false ∧ Z.testbit m 5 = false ∧ Z.testbit m 6 = false.
Proof.
  unfold Mode.valid_owned_exclusive, bf_intersects. rewrite negb_involutive. intros H%Z.eqb_eq.
  change (Z.lor (Z.lor Mode.INVALID Mode.UNOWNED) Mode.SHARED) with state_mask in H.
  rewrite !(state_bits m 0) by (done || lia). done.
Qed.

(** The page check of [configure]. *)
Lemma configure_check t b r :
  wf2 t → in_u 64 b → aligned 4096 b →
  get_mode (SG := @Stage2 (aarch64 p)) t (ipa_init b) (ipa_init (b +w PAGE_SIZE)) = Done r →
  ∀ m, r = Ok m → Mode.valid_owned_exclusive m = true →
  page_range b ∧ b +w PAGE_SIZE = b + 4096 ∧ stage2_mode m ∧
  ∀ x, b ≤ x < b + 4096 → vm_mode p t x = norm m ∧
    owner (vm_mode p t x) = true ∧ exclusive (vm_mode p t x) = true.
Proof.
  intros Hwf Hb Hal Hg m -> Hv. rewrite PAGE_SIZE_val in *.
  assert (He : aligned 4096 (b +w 4096)).
  { unfold aligned, wadd, wrap. apply aligned_exists in Hal as [q ->]; [|lia].
    change (2 ^ 64) with (2 ^ 52 * 4096).
    replace (q * 4096 + 4096) with ((q + 1) * 4096) by lia. rewrite Zmult_mod_distr_r. apply Z_mod_mult. }
  destruct (get_mode_vm t b (b +w 4096) _ Hwf Hb (wrap_range 64 _ ltac:(lia)) Hal He Hg m eq_refl) as (Hr & Hm & Hx).
  assert (Heq : b +w 4096 = b + 4096).
  { destruct Hr as (_ & _ & Hbe & Hend). pose proof vm_end_48. apply wadd_small. lia. }
  rewrite Heq in *. split_and!; [done..|]. intros x Hxr. rewrite Hx by done.
  apply valid_owned_exclusive_bits in Hv as (H4 & H5 & H6).
  by rewrite owner_norm, exclusive_norm, H4, H5, H6.
Qed.

(** What [configure] checks of the pages before it changes anything. *)
Definition configurable (i : VmInner) (b1 b2 : Z) : Prop :=
  page_range b1 ∧ page_range b2 ∧ b1 ≠ b2 ∧ is_configured i = false ∧
  ∀ x, b1 ≤ x < b1 + 4096 ∨ b2 ≤ x < b2 + 4096 →
    owner (vm_mode p (ptable i) x) = true ∧ exclusive (vm_mode p (ptable i) x) = true.
Lemma configure_spec i b1 b2 hp st ok i' hp' st' :
  wf2 (ptable i) → wf1 hp → st_inv st → in_u 64 b1 → in_u 64 b2 →
  configure i (ipa_init b1) (ipa_init b2) hp st = Done (ok, i', hp', st') →
  configured ok b1 b2 i hp st i' hp' st' ∧ (ok = true ∨ hp' ≠ hp → configurable i b1 b2).
Proof.
  intros Hwf Hh Hst Hu1 Hu2 H. unfold configure in H. cbv zeta in H.
  cbn [ipa_addr ipa_init ipa pa_from_ipa pa_init pa_addr pa] in H. unfold pa_add, ipa_add, pa_from_ipa in H.
  cbn [ipa_addr ipa_init ipa pa_init pa_addr pa] in H.
  assert (Hno : Done (false, i, hp, st) = Done (ok, i', hp', st') →
    configured ok b1 b2 i hp st i' hp' st' ∧ (ok = true ∨ hp' ≠ hp → configurable i b1 b2)).
  { intros [= <- <- <- <-]. split; [by apply configured_none|]. by intros [?|?]. }
  destruct (is_aligned b1 PAGE_SIZE) eqn:Ha1; [|by apply Hno].
  destruct (is_aligned b2 PAGE_SIZE) eqn:Ha2; [|by apply Hno]. cbn [negb orb] in H.
  apply is_aligned_page in Ha1. apply is_aligned_page in Ha2.
  destruct (Z.eqb_spec b1 b2) as [|Hne]; [by apply Hno|]. destruct (is_configured i) eqn:Hcf; [by apply Hno|].
  apply bind_Done_inv in H as (r1 & Hg1 & H). destruct r1 as [m1|]; [|by apply Hno].
  destruct (Mode.valid_owned_exclusive m1) eqn:Hv1; [|by apply Hno].
  destruct (configure_check _ b1 _ Hwf Hu1 Ha1 Hg1 m1 eq_refl Hv1) as (Hr1 & Heq1 & Hm1 & Hx1).
  destruct (bf_contains m1 _); [|by apply Hno]. cbn [andb negb] in H.
  apply bind_Done_inv in H as (r2 & Hg2 & H). destruct r2 as [m2|]; [|by apply Hno].
  destruct (Mode.valid_owned_exclusive m2) eqn:Hv2; [|by apply Hno].
  destruct (configure_check _ b2 _ Hwf Hu2 Ha2 Hg2 m2 eq_refl Hv2) as (Hr2 & Heq2 & Hm2 & Hx2).
  destruct (bf_contains m2 _); [|by apply Hno]. cbn [andb negb] in H.
  rewrite Heq1, Heq2 in H. split.
  - refine (configure_pages_spec i b1 b2 m1 m2 hp st ok i' hp' st' Hwf Hh Hst Hr1 Hr2 Hne Hm1 Hm2 _ _ H);
      intros x Hx; [by apply Hx1|by apply Hx2].
  - intros _. split_and!; [done..|]. intros x [Hx|Hx]; [by apply Hx1|by apply Hx2].
Qed.
End transfer.
