(* ===== verification/Isolation.v ===== *)
(** * Isolation of the VMs

    The hypervisor as a transition system: every hypercall, made by any vCPU with any
    arguments, and any writes of the guests to memory.  The invariant: all page tables
    are well formed, every page of the pool is in exactly one place, and for every
    page of memory at most one VM owns it, at most one borrows it, and exclusive access
    is exclusive.  It holds in every reachable state. *)
From S2P Require Import Prelude Addr Mode Arch ArchAarch64 Mpool Mm MmSpec MmMap MmTable PageTables MemoryManager.
From S2P Require Import Stage2Modes Abi ArchCpu Interrupts Cpu Vm Memory Spci Hypervisor Api Frames Ownership.
From S2P Require Import Sharing.

(** ** Permutations by counting *)
Lemma perm_count (l l' : list Z) : l ≡ₚ l' ↔ ∀ x, count_occ Z.eq_dec l x = count_occ Z.eq_dec l' x.
Proof. apply (Permutation_count_occ Z.eq_dec). Qed.

Lemma mjoin_insert {X} (g : X → list Z) l i a a' x :
  l !! i = Some a →
  (count_occ Z.eq_dec (mjoin (g <$> <[i := a']> l)) x + count_occ Z.eq_dec (g a) x
   = count_occ Z.eq_dec (mjoin (g <$> l)) x + count_occ Z.eq_dec (g a') x)%nat.
Proof.
  intros Hi. pose proof (lookup_lt_Some _ _ _ Hi). rewrite insert_take_drop by done.
  rewrite <-(take_drop_middle l i a Hi) at 3. rewrite !fmap_app, !join_app, !fmap_cons.
  cbn [mjoin list_join]. rewrite !count_occ_app. lia.
Qed.

(** ** The invariant *)

(** What the page-table part of the state is: the ids and tables of the VMs. *)
Definition vtab (vm : Vm) : Z * PageTable := (vm_id vm, ptable (vm_inner vm)).
Definition vtabs (hv : Hypervisor) : list (Z * PageTable) := vtab <$> hv_vms hv.
Lemma vtab_quiet : quiet vtab.
Proof. by split. Qed.
Lemma vtab_quiet_vcpu : quiet_vcpu vtab.
Proof. done. Qed.
Lemma vtab_quiet_mailbox : quiet_mailbox vtab.
Proof. done. Qed.
Lemma vtab_quiet_log : quiet_log vtab.
Proof. done. Qed.
#[export] Hint Resolve vtab_quiet vtab_quiet_vcpu vtab_quiet_mailbox vtab_quiet_log : hfo2.

(** ** The transition system *)
Inductive hv_call :=
| CPreempt | CWaitForInterrupt | CVcpuOff | CYield | CWakeUp (target : vref) | CAbort
| CRegsStateSaved | CVcpuRun (id idx : Z) | CVmConfigure (send recv : Z)
| CMsgSend (attributes : Z) | CMsgRecv (attributes : Z) | CMailboxWritableGet | CMailboxWaiterGet (id : Z)
| CMailboxClear | CInterruptEnable (intid : Z) (on : bool) | CInterruptGet
| CInterruptInject (id idx intid : Z) | CShareMemory (id addr size share : Z) | CDebugLog (c : Z).

(** Values a VM passes in 64-bit registers. *)
Definition call_typed (c : hv_call) : Prop :=
  match c with
  | CVmConfigure send recv => in_u 64 send ∧ in_u 64 recv
  | CShareMemory id addr size share => in_u 64 addr
  | _ => True
  end.

Section calls.
Context (p : Aarch64.pa_bits) {RD : ReduceCrate} (MESSAGE_BUFFER : Z).
#[local] Hint Extern 0 ArchMM => exact (aarch64 p) : typeclass_instances.
#[local] Hint Extern 0 (ArchLaws _) => exact (aarch64_laws p) : typeclass_instances.

(** The state after a call; [None] when the CPU spins forever. *)
Definition hv_exec (hw : Hw) (now1 now2 now3 : Z) (hv : Hypervisor) (current : vref) (call : hv_call)
    : exec (option Hypervisor) :=
  match call with
  | CPreempt => '(_, hv) ← api_preempt hw now1 hv current; Done (Some hv)
  | CWaitForInterrupt => '(_, hv) ← api_wait_for_interrupt hw now1 hv current; Done (Some hv)
  | CVcpuOff => '(_, hv, _) ← api_vcpu_off hw now1 hv current; Done (Some hv)
  | CYield => '(_, _, hv) ← api_spci_yield hw now1 hv current; Done (Some hv)
  | CWakeUp t => '(_, hv) ← api_wake_up hw now1 hv current t; Done (Some hv)
  | CAbort => r ← api_abort hw now1 hv current;
      Done (match r with Some (_, hv) => Some hv | None => None end)
  | CRegsStateSaved => hv ← api_regs_state_saved hv current; Done (Some hv)
  | CVcpuRun id idx => '(_, _, hv) ← api_vcpu_run hw now1 now2 now3 hv id idx current; Done (Some hv)
  | CVmConfigure s r =>
      '(_, _, hv) ← api_vm_configure hw now1 hv (ipa_init s) (ipa_init r) current; Done (Some hv)
  | CMsgSend a => '(_, _, hv) ← api_spci_msg_send MESSAGE_BUFFER hw now1 hv a current; Done (Some hv)
  | CMsgRecv a => '(_, _, hv) ← api_spci_msg_recv hw now1 hv a current; Done (Some hv)
  | CMailboxWritableGet => '(_, hv) ← api_mailbox_writable_get hv current; Done (Some hv)
  | CMailboxWaiterGet id => '(_, hv) ← api_mailbox_waiter_get hv id current; Done (Some hv)
  | CMailboxClear => '(_, _, hv) ← api_mailbox_clear hw now1 hv current; Done (Some hv)
  | CInterruptEnable i on => '(_, hv) ← api_interrupt_enable hv i on current; Done (Some hv)
  | CInterruptGet => '(_, hv) ← api_interrupt_get hv current; Done (Some hv)
  | CInterruptInject id idx i =>
      '(_, _, hv) ← api_interrupt_inject hw now1 hv id idx i current; Done (Some hv)
  | CShareMemory id a n s => '(_, hv) ← api_share_memory hv id (ipa_init a) n s current; Done (Some hv)
  | CDebugLog c => '(_, _, hv) ← api_debug_log hv c current; Done (Some hv)
  end.

(** Calls that write to the log, lock or unlock a vCPU, change the lists of a mailbox, or a page table. *)
Definition log_call (call : hv_call) : bool := match call with CDebugLog _ => true | _ => false end.
Definition vcpu_call (call : hv_call) : bool := match call with CVcpuRun _ _ | CRegsStateSaved => true | _ => false end.
Definition list_call (call : hv_call) : bool :=
  match call with CMailboxWritableGet | CMailboxWaiterGet _ => true | _ => false end.
Definition memory_call (call : hv_call) : bool :=
  match call with CVmConfigure _ _ | CMsgSend _ | CShareMemory _ _ _ _ => true | _ => false end.

(** What the other calls leave alone. *)
Lemma exec_frame {X} (P : Vm → X) L hw now1 now2 now3 hv c call hv' :
  quiet P → (log_call call = true → quiet_log P) → (vcpu_call call = true → quiet_vcpu P) → (list_call call = true → quiet_mailbox P ∧ L = false) →
  memory_call call = false → hv_exec hw now1 now2 now3 hv c call = Done (Some hv') → frame L P hv hv'.
Proof.
  intros Q QL QV QM Hm H. destruct call; try done; cbn [hv_exec log_call vcpu_call list_call] in *; clear Hm.
  - apply bind_Done_inv in H as ([??] & H & [= <-]). by eapply (switch_to_primary_frame P Q).
  - apply bind_Done_inv in H as ([??] & H & [= <-]). by eapply (switch_to_primary_frame P Q).
  - apply bind_Done_inv in H as ([[??]?] & H & [= <-]). apply bind_Done_inv in H as ([??] & H & [= <- <- <-]).
    by eapply (switch_to_primary_frame P Q).
  - apply bind_Done_inv in H as ([[??]?] & H & [= <-]). apply bind_Done_inv in H as ([??] & H & [= <- <- <-]).
    unfold spci_yield in H. apply bind_Done_inv in H as (vm & _ & H). destruct (_ =? _); [by simplify_eq|].
    apply bind_Done_inv in H as ([??] & H & [= <- <-]). by eapply (switch_to_primary_frame P Q).
  - apply bind_Done_inv in H as ([??] & H & [= <-]). unfold api_wake_up, wake_up in H.
    apply bind_Done_inv in H as (vm & _ & H). by eapply (switch_to_primary_frame P Q).
  - apply bind_Done_inv in H as (r & H & Hr). destruct r as [[??]|]; [|done]. injection Hr as <-.
    unfold api_abort, abort in H. apply bind_Done_inv in H as (vm & _ & H). destruct (_ =? _); [done|].
    apply bind_Done_inv in H as ([??] & H & [= <- <-]). apply (switch_to_primary_frame P Q L) in H.
    etrans; [|exact H]. apply frame_upd_vm. intros ? _. apply (q_abort _ Q).
  - apply bind_Done_inv in H as (h & H & [= <-]). by eapply (regs_state_saved_frame P); [apply QV|].
  - apply bind_Done_inv in H as ([[??]?] & H & [= <-]). apply bind_Done_inv in H as ([r ?] & H & Hr).
    apply (vcpu_run_frame P Q (QV eq_refl) L) in H. by destruct r; simplify_eq.
  - apply bind_Done_inv in H as ([[??]?] & H & [= <-]). apply bind_Done_inv in H as ([[??]?] & H & [= <- <- <-]).
    by eapply (spci_msg_recv_frame P Q).
  - apply bind_Done_inv in H as ([??] & H & [= <-]). apply bind_Done_inv in H as ([??] & H & [= <- <-]).
    destruct (QM eq_refl) as [? ->]. by eapply mailbox_writable_get_frame.
  - apply bind_Done_inv in H as ([??] & H & [= <-]). apply bind_Done_inv in H as ([??] & H & [= <- <-]).
    destruct (QM eq_refl) as [? ->]. by eapply mailbox_waiter_get_frame.
  - apply bind_Done_inv in H as ([[??]?] & H & [= <-]). by eapply (mailbox_clear_frame P Q).
  - apply bind_Done_inv in H as ([??] & H & [= <-]). apply bind_Done_inv in H as ([??] & H & [= <- <-]).
    unfold interrupt_enable in H. apply bind_Done_inv in H as (cur & _ & H). destruct (enable _ _ _).
    injection H as <- <-. by apply frame_vc_ints.
  - apply bind_Done_inv in H as ([??] & H & [= <-]).
    unfold api_interrupt_get, interrupt_get in H. apply bind_Done_inv in H as (cur & _ & H). destruct (get _).
    injection H as <- <-. by apply frame_vc_ints.
  - apply bind_Done_inv in H as ([[??]?] & H & [= <-]). by eapply (interrupt_inject_frame P Q).
  - apply bind_Done_inv in H as ([[??]?] & H & [= <-]). apply bind_Done_inv in H as ([??] & H & [= <- <- <-]).
    by eapply (debug_log_frame P); [apply QL|].
Qed.

Inductive hv_step : Hypervisor → Hypervisor → Prop :=
| step_call hw now1 now2 now3 hv current call hv' :
    call_typed call → hv_exec hw now1 now2 now3 hv current call = Done (Some hv') → hv_step hv hv'
| step_guest hv mem : mem_ok mem → hv_step hv (set_mem mem hv).

(** What each VM may do with the page of an address. *)
Definition hv_view (hv : Hypervisor) (x : Z) (v : nat) : option Z :=
  vtabs hv !! v ≫= λ '(_, t), vm_mode p t x.
Definition isolated (hv : Hypervisor) : Prop := ∀ x, 0 ≤ x < vm_end p → page_isolated (hv_view hv x).

(** Sound tables and pool; VM ids are given in order. *)
Definition hv_wf (hv : Hypervisor) : Prop :=
  (∀ v id t, vtabs hv !! v = Some (id, t) →
     id = Z.of_nat v + 1 ∧ wf_ptable (SG := @Stage2 (aarch64 p)) t) ∧
  wf_ptable (SG := @Stage1 (aarch64 p)) (hv_ptable hv) ∧ st_inv (hv_mm hv) ∧ mem_ok (hv_mem hv).

(** The pages of all page tables and of the pool. *)
Definition hv_pages (hv : Hypervisor) : list Z :=
  mjoin ((λ '(_, t), ptable_pages (SG := @Stage2 (aarch64 p)) t) <$> vtabs hv) ++
  ptable_pages (SG := @Stage1 (aarch64 p)) (hv_ptable hv) ++ mpool_pages (st_pool (hv_mm hv)).

(** No VM owns the page, such as the pages of the hypervisor and the mailboxes. *)
Definition unowned (hv : Hypervisor) (x : Z) : Prop := ∀ v, owner (hv_view hv x v) = false.

(** What every call keeps: a page that nobody owns is passed on to nobody. *)
Definition kept_safe (hv hv' : Hypervisor) : Prop :=
  hv_wf hv' ∧ isolated hv' ∧ hv_pages hv ≡ₚ hv_pages hv' ∧
  ∀ x, 0 ≤ x < vm_end p → unowned hv x → ∀ v, hv_view hv' x v = hv_view hv x v.
Definition preserved (hv hv' : Hypervisor) : Prop := hv_wf hv → isolated hv → kept_safe hv hv'.
Lemma kept_unowned hv hv' x : kept_safe hv hv' → 0 ≤ x < vm_end p → unowned hv x → unowned hv' x.
Proof. intros (_ & _ & _ & H) Hx Hu v. rewrite H by done. apply Hu. Qed.

(** The views of a page stay, or somebody owned it. *)
Lemma views_safe hv hv' :
  isolated hv →
  (∀ x, 0 ≤ x < vm_end p → (∀ v, hv_view hv' x v = hv_view hv x v) ∨
     page_isolated (hv_view hv' x) ∧ ∃ v, owner (hv_view hv x v) = true) →
  isolated hv' ∧ ∀ x, 0 ≤ x < vm_end p → unowned hv x → ∀ v, hv_view hv' x v = hv_view hv x v.
Proof.
  intros Hiso Hx. split; intros x Hxr.
  - destruct (Hx x Hxr) as [Hs|[? _]]; [|done]. destruct (Hiso x Hxr) as [H1 H2 H3].
    split; intros i j; rewrite !Hs; auto.
  - intros Hu. destruct (Hx x Hxr) as [Hs|(_ & v & Hv)]; [done|]. specialize (Hu v). congruence.
Qed.
Lemma pair_closed_claim f t :
  pair_closed f t → owner f = true ∨ owner t = true.
Proof. unfold pair_closed, borrower. tauto. Qed.

Lemma frame_preserved hv hv' : frame false vtab hv hv' → preserved hv hv'.
Proof.
  intros [Hmm Hhp _ Hvms _ Hmem] (Hw & Hh & Hst & Hm) Hiso. unfold preserved, hv_wf, isolated, hv_pages, hv_view.
  unfold kept_safe, hv_wf, isolated, hv_pages, hv_view, vtabs. rewrite Hmm, Hhp, Hvms. split_and!; auto.
Qed.
Lemma preserved_trans h1 h2 h3 : preserved h1 h2 → preserved h2 h3 → preserved h1 h3.
Proof.
  intros H12 H23 Hw Hi. destruct (H12 Hw Hi) as (Hw2&Hi2&Hp2&Hs2). destruct (H23 Hw2 Hi2) as (?&?&?&?).
  split_and!; [apply H..|done|by rewrite Hp2|]. intros x Hx Hu v. rewrite <-(Hs2 x Hx Hu v). apply H2; [done|].
  intros w. rewrite Hs2 by done. apply Hu.
Qed.

(** ** Exchanges between two VMs *)
Lemma exchange_preserved hv hv' from to idf ft idt tot ok b e fm tm ft' tot' hp' st' :
  hv_wf hv → isolated hv → vtabs hv !! from = Some (idf, ft) → vtabs hv !! to = Some (idt, tot) → from ≠ to →
  transferred p ok b e fm tm ft tot (hv_ptable hv) (hv_mm hv) ft' tot' hp' st' →
  (ok = true → pair_ok (norm fm) (norm tm) ∧ ∀ x, b ≤ x < e → pair_closed (vm_mode p ft x) (vm_mode p tot x)) →
  vtabs hv' = <[to := (idt, tot')]> (<[from := (idf, ft')]> (vtabs hv)) →
  hv_ptable hv' = hp' → hv_mm hv' = st' → mem_ok (hv_mem hv') →
  kept_safe hv hv'.
Proof.
  intros (Hw & Hh & Hst & Hmem) Hiso Hf Ht Hne ((Hwf & Hwt & Hwh & Hst') & Hpg & Hx) Hok Hv' Hhp Hmm Hm'.
  pose proof (lookup_lt_Some _ _ _ Hf) as Hlf. pose proof (lookup_lt_Some _ _ _ Ht) as Hlt.
  assert (Hlk : ∀ v, vtabs hv' !! v = if decide (v = to) then Some (idt, tot')
    else if decide (v = from) then Some (idf, ft') else vtabs hv !! v).
  { intros v. rewrite Hv'. destruct (decide (v = to)) as [->|Hvt].
    - apply list_lookup_insert_eq. by rewrite length_insert.
    - rewrite list_lookup_insert_ne by done. destruct (decide (v = from)) as [->|]; [by apply list_lookup_insert_eq|].
      by rewrite list_lookup_insert_ne. }
  destruct (views_safe hv hv') as [Hiso' Hsec]; [done| |split_and!; [|apply Hiso'| |apply Hsec]].
  2:{ unfold hv_wf. rewrite Hhp, Hmm. split_and!; [|done..]. intros v id t Hvt. rewrite Hlk in Hvt.
    destruct (decide (v = to)) as [->|]; [injection Hvt as <- <-; by split; [apply (Hw to idt tot)|]|].
    destruct (decide (v = from)) as [->|]; [injection Hvt as <- <-; by split; [apply (Hw from idf ft)|]|eauto]. }
  - intros x Hxr. specialize (Hiso x Hxr). destruct (Hx x Hxr) as [Hxf Hxt].
    assert (Hvf : hv_view hv' x from = new_mode ok b e fm (vm_mode p ft) x).
    { unfold hv_view. rewrite Hlk, decide_False, decide_True by done. exact Hxf. }
    assert (Hvt : hv_view hv' x to = new_mode ok b e tm (vm_mode p tot) x).
    { unfold hv_view. rewrite Hlk, decide_True by done. exact Hxt. }
    assert (Hvo : ∀ j, j ≠ from → j ≠ to → hv_view hv' x j = hv_view hv x j).
    { intros j ??. unfold hv_view. by rewrite Hlk, !decide_False. }
    assert (Hof : hv_view hv x from = vm_mode p ft x) by (unfold hv_view; by rewrite Hf).
    assert (Hot : hv_view hv x to = vm_mode p tot x) by (unfold hv_view; by rewrite Ht).
    unfold new_mode in *. destruct (ok && bool_decide (b ≤ x < e)) eqn:Hc.
    + apply andb_prop in Hc as [-> Hr%bool_decide_eq_true]. destruct (Hok eq_refl) as [Hp Hcl].
      right. split; [|destruct (pair_closed_claim _ _ (Hcl x Hr)); [exists from; by rewrite Hof|exists to; by rewrite Hot]].
      apply (page_isolated_exchange (hv_view hv x) (hv_view hv' x) from to); [done..| | |done].
      * rewrite Hof, Hot. auto.
      * by rewrite Hvf, Hvt.
    + left. intros j. destruct (decide (j = from)) as [->|]; [by rewrite Hvf, Hof|].
      destruct (decide (j = to)) as [->|]; [by rewrite Hvt, Hot|auto].
  - unfold hv_pages. rewrite Hhp, Hmm, Hv'. apply perm_count. intros x.
    unfold pages3 in Hpg. rewrite perm_count in Hpg. specialize (Hpg x). rewrite !count_occ_app in *.
    set (g := λ '(_, t), ptable_pages t) in *.
    pose proof (mjoin_insert g (vtabs hv) from (idf, ft) (idf, ft') x Hf) as H1.
    pose proof (mjoin_insert g (<[from := (idf, ft')]> (vtabs hv)) to (idt, tot) (idt, tot') x) as H2.
    rewrite list_lookup_insert_ne in H2 by done. specialize (H2 Ht). cbn in H1, H2. unfold g in *. lia.
Qed.

Lemma vtabs_upd_inner v f hv vm :
  hv_vms hv !! v = Some vm →
  vtabs (upd_vm v (upd_vm_inner f) hv) = <[v := (vm_id vm, ptable (f (vm_inner vm)))]> (vtabs hv).
Proof.
  intros Hv. unfold vtabs, upd_vm. cbn [hv_vms set_vms]. apply list_eq. intros i.
  rewrite list_lookup_fmap. destruct (decide (i = v)) as [->|Hne].
  - rewrite list_lookup_alter_eq, Hv, list_lookup_insert_eq; [done|].
    rewrite length_fmap. by eapply lookup_lt_Some.
  - by rewrite list_lookup_alter_ne, list_lookup_insert_ne, list_lookup_fmap.
Qed.
Lemma vtabs_lookup hv v vm : hv_vms hv !! v = Some vm → vtabs hv !! v = Some (vm_id vm, ptable (vm_inner vm)).
Proof. intros Hv. unfold vtabs. by rewrite list_lookup_fmap, Hv. Qed.

(** Distinct ids are distinct VMs. *)
Lemma get_vm_spec hv id v : hv_wf hv → get_vm (hv_vms hv) id = Done (Some v) →
  id = Z.of_nat v + 1 ∧ is_Some (hv_vms hv !! v).
Proof.
  intros Hw H. unfold get_vm, get_vm_index in H. apply bind_Done_inv in H as (i & Hi & H).
  unfold assert_then in Hi. change HF_VM_ID_OFFSET with 1 in *. destruct (Z.leb_spec 1 id); [|done].
  injection Hi as <-. destruct (Nat.ltb_spec (Z.to_nat (id - 1)) (length (hv_vms hv))); [|done].
  injection H as <-. split; [lia|]. by apply lookup_lt_is_Some_2.
Qed.
Lemma vm_id_spec hv v vm : hv_wf hv → hv_vms hv !! v = Some vm → vm_id vm = Z.of_nat v + 1.
Proof. intros (Hw & _) Hv. by destruct (Hw v _ _ (vtabs_lookup _ _ _ Hv)). Qed.
Lemma vm_wf_spec hv v vm :
  hv_wf hv → hv_vms hv !! v = Some vm → wf_ptable (SG := @Stage2 (aarch64 p)) (ptable (vm_inner vm)).
Proof. intros (Hw & _) Hv. by destruct (Hw v _ _ (vtabs_lookup _ _ _ Hv)). Qed.

Lemma preserved_mm st hv : st_inv st → mpool_pages (st_pool st) ≡ₚ mpool_pages (st_pool (hv_mm hv)) → preserved hv (set_mm st hv).
Proof.
  intros Hst Hp (Hw & Hh & _ & Hm) Hiso. split_and!; [done..|split_and!; done|done| |done]. unfold hv_pages. cbn. by rewrite Hp.
Qed.

(** What a successful or failed [share_memory] did, in terms of the tables. *)
Lemma share_memory_inv hv id addr size share c ok hv' :
  hv_wf hv → in_u 64 addr →
  share_memory hv id (ipa_init addr) size share c = Done (ok, hv') →
  (ok = false ∧ (hv' = hv ∨ hv' = set_mm (drop_local (new_local (hv_mm hv))) hv)) ∨
  ∃ to from_vm to_vm e orig ft' tot' hp' mem' st',
    hv_vms hv !! c.1 = Some from_vm ∧ hv_vms hv !! to = Some to_vm ∧ c.1 ≠ to ∧ id = Z.of_nat to + 1 ∧
    e = addr +w size ∧ vm_range p addr e ∧ stage2_mode orig ∧
    (∀ x, addr ≤ x < e → vm_mode p (ptable (vm_inner from_vm)) x = norm orig ∧
       pair_closed (vm_mode p (ptable (vm_inner from_vm)) x) (vm_mode p (ptable (vm_inner to_vm)) x)) ∧
    transferred p ok addr e (share_modes share).1 (share_modes share).2 (ptable (vm_inner from_vm))
      (ptable (vm_inner to_vm)) (hv_ptable hv) (hv_mm hv) ft' tot' hp' (drop_local st') ∧
    (∀ x, mem' x = hv_mem hv x ∨ addr ≤ x < e ∧ mem' x = 0) ∧ (ok = true → ∀ x, addr ≤ x < e → mem' x = 0) ∧
    hv' = set_mm (drop_local st') (set_mem mem' (set_hv_ptable hp'
            (upd_vm to (upd_vm_inner (with_ptable tot')) (upd_vm c.1 (upd_vm_inner (with_ptable ft')) hv)))).
Proof.
  intros Hwf Hu H. pose proof Hwf as (_ & Hh & Hst & Hm). unfold share_memory in H.
  apply bind_Done_inv in H as (from_vm & Hf%vm_of_Some & H).
  destruct (Z.eqb_spec id (vm_id from_vm)) as [|Hid]; [injection H as <- <-; left; split; [done|by left]|].
  apply bind_Done_inv in H as (to & Hto & H). destruct to as [to|]; [|injection H as <- <-; left; split; [done|by left]].
  apply bind_Done_inv in H as (to_vm & Ht%vm_of_Some & H). cbv zeta in H.
  cbn [ipa_addr ipa_init ipa] in H. unfold ipa_add in H. cbn [ipa_addr ipa_init ipa] in H.
  destruct (is_aligned addr PAGE_SIZE) eqn:Ha1; [|injection H as <- <-; left; split; [done|by left]].
  destruct (is_aligned (addr +w size) PAGE_SIZE) eqn:Ha2; [|injection H as <- <-; left; split; [done|by left]].
  apply is_aligned_page in Ha1. apply is_aligned_page in Ha2. cbn [negb orb] in H.
  pose proof (share_modes_ok share) as Hmodes. destruct (share_modes share) as [fm tm] eqn:Hsm.
  destruct Hmodes as (Hfm & Htm & _).
  apply bind_Done_inv in H as (r & Hall & H).
  pose proof (vm_wf_spec _ _ _ Hwf Hf) as Hwf2. pose proof (vm_wf_spec _ _ _ Hwf Ht) as Hwt2.
  assert (He : in_u 64 (addr +w size)) by (by apply wrap_range).
  pose proof (share_allowed_spec p _ _ addr (addr +w size) share r Hwf2 Hwt2 Hu He Ha1 Ha2 Hall) as Hs.
  destruct r as [orig|]; [|injection H as <- <-; left; split; [done|by right]].
  destruct (Hs orig eq_refl) as (Hr & Ho & Hx & Hc). clear Hs. right.
  apply bind_Done_inv in H as ([[[[[ok1 ft'] tot'] hp'] mem'] st'] & Htr & [= <- <-]).
  destruct (get_vm_spec hv id to Hwf Hto) as [Hidv _]. pose proof (vm_id_spec _ _ _ Hwf Hf) as Hidf.
  assert (Hs3 : sound3 p (ptable (vm_inner from_vm)) (ptable (vm_inner to_vm)) (hv_ptable hv) (hv_mm hv)) by done.
  destruct (sound3_local p _ _ _ _ Hs3) as [Hsl _].
  change (pa_from_ipa (ipa_init addr)) with (pa_init addr) in Htr.
  change (pa_from_ipa (ipa_init (addr +w size))) with (pa_init (addr +w size)) in Htr.
  destruct (share_transfer_spec p _ _ _ _ addr (addr +w size) orig fm tm _ _ _ _ _ _ _ Hsl Hr Ho Hfm Htm Hx Htr)
    as (Htrans & Hmem1 & Hmem2).
  exists to, from_vm, to_vm, (addr +w size), orig, ft', tot', hp', mem', st'. split_and!; auto; [congruence|].
  by apply transferred_drop.
Qed.

Lemma share_memory_preserved hv id addr size share c ok hv' :
  in_u 64 addr → share_memory hv id (ipa_init addr) size share c = Done (ok, hv') → preserved hv hv'.
Proof.
  intros Hu H Hwf Hiso.
  destruct (share_memory_inv _ _ _ _ _ _ _ _ Hwf Hu H)
    as [[-> [->| ->]]|(to & fv & tv & e & orig & ft' & tot' & hp' & mem' & st' & Hf & Ht & Hne & Hid & He & Hr & Ho & Hx & Htr & Hm1 & Hm2 & ->)].
  - done.
  - destruct Hwf as (Hw & Hh & Hst & Hm). destruct (new_local_inv _ Hst) as [Hl Hpl]. destruct (drop_local_inv _ Hl) as [Hd Hpd].
    apply preserved_mm; [done|by rewrite Hpd, Hpl|done|done].
  - pose proof Hwf as (_ & _ & _ & Hm). pose proof (share_modes_ok share) as Hmo.
    destruct (share_modes share) as [fm tm] eqn:Hsm. destruct Hmo as (_ & _ & Hpo).
    eapply (exchange_preserved hv _ c.1 to (vm_id fv) _ (vm_id tv)); [done|done|by apply vtabs_lookup|by apply vtabs_lookup|done|exact Htr| | |done|done|].
    + intros _. split; [done|]. intros x Hxr. by apply Hx.
    + change (vtabs (set_mm _ (set_mem _ (set_hv_ptable _ ?h)))) with (vtabs h).
      rewrite (vtabs_upd_inner to _ _ tv), (vtabs_upd_inner c.1 _ _ fv) by (done || (cbn; by rewrite list_lookup_alter_ne)). done.
    + cbn. intros x. destruct (Hm1 x) as [->|[_ ->]]; [apply Hm|done].
Qed.

(** ** Changes to one VM *)
Lemma single_preserved hv hv' v id t t' hp' st' :
  hv_wf hv → isolated hv → vtabs hv !! v = Some (id, t) →
  wf_ptable (SG := @Stage2 (aarch64 p)) t' → wf_ptable (SG := @Stage1 (aarch64 p)) hp' → st_inv st' →
  pages_hp p t (hv_ptable hv) (hv_mm hv) ≡ₚ pages_hp p t' hp' st' →
  (∀ x, 0 ≤ x < vm_end p → vm_mode p t' x = vm_mode p t x ∨
     owner (vm_mode p t x) = true ∧ exclusive (vm_mode p t x) = true) →
  vtabs hv' = <[v := (id, t')]> (vtabs hv) → hv_ptable hv' = hp' → hv_mm hv' = st' → mem_ok (hv_mem hv') →
  kept_safe hv hv'.
Proof.
  intros (Hw & Hh & Hst & Hmem) Hiso Hv Hwt Hwh Hst' Hpg Hx Hv' Hhp Hmm Hm'.
  pose proof (lookup_lt_Some _ _ _ Hv) as Hl.
  assert (Hlk : ∀ w, vtabs hv' !! w = if decide (w = v) then Some (id, t') else vtabs hv !! w).
  { intros w. rewrite Hv'. destruct (decide (w = v)) as [->|]; [by apply list_lookup_insert_eq|].
    by rewrite list_lookup_insert_ne. }
  destruct (views_safe hv hv') as [Hiso' Hsec]; [done| |split_and!; [|apply Hiso'| |apply Hsec]].
  2:{ unfold hv_wf. rewrite Hhp, Hmm. split_and!; [|done..]. intros w id' tw Hvt. rewrite Hlk in Hvt.
    destruct (decide (w = v)) as [->|]; [injection Hvt as <- <-; by split; [apply (Hw v id t)|]|eauto]. }
  - intros x Hxr. specialize (Hiso x Hxr).
    assert (Hvv : hv_view hv' x v = vm_mode p t' x) by (unfold hv_view; by rewrite Hlk, decide_True).
    assert (Hov : hv_view hv x v = vm_mode p t x) by (unfold hv_view; by rewrite Hv).
    assert (Hvo : ∀ j, j ≠ v → hv_view hv' x j = hv_view hv x j).
    { intros j ?. unfold hv_view. by rewrite Hlk, decide_False. }
    destruct (Hx x Hxr) as [Hs|[Ho He]].
    + left. intros j. destruct (decide (j = v)) as [->|]; [by rewrite Hvv, Hov|auto].
    + right. split; [|exists v; rewrite Hov; auto].
      apply (page_isolated_single (hv_view hv x) (hv_view hv' x) v); [done|by rewrite Hov..|done].
  - unfold hv_pages. rewrite Hhp, Hmm, Hv'. apply perm_count. intros x.
    unfold pages_hp in Hpg. rewrite perm_count in Hpg. specialize (Hpg x). rewrite !count_occ_app in *.
    set (g := λ '(_, t), ptable_pages t) in *.
    pose proof (mjoin_insert g (vtabs hv) v (id, t) (id, t') x Hv) as H1. cbn in H1. unfold g in *. lia.
Qed.

Lemma configured_safe hv v vm b1 b2 ok i hp st :
  hv_wf hv → isolated hv → hv_vms hv !! v = Some vm → configured p ok b1 b2 (vm_inner vm) (hv_ptable hv) (hv_mm hv) i hp st →
  (ok = true ∨ hp ≠ hv_ptable hv → configurable p (vm_inner vm) b1 b2) →
  kept_safe hv (set_mm st (set_hv_ptable hp (set_inner v i hv))).
Proof.
  intros Hwf Hiso Hv (Hi & Hw2 & Hw1 & Hs & Hpg & Hx & _) Hok. pose proof Hwf as (_ & _ & _ & Hm).
  eapply (single_preserved hv _ v (vm_id vm) (ptable (vm_inner vm)) (ptable i));
    [done|done|by apply vtabs_lookup|exact Hw2|exact Hw1|exact Hs|exact Hpg| | |done|done|done].
  - intros x Hxr. rewrite Hx by done. destruct ok; [|by left]. unfold mailbox_modes.
    destruct (Hok (or_introl eq_refl)) as (_ & _ & _ & _ & Hown). case_bool_decide; [right; apply Hown; auto|].
    case_bool_decide; [right; apply Hown; auto|by left].
  - change (vtabs (set_mm _ (set_hv_ptable _ ?h))) with (vtabs h). unfold set_inner.
    by rewrite (vtabs_upd_inner v _ hv vm Hv).
Qed.
Lemma vm_configure_preserved hw now hv send recv c r next hv' :
  in_u 64 send → in_u 64 recv →
  vm_configure hw now hv (ipa_init send) (ipa_init recv) c = Done (r, next, hv') → preserved hv hv'.
Proof.
  intros Hu1 Hu2 H Hwf Hiso. pose proof Hwf as (_ & Hh & Hst & _). unfold vm_configure in H.
  apply bind_Done_inv in H as (vm & Hv%vm_of_Some & H).
  apply bind_Done_inv in H as ([[[ok i] hp] st] & Hc & H). cbv zeta in H.
  apply (configure_spec p) in Hc as [Hcf Hok]; [|by eapply vm_wf_spec|done..].
  assert (Hpre : preserved hv (set_mm st (set_hv_ptable hp (set_inner c.1 i hv)))) by (intros _ _; by eapply configured_safe).
  destruct ok; cbn [negb] in H.
  - apply (waiter_result_frame vtab vtab_quiet false) in H. by apply (preserved_trans _ _ _ Hpre (frame_preserved _ _ H)).
  - injection H as <- <- <-. by apply Hpre.
Qed.

(** ** Messages *)

(** What a memory-sharing message may do to the tables of the two VMs. *)
Definition exchanged (ok : bool) (to_i from_i : VmInner) (hp : PageTable) (st : MmState)
    (to_i' from_i' : VmInner) (st' : MmState) : Prop :=
  ∃ ft' tot' b e fm tm, to_i' = with_ptable tot' to_i ∧ from_i' = with_ptable ft' from_i ∧
    transferred p ok b e fm tm (ptable from_i) (ptable to_i) hp st ft' tot' hp st' ∧
    (ok = true → pair_ok (norm fm) (norm tm) ∧
       ∀ x, b ≤ x < e → pair_closed (vm_mode p (ptable from_i) x) (vm_mode p (ptable to_i) x)).

Lemma attrs_to_mode_range a m : spci_memory_attrs_to_mode a = Done m → in_u 3 m.
Proof.
  intros H. unfold spci_memory_attrs_to_mode in H. apply bind_Done_inv in H as (x & _ & [= <-]).
  by destruct x; split.
Qed.

Lemma validate_exchanged to_i from_i mem region size attrs share hp st ret to_i' from_i' st' :
  sound3 p (ptable from_i) (ptable to_i) hp st → mem_ok mem → in_u 3 attrs →
  spci_validate_call_share_memory false to_i from_i mem region size attrs share st
    = Done (ret, to_i', from_i', st') →
  exchanged (bool_decide (ret = Success)) to_i from_i hp st to_i' from_i' st'.
Proof.
  intros Hs Hm Ha H. unfold spci_validate_call_share_memory in H. destruct (negb _).
  - injection H as <- <- <- <-. exists (ptable from_i), (ptable to_i), 0, 0, 0, 0.
    split; [by destruct to_i|]. split; [by destruct from_i|]. split; [|done]. by apply transferred_none.
  - destruct (spci_share_memory_spec p to_i from_i mem region attrs share hp st _ _ _ _ Hs Hm Ha H)
      as (ft' & tot' & b & e & fm & tm & -> & -> & Htr & Hok).
    exists ft', tot', b, e, fm, tm. do 2 (split; [done|]). split; [done|]. intros Hr%bool_decide_eq_true.
    destruct (Hok Hr) as (_ & _ & _ & orig & orig_to & Hn & Hx).
    destruct (next_state_safe share attrs orig orig_to fm tm Ha Hn) as (Hc & Hp & _).
    split; [done|]. intros x Hxr. destruct (Hx x Hxr) as [-> ->]. done.
Qed.

Lemma handle_exchanged to_i from_i mem amr replica to_msg hp st ret to_i' from_i' mem' st' :
  sound3 p (ptable from_i) (ptable to_i) hp st → mem_ok mem →
  spci_msg_handle_architected_message false to_i from_i mem amr replica to_msg hp st
    = Done (ret, to_i', from_i', mem', st') →
  exchanged (bool_decide (ret = Success)) to_i from_i hp st to_i' from_i' st' ∧ mem_ok mem'.
Proof.
  intros Hs Hm H. unfold spci_msg_handle_architected_message in H. cbv zeta in H.
  apply bind_Done_inv in H as (ty & _ & H). apply bind_Done_inv in H as ([[[ret1 to1] from1] st1] & Hv & H).
  apply bind_Done_inv in H as (mem1 & Hm1 & H). apply assert_then_Done in H as [_ [= <- <- <- <- <-]]. split.
  - assert (Hrwx : in_u 3 (Z.lor (Z.lor Mode.R Mode.W) Mode.X)) by by split.
    destruct ty; [apply bind_Done_inv in Hv as (m & Ha%attrs_to_mode_range & Hv)|..];
      (eapply validate_exchanged; [exact Hs|exact Hm| |exact Hv]; done).
  - apply mem_ok_write_message. unfold assert_then in Hm1. case_bool_decide; [|by injection Hm1 as <-].
    destruct (_ <=? _); [|done]. destruct (_ && _); [|done]. injection Hm1 as <-. by apply mem_ok_memcpy.
Qed.

(** Setting the tables of two VMs. *)
Lemma vtabs_set_two hv from to fv tv ft' tot' :
  hv_vms hv !! from = Some fv → hv_vms hv !! to = Some tv → from ≠ to →
  vtabs (set_inner from (with_ptable ft' (vm_inner fv)) (set_inner to (with_ptable tot' (vm_inner tv)) hv)) =
  <[to := (vm_id tv, tot')]> (<[from := (vm_id fv, ft')]> (vtabs hv)).
Proof.
  intros Hf Ht Hne. unfold set_inner.
  rewrite (vtabs_upd_inner from _ _ fv), (vtabs_upd_inner to _ _ tv) by (done || (cbn; by rewrite list_lookup_alter_ne)).
  by rewrite list_insert_insert_ne.
Qed.

Lemma spci_msg_send_preserved hw now hv attributes c r next hv' :
  spci_msg_send MESSAGE_BUFFER hw now hv attributes c = Done (r, next, hv') → preserved hv hv'.
Proof.
  intros H Hwf Hiso. pose proof Hwf as (_ & Hh & Hst & Hm). unfold spci_msg_send in H. cbv zeta in H.
  apply bind_Done_inv in H as (fv & Hf%vm_of_Some & H).
  destruct (_ =? 0); [by simplify_eq|]. apply assert_then_Done in H as [_ H]. destruct (negb _); [by simplify_eq|].
  destruct (_ <? _); [by simplify_eq|]. destruct (Z.eqb_spec (target_vm_id (read_message (hv_mem hv) (mb_send (mailbox (vm_inner fv))))) (vm_id fv)) as [|Hid]; [by simplify_eq|].
  apply bind_Done_inv in H as (to & Hto & H). destruct to as [to|]; [|by simplify_eq].
  destruct (get_vm_spec hv _ to Hwf Hto) as [Hidv _]. pose proof (vm_id_spec _ _ _ Hwf Hf) as Hidf.
  assert (Hne : c.1 ≠ to) by congruence.
  apply bind_Done_inv in H as (tv & Ht%vm_of_Some & H). destruct (negb _ || negb _).
  { destruct (bf_contains attributes NOTIFY); [|by simplify_eq].
    apply bind_Done_inv in H as ([[b i] lk] & Hw & [= <- <- <-]).
    apply frame_preserved; [|done..]. by eapply wait_for_frame. }
  destruct (bf_contains _ _).
  { apply assert_then_Done in H as [_ H]. apply (deliver_frame vtab vtab_quiet false) in H. apply frame_preserved; [|done..]. etrans; [|exact H]. apply frame_set_mem.
    intros ?. by apply mem_ok_memcpy, mem_ok_write_message. }
  apply bind_Done_inv in H as (cur & _ & H). apply bind_Done_inv in H as (cpu & _ & H).
  apply bind_Done_inv in H as (buffer & _ & H). destruct (_ <? _); [by simplify_eq|]. destruct (_ <? _); [by simplify_eq|].
  apply assert_then_Done in H as [_ H].
  rewrite (bool_decide_false (to = c.1)) in H by done.
  apply bind_Done_inv in H as ([[[[ret to_i] from_i] mem] st] & Hha & H).
  apply (handle_exchanged _ _ _ _ _ _ (hv_ptable hv)) in Hha as [(ft' & tot' & b & e & fm & tm & -> & -> & Htr & Hok) Hm'];
    [|by split_and!; [eapply vm_wf_spec..| |]|by apply mem_ok_memcpy].
  assert (Hpre : preserved hv (set_mm st (set_mem mem (set_inner c.1 (with_ptable ft' (vm_inner fv))
    (set_inner to (with_ptable tot' (vm_inner tv)) hv))))).
  { intros _ _. eapply (exchange_preserved hv _ c.1 to (vm_id fv) _ (vm_id tv));
      [done|done|by apply vtabs_lookup|by apply vtabs_lookup|done|exact Htr|exact Hok| |done|done|done].
    by rewrite <-(vtabs_set_two hv c.1 to fv tv ft' tot') by done. }
  destruct (negb _).
  - injection H as <- <- <-. by apply Hpre.
  - apply (deliver_frame vtab vtab_quiet false) in H. by apply (preserved_trans _ _ _ Hpre (frame_preserved _ _ H)).
Qed.

(** ** Every call *)
Lemma hv_exec_preserved hw now1 now2 now3 hv c call hv' :
  call_typed call → hv_exec hw now1 now2 now3 hv c call = Done (Some hv') → preserved hv hv'.
Proof.
  intros Hty H. destruct (memory_call call) eqn:Hm; [|by eapply frame_preserved, exec_frame; eauto with hfo2].
  destruct call; try done; cbn [hv_exec call_typed] in *.
  - apply bind_Done_inv in H as ([[??]?] & H & [= <-]). destruct Hty as [Hs Hr].
    exact (vm_configure_preserved _ _ _ _ _ _ _ _ _ Hs Hr H).
  - apply bind_Done_inv in H as ([[??]?] & H & [= <-]). apply bind_Done_inv in H as ([[??]?] & H & [= <- <- <-]).
    by eapply spci_msg_send_preserved.
  - apply bind_Done_inv in H as ([??] & H & [= <-]). unfold api_share_memory in H.
    destruct (HfShare_try_from share); [|by simplify_eq].
    apply bind_Done_inv in H as ([??] & H & [= <- <-]).
    exact (share_memory_preserved _ _ _ _ _ _ _ _ Hty H).
Qed.

Lemma hv_step_preserved hv hv' : hv_step hv hv' → preserved hv hv'.
Proof.
  destruct 1; [by eapply hv_exec_preserved|]. by apply frame_preserved, frame_set_mem.
Qed.
Lemma hv_run_preserved hv hv' : rtc hv_step hv hv' → preserved hv hv'.
Proof.
  induction 1 as [hv|h1 h2 h3 H12 _ IH]; [by apply frame_preserved|].
  eapply preserved_trans; [by apply hv_step_preserved|done].
Qed.
End calls.
