(* ===== verification/Rollback.v ===== *)
(** * Memory sharing never gets stuck half-way

    [configure], [share_memory] and [spci_share_memory] change several page tables and
    unwrap the result when they undo the first changes because a later one ran out of
    pages.  Here: the undoing always succeeds, so these calls return, whatever the
    state of the pool. *)
From S2P Require Import Prelude Addr Mode Arch ArchAarch64 Mpool Mm MmSpec MmMap MmTable MmDefrag MmQuery.
From S2P Require Import PageTables MmSplit MmUndo MemoryManager Stage2Modes Abi ArchCpu Interrupts Cpu Vm Memory Spci Hypervisor.
From S2P Require Import Frames Ownership Sharing Isolation.

Section rollback.
Context (p : Aarch64.pa_bits) {RD : ReduceCrate}.
#[local] Hint Extern 0 ArchMM => exact (aarch64 p) : typeclass_instances.
#[local] Hint Extern 0 (ArchLaws _) => exact (aarch64_laws p) : typeclass_instances.
Local Abbreviation wf1 := (wf_ptable (SG := @Stage1 (aarch64 p))).
Local Abbreviation wf2 := (wf_ptable (SG := @Stage2 (aarch64 p))).
Local Abbreviation splits1 := (root_splits (SG := @Stage1 (aarch64 p))).
Local Abbreviation splits2 := (root_splits (SG := @Stage2 (aarch64 p))).
Local Abbreviation map1 := (identity_map (SG := @Stage1 (aarch64 p))).
Local Abbreviation map2 := (identity_map (SG := @Stage2 (aarch64 p))).

(** ** Tables of VMs *)
Lemma vm_upd_eq b e :
  vm_range p b e → upd_begin (pa_init b) = b ∧ upd_end (SG := @Stage2 (aarch64 p)) (pa_init e) = e.
Proof.
  intros (Hb & He & Hbe & Hend). pose proof (vm_end_48 p). unfold upd_begin, upd_end. cbn [pa pa_init].
  rewrite Hb, round_up_to_page_aligned by (done || (split; lia)). unfold vm_end in *. lia.
Qed.

Lemma map2_attrs mode : attrs_ok (mode_to_attrs (Stage := @Stage2 (aarch64 p)) mode).
Proof. apply (stage_attrs_ok (SG := @Stage2 (aarch64 p))). Qed.

Lemma map2_returns t b e mode st :
  wf2 t → st_inv st → vm_range p b e →
  ∃ ok t' st', map2 t (pa_init b) (pa_init e) mode st = Done (ok, t', st') ∧ wf2 t' ∧ st_inv st'.
Proof.
  intros Hwf Hst Hr. pose proof Hr as (_ & _ & ? & ?).
  destruct (identity_update_spec (SG := @Stage2 (aarch64 p)) t (pa_init b) (pa_init e)
    (mode_to_attrs (Stage := @Stage2 (aarch64 p)) mode) 0 st) as (ok & t' & st' & Heq & ? & ? & _);
    [left; split; [done|apply map2_attrs]|done|done|unfold vm_end in *; cbn; lia|].
  by exists ok, t', st'.
Qed.

(** Another mode for the whole range leaves it on its own. *)
Lemma map2_splits t b e mode st t' st' :
  wf2 t → st_inv st → stage2_mode mode → vm_range p b e →
  (∀ x, b ≤ x < e → vm_mode p t x ≠ norm mode) →
  map2 t (pa_init b) (pa_init e) mode st = Done (true, t', st') → splits2 b e t'.
Proof.
  intros Hwf Hst Hm Hr Hne H. destruct (vm_upd_eq b e Hr) as [Hb He]. pose proof Hr as (_ & _ & ? & ?).
  pose proof (identity_map_splits (SG := @Stage2 (aarch64 p)) t (pa_init b) (pa_init e) _ st t' st'
    (map2_attrs mode) Hwf Hst) as Hs. rewrite Hb, He in Hs. apply Hs; [unfold vm_end in *; cbn; lia| |exact H].
  intros x Hx Heq. apply (Hne x Hx). unfold vm_mode. rewrite Heq, mapped_norm. unfold mode_of, mode_to_attrs, Stage2.
  change (arch_mm_mode_to_stage2_attrs mode) with (Aarch64.mode_to_stage2_attrs mode). by rewrite stage2_mode_attrs.
Qed.

(** A range on its own stays so while others are mapped, *)
Lemma map2_keeps b2 e2 t b e mode st ok t' st' :
  wf2 t → st_inv st → vm_range p b e → e ≤ b2 ∨ e2 ≤ b →
  map2 t (pa_init b) (pa_init e) mode st = Done (ok, t', st') → splits2 b2 e2 t → splits2 b2 e2 t'.
Proof.
  intros Hwf Hst Hr Hd H. destruct (vm_upd_eq b e Hr) as [Hb He]. pose proof Hr as (_ & _ & ? & ?).
  eapply (identity_map_keeps (SG := @Stage2 (aarch64 p)) b2 e2 t (pa_init b) (pa_init e)); [apply map2_attrs|done|done| | |exact H].
  - unfold vm_end in *. cbn. lia.
  - rewrite Hb, He. right. lia.
Qed.

(** and can be mapped again, also after [defrag]. *)
Lemma map2_undo t b e mode st :
  wf2 t → st_inv st → vm_range p b e → splits2 b e t →
  ∃ t' st', map2 t (pa_init b) (pa_init e) mode st = Done (true, t', st') ∧ wf2 t' ∧ st_inv st'.
Proof.
  intros Hwf Hst Hr Hs. destruct (vm_upd_eq b e Hr) as [Hb He]. pose proof Hr as (_ & _ & ? & ?).
  destruct (splits_update (SG := @Stage2 (aarch64 p)) t (pa_init b) (pa_init e)
    (mode_to_attrs (Stage := @Stage2 (aarch64 p)) mode) 0 st) as (t' & st' & Heq);
    [left; split; [done|apply map2_attrs]|done|done|unfold vm_end in *; cbn; lia|by rewrite Hb, He|].
  destruct (map2_returns t b e mode st Hwf Hst Hr) as (ok & t1 & st1 & Heq1 & ? & ?).
  unfold identity_map in *. rewrite Heq in Heq1. injection Heq1 as <- <- <-. by exists t', st'.
Qed.
Lemma map2_undo_defrag t b e mode st :
  wf2 t → st_inv st → vm_range p b e → splits2 b e t →
  ∃ t' st', mm_vm_defrag t st = Done (t', st') ∧
    ∃ t2 st2, map2 t' (pa_init b) (pa_init e) mode st' = Done (true, t2, st2) ∧ wf2 t2 ∧ st_inv st2.
Proof.
  intros Hwf Hst Hr Hs. destruct (vm_upd_eq b e Hr) as [Hb He]. pose proof Hr as (_ & _ & ? & ?).
  destruct (defrag_spec (SG := @Stage2 (aarch64 p)) t (st_pool st) Hwf Hst) as (t1 & m1 & Hd & Hm1 & Hw1 & _).
  exists t1, (with_pool st m1). unfold mm_vm_defrag. rewrite Hd. split; [done|].
  destruct (defrag_update (SG := @Stage2 (aarch64 p)) t (pa_init b) (pa_init e)
    (mode_to_attrs (Stage := @Stage2 (aarch64 p)) mode) 0 st t1 m1) as (t' & st' & Heq);
    [left; split; [done|apply map2_attrs]|done|done|unfold vm_end in *; cbn; lia|by rewrite Hb, He|done|].
  destruct (map2_returns t1 b e mode (with_pool st m1)) as (ok & t2 & st2 & Heq1 & ? & ?); [done|exact Hm1|done|].
  unfold identity_map in *. rewrite Heq in Heq1. injection Heq1 as <- <- <-. by exists t', st'.
Qed.

(** ** The hypervisor's own table *)

(** Nothing of the range is mapped in the hypervisor. *)
Definition hp_clear (hp : PageTable) (b e : Z) : Prop := ∀ x, b ≤ x < e → s1_mapping p hp x = None.
(** A page-aligned range of the hypervisor's address space. *)
Definition hp_range (b e : Z) : Prop := aligned 4096 b ∧ aligned 4096 e ∧ 0 ≤ b < e ∧ e ≤ 2 ^ 39.

Lemma hp_upd_eq b e :
  hp_range b e → upd_begin (pa_init b) = b ∧ upd_end (SG := @Stage1 (aarch64 p)) (pa_init e) = e.
Proof.
  intros (Hb & He & Hbe & Hend). unfold upd_begin, upd_end. cbn [pa pa_init].
  rewrite Hb, round_up_to_page_aligned by (done || (split; lia)).
  change (ptable_end (SG := @Stage1 (aarch64 p))) with (2 ^ 39). lia.
Qed.
Lemma map1_attrs mode : attrs_ok (mode_to_attrs (Stage := @Stage1 (aarch64 p)) mode).
Proof. apply (stage_attrs_ok (SG := @Stage1 (aarch64 p))). Qed.

Lemma map1_returns hp b e mode st :
  wf1 hp → st_inv st → hp_range b e →
  ∃ ok hp' st', map1 hp (pa_init b) (pa_init e) mode st = Done (ok, hp', st') ∧ wf1 hp' ∧ st_inv st' ∧
    ∀ x, 0 ≤ x < 2 ^ 39 → s1_mapping p hp' x = if ok && bool_decide (b ≤ x < e) then s1_attrs p mode else s1_mapping p hp x.
Proof.
  intros Hwf Hst Hr. pose proof Hr as (_ & _ & ? & ?). destruct (hp_upd_eq b e Hr) as [Hb He].
  destruct (identity_update_spec (SG := @Stage1 (aarch64 p)) hp (pa_init b) (pa_init e)
    (mode_to_attrs (Stage := @Stage1 (aarch64 p)) mode) 0 st) as (ok & t' & st' & Heq & ? & ? & _ & Hx & _);
    [left; split; [done|apply map1_attrs]|done|done|change (ptable_end (SG := @Stage1 (aarch64 p))) with (2 ^ 39); cbn; lia|].
  exists ok, t', st'. rewrite Hb, He in Hx. by split_and!.
Qed.

(** Pages mapped where nothing was can be unmapped, *)
Lemma map1_splits hp b e mode st hp' st' :
  wf1 hp → st_inv st → hp_range b e → hp_clear hp b e → s1_attrs p mode ≠ None →
  map1 hp (pa_init b) (pa_init e) mode st = Done (true, hp', st') → splits1 b e hp'.
Proof.
  intros Hwf Hst Hr Hc Hm H. destruct (hp_upd_eq b e Hr) as [Hb He]. pose proof Hr as (_ & _ & ? & ?).
  pose proof (identity_map_splits (SG := @Stage1 (aarch64 p)) hp (pa_init b) (pa_init e) _ st hp' st'
    (map1_attrs mode) Hwf Hst) as Hs. rewrite Hb, He in Hs. apply Hs; [|..|exact H].
  - change (ptable_end (SG := @Stage1 (aarch64 p))) with (2 ^ 39). cbn. lia.
  - intros x Hx Heq. apply Hm. rewrite <-(Hc x Hx). symmetry. exact Heq.
Qed.
Lemma unmap1_undo hp b e st :
  wf1 hp → st_inv st → hp_range b e → splits1 b e hp →
  ∃ hp' st', unmap (SG := @Stage1 (aarch64 p)) hp (pa_init b) (pa_init e) st = Done (true, hp', st').
Proof.
  intros Hwf Hst Hr Hs. destruct (hp_upd_eq b e Hr) as [Hb He]. pose proof Hr as (_ & _ & ? & ?).
  apply splits_update; [by right|done|done| |by rewrite Hb, He].
  change (ptable_end (SG := @Stage1 (aarch64 p))) with (2 ^ 39). cbn. lia.
Qed.
(** also after other pages have been mapped and the table defragmented. *)
Lemma map1_keeps b2 e2 hp b e mode st ok hp' st' :
  wf1 hp → st_inv st → hp_range b e → e ≤ b2 ∨ e2 ≤ b →
  map1 hp (pa_init b) (pa_init e) mode st = Done (ok, hp', st') → splits1 b2 e2 hp → splits1 b2 e2 hp'.
Proof.
  intros Hwf Hst Hr Hd H. destruct (hp_upd_eq b e Hr) as [Hb He]. pose proof Hr as (_ & _ & ? & ?).
  eapply (identity_map_keeps (SG := @Stage1 (aarch64 p)) b2 e2 hp (pa_init b) (pa_init e)); [apply map1_attrs|done|done| | |exact H].
  - change (ptable_end (SG := @Stage1 (aarch64 p))) with (2 ^ 39). cbn. lia.
  - rewrite Hb, He. right. lia.
Qed.
Lemma unmap1_undo_defrag hp b e st :
  wf1 hp → st_inv st → hp_range b e → splits1 b e hp →
  ∃ hp' st', mm_defrag hp st = Done (hp', st') ∧
    ∃ hp2 st2, unmap (SG := @Stage1 (aarch64 p)) hp' (pa_init b) (pa_init e) st' = Done (true, hp2, st2) ∧ st_inv st2.
Proof.
  intros Hwf Hst Hr Hs. destruct (hp_upd_eq b e Hr) as [Hb He]. pose proof Hr as (_ & _ & ? & ?).
  destruct (defrag_spec (SG := @Stage1 (aarch64 p)) hp (st_pool st) Hwf Hst) as (t1 & m1 & Hd & Hm1 & Hw1 & _).
  exists t1, (with_pool st m1). unfold mm_defrag. rewrite Hd. split; [done|].
  assert (Hpa : 0 ≤ pa (pa_init b) < ptable_end (SG := @Stage1 (aarch64 p))).
  { change (ptable_end (SG := @Stage1 (aarch64 p))) with (2 ^ 39). cbn. lia. }
  destruct (defrag_update (SG := @Stage1 (aarch64 p)) hp (pa_init b) (pa_init e)
    (mode_to_attrs (Stage := @Stage1 (aarch64 p)) (Z.lor (Z.lor Mode.UNOWNED Mode.INVALID) Mode.SHARED)) Flags.UNMAP st t1 m1)
    as (t' & st' & Heq); [by right|done|done|done|by rewrite Hb, He|done|].
  exists t', st'. split; [exact Heq|]. destruct (unmap_kept (SG := @Stage1 (aarch64 p)) t1 (pa_init b) (pa_init e) (with_pool st m1) true t' st')
    as [(_ & ? & _) _]; [done|exact Hm1|done|exact Heq|done].
Qed.
Lemma mm_defrag_returns hp st : wf1 hp → st_inv st → ∃ hp' st', mm_defrag hp st = Done (hp', st') ∧ wf1 hp' ∧ st_inv st'.
Proof.
  intros Hwf Hst. destruct (defrag_spec (SG := @Stage1 (aarch64 p)) hp (st_pool st) Hwf Hst) as (t1 & m1 & Hd & Hm1 & Hw1 & _).
  exists t1, (with_pool st m1). unfold mm_defrag. by rewrite Hd.
Qed.

(** ** [share_memory] *)
Lemma s1_attrs_W : s1_attrs p Mode.W ≠ None.
Proof. vm_compute. discriminate. Qed.
Lemma s1_attrs_R : s1_attrs p Mode.R ≠ None.
Proof. vm_compute. discriminate. Qed.

Lemma clear_memory_returns hp mem b e st :
  wf1 hp → st_inv st → hp_range b e → hp_clear hp b e →
  ∃ ok hp' mem' st', clear_memory hp mem (pa_init b) (pa_init e) st = Done (ok, hp', mem', st') ∧ st_inv st'.
Proof.
  intros Hwf Hst Hr Hc. pose proof Hr as (_ & _ & ? & ?). unfold clear_memory.
  destruct (map1_returns hp b e Mode.W st Hwf Hst Hr) as (ok & hp1 & st1 & Hmap & Hw1 & Hst1 & _). rewrite Hmap.
  cbn [mbind exec_bind]. destruct ok; cbn [negb].
  2:{ destruct (mm_defrag_returns hp1 st1 Hw1 Hst1) as (hp2 & st2 & -> & _ & ?). cbn. do 4 eexists. by split. }
  unfold assert_then. rewrite (root_end_eq (SG := @Stage1 (aarch64 p))).
  change (ptable_end (SG := @Stage1 (aarch64 p))) with (2 ^ 39). unfold pa_difference, pa_addr. cbn [pa pa_init].
  rewrite wsub_small by lia. rewrite (proj2 (Z.leb_le _ _)) by lia.
  pose proof (map1_splits hp b e Mode.W st hp1 st1 Hwf Hst Hr Hc s1_attrs_W Hmap) as Hs.
  destruct (unmap1_undo hp1 b e st1 Hw1 Hst1 Hr Hs) as (hp2 & st2 & Hun). rewrite Hun. cbn [mbind exec_bind].
  do 4 eexists. split; [done|].
  destruct (unmap1_kept p hp1 (pa_init b) (pa_init e) st1 true hp2 st2) as (_ & ? & _); [done|done|cbn; lia|exact Hun|done].
Qed.

(** The hypervisor's own mappings after [clear_memory]: the range is unmapped, whatever
    was mapped there before, and the rest is unchanged. *)
Definition hp_after (ok : bool) (b e : Z) (hp hp' : PageTable) : Prop :=
  ∀ x, 0 ≤ x < 2 ^ 39 → s1_mapping p hp' x = if ok && bool_decide (b ≤ x < e) then None else s1_mapping p hp x.

Lemma clear_memory_hp hp mem b e st ok hp' mem' st' :
  wf1 hp → st_inv st → vm_range p b e →
  clear_memory hp mem (pa_init b) (pa_init e) st = Done (ok, hp', mem', st') → hp_after ok b e hp hp'.
Proof.
  intros Hwf Hst (Ha1 & Ha2 & Hbe & Hend) H x Hx. pose proof (vm_end_48 p). unfold clear_memory in H.
  apply bind_Done_inv in H as ([[ok1 hp1] st1] & Hmap & H).
  destruct (decide (b < 2 ^ 39)) as [Hb|Hb].
  2:{ exfalso. unfold identity_map in Hmap.
      destruct (stage1_update_beyond p hp (pa_init b) (pa_init e) (mode_to_attrs (Stage := @Stage1 (aarch64 p)) Mode.W) 0 st)
        as [Hp|(st2 & Heq & _)]; [done|cbn; lia|congruence|]. rewrite Hmap in Heq. injection Heq as -> -> ->. cbn [negb] in H.
      unfold assert_then in H. rewrite (root_end_eq (SG := @Stage1 (aarch64 p))) in H.
      change (ptable_end (SG := @Stage1 (aarch64 p))) with (2 ^ 39) in H. unfold pa_difference, pa_addr in H. cbn [pa pa_init] in H.
      rewrite wsub_small in H by lia. by rewrite (proj2 (Z.leb_gt _ _)) in H by lia. }
  pose proof (identity_map1_kept p hp (pa_init b) (pa_init e) Mode.W st ok1 hp1 st1 Hwf Hst ltac:(cbn; lia) Hmap) as (Hw1 & Hst1 & _).
  apply identity_map_kept in Hmap as [_ Hm1]; [|done|done|change (ptable_end (SG := @Stage1 (aarch64 p))) with (2 ^ 39); cbn; lia].
  destruct ok1; cbn [negb] in H.
  2:{ apply bind_Done_inv in H as ([hp2 st2] & Hd & [= <- <- <- <-]). apply mm_defrag_kept in Hd as [_ Hd]; [|done..].
      unfold s1_mapping. cbn [andb]. rewrite Hd by (change (ptable_end (SG := @Stage1 (aarch64 p))) with (2 ^ 39); lia).
      by rewrite Hm1 by (change (ptable_end (SG := @Stage1 (aarch64 p))) with (2 ^ 39); lia). }
  unfold assert_then in H. rewrite (root_end_eq (SG := @Stage1 (aarch64 p))) in H.
  change (ptable_end (SG := @Stage1 (aarch64 p))) with (2 ^ 39) in H. unfold pa_difference, pa_addr in H. cbn [pa pa_init] in H.
  rewrite wsub_small in H by lia. destruct (Z.leb_spec (b + (e - b)) (2 ^ 39)) as [He|]; [|done].
  apply bind_Done_inv in H as ([[ok2 hp2] st2] & Hun & H). destruct ok2; [|done]. injection H as <- <- <- <-.
  apply unmap_kept in Hun as [_ Hm2]; [|done|done|change (ptable_end (SG := @Stage1 (aarch64 p))) with (2 ^ 39); cbn; lia].
  destruct (hp_upd_eq b e) as [Eb Ee]; [split_and!; (done || lia)|]. rewrite Eb, Ee in *. unfold s1_mapping. cbn [andb] in *.
  rewrite Hm2, Hm1 by (change (ptable_end (SG := @Stage1 (aarch64 p))) with (2 ^ 39); lia). by case_bool_decide.
Qed.

Lemma share_transfer_hp ft tot hp mem b e orig fm tm st ok ft' tot' hp' mem' st' :
  sound3 p ft tot hp st → vm_range p b e → stage2_mode fm →
  share_transfer ft tot hp mem (pa_init b) (pa_init e) orig fm tm st = Done (ok, ft', tot', hp', mem', st') →
  hp_after true b e hp hp' ∨ ok = false ∧ hp_after false b e hp hp'.
Proof.
  intros (Hf & _ & Hh & Hst) Hr Hfm H. unfold share_transfer in H.
  apply bind_Done_inv in H as ([[ok1 ft1] st1] & Hmap1 & H).
  apply identity_map_vm in Hmap1 as [(Hw1 & Hst1 & _) _]; [|done..].
  destruct ok1; cbn [negb] in H; [|injection H as <- <- <- <- <- <-; right; split; [done|by intros x]].
  apply bind_Done_inv in H as ([[[ok2 hp2] mem2] st2] & Hclr & H). apply clear_memory_hp in Hclr; [|done..].
  destruct ok2; cbn [negb] in H.
  2:{ apply bind_Done_inv in H as ([[ok3 ft3] st3] & _ & H). destruct ok3; [|done]. injection H as <- <- <- <- <- <-. by right. }
  left. apply bind_Done_inv in H as ([[ok3 tot3] st3] & _ & H). destruct ok3; cbn [negb] in H; [injection H as <- <- <- <- <- <-; exact Hclr|].
  apply bind_Done_inv in H as ([ft4 st4] & _ & H). apply bind_Done_inv in H as ([[ok5 ft5] st5] & _ & H).
  destruct ok5; [|done]. injection H as <- <- <- <- <- <-. exact Hclr.
Qed.

Lemma share_transfer_returns ft tot hp mem b e orig fm tm st :
  sound3 p ft tot hp st → vm_range p b e → e ≤ 2 ^ 39 → stage2_mode fm → hp_clear hp b e →
  (∀ x, b ≤ x < e → vm_mode p ft x = norm orig) → norm orig ≠ norm fm →
  ∃ r, share_transfer ft tot hp mem (pa_init b) (pa_init e) orig fm tm st = Done r.
Proof.
  intros (Hf & Ht & Hh & Hst) Hr He Hfm Hc Horig Hne. unfold share_transfer.
  assert (Hhr : hp_range b e) by (destruct Hr as (?&?&?&?); done).
  destruct (map2_returns ft b e fm st Hf Hst Hr) as (ok & ft1 & st1 & Hmap & Hw1 & Hst1). rewrite Hmap. cbn [mbind exec_bind].
  destruct ok; cbn [negb]; [|eauto].
  assert (Hs : splits2 b e ft1).
  { eapply map2_splits; [exact Hf|exact Hst|done|done| |exact Hmap]. intros x Hx. by rewrite Horig. }
  destruct (clear_memory_returns hp mem b e st1 Hh Hst1 Hhr Hc) as (ok2 & hp2 & mem2 & st2 & -> & Hst2).
  cbn [mbind exec_bind]. destruct ok2; cbn [negb].
  2:{ destruct (map2_undo ft1 b e orig st2 Hw1 Hst2 Hr Hs) as (ft3 & st3 & -> & _). cbn. eauto. }
  destruct (map2_returns tot b e tm st2 Ht Hst2 Hr) as (ok3 & tot3 & st3 & -> & Hw3 & Hst3). cbn [mbind exec_bind].
  destruct ok3; cbn [negb]; [eauto|].
  destruct (map2_undo_defrag ft1 b e orig st3 Hw1 Hst3 Hr Hs) as (ft4 & st4 & -> & ft5 & st5 & Hm5 & _).
  cbn [mbind exec_bind]. rewrite Hm5. cbn. eauto.
Qed.

Lemma get_mode_returns t b e :
  wf2 t → in_u 64 b → in_u 64 e → aligned 4096 b → aligned 4096 e →
  ∃ r, get_mode (SG := @Stage2 (aarch64 p)) t (ipa_init b) (ipa_init e) = Done r.
Proof. intros. destruct (get_mode_modes p t (ipa_init b) (ipa_init e)) as (r & ? & _); [done..|eauto]. Qed.

(** The checks of [share_memory] return, and let only real changes through. *)
Lemma share_allowed_returns ft tot b e share :
  wf2 ft → wf2 tot → in_u 64 b → in_u 64 e → aligned 4096 b → aligned 4096 e →
  ∃ r, share_allowed ft tot (ipa_init b) (ipa_init e) share = Done r ∧
    ∀ orig, r = Ok orig → norm orig ≠ norm (share_modes share).1.
Proof.
  intros Hf Ht Hb He Hba Hea. unfold share_allowed.
  destruct (get_mode_returns ft b e) as [[m|] ->]; [done..| |cbn; eauto]; cbn [mbind exec_bind].
  change Mode.INVALID with (2 ^ 4). change Mode.UNOWNED with (2 ^ 5). change Mode.SHARED with (2 ^ 6).
  rewrite !bf_contains_1 by lia. destruct (Z.testbit m 4) eqn:E4; [eauto|].
  assert (Hm : norm m = Some m) by (unfold norm; by rewrite no_access_bits, E4).
  destruct (Z.testbit m 5) eqn:E5.
  - destruct (get_mode_returns tot b e) as [[m2|] ->]; [done..| |cbn; eauto]; cbn [mbind exec_bind].
    destruct (bf_contains _ _); [eauto|]. destruct (bool_decide_reflect (share = Give)) as [->|]; cbn [negb]; [|eauto].
    eexists. split; [done|]. intros ? [= <-]. by rewrite Hm.
  - destruct (Z.testbit m 6) eqn:E6; [eauto|]. eexists. split; [done|]. intros ? [= <-]. rewrite Hm.
    destruct share; cbn; [done|..]; intros [= ->]; done.
Qed.

Lemma share_memory_runs hv id addr size share c fv :
  hv_wf p hv → hv_vms hv !! c.1 = Some fv → 1 ≤ id → in_u 64 addr → in_u 64 size → addr + size ≤ 2 ^ 39 →
  hp_clear (hv_ptable hv) addr (addr + size) →
  ∃ ok hv', share_memory hv id (ipa_init addr) size share c = Done (ok, hv').
Proof.
  intros Hwf Hf Hid Hu Hn Hend Hc. pose proof Hwf as (_ & Hh & Hst & _). unfold share_memory.
  assert (Hfv : vm_of hv c.1 = Done fv) by (unfold vm_of; by rewrite Hf). rewrite Hfv.
  cbn [mbind exec_bind]. destruct (_ =? _); [eauto|]. unfold get_vm, get_vm_index, assert_then.
  rewrite (proj2 (Z.leb_le _ _)) by done. cbn [mbind exec_bind].
  destruct (Nat.ltb_spec (Z.to_nat (id - HF_VM_ID_OFFSET)) (length (hv_vms hv))) as [Hlt|]; [|eauto].
  destruct (lookup_lt_is_Some_2 _ _ Hlt) as [tv Ht].
  assert (Htv : vm_of hv (Z.to_nat (id - HF_VM_ID_OFFSET)) = Done tv) by (unfold vm_of; by rewrite Ht). rewrite Htv.
  cbn [mbind exec_bind]. cbv zeta.
  cbn [ipa_addr ipa_init ipa]. unfold ipa_add. cbn [ipa_addr ipa_init ipa]. rewrite wadd_small by (unfold in_u in *; lia).
  destruct (is_aligned addr PAGE_SIZE) eqn:Ha1; cbn [negb orb]; [|eauto].
  destruct (is_aligned (addr + size) PAGE_SIZE) eqn:Ha2; cbn [negb]; [|eauto].
  apply is_aligned_page in Ha1. apply is_aligned_page in Ha2.
  pose proof (vm_wf_spec p _ _ _ Hwf Hf) as Hwf2. pose proof (vm_wf_spec p _ _ _ Hwf Ht) as Hwt2.
  assert (He : in_u 64 (addr + size)) by (unfold in_u in *; lia).
  destruct (share_allowed_returns (ptable (vm_inner fv)) (ptable (vm_inner tv)) addr (addr + size) share)
    as (r & Hall & Hne); [done..|].
  pose proof (share_allowed_spec p _ _ addr (addr + size) share r Hwf2 Hwt2 Hu He Ha1 Ha2 Hall) as Hs.
  pose proof (share_modes_ok share) as Hmo. destruct (share_modes share) as [fm tm].
  change (ipa_init addr) with (ipa_init addr) in Hall. rewrite Hall. cbn [mbind exec_bind].
  destruct r as [orig|]; [|eauto]. destruct (Hs orig eq_refl) as (Hr & Ho & Hx & _). destruct Hmo as (Hfm & _ & _).
  destruct (share_transfer_returns (ptable (vm_inner fv)) (ptable (vm_inner tv)) (hv_ptable hv) (hv_mem hv)
    addr (addr + size) orig fm tm (new_local (hv_mm hv))) as [[[[[[ok ft'] tot'] hp'] mem'] st'] Htr]; [|done..|by apply Hne|].
  { split_and!; [done..|]. by apply new_local_inv. }
  change (pa_from_ipa (ipa_init addr)) with (pa_init addr).
  change (pa_from_ipa (ipa_init (addr + size))) with (pa_init (addr + size)). rewrite Htr. cbn. eauto.
Qed.

Lemma share_memory_hp hv id addr size share c ok hv' :
  hv_wf p hv → in_u 64 addr → share_memory hv id (ipa_init addr) size share c = Done (ok, hv') →
  hv_ptable hv' = hv_ptable hv ∧ ok = false ∨
  vm_range p addr (addr +w size) ∧
  (hp_after true addr (addr +w size) (hv_ptable hv) (hv_ptable hv') ∨
   ok = false ∧ hp_after false addr (addr +w size) (hv_ptable hv) (hv_ptable hv')).
Proof.
  intros Hwf Hu H. pose proof Hwf as (_ & Hh & Hst & Hm). unfold share_memory in H.
  apply bind_Done_inv in H as (fv & Hf%vm_of_Some & H). destruct (_ =? _); [injection H as <- <-; by left|].
  apply bind_Done_inv in H as (to & Hto & H). destruct to as [to|]; [|injection H as <- <-; by left].
  apply bind_Done_inv in H as (tv & Ht%vm_of_Some & H). cbv zeta in H.
  cbn [ipa_addr ipa_init ipa] in H. unfold ipa_add in H. cbn [ipa_addr ipa_init ipa] in H.
  destruct (is_aligned addr PAGE_SIZE) eqn:Ha1; [|injection H as <- <-; by left].
  destruct (is_aligned (addr +w size) PAGE_SIZE) eqn:Ha2; [|injection H as <- <-; by left].
  apply is_aligned_page in Ha1. apply is_aligned_page in Ha2. cbn [negb orb] in H.
  pose proof (share_modes_ok share) as Hmodes. destruct (share_modes share) as [fm tm] eqn:Hsm. destruct Hmodes as (Hfm & _ & _).
  apply bind_Done_inv in H as (r & Hall & H).
  pose proof (vm_wf_spec p _ _ _ Hwf Hf) as Hwf2. pose proof (vm_wf_spec p _ _ _ Hwf Ht) as Hwt2.
  assert (He : in_u 64 (addr +w size)) by (by apply wrap_range).
  pose proof (share_allowed_spec p _ _ addr (addr +w size) share r Hwf2 Hwt2 Hu He Ha1 Ha2 Hall) as Hs.
  destruct r as [orig|]; [|injection H as <- <-; by left]. destruct (Hs orig eq_refl) as (Hr & _ & _ & _).
  apply bind_Done_inv in H as ([[[[[ok1 ft'] tot'] hp'] mem'] st'] & Htr & [= <- <-]). right. split; [done|].
  eapply share_transfer_hp; [|exact Hr|exact Hfm|exact Htr]. split_and!; [done..|]. by apply new_local_inv.
Qed.

(** ** [spci_share_memory] *)

(** Every transition changes the mode of the sender. *)
Lemma next_state_changes share attrs orig orig_to fm tm :
  stage2_mode orig → spci_msg_get_next_state (transition_table share) attrs orig orig_to = Ok (fm, tm) → norm orig ≠ norm fm.
Proof.
  intros Ho H. apply next_state_row in H as (tr & Hin & Hf & _ & [= -> _]).
  assert (Hall : Forall (λ m, Forall (λ tr, Z.land m state_mask = tr_orig_from_mode tr →
    norm m ≠ norm (Z.lor (tr_from_mode tr) (Z.land (Mode.complement state_mask) m))) (transition_table share)) all_modes)
    by (destruct share; by_computation).
  rewrite Forall_forall in Hall. specialize (Hall orig (elem_of_all_modes orig (proj1 Ho))).
  rewrite Forall_forall in Hall. by apply Hall.
Qed.

Lemma spci_share_memory_runs same to_i from_i mem region attrs share st :
  wf2 (ptable from_i) → wf2 (ptable to_i) → st_inv st → mem_ok mem → in_u 3 attrs →
  ∃ r, spci_share_memory same to_i from_i mem region attrs share st = Done r.
Proof.
  intros Hf Ht Hst0 Hmem Hat. unfold spci_share_memory. destruct same; [eauto|]. cbv zeta.
  destruct (new_local_inv st Hst0) as [Hst _].
  set (b := constituent_address mem (region_constituents region)).
  set (e := b +w (constituent_page_count mem (region_constituents region) *w PAGE_SIZE)).
  change (ipa_add (ipa_init b) (constituent_page_count mem (region_constituents region) *w PAGE_SIZE)) with (ipa_init e).
  assert (Hb : in_u 64 b) by (apply rd64_range; done). assert (He : in_u 64 e) by (by apply wrap_range).
  assert (Hchk : ∃ r, spci_msg_check_transition to_i from_i share (ipa_init b) (ipa_init e) attrs = Done r).
  { unfold spci_msg_check_transition. cbn [ipa_addr ipa_init ipa].
    destruct (is_aligned b PAGE_SIZE) eqn:Ha1; cbn [negb orb]; [|eauto].
    destruct (is_aligned e PAGE_SIZE) eqn:Ha2; cbn [negb]; [|eauto].
    apply is_aligned_page in Ha1. apply is_aligned_page in Ha2.
    destruct (get_mode_returns (ptable from_i) b e) as [[m|] ->]; [done..| |cbn; eauto]; cbn [mbind exec_bind].
    destruct (get_mode_returns (ptable to_i) b e) as [[m2|] ->]; [done..| |cbn; eauto]; cbn [mbind exec_bind].
    destruct (spci_msg_get_next_state _ _ _ _) as [[??]|]; eauto. }
  destruct Hchk as [r Hchk]. rewrite Hchk. cbn [mbind exec_bind].
  pose proof (check_transition_spec p to_i from_i share b e attrs r Hf Ht Hb He Hchk) as Hs.
  destruct r as [[[orig fm] tm]|]; [|eauto]. destruct (Hs orig fm tm eq_refl) as (Hr & Ho & orig_to & _ & Hn & Hx).
  destruct (next_state_modes share attrs orig orig_to fm tm Ho Hat Hn) as [Hfm _].
  change (pa_from_ipa (ipa_init b)) with (pa_init b). change (pa_from_ipa (ipa_init e)) with (pa_init e).
  destruct (map2_returns (ptable from_i) b e fm (new_local st) Hf Hst Hr) as (ok & ft1 & st1 & Hmap & Hw1 & Hst1).
  rewrite Hmap. cbn [mbind exec_bind]. destruct ok; cbn [negb]; [|eauto].
  assert (Hsp : splits2 b e ft1).
  { eapply map2_splits; [exact Hf|exact Hst|done|done| |exact Hmap]. intros x Hxr. destruct (Hx x Hxr) as [-> _].
    by eapply next_state_changes. }
  destruct (map2_returns (ptable to_i) b e tm st1 Ht Hst1 Hr) as (ok3 & tot3 & st3 & -> & Hw3 & Hst3). cbn [mbind exec_bind].
  destruct ok3; cbn [negb]; [eauto|].
  destruct (map2_undo_defrag ft1 b e orig st3 Hw1 Hst3 Hr Hsp) as (ft4 & st4 & -> & ft5 & st5 & Hm5 & _).
  cbn [mbind exec_bind]. rewrite Hm5. cbn. eauto.
Qed.

(** ** [configure] *)
Lemma configure_stage1_returns m b1 b2 hp st :
  wf1 hp → st_inv st → hp_range b1 (b1 + 4096) → hp_range b2 (b2 + 4096) → b1 ≠ b2 → hp_clear hp b1 (b1 + 4096) →
  ∃ ok m' hp' st', configure_stage1 m (pa_init b1) (pa_init (b1 + 4096)) (pa_init b2) (pa_init (b2 + 4096)) hp st
    = Done (ok, m', hp', st') ∧ st_inv st'.
Proof.
  intros Hwf Hst Hr1 Hr2 Hne Hc. unfold configure_stage1.
  assert (Hd : b2 + 4096 ≤ b1 ∨ b1 + 4096 ≤ b2).
  { destruct Hr1 as (H1 & _), Hr2 as (H2 & _). apply aligned_exists in H1 as [q1 ->], H2 as [q2 ->]; lia. }
  destruct (map1_returns hp b1 (b1 + 4096) Mode.R st Hwf Hst Hr1) as (ok & hp1 & st1 & Hmap & Hw1 & Hst1 & _). rewrite Hmap.
  cbn [mbind exec_bind]. destruct ok; cbn [negb].
  2:{ destruct (mm_defrag_returns hp1 st1 Hw1 Hst1) as (hp2 & st2 & -> & _ & ?). cbn. do 4 eexists. by split. }
  pose proof (map1_splits hp b1 (b1 + 4096) Mode.R st hp1 st1 Hwf Hst Hr1 Hc s1_attrs_R Hmap) as Hs.
  destruct (map1_returns hp1 b2 (b2 + 4096) Mode.W st1 Hw1 Hst1 Hr2) as (ok2 & hp2 & st2 & Hmap2 & Hw2 & Hst2 & _). rewrite Hmap2.
  cbn [mbind exec_bind]. destruct ok2; cbn [negb]; [do 4 eexists; by split|].
  eapply (map1_keeps b1 (b1 + 4096)) in Hmap2; [|exact Hw1|exact Hst1|done|done|exact Hs].
  destruct (unmap1_undo_defrag hp2 b1 (b1 + 4096) st2 Hw2 Hst2 Hr1 Hmap2) as (hp3 & st3 & -> & hp4 & st4 & Hun & Hst4).
  cbn [mbind exec_bind]. rewrite Hun. cbn. do 4 eexists. by split.
Qed.

Lemma configure_pages_returns i b1 b2 o1 o2 hp st :
  wf2 (ptable i) → wf1 hp → st_inv st → page_range p b1 → page_range p b2 → b1 ≠ b2 →
  b1 + 4096 ≤ 2 ^ 39 → b2 + 4096 ≤ 2 ^ 39 → hp_clear hp b1 (b1 + 4096) →
  (∀ x, b1 ≤ x < b1 + 4096 → vm_mode p (ptable i) x ≠ norm send_mode) →
  (∀ x, b2 ≤ x < b2 + 4096 → vm_mode p (ptable i) x ≠ norm recv_mode) →
  ∃ r, configure_pages i (pa_init b1) (pa_init (b1 + 4096)) o1 (pa_init b2) (pa_init (b2 + 4096)) o2 hp st = Done r.
Proof.
  intros Hwf Hh Hst0 Hr1 Hr2 Hne He1 He2 Hc Hm1 Hm2. unfold configure_pages. cbv zeta. fold send_mode. fold recv_mode.
  destruct (new_local_inv st Hst0) as [Hst _].
  assert (Hsm : stage2_mode send_mode) by (by_computation).
  assert (Hrm : stage2_mode recv_mode) by (by_computation).
  assert (Hd : b2 + 4096 ≤ b1 ∨ b1 + 4096 ≤ b2).
  { destruct Hr1 as (H1 & _), Hr2 as (H2 & _). apply aligned_exists in H1 as [q1 ->], H2 as [q2 ->]; lia. }
  destruct (map2_returns (ptable i) b1 (b1 + 4096) send_mode (new_local st) Hwf Hst Hr1) as (ok1 & t1 & st1 & Hmap1 & Hw1 & Hst1).
  rewrite Hmap1. cbn [mbind exec_bind]. destruct ok1; cbn [negb]; [|eauto].
  assert (Hs1 : splits2 b1 (b1 + 4096) t1) by (by apply (map2_splits (ptable i) _ _ send_mode (new_local st) t1 st1)).
  destruct (map2_returns t1 b2 (b2 + 4096) recv_mode st1 Hw1 Hst1 Hr2) as (ok2 & t2 & st2 & Hmap2 & Hw2 & Hst2).
  assert (Hs1' : splits2 b1 (b1 + 4096) t2) by (eapply map2_keeps; [exact Hw1|exact Hst1|exact Hr2|done|exact Hmap2|done]).
  rewrite Hmap2. cbn [mbind exec_bind]. destruct ok2; cbn [negb].
  2:{ destruct (map2_undo_defrag t2 b1 (b1 + 4096) o1 st2 Hw2 Hst2 Hr1 Hs1') as (t3 & st3 & -> & t4 & st4 & Hm4 & _).
      cbn [mbind exec_bind]. rewrite Hm4. cbn. eauto. }
  assert (Hs2 : splits2 b2 (b2 + 4096) t2).
  { eapply (map2_splits t1 _ _ recv_mode); [exact Hw1|exact Hst1|done|done| |exact Hmap2]. intros x Hx.
    destruct (identity_map_vm p (ptable i) b1 (b1 + 4096) send_mode (new_local st) true t1 st1) as [_ Hx1]; [done..|].
    destruct Hr2 as (_ & _ & ? & ?). rewrite Hx1 by lia. unfold new_mode. rewrite bool_decide_false by lia.
    rewrite andb_false_r. by apply Hm2. }
  assert (Hh1 : hp_range b1 (b1 + 4096)) by (destruct Hr1 as (?&?&?&?); done).
  assert (Hh2 : hp_range b2 (b2 + 4096)) by (destruct Hr2 as (?&?&?&?); done).
  destruct (configure_stage1_returns (mailbox i) b1 b2 hp st2 Hh Hst2 Hh1 Hh2 Hne Hc) as (ok3 & m3 & hp3 & st3 & -> & Hst3).
  cbn [mbind exec_bind]. destruct ok3; cbn [negb]; [eauto|].
  destruct (map2_undo t2 b2 (b2 + 4096) o2 st3 Hw2 Hst3 Hr2 Hs2) as (t4 & st4 & Hm4 & Hw4 & Hst4). rewrite Hm4.
  cbn [mbind exec_bind assert_then].
  assert (Hs4 : splits2 b1 (b1 + 4096) t4) by (eapply map2_keeps; [exact Hw2|exact Hst3|exact Hr2|done|exact Hm4|done]).
  destruct (map2_undo t4 b1 (b1 + 4096) o1 st4 Hw4 Hst4 Hr1 Hs4) as (t5 & st5 & -> & _). cbn. eauto.
Qed.

Lemma configure_runs i b1 b2 hp st :
  wf2 (ptable i) → wf1 hp → st_inv st → in_u 64 b1 → in_u 64 b2 → b1 + 4096 ≤ 2 ^ 39 → b2 + 4096 ≤ 2 ^ 39 →
  hp_clear hp b1 (b1 + 4096) → ∃ r, configure i (ipa_init b1) (ipa_init b2) hp st = Done r.
Proof.
  intros Hwf Hh Hst Hu1 Hu2 He1 He2 Hc. unfold configure. cbv zeta.
  cbn [ipa_addr ipa_init ipa pa_from_ipa pa_init pa_addr pa]. unfold pa_add, ipa_add, pa_from_ipa.
  cbn [ipa_addr ipa_init ipa pa_init pa_addr pa].
  destruct (is_aligned b1 PAGE_SIZE) eqn:Ha1; cbn [negb orb]; [|eauto].
  destruct (is_aligned b2 PAGE_SIZE) eqn:Ha2; cbn [negb]; [|eauto].
  apply is_aligned_page in Ha1. apply is_aligned_page in Ha2. rewrite PAGE_SIZE_val.
  rewrite !wadd_small by (unfold in_u in *; lia).
  destruct (Z.eqb_spec b1 b2) as [|Hne]; [eauto|]. destruct (is_configured i); [eauto|].
  assert (Hget : ∀ b, in_u 64 b → aligned 4096 b → b + 4096 ≤ 2 ^ 39 →
    ∃ r, get_mode (SG := @Stage2 (aarch64 p)) (ptable i) (ipa_init b) (ipa_init (b + 4096)) = Done r ∧
      ∀ m, r = Ok m → Mode.valid_owned_exclusive m = true → page_range p b ∧
        ∀ x, b ≤ x < b + 4096 → owner (vm_mode p (ptable i) x) = true).
  { intros b Hu Ha He. assert (aligned 4096 (b + 4096)) by by apply aligned_add.
    destruct (get_mode_returns (ptable i) b (b + 4096)) as [r Hr]; [done|done|unfold in_u in *; lia|done|done|].
    exists r. split; [done|]. intros m -> Hv. assert (Heq : b +w PAGE_SIZE = b + 4096) by (rewrite PAGE_SIZE_val; apply wadd_small; unfold in_u in *; lia).
    rewrite <-Heq in Hr. destruct (configure_check p _ b _ Hwf Hu Ha Hr m eq_refl Hv) as (? & _ & _ & Hx).
    split; [done|]. intros x Hxr. by destruct (Hx x Hxr) as (_ & ? & _). }
  destruct (Hget b1 Hu1 Ha1 He1) as (r1 & -> & Hr1). cbn [mbind exec_bind]. destruct r1 as [m1|]; [|eauto].
  destruct (Mode.valid_owned_exclusive m1) eqn:Hv1; cbn [andb]; [|eauto]. destruct (bf_contains m1 _); cbn [negb]; [|eauto].
  destruct (Hr1 m1 eq_refl Hv1) as [Hp1 Ho1].
  destruct (Hget b2 Hu2 Ha2 He2) as (r2 & -> & Hr2). cbn [mbind exec_bind]. destruct r2 as [m2|]; [|eauto].
  destruct (Mode.valid_owned_exclusive m2) eqn:Hv2; cbn [andb]; [|eauto]. destruct (bf_contains m2 _); cbn [negb]; [|eauto].
  destruct (Hr2 m2 eq_refl Hv2) as [Hp2 Ho2].
  assert (Hs : owner (norm send_mode) = false) by done. assert (Hr : owner (norm recv_mode) = false) by done.
  apply configure_pages_returns; try done; intros x Hx Heq.
  - specialize (Ho1 x Hx). rewrite Heq in Ho1. congruence.
  - specialize (Ho2 x Hx). rewrite Heq in Ho2. congruence.
Qed.
End rollback.
