(* ===== verification/Touch.v ===== *)
(** * What a call does to the vCPUs

    A call made by one vCPU leaves the others alone: it changes no execution lock, no
    assignment to a CPU, no state but that of the caller, and no register but the
    return value of the primary's vCPU on the same CPU.  [vcpu_run], which hands out a
    vCPU, is described separately.  The roots of the page tables stay where they
    are. *)
From S2P Require Import Prelude Addr Mode Arch ArchAarch64 Mpool Mm MmSpec PageTables MemoryManager Stage2Modes Abi.
From S2P Require Import ArchCpu Interrupts Cpu Vm Memory Spci Hypervisor Api Frames Isolation.

(** ** Looking up vCPUs *)
Definition vcpu_at (hv : Hypervisor) (x : vref) : option VCpu := hv_vms hv !! x.1 ≫= λ vm, vcpus vm !! x.2.
(** The CPU a vCPU is assigned to. *)
Definition cpu_of (hv : Hypervisor) (x : vref) : option nat := vcpu_at hv x ≫= λ v, vi_cpu (vc_inner v).

Lemma vcpu_of_at hv x v : vcpu_of hv x = Done v ↔ vcpu_at hv x = Some v.
Proof.
  unfold vcpu_of, vcpu_at, vm_of. destruct (hv_vms hv !! x.1) as [vm|]; cbn; [|done].
  destruct (vcpus vm !! x.2); cbn; naive_solver.
Qed.
Lemma vcpu_at_upd_vm v f hv x :
  vcpu_at (upd_vm v f hv) x =
  if decide (x.1 = v) then hv_vms hv !! v ≫= λ vm, vcpus (f vm) !! x.2 else vcpu_at hv x.
Proof.
  unfold vcpu_at, upd_vm. cbn [hv_vms set_vms]. destruct (decide (x.1 = v)) as [->|].
  - rewrite list_lookup_alter_eq. by destruct (hv_vms hv !! v).
  - by rewrite list_lookup_alter_ne.
Qed.
Lemma vcpu_at_upd_vc y f hv x :
  vcpu_at (upd_vc y f hv) x = if decide (x = y) then f <$> vcpu_at hv y else vcpu_at hv x.
Proof.
  unfold upd_vc. rewrite vcpu_at_upd_vm. destruct x as [x1 x2], y as [y1 y2]; cbn [fst snd].
  destruct (decide (x1 = y1)) as [->|]; [|by rewrite decide_False by congruence].
  unfold vcpu_at. cbn [fst snd]. destruct (hv_vms hv !! y1) as [vm|]; cbn; [|by case_decide].
  destruct (decide (x2 = y2)) as [->|]; [|by rewrite list_lookup_alter_ne, decide_False by congruence].
  by rewrite list_lookup_alter_eq, decide_True.
Qed.
Lemma vcpu_at_upd_inner v f hv x : vcpu_at (upd_vm v (upd_vm_inner f) hv) x = vcpu_at hv x.
Proof.
  rewrite vcpu_at_upd_vm. destruct (decide _) as [<-|]; [|done]. unfold vcpu_at. by destruct (hv_vms hv !! x.1).
Qed.

(** ** Registers up to the return value *)
Definition same_but_r0 (a b : ArchRegs) : Prop := set_retval a 0 = set_retval b 0.
#[export] Instance same_but_r0_equiv : Equivalence same_but_r0.
Proof. unfold same_but_r0. split; red; intros; congruence. Qed.
Lemma set_retval_twice g v w : set_retval (set_retval g v) w = set_retval g w.
Proof. unfold set_retval. cbn. by rewrite list_insert_insert_eq. Qed.
Lemma set_retval_same g v : same_but_r0 g (set_retval g v).
Proof. unfold same_but_r0. by rewrite set_retval_twice. Qed.
Lemma same_but_r0_lazy a b : same_but_r0 a b → lazy a = lazy b.
Proof. unfold same_but_r0, set_retval. congruence. Qed.

(** ** A call of vCPU [c] on CPU [k], seen by vCPU [x] *)
Record touched (c : vref) (k : option nat) (x : vref) (v v' : VCpu) : Prop := {
  t_lock : vc_locked v' = vc_locked v;
  t_cpu : vi_cpu (vc_inner v') = vi_cpu (vc_inner v);
  t_state : x ≠ c → vi_state (vc_inner v') = vi_state (vc_inner v);
  t_regs : same_but_r0 (vi_regs (vc_inner v)) (vi_regs (vc_inner v'));
  t_own : x.1 = primary_index ∧ Some x.2 = k ∨ vi_regs (vc_inner v') = vi_regs (vc_inner v);
}.
#[export] Instance touched_preorder c k x : PreOrder (touched c k x).
Proof.
  split.
  - intros v. split; auto. reflexivity.
  - intros a b d [] []. split; try congruence.
    + intros Hx. rewrite t_state1, t_state0 by done. done.
    + destruct t_own0, t_own1; try tauto. right. congruence.
Qed.
Lemma touched_ints c k x v i : touched c k x v (upd_interrupts i v).
Proof. split; auto. reflexivity. Qed.
Lemma touched_state c k v s : touched c k c v (upd_inner (with_state s) v).
Proof. split; try done. by right. Qed.
Lemma touched_retval c k i v w :
  k = Some i → touched c k (primary_index, i) v (upd_inner (with_regs (λ g, set_retval g w)) v).
Proof. intros ->. split; try done; [apply set_retval_same|by left]. Qed.
#[export] Hint Resolve touched_ints touched_state touched_retval : hfo2.

(** The whole system. *)
Record evolves (c : vref) (k : option nat) (hv hv' : Hypervisor) : Prop := {
  ev_cpus : hv_cpus hv' = hv_cpus hv;
  ev_ids : vm_id <$> hv_vms hv' = vm_id <$> hv_vms hv;
  ev_vcpu x : option_Forall2 (touched c k x) (vcpu_at hv x) (vcpu_at hv' x);
}.
#[export] Instance evolves_preorder c k : PreOrder (evolves c k).
Proof.
  split.
  - intros hv. split; [done..|]. intros x. destruct (vcpu_at hv x); by constructor.
  - intros h1 h2 h3 [C1 I1 V1] [C2 I2 V2]. split; [congruence..|]. intros x. specialize (V1 x). specialize (V2 x).
    destruct V1 as [a b Hab|]; inversion V2; subst; [|constructor]. constructor. by etrans.
Qed.

Lemma evolves_at c k hv hv' x v' :
  evolves c k hv hv' → vcpu_at hv' x = Some v' → ∃ v, vcpu_at hv x = Some v ∧ touched c k x v v'.
Proof. intros [_ _ V] Hx. specialize (V x). rewrite Hx in V. inversion V; subst. eauto. Qed.
Lemma evolves_at_1 c k hv hv' x v :
  evolves c k hv hv' → vcpu_at hv x = Some v → ∃ v', vcpu_at hv' x = Some v' ∧ touched c k x v v'.
Proof. intros [_ _ V] Hx. specialize (V x). rewrite Hx in V. inversion V; subst. eauto. Qed.
Lemma evolves_cpu_of c k hv hv' x : evolves c k hv hv' → cpu_of hv' x = cpu_of hv x.
Proof. intros [_ _ V]. unfold cpu_of. destruct (V x) as [? ? T|]; [apply T|done]. Qed.

Lemma evolves_vc c k x f hv :
  (∀ v, vcpu_at hv x = Some v → touched c k x v (f v)) → evolves c k hv (upd_vc x f hv).
Proof.
  intros Hf. split; [done| |].
  - unfold upd_vc, upd_vm. cbn [hv_vms set_vms]. apply list_eq. intros i. rewrite !list_lookup_fmap.
    destruct (decide (i = x.1)) as [->|]; [|by rewrite list_lookup_alter_ne].
    rewrite list_lookup_alter_eq. by destruct (hv_vms hv !! x.1).
  - intros y. rewrite vcpu_at_upd_vc. destruct (decide (y = x)) as [->|].
    + destruct (vcpu_at hv x) eqn:E; constructor; auto.
    + destruct (vcpu_at hv y); by constructor.
Qed.
Lemma evolves_inner c k v f hv : evolves c k hv (upd_vm v (upd_vm_inner f) hv).
Proof.
  split; [done| |].
  - unfold upd_vm. cbn [hv_vms set_vms]. apply list_eq. intros i. rewrite !list_lookup_fmap.
    destruct (decide (i = v)) as [->|]; [|by rewrite list_lookup_alter_ne].
    rewrite list_lookup_alter_eq. by destruct (hv_vms hv !! v).
  - intros y. rewrite vcpu_at_upd_inner. destruct (vcpu_at hv y); by constructor.
Qed.
(** Changes outside of the vCPUs. *)
Lemma evolves_same c k hv hv' : hv_cpus hv' = hv_cpus hv → hv_vms hv' = hv_vms hv → evolves c k hv hv'.
Proof.
  intros Hc Hv. split; [done|by rewrite Hv|]. intros x. unfold vcpu_at. rewrite Hv.
  destruct (hv_vms hv !! x.1 ≫= _); by constructor.
Qed.
#[export] Hint Resolve evolves_inner : hfo2.

(** ** The calls *)
Section calls.
Context (c : vref) (k : option nat).

(** The state after some changes that are not to vCPUs. *)
Lemma ev_inner hv h v f : evolves c k hv h → evolves c k hv (upd_vm v (upd_vm_inner f) h).
Proof. intros H. etrans; [exact H|]. apply evolves_inner. Qed.
Lemma ev_set_inner hv h v i : evolves c k hv h → evolves c k hv (set_inner v i h).
Proof. apply ev_inner. Qed.
Lemma ev_ints hv h x i : evolves c k hv h → evolves c k hv (upd_vc x (upd_interrupts i) h).
Proof. intros H. etrans; [exact H|]. apply evolves_vc. auto with hfo2. Qed.
Lemma ev_abort hv h v :
  evolves c k hv h → evolves c k hv (upd_vm v (λ vm, mkVm (vm_id vm) (vcpus vm) (vm_inner vm) true) h).
Proof.
  intros H. etrans; [exact H|]. split; [done| |].
  - unfold upd_vm. cbn [hv_vms set_vms]. apply list_eq. intros i. rewrite !list_lookup_fmap.
    destruct (decide (i = v)) as [->|]; [|by rewrite list_lookup_alter_ne].
    rewrite list_lookup_alter_eq. by destruct (hv_vms h !! v).
  - intros x. rewrite vcpu_at_upd_vm. destruct (decide _) as [<-|]; unfold vcpu_at;
      (destruct (hv_vms h !! x.1) as [vm|]; cbn; [destruct (vcpus vm !! x.2)|]; by constructor).
Qed.
Lemma ev_set_mm hv h st : evolves c k hv h → evolves c k hv (set_mm st h).
Proof. intros H. etrans; [exact H|]. by apply evolves_same. Qed.
Lemma ev_set_mem hv h m : evolves c k hv h → evolves c k hv (set_mem m h).
Proof. intros H. etrans; [exact H|]. by apply evolves_same. Qed.
Lemma ev_set_links hv h l : evolves c k hv h → evolves c k hv (set_links l h).
Proof. intros H. etrans; [exact H|]. by apply evolves_same. Qed.
Lemma ev_set_hp hv h t : evolves c k hv h → evolves c k hv (set_hv_ptable t h).
Proof. intros H. etrans; [exact H|]. by apply evolves_same. Qed.
Lemma ev_refl hv : evolves c k hv hv.
Proof. done. Qed.
#[local] Hint Resolve ev_inner ev_set_inner ev_ints ev_abort ev_set_mm ev_set_mem ev_set_links ev_set_hp ev_refl : core.

(** The state after a call and the vCPU to switch to: the primary's on the CPU. *)
Definition evolved (hv : Hypervisor) (next : option vref) (hv' : Hypervisor) : Prop :=
  evolves c k hv hv' ∧ ∀ n, next = Some n → ∃ i, k = Some i ∧ n = (primary_index, i).

Lemma evolved_none hv hv' : evolves c k hv hv' → evolved hv None hv'.
Proof. by split. Qed.
Lemma switch_to_primary_evolved hw now hv h ret s next hv' :
  switch_to_primary hw now h c ret s = Done (next, hv') → cpu_of hv c = k → evolves c k hv h →
  evolved hv (Some next) hv'.
Proof.
  intros H Hk Hev. rewrite <-(evolves_cpu_of _ _ _ _ _ Hev) in Hk. unfold switch_to_primary in H.
  apply bind_Done_inv in H as (pr & _ & H).
  apply bind_Done_inv in H as (cur & Hc%vcpu_of_at & H). apply bind_Done_inv in H as (i & Hi & H).
  apply bind_Done_inv in H as (_ & _ & H). cbv zeta in H. injection H as <- <-.
  unfold cpu_of in Hk. rewrite Hc in Hk. cbn in Hk. unfold index_of in Hi.
  rewrite Hk in Hi. destruct k as [j|] eqn:Ek; [|done]. injection Hi as ->. split; rewrite Ek.
  - etrans; [exact Hev|]. etrans; apply evolves_vc; eauto with hfo2.
  - intros n [= <-]. by exists i.
Qed.
#[local] Hint Resolve evolved_none switch_to_primary_evolved : core.

Ltac evolve H := unbind H; simplify_eq; eauto 10.

Lemma wake_up_evolved hw now hv h t next hv' :
  wake_up hw now h c t = Done (next, hv') → cpu_of hv c = k → evolves c k hv h → evolved hv (Some next) hv'.
Proof. unfold wake_up. intros H Hk Hev. evolve H. Qed.
#[local] Hint Resolve wake_up_evolved : core.
Lemma internal_inject_evolved hw now hv t intid r next hv' :
  internal_interrupt_inject hw now hv t intid c = Done (r, next, hv') → cpu_of hv c = k → evolved hv next hv'.
Proof. unfold internal_interrupt_inject. intros H Hk. evolve H. Qed.
Lemma waiter_result_evolved hw now hv h id i r next hv' :
  waiter_result hw now h id i c = Done (r, next, hv') → cpu_of hv c = k → evolves c k hv h → evolved hv next hv'.
Proof. unfold waiter_result. intros H Hk Hev. evolve H. Qed.
Lemma deliver_evolved hw now hv h to from r next hv' :
  deliver hw now h to from c = Done (r, next, hv') → cpu_of hv c = k → evolves c k hv h → evolved hv next hv'.
Proof. unfold deliver. intros H Hk Hev. evolve H. Qed.
#[local] Hint Resolve internal_inject_evolved waiter_result_evolved deliver_evolved : core.

Lemma preempt_evolved hw now hv n hv' :
  api_preempt hw now hv c = Done (n, hv') → cpu_of hv c = k → evolved hv (Some n) hv'.
Proof. unfold api_preempt, preempt. eauto. Qed.
Lemma wait_for_interrupt_evolved hw now hv n hv' :
  api_wait_for_interrupt hw now hv c = Done (n, hv') → cpu_of hv c = k → evolved hv (Some n) hv'.
Proof. unfold api_wait_for_interrupt, wait_for_interrupt. eauto. Qed.
Lemma vcpu_off_evolved hw now hv n hv' hw' :
  api_vcpu_off hw now hv c = Done (n, hv', hw') → cpu_of hv c = k → evolved hv (Some n) hv'.
Proof. unfold api_vcpu_off, vcpu_off. intros H Hk. evolve H. Qed.
Lemma yield_evolved hw now hv r n hv' :
  api_spci_yield hw now hv c = Done (r, n, hv') → cpu_of hv c = k → evolved hv n hv'.
Proof. unfold api_spci_yield, spci_yield. intros H Hk. unbind H. all: unbind E; simplify_eq; eauto. Qed.
Lemma abort_evolved hw now hv n hv' :
  api_abort hw now hv c = Done (Some (n, hv')) → cpu_of hv c = k → evolved hv (Some n) hv'.
Proof. unfold api_abort, abort. intros H Hk. evolve H. Qed.
Lemma msg_recv_evolved hw now hv a r n hv' :
  api_spci_msg_recv hw now hv a c = Done (r, n, hv') → cpu_of hv c = k → evolved hv n hv'.
Proof. unfold api_spci_msg_recv, spci_msg_recv. intros H Hk. unbind H. all: unbind E; simplify_eq; eauto. Qed.
Lemma mailbox_clear_evolved hw now hv r n hv' :
  api_mailbox_clear hw now hv c = Done (r, n, hv') → cpu_of hv c = k → evolved hv n hv'.
Proof. unfold api_mailbox_clear, mailbox_clear. intros H Hk. evolve H. Qed.
Lemma interrupt_inject_evolved hw now hv id idx i r n hv' :
  api_interrupt_inject hw now hv id idx i c = Done (r, n, hv') → cpu_of hv c = k → evolved hv n hv'.
Proof. unfold api_interrupt_inject, interrupt_inject. intros H Hk. evolve H. Qed.
Lemma writable_get_evolves hv r hv' : api_mailbox_writable_get hv c = Done (r, hv') → evolves c k hv hv'.
Proof. unfold api_mailbox_writable_get, mailbox_writable_get. intros H. unbind H. unbind E; simplify_eq; eauto. Qed.
Lemma waiter_get_evolves hv id r hv' : api_mailbox_waiter_get hv id c = Done (r, hv') → evolves c k hv hv'.
Proof.
  unfold api_mailbox_waiter_get, mailbox_waiter_get. intros H. unbind H. unbind E; simplify_eq; eauto 10.
  all: destruct (negb (bool_decide (_ ∈ _))); eauto 10.
Qed.
Lemma interrupt_enable_evolves hv i on r hv' : api_interrupt_enable hv i on c = Done (r, hv') → evolves c k hv hv'.
Proof. unfold api_interrupt_enable, interrupt_enable. intros H. unbind H. all: unbind E; simplify_eq; eauto. Qed.
Lemma interrupt_get_evolves hv r hv' : api_interrupt_get hv c = Done (r, hv') → evolves c k hv hv'.
Proof. unfold api_interrupt_get, interrupt_get. intros H. evolve H. Qed.
Lemma debug_log_evolves hv ch r o hv' : api_debug_log hv ch c = Done (r, o, hv') → evolves c k hv hv'.
Proof. unfold api_debug_log, hv_debug_log. intros H. unbind H. unbind E; simplify_eq; eauto. Qed.

Lemma vm_configure_evolved `{ArchMM} `{ReduceCrate} hw now hv s v r n hv' :
  api_vm_configure hw now hv s v c = Done (r, n, hv') → cpu_of hv c = k → evolved hv n hv'.
Proof. unfold api_vm_configure, vm_configure. intros HH Hk. evolve HH. Qed.
Lemma msg_send_evolved `{ArchMM} `{ReduceCrate} B hw now hv a r n hv' :
  api_spci_msg_send B hw now hv a c = Done (r, n, hv') → cpu_of hv c = k → evolved hv n hv'.
Proof. unfold api_spci_msg_send, spci_msg_send. intros HH Hk. unbind HH. unbind E; simplify_eq; eauto 10. Qed.
Lemma share_memory_evolves `{ArchMM} `{ReduceCrate} hv id a z s r hv' :
  api_share_memory hv id a z s c = Done (r, hv') → evolves c k hv hv'.
Proof. unfold api_share_memory, share_memory. intros HH. unbind HH. all: try unbind E0; simplify_eq; eauto 10. Qed.
End calls.

(** ** Handing out a vCPU *)
Definition runnable (v : VCpu) : Prop :=
  match vi_state (vc_inner v) with
  | VCpuStatus.Ready | VCpuStatus.BlockedMailbox | VCpuStatus.BlockedInterrupt => True
  | _ => False
  end.

(** [v'] is [v] as it is given to CPU [k]. *)
Record handed (k : option nat) (v v' : VCpu) : Prop := {
  h_free : vc_locked v = false;
  h_runnable : runnable v;
  h_locked : vc_locked v' = true;
  h_cpu : vi_cpu (vc_inner v') = k;
  h_state : vi_state (vc_inner v') = vi_state (vc_inner v);
  h_lazy : lazy (vi_regs (vc_inner v')) = lazy (vi_regs (vc_inner v));
}.

Lemma prepare_locked_effect hw n1 n2 vm v k ret res vm' v' :
  vc_locked v = false → prepare_locked hw n1 n2 vm (set_lock true v) k ret = (res, vm', v') →
  vcpus vm' = vcpus vm ∧ vm_id vm' = vm_id vm ∧
  match res with
  | Ok _ => handed k v v'
  | Err _ => vcpu_unlock v' = v ∨ vcpu_unlock v' = upd_inner (with_state VCpuStatus.Aborted) v
  end.
Proof.
  intros Hl H. assert (Hu : vcpu_unlock (set_lock true v) = v) by (destruct v; cbn in *; by subst).
  assert (Ha : vcpu_unlock (upd_inner (with_state VCpuStatus.Aborted) (set_lock true v))
               = upd_inner (with_state VCpuStatus.Aborted) v) by (destruct v; cbn in *; by subst).
  unfold prepare_locked in H. cbv zeta in H.
  destruct (aborting vm); [case_bool_decide; simplify_eq; auto|].
  destruct (vi_state (vc_inner (set_lock true v))) eqn:Hs; cbn in Hs.
  - simplify_eq; auto.
  - simplify_eq. split_and!; [done..|]. by split; unfold runnable; rewrite ?Hs.
  - destruct (try_read _) as [ok m]. destruct ok.
    { simplify_eq. split_and!; [done..|]. by split; unfold runnable; rewrite ?Hs. }
    destruct (negb _ && _); [simplify_eq; auto|]. simplify_eq. split_and!; [done..|]. by split; unfold runnable; rewrite ?Hs.
  - destruct (negb _ && _); [simplify_eq; auto|]. simplify_eq. split_and!; [done..|]. by split; unfold runnable; rewrite ?Hs.
  - simplify_eq; auto.
Qed.

Lemma upd_vm_ids v f hv :
  (∀ vm, hv_vms hv !! v = Some vm → vm_id (f vm) = vm_id vm) → vm_id <$> hv_vms (upd_vm v f hv) = vm_id <$> hv_vms hv.
Proof.
  intros Hf. unfold upd_vm. cbn [hv_vms set_vms]. apply list_eq. intros i. rewrite !list_lookup_fmap.
  destruct (decide (i = v)) as [->|]; [|by rewrite list_lookup_alter_ne].
  rewrite list_lookup_alter_eq. destruct (hv_vms hv !! v) eqn:E; [|done]. cbn. f_equal. auto.
Qed.

(** The vCPUs after [vcpu_run]. *)
Definition run_effect (k : option nat) (hv : Hypervisor) (r : result vref HfVCpuRunReturn) (hv' : Hypervisor) : Prop :=
  match r with
  | Ok t =>
      (∃ v v', vcpu_at hv t = Some v ∧ vcpu_at hv' t = Some v' ∧ handed k v v') ∧
      ∀ x, x ≠ t → vcpu_at hv' x = vcpu_at hv x
  | Err _ =>
      ∀ x, vcpu_at hv' x = vcpu_at hv x ∨
        ∃ v, vcpu_at hv x = Some v ∧ vc_locked v = false ∧
             vcpu_at hv' x = Some (upd_inner (with_state VCpuStatus.Aborted) v)
  end.

Lemma prepare_run_effect hw n1 n2 hv c t ret r hv' :
  vcpu_prepare_run hw n1 n2 hv c t ret = Done (r, hv') →
  hv_cpus hv' = hv_cpus hv ∧ vm_id <$> hv_vms hv' = vm_id <$> hv_vms hv ∧ (∀ t', r = Ok t' → t' = t) ∧
  run_effect (cpu_of hv c) hv r hv'.
Proof.
  intros H. unfold vcpu_prepare_run in H. apply bind_Done_inv in H as (v & Hv%vcpu_of_at & H).
  unfold vcpu_try_lock in H. destruct (vc_locked v) eqn:Hl; cbn [negb] in H.
  { simplify_eq. split_and!; try done. intros x. by left. }
  apply bind_Done_inv in H as (vm & Hvm%vm_of_Some & H). apply bind_Done_inv in H as (cur & Hc%vcpu_of_at & H).
  destruct (prepare_locked _ _ _ _ _ _ _) as [[res vm'] v'] eqn:Hp.
  apply prepare_locked_effect in Hp as (Hvs & Hid & He); [|done]. cbv zeta in H.
  assert (Hk : cpu_of hv c = vi_cpu (vc_inner cur)) by (unfold cpu_of; by rewrite Hc).
  assert (Hat : ∀ w x, vcpu_at (upd_vm t.1 (λ _, upd_vcpu t.2 (λ _, w) vm') hv) x = if decide (x = t) then Some w else vcpu_at hv x).
  { intros w x. rewrite vcpu_at_upd_vm. destruct t as [t1 t2], x as [x1 x2]; cbn [fst snd] in *.
    destruct (decide (x1 = t1)) as [->|]; [|by rewrite decide_False by congruence].
    rewrite Hvm. cbn. rewrite Hvs. unfold vcpu_at in *. cbn in *. rewrite Hvm in *. cbn in *.
    destruct (decide (x2 = t2)) as [->|]; [|by rewrite list_lookup_alter_ne, decide_False by congruence].
    by rewrite list_lookup_alter_eq, Hv, decide_True. }
  assert (Hids : ∀ w, vm_id <$> hv_vms (upd_vm t.1 (λ _, upd_vcpu t.2 (λ _, w) vm') hv) = vm_id <$> hv_vms hv).
  { intros w. apply upd_vm_ids. intros vm0 Hvm0. rewrite Hvm in Hvm0. by injection Hvm0 as <-. }
  destruct res; injection H as <- <-; (split_and!; [done|apply Hids|naive_solver|]).
  - split; [exists v, v'; rewrite Hat, decide_True, Hk by done; done|]. intros x Hx. by rewrite Hat, decide_False.
  - intros x. rewrite Hat. destruct (decide (x = t)) as [->|]; [|by left].
    destruct He as [->| ->]; [by left|]. right. eauto.
Qed.

(** An interrupt for the calling vCPU itself. *)
Lemma inject_self hw now hv t intid r n hv' :
  internal_interrupt_inject hw now hv t intid t = Done (r, n, hv') → ∃ i, hv' = upd_vc t (upd_interrupts i) hv.
Proof.
  unfold internal_interrupt_inject. intros H. unbind H; simplify_eq; eauto. by rewrite bool_decide_eq_true_2 in *.
Qed.

Lemma handed_masked k v v' i :
  handed k v v' → handed k v (upd_inner (with_regs arch_timer_mask) (upd_interrupts i v')).
Proof. intros []. by split. Qed.

Lemma vcpu_run_effect hw n1 n2 n3 hv id idx c r hv' :
  vcpu_run hw n1 n2 n3 hv id idx c = Done (r, hv') →
  hv_cpus hv' = hv_cpus hv ∧ vm_id <$> hv_vms hv' = vm_id <$> hv_vms hv ∧ run_effect (cpu_of hv c) hv r hv' ∧
  ∀ t, r = Ok t → t.1 ≠ primary_index ∧ ∃ vm, hv_vms hv !! c.1 = Some vm ∧ vm_id vm = HF_PRIMARY_VM_ID.
Proof.
  intros H. unfold vcpu_run in H. cbv zeta in H. apply bind_Done_inv in H as (cur & Hcur%vm_of_Some & H).
  assert (Hno : ∀ ret, hv_cpus hv = hv_cpus hv ∧ vm_id <$> hv_vms hv = vm_id <$> hv_vms hv ∧
    run_effect (cpu_of hv c) hv (Err ret) hv ∧ ∀ t : vref, Err ret = Ok t →
    t.1 ≠ primary_index ∧ ∃ vm, hv_vms hv !! c.1 = Some vm ∧ vm_id vm = HF_PRIMARY_VM_ID).
  { intros ret. split_and!; try done. intros x. by left. }
  destruct (Z.eqb_spec (vm_id cur) HF_PRIMARY_VM_ID) as [Hpr|]; cbn [negb] in H; [|by injection H as <- <-].
  destruct (Z.eqb_spec id HF_PRIMARY_VM_ID) as [|Hid]; [by injection H as <- <-|].
  apply bind_Done_inv in H as (w & Hw & H). destruct w as [w|]; [|by injection H as <- <-].
  apply bind_Done_inv in H as (vm & _ & H). destruct (vcpus vm !! _) as [v0|]; [|by injection H as <- <-].
  apply bind_Done_inv in H as ([r1 hv1] & Hp & H). apply prepare_run_effect in Hp as (Hc1 & Hi1 & Ht1 & He1).
  destruct r1 as [t|ret]; [|injection H as <- <-; by split_and!].
  rewrite (Ht1 t eq_refl) in *. clear t Ht1. set (t := (w, Z.to_nat idx)) in *.
  assert (Hw0 : ∀ t' : vref, Ok (E := HfVCpuRunReturn) t = Ok t' →
    t'.1 ≠ primary_index ∧ ∃ vm, hv_vms hv !! c.1 = Some vm ∧ vm_id vm = HF_PRIMARY_VM_ID).
  { intros t' [= <-]. split; [|eauto]. unfold t. cbn.
    unfold get_vm, get_vm_index, assert_then in Hw. change HF_VM_ID_OFFSET with 1 in Hw. change HF_PRIMARY_VM_ID with 1 in Hid.
    destruct (Z.leb_spec 1 id); [|done]. cbn [mbind exec_bind] in Hw. destruct (Nat.ltb _ _); [|done]. injection Hw as <-.
    change primary_index with 0%nat. lia. }
  apply bind_Done_inv in H as (vc & _ & H). destruct (arch_timer_pending _ _); [|injection H as <- <-; by split_and!].
  apply bind_Done_inv in H as ([[r2 n2'] hv2] & Hin & [= <- <-]). apply inject_self in Hin as [i ->].
  destruct He1 as [(v & v' & Hv & Hv' & Hh) Ho]. split_and!; [done| |split|done].
  - unfold upd_vc. rewrite !upd_vm_ids by done. done.
  - exists v, (upd_inner (with_regs arch_timer_mask) (upd_interrupts i v')). split_and!; [done| |by apply handed_masked].
    by rewrite !vcpu_at_upd_vc, !decide_True, Hv' by done.
  - intros x Hx. rewrite !vcpu_at_upd_vc, !decide_False by done. auto.
Qed.

(** ** The roots of the page tables *)
Definition vroot (vm : Vm) : Z * Z := (vm_id vm, root (ptable (vm_inner vm))).
Definition vroots (hv : Hypervisor) : list (Z * Z) := vroot <$> hv_vms hv.
Lemma vroot_quiet : quiet vroot.
Proof. by split. Qed.
Lemma vroot_quiet_vcpu : quiet_vcpu vroot.
Proof. done. Qed.
Lemma vroot_quiet_mailbox : quiet_mailbox vroot.
Proof. done. Qed.
Lemma vroot_quiet_log : quiet_log vroot.
Proof. done. Qed.
#[export] Hint Resolve vroot_quiet vroot_quiet_vcpu vroot_quiet_mailbox vroot_quiet_log : hfo2.

Section roots.
Context {A : ArchMM} {RD : ReduceCrate}.
Lemma map_root_root `{SG : Stage} t b e a l f st ok t' st' :
  map_root (SG := SG) t b e a l f st = Done (ok, t', st') → root t' = root t.
Proof. unfold map_root. intros H. unbind H. by simplify_eq. Qed.
Lemma identity_map_root `{SG : Stage} t b e m st ok t' st' :
  identity_map (SG := SG) t b e m st = Done (ok, t', st') → root t' = root t.
Proof.
  unfold identity_map, identity_update. intros H. unbind H; simplify_eq;
    repeat match goal with E : map_root _ _ _ _ _ _ _ = _ |- _ => apply map_root_root in E end; congruence.
Qed.
Lemma mm_vm_defrag_root t st t' st' : mm_vm_defrag t st = Done (t', st') → root t' = root t.
Proof. unfold mm_vm_defrag, defrag. intros H. unbind H. simplify_eq. by unbind E; simplify_eq. Qed.
Ltac roots :=
  repeat match goal with
  | E : identity_map _ _ _ _ _ = _ |- _ => apply identity_map_root in E
  | E : mm_vm_defrag _ _ = _ |- _ => apply mm_vm_defrag_root in E
  end; cbn in *; congruence.

Lemma configure_pages_root i sb se so rb re ro hp st ok i' hp' st' :
  configure_pages i sb se so rb re ro hp st = Done (ok, i', hp', st') → root (ptable i') = root (ptable i).
Proof. unfold configure_pages. intros H. unbind H; simplify_eq; try roots. Qed.
Lemma configure_root i send recv hp st ok i' hp' st' :
  configure i send recv hp st = Done (ok, i', hp', st') → root (ptable i') = root (ptable i).
Proof. unfold configure. intros H. unbind H; simplify_eq; try done. by eapply configure_pages_root. Qed.
Lemma share_transfer_root ft tt hp mem b e om fm tm st ok ft' tt' hp' mem' st' :
  share_transfer ft tt hp mem b e om fm tm st = Done (ok, ft', tt', hp', mem', st') →
  root ft' = root ft ∧ root tt' = root tt.
Proof. unfold share_transfer. intros H. unbind H; simplify_eq; split; roots. Qed.
Lemma spci_share_memory_root same ti fi mem rg a sh st ret ti' fi' st' :
  spci_share_memory same ti fi mem rg a sh st = Done (ret, ti', fi', st') →
  root (ptable ti') = root (ptable ti) ∧ root (ptable fi') = root (ptable fi).
Proof. unfold spci_share_memory. intros H. unbind H; simplify_eq; split; roots. Qed.
Lemma architected_root same ti fi mem amr rep to hp st ret ti' fi' mem' st' :
  spci_msg_handle_architected_message same ti fi mem amr rep to hp st = Done (ret, ti', fi', mem', st') →
  root (ptable ti') = root (ptable ti) ∧ root (ptable fi') = root (ptable fi).
Proof.
  unfold spci_msg_handle_architected_message, spci_validate_call_share_memory. intros H. unbind H. simplify_eq.
  all: unbind E0; simplify_eq; try done; by eapply spci_share_memory_root.
Qed.

(** Replacing the inner state of a VM by one with the same root. *)
Lemma vroots_upd_inner v f hv :
  (∀ j id rt, vroots hv !! v = Some (id, rt) → root (ptable (f j)) = rt) →
  vroots (upd_vm v (upd_vm_inner f) hv) = vroots hv.
Proof.
  intros Hf. unfold vroots, upd_vm in *. cbn [hv_vms set_vms]. apply list_eq. intros i. rewrite !list_lookup_fmap.
  destruct (decide (i = v)) as [->|]; [|by rewrite list_lookup_alter_ne].
  rewrite list_lookup_alter_eq. rewrite list_lookup_fmap in Hf. destruct (hv_vms hv !! v) as [vm|]; [|done].
  cbn in *. unfold vroot in *. cbn. by rewrite (Hf _ (vm_id vm) (root (ptable (vm_inner vm)))).
Qed.
Lemma vroots_lookup hv v vm : hv_vms hv !! v = Some vm → vroots hv !! v = Some (vroot vm).
Proof. intros H. unfold vroots. by rewrite list_lookup_fmap, H. Qed.

Lemma vm_configure_roots hw now hv s v c r n hv' :
  vm_configure hw now hv s v c = Done (r, n, hv') → vroots hv' = vroots hv.
Proof.
  intros H. unfold vm_configure in H. apply bind_Done_inv in H as (vm & Hvm%vm_of_Some & H).
  apply bind_Done_inv in H as ([[[ok i] hp] st] & Hc%configure_root & H). cbv zeta in H. set (h1 := set_mm st _) in H.
  assert (Hh : vroots h1 = vroots hv).
  { apply (vroots_upd_inner c.1 (λ _, i)). intros j id rt. rewrite (vroots_lookup _ _ _ Hvm). by intros [= <- <-]. }
  destruct (negb ok); [by simplify_eq|]. apply (waiter_result_frame vroot vroot_quiet false) in H. by rewrite <-Hh; apply H.
Qed.
Lemma share_memory_roots hv id a z s c ok hv' :
  share_memory hv id a z s c = Done (ok, hv') → vroots hv' = vroots hv.
Proof.
  intros H. unfold share_memory in H. unbind H; simplify_eq; try done.
  repeat match goal with E : vm_of _ _ = Done _ |- _ => apply vm_of_Some, vroots_lookup in E end.
  match goal with E : share_transfer _ _ _ _ _ _ _ _ _ _ = _ |- _ => apply share_transfer_root in E as [Hf Ht] end.
  match goal with |- vroots (set_mm _ (set_mem _ (set_hv_ptable _ ?h))) = _ => change (vroots h = vroots hv) end.
  assert (H1 : ∀ h v t vm, vroots h = vroots hv → vroots hv !! v = Some (vroot vm) → root t = root (ptable (vm_inner vm)) →
    vroots (upd_vm v (upd_vm_inner (with_ptable t)) h) = vroots hv).
  { intros h v t vm Hh Hv Hr. rewrite vroots_upd_inner; [done|]. intros j id' rt. rewrite Hh, Hv. intros [= <- <-]. done. }
  eapply H1; [|eassumption|done]. by eapply H1.
Qed.
Lemma msg_send_roots B hw now hv a c r n hv' :
  spci_msg_send B hw now hv a c = Done (r, n, hv') → vroots hv' = vroots hv.
Proof.
  intros H. unfold spci_msg_send in H. cbv zeta in H. apply bind_Done_inv in H as (fv & Hf%vm_of_Some & H).
  destruct (_ =? 0); [by simplify_eq|]. apply assert_then_Done in H as [_ H]. destruct (negb _); [by simplify_eq|].
  destruct (_ <? _); [by simplify_eq|]. destruct (_ =? _); [by simplify_eq|].
  apply bind_Done_inv in H as (to & _ & H). destruct to as [to|]; [|by simplify_eq].
  apply bind_Done_inv in H as (tv & Ht%vm_of_Some & H). destruct (negb _ || negb _).
  { destruct (bf_contains a NOTIFY); [|by simplify_eq].
    apply bind_Done_inv in H as ([[b i] lk] & Hw & [= <- <- <-]).
    exact (fr_vms _ _ _ _ (wait_for_frame vroot vroot_quiet_mailbox _ _ _ _ _ _ _ _ _ _ Ht Hw)). }
  destruct (bf_contains _ _).
  { apply assert_then_Done in H as [_ H]. by apply (deliver_frame vroot vroot_quiet false), fr_vms in H. }
  apply bind_Done_inv in H as (cur & _ & H). apply bind_Done_inv in H as (cpu & _ & H).
  apply bind_Done_inv in H as (buffer & _ & H). destruct (_ <? _); [by simplify_eq|]. destruct (_ <? _); [by simplify_eq|].
  apply assert_then_Done in H as [_ H].
  apply bind_Done_inv in H as ([[[[ret to_i] from_i] mem] st] & [Hrt Hrf]%architected_root & H).
  set (h1 := set_mm st _) in H. assert (Hh : vroots h1 = vroots hv).
  { unfold h1. change (vroots (set_mm _ (set_mem _ ?h))) with (vroots h). unfold set_inner.
    assert (H1 : vroots (upd_vm to (upd_vm_inner (λ _, to_i)) hv) = vroots hv).
    { apply vroots_upd_inner. intros j id rt. rewrite (vroots_lookup _ _ _ Ht). by intros [= <- <-]. }
    rewrite vroots_upd_inner; [done|]. intros j id rt. rewrite H1, (vroots_lookup _ _ _ Hf). by intros [= <- <-]. }
  destruct (negb _); [by simplify_eq|].
  apply (deliver_frame vroot vroot_quiet false), fr_vms in H. unfold vroots in *. congruence.
Qed.
End roots.

(** Every call keeps the ids and roots of the VMs. *)
Lemma exec_roots p {RD : ReduceCrate} B hw n1 n2 n3 hv c call hv' :
  hv_exec p B hw n1 n2 n3 hv c call = Done (Some hv') → vroots hv' = vroots hv.
Proof.
  intros H. destruct (memory_call call) eqn:Hm.
  2:{ eapply (fr_vms false vroot), exec_frame; eauto with hfo2. }
  destruct call; try done; cbn [hv_exec] in H.
  - apply bind_Done_inv in H as ([[??]?] & H & [= <-]). by eapply vm_configure_roots.
  - apply bind_Done_inv in H as ([[??]?] & H & [= <-]). apply bind_Done_inv in H as ([[??]?] & H & [= <- <- <-]).
    by eapply msg_send_roots.
  - apply bind_Done_inv in H as ([??] & H & [= <-]). unfold api_share_memory in H.
    destruct (HfShare_try_from share); [|by simplify_eq].
    apply bind_Done_inv in H as ([??] & H & [= <- <-]). by eapply share_memory_roots.
Qed.
