(* ===== verification/Switch.v ===== *)
(** * The switch between vCPUs

    What [exceptions.S] does to the registers: all registers of the vCPU that leaves
    the CPU are saved, all registers of the vCPU that enters it are those it was saved
    with, the execution lock of a secondary vCPU is released after its registers are
    saved, and the TLB is invalidated when another vCPU of the same VM was the last to
    run on the CPU. *)
From S2P Require Import Prelude Addr Mode Arch Mpool Mm Abi ArchCpu Interrupts Cpu Vm Memory Spci Hypervisor Api Frames.
From S2P Require Import Isolation Touch Psci Handler.

(** ** Running a handler *)
Section invert.
Context {FS : Type}.
Implicit Types (s : St FS).

Lemma hbind_inv {X Y} (m : handler FS X) (f : X → handler FS Y) s o s' :
  (m ≫= f) s = Done (o, s') →
  (∃ a s1, m s = Done (Some a, s1) ∧ f a s1 = Done (o, s')) ∨ m s = Done (None, s') ∧ o = None.
Proof. unfold mbind, handler_bind. destruct (m s) as [[[a|] s1]|]; naive_solver. Qed.
(** A first part that never keeps the CPU. *)
Lemma peek_inv {X Y} (g : Hypervisor → exec X) (f : X → handler FS Y) s o s' :
  (peek g ≫= f) s = Done (o, s') → ∃ a, g (st_hv s) = Done a ∧ f a s = Done (o, s').
Proof.
  unfold mbind at 1, handler_bind at 1, peek. destruct (g (st_hv s)) as [a|] eqn:E; [|done]. cbn. eauto.
Qed.
Lemma lift_inv {X Y} (g : exec X) (f : X → handler FS Y) s o s' :
  (lift g ≫= f) s = Done (o, s') → ∃ a, g = Done a ∧ f a s = Done (o, s').
Proof. unfold mbind at 1, handler_bind at 1, lift. destruct g as [a|]; [|done]. cbn. eauto. Qed.
Lemma rust_inv {X Y} (g : Hypervisor → exec (X * Hypervisor)) (f : X → handler FS Y) s o s' :
  (rust g ≫= f) s = Done (o, s') →
  ∃ a hv, g (st_hv s) = Done (a, hv) ∧ f a (mkSt hv (st_cpu s) (st_last s) (st_fw s)) = Done (o, s').
Proof. unfold mbind at 1, handler_bind at 1, rust. destruct (g (st_hv s)) as [[a hv]|]; [|done]. cbn. eauto. Qed.
Lemma bind_assoc_h {X Y W} (m : handler FS X) (f : X → handler FS Y) (g : Y → handler FS W) s :
  ((m ≫= f) ≫= g) s = (m ≫= λ a, f a ≫= g) s.
Proof. unfold mbind, handler_bind. by destruct (m s) as [[[a|] s1]|]. Qed.
Lemma ret_bind_h {X Y} (a : X) (f : X → handler FS Y) s : (mret a ≫= f) s = f a s.
Proof. done. Qed.
Lemma asks_bind_h {X Y} (g : St FS → X) (f : X → handler FS Y) s : (asks g ≫= f) s = f (g s) s.
Proof. done. Qed.
Lemma on_hv_bind_h {Y} g (f : unit → handler FS Y) s :
  (on_hv g ≫= f) s = f tt (mkSt (g (st_hv s)) (st_cpu s) (st_last s) (st_fw s)).
Proof. done. Qed.
Lemma on_cpu_bind_h {Y} g (f : unit → handler FS Y) s :
  (on_cpu g ≫= f) s = f tt (mkSt (st_hv s) (g (st_cpu s)) (st_last s) (st_fw s)).
Proof. done. Qed.
Lemma upd_regs_inv {Y} x g (f : unit → handler FS Y) s o s' :
  (upd_regs x g ≫= f) s = Done (o, s') →
  (∃ v, vcpu_at (st_hv s) x = Some v) ∧
  f tt (mkSt (upd_vc x (upd_inner (with_regs g)) (st_hv s)) (st_cpu s) (st_last s) (st_fw s)) = Done (o, s').
Proof.
  unfold upd_regs, the_vcpu. rewrite bind_assoc_h. intros (v & Hv%vcpu_of_at & H)%peek_inv. split; [eauto|done].
Qed.
End invert.

(** ** Register lists *)
Lemma pick_length sel src dst : length (pick sel src dst) = length dst.
Proof. unfold pick. by rewrite length_imap. Qed.
Lemma pick_lookup sel src dst i :
  length src = length dst → pick sel src dst !! i = if sel i then src !! i else dst !! i.
Proof.
  intros Hl. unfold pick. rewrite list_lookup_imap. destruct (dst !! i) as [x|] eqn:E; cbn.
  - destruct (sel i); [|done]. symmetry.
    assert (i < length src)%nat by (rewrite Hl; by eapply lookup_lt_Some).
    destruct (lookup_lt_is_Some_2 src i) as [y Hy]; [done|]. by rewrite Hy, (nth_lookup_Some _ _ _ _ Hy).
  - destruct (sel i); [|done]. symmetry. apply lookup_ge_None. rewrite Hl. by apply lookup_ge_None.
Qed.
(** Both halves of the registers make up all of them. *)
Lemma pick_both src dst : length src = length dst → pick volatile src (pick nonvolatile src dst) = src.
Proof.
  intros Hl. apply list_eq. intros i. rewrite pick_lookup by by rewrite pick_length.
  rewrite pick_lookup by done. unfold nonvolatile. by destruct (volatile i).
Qed.
Lemma pick_both' src dst : length src = length dst → pick nonvolatile src (pick volatile src dst) = src.
Proof.
  intros Hl. apply list_eq. intros i. rewrite pick_lookup by by rewrite pick_length.
  rewrite pick_lookup by done. unfold nonvolatile. by destruct (volatile i).
Qed.

(** ** Restoring a vCPU *)
Section restore.
Context {FS : Type}.
Implicit Types (s : St FS).

(** [s'] is [s] with the registers of vCPU [n] on the CPU. *)
Record restored (n : vref) (s s' : St FS) (vm : Vm) (v : VCpu) (k : nat) : Prop := {
  rs_vm : hv_vms (st_hv s) !! n.1 = Some vm;
  rs_vcpu : vcpu_at (st_hv s) n = Some v;
  rs_cpu : vi_cpu (vc_inner v) = Some k;
  rs_hv : st_hv s' = st_hv s;
  rs_current : p_current (st_cpu s') = n;
  rs_lazy : lazy (p_regs (st_cpu s')) = lazy (vi_regs (vc_inner v));
  rs_regs : length (r (vi_regs (vc_inner v))) = length (r (p_regs (st_cpu s))) → p_regs (st_cpu s') = vi_regs (vc_inner v);
  (** The timer that stands in for that of the primary VM is turned off. *)
  rs_cnthp : vm_id vm = HF_PRIMARY_VM_ID → p_cnthp_ctl (st_cpu s') = 0;
  rs_cnthp_kept : vm_id vm ≠ HF_PRIMARY_VM_ID →
    p_cnthp_ctl (st_cpu s') = p_cnthp_ctl (st_cpu s) ∧ p_cnthp_cval (st_cpu s') = p_cnthp_cval (st_cpu s);
  (** Entries of another vCPU of the VM are removed from the TLB. *)
  rs_tlbi : p_tlbi (st_cpu s') =
    (if st_last s n.1 k =? Z.of_nat n.2 then [] else [Z.shiftr (vttbr_el2 (lazy (vi_regs (vc_inner v)))) 48])
    ++ p_tlbi (st_cpu s);
  rs_last : st_last s' n.1 k = Z.of_nat n.2;
  rs_last_ne w j : (w, j) ≠ (n.1, k) → st_last s' w j = st_last s w j;
}.

(** The parts, on a state in which the vCPU is found. *)
Abbreviation on s c := (mkSt (st_hv s) c (st_last s) (st_fw s)).
Lemma begin_restoring_eq n s v vm :
  vcpu_of (st_hv s) n = Done v → vm_of (st_hv s) n.1 = Done vm →
  begin_restoring_state n s =
  let c := set_live (with_peripherals (peripherals (vi_regs (vc_inner v))) (p_regs (st_cpu s))) (st_cpu s) in
  Done (Some tt, on s (if vm_id vm =? HF_PRIMARY_VM_ID then set_cnthp 0 0 c else c)).
Proof.
  intros Hv Hm. unfold begin_restoring_state, vcpu_get_regs, get_vm_id, the_vcpu, the_vm, peek, mbind, handler_bind.
  cbn. rewrite Hv. cbn. rewrite Hm. cbn. by destruct (_ =? _).
Qed.
Definition tlb_checked (n : vref) (k : nat) (s : St FS) : St FS :=
  if st_last s n.1 k =? Z.of_nat n.2 then s
  else mkSt (st_hv s) (add_tlbi (Z.shiftr (vttbr_el2 (lazy (p_regs (st_cpu s)))) 48) (st_cpu s))
         (λ v j, if bool_decide ((v, j) = (n.1, k)) then Z.of_nat n.2 else st_last s v j) (st_fw s).
Lemma maybe_invalidate_eq n s v :
  vcpu_of (st_hv s) n = Done v →
  maybe_invalidate_tlb n s =
  match vi_cpu (vc_inner v) with Some k => Done (Some tt, tlb_checked n k s) | None => Panic end.
Proof.
  intros Hv. unfold maybe_invalidate_tlb, vcpu_get_cpu, the_vcpu, peek, lift, mbind, handler_bind. rewrite Hv. cbn.
  destruct (vi_cpu (vc_inner v)) as [k|]; [|done]. cbn. unfold tlb_checked. by destruct (_ =? _).
Qed.
Lemma restore_nonvolatile_eq n s v :
  vcpu_of (st_hv s) n = Done v →
  vcpu_restore_nonvolatile_and_run n s =
  let g := vi_regs (vc_inner v) in
  Done (Some tt, on s (set_live (with_spsr (spsr g) (with_pc (pc g) (with_r (pick volatile (r g)
    (pick nonvolatile (r g) (r (p_regs (st_cpu s))))) (p_regs (st_cpu s))))) (st_cpu s))).
Proof.
  intros Hv. unfold vcpu_restore_nonvolatile_and_run, vcpu_restore_volatile_and_run, vcpu_get_regs, the_vcpu, peek, mbind,
    handler_bind. rewrite Hv. cbn -[pick]. by rewrite Hv.
Qed.

Lemma restore_all_restored n s o s' :
  vcpu_restore_all_and_run n s = Done (o, s') → o = Some tt ∧ ∃ vm v k, restored n s s' vm v k.
Proof.
  intros H.
  assert (Hv : ∃ v, vcpu_of (st_hv s) n = Done v).
  { destruct (vcpu_of (st_hv s) n) as [v|] eqn:E; [eauto|]. exfalso.
    unfold vcpu_restore_all_and_run, begin_restoring_state, vcpu_get_regs, the_vcpu, peek, mbind, handler_bind in H.
    cbn in H. by rewrite E in H. }
  destruct Hv as [v Hv]. pose proof Hv as Hat%vcpu_of_at.
  assert (Hm : ∃ vm, vm_of (st_hv s) n.1 = Done vm).
  { unfold vcpu_of in Hv. by apply bind_Done_inv in Hv as (vm & ? & _); eauto. }
  destruct Hm as [vm Hm]. pose proof (vm_of_Some _ _ _ Hm) as Hvm.
  unfold vcpu_restore_all_and_run in H. rewrite on_cpu_bind_h in H.
  unfold mbind at 1, handler_bind at 1 in H. rewrite (begin_restoring_eq _ _ v vm) in H by done. cbv zeta in H.
  set (c2 := if vm_id vm =? _ then _ else _) in H. cbn [st_hv st_cpu st_last st_fw] in H.
  assert (Hc2 : p_regs c2 = with_peripherals (peripherals (vi_regs (vc_inner v))) (p_regs (st_cpu s)) ∧
    p_current c2 = n ∧ p_tlbi c2 = p_tlbi (st_cpu s) ∧
    (vm_id vm = HF_PRIMARY_VM_ID → p_cnthp_ctl c2 = 0) ∧
    (vm_id vm ≠ HF_PRIMARY_VM_ID → p_cnthp_ctl c2 = p_cnthp_ctl (st_cpu s) ∧ p_cnthp_cval c2 = p_cnthp_cval (st_cpu s))).
  { unfold c2. by destruct (Z.eqb_spec (vm_id vm) HF_PRIMARY_VM_ID). }
  clearbody c2. destruct Hc2 as (Hr2 & Hn2 & Ht2 & Hp1 & Hp2).
  unfold mbind at 1, handler_bind at 1, vcpu_get_regs at 1, the_vcpu at 1, mbind at 1, handler_bind at 1, peek at 1 in H.
  cbn [st_hv] in H. rewrite Hv in H. cbn [mbind exec_bind mret handler_ret] in H.
  unfold on_live in H. rewrite on_cpu_bind_h in H. cbn [st_hv st_cpu st_last st_fw] in H.
  unfold mbind at 1, handler_bind at 1 in H. rewrite (maybe_invalidate_eq _ _ v) in H by done.
  destruct (vi_cpu (vc_inner v)) as [k|] eqn:Hk; [|done].
  rewrite (restore_nonvolatile_eq _ _ v) in H by (unfold tlb_checked; by destruct (_ =? _)).
  injection H as <- <-. split; [done|]. exists vm, v, k. unfold tlb_checked. cbn [st_last].
  destruct (Z.eqb_spec (st_last s n.1 k) (Z.of_nat n.2)) as [El|El];
    (split; cbn -[pick]; try done; rewrite ?Hr2, ?Ht2, ?El, ?Z.eqb_refl, ?(proj2 (Z.eqb_neq _ _) El); try done).
  all: try (intros Hl; cbn -[pick]; rewrite pick_both by done; by destruct (vi_regs (vc_inner v))).
  all: try by rewrite bool_decide_eq_true_2.
  all: intros w j Hne; by rewrite bool_decide_eq_false_2.
Qed.

(** ** Saving a vCPU *)

(** The registers saved when a vCPU with registers [old] in memory and [g] on the CPU
    is switched away: its volatile registers have been saved before. *)
Definition saved_regs (g old : ArchRegs) : ArchRegs :=
  mkRegs (pick nonvolatile (r g) (r old)) (pc old) (spsr old) (lazy g) (fp g) (fpsr g) (fpcr g)
    (gic_ich_hcr_el2 g) (gic_icc_sre_el2 g) (peripherals g).
(** The hypervisor after that; a secondary vCPU may now run elsewhere. *)
Definition after_save (c : vref) (vm : Vm) (g : ArchRegs) (hv : Hypervisor) : Hypervisor :=
  let hv := upd_vc c (upd_inner (with_regs (saved_regs g))) hv in
  if negb (vm_id vm =? HF_PRIMARY_VM_ID) then upd_vc c vcpu_unlock hv else hv.
(** The timer of EL2 stands in for that of the primary VM. *)
Definition after_save_cpu (vm : Vm) (c : Pcpu) : Pcpu :=
  let p := peripherals (p_regs c) in
  if vm_id vm =? HF_PRIMARY_VM_ID then set_cnthp (cntv_ctl_el0 p) (cntv_cval_el0 p) c else c.

Lemma upd_vc_twice x f g hv : upd_vc x f (upd_vc x g hv) = upd_vc x (f ∘ g) hv.
Proof.
  unfold upd_vc, upd_vm, set_vms. cbn. f_equal. rewrite list_alter_alter_eq. apply list_alter_ext; [|done].
  intros vm _. unfold upd_vcpu. cbn. by rewrite list_alter_alter_eq.
Qed.
Lemma upd_vc_ext x f g hv : (∀ v, f v = g v) → upd_vc x f hv = upd_vc x g hv.
Proof.
  intros Hfg. unfold upd_vc, upd_vm, set_vms. f_equal. apply list_alter_ext; [|done].
  intros vm _. unfold upd_vcpu. f_equal. by apply list_alter_ext.
Qed.

Ltac run H :=
  repeat (rewrite bind_assoc_h in H || rewrite asks_bind_h in H || rewrite ret_bind_h in H);
  cbn [st_hv st_cpu st_last st_fw] in H.
Lemma switch_effect n s o s' :
  vcpu_switch n s = Done (o, s') →
  let c := p_current (st_cpu s) in
  o = Some tt ∧ ∃ v vm, vcpu_at (st_hv s) c = Some v ∧ hv_vms (st_hv s) !! c.1 = Some vm ∧
    ∃ vm' v' k, restored n (mkSt (after_save c vm (p_regs (st_cpu s)) (st_hv s)) (after_save_cpu vm (st_cpu s))
                              (st_last s) (st_fw s)) s' vm' v' k.
Proof.
  intros H c. unfold vcpu_switch, save_nonvolatile, complete_saving_state, current, live, get_vm_id, the_vm in H.
  run H. apply upd_regs_inv in H as [[v Hv] H]. run H. apply upd_regs_inv in H as [_ H].
  run H. apply upd_regs_inv in H as [_ H]. run H. apply rust_inv in H as ([] & hv1 & Hs & H).
  cbn [st_hv] in Hs. run H. apply peek_inv in H as (vm1 & Hvm1%vm_of_Some & H). run H.
  cbn [st_hv] in Hvm1. fold c in Hs, Hv, Hvm1.
  assert (Hvm : ∃ vm, hv_vms (st_hv s) !! c.1 = Some vm).
  { unfold vcpu_at in Hv. destruct (hv_vms (st_hv s) !! c.1); [eauto|done]. }
  destruct Hvm as [vm Hvm].
  assert (Hup : ∀ h f vmx, hv_vms h !! c.1 = Some vmx → hv_vms (upd_vc c f h) !! c.1 = Some (upd_vcpu c.2 f vmx)).
  { intros h f vmx Hh. unfold upd_vc, upd_vm. cbn. by rewrite list_lookup_alter_eq, Hh. }
  apply bind_Done_inv in Hs as (h2 & Hs & [= ->]). apply bind_Done_inv in Hs as (vm2 & Hvm2%vm_of_Some & [= Hh1]).
  rewrite !upd_vc_twice in *. rewrite (Hup _ _ _ Hvm) in Hvm2. injection Hvm2 as <-. cbn [vm_id upd_vcpu] in Hh1.
  assert (Hafter : hv1 = after_save c vm (p_regs (st_cpu s)) (st_hv s)).
  { rewrite <-Hh1. unfold after_save. destruct (negb _); rewrite ?upd_vc_twice; apply upd_vc_ext; intros [? ? [? ? []] ?]; done. }
  assert (Hid : vm_id vm1 = vm_id vm).
  { rewrite Hafter in Hvm1. unfold after_save in Hvm1. destruct (negb _); rewrite ?upd_vc_twice, (Hup _ _ _ Hvm) in Hvm1;
      by injection Hvm1 as <-. }
  rewrite Hid in H. assert (H2 : vcpu_restore_all_and_run n (mkSt hv1 (after_save_cpu vm (st_cpu s)) (st_last s) (st_fw s)) = Done (o, s')).
  { rewrite <-H. unfold after_save_cpu. by destruct (_ =? _). }
  rewrite Hafter in H2. apply restore_all_restored in H2 as [-> (vm' & v' & k & Hr)]. split; [done|].
  exists v, vm. split_and!; [done..|]. eauto.
Qed.
End restore.

(** ** The switch comes to an end *)
Section total.
Context {FS : Type}.
Implicit Types (s : St FS).

Lemma peek_run {X Y} (g : Hypervisor → exec X) (f : X → handler FS Y) s a :
  g (st_hv s) = Done a → (peek g ≫= f) s = f a s.
Proof. intros H. unfold mbind at 1, handler_bind at 1, peek. by rewrite H. Qed.
Lemma rust_run {X Y} (g : Hypervisor → exec (X * Hypervisor)) (f : X → handler FS Y) s a hv :
  g (st_hv s) = Done (a, hv) → (rust g ≫= f) s = f a (mkSt hv (st_cpu s) (st_last s) (st_fw s)).
Proof. intros H. unfold mbind at 1, handler_bind at 1, rust. by rewrite H. Qed.
Lemma upd_regs_run {Y} x g (f : unit → handler FS Y) s v :
  vcpu_at (st_hv s) x = Some v →
  (upd_regs x g ≫= f) s = f tt (mkSt (upd_vc x (upd_inner (with_regs g)) (st_hv s)) (st_cpu s) (st_last s) (st_fw s)).
Proof. intros Hv%vcpu_of_at. unfold upd_regs, the_vcpu. rewrite bind_assoc_h. by rewrite (peek_run _ _ _ v). Qed.
Lemma vcpu_at_vm hv x v : vcpu_at hv x = Some v → ∃ vm, vm_of hv x.1 = Done vm ∧ vcpus vm !! x.2 = Some v.
Proof. unfold vcpu_at, vm_of. destruct (hv_vms hv !! x.1) as [vm|]; [|done]. cbn. eauto. Qed.

Lemma restore_all_total n s v k :
  vcpu_at (st_hv s) n = Some v → vi_cpu (vc_inner v) = Some k →
  ∃ s', vcpu_restore_all_and_run n s = Done (Some tt, s').
Proof.
  intros Hat Hk. destruct (vcpu_at_vm _ _ _ Hat) as (vm & Hm & _). apply vcpu_of_at in Hat as Hv.
  unfold vcpu_restore_all_and_run. rewrite on_cpu_bind_h.
  unfold mbind at 1, handler_bind at 1. rewrite (begin_restoring_eq _ _ v vm) by done. cbv zeta.
  unfold vcpu_get_regs at 1, the_vcpu at 1. rewrite bind_assoc_h, (peek_run _ _ _ v) by done.
  rewrite ret_bind_h. unfold on_live. rewrite on_cpu_bind_h.
  unfold mbind at 1, handler_bind at 1. rewrite (maybe_invalidate_eq _ _ v) by done. rewrite Hk.
  rewrite (restore_nonvolatile_eq _ _ v) by (unfold tlb_checked; by destruct (_ =? _)). eauto.
Qed.

Lemma switch_total n s v v' k :
  vcpu_at (st_hv s) (p_current (st_cpu s)) = Some v → vcpu_at (st_hv s) n = Some v' → vi_cpu (vc_inner v') = Some k →
  ∃ s', vcpu_switch n s = Done (Some tt, s').
Proof.
  intros Hc Hn Hk. unfold vcpu_switch, save_nonvolatile, complete_saving_state, current, live, get_vm_id, the_vm.
  set (c := p_current (st_cpu s)) in *.
  assert (Hin : ∀ hv f, (∃ v, vcpu_at hv c = Some v) → ∃ v, vcpu_at (upd_vc c f hv) c = Some v).
  { intros hv f [w Hw]. rewrite vcpu_at_upd_vc, decide_True, Hw by done. eauto. }
  assert (Hkn : ∀ hv f, (∀ w, vi_cpu (vc_inner (f w)) = vi_cpu (vc_inner w)) →
    (∃ v, vcpu_at hv n = Some v ∧ vi_cpu (vc_inner v) = Some k) →
    ∃ v, vcpu_at (upd_vc c f hv) n = Some v ∧ vi_cpu (vc_inner v) = Some k).
  { intros hv f Hf (w & Hw & Hwk). rewrite vcpu_at_upd_vc. destruct (decide (n = c)) as [<-|]; [|eauto].
    rewrite Hw. exists (f w). by rewrite Hf. }
  repeat (rewrite bind_assoc_h || rewrite asks_bind_h). fold c.
  rewrite (upd_regs_run _ _ _ _ v) by done. repeat (rewrite bind_assoc_h || rewrite asks_bind_h). cbn [st_hv st_cpu st_last st_fw]. fold c.
  edestruct Hin as [v1 Hv1]; [eexists; exact Hc|]. rewrite (upd_regs_run _ _ _ _ v1) by exact Hv1.
  repeat (rewrite bind_assoc_h || rewrite asks_bind_h). cbn [st_hv st_cpu st_last st_fw]. fold c.
  edestruct Hin as [v2 Hv2]; [eexists; exact Hv1|]. rewrite (upd_regs_run _ _ _ _ v2) by exact Hv2.
  cbn [st_hv st_cpu st_last st_fw]. rewrite bind_assoc_h.
  edestruct Hin as [v3 Hv3]; [eexists; exact Hv2|]. destruct (vcpu_at_vm _ _ _ Hv3) as (vm & Hm & _).
  erewrite rust_run; [|unfold api_regs_state_saved; cbn [st_hv]; rewrite Hm; reflexivity]. cbn [st_hv st_cpu st_last st_fw].
  set (hv4 := if negb _ then _ else _). assert (∃ v4, vcpu_at hv4 c = Some v4) as [v4 Hv4].
  { unfold hv4. destruct (negb _); [|eauto]. apply Hin. eauto. }
  assert (∃ v5, vcpu_at hv4 n = Some v5 ∧ vi_cpu (vc_inner v5) = Some k) as (v5 & Hv5 & Hk5).
  { unfold hv4. destruct (negb _); [apply Hkn; [done|]|]; (do 3 (apply Hkn; [done|]); eauto). }
  clearbody hv4. destruct (vcpu_at_vm _ _ _ Hv4) as (vm4 & Hm4 & _).
  rewrite !bind_assoc_h, (peek_run _ _ _ vm4) by exact Hm4. rewrite ret_bind_h. destruct (_ =? _).
  - rewrite on_cpu_bind_h. by eapply restore_all_total.
  - rewrite ret_bind_h. by eapply restore_all_total.
Qed.
End total.
