(* ===== verification/Machine.v ===== *)
(** * The whole machine

    Physical CPUs that run vCPUs and take exceptions, in any order.  Each exception of
    a VM, with any registers, is handled by [handle]; the guests run in between, with
    any effect on their registers and on memory; CPUs that are off are started by the
    firmware.  Isolation holds whatever the VMs do. *)
From S2P Require Import Prelude Addr Mode Arch ArchAarch64 Mpool Mm MmSpec PageTables MemoryManager Stage2Modes Abi.
From S2P Require Import ArchCpu Interrupts Cpu Vm Memory Spci Hypervisor Load Init Api Frames Ownership Sharing Isolation.
From S2P Require Import Touch Psci Handler Switch.

(** ** Relations a handler keeps *)
Section keeps.
Context {FS : Type} (R : Hypervisor → Hypervisor → Prop) `{!PreOrder R}.

Definition keeps {X} (m : handler FS X) : Prop := ∀ s a s', m s = Done (a, s') → R (st_hv s) (st_hv s').

Lemma keeps_ret {X} (a : X) : keeps (mret a).
Proof. intros s o s' [= _ <-]. done. Qed.
Lemma keeps_bind {X Y} (m : handler FS X) (f : X → handler FS Y) :
  keeps m → (∀ a, keeps (f a)) → keeps (m ≫= f).
Proof.
  intros Hm Hf s o s' H. unfold mbind, handler_bind in H. destruct (m s) as [[[a|] s1]|] eqn:E; [| |done].
  - etrans; [by eapply Hm|by eapply Hf].
  - simplify_eq. by eapply Hm.
Qed.
Lemma keeps_asks {X} (f : St FS → X) : keeps (asks f).
Proof. intros s o s' [= _ <-]. done. Qed.
Lemma keeps_lift {X} (m : exec X) : keeps (lift m).
Proof. intros s o s' (a & _ & [= _ <-])%bind_Done_inv. done. Qed.
Lemma keeps_peek {X} (f : Hypervisor → exec X) : keeps (peek f).
Proof. intros s o s' (a & _ & [= _ <-])%bind_Done_inv. done. Qed.
Lemma keeps_gone {X} : keeps (gone (A := X)).
Proof. intros s o s' [= _ <-]. done. Qed.
Lemma keeps_panic {X} : keeps (panic (A := X)).
Proof. by intros s o s' H. Qed.
Lemma keeps_modify f : (∀ s, st_hv (f s) = st_hv s) → keeps (modify f).
Proof. intros Hf s o s' [= _ <-]. by rewrite Hf. Qed.
Lemma keeps_on_cpu f : keeps (on_cpu f).
Proof. by apply keeps_modify. Qed.
Lemma keeps_on_hv f : (∀ hv, R hv (f hv)) → keeps (on_hv f).
Proof. intros Hf s o s' [= _ <-]. apply Hf. Qed.
Lemma keeps_rust {X} (f : Hypervisor → exec (X * Hypervisor)) :
  (∀ hv a hv', f hv = Done (a, hv') → R hv hv') → keeps (rust f).
Proof. intros Hf s o s' ([a hv'] & H & [= _ <-])%bind_Done_inv. by eapply Hf. Qed.
Lemma keeps_if {X} (b : bool) (m n : handler FS X) : keeps m → keeps n → keeps (if b then m else n).
Proof. by destruct b. Qed.
Lemma keeps_smc el3 func args id : keeps (smc_internal el3 func args id).
Proof. intros s o s'. unfold smc_internal. destruct (el3 _ _). by intros [= _ <-]. Qed.
End keeps.

(** Walks through the binds and branches of a handler. *)
Ltac keep :=
  repeat match goal with
  | |- keeps _ (mbind _ _) => apply keeps_bind; [apply _| |intros ?]
  | |- keeps _ (mret _) => apply keeps_ret; apply _
  | |- keeps _ (asks _) => apply keeps_asks; apply _
  | |- keeps _ (peek _) => apply keeps_peek; apply _
  | |- keeps _ (lift _) => apply keeps_lift; apply _
  | |- keeps _ gone => apply keeps_gone; apply _
  | |- keeps _ panic => apply keeps_panic
  | |- keeps _ (on_cpu _) => apply keeps_on_cpu; apply _
  | |- keeps _ (smc_internal _ _ _ _) => apply keeps_smc; apply _
  | |- keeps _ (if _ then _ else _) => apply keeps_if
  | |- keeps _ (match ?x with _ => _ end) => destruct x
  | H : _ |- keeps _ _ => apply H
  end.

(** Registers are 64-bit values. *)
Lemma x_reg_typed g i : Forall (in_u 64) (r g) → in_u 64 (x_reg g i).
Proof.
  intros Ht. unfold x_reg. destruct (decide (i < length (r g))%nat) as [Hl|].
  - rewrite Forall_forall in Ht. apply Ht. apply list_elem_of_In. by apply nth_In.
  - rewrite nth_overflow by lia. done.
Qed.

(** ** Relations that every handler keeps

    What a relation needs: the calls of the Rust code are in it, and so are changes to
    vCPUs and to the power states of CPUs. *)
Class Kept (p : Aarch64.pa_bits) {RD : ReduceCrate} (MESSAGE_BUFFER : Z) (R : Hypervisor → Hypervisor → Prop) : Prop := {
  kept_preorder :: PreOrder R;
  kept_vcpus v f hv : (∀ vm, vm_id (f vm) = vm_id vm ∧ vm_inner (f vm) = vm_inner vm) → R hv (upd_vm v f hv);
  kept_cpus cpus hv : cpu_id <$> cpus = cpu_id <$> hv_cpus hv → R hv (set_cpus cpus hv);
  kept_exec hw n1 n2 n3 hv c call hv' :
    call_typed call → hv_exec p MESSAGE_BUFFER hw n1 n2 n3 hv c call = Done (Some hv') → R hv hv';
}.

(** The ids of the CPUs do not change. *)
Lemma cpu_ids_alter f i (cpus : list Cpu) : (∀ c, cpu_id (f c) = cpu_id c) → cpu_id <$> alter f i cpus = cpu_id <$> cpus.
Proof.
  intros Hf. apply list_eq. intros j. rewrite !list_lookup_fmap. destruct (decide (j = i)) as [->|].
  - rewrite list_lookup_alter_eq. destruct (cpus !! i); cbn; by rewrite ?Hf.
  - by rewrite list_lookup_alter_ne.
Qed.
Lemma cpu_on_ids cpus vcs c e a prev cpus' vcs' :
  cpu_on cpus vcs c e a = Done (Some (prev, cpus', vcs')) → cpu_id <$> cpus' = cpu_id <$> cpus.
Proof.
  unfold cpu_on. intros H. apply bind_Done_inv in H as (d & Hd & H). cbv zeta in H.
  destruct (cpus !! c) as [d'|] eqn:Hc; [|done]. injection Hd as ->.
  assert (cpus' = <[c := mkCpu (cpu_id d) (stack_bottom d) true]> cpus) as ->.
  { destruct (negb _); [|by simplify_eq]. apply bind_Done_inv in H as (v & _ & H). destruct (vcpu_lock v); by simplify_eq. }
  rewrite list_fmap_insert. apply list_insert_id. by rewrite list_lookup_fmap, Hc.
Qed.

Section handlers.
Context (p : Aarch64.pa_bits) {RD : ReduceCrate} (MESSAGE_BUFFER : Z).
#[local] Hint Extern 0 ArchMM => exact (aarch64 p) : typeclass_instances.
#[local] Hint Extern 0 (ArchLaws _) => exact (aarch64_laws p) : typeclass_instances.
Context {FS : Type} (el3 : FS → list Z → option smc_res * FS).
Context (cpu_entry : Z) (cpu_addr : nat → Z) (version : Z) (rounds : nat) (now1 now2 now3 : Z) (undef : smc_res).
Context (R : Hypervisor → Hypervisor → Prop) `{K : !Kept p MESSAGE_BUFFER R}.

Lemma kept_upd_vc x f hv : R hv (upd_vc x f hv).
Proof. by apply kept_vcpus. Qed.

(** A call of the Rust code that is one of [hv_exec]. *)
Lemma keeps_call {X} (f : Hypervisor → exec (X * Hypervisor)) hw c call :
  call_typed call →
  (∀ hv a hv', f hv = Done (a, hv') → hv_exec p MESSAGE_BUFFER hw now1 now2 now3 hv c call = Done (Some hv')) →
  keeps (FS := FS) R (rust f).
Proof. intros Ht Hf. apply keeps_rust. intros hv a hv' H. eapply kept_exec; [exact Ht|]. by eapply Hf. Qed.
Ltac call hw c k :=
  apply (keeps_call _ hw c k); [done|];
  let hv := fresh in let a := fresh in let hv' := fresh in let H := fresh "H" in
  intros hv a hv' H; cbn [hv_exec]; unbind H; simplify_eq;
  first [ by rewrite H | match goal with E : _ = Done _ |- _ => by rewrite E end ].
Lemma keeps_upd_regs x f : keeps (FS := FS) R (upd_regs x f).
Proof. unfold upd_regs, the_vcpu. keep. apply keeps_on_hv. intros hv. apply kept_upd_vc. Qed.

Abbreviation kp := (keeps (FS := FS) R).
Lemma keeps_cpu_on c e a : kp (psci_cpu_on c e a).
Proof.
  intros s o s' H. unfold psci_cpu_on in H. apply peek_inv in H as (pr & _ & H). rewrite asks_bind_h in H.
  apply lift_inv in H as (r & Hr & H). destruct r as [[[prev cpus'] vcs']|].
  - unfold on_hv, modify, mbind, handler_bind, mret, handler_ret in H. cbn in H. injection H as _ <-.
    cbn. etrans; [apply kept_cpus|by apply kept_vcpus]. by apply (cpu_on_ids _ _ _ _ _ _ _ _ Hr).
  - unfold on_hv, modify, gone, mbind, handler_bind in H. cbn in H. injection H as _ <-. cbn. apply kept_cpus. by apply cpu_ids_alter.
Qed.
Lemma keeps_psci_primary vcpu func a0 a1 a2 ret :
  kp (psci_primary_vm_handler el3 cpu_entry cpu_addr version rounds vcpu func a0 a1 a2 ret).
Proof.
  assert (Hoff : ∀ c, kp (psci_cpu_off c)).
  { intros c. apply keeps_on_hv. intros hv. apply kept_cpus. unfold cpu_off. by apply cpu_ids_alter. }
  assert (Hloop : ∀ n id c, kp (cpu_on_loop el3 cpu_entry cpu_addr n id c)).
  { intros n id c. induction n as [|n IH]; cbn [cpu_on_loop]; unfold smc64; keep; done. }
  assert (Hon : ∀ c e a, kp (psci_cpu_on c e a)).
  { intros c e a. apply keeps_cpu_on. }
  unfold psci_primary_vm_handler, smc32, smc64, cpu_find, vcpu_get_cpu, the_vcpu. cbv zeta.
  keep. apply keeps_upd_regs.
Qed.

Lemma keeps_psci_secondary vcpu func a0 a1 a2 ret next :
  kp (psci_secondary_vm_handler now1 vcpu func a0 a1 a2 ret next).
Proof.
  unfold psci_secondary_vm_handler, the_vm, the_vcpu. cbv zeta. keep.
  - apply keeps_on_hv; intros hv; apply kept_upd_vc.
  - call a vcpu CWaitForInterrupt.
  - call a vcpu CVcpuOff.
  - apply keeps_on_hv; intros hv; apply kept_upd_vc.
  - call a4 vcpu (CWakeUp (vcpu.1, Z.to_nat (vcpu_id_to_index a0))).
Qed.
Lemma keeps_psci vcpu func a0 a1 a2 ret next :
  kp (psci_handler el3 cpu_entry cpu_addr version rounds now1 vcpu func a0 a1 a2 ret next).
Proof. unfold psci_handler, the_vm. keep; [apply keeps_psci_primary|apply keeps_psci_secondary]. Qed.

Lemma keeps_spci func a1 ret next : kp (spci_handler MESSAGE_BUFFER now1 func a1 ret next).
Proof.
  unfold spci_handler, current, the_hw. cbv zeta. keep.
  - call a0 a CYield.
  - call a0 a (CMsgSend (wrap 32 a1)).
  - call a0 a (CMsgRecv (wrap 32 a1)).
Qed.
Lemma keeps_hf_call func a1 a2 a3 next :
  in_u 64 a1 → in_u 64 a2 → kp (hf_call now1 now2 now3 func a1 a2 a3 next).
Proof.
  intros H1 H2. unfold hf_call, current, the_hw. keep.
  - call a0 a (CVcpuRun (wrap 16 a1) (wrap 16 a2)).
  - call a0 a (CVmConfigure a1 a2).
  - call a0 a CMailboxClear.
  - call a0 a CMailboxWritableGet.
  - call a0 a (CMailboxWaiterGet (wrap 16 a1)).
  - call a0 a (CInterruptEnable (wrap 32 a1) (negb (a2 =? 0))).
  - call a0 a CInterruptGet.
  - call a0 a (CInterruptInject (wrap 16 a1) (wrap 16 a2) (wrap 32 a3)).
  - call a0 a (CShareMemory (wrap 16 (Z.shiftr a1 32)) a2 a3 (Z.land a1 0xffffffff)).
  - call a0 a (CDebugLog (wrap 8 a1)).
Qed.
Lemma keeps_update_vi next : kp (update_vi next).
Proof. unfold update_vi, vcpu_is_interrupted, current, the_vcpu, on_live. keep. apply keeps_upd_regs. Qed.
Lemma keeps_hvc a0 a1 a2 a3 :
  in_u 64 a1 → in_u 64 a2 →
  kp (hvc_handler MESSAGE_BUFFER el3 cpu_entry cpu_addr version rounds now1 now2 now3 undef a0 a1 a2 a3).
Proof.
  intros H1 H2. pose proof keeps_psci as Hp. pose proof keeps_spci as Hs. pose proof keeps_hf_call as Hf.
  pose proof keeps_update_vi as Hv. unfold hvc_handler, current. keep; done.
Qed.
Lemma keeps_smc_handler vcpu ret next :
  kp (smc_handler el3 cpu_entry cpu_addr version rounds now1 vcpu ret next).
Proof.
  pose proof keeps_psci as Hp. unfold smc_handler, smc_forwarder, smc_forward, vcpu_get_regs, get_vm_id, the_vm, the_vcpu.
  cbv zeta. keep. call demo_hw vcpu (CDebugLog (wrap 8 (x_reg a 1))).
Qed.
Lemma keeps_abort vcpu : kp (do_abort now1 vcpu).
Proof.
  intros s o s' H. unfold do_abort, the_hw, asks, mbind, handler_bind, peek, on_hv, modify, gone, mret, handler_ret in H. cbn in H.
  destruct (api_abort _ _ _ _) as [[[n hv]|]|] eqn:E; cbn in H; simplify_eq; [|reflexivity].
  eapply (kept_exec (hw_of (st_cpu s)) now1 now2 now3 _ vcpu CAbort); [done|]. cbn [hv_exec]. by rewrite E.
Qed.
Lemma keeps_fault vcpu esr far hpfar mode : kp (handle_fault now1 vcpu esr far hpfar mode).
Proof. pose proof keeps_abort as Ha. unfold handle_fault, vcpu_get_regs, the_vm, the_vcpu. keep. Qed.
Lemma keeps_sync esr far hpfar :
  kp (sync_lower_exception el3 cpu_entry cpu_addr version rounds now1 undef esr far hpfar).
Proof.
  pose proof keeps_abort as Ha. pose proof keeps_fault as Hf. pose proof keeps_smc_handler as Hs.
  pose proof keeps_upd_regs as Hu. unfold sync_lower_exception, current, the_hw, vcpu_get_regs, the_vcpu. cbv zeta. keep.
  - call a1 a CYield.
  - call a1 a CWaitForInterrupt.
Qed.
Lemma keeps_sysreg esr : kp (handle_system_register_access now1 esr).
Proof.
  pose proof keeps_abort as Ha. pose proof keeps_upd_regs as Hu.
  unfold handle_system_register_access, debug_el1_process_access, current, get_vm_id, vcpu_get_regs, the_vm, the_vcpu.
  cbv zeta. keep.
Qed.

Lemma keeps_irq : kp (irq_lower now1).
Proof. unfold irq_lower, current, the_hw. keep. call a0 a CPreempt. Qed.

(** The switch between vCPUs. *)
Lemma keeps_restore_volatile vcpu : kp (vcpu_restore_volatile_and_run vcpu).
Proof. unfold vcpu_restore_volatile_and_run, vcpu_get_regs, the_vcpu, on_live. keep. Qed.
Lemma keeps_restore_nonvolatile vcpu : kp (vcpu_restore_nonvolatile_and_run vcpu).
Proof.
  pose proof keeps_restore_volatile as Hr. unfold vcpu_restore_nonvolatile_and_run, vcpu_get_regs, the_vcpu, on_live. keep.
Qed.
Lemma keeps_restore_all vcpu : kp (vcpu_restore_all_and_run vcpu).
Proof.
  pose proof keeps_restore_nonvolatile as Hr.
  unfold vcpu_restore_all_and_run, begin_restoring_state, maybe_invalidate_tlb, invalidate_vm_tlb, vcpu_get_cpu, get_vm_id,
    vcpu_get_regs, the_vcpu, the_vm, on_live. keep. apply keeps_modify; [apply _|done].
Qed.
Lemma keeps_save_volatile : kp save_volatile_to_vcpu.
Proof. pose proof keeps_upd_regs as Hu. unfold save_volatile_to_vcpu, current, live. keep. Qed.
Lemma keeps_save_nonvolatile : kp save_nonvolatile.
Proof. pose proof keeps_upd_regs as Hu. unfold save_nonvolatile, current, live. keep. Qed.
Lemma keeps_switch vcpu : kp (vcpu_switch vcpu).
Proof.
  pose proof keeps_upd_regs as Hu. pose proof keeps_restore_all as Hr. pose proof keeps_save_nonvolatile as Hn.
  unfold vcpu_switch, complete_saving_state, current, live, get_vm_id, the_vm. keep.
  call demo_hw a0 CRegsStateSaved.
Qed.

(** Every exception. *)
Lemma keeps_lower h : kp h → kp (lower_exception h).
Proof.
  intros Hh. pose proof keeps_save_volatile as Hv. pose proof keeps_switch as Hs. unfold lower_exception. keep.
Qed.
Lemma keeps_handle e s o s' :
  Forall (in_u 64) (r (p_regs (st_cpu s))) →
  handle MESSAGE_BUFFER el3 cpu_entry cpu_addr version rounds now1 now2 now3 undef e s = Done (o, s') →
  R (st_hv s) (st_hv s').
Proof.
  intros Ht H. pose proof (λ i, x_reg_typed _ i Ht) as Hx.
  pose proof keeps_save_volatile as Hv. pose proof keeps_save_nonvolatile as Hn. pose proof keeps_switch as Hs.
  pose proof keeps_restore_volatile as Hrv. pose proof keeps_restore_nonvolatile as Hrn.
  destruct e as [esr far hpfar| | |]; cbn [handle] in H.
  - unfold lower_sync_exception in H. destruct (GET_EC esr =? 0x16).
    + unfold live, asks in H. unfold mbind at 1, handler_bind at 1 in H. revert H. apply keeps_bind; [apply _|by apply keeps_hvc|].
      intros [ret new]. unfold on_live. keep.
    + revert H. pose proof keeps_sysreg as Hsr. pose proof keeps_sync as Hsy. unfold resume, current.
      apply keeps_bind; [apply _|keep|intros ?; keep].
  - revert H. apply keeps_lower, keeps_irq.
  - revert H. apply keeps_lower, keeps_irq.
  - revert H. apply keeps_lower. pose proof keeps_abort as Ha. unfold serr_lower, current. keep.
Qed.

(** [cpu_main], for a CPU that starts. *)
Lemma keeps_cpu_main hw i : keeps (FS := FS) R (rust (cpu_main hw (Managed i))).
Proof. apply keeps_rust. intros hv v hv' H. unfold cpu_main in H. unbind H. simplify_eq. apply kept_upd_vc. Qed.
End handlers.

(** ** Isolation through exceptions *)
Section safe.
Context (p : Aarch64.pa_bits) {RD : ReduceCrate} (MESSAGE_BUFFER : Z).
#[local] Hint Extern 0 ArchMM => exact (aarch64 p) : typeclass_instances.

Definition safe (hv hv' : Hypervisor) : Prop := preserved p hv hv' ∧ vroots hv' = vroots hv.
Lemma safe_frame hv hv' : frame false vtab hv hv' → frame false vroot hv hv' → safe hv hv'.
Proof. intros H1 H2. split; [by apply frame_preserved|apply H2]. Qed.
#[export] Instance safe_kept : Kept p MESSAGE_BUFFER safe.
Proof.
  split.
  - split.
    + intros hv. split; [|done]. by apply frame_preserved.
    + intros a b c [H1 E1] [H2 E2]. split; [by eapply preserved_trans|congruence].
  - intros v f hv Hf. apply safe_frame; apply frame_upd_vm; intros vm _; unfold vtab, vroot; by destruct (Hf vm) as [-> ->].
  - intros cpus hv _. split; [|done]. intros (Hw & Hh & Hst & Hmo) Hiso. by split_and!.
  - intros hw n1 n2 n3 hv c call hv' Ht H. split; [by eapply hv_exec_preserved|by eapply exec_roots].
Qed.
End safe.


(** ** CPUs and their steps *)
Record Machine (FS : Type) := mkMachine {
  mc_hv : Hypervisor;
  (** [None]: off, or lost in a loop. *)
  mc_cpus : list (option Pcpu);
  mc_last : nat → nat → Z;
  mc_fw : FS;
}.
Arguments mkMachine {FS}. Arguments mc_hv {FS}. Arguments mc_cpus {FS}. Arguments mc_last {FS}. Arguments mc_fw {FS}.
Definition st_of {FS} (m : Machine FS) (c : Pcpu) : St FS := mkSt (mc_hv m) c (mc_last m) (mc_fw m).
(** CPU [i] after a handler that ended with [o] in state [s]. *)
Definition put_cpu {FS} (m : Machine FS) (i : nat) (o : option unit) (s : St FS) : Machine FS :=
  mkMachine (st_hv s) (<[i := (λ _, st_cpu s) <$> o]> (mc_cpus m)) (st_last s) (st_fw s).

(** A VM runs: it may change all registers but those of EL2. *)
Record guest_regs (g g' : ArchRegs) : Prop := {
  gr_typed : Forall (in_u 64) (r g');
  gr_length : length (r g') = length (r g);
  gr_vmpidr : vmpidr_el2 (lazy g') = vmpidr_el2 (lazy g);
  gr_hcr : hcr_el2 (lazy g') = hcr_el2 (lazy g);
  gr_cptr : cptr_el2 (lazy g') = cptr_el2 (lazy g);
  gr_cnthctl : cnthctl_el2 (lazy g') = cnthctl_el2 (lazy g);
  gr_vttbr : vttbr_el2 (lazy g') = vttbr_el2 (lazy g);
  gr_mdcr : mdcr_el2 (lazy g') = mdcr_el2 (lazy g);
  gr_ich_hcr : gic_ich_hcr_el2 g' = gic_ich_hcr_el2 g;
  gr_icc_sre : gic_icc_sre_el2 g' = gic_icc_sre_el2 g;
}.

(** [cpu_entry] for a CPU of the CPU manager. *)
Definition start_cpu {FS} (i : nat) : handler FS unit :=
  hw ← asks (λ s, hw_of (st_cpu s));
  v ← rust (cpu_main hw (Managed i));
  vcpu_restore_all_and_run v.

Section machine.
Context (p : Aarch64.pa_bits) {RD : ReduceCrate} (MESSAGE_BUFFER : Z).
#[local] Hint Extern 0 ArchMM => exact (aarch64 p) : typeclass_instances.
Context {FS : Type} (el3 : FS → list Z → option smc_res * FS).
Context (cpu_entry : Z) (cpu_addr : nat → Z) (version : Z) (rounds : nat).

Inductive mstep : Machine FS → Machine FS → Prop :=
| m_exception m i c g now1 now2 now3 undef e o s' :
    mc_cpus m !! i = Some (Some c) → guest_regs (p_regs c) g →
    handle MESSAGE_BUFFER el3 cpu_entry cpu_addr version rounds now1 now2 now3 undef e (st_of m (set_live g c)) = Done (o, s') →
    mstep m (put_cpu m i o s')
| m_memory m mem :
    mem_ok mem → mstep m (mkMachine (set_mem mem (mc_hv m)) (mc_cpus m) (mc_last m) (mc_fw m))
| m_start m i d c o s' :
    mc_cpus m !! i = Some None → hv_cpus (mc_hv m) !! i = Some d → is_on d = true →
    start_cpu i (st_of m c) = Done (o, s') → mstep m (put_cpu m i o s').

(** A step keeps what the handlers and the writes of guests keep. *)
Lemma mstep_kept (R : Hypervisor → Hypervisor → Prop) `{K : !Kept p MESSAGE_BUFFER R} m m' :
  (∀ mem hv, mem_ok mem → R hv (set_mem mem hv)) → mstep m m' → R (mc_hv m) (mc_hv m').
Proof.
  intros HR [m0 i c g now1 now2 now3 undef e o s' _ Hg H|m0 mem Hm|m0 i d c o s' _ _ _ H]; cbn.
  - eapply (keeps_handle _ _ _ _ _ _ _ _ _ _ _ R _ (st_of m0 (set_live g c))); [apply Hg|exact H].
  - by apply HR.
  - assert (Hk : keeps (FS := FS) R (start_cpu i)).
    { unfold start_cpu. keep; [by eapply keeps_cpu_main|by eapply keeps_restore_all]. }
    exact (Hk _ _ _ H).
Qed.
Lemma mstep_safe m m' : mstep m m' → safe p (mc_hv m) (mc_hv m').
Proof. apply mstep_kept; [apply safe_kept|]. intros mem hv Hm. apply safe_frame; by apply frame_set_mem. Qed.

(** Isolation holds in every state the machine can reach. *)
Lemma machine_isolated m m' :
  rtc mstep m m' → hv_wf p (mc_hv m) → isolated p (mc_hv m) →
  kept_safe p (mc_hv m) (mc_hv m') ∧ vroots (mc_hv m') = vroots (mc_hv m).
Proof.
  intros Hr Hw Hi. assert (Hs : safe p (mc_hv m) (mc_hv m')).
  { pose proof (kept_preorder (Kept := safe_kept p MESSAGE_BUFFER)). induction Hr as [|m1 m2 m3 H12 _ IH]; [done|]. etrans; [by apply mstep_safe|].
    destruct (mstep_safe _ _ H12) as [Hp _]. destruct (Hp Hw Hi) as (Hw2 & Hi2 & _). by apply IH. }
  destruct Hs as [Hp Hro]. split; [by apply Hp|done].
Qed.
End machine.
