(* ===== verification/Mapped.v ===== *)
(** * The hypervisor's mappings of the mailboxes

    The hypervisor reads the send page of a VM and writes its receive page through its
    own page table.  A page becomes a mailbox page only when [configure] has mapped it
    there and taken it away from its owner; from then on nobody owns it, so that no
    call can pass it on, and no call changes how the hypervisor maps it.  Pages beyond
    the end of the hypervisor's address space, 512 GiB, are the exception: [configure]
    takes them but maps nothing. *)
From S2P Require Import Prelude Addr Mode Arch ArchAarch64 Mpool Mm MmSpec MmMap MmTable MmQuery PageTables MemoryManager Stage2Modes Access Abi.
From S2P Require Import ArchCpu Interrupts Cpu Vm Memory Spci Hypervisor Api Frames Ownership Sharing Isolation Rollback Touch Machine.

(** The mailbox pages of a VM, zero for none. *)
Definition vpages (vm : Vm) : Z * Z := (mb_send (mailbox (vm_inner vm)), mb_recv (mailbox (vm_inner vm))).
Lemma vpages_quiet : quiet vpages.
Proof. by split. Qed.
Lemma vpages_quiet_vcpu : quiet_vcpu vpages.
Proof. done. Qed.
Lemma vpages_quiet_mailbox : quiet_mailbox vpages.
Proof. intros m vm Hs Hr. unfold vpages. cbn. by rewrite Hs, Hr. Qed.
Lemma vpages_quiet_log : quiet_log vpages.
Proof. done. Qed.
#[export] Hint Resolve vpages_quiet vpages_quiet_vcpu vpages_quiet_mailbox vpages_quiet_log : hfo2.

Section mapped.
Context (p : Aarch64.pa_bits) {RD : ReduceCrate} (MESSAGE_BUFFER : Z).
#[local] Hint Extern 0 ArchMM => exact (aarch64 p) : typeclass_instances.
#[local] Hint Extern 0 (ArchLaws _) => exact (aarch64_laws p) : typeclass_instances.

(** A page of a mailbox. *)
Definition mailbox_page (hv : Hypervisor) (mode b : Z) : Prop :=
  page_range p b ∧ ∀ x, b ≤ x < b + 4096 → unowned p hv x ∧ (x < 2 ^ 39 → s1_mapping p (hv_ptable hv) x = s1_attrs p mode).
Definition mailboxes_mapped (hv : Hypervisor) : Prop :=
  ∀ v pg, (vpages <$> hv_vms hv) !! v = Some pg →
    (pg.1 ≠ 0 → mailbox_page hv Mode.R pg.1) ∧ (pg.2 ≠ 0 → mailbox_page hv Mode.W pg.2).

(** Below 512 GiB the hypervisor can use them. *)
Lemma s1_el2 hp mode w x :
  0 ≤ x < 2 ^ 39 → s1_mapping p hp x = s1_attrs p mode → mode = Mode.R ∧ w = false ∨ mode = Mode.W → el2_page hp w x = true.
Proof.
  intros Hx Hm Hw. unfold el2_page. cbv zeta. rewrite (root_end_eq (SG := @Stage1 (aarch64 p))).
  change (ptable_end (SG := @Stage1 (aarch64 p))) with (2 ^ 39).
  rewrite (proj2 (Z.leb_le _ _)), (proj2 (Z.ltb_lt _ _)) by lia. cbn [andb]. unfold s1_mapping, ptable_mapping in Hm.
  assert (Ha : ptable_attrs (SG := @Stage1 (aarch64 p)) hp x = mode_to_attrs (Stage := @Stage1 (aarch64 p)) mode).
  { assert (s1_attrs p mode = Some (mode_to_attrs (Stage := @Stage1 (aarch64 p)) mode)) as Hs by (by destruct Hw as [[-> _]| ->]).
    rewrite Hs in Hm. generalize dependent (ptable_attrs (SG := @Stage1 (aarch64 p)) hp x). intros a Hm. unfold mapped in Hm.
    destruct (arch_mm_pte_is_present a 0); [by injection Hm|done]. }
  rewrite Ha. destruct Hw as [[-> ->]| ->]; [done|by destruct w].
Qed.
Lemma mailbox_page_el2 hv mode w b :
  mailbox_page hv mode b → b + 4096 ≤ 2 ^ 39 → mode = Mode.R ∧ w = false ∨ mode = Mode.W → el2_page (hv_ptable hv) w b = true.
Proof. intros [(_ & _ & Hb & _) H] He. apply s1_el2; [lia|]. apply H; lia. Qed.

(** ** Every call keeps them *)
Definition keeps_mapped (hv hv' : Hypervisor) : Prop :=
  preserved p hv hv' ∧ (hv_wf p hv → isolated p hv → mailboxes_mapped hv → mailboxes_mapped hv').
(** Pages that nobody owns are mapped as before. *)
Definition s1_kept (hv hv' : Hypervisor) : Prop :=
  ∀ x, 0 ≤ x < 2 ^ 39 → x < vm_end p → unowned p hv x → s1_mapping p (hv_ptable hv') x = s1_mapping p (hv_ptable hv) x.
Lemma page_kept hv hv' mode b : kept_safe p hv hv' → s1_kept hv hv' → mailbox_page hv mode b → mailbox_page hv' mode b.
Proof.
  intros Hk Hs [Hr H]. split; [done|]. intros x Hx. destruct (H x Hx) as [Hu Hm]. pose proof Hr as (_ & _ & ? & ?).
  split; [eapply kept_unowned; [done|lia|done]|]. intros Hlt. rewrite Hs by (done || lia). auto.
Qed.
Lemma keeps_intro hv hv' :
  preserved p hv hv' → vpages <$> hv_vms hv' = vpages <$> hv_vms hv → (hv_wf p hv → isolated p hv → s1_kept hv hv') → keeps_mapped hv hv'.
Proof.
  intros Hp Hv Hs. split; [done|]. intros Hw Hi Hm v pg. rewrite Hv. intros Hpg. destruct (Hm v pg Hpg) as [H1 H2].
  split; intros Hn; eapply page_kept; eauto.
Qed.
Lemma frame_keeps hv hv' : preserved p hv hv' → frame false vpages hv hv' → keeps_mapped hv hv'.
Proof. intros Hp [_ Hh _ Hv _ _]. apply keeps_intro; [done..|]. intros _ _ x _ _ _. by rewrite Hh. Qed.
#[export] Instance keeps_mapped_preorder : PreOrder keeps_mapped.
Proof.
  split; [intros hv; apply frame_keeps; [by apply frame_preserved|done]|]. intros a b c [P1 H1] [P2 H2].
  split; [by eapply preserved_trans|]. intros Hw Hi Hm. destruct (P1 Hw Hi) as (? & ? & _). auto.
Qed.

Lemma share_memory_mapped hv id addr size share c ok hv' :
  in_u 64 addr → share_memory hv id (ipa_init addr) size share c = Done (ok, hv') → hv_wf p hv → keeps_mapped hv hv'.
Proof.
  intros Hu H Hwf. pose proof (share_memory_hp p hv id addr size share c ok hv' Hwf Hu H) as Hhp.
  pose proof (share_memory_preserved p _ _ _ _ _ _ _ _ Hu H) as Hp.
  destruct (share_memory_inv p _ _ _ _ _ _ _ _ Hwf Hu H) as [[_ [->| ->]]|
    (to & fv & tv & e & orig & ft' & tot' & hp' & mem' & st' & Hf & Ht & Hne & _ & -> & _ & _ & Hx & _ & _ & _ & ->)]; [done|by apply keeps_intro|].
  apply keeps_intro; [done| |].
  - cbn [hv_vms set_mm set_mem set_hv_ptable]. etrans; apply (fr_vms false vpages), frame_upd_vm; by intros.
  - intros _ _ x Hxr Hend Hun. cbn [hv_ptable set_mm set_mem set_hv_ptable] in *.
    assert (Hout : ¬ addr ≤ x < addr +w size).
    { intros Hin. destruct (Hx x Hin) as [_ Hc]. destruct (pair_closed_claim _ _ Hc) as [Ho|Ho].
      - specialize (Hun c.1). unfold hv_view in Hun. rewrite (vtabs_lookup _ _ _ Hf) in Hun. cbn in Hun. congruence.
      - specialize (Hun to). unfold hv_view in Hun. rewrite (vtabs_lookup _ _ _ Ht) in Hun. cbn in Hun. congruence. }
    destruct Hhp as [[-> _]|[_ [Ha|[_ Ha]]]]; [done|rewrite Ha by done..]; by rewrite ?bool_decide_false, ?andb_false_r.
Qed.

(** [configure] maps the pages of the new mailbox and takes them from their owner. *)
Lemma configured_mapped hv v vm b1 b2 ok i hp st :
  hv_wf p hv → isolated p hv → mailboxes_mapped hv → hv_vms hv !! v = Some vm →
  configured p ok b1 b2 (vm_inner vm) (hv_ptable hv) (hv_mm hv) i hp st →
  (ok = true ∨ hp ≠ hv_ptable hv → configurable p (vm_inner vm) b1 b2) →
  kept_safe p hv (set_mm st (set_hv_ptable hp (set_inner v i hv))) →
  mailboxes_mapped (set_mm st (set_hv_ptable hp (set_inner v i hv))).
Proof.
  intros Hw Hi Hm Hv ([t Ht] & _ & _ & _ & _ & Hx & Hs) Hc Hk. set (hv' := set_mm st _) in *.
  pose proof (vtabs_lookup _ _ _ Hv) as Hvt.
  assert (Hview : ∀ x, hv_view p hv x v = vm_mode p (ptable (vm_inner vm)) x) by (intros x; unfold hv_view; by rewrite Hvt).
  assert (Hold : s1_kept hv hv').
  { intros x Hxr Hend Hun. cbn [hv_ptable set_mm set_hv_ptable hv']. specialize (Hun v). rewrite Hview in Hun.
    specialize (Hs x Hxr). destruct ok.
    - destruct (Hc (or_introl eq_refl)) as (_ & _ & _ & _ & Ho). rewrite Hs. rewrite !bool_decide_false; [done|..]; intros Hin;
        destruct (Ho x) as [Ho1 _]; [by auto|congruence|by auto|congruence].
    - destruct Hs as [?|[Hin Hnone]]; [done|]. destruct (decide (s1_mapping p hp x = s1_mapping p (hv_ptable hv) x)) as [|Hne]; [done|].
      destruct (Hc (or_intror (λ E, Hne (f_equal (λ h, s1_mapping p h x) E)))) as (_ & _ & _ & _ & Ho).
      destruct (Ho x (or_introl Hin)) as [Ho1 _]. congruence. }
  assert (Hnew : ∀ mode b, ok = true → b = b1 ∧ mode = Mode.R ∨ b = b2 ∧ mode = Mode.W → mailbox_page hv' mode b).
  { intros mode b -> Hb. destruct (Hc (or_introl eq_refl)) as (Hr1 & Hr2 & Hne & _ & Ho).
    assert (Hr : page_range p b) by (by destruct Hb as [[-> _]|[-> _]]). split; [done|]. intros x Hxb.
    assert (Hin : b1 ≤ x < b1 + 4096 ∨ b2 ≤ x < b2 + 4096) by (destruct Hb as [[-> _]|[-> _]]; auto).
    destruct (Ho x Hin) as [Ho1 _]. pose proof Hr as (_ & _ & ? & ?). split.
    - intros w. destruct (decide (w = v)) as [->|Hwv].
      + unfold hv_view, hv'. change (vtabs (set_mm _ (set_hv_ptable _ ?h))) with (vtabs h). unfold set_inner.
        rewrite (vtabs_upd_inner v _ hv vm Hv), list_lookup_insert_eq by (by eapply lookup_lt_Some). cbn [mbind option_bind].
        rewrite Hx by lia. unfold mailbox_modes. case_bool_decide; [done|]. rewrite bool_decide_true by (destruct Hin; done). done.
      + assert (Hvw : hv_view p hv' x w = hv_view p hv x w).
        { unfold hv_view, hv'. change (vtabs (set_mm _ (set_hv_ptable _ ?h))) with (vtabs h). unfold set_inner.
          by rewrite (vtabs_upd_inner v _ hv vm Hv), list_lookup_insert_ne. }
        rewrite Hvw. apply not_true_is_false. intros How. destruct Hwv. eapply (iso_owner _ (Hi x ltac:(lia))); [done|by rewrite Hview].
    - intros Hlt. cbn [hv_ptable set_mm set_hv_ptable hv']. rewrite (Hs x ltac:(lia)).
      destruct Hr1 as (A1 & _ & ? & _), Hr2 as (A2 & _ & ? & _). apply aligned_exists in A1 as [q1 ->], A2 as [q2 ->]; [|lia..].
      destruct Hb as [[-> ->]|[-> ->]]; [|by rewrite bool_decide_true]. rewrite bool_decide_false by lia. by rewrite bool_decide_true. }
  intros w pg. cbn [hv_vms set_mm set_hv_ptable hv']. unfold set_inner, upd_vm. cbn [hv_vms set_vms]. rewrite list_lookup_fmap.
  assert (Hpk : ∀ pg, vpages <$> hv_vms hv !! w = Some pg → (pg.1 ≠ 0 → mailbox_page hv' Mode.R pg.1) ∧ (pg.2 ≠ 0 → mailbox_page hv' Mode.W pg.2)).
  { intros pg'. rewrite <-list_lookup_fmap. intros [H1 H2]%Hm. split; intros Hn; eapply page_kept; eauto. }
  destruct (decide (w = v)) as [->|]; [|rewrite list_lookup_alter_ne by done; apply Hpk].
  rewrite list_lookup_alter_eq. rewrite Hv in *. cbn in *. intros [= <-]. rewrite Ht. destruct ok; [|by apply Hpk].
  split; intros _; apply Hnew; auto.
Qed.
Lemma vm_configure_mapped hw now hv s r c res next hv' :
  in_u 64 s → in_u 64 r → vm_configure hw now hv (ipa_init s) (ipa_init r) c = Done (res, next, hv') → keeps_mapped hv hv'.
Proof.
  intros Hs Hr H. pose proof (vm_configure_preserved p _ _ _ _ _ _ _ _ _ Hs Hr H) as Hp. split; [done|]. intros Hw Hi Hm.
  pose proof Hw as (_ & Hh & Hst & _). unfold vm_configure in H. apply bind_Done_inv in H as (vm & Hv%vm_of_Some & H).
  apply bind_Done_inv in H as ([[[ok i] hp] st] & Hc & H). cbv zeta in H.
  apply (configure_spec p) in Hc as [Hcf Hok]; [|by eapply vm_wf_spec|done..].
  assert (Hk : kept_safe p hv (set_mm st (set_hv_ptable hp (set_inner c.1 i hv)))) by by eapply configured_safe.
  pose proof (configured_mapped _ _ _ _ _ _ _ _ _ Hw Hi Hm Hv Hcf Hok Hk) as Hm1. destruct Hk as (Hw1 & Hi1 & _).
  destruct ok; cbn [negb] in H; [|by injection H as <- <- <-].
  pose proof (waiter_result_frame vtab vtab_quiet false _ _ _ _ _ _ _ _ _ H) as Hf1.
  pose proof (waiter_result_frame vpages vpages_quiet false _ _ _ _ _ _ _ _ _ H) as Hf2.
  by apply (proj2 (frame_keeps _ _ (frame_preserved p _ _ Hf1) Hf2)).
Qed.

(** A message changes the page tables of the two VMs only. *)
Lemma share_with same ti fi mem rg a sh st ret ti' fi' st' :
  spci_share_memory same ti fi mem rg a sh st = Done (ret, ti', fi', st') → mailbox ti' = mailbox ti ∧ mailbox fi' = mailbox fi.
Proof. unfold spci_share_memory. intros H. unbind H; by simplify_eq. Qed.
Lemma architected_with same ti fi mem amr rep to hp st ret ti' fi' mem' st' :
  spci_msg_handle_architected_message same ti fi mem amr rep to hp st = Done (ret, ti', fi', mem', st') →
  mailbox ti' = mailbox ti ∧ mailbox fi' = mailbox fi.
Proof.
  unfold spci_msg_handle_architected_message, spci_validate_call_share_memory. intros H. unbind H. simplify_eq.
  all: unbind E0; simplify_eq; try done; by eapply share_with.
Qed.
Lemma msg_send_pages hw now hv a c r n hv' :
  spci_msg_send MESSAGE_BUFFER hw now hv a c = Done (r, n, hv') →
  vpages <$> hv_vms hv' = vpages <$> hv_vms hv ∧ hv_ptable hv' = hv_ptable hv.
Proof.
  intros H. unfold spci_msg_send in H. cbv zeta in H. apply bind_Done_inv in H as (fv & Hf%vm_of_Some & H).
  assert (Hfr : ∀ h, frame false vpages hv h → vpages <$> hv_vms h = vpages <$> hv_vms hv ∧ hv_ptable h = hv_ptable hv) by (by intros h []).
  destruct (_ =? 0); [by simplify_eq|]. apply assert_then_Done in H as [_ H]. destruct (negb _); [by simplify_eq|].
  destruct (_ <? _); [by simplify_eq|]. destruct (_ =? _); [by simplify_eq|].
  apply bind_Done_inv in H as (to & _ & H). destruct to as [to|]; [|by simplify_eq].
  apply bind_Done_inv in H as (tv & Ht%vm_of_Some & H). destruct (negb _ || negb _).
  { destruct (bf_contains a NOTIFY); [|by simplify_eq].
    apply bind_Done_inv in H as ([[b i] lk] & Hw & [= <- <- <-]). apply Hfr.
    exact (wait_for_frame vpages vpages_quiet_mailbox _ _ _ _ _ _ _ _ _ _ Ht Hw). }
  destruct (bf_contains _ _).
  { apply assert_then_Done in H as [_ H]. apply (deliver_frame vpages vpages_quiet false) in H as []. by split. }
  apply bind_Done_inv in H as (cur & _ & H). apply bind_Done_inv in H as (cpu & _ & H).
  apply bind_Done_inv in H as (buffer & _ & H). destruct (_ <? _); [by simplify_eq|]. destruct (_ <? _); [by simplify_eq|].
  apply assert_then_Done in H as [_ H].
  apply bind_Done_inv in H as ([[[[ret to_i] from_i] mem] st] & [Hrt Hrf]%architected_with & H).
  set (h1 := set_mm st _) in H. assert (Hh : vpages <$> hv_vms h1 = vpages <$> hv_vms hv).
  { cbn [hv_vms set_mm set_mem h1]. unfold set_inner.
    assert (H1 : frame false vpages hv (upd_vm to (upd_vm_inner (λ _, to_i)) hv)).
    { apply frame_upd_vm. intros vm Hv. rewrite Ht in Hv. injection Hv as <-. unfold vpages. cbn. by rewrite Hrt. }
    rewrite <-(fr_vms _ _ _ _ H1). apply (fr_vms false vpages), frame_upd_vm. intros vm Hv.
    apply (f_equal (fmap vpages)) in Hv. rewrite <-list_lookup_fmap, (fr_vms _ _ _ _ H1), list_lookup_fmap, Hf in Hv. injection Hv as Hv1 Hv2.
    unfold vpages. cbn. rewrite Hrf. congruence. }
  destruct (negb _); [by simplify_eq|]. apply (deliver_frame vpages vpages_quiet false) in H as [_ Hp _ Hv _ _]. by rewrite Hv.
Qed.

(** ** Every handler keeps them *)
#[export] Instance keeps_mapped_kept : Kept p MESSAGE_BUFFER keeps_mapped.
Proof.
  split; [apply _|..].
  - intros v f hv Hf. apply frame_keeps; [by apply (kept_vcpus (Kept := safe_kept p MESSAGE_BUFFER))|]. apply frame_upd_vm. intros vm _. unfold vpages. by destruct (Hf vm) as [_ ->].
  - intros cpus hv Hc. apply keeps_intro; [by apply (kept_cpus (Kept := safe_kept p MESSAGE_BUFFER))|done|]. by intros _ _ x.
  - intros hw n1 n2 n3 hv c call hv' Hty H. pose proof (hv_exec_preserved p MESSAGE_BUFFER _ _ _ _ _ _ _ _ Hty H) as Hp.
    destruct (memory_call call) eqn:Hm; [|apply frame_keeps; [done|eapply exec_frame; eauto with hfo2]].
    destruct call; try done; cbn [hv_exec call_typed] in *.
    + apply bind_Done_inv in H as ([[??]?] & H & [= <-]). destruct Hty as [Hs Hr]. exact (vm_configure_mapped _ _ _ _ _ _ _ _ _ Hs Hr H).
    + apply bind_Done_inv in H as ([[??]?] & H & [= <-]). apply bind_Done_inv in H as ([[??]?] & H & [= <- <- <-]).
      apply msg_send_pages in H as [Hv Hh]. apply keeps_intro; [done..|]. intros _ _ x _ _ _. by rewrite Hh.
    + apply bind_Done_inv in H as ([??] & H & [= <-]). unfold api_share_memory in H.
      destruct (HfShare_try_from share); [|by simplify_eq]. apply bind_Done_inv in H as ([??] & H & [= <- <-]).
      split; [done|]. intros Hw. by apply (share_memory_mapped _ _ _ _ _ _ _ _ Hty H Hw).
Qed.
Lemma set_mem_mapped mem hv : mem_ok mem → keeps_mapped hv (set_mem mem hv).
Proof. intros Hm. apply frame_keeps; [by apply frame_preserved, frame_set_mem|by apply frame_set_mem]. Qed.
End mapped.
