(* ===== verification/Guarded.v ===== *)
(** * Translation in force

    The page tables of a VM protect the others only while the CPU uses them.  On every
    CPU that runs a vCPU, in every reachable state of the machine, [vttbr_el2] holds
    the root of the page table and the id of that vCPU's VM, and [hcr_el2] has the
    traps and the translation turned on; no vCPU is on two CPUs. *)
From S2P Require Import Prelude Addr Mode Arch ArchAarch64 Mpool Mm MmSpec PageTables MemoryManager Stage2Modes Abi.
From S2P Require Import ArchCpu Interrupts Cpu Vm Memory Spci Hypervisor Load Init Api Frames Ownership Sharing Isolation.
From S2P Require Import Touch Psci Handler Machine Switch.

(** ** What the registers must say *)

(** The registers that matter: [vttbr_el2], and [hcr_el2] without its interrupt bit. *)
Definition key (l : ArchSysRegs) : Z * Z := (vttbr_el2 l, Z.ldiff (hcr_el2 l) HCR_EL2_VI).
(** [hcr_el2] as [arch_regs_reset] sets it. *)
Definition hcr_value (is_primary : bool) : Z :=
  hcr_el2 (lazy (arch_regs_reset (mkHw 0 0 0 0 0) regs_default is_primary 0 0 (pa_init 0))).
Definition vm_key (vr : Z * Z) : Z * Z := (Z.lor vr.2 (wshl vr.1 48), hcr_value (vr.1 =? HF_PRIMARY_VM_ID)).

Lemma reset_key hw g b id i t : key (lazy (arch_regs_reset hw g b id i t)) = (Z.lor (pa_addr t) (wshl id 48), hcr_value b).
Proof. by destruct b. Qed.
(** The upper half of the value is empty, so that clearing it loses nothing. *)
Lemma hcr_value_low b i : 32 ≤ i → Z.testbit (hcr_value b) i = false.
Proof. intros Hi. apply (testbit_small _ 32); [by destruct b|lia]. Qed.
Lemma vi_key b l vr : key l = vm_key vr → key (with_hcr (vi_bit (hcr_el2 l) b) l) = key l.
Proof.
  unfold key, vm_key. intros [= _ Hh]. cbn [vttbr_el2 hcr_el2 with_hcr]. f_equal. unfold vi_bit. destruct b; apply Z.bits_inj'; intros i Hi.
  - rewrite !Z.ldiff_spec, Z.lor_spec. by destruct (Z.testbit (hcr_el2 l) i), (Z.testbit HCR_EL2_VI i).
  - pose proof (f_equal (λ z, Z.testbit z i) Hh) as Hb. cbv beta in Hb. rewrite Z.ldiff_spec in Hb.
    rewrite !Z.ldiff_spec, Z.land_spec, Z.ldiff_spec. change (2 ^ 32 - 1) with (Z.ones 32).
    destruct (decide (i < 32)) as [Hl|Hl].
    + rewrite Z.ones_spec_low by lia. by destruct (Z.testbit (hcr_el2 l) i), (Z.testbit HCR_EL2_VI i).
    + rewrite hcr_value_low in Hb by lia. rewrite Hb, Z.ones_spec_high by lia. by destruct (Z.testbit (hcr_el2 l) i).
Qed.
(** Stage-2 translation is on, and [smc] instructions trap. *)
Lemma hcr_value_on b : Z.testbit (hcr_value b) 0 = true ∧ Z.testbit (hcr_value b) 19 = true.
Proof. by destruct b. Qed.

(** ** Changes that keep them *)
Record mild (c x : vref) (v v' : VCpu) : Prop := {
  mi_key : key (lazy (vi_regs (vc_inner v'))) = key (lazy (vi_regs (vc_inner v)));
  mi_cpu : vi_cpu (vc_inner v') = vi_cpu (vc_inner v);
  mi_lock : vc_locked v' = vc_locked v;
  mi_run : x.1 = primary_index ∨ x = c ∨ (runnable v' → runnable v);
}.
#[export] Instance mild_preorder c x : PreOrder (mild c x).
Proof.
  split.
  - intros v. split; auto.
  - intros a b d [] []. split; try congruence. destruct mi_run0 as [|[|]], mi_run1 as [|[|]]; auto.
Qed.
Record milds (c : vref) (hv hv' : Hypervisor) : Prop := {
  ms_roots : vroots hv' = vroots hv;
  ms_vcpu x : option_Forall2 (mild c x) (vcpu_at hv x) (vcpu_at hv' x);
}.
#[export] Instance milds_preorder c : PreOrder (milds c).
Proof.
  split.
  - intros hv. split; [done|]. intros x. destruct (vcpu_at hv x); by constructor.
  - intros a b d [R1 V1] [R2 V2]. split; [congruence|]. intros x. specialize (V1 x). specialize (V2 x).
    destruct V1; inversion V2; subst; [|constructor]. constructor. by etrans.
Qed.
Lemma touched_mild c k x v v' : touched c k x v v' → mild c x v v'.
Proof.
  intros []. split; [by rewrite (same_but_r0_lazy _ _ t_regs)|done..|].
  destruct (decide (x = c)) as [->|Hx]; [by right; left|]. right; right. unfold runnable. by rewrite t_state.
Qed.
Lemma evolves_milds c k hv hv' : evolves c k hv hv' → vroots hv' = vroots hv → milds c hv hv'.
Proof. intros [_ _ V] R. split; [done|]. intros x. destruct (V x); constructor. by eapply touched_mild. Qed.
Lemma vroots_upd_vc x f hv : vroots (upd_vc x f hv) = vroots hv.
Proof. exact (fr_vms _ _ _ _ (frame_upd_vm vroot false x.1 (upd_vcpu x.2 f) hv (λ _ _, eq_refl))). Qed.
Lemma milds_upd_vc c x f hv :
  (∀ v, vcpu_at hv x = Some v → mild c x v (f v)) → milds c hv (upd_vc x f hv).
Proof.
  intros Hf. split.
  - apply vroots_upd_vc.
  - intros y. rewrite vcpu_at_upd_vc. destruct (decide (y = x)) as [->|].
    + destruct (vcpu_at hv x) eqn:E; constructor; auto.
    + destruct (vcpu_at hv y); by constructor.
Qed.
(** Stores to the registers of a vCPU that keep its key. *)
Lemma milds_regs c x f hv :
  (∀ v, vcpu_at hv x = Some v → key (lazy (f (vi_regs (vc_inner v)))) = key (lazy (vi_regs (vc_inner v)))) →
  milds c hv (upd_vc x (upd_inner (with_regs f)) hv).
Proof. intros Hf. apply milds_upd_vc. intros v Hv. split; auto. by apply Hf. Qed.

(** ** The invariant, seen from one CPU *)
Definition saved_ok (hv : Hypervisor) (x : vref) : Prop :=
  ∃ vr v, vroots hv !! x.1 = Some vr ∧ vcpu_at hv x = Some v ∧ key (lazy (vi_regs (vc_inner v))) = vm_key vr.
Definition locked (hv : Hypervisor) (x : vref) : Prop := ∃ v, vcpu_at hv x = Some v ∧ vc_locked v = true.
(** CPU [k] runs [c]: the primary's vCPU with the number of the CPU, or a secondary
    vCPU that is locked for it. *)
Record own_ok (hv : Hypervisor) (k : nat) (c : vref) : Prop := {
  ow_saved : saved_ok hv c;
  ow_cpu : cpu_of hv c = Some k;
  ow_primary : saved_ok hv (primary_index, k);
  ow_primary_cpu : cpu_of hv (primary_index, k) = Some k;
  ow_self : c.1 = primary_index → c = (primary_index, k);
  ow_locked : c.1 ≠ primary_index → locked hv c;
}.
Definition ids_ok (hv : Hypervisor) : Prop := ∀ v vr, vroots hv !! v = Some vr → vr.1 = Z.of_nat v + 1.
(** A secondary vCPU that may be run has been reset. *)
Definition runnable_ok (hv : Hypervisor) : Prop :=
  ∀ x v, vcpu_at hv x = Some v → x.1 ≠ primary_index → runnable v → saved_ok hv x.

Section view.
(** The other CPUs and what they run. *)
Context (k : nat) (others : list (nat * vref)).

Definition world (hv : Hypervisor) : Prop :=
  ids_ok hv ∧ runnable_ok hv ∧ ∀ j d, (j, d) ∈ others → own_ok hv j d.
Definition sound (c : vref) (hv : Hypervisor) : Prop :=
  world hv ∧ own_ok hv k c ∧ ∀ j d, (j, d) ∈ others → j ≠ k ∧ d ≠ c.
(** The vCPU to switch to. *)
Definition switchable (c : vref) (hv : Hypervisor) (n : vref) : Prop :=
  n = (primary_index, k) ∨
  c.1 = primary_index ∧ n.1 ≠ primary_index ∧ saved_ok hv n ∧ cpu_of hv n = Some k ∧ locked hv n ∧
  ∀ j d, (j, d) ∈ others → d ≠ n.

Lemma milds_saved c hv hv' x : milds c hv hv' → saved_ok hv x → saved_ok hv' x.
Proof.
  intros [R V] (vr & v & Hr & Hv & Hk). specialize (V x). rewrite Hv in V. inversion V as [? v' M|]; subst.
  exists vr, v'. rewrite R. split_and!; [done..|]. by rewrite (mi_key _ _ _ _ M).
Qed.
Lemma milds_cpu c hv hv' x : milds c hv hv' → cpu_of hv' x = cpu_of hv x.
Proof. intros [_ V]. unfold cpu_of. destruct (V x) as [? ? M|]; [apply M|done]. Qed.
Lemma milds_locked c hv hv' x : milds c hv hv' → locked hv x → locked hv' x.
Proof.
  intros [R V] (v & Hv & Hl). specialize (V x). rewrite Hv in V. inversion V as [? v' M|]; subst.
  exists v'. split; [done|]. by rewrite (mi_lock _ _ _ _ M).
Qed.
Lemma milds_own c hv hv' j d : milds c hv hv' → own_ok hv j d → own_ok hv' j d.
Proof.
  intros M []. split; try done; rewrite ?(milds_cpu _ _ _ _ M); try done; eauto using milds_saved, milds_locked.
Qed.
Lemma milds_world c hv hv' :
  milds c hv hv' → world hv → (c.1 ≠ primary_index → saved_ok hv c) → world hv'.
Proof.
  intros M (Hi & Hr & Ho) Hc. split_and!.
  - intros v vr. rewrite (ms_roots _ _ _ M). apply Hi.
  - intros x v' Hv' Hx Hrun. pose proof (ms_vcpu _ _ _ M x) as V. rewrite Hv' in V. inversion V as [v ? Mx Hv|]; subst.
    eapply milds_saved; [done|]. destruct (mi_run _ _ _ _ Mx) as [|[->|Hvr]]; [done|auto|].
    eapply Hr; eauto.
  - intros j d Hjd. eapply milds_own; eauto.
Qed.
Lemma milds_sound c hv hv' : milds c hv hv' → sound c hv → sound c hv'.
Proof.
  intros M (Hw & Ho & Hd). split_and!; [|by eapply milds_own|done]. eapply milds_world; [done..|]. intros _. apply Ho.
Qed.
Lemma milds_switchable c hv hv' n : milds c hv hv' → switchable c hv n → switchable c hv' n.
Proof.
  intros M [->|(? & ? & ? & ? & ? & ?)]; [by left|]. right. rewrite (milds_cpu _ _ _ _ M).
  split_and!; try done; eauto using milds_saved, milds_locked.
Qed.
End view.

(** ** Handlers that keep the invariant *)
Section good.
Context {FS : Type} (k : nat) (others : list (nat * vref)) (c : vref).
Implicit Types (s : St FS).

(** CPU [k] runs [c], and [nx] is the vCPU to switch to, if any. *)
Definition inv (s : St FS) (nx : option vref) : Prop :=
  p_current (st_cpu s) = c ∧ sound k others c (st_hv s) ∧
  (∃ vr, vroots (st_hv s) !! c.1 = Some vr ∧ key (lazy (p_regs (st_cpu s))) = vm_key vr) ∧
  ∀ n, nx = Some n → switchable k others c (st_hv s) n.
(** A part of a handler that starts with [nx] and ends with [g a]. *)
Definition good {X} (nx : option vref) (m : handler FS X) (g : X → option vref) : Prop :=
  ∀ s o s', m s = Done (o, s') → inv s nx → inv s' (o ≫= g).

Lemma inv_none s nx : inv s nx → inv s None.
Proof. intros (? & ? & ? & ?). by split_and!. Qed.
Lemma inv_milds s hv nx :
  milds c (st_hv s) hv → inv s nx → inv (mkSt hv (st_cpu s) (st_last s) (st_fw s)) nx.
Proof.
  intros M (Hc & Hs & Hl & Hn). split_and!; [done|by eapply milds_sound| |].
  - cbn. by rewrite (ms_roots _ _ _ M).
  - intros n ->. eapply milds_switchable; eauto.
Qed.

Lemma good_ret {X} nx (a : X) g : g a = nx ∨ g a = None → good nx (mret a) g.
Proof. intros [E|E] s o s' [= <- <-] Hi; cbn; rewrite E; [done|by eapply inv_none]. Qed.
Lemma good_bind {X Y} nx (m : handler FS X) g1 (f : X → handler FS Y) g2 :
  good nx m g1 → (∀ a, good (g1 a) (f a) g2) → good nx (m ≫= f) g2.
Proof.
  intros Hm Hf s o s' H Hi. apply hbind_inv in H as [(a & s1 & H1 & H2)|[H1 ->]].
  - eapply Hf; [done|]. exact (Hm _ _ _ H1 Hi).
  - exact (Hm _ _ _ H1 Hi).
Qed.
Lemma good_asks {X} nx (f : St FS → X) : good nx (asks f) (λ _, nx).
Proof. by intros s o s' [= <- <-]. Qed.
Lemma good_peek {X} nx (f : Hypervisor → exec X) : good nx (peek f) (λ _, nx).
Proof. by intros s o s' (a & _ & [= <- <-])%bind_Done_inv. Qed.
Lemma good_lift {X} nx (m : exec X) : good nx (lift m) (λ _, nx).
Proof. by intros s o s' (a & _ & [= <- <-])%bind_Done_inv. Qed.
Lemma good_gone {X} nx g : good nx (gone (A := X)) g.
Proof. intros s o s' [= <- <-]. apply inv_none. Qed.
Lemma good_panic {X} nx g : good nx (panic (A := X)) g.
Proof. by intros s o s' H. Qed.
Lemma good_if {X} nx (b : bool) (m n : handler FS X) g : good nx m g → good nx n g → good nx (if b then m else n) g.
Proof. by destruct b. Qed.
Lemma good_smc nx el3 func args id : good nx (smc_internal el3 func args id) (λ _, nx).
Proof.
  intros s o s'. unfold smc_internal. destruct (el3 _ _) as [[res|] fw]; intros [= <- <-] Hi; [exact Hi|].
  exact (inv_none _ _ Hi).
Qed.
Lemma good_on_cpu nx f :
  (∀ cpu, p_current (f cpu) = p_current cpu ∧ key (lazy (p_regs (f cpu))) = key (lazy (p_regs cpu))) →
  good nx (on_cpu f) (λ _, nx).
Proof.
  intros Hf s o s' [= <- <-] (Hc & Hs & Hl & Hn). destruct (Hf (st_cpu s)) as [H1 H2]. split_and!; cbn; rewrite ?H1, ?H2; auto.
Qed.
Lemma good_on_hv nx f : (∀ hv, sound k others c hv → milds c hv (f hv)) → good nx (on_hv f) (λ _, nx).
Proof. intros Hf s o s' [= <- <-] Hi. apply inv_milds; [|done]. apply Hf, Hi. Qed.
Lemma good_upd_regs nx x f :
  (∀ hv v, sound k others c hv → vcpu_at hv x = Some v →
     key (lazy (f (vi_regs (vc_inner v)))) = key (lazy (vi_regs (vc_inner v)))) →
  good nx (upd_regs x f) (λ _, nx).
Proof.
  intros Hf. apply good_bind with (g1 := λ _, nx); [apply good_peek|intros _]. apply good_on_hv.
  intros hv Hs. apply milds_regs. intros v Hv. by eapply Hf.
Qed.
(** The registers of the vCPU that is switched to. *)
Lemma good_upd_regs_next n f :
  (∀ vr v, key (lazy (vi_regs (vc_inner v))) = vm_key vr →
     key (lazy (f (vi_regs (vc_inner v)))) = key (lazy (vi_regs (vc_inner v)))) →
  good (Some n) (upd_regs n f) (λ _, Some n).
Proof.
  intros Hf s o s' H Hi. pose proof Hi as (_ & (_ & Ho & _) & _ & Hn). specialize (Hn n eq_refl).
  assert (Hs : saved_ok (st_hv s) n) by (destruct Hn as [->|(_ & _ & ? & _)]; [by apply ow_primary in Ho|done]).
  destruct Hs as (vr & v & Hr & Hv & Hk). unfold upd_regs, the_vcpu in H. apply peek_inv in H as (w & _ & [= <- <-]).
  apply inv_milds; [|done]. apply milds_regs. intros v' Hv'. rewrite Hv in Hv'. injection Hv' as <-. eauto.
Qed.
(** A call of the Rust code. *)
Lemma good_rust {X} nx (f : Hypervisor → exec (X * Hypervisor)) g :
  (∀ hv a hv', f hv = Done (a, hv') → sound k others c hv → milds c hv hv' ∧
     ∀ n, g a = Some n → nx = Some n ∨ switchable k others c hv' n) →
  good nx (rust f) g.
Proof.
  intros Hf s o s' ([a hv'] & H & [= <- <-])%bind_Done_inv Hi.
  destruct (Hf _ _ _ H (proj1 (proj2 Hi))) as [M Hg]. pose proof (inv_milds _ _ _ M Hi) as Hi'.
  split_and!; try apply Hi'. cbn. intros n Hn. destruct (Hg n Hn) as [->|]; [|done]. apply Hi'. done.
Qed.
End good.

(** ** A secondary vCPU that nobody runs *)
Section free.
Context (k : nat) (others : list (nat * vref)) (c t : vref).

(** [t], which is not locked, becomes [v']. *)
Record freely (v v' : VCpu) (hv hv' : Hypervisor) : Prop := {
  fe_roots : vroots hv' = vroots hv;
  fe_secondary : t.1 ≠ primary_index;
  fe_old : vcpu_at hv t = Some v;
  fe_new : vcpu_at hv' t = Some v';
  fe_free : vc_locked v = false;
  fe_ne x : x ≠ t → vcpu_at hv' x = vcpu_at hv x;
  fe_ok : runnable v' → saved_ok hv' t;
}.

Section with_states.
Context (v v' : VCpu) (hv hv' : Hypervisor) (F : freely v v' hv hv').

Lemma freely_locked x : locked hv x → x ≠ t.
Proof. intros (w & Hw & Hl) ->. destruct F. congruence. Qed.
Lemma freely_saved x : x ≠ t → saved_ok hv x → saved_ok hv' x.
Proof. intros Hx (vr & w & Hr & Hw & Hk). exists vr, w. rewrite (fe_roots _ _ _ _ F), (fe_ne _ _ _ _ F) by done. done. Qed.
Lemma freely_own j d : own_ok hv j d → own_ok hv' j d ∧ d ≠ t.
Proof.
  intros []. assert (Hd : d ≠ t).
  { intros ->. apply freely_locked in ow_locked0; [done|apply F]. }
  assert (Hp : (primary_index, j) ≠ t) by (intros He; apply (fe_secondary _ _ _ _ F); by rewrite <-He).
  split; [|done]. split; unfold cpu_of in *; rewrite ?(fe_ne _ _ _ _ F) by done; try done.
  1, 2: by apply freely_saved.
  intros Hn. destruct (ow_locked0 Hn) as (w & Hw & Hl). exists w. by rewrite (fe_ne _ _ _ _ F).
Qed.
Lemma freely_sound : sound k others c hv → sound k others c hv'.
Proof.
  intros ((Hi & Hr & Ho) & Hc & Hd). split_and!; [split_and!| |done].
  - intros w vr. rewrite (fe_roots _ _ _ _ F). apply Hi.
  - intros x w Hw Hx Hrun. destruct (decide (x = t)) as [->|Hne].
    + rewrite (fe_new _ _ _ _ F) in Hw. injection Hw as <-. by apply F.
    + apply freely_saved; [done|]. rewrite (fe_ne _ _ _ _ F) in Hw by done. by eapply Hr.
  - intros j d Hjd. by apply freely_own, Ho.
  - by apply freely_own.
Qed.
Lemma freely_switchable n : switchable k others c hv n → switchable k others c hv' n.
Proof.
  intros [->|(H1 & H2 & H3 & H4 & H5 & H6)]; [by left|]. right. pose proof (freely_locked _ H5) as Hn.
  split_and!; try done; [by apply freely_saved| |].
  - unfold cpu_of in *. by rewrite (fe_ne _ _ _ _ F).
  - destruct H5 as (w & Hw & Hl). exists w. by rewrite (fe_ne _ _ _ _ F).
Qed.
End with_states.
End free.

(** ** The calls *)
Lemma cpu_on_mild c cpus vcs i e a prev cpus' vcs' :
  cpu_on cpus vcs i e a = Done (Some (prev, cpus', vcs')) →
  ∀ j, option_Forall2 (mild c (primary_index, j)) (vcs !! j) (vcs' !! j).
Proof.
  intros H j. unfold cpu_on in H. unbind H; simplify_eq.
  2:{ destruct (vcs' !! j); by constructor. }
  unfold index_vcpu, index_of in *. cbn in *. unfold vcpu_lock in *. destruct (vcs !! i) as [v0|] eqn:Hv; [|done].
  simplify_eq. destruct (vc_locked _) eqn:Hl; [done|]. simplify_eq.
  destruct (decide (j = i)) as [->|]; [|rewrite list_lookup_insert_ne by done; destruct (vcs !! j); by constructor].
  rewrite list_lookup_insert_eq by (by eapply lookup_lt_Some). rewrite Hv. injection E1 as <-. constructor. split; [done|done|by rewrite Hl|by left].
Qed.
Lemma set_cpus_milds c cpus hv : milds c hv (set_cpus cpus hv).
Proof. split; [done|]. intros x. change (vcpu_at (set_cpus cpus hv) x) with (vcpu_at hv x). destruct (vcpu_at hv x); by constructor. Qed.
#[export] Hint Resolve set_cpus_milds : hfo2.

(** Walks through a handler whose binds keep the vCPU to switch to. *)
Ltac good_step nx :=
  match goal with
  | |- good _ _ _ _ (mbind _ _) _ => apply (good_bind _ _ _ nx _ (λ _, nx)); [|intros ?]
  | |- good _ _ _ _ (mret _) _ => apply good_ret; by first [left; reflexivity|right; reflexivity]
  | |- good _ _ _ _ (asks _) _ => apply good_asks
  | |- good _ _ _ _ (peek _) _ => apply good_peek
  | |- good _ _ _ _ (lift _) _ => apply good_lift
  | |- good _ _ _ _ gone _ => apply good_gone
  | |- good _ _ _ _ panic _ => apply good_panic
  | |- good _ _ _ _ (smc_internal _ _ _ _) _ => apply good_smc
  | |- good _ _ _ _ (if _ then _ else _) _ => apply good_if
  | |- good _ _ _ _ (match ?x with _ => _ end) _ => destruct x
  | H : _ |- good _ _ _ _ _ _ => apply H
  end.
Ltac goods nx := repeat good_step nx.

Section handlers.
Context (p : Aarch64.pa_bits) {RD : ReduceCrate} (MESSAGE_BUFFER : Z).
#[local] Hint Extern 0 ArchMM => exact (aarch64 p) : typeclass_instances.
#[local] Hint Extern 0 (ArchLaws _) => exact (aarch64_laws p) : typeclass_instances.
Context {FS : Type} (el3 : FS → list Z → option smc_res * FS).
Context (cpu_entry : Z) (cpu_addr : nat → Z) (version : Z) (rounds : nat) (now1 now2 now3 : Z) (undef : smc_res).
Context (k : nat) (others : list (nat * vref)) (c : vref).
Abbreviation gd := (good (FS := FS) k others c).

Lemma good_cpu_on nx i e a : gd nx (psci_cpu_on i e a) (λ _, nx).
Proof.
  intros s o s' H Hi. unfold psci_cpu_on in H. apply peek_inv in H as (pv & Hp%vm_of_Some & H).
  rewrite asks_bind_h in H. apply lift_inv in H as ([[[prev cpus'] vcs']|] & Hon & H).
  - rewrite !on_hv_bind_h in H. injection H as <- <-. cbn [mbind option_bind].
    pose proof (cpu_on_mild c _ _ _ _ _ _ _ _ Hon) as M.
    apply (inv_milds _ _ _ s (upd_vm primary_index (λ vm, mkVm (vm_id vm) vcs' (vm_inner vm) (aborting vm))
      (set_cpus cpus' (st_hv s)))); [|done].
    etrans; [apply set_cpus_milds|]. split.
    + by apply (fr_vms false vroot), frame_upd_vm.
    + intros x. rewrite vcpu_at_upd_vm. destruct (decide (x.1 = primary_index)) as [Hx|].
      * cbn. rewrite Hp. cbn. unfold vcpu_at. cbn. rewrite Hx, Hp. cbn. destruct x as [x1 x2]. cbn in *. subst. apply M.
      * destruct (vcpu_at _ x); by constructor.
  - rewrite on_hv_bind_h in H. injection H as <- <-. cbn [mbind option_bind]. eapply inv_none.
    apply (inv_milds _ _ _ s); [apply set_cpus_milds|done].
Qed.
Lemma good_psci_primary nx func a0 a1 a2 ret :
  gd nx (psci_primary_vm_handler el3 cpu_entry cpu_addr version rounds c func a0 a1 a2 ret) (λ _, nx).
Proof.
  assert (Hoff : ∀ i, gd nx (psci_cpu_off i) (λ _, nx)) by (intros i; apply good_on_hv; auto with hfo2).
  assert (Hloop : ∀ n id i, gd nx (cpu_on_loop el3 cpu_entry cpu_addr n id i) (λ _, nx)).
  { intros n id i. induction n as [|n IH]; cbn [cpu_on_loop]; unfold smc64; goods nx. }
  pose proof (good_cpu_on nx) as Hon.
  assert (Hr : ∀ e a, gd nx (upd_regs c (λ g, set_pc_arg g e a)) (λ _, nx)) by (intros; by apply good_upd_regs).
  unfold psci_primary_vm_handler, smc32, smc64, cpu_find, vcpu_get_cpu, the_vcpu. cbv zeta. goods nx.
Qed.

(** A call after which the primary runs, or the same vCPU. *)
Lemma good_call {X} nx (f : Hypervisor → exec (X * Hypervisor)) hw call (g : X → option vref) :
  (∀ hv a hv', f hv = Done (a, hv') → hv_exec p MESSAGE_BUFFER hw now1 now2 now3 hv c call = Done (Some hv')) →
  (∀ hv a hv', f hv = Done (a, hv') → cpu_of hv c = Some k →
     ∃ n, evolved c (Some k) hv n hv' ∧ (g a = n ∨ g a = nx)) →
  gd nx (rust f) g.
Proof.
  intros He Hv. apply good_rust. intros hv a hv' H Hs.
  destruct (Hv _ _ _ H (ow_cpu _ _ _ (proj1 (proj2 Hs)))) as (n & [E Hn] & Hg). split.
  - eapply evolves_milds; [done|]. eapply exec_roots, He, H.
  - intros n' Hn'. destruct Hg as [Hg|Hg]; [|left; congruence]. right. left. rewrite Hg in Hn'.
    by destruct (Hn _ Hn') as (i & [= ->] & ->).
Qed.

(** Unlocking a vCPU that was locked to look at it. *)
Lemma good_affinity nx t :
  gd nx (v ← the_vcpu t;
         let '(got, v) := vcpu_try_lock v in
         if negb got then mret (true, PSCI_RETURN_ON, nx)
         else
           let ret := if is_off (vc_inner v) then PSCI_RETURN_OFF else PSCI_RETURN_ON in
           _ ← on_hv (upd_vc t (λ _, vcpu_unlock v));
           mret (true, ret, nx)) (λ '(_, _, n), n).
Proof.
  intros s o s' H Hi. unfold the_vcpu in H. apply peek_inv in H as (v & Hv%vcpu_of_at & H).
  unfold vcpu_try_lock in H. destruct (vc_locked v) eqn:Hl; cbn [negb] in H; [injection H as <- <-; exact Hi|].
  rewrite on_hv_bind_h in H. injection H as <- <-. cbn. apply (inv_milds _ _ _ s); [|done].
  apply milds_upd_vc. intros w Hw. rewrite Hv in Hw. injection Hw as <-.
  assert (vcpu_unlock (set_lock true v) = v) as -> by (destruct v; cbn in *; by subst). done.
Qed.

(** A vCPU of the same VM is reset and started. *)
Lemma good_start nx t (entry : ipaddr_t) (arg idx : Z) vm :
  c.1 ≠ primary_index → t.1 = c.1 →
  ∀ (s : St FS) o s', hv_vms (st_hv s) !! c.1 = Some vm →
  (v ← the_vcpu t;
   hw ← asks (λ s, hw_of (st_cpu s));
   started ← lift (vcpu_secondary_reset_and_start hw (vm_id vm) (get_ptable_raw vm) idx v entry arg);
   match started with
   | None => gone
   | Some (was_off, v) =>
       _ ← on_hv (upd_vc t (λ _, v));
       if was_off : bool then
         n ← rust (λ hv, api_wake_up hw now1 hv c t);
         mret (true, PSCI_RETURN_SUCCESS, Some n)
       else mret (true, PSCI_ERROR_ALREADY_ON, nx)
   end) s = Done (o, s') →
  inv k others c s nx → inv k others c s' (o ≫= λ '(_, _, n), n).
Proof.
  intros Hc Ht s o s' Hvm H Hi. unfold the_vcpu in H. apply peek_inv in H as (v & Hv%vcpu_of_at & H).
  rewrite asks_bind_h in H. apply lift_inv in H as (st & Hst & H).
  unfold vcpu_secondary_reset_and_start in Hst. destruct (negb (negb _)); [done|]. unfold vcpu_lock in Hst.
  destruct (vc_locked v) eqn:Hl; injection Hst as <-; [injection H as <- <-; exact (inv_none _ _ _ _ _ Hi)|].
  rewrite on_hv_bind_h in H.
  set (v' := vcpu_unlock _) in H. set (hv1 := upd_vc t (λ _, v') (st_hv s)) in H.
  assert (Hvr : vroots (st_hv s) !! t.1 = Some (vroot vm)) by (rewrite Ht; by apply vroots_lookup).
  assert (F : freely t v v' (st_hv s) hv1).
  { split; [|congruence|done| |done| |].
    - apply vroots_upd_vc.
    - unfold hv1. by rewrite vcpu_at_upd_vc, decide_True, Hv.
    - intros x Hx. unfold hv1. by rewrite vcpu_at_upd_vc, decide_False.
    - intros Hrun. exists (vroot vm), v'.
      assert (Hroots : vroots hv1 = vroots (st_hv s)) by apply vroots_upd_vc.
      rewrite Hroots. split_and!; [done|unfold hv1; by rewrite vcpu_at_upd_vc, decide_True, Hv|].
      destruct Hi as (_ & ((Hids & Hro & _) & _) & _). unfold v' in *. destruct (is_off _) eqn:Hoff.
      + cbn [vcpu_unlock set_lock upd_inner vc_inner vcpu_on with_regs vi_regs set_pc_arg lazy].
        rewrite reset_key. unfold vm_key. rewrite (proj2 (Z.eqb_neq _ _)); [done|].
        intros Hid. rewrite Ht in Hvr. apply Hids in Hvr. rewrite Hid in Hvr. apply Hc.
        change primary_index with 0%nat. change HF_PRIMARY_VM_ID with 1 in *. lia.
      + assert (Hu : vcpu_unlock (set_lock true v) = v) by (destruct v; cbn in *; by subst). rewrite Hu in *.
        destruct (Hro t v Hv) as (vr & v2 & Hr2 & Hv2 & Hk2); [congruence|done|]. congruence. }
  assert (Hi1 : inv k others c (mkSt hv1 (st_cpu s) (st_last s) (st_fw s)) nx).
  { destruct Hi as (H1 & H2 & (vr & H3 & H4) & H5). split_and!; [done|by eapply freely_sound|exists vr|].
    - cbn [st_hv st_cpu]. by rewrite (fe_roots _ _ _ _ _ F).
    - intros n Hn. eapply freely_switchable; eauto. }
  destruct (is_off _); [|injection H as <- <-; exact Hi1].
  revert H Hi1. apply (good_bind _ _ _ nx _ Some).
  - apply (good_call nx _ (hw_of (st_cpu s)) (CWakeUp t)).
    + intros hv a hv' H. cbn [hv_exec]. by rewrite H.
    + intros hv a hv' H Hcpu. eexists. split; [eapply wake_up_evolved; [exact H|done|done]|by left].
  - intros n. apply good_ret. by left.
Qed.

(** Discharges [good_call] for one of the calls: [ev] is its lemma of [Touch]. *)
Ltac gcall nx hw call ev :=
  apply (good_call nx _ hw call);
  [ let hv := fresh in let a := fresh in let hv' := fresh in let H := fresh "H" in
    intros hv a hv' H; cbn [hv_exec]; unbind H; simplify_eq;
    first [ by rewrite H | match goal with E : _ = Done _ |- _ => by rewrite E end ]
  | let hv := fresh in let a := fresh in let hv' := fresh in let H := fresh "H" in let Hc := fresh "Hc" in
    intros hv a hv' H Hc; unbind H; simplify_eq; eexists; split;
    [ first [ eapply ev; eassumption | apply evolved_none; eapply ev; eassumption ]
    | cbn; first [ by left | by right | match goal with |- context [from_option _ _ ?n] => destruct n; [by left|by right] end ] ] ].

Lemma good_psci_secondary nx func a0 a1 a2 ret :
  c.1 ≠ primary_index → gd nx (psci_secondary_vm_handler now1 c func a0 a1 a2 ret nx) (λ '(_, _, n), n).
Proof.
  intros Hc. unfold psci_secondary_vm_handler. cbv zeta.
  apply good_if; [goods nx|]. apply good_if; [goods nx|]. apply good_if.
  { unfold the_vm. apply (good_bind _ _ _ nx _ (λ _, nx)); [goods nx|intros vm].
    apply good_if; [goods nx|]. apply good_if; [goods nx|]. apply good_affinity. }
  apply good_if.
  { apply (good_bind _ _ _ nx _ (λ _, nx)); [goods nx|intros hw]. apply (good_bind _ _ _ nx _ Some).
    - gcall nx hw CWaitForInterrupt wait_for_interrupt_evolved.
    - intros n. apply good_ret. by left. }
  apply good_if.
  { apply (good_bind _ _ _ nx _ (λ _, nx)); [goods nx|intros hw]. apply (good_bind _ _ _ nx _ (λ '(n, _), Some n)).
    - gcall nx hw CVcpuOff vcpu_off_evolved.
    - intros [n hw']. apply (good_bind _ _ _ (Some n) _ (λ _, Some n)); [by apply good_on_cpu|].
      intros _. apply good_ret. by left. }
  apply good_if.
  { intros s o s' H Hi. unfold the_vm in H. apply peek_inv in H as (vm & Hvm%vm_of_Some & H).
    destruct (_ <=? _); [injection H as <- <-; exact Hi|]. revert H Hi. by apply good_start. }
  goods nx.
Qed.
Lemma ids_primary hv v vm : ids_ok hv → hv_vms hv !! v = Some vm → vm_id vm = HF_PRIMARY_VM_ID ↔ v = primary_index.
Proof.
  intros Hi Hv. apply vroots_lookup, Hi in Hv. cbn in Hv. rewrite Hv. change HF_PRIMARY_VM_ID with 1.
  change primary_index with 0%nat. lia.
Qed.
Lemma good_psci nx func a0 a1 a2 ret :
  gd nx (psci_handler el3 cpu_entry cpu_addr version rounds now1 c func a0 a1 a2 ret nx) (λ '(_, _, n), n).
Proof.
  intros s o s' H Hi. unfold psci_handler, the_vm in H. apply peek_inv in H as (vm & Hvm%vm_of_Some & H).
  pose proof (ids_primary _ _ _ (proj1 (proj1 (proj1 (proj2 Hi)))) Hvm) as Hid.
  destruct (Z.eqb_spec (vm_id vm) HF_PRIMARY_VM_ID) as [|Hne]; revert H Hi.
  - apply (good_bind _ _ _ nx _ (λ _, nx)); [apply good_psci_primary|]. intros [b ret']. apply good_ret. by left.
  - apply good_psci_secondary. tauto.
Qed.

(** [vcpu_run]: the vCPU that is handed out may be switched to. *)
Lemma good_vcpu_run nx hw id idx :
  gd nx (rust (λ hv, '(ret, n, hv) ← api_vcpu_run hw now1 now2 now3 hv id idx c; Done ((ret, n), hv)))
    (λ '(_, n), from_option Some nx n).
Proof.
  intros s o s' ([a hv'] & H & [= <- <-])%bind_Done_inv Hi. cbn [mbind option_bind].
  assert (Hroots : vroots hv' = vroots (st_hv s)).
  { apply (exec_roots p MESSAGE_BUFFER hw now1 now2 now3 _ c (CVcpuRun id idx)). cbn [hv_exec]. unbind H. simplify_eq. by rewrite E. }
  apply bind_Done_inv in H as ([[ret n] hv1] & H & [= <- <-]). unfold api_vcpu_run in H.
  apply bind_Done_inv in H as ([r1 hv2] & H & Hr). apply vcpu_run_effect in H as (_ & _ & He & Ht).
  destruct r1 as [t|e]; injection Hr as <- <- <-; cbn [from_option].
  - destruct (Ht t eq_refl) as (Htp & vm & Hvm & Hid). destruct He as [(v & v' & Hv & Hv' & Hh) Hne].
    destruct Hi as (H1 & H2 & (vr & H3 & H4) & H5).
    pose proof H2 as ((Hids & Hro & Ho) & Hown & Hd).
    assert (Hsv : saved_ok hv2 t).
    { destruct (Hro t v Hv Htp (h_runnable _ _ _ Hh)) as (vr' & w & Hr' & Hw & Hk). exists vr', v'. rewrite Hroots.
      split_and!; [done..|]. rewrite Hv in Hw. injection Hw as <-. by rewrite (h_lazy _ _ _ Hh). }
    assert (F : freely t v v' (st_hv s) hv2) by (split; try done; apply Hh).
    split_and!; [done|by eapply freely_sound|exists vr; cbn; by rewrite Hroots|].
    intros n [= <-]. right. cbn [st_hv]. split_and!; [by eapply ids_primary|done|done| | |].
    + unfold cpu_of. rewrite Hv'. cbn. rewrite (h_cpu _ _ _ Hh). apply Hown.
    + exists v'. split; [done|apply Hh].
    + intros j d Hjd. by apply (freely_own _ _ _ _ _ F j), Ho.
  - apply (inv_milds _ _ _ s); [|done]. split; [done|]. intros x. destruct (He x) as [Hx|(v & Hv & Hl & Hx)].
    + rewrite Hx. destruct (vcpu_at (st_hv s) x); by constructor.
    + rewrite Hx, Hv. constructor. split; try done. right; right. by intros [].
Qed.

Lemma good_current {X} nx (f : vref → handler FS X) g : gd nx (f c) g → gd nx (current ≫= f) g.
Proof.
  intros Hf s o s' H Hi. unfold current in H. rewrite asks_bind_h in H. rewrite (proj1 Hi) in H. by eapply Hf.
Qed.
(** A call whose results are the register and the vCPU to switch to. *)
Ltac gpair nx hw call ev :=
  apply (good_bind _ _ _ nx _ (λ '(_, n), from_option Some nx n));
  [gcall nx hw call ev|intros [??]; apply good_ret; by left].
Lemma good_spci nx func a1 ret : gd nx (spci_handler MESSAGE_BUFFER now1 func a1 ret nx) (λ '(_, _, n), n).
Proof.
  unfold spci_handler. apply good_current. unfold the_hw.
  apply (good_bind _ _ _ nx _ (λ _, nx)); [goods nx|intros hw]. cbv zeta.
  apply good_if; [goods nx|]. apply good_if; [gpair nx hw CYield yield_evolved|].
  apply good_if; [gpair nx hw (CMsgSend (wrap 32 a1)) msg_send_evolved|].
  apply good_if; [gpair nx hw (CMsgRecv (wrap 32 a1)) msg_recv_evolved|]. goods nx.
Qed.
(** A call that returns to the caller. *)
Ltac gsame nx hw call ev :=
  apply (good_bind _ _ _ nx _ (λ _, nx)); [gcall nx hw call ev|intros ?; apply good_ret; by left].
Lemma good_hf_call nx func a1 a2 a3 : gd nx (hf_call now1 now2 now3 func a1 a2 a3 nx) snd.
Proof.
  unfold hf_call. apply good_current. unfold the_hw.
  apply (good_bind _ _ _ nx _ (λ _, nx)); [goods nx|intros hw].
  apply good_if; [goods nx|]. apply good_if; [goods nx|]. apply good_if; [goods nx|]. apply good_if.
  { apply (good_bind _ _ _ nx _ (λ '(_, n), from_option Some nx n)); [apply good_vcpu_run|].
    intros [??]. apply good_ret. by left. }
  apply good_if; [gpair nx hw (CVmConfigure a1 a2) vm_configure_evolved|].
  apply good_if; [gpair nx hw CMailboxClear mailbox_clear_evolved|].
  apply good_if; [gsame nx hw CMailboxWritableGet writable_get_evolves|].
  apply good_if; [gsame nx hw (CMailboxWaiterGet (wrap 16 a1)) waiter_get_evolves|].
  apply good_if; [gsame nx hw (CInterruptEnable (wrap 32 a1) (negb (a2 =? 0))) interrupt_enable_evolves|].
  apply good_if; [gsame nx hw CInterruptGet interrupt_get_evolves|].
  apply good_if; [gpair nx hw (CInterruptInject (wrap 16 a1) (wrap 16 a2) (wrap 32 a3)) interrupt_inject_evolved|].
  apply good_if; [gsame nx hw (CShareMemory (wrap 16 (Z.shiftr a1 32)) a2 a3 (Z.land a1 0xffffffff)) share_memory_evolves|].
  apply good_if; [gsame nx hw (CDebugLog (wrap 8 a1)) debug_log_evolves|]. goods nx.
Qed.
Lemma good_update_vi n : gd n (update_vi n) (λ _, n).
Proof.
  unfold update_vi, vcpu_is_interrupted, the_vcpu, on_live. destruct n as [n|].
  - apply (good_bind _ _ _ (Some n) _ (λ _, Some n)); [goods (Some n)|intros b]. apply good_upd_regs_next.
    intros vr v. apply vi_key.
  - apply good_current. apply (good_bind _ _ _ None _ (λ _, None)); [goods (@None vref)|intros b].
    intros s o s' [= <- <-] (Hc & Hs & (vr & Hr & Hk) & Hn). split_and!; [done..| |done].
    exists vr. split; [done|]. cbn. by rewrite (vi_key b _ vr).
Qed.
Lemma good_hvc a0 a1 a2 a3 :
  gd None (hvc_handler MESSAGE_BUFFER el3 cpu_entry cpu_addr version rounds now1 now2 now3 undef a0 a1 a2 a3) snd.
Proof.
  unfold hvc_handler. apply good_current.
  apply (good_bind _ _ _ None _ (λ '(_, _, n), n)); [apply good_psci|intros [[b ret] new]].
  apply good_if; [apply good_ret; by left|].
  apply (good_bind _ _ _ new _ (λ '(_, _, n), n)); [apply good_spci|intros [[b' ret'] new']].
  apply good_if.
  { apply (good_bind _ _ _ new' _ (λ _, new')); [apply good_update_vi|intros _]. apply good_ret. by left. }
  apply (good_bind _ _ _ new' _ snd); [apply good_hf_call|intros [ret2 new2]].
  apply (good_bind _ _ _ new2 _ (λ _, new2)); [apply good_update_vi|intros _]. apply good_ret. by left.
Qed.

Lemma good_smc_handler nx ret :
  gd nx (smc_handler el3 cpu_entry cpu_addr version rounds now1 c ret nx) (λ '(_, _, n), n).
Proof.
  unfold smc_handler, vcpu_get_regs, the_vcpu. cbv zeta.
  apply (good_bind _ _ _ nx _ (λ _, nx)); [goods nx|intros g].
  apply (good_bind _ _ _ nx _ (λ '(_, _, n), n)); [apply good_psci|intros [[b v] n]].
  apply good_if; [apply good_ret; by left|]. apply good_if.
  - gsame n demo_hw (CDebugLog (wrap 8 (x_reg g 1))) debug_log_evolves.
  - apply (good_bind _ _ _ n _ (λ _, n)); [unfold smc_forwarder, smc_forward, vcpu_get_regs, get_vm_id, the_vcpu, the_vm; goods n|].
    intros [??]. apply good_ret. by left.
Qed.
Lemma good_abort nx : gd nx (do_abort now1 c) Some.
Proof.
  intros s o s' H Hi. unfold do_abort, the_hw in H. rewrite asks_bind_h in H. apply peek_inv in H as (a & Ha & H).
  destruct a as [[n hv]|]; [|injection H as <- <-; exact (inv_none _ _ _ _ _ Hi)].
  assert (Hg : gd nx (rust (λ h, r ← api_abort (hw_of (st_cpu s)) now1 h c; match r with Some x => Done x | None => Panic end)) Some).
  { gcall nx (hw_of (st_cpu s)) CAbort abort_evolved. }
  eapply (Hg s); [|exact Hi]. unfold rust. rewrite Ha. rewrite on_hv_bind_h in H. by injection H as <- <-.
Qed.
Lemma good_fault esr far hpfar mode : gd None (handle_fault now1 c esr far hpfar mode) id.
Proof.
  unfold handle_fault, vcpu_get_regs, the_vcpu, the_vm.
  do 3 (apply (good_bind _ _ _ None _ (λ _, None)); [goods (@None vref)|intros ?]).
  apply good_if; [goods (@None vref)|].
  apply (good_bind _ _ _ None _ Some); [apply good_abort|intros n]. apply good_ret. by left.
Qed.
Lemma good_aborts : gd None (n ← do_abort now1 c; mret (Some n)) id.
Proof. apply (good_bind _ _ _ None _ Some); [apply good_abort|intros n]. apply good_ret. by left. Qed.
Lemma good_sync esr far hpfar :
  gd None (sync_lower_exception el3 cpu_entry cpu_addr version rounds now1 undef esr far hpfar) id.
Proof.
  unfold sync_lower_exception. apply good_current. cbv zeta. apply good_if.
  { apply (good_bind _ _ _ None _ (λ _, None)); [by apply good_upd_regs|intros _].
    apply (good_bind _ _ _ None _ (λ _, None)); [unfold the_hw; goods (@None vref)|intros hw]. apply good_if.
    - apply (good_bind _ _ _ None _ id); [gcall (@None vref) hw CYield yield_evolved|].
      intros [n|]; [apply good_ret; by left|apply good_panic].
    - apply (good_bind _ _ _ None _ Some); [gcall (@None vref) hw CWaitForInterrupt wait_for_interrupt_evolved|].
      intros n. apply good_ret. by left. }
  apply good_if; [apply good_fault|]. apply good_if; [apply good_fault|]. apply good_if.
  { unfold vcpu_get_regs, the_vcpu. apply (good_bind _ _ _ None _ (λ _, None)); [goods (@None vref)|intros g].
    apply (good_bind _ _ _ None _ (λ '(_, _, n), n)); [apply good_smc_handler|intros [[b ret] n]].
    do 2 (apply (good_bind _ _ _ n _ (λ _, n)); [by apply good_upd_regs|intros _]). apply good_ret. by left. }
  apply good_if; [apply good_panic|apply good_aborts].
Qed.
Lemma good_sysreg esr : gd None (handle_system_register_access now1 esr) id.
Proof.
  unfold handle_system_register_access. apply good_current.
  apply (good_bind _ _ _ None _ (λ _, None)); [unfold get_vm_id, the_vm; goods (@None vref)|intros id].
  apply good_if; [apply good_panic|]. apply good_if; [apply good_aborts|].
  apply (good_bind _ _ _ None _ (λ _, None)).
  - unfold debug_el1_process_access, vcpu_get_regs, the_vcpu. cbv zeta. apply good_if; [goods (@None vref)|].
    apply good_if; [apply good_panic|]. apply (good_bind _ _ _ None _ (λ _, None)); [goods (@None vref)|intros g].
    apply good_if.
    + apply (good_bind _ _ _ None _ (λ _, None)); [goods (@None vref)|intros v].
      apply (good_bind _ _ _ None _ (λ _, None)); [by apply good_upd_regs|intros _]. apply good_ret. by left.
    + apply (good_bind _ _ _ None _ (λ _, None)); [|intros _; apply good_ret; by left].
      apply good_if; [|goods (@None vref)]. apply good_on_cpu. intros cpu. unfold debug_write. by destruct (_ =? _).
  - intros ok. apply good_if; [apply good_aborts|].
    apply (good_bind _ _ _ None _ (λ _, None)); [by apply good_upd_regs|intros _]. apply good_ret. by left.
Qed.
Lemma good_irq : gd None (irq_lower now1) Some.
Proof.
  unfold irq_lower, the_hw. apply good_current. apply (good_bind _ _ _ None _ (λ _, None)); [goods (@None vref)|intros hw].
  gcall (@None vref) hw CPreempt preempt_evolved.
Qed.
Lemma good_save_volatile nx : gd nx save_volatile_to_vcpu (λ _, nx).
Proof. unfold save_volatile_to_vcpu, live. apply good_current. apply (good_bind _ _ _ nx _ (λ _, nx)); [goods nx|intros g]. by apply good_upd_regs. Qed.
Lemma good_save_nonvolatile nx : gd nx save_nonvolatile (λ _, nx).
Proof. unfold save_nonvolatile, live. apply good_current. apply (good_bind _ _ _ nx _ (λ _, nx)); [goods nx|intros g]. by apply good_upd_regs. Qed.
Lemma good_restore_volatile x : gd None (vcpu_restore_volatile_and_run x) (λ _, None).
Proof.
  unfold vcpu_restore_volatile_and_run, vcpu_get_regs, the_vcpu, on_live.
  apply (good_bind _ _ _ None _ (λ _, None)); [goods (@None vref)|intros g]. by apply good_on_cpu.
Qed.
Lemma good_restore_nonvolatile x : gd None (vcpu_restore_nonvolatile_and_run x) (λ _, None).
Proof.
  unfold vcpu_restore_nonvolatile_and_run, vcpu_get_regs, the_vcpu, on_live.
  apply (good_bind _ _ _ None _ (λ _, None)); [goods (@None vref)|intros g].
  apply (good_bind _ _ _ None _ (λ _, None)); [by apply good_on_cpu|intros _]. apply good_restore_volatile.
Qed.
End handlers.

(** ** The switch *)
Section switch.
Context {FS : Type} (k : nat) (others : list (nat * vref)).
Implicit Types (s : St FS).

(** Releasing the lock of a secondary vCPU that leaves its CPU. *)
Lemma unlock_own hv c j d :
  c.1 ≠ primary_index → d ≠ c → own_ok hv j d → own_ok (upd_vc c vcpu_unlock hv) j d.
Proof.
  intros Hc Hd []. assert (Hne : ∀ x, x ≠ c → vcpu_at (upd_vc c vcpu_unlock hv) x = vcpu_at hv x).
  { intros x Hx. by rewrite vcpu_at_upd_vc, decide_False. }
  assert (Hp : (primary_index, j) ≠ c) by (intros <-; done).
  assert (Hs : ∀ x, x ≠ c → saved_ok hv x → saved_ok (upd_vc c vcpu_unlock hv) x).
  { intros x Hx (vr & v & Hr & Hv & Hk). exists vr, v. by rewrite vroots_upd_vc, Hne. }
  split; unfold cpu_of; rewrite ?Hne by done; try done; [by apply Hs..|].
  intros Hn. destruct (ow_locked0 Hn) as (v & Hv & Hl). exists v. by rewrite Hne.
Qed.
Lemma unlock_world hv c :
  c.1 ≠ primary_index → (∀ j d, (j, d) ∈ others → d ≠ c) → world others hv → world others (upd_vc c vcpu_unlock hv).
Proof.
  intros Hc Hd (Hi & Hr & Ho). split_and!.
  - intros v vr. rewrite vroots_upd_vc. apply Hi.
  - intros x v. rewrite vcpu_at_upd_vc. destruct (decide (x = c)) as [->|Hx].
    + destruct (vcpu_at hv c) as [w|] eqn:Hw; [|done]. intros [= <-] Hx Hrun.
      destruct (Hr c w Hw Hx Hrun) as (vr & w' & Hr' & Hw' & Hk). rewrite Hw in Hw'. injection Hw' as <-.
      exists vr, (vcpu_unlock w). by rewrite vroots_upd_vc, vcpu_at_upd_vc, decide_True, Hw.
    + intros Hv Hxp Hrun. destruct (Hr x v Hv Hxp Hrun) as (vr & w & Hr' & Hw & Hk). exists vr, w.
      by rewrite vroots_upd_vc, vcpu_at_upd_vc, decide_False.
  - intros j d Hjd. apply unlock_own; eauto.
Qed.

Lemma own_primary hv c : own_ok hv k c → own_ok hv k (primary_index, k).
Proof. intros []. by split. Qed.
Lemma sound_primary hv c : world others hv → own_ok hv k (primary_index, k) →
  (∀ j d, (j, d) ∈ others → j ≠ k ∧ d ≠ c) → sound k others (primary_index, k) hv.
Proof.
  intros Hw Ho Hd. split_and!; [done..|]. intros j d Hjd. destruct (Hd _ _ Hjd) as [Hj _]. split; [done|]. intros ->.
  destruct Hw as (_ & _ & Hall). pose proof (ow_self _ _ _ (Hall _ _ Hjd) eq_refl) as [= E]. done.
Qed.

Lemma after_save_sound c vm g hv n :
  hv_vms hv !! c.1 = Some vm → sound k others c hv → switchable k others c hv n →
  (∃ vr, vroots hv !! c.1 = Some vr ∧ key (lazy g) = vm_key vr) →
  sound k others n (after_save c vm g hv).
Proof.
  intros Hvm Hs Hn (vr & Hvr & Hg). unfold after_save.
  assert (M : milds c hv (upd_vc c (upd_inner (with_regs (saved_regs g))) hv)).
  { apply milds_regs. intros v Hv. destruct (ow_saved _ _ _ (proj1 (proj2 Hs))) as (vr' & v' & Hr' & Hv' & Hk').
    rewrite Hv in Hv'. injection Hv' as <-. rewrite Hvr in Hr'. injection Hr' as <-. by rewrite Hk'. }
  pose proof (ids_primary _ _ _ (proj1 (proj1 Hs)) Hvm) as Hid.
  set (hvA := upd_vc c _ hv) in *. pose proof (milds_sound _ _ _ _ _ M Hs) as HA.
  pose proof (milds_switchable _ _ _ _ _ _ M Hn) as HnA. clearbody hvA. destruct HA as (Hw & Ho & Hd).
  destruct (Z.eqb_spec (vm_id vm) HF_PRIMARY_VM_ID) as [Hp|Hp]; cbn [negb].
  - destruct HnA as [->|(_ & H2 & H3 & H4 & H5 & H6)].
    + eapply sound_primary; [done|by eapply own_primary|exact Hd].
    + split_and!; [done| |].
      * destruct Ho. by split.
      * intros j d Hjd. destruct (Hd _ _ Hjd). split; [done|by eapply H6].
  - assert (Hc : c.1 ≠ primary_index) by tauto. destruct HnA as [->|[? _]]; [|done].
    eapply (sound_primary _ c); [apply unlock_world; [done| |done]; intros j d Hjd; by destruct (Hd _ _ Hjd)| |exact Hd].
    apply unlock_own; [done|intros <-; done|by eapply own_primary].
Qed.

Lemma switch_inv c n s o s' :
  vcpu_switch n s = Done (o, s') → inv k others c s (Some n) → o = Some tt ∧ inv k others n s' None.
Proof.
  intros H (Hc & Hs & Hl & Hn). apply switch_effect in H as [-> (v & vm & Hv & Hvm & vm' & v' & k' & [])]. split; [done|].
  rewrite Hc in *. cbn [st_hv st_cpu st_last st_fw] in *.
  assert (HS : sound k others n (st_hv s')) by (rewrite rs_hv; apply after_save_sound; auto).
  split_and!; [done|done| |done].
  destruct (ow_saved _ _ _ (proj1 (proj2 HS))) as (vr & w & Hr & Hw & Hk). exists vr. split; [done|].
  rewrite rs_lazy. rewrite rs_hv, rs_vcpu in Hw. by injection Hw as <-.
Qed.
End switch.

(** ** Exceptions *)
Section exceptions.
Context (p : Aarch64.pa_bits) {RD : ReduceCrate} (MESSAGE_BUFFER : Z).
#[local] Hint Extern 0 ArchMM => exact (aarch64 p) : typeclass_instances.
#[local] Hint Extern 0 (ArchLaws _) => exact (aarch64_laws p) : typeclass_instances.
Context {FS : Type} (el3 : FS → list Z → option smc_res * FS).
Context (cpu_entry : Z) (cpu_addr : nat → Z) (version : Z) (rounds : nat) (now1 now2 now3 : Z) (undef : smc_res).
Context (k : nat) (others : list (nat * vref)).

(** After a handler the CPU runs some vCPU, or is gone. *)
Definition handled {X} (o : option X) (s : St FS) : Prop :=
  match o with Some _ => ∃ n, inv k others n s None | None => world others (st_hv s) end.

Lemma then_switch {X} c (h : handler FS X) g (f : X → handler FS unit) s o s' :
  good k others c None h g →
  (∀ a s1 o s', f a s1 = Done (o, s') → inv k others c s1 (g a) → handled o s') →
  (h ≫= f) s = Done (o, s') → inv k others c s None → handled o s'.
Proof.
  intros Hh Hf H Hi. apply hbind_inv in H as [(a & s1 & H1 & H2)|[H1 ->]].
  - eapply Hf; [done|]. exact (Hh _ _ _ H1 Hi).
  - pose proof (Hh _ _ _ H1 Hi) as (_ & (Hw & _) & _). exact Hw.
Qed.
Lemma handled_switch c n s o s' :
  vcpu_switch n s = Done (o, s') → inv k others c s (Some n) → handled o s'.
Proof. intros H Hi. eapply switch_inv in H as [-> Hi']; [|exact Hi]. by exists n. Qed.
Lemma handled_good c (m : handler FS unit) s o s' :
  good k others c None m (λ _, None) → m s = Done (o, s') → inv k others c s None → handled o s'.
Proof.
  intros Hm H Hi. pose proof (Hm _ _ _ H Hi) as Hi'. destruct o as [[]|]; [by exists c|]. apply Hi'.
Qed.
Lemma handled_resume c back next s o s' :
  (∀ x, good k others c None (back x) (λ _, None)) →
  resume next back s = Done (o, s') → inv k others c s next → handled o s'.
Proof.
  intros Hb H Hi. destruct next as [n|]; [by eapply handled_switch|]. cbn [resume] in H.
  eapply (handled_good c); [|exact H|exact Hi]. by apply good_current.
Qed.

Lemma lower_handled c (h : handler FS vref) s o s' :
  good k others c None h Some → lower_exception h s = Done (o, s') → inv k others c s None → handled o s'.
Proof.
  intros Hh. unfold lower_exception. apply (then_switch _ _ (λ _, None)); [apply good_save_volatile|].
  intros _ s1 o1 s1'. apply (then_switch _ _ Some); [done|]. intros n s2 o2 s2'. apply handled_switch.
Qed.

Lemma handle_inv e c s o s' :
  handle MESSAGE_BUFFER el3 cpu_entry cpu_addr version rounds now1 now2 now3 undef e s = Done (o, s') →
  inv k others c s None → handled o s'.
Proof.
  destruct e as [esr far hpfar| | |]; cbn [handle];
    [|apply lower_handled; apply (good_irq p MESSAGE_BUFFER now1 now2 now3)..|].
  - unfold lower_sync_exception. destruct (GET_EC esr =? 0x16).
    + apply (then_switch _ _ (λ _, None)); [apply good_asks|]. intros g s1 o1 s1'.
      apply (then_switch _ _ snd); [by apply (good_hvc p)|]. intros [ret new] s2 o2 s2'. cbn [snd].
      intros H Hi. unfold on_live in H. rewrite on_cpu_bind_h in H.
      assert (Hi2 : inv k others c (mkSt (st_hv s2) (set_live (with_r (hvc_result ret (r (p_regs (st_cpu s2)))) (p_regs (st_cpu s2)))
        (st_cpu s2)) (st_last s2) (st_fw s2)) new).
      { destruct Hi as (? & ? & ? & ?). by split_and!. }
      destruct new as [n|]; [|injection H as <- <-; by exists c].
      apply hbind_inv in H as [(a & s3 & H3 & H4)|[H3 ->]].
      * eapply handled_switch; [exact H4|]. exact (good_save_volatile k others c _ _ _ _ H3 Hi2).
      * pose proof (good_save_volatile k others c _ _ _ _ H3 Hi2) as (_ & (Hw & _) & _). exact Hw.
    + apply (then_switch _ _ (λ _, None)); [apply good_save_volatile|]. intros _ s1 o1 s1'.
      destruct (GET_EC esr =? 0x18).
      * apply (then_switch _ _ (λ _, None)); [apply good_save_nonvolatile|]. intros _ s2 o2 s2'.
        apply (then_switch _ _ id); [apply (good_sysreg p MESSAGE_BUFFER now1 now2 now3)|]. intros n s3 o3 s3'.
        apply (handled_resume c). intros x. apply good_restore_nonvolatile.
      * apply (then_switch _ _ id); [apply (good_sync p MESSAGE_BUFFER _ _ _ _ _ now1 now2 now3)|]. intros n s3 o3 s3'.
        apply (handled_resume c). intros x. apply good_restore_volatile.
  - apply lower_handled. unfold serr_lower. apply good_current. apply (good_abort p MESSAGE_BUFFER now1 now2 now3).
Qed.
End exceptions.

(** ** The machine *)

(** The registers on a CPU are those of the VM whose vCPU it runs. *)
Definition live_ok (hv : Hypervisor) (cpu : Pcpu) : Prop :=
  ∃ vr, vroots hv !! (p_current cpu).1 = Some vr ∧ key (lazy (p_regs cpu)) = vm_key vr.
Record machine_ok {FS} (m : Machine FS) : Prop := {
  mo_ids : ids_ok (mc_hv m);
  mo_runnable : runnable_ok (mc_hv m);
  mo_own i cpu : mc_cpus m !! i = Some (Some cpu) → own_ok (mc_hv m) i (p_current cpu) ∧ live_ok (mc_hv m) cpu;
  mo_once i j ci cj :
    mc_cpus m !! i = Some (Some ci) → mc_cpus m !! j = Some (Some cj) → i ≠ j → p_current ci ≠ p_current cj;
}.

(** What the CPUs run. *)
Definition running (cpus : list (option Pcpu)) : list (nat * vref) :=
  mjoin (imap (λ i o, match o with Some c => [(i, p_current c)] | None => [] end) cpus).
Definition others (i : nat) (cpus : list (option Pcpu)) : list (nat * vref) := filter (λ x, x.1 ≠ i) (running cpus).
Lemma elem_running cpus j d : (j, d) ∈ running cpus ↔ ∃ cpu, cpus !! j = Some (Some cpu) ∧ p_current cpu = d.
Proof.
  unfold running. rewrite list_elem_of_join. split.
  - intros (l & Hd & (i & x & Hl & Hx)%elem_of_lookup_imap). subst. destruct x as [cpu|]; [|by apply elem_of_nil in Hd].
    apply list_elem_of_singleton in Hd as [= -> ->]. eauto.
  - intros (cpu & Hc & <-). exists [(j, p_current cpu)]. split; [by apply list_elem_of_singleton|].
    apply elem_of_lookup_imap. by exists j, (Some cpu).
Qed.
Lemma elem_others i cpus j d :
  (j, d) ∈ others i cpus ↔ j ≠ i ∧ ∃ cpu, cpus !! j = Some (Some cpu) ∧ p_current cpu = d.
Proof. unfold others. rewrite list_elem_of_filter, elem_running. done. Qed.

Section steps.
Context (p : Aarch64.pa_bits) {RD : ReduceCrate} (MESSAGE_BUFFER : Z).
#[local] Hint Extern 0 ArchMM => exact (aarch64 p) : typeclass_instances.
Context {FS : Type} (el3 : FS → list Z → option smc_res * FS).
Context (cpu_entry : Z) (cpu_addr : nat → Z) (version : Z) (rounds : nat).
Abbreviation step := (mstep p MESSAGE_BUFFER el3 cpu_entry cpu_addr version rounds).

Lemma machine_world (m : Machine FS) i : machine_ok m → world (others i (mc_cpus m)) (mc_hv m).
Proof.
  intros []. split_and!; [done..|]. intros j d (Hj & cpu & Hc & <-)%elem_others. by apply mo_own0.
Qed.
Lemma machine_inv (m : Machine FS) i cpu g :
  machine_ok m → mc_cpus m !! i = Some (Some cpu) → guest_regs (p_regs cpu) g →
  inv i (others i (mc_cpus m)) (p_current cpu) (st_of m (set_live g cpu)) None.
Proof.
  intros Hm Hi Hg. destruct (mo_own _ Hm _ _ Hi) as [Ho (vr & Hr & Hk)]. split_and!; [done| |exists vr; split; [done|]|done].
  - split_and!; [by apply machine_world|done|]. intros j d (Hj & cj & Hc & <-)%elem_others. split; [done|].
    by eapply (mo_once _ Hm).
  - cbn. rewrite <-Hk. unfold key. by rewrite (gr_hcr _ _ Hg), (gr_vttbr _ _ Hg).
Qed.

(** One CPU takes a step, the others stay. *)
Lemma put_cpu_ok (m : Machine FS) i o s' :
  machine_ok m → is_Some (mc_cpus m !! i) → vroots (st_hv s') = vroots (mc_hv m) →
  handled i (others i (mc_cpus m)) o s' → machine_ok (put_cpu m i o s').
Proof.
  intros Hm Hi Hr Hh.
  assert (Hw : world (others i (mc_cpus m)) (st_hv s')).
  { destruct o as [u|]; [|exact Hh]. destruct Hh as (n & _ & (Hw & _) & _). exact Hw. }
  assert (Hlk : ∀ j cpu, mc_cpus (put_cpu m i o s') !! j = Some (Some cpu) →
    (j = i ∧ cpu = st_cpu s' ∧ o = Some tt) ∨ (j ≠ i ∧ mc_cpus m !! j = Some (Some cpu))).
  { intros j cpu. cbn. destruct (decide (j = i)) as [->|Hj].
    - rewrite list_lookup_insert_eq by by apply lookup_lt_is_Some_1. destruct o as [[]|]; [|done]. intros [= <-]. by left.
    - rewrite list_lookup_insert_ne by done. by right. }
  destruct Hw as (Hids & Hrun & Hall). split; [done..| |].
  - intros j cpu [(-> & -> & ->)|(Hj & Hc)]%Hlk.
    + destruct Hh as (n & Hn & (_ & Ho & _) & Hl & _). rewrite Hn. split; [done|]. unfold live_ok. by rewrite Hn.
    + split; [apply Hall, elem_others; eauto|]. destruct (mo_own _ Hm _ _ Hc) as [_ (vr & Hvr & Hk)]. exists vr. cbn.
      by rewrite Hr.
  - intros j1 j2 c1 c2 [(-> & -> & Ho1)|(Hj1 & Hc1)]%Hlk [(-> & -> & Ho2)|(Hj2 & Hc2)]%Hlk Hne; [done|subst o..|].
    + destruct Hh as (n & Hn & (_ & _ & Hd) & _). rewrite Hn.
      assert (Hin : (j2, p_current c2) ∈ others i (mc_cpus m)) by (apply elem_others; eauto).
      destruct (Hd _ _ Hin). congruence.
    + destruct Hh as (n & Hn & (_ & _ & Hd) & _). rewrite Hn.
      assert (Hin : (j1, p_current c1) ∈ others i (mc_cpus m)) by (apply elem_others; eauto). by destruct (Hd _ _ Hin).
    + by eapply (mo_once _ Hm).
Qed.

(** A CPU that is started: [cpu_main] resets the primary's vCPU with its number. *)
Lemma start_handled (m : Machine FS) i cpu o s' :
  machine_ok m → mc_cpus m !! i = Some None → start_cpu i (st_of m cpu) = Done (o, s') →
  handled i (others i (mc_cpus m)) o s'.
Proof.
  intros Hm Hi H. unfold start_cpu in H. rewrite asks_bind_h in H. apply rust_inv in H as (v & hv1 & Hmain & H).
  unfold cpu_main in Hmain. apply bind_Done_inv in Hmain as (pr & Hpr%vm_of_Some & Hmain).
  apply bind_Done_inv in Hmain as (w & Hw%vcpu_of_at & Hmain). apply bind_Done_inv in Hmain as (d & _ & [= <- <-]).
  cbn [st_hv st_of] in *. set (n := (primary_index, i)) in *. set (f := λ v : VCpuInner, _) in H.
  set (hv1 := upd_vc n (upd_inner f) (mc_hv m)) in *. pose proof (machine_world m i Hm) as (Hids & Hrun & Hall).
  assert (Hne : ∀ x, x ≠ n → vcpu_at hv1 x = vcpu_at (mc_hv m) x) by (intros x Hx; unfold hv1; by rewrite vcpu_at_upd_vc, decide_False).
  assert (Hn : vcpu_at hv1 n = Some (upd_inner f w)) by (unfold hv1; by rewrite vcpu_at_upd_vc, decide_True, Hw).
  assert (Hr : vroots hv1 = vroots (mc_hv m)) by apply vroots_upd_vc.
  assert (Hsv : ∀ x, x ≠ n → saved_ok (mc_hv m) x → saved_ok hv1 x).
  { intros x Hx (vr & v & Hvr & Hv & Hk). exists vr, v. rewrite Hr, Hne by done. done. }
  assert (Hnv : saved_ok hv1 n).
  { exists (vroot pr), (upd_inner f w). rewrite Hr. split_and!; [by apply vroots_lookup|done|]. unfold f.
    cbn [upd_inner vc_inner with_regs vi_regs]. rewrite reset_key. unfold vm_key.
    by rewrite (proj2 (Z.eqb_eq (vroot pr).1 HF_PRIMARY_VM_ID)) by (by apply (ids_primary _ _ _ Hids Hpr)). }
  assert (Hd : ∀ j d', (j, d') ∈ others i (mc_cpus m) → j ≠ i ∧ d' ≠ n).
  { intros j d' Hjd. pose proof Hjd as (Hj & _)%elem_others. split; [done|]. intros ->.
    pose proof (ow_self _ _ _ (Hall _ _ Hjd) eq_refl) as [= E]. done. }
  assert (Hown : ∀ j d', d' ≠ n → j ≠ i → own_ok (mc_hv m) j d' → own_ok hv1 j d').
  { intros j d' Hd' Hj []. assert (Hp : (primary_index, j) ≠ n) by (unfold n; congruence).
    split; unfold cpu_of in *; rewrite ?Hne by done; try done; [by apply Hsv..|].
    intros Hx. destruct (ow_locked0 Hx) as (v & Hv & Hl). exists v. by rewrite Hne. }
  assert (HS : sound i (others i (mc_cpus m)) n hv1).
  { split_and!; [split_and!| |done].
    - intros v vr. rewrite Hr. apply Hids.
    - intros x v Hv Hx Hru. assert (x ≠ n) by (intros ->; done). apply Hsv; [done|]. rewrite Hne in Hv by done. eauto.
    - intros j d' Hjd. destruct (Hd _ _ Hjd). apply Hown; auto.
    - assert (Hcpu : cpu_of hv1 n = Some i) by (unfold cpu_of; by rewrite Hn). by split. }
  apply restore_all_restored in H as [-> (vm & v & k & [])]. cbn [st_hv] in *. exists n.
  split_and!; [done|by rewrite rs_hv| |done]. exists (vroot pr). rewrite rs_hv, Hr. split; [by apply vroots_lookup|].
  rewrite rs_lazy. destruct Hnv as (vr & v' & Hvr & Hv' & Hk). rewrite rs_vcpu in Hv'. injection Hv' as <-.
  change n.1 with primary_index in Hvr. rewrite Hr, (vroots_lookup _ _ _ Hpr) in Hvr. by injection Hvr as <-.
Qed.

Lemma mstep_ok m m' : step m m' → machine_ok m → machine_ok m'.
Proof.
  intros Hs Hm. pose proof (proj2 (mstep_safe _ _ _ _ _ _ _ _ _ Hs)) as Hr.
  destruct Hs as [m0 i c g now1 now2 now3 undef e o s' Hi Hg H|m0 mem Hmem|m0 i d c o s' Hi _ _ H].
  - apply put_cpu_ok; [done|eauto|exact Hr|]. eapply handle_inv; [exact H|by apply machine_inv].
  - destruct Hm as [Hids Hrun Hown Honce]. split; [exact Hids|exact Hrun| |exact Honce].
    intros i cpu Hi. destruct (Hown _ _ Hi) as [[] Hl]. by split.
  - apply put_cpu_ok; [done|eauto|exact Hr|]. by eapply start_handled.
Qed.

Lemma machine_run_ok m m' : rtc step m m' → machine_ok m → machine_ok m'.
Proof. intros Hr Hm. induction Hr; [done|]; eauto using mstep_ok. Qed.

(** What a CPU that runs a vCPU has in its registers. *)
Definition translates (hv : Hypervisor) (cpu : Pcpu) : Prop :=
  ∃ vm, hv_vms hv !! (p_current cpu).1 = Some vm ∧
    vttbr_el2 (lazy (p_regs cpu)) = Z.lor (root (ptable (vm_inner vm))) (wshl (vm_id vm) 48) ∧
    Z.ldiff (hcr_el2 (lazy (p_regs cpu))) HCR_EL2_VI = hcr_value (vm_id vm =? HF_PRIMARY_VM_ID).
Lemma machine_ok_translates (m : Machine FS) i cpu :
  machine_ok m → mc_cpus m !! i = Some (Some cpu) → translates (mc_hv m) cpu.
Proof.
  intros Hm Hi. destruct (mo_own _ Hm _ _ Hi) as [_ (vr & Hvr & Hk)].
  unfold vroots in Hvr. rewrite list_lookup_fmap in Hvr. unfold translates.
  destruct (hv_vms (mc_hv m) !! (p_current cpu).1) as [vm|]; [|done].
  injection Hvr as <-. exists vm. split; [done|]. unfold key, vm_key, vroot in Hk. cbn [fst snd] in Hk. by injection Hk.
Qed.

(** The page tables are in force.  In every state reached by exceptions of VMs on
    any CPUs, writes of VMs and CPUs that start, a CPU that runs a vCPU has the root of
    the page table and the id of that vCPU's VM in [vttbr_el2], and [hcr_el2] has the
    value of [arch_regs_reset], translation and traps included, whatever interrupt is
    pending; and no two CPUs run the same vCPU. *)
Theorem translation_in_force m m' :
  rtc step m m' → machine_ok m →
  (∀ i cpu, mc_cpus m' !! i = Some (Some cpu) → translates (mc_hv m') cpu) ∧
  (∀ i j ci cj, mc_cpus m' !! i = Some (Some ci) → mc_cpus m' !! j = Some (Some cj) → i ≠ j →
     p_current ci ≠ p_current cj).
Proof.
  intros Hr Hm. apply machine_run_ok in Hr; [|done]. split; [|apply Hr]. intros i cpu. by apply machine_ok_translates.
Qed.
End steps.
