(* ===== verification/Preempt.v ===== *)
(** * Preemption

    An interrupt while a secondary VM runs, and the call with which the primary VM
    resumes the vCPU: both always come to an end, and the registers of the vCPU
    survive. *)
From S2P Require Import Prelude Addr Mode Arch Mpool Mm Abi ArchCpu Interrupts Cpu Vm Memory Spci Hypervisor Api Frames.
From S2P Require Import Isolation Touch Psci Handler Switch.

(** ** Saving in two parts *)

(** The volatile registers are saved on entry, the others on the switch. *)
Lemma saved_all g old :
  length (r g) = length (r old) →
  saved_regs g (with_spsr (spsr g) (with_pc (pc g) (with_r (pick volatile (r g) (r old)) old))) = g.
Proof. intros Hl. unfold saved_regs. cbn -[pick]. rewrite pick_both' by done. by destruct g. Qed.

(** The state in which only the vCPUs [a] and [b] have changed. *)
Definition only_vcpus (a b : vref) (hv hv' : Hypervisor) : Prop :=
  (∀ x, x ≠ a → x ≠ b → vcpu_at hv' x = vcpu_at hv x) ∧ (vm_inner <$> hv_vms hv') = (vm_inner <$> hv_vms hv) ∧
  hv_mem hv' = hv_mem hv ∧ hv_mm hv' = hv_mm hv ∧ hv_ptable hv' = hv_ptable hv ∧ hv_cpus hv' = hv_cpus hv.
Lemma only_vcpus_upd a b x f hv : x = a ∨ x = b → only_vcpus a b hv (upd_vc x f hv).
Proof.
  intros Hx. split_and!; try done.
  - intros y Ha Hb. rewrite vcpu_at_upd_vc, decide_False; [done|]. destruct Hx; congruence.
  - unfold upd_vc, upd_vm. cbn. apply list_eq. intros i. rewrite !list_lookup_fmap.
    destruct (decide (i = x.1)) as [->|]; [rewrite list_lookup_alter_eq|by rewrite list_lookup_alter_ne].
    by destruct (hv_vms hv !! x.1).
Qed.
Lemma only_vcpus_trans a b hv1 hv2 hv3 : only_vcpus a b hv1 hv2 → only_vcpus a b hv2 hv3 → only_vcpus a b hv1 hv3.
Proof.
  intros (V1 & ? & ? & ? & ? & ?) (V2 & ? & ? & ? & ? & ?). split_and!; try congruence.
  intros x Ha Hb. by rewrite V2, V1.
Qed.
Lemma only_vcpus_save a b vm g hv : only_vcpus a b hv (after_save a vm g hv).
Proof.
  unfold after_save. destruct (negb _); [eapply only_vcpus_trans|]; apply only_vcpus_upd; by left.
Qed.
Lemma only_vcpus_sym a b hv hv' : only_vcpus a b hv hv' → only_vcpus b a hv hv'.
Proof. intros (H & ?). split; [|done]. auto. Qed.

(** The id of VM [i]. *)
Definition vid (hv : Hypervisor) (i : nat) : option Z := vm_id <$> hv_vms hv !! i.
Lemma vid_upd_vc x f hv i : vid (upd_vc x f hv) i = vid hv i.
Proof. unfold vid. rewrite <-!list_lookup_fmap. unfold upd_vc. by rewrite upd_vm_ids. Qed.
Lemma vid_after_save c vm g hv i : vid (after_save c vm g hv) i = vid hv i.
Proof. unfold after_save. destruct (negb _); by rewrite !vid_upd_vc. Qed.

Lemma after_save_cpu_regs vm c : p_regs (after_save_cpu vm c) = p_regs c ∧ p_tlbi (after_save_cpu vm c) = p_tlbi c.
Proof. unfold after_save_cpu. by destruct (_ =? _). Qed.

(** The whole switch from the current vCPU [c] to another one. *)
Lemma switch_correct {FS} (s : St FS) n v v' k i j :
  let c := p_current (st_cpu s) in
  c ≠ n → vcpu_at (st_hv s) c = Some v → vcpu_at (st_hv s) n = Some v' → vi_cpu (vc_inner v') = Some k →
  vid (st_hv s) c.1 = Some i → vid (st_hv s) n.1 = Some j →
  length (r (vi_regs (vc_inner v'))) = length (r (p_regs (st_cpu s))) →
  ∃ s', vcpu_switch n s = Done (Some tt, s') ∧
    vcpu_at (st_hv s') c =
      Some (mkVCpu (vc_vm v) (if i =? HF_PRIMARY_VM_ID then vc_locked v else false)
              (with_regs (saved_regs (p_regs (st_cpu s))) (vc_inner v)) (vc_interrupts v)) ∧
    vcpu_at (st_hv s') n = Some v' ∧ p_current (st_cpu s') = n ∧ p_regs (st_cpu s') = vi_regs (vc_inner v') ∧
    (j = HF_PRIMARY_VM_ID → p_cnthp_ctl (st_cpu s') = 0) ∧
    p_tlbi (st_cpu s') =
      (if st_last s n.1 k =? Z.of_nat n.2 then [] else [Z.shiftr (vttbr_el2 (lazy (vi_regs (vc_inner v')))) 48])
      ++ p_tlbi (st_cpu s) ∧
    only_vcpus c n (st_hv s) (st_hv s').
Proof.
  intros c Hcn Hv Hn Hk Hi Hj Hl. destruct (switch_total n s _ _ k Hv Hn Hk) as [s' H]. exists s'. split; [done|].
  apply switch_effect in H as [_ (v0 & vm & Hv0 & Hvm & vm' & w & k' & [])]. fold c in Hv0, Hvm, rs_hv.
  cbn [st_hv st_cpu st_last st_fw] in *. fold c in rs_vcpu, rs_vm.
  assert (vm_id vm = i) as <- by (unfold vid in Hi; rewrite Hvm in Hi; by injection Hi).
  assert (Hs : ∀ x, x ≠ c → vcpu_at (after_save c vm (p_regs (st_cpu s)) (st_hv s)) x = vcpu_at (st_hv s) x).
  { intros x Hx. unfold after_save. destruct (negb _); by rewrite !vcpu_at_upd_vc, !decide_False. }
  rewrite Hs, Hn in rs_vcpu by done. injection rs_vcpu as <-. rewrite Hk in rs_cpu. injection rs_cpu as <-.
  destruct (after_save_cpu_regs vm (st_cpu s)) as [Hr Ht]. rewrite Hr in rs_regs. rewrite Ht in rs_tlbi. split_and!; try done; rewrite ?rs_hv; auto.
  - unfold after_save. destruct (vm_id vm =? _); cbn [negb]; by rewrite ?vcpu_at_upd_vc, !decide_True, Hv by done.
  - by rewrite Hs.
  - intros ->. apply rs_cnthp. pose proof (vid_after_save c vm (p_regs (st_cpu s)) (st_hv s) n.1) as E.
    rewrite Hj in E. unfold vid in E. rewrite rs_vm in E. by injection E.
  - apply only_vcpus_save.
Qed.

(** ** Running a vCPU that is ready *)
Definition taken (k : option nat) (v : VCpu) : VCpu := upd_inner (with_cpu k) (set_lock true v).
Lemma only_vcpus_put t vm vm' w hv :
  hv_vms hv !! t.1 = Some vm → vcpus vm' = vcpus vm → vm_inner vm' = vm_inner vm →
  only_vcpus t t hv (upd_vm t.1 (λ _, upd_vcpu t.2 (λ _, w) vm') hv).
Proof.
  intros Hvm Hvs Hin. split_and!; try done.
  - intros x Hx _. rewrite vcpu_at_upd_vm. destruct t as [t1 t2], x as [x1 x2]; cbn [fst snd] in *. destruct (decide (x1 = t1)) as [->|]; [|done].
    unfold vcpu_at. cbn [fst snd]. rewrite Hvm. cbn. rewrite Hvs, list_lookup_alter_ne by congruence. done.
  - unfold upd_vm. cbn. apply list_eq. intros i. rewrite !list_lookup_fmap.
    destruct (decide (i = t.1)) as [->|]; [rewrite list_lookup_alter_eq, Hvm|by rewrite list_lookup_alter_ne]. cbn. by rewrite Hin.
Qed.
Lemma vcpu_run_ready hw n1 n2 n3 hv c t vm cv v :
  vid hv c.1 = Some HF_PRIMARY_VM_ID → vcpu_at hv c = Some cv → t.1 ≠ primary_index → hv_vms hv !! t.1 = Some vm → aborting vm = false →
  vcpus vm !! t.2 = Some v → vc_locked v = false → vi_state (vc_inner v) = VCpuStatus.Ready →
  arch_timer_pending n3 (vi_regs (vc_inner v)) = false →
  ∃ hv', vcpu_run hw n1 n2 n3 hv (Z.of_nat t.1 + 1) (Z.of_nat t.2) c = Done (Ok t, hv') ∧
    vcpu_at hv' t = Some (taken (vi_cpu (vc_inner cv)) v) ∧ only_vcpus t t hv hv' ∧ ∀ i, vid hv' i = vid hv i.
Proof.
  intros Hc Hcv Ht Hvm Hab Hv Hl Hst Htm. destruct t as [t1 t2]; cbn [fst snd] in *.
  unfold vid in Hc. destruct (hv_vms hv !! c.1) as [cm|] eqn:Hcm; [|done]. injection Hc as Hc.
  assert (Hof : ∀ i m, hv_vms hv !! i = Some m → vm_of hv i = Done m) by (intros i m Hm; unfold vm_of; by rewrite Hm).
  unfold vcpu_run. rewrite (Hof _ _ Hcm). cbn [mbind exec_bind]. rewrite Hc, Z.eqb_refl. cbn [negb]. change HF_PRIMARY_VM_ID with 1. change primary_index with 0%nat in Ht.
  rewrite (proj2 (Z.eqb_neq (Z.of_nat t1 + 1) 1)) by lia. unfold get_vm, get_vm_index, assert_then. change HF_VM_ID_OFFSET with 1.
  rewrite (proj2 (Z.leb_le 1 (Z.of_nat t1 + 1))) by lia. cbn [mbind exec_bind]. replace (Z.to_nat (Z.of_nat t1 + 1 - 1)) with t1 by lia.
  rewrite (proj2 (Nat.ltb_lt _ _) (lookup_lt_Some _ _ _ Hvm)). rewrite (Hof _ _ Hvm). cbn [mbind exec_bind]. rewrite Nat2Z.id, Hv.
  assert (Hat : vcpu_at hv (t1, t2) = Some v) by (unfold vcpu_at; cbn; by rewrite Hvm).
  unfold vcpu_prepare_run. cbn [fst snd]. rewrite (proj2 (vcpu_of_at _ _ _) Hat). cbn [mbind exec_bind]. unfold vcpu_try_lock. rewrite Hl. cbn [negb].
  rewrite (Hof _ _ Hvm). cbn [mbind exec_bind]. rewrite (proj2 (vcpu_of_at _ _ _) Hcv). cbn [mbind exec_bind].
  unfold prepare_locked. rewrite Hab. cbn [set_lock vc_inner]. rewrite Hst. fold (taken (vi_cpu (vc_inner cv)) v). cbn [mbind exec_bind].
  set (hv1 := upd_vm t1 _ hv). assert (Hv1 : vcpu_at hv1 (t1, t2) = Some (taken (vi_cpu (vc_inner cv)) v)).
  { unfold hv1. rewrite vcpu_at_upd_vm. cbn [fst snd]. rewrite decide_True, Hvm by done. cbn. by rewrite list_lookup_alter_eq, Hv. }
  rewrite (proj2 (vcpu_of_at _ _ _) Hv1). cbn [mbind exec_bind taken upd_inner with_cpu set_lock vc_inner vi_regs]. rewrite Htm.
  exists hv1. split_and!; [done|done|by eapply (only_vcpus_put (t1, t2))|].
  intros i. unfold vid. rewrite <-!list_lookup_fmap. unfold hv1. rewrite upd_vm_ids; [done|]. intros vm0 Hvm0. rewrite Hvm in Hvm0. by injection Hvm0 as <-.
Qed.

(** The switch back to the primary VM, on a state whose registers are saved. *)
Lemma switch_to_primary_eq hw now hv c ret st v k pv :
  vcpu_at hv c = Some v → vi_cpu (vc_inner v) = Some k → vcpu_at hv (primary_index, k) = Some pv →
  match ret with WaitForInterrupt _ | WaitForMessage _ => False | _ => True end →
  switch_to_primary hw now hv c ret st =
  Done ((primary_index, k), upd_vc c (upd_inner (with_state st))
    (upd_vc (primary_index, k) (upd_inner (with_regs (λ regs, set_retval regs (into_raw ret)))) hv)).
Proof.
  intros Hv Hk Hp Hr. destruct (vcpu_at_vm _ _ _ Hp) as (pvm & Hpm & Hpv). apply vcpu_of_at in Hv.
  unfold switch_to_primary. cbn [fst snd] in *. rewrite Hpm. cbn [mbind exec_bind]. rewrite Hv. cbn [mbind exec_bind]. rewrite Hk.
  cbn [index_of unwrap_opt mbind exec_bind]. unfold index_vcpu. cbn [mbind option_bind]. rewrite Hpv. cbn [unwrap_opt mbind exec_bind].
  by destruct ret.
Qed.

Section preempt.
Context {A : ArchMM} {RD : ReduceCrate} (MESSAGE_BUFFER : Z).
Context {FS : Type} (el3 : FS → list Z → option smc_res * FS).
Context (cpu_entry : Z) (cpu_addr : nat → Z) (version : Z) (rounds : nat) (now1 now2 now3 : Z) (undef : smc_res).
Implicit Types (s : St FS).
Abbreviation handle := (handle MESSAGE_BUFFER el3 cpu_entry cpu_addr version rounds now1 now2 now3 undef).

(** C11: an interrupt while CPU [k] runs the vCPU [c] of a secondary VM always ends on
    the CPU's vCPU of the primary VM: all registers of [c] are saved as they were, [c]
    is ready and its lock is free, so that another CPU may run it; the primary VM
    continues with the registers it was left with and the reason in [x0], its timer
    no longer in the place of EL2's; the TLB is flushed if another vCPU of it
    was last on the CPU; no other vCPU, no memory, mailbox or page table changes. *)
Theorem interrupt_returns_to_primary s k v pv i :
  let c := p_current (st_cpu s) in
  let n := (primary_index, k) in
  vcpu_at (st_hv s) c = Some v → vi_cpu (vc_inner v) = Some k →
  vid (st_hv s) c.1 = Some i → i ≠ HF_PRIMARY_VM_ID → vid (st_hv s) primary_index = Some HF_PRIMARY_VM_ID →
  vcpu_at (st_hv s) n = Some pv → vi_cpu (vc_inner pv) = Some k →
  length (r (p_regs (st_cpu s))) = length (r (vi_regs (vc_inner v))) →
  length (r (vi_regs (vc_inner pv))) = length (r (p_regs (st_cpu s))) →
  ∃ s', handle Irq s = Done (Some tt, s') ∧
    vcpu_at (st_hv s') c =
      Some (mkVCpu (vc_vm v) false (mkVCpuInner VCpuStatus.Ready (Some k) (p_regs (st_cpu s))) (vc_interrupts v)) ∧
    p_current (st_cpu s') = n ∧
    p_regs (st_cpu s') = set_retval (vi_regs (vc_inner pv)) (into_raw Preempted) ∧
    p_cnthp_ctl (st_cpu s') = 0 ∧
    p_tlbi (st_cpu s') =
      (if st_last s primary_index k =? Z.of_nat k then []
       else [Z.shiftr (vttbr_el2 (lazy (vi_regs (vc_inner pv)))) 48]) ++ p_tlbi (st_cpu s) ∧
    only_vcpus c n (st_hv s) (st_hv s').
Proof.
  intros c n Hv Hk Hi Hsec Hpid Hpv Hpk Hl Hpl.
  assert (Hcn : c ≠ n) by (intros E; rewrite E in Hi; cbn in Hi; congruence).
  cbn [Handler.handle]. unfold lower_exception, save_volatile_to_vcpu, irq_lower, current, live, the_hw.
  repeat (rewrite bind_assoc_h || rewrite asks_bind_h). fold c. rewrite (upd_regs_run _ _ _ _ v) by exact Hv.
  repeat (rewrite bind_assoc_h || rewrite asks_bind_h). cbn [st_hv st_cpu st_last st_fw]. fold c.
  set (f1 := with_regs _). set (hv1 := upd_vc c _ (st_hv s)).
  assert (Hv1 : vcpu_at hv1 c = Some (upd_inner f1 v)) by (unfold hv1; by rewrite vcpu_at_upd_vc, decide_True, Hv).
  assert (Hpv1 : vcpu_at hv1 n = Some pv) by (unfold hv1; by rewrite vcpu_at_upd_vc, decide_False).
  erewrite rust_run by (unfold api_preempt, preempt; by eapply switch_to_primary_eq).
  fold n. cbn [st_hv st_cpu st_last st_fw]. set (hv2 := upd_vc c _ _).
  assert (Hv2 : vcpu_at hv2 c = Some (upd_inner (with_state VCpuStatus.Ready) (upd_inner f1 v))).
  { unfold hv2. by rewrite vcpu_at_upd_vc, decide_True, vcpu_at_upd_vc, decide_False, Hv1. }
  set (pv2 := upd_inner (with_regs (λ regs, set_retval regs (into_raw Preempted))) pv).
  assert (Hpv2 : vcpu_at hv2 n = Some pv2).
  { unfold hv2. by rewrite vcpu_at_upd_vc, decide_False, vcpu_at_upd_vc, decide_True, Hpv1. }
  destruct (switch_correct (mkSt hv2 (st_cpu s) (st_last s) (st_fw s)) n _ _ k i HF_PRIMARY_VM_ID Hcn Hv2 Hpv2 Hpk)
    as (s' & Hs' & Hc' & _ & Hcur & Hregs & Hct & Ht & Ho).
  - unfold hv2, hv1. cbn [st_hv st_cpu]. by rewrite !vid_upd_vc.
  - unfold hv2, hv1. cbn [st_hv]. by rewrite !vid_upd_vc.
  - cbn. by rewrite length_insert.
  - exists s'. split_and!; [exact Hs'| |exact Hcur|exact Hregs|by apply Hct|exact Ht|].
    + cbn [st_cpu] in Hc'. fold c in Hc'. rewrite Hc', (proj2 (Z.eqb_neq _ _) Hsec). unfold f1, with_regs, with_state.
      cbn [upd_inner vc_inner vi_state vi_cpu vi_regs vc_vm vc_interrupts]. by rewrite Hk, saved_all.
    + eapply only_vcpus_trans; [|exact Ho]. cbn [st_hv]. unfold hv2, hv1. fold c.
      eapply only_vcpus_trans; [eapply only_vcpus_trans|]; apply only_vcpus_upd; tauto.
Qed.

(** The call reaches the Rust code. *)
Lemma run_call_is_hf c a1 a2 a3 s :
  vid (st_hv s) c.1 = Some HF_PRIMARY_VM_ID →
  ∃ ret, psci_handler el3 cpu_entry cpu_addr version rounds now1 c HF_VCPU_RUN a1 a2 a3 (res0 undef) None s
         = Done (Some (false, ret, None), s).
Proof.
  intros Hid. unfold vid in Hid. destruct (hv_vms (st_hv s) !! c.1) as [vm|] eqn:Hvm; [|done]. injection Hid as Hid.
  unfold psci_handler, the_vm. rewrite (peek_run _ _ _ vm) by (unfold vm_of; by rewrite Hvm). rewrite Hid, Z.eqb_refl.
  unfold psci_primary_vm_handler. destruct (version =? 0); eexists; reflexivity.
Qed.
Lemma run_call_eq s c t a1 a2 a3 n hv' v' :
  p_current (st_cpu s) = c → vid (st_hv s) c.1 = Some HF_PRIMARY_VM_ID →
  vcpu_run (hw_of (st_cpu s)) now1 now2 now3 (st_hv s) (wrap 16 a1) (wrap 16 a2) c = Done (Ok t, hv') →
  vcpu_at hv' t = Some v' → n = into_raw Preempted →
  hvc_handler MESSAGE_BUFFER el3 cpu_entry cpu_addr version rounds now1 now2 now3 undef HF_VCPU_RUN a1 a2 a3 s =
  Done (Some (set_res0 n undef, Some t),
    mkSt (upd_vc t (upd_inner (with_regs (set_virtual_interrupt (is_interrupted (vc_interrupts v'))))) hv')
      (st_cpu s) (st_last s) (st_fw s)).
Proof.
  intros Hc Hid Hrun Hv' ->. destruct (run_call_is_hf c a1 a2 a3 s Hid) as [ret Hps].
  unfold hvc_handler, current at 1. rewrite asks_bind_h, Hc. change (wrap 32 HF_VCPU_RUN) with HF_VCPU_RUN.
  unfold mbind at 1, handler_bind at 1. rewrite Hps.
  unfold spci_handler, current, the_hw. rewrite !bind_assoc_h, !asks_bind_h. change (no_convention HF_VCPU_RUN) with 0xff03.
  cbn -[hf_call update_vi]. unfold hf_call, current, the_hw. rewrite !bind_assoc_h, !asks_bind_h. cbn -[update_vi api_vcpu_run].
  rewrite ret_bind_h. repeat (rewrite bind_assoc_h || rewrite asks_bind_h). rewrite Hc.
  erewrite rust_run by (unfold api_vcpu_run; rewrite Hrun; reflexivity). cbn beta iota. rewrite ret_bind_h. cbn [from_option].
  unfold update_vi, vcpu_is_interrupted, the_vcpu. rewrite !bind_assoc_h.
  rewrite (peek_run _ _ _ v') by (by apply vcpu_of_at). rewrite ret_bind_h. by rewrite (upd_regs_run _ _ _ _ v').
Qed.

(** C12: the primary VM runs a vCPU: the hypercall [HF_VCPU_RUN] for a vCPU [t] that is
    ready, whose lock is free, whose VM is not aborting and whose timer is not due
    always ends on [t], with all registers as they were saved but for the VI bit of
    HCR_EL2, which [set_virtual_interrupt] sets or clears by the vCPU's pending
    interrupts; [t] is then locked and assigned to this CPU; the primary VM's
    registers are saved with the results of the call in them; the TLB is flushed if
    another vCPU of the VM was last on the CPU; nothing else changes.  (With a due timer
    the call injects the timer's interrupt and masks the timer: no case of this claim.) *)
Theorem run_resumes_vcpu s k t v pv vm esr far hpfar :
  let c := (primary_index, k) in
  let g := p_regs (st_cpu s) in
  p_current (st_cpu s) = c → GET_EC esr = 0x16 →
  x_reg g 0 = HF_VCPU_RUN → x_reg g 1 = Z.of_nat t.1 + 1 → x_reg g 2 = Z.of_nat t.2 →
  Z.of_nat t.1 + 1 < 2 ^ 16 → Z.of_nat t.2 < 2 ^ 16 →
  vid (st_hv s) primary_index = Some HF_PRIMARY_VM_ID → vcpu_at (st_hv s) c = Some pv → vi_cpu (vc_inner pv) = Some k →
  t.1 ≠ primary_index → hv_vms (st_hv s) !! t.1 = Some vm → aborting vm = false → vcpus vm !! t.2 = Some v →
  vc_locked v = false → vi_state (vc_inner v) = VCpuStatus.Ready →
  arch_timer_pending now3 (vi_regs (vc_inner v)) = false →
  length (r g) = length (r (vi_regs (vc_inner pv))) → length (r (vi_regs (vc_inner v))) = length (r g) →
  ∃ s', handle (Sync esr far hpfar) s = Done (Some tt, s') ∧
    p_current (st_cpu s') = t ∧
    p_regs (st_cpu s') = set_virtual_interrupt (is_interrupted (vc_interrupts v)) (vi_regs (vc_inner v)) ∧
    vcpu_at (st_hv s') t = Some (mkVCpu (vc_vm v) true (mkVCpuInner VCpuStatus.Ready (Some k) (p_regs (st_cpu s'))) (vc_interrupts v)) ∧
    vcpu_at (st_hv s') c =
      Some (upd_inner (with_regs (λ _, with_r (hvc_result (set_res0 (into_raw Preempted) undef) (r g)) g)) pv) ∧
    p_tlbi (st_cpu s') =
      (if st_last s t.1 k =? Z.of_nat t.2 then [] else [Z.shiftr (vttbr_el2 (lazy (vi_regs (vc_inner v)))) 48])
      ++ p_tlbi (st_cpu s) ∧
    only_vcpus c t (st_hv s) (st_hv s').
Proof.
  intros c g Hcur Hec H0 H1 H2 Hb1 Hb2 Hid Hpv Hpk Ht Hvm Hab Hv Hl Hst Htm Hlp Hlv.
  destruct (vcpu_run_ready (hw_of (st_cpu s)) now1 now2 now3 (st_hv s) c t vm pv v) as (hv' & Hrun & Hv' & Ho & Hids); try done.
  rewrite Hpk in Hv'. rewrite <-(wrap_small 16 (Z.of_nat t.1 + 1)), <-(wrap_small 16 (Z.of_nat t.2)), <-H1, <-H2 in Hrun by (unfold in_u; lia).
  cbn [Handler.handle]. unfold lower_sync_exception. rewrite Hec, Z.eqb_refl.
  unfold live. rewrite asks_bind_h. fold g. rewrite H0. unfold mbind at 1, handler_bind at 1.
  rewrite (run_call_eq s c t _ _ _ _ hv' _ Hcur Hid Hrun Hv' eq_refl).
  set (f := with_regs (set_virtual_interrupt _)). set (ret := set_res0 _ undef). unfold on_live. rewrite on_cpu_bind_h. cbn [st_hv st_cpu st_last st_fw].
  set (cpu1 := set_live _ (st_cpu s)).
  unfold save_volatile_to_vcpu, current, live. repeat (rewrite bind_assoc_h || rewrite asks_bind_h). cbn [st_hv st_cpu st_last st_fw]. change (p_current cpu1) with (p_current (st_cpu s)). rewrite Hcur.
  assert (Hct : c ≠ t) by (intros E; by rewrite <-E in Ht).
  assert (Hpv' : vcpu_at (upd_vc t (upd_inner f) hv') c = Some pv).
  { rewrite vcpu_at_upd_vc, decide_False by done. destruct Ho as [Ho _]. by rewrite Ho. }
  rewrite (upd_regs_run _ _ _ _ pv) by exact Hpv'. cbn [st_hv st_cpu st_last st_fw]. set (f2 := with_regs _). set (hv2 := upd_vc c _ _).
  assert (Hv2 : vcpu_at hv2 t = Some (upd_inner f (taken (Some k) v))) by (unfold hv2; by rewrite vcpu_at_upd_vc, decide_False, vcpu_at_upd_vc, decide_True, Hv').
  assert (Hp2 : vcpu_at hv2 c = Some (upd_inner f2 pv)) by (unfold hv2; by rewrite vcpu_at_upd_vc, decide_True, Hpv').
  assert (Hvid : ∀ i, vid hv2 i = vid (st_hv s) i) by (intros i; unfold hv2; by rewrite !vid_upd_vc).
  destruct (switch_correct (mkSt hv2 cpu1 (st_last s) (st_fw s)) t _ _ k HF_PRIMARY_VM_ID (vm_id vm)
    ltac:(cbn [st_cpu]; change (p_current cpu1) with (p_current (st_cpu s)); by rewrite Hcur)
    ltac:(cbn [st_hv st_cpu]; change (p_current cpu1) with (p_current (st_cpu s)); rewrite Hcur; exact Hp2) Hv2 eq_refl)
    as (s' & Hs' & Hc' & Ht' & Hcur' & Hregs & _ & Htl & Honly); cbn [st_hv st_cpu].
  - change (p_current cpu1) with (p_current (st_cpu s)). by rewrite Hvid, Hcur.
  - rewrite Hvid. unfold vid. by rewrite Hvm.
  - cbn -[hvc_result]. unfold hvc_result. by rewrite length_imap.
  - exists s'. cbn [st_hv st_cpu] in *. change (p_current cpu1) with (p_current (st_cpu s)) in *. rewrite Hcur in *. rewrite Z.eqb_refl in Hc'.
    split_and!; [exact Hs'|done|done| | |done|].
    + rewrite Ht', Hregs. unfold f, taken, upd_inner, with_regs, with_cpu, set_lock. cbn [vc_inner vi_state vi_cpu vi_regs vc_vm vc_locked vc_interrupts].
      by rewrite Hst.
    + rewrite Hc'. unfold f2, upd_inner, with_regs. cbn [vc_inner vi_state vi_cpu vi_regs vc_vm vc_locked vc_interrupts]. rewrite saved_all; [done|].
      cbn -[hvc_result]. unfold hvc_result. by rewrite length_imap.
    + eapply only_vcpus_trans; [|exact Honly]. unfold hv2.
      apply (only_vcpus_trans _ _ _ hv').
      { destruct Ho as [Ho1 Ho2]. split; [intros x _ Hx; by apply Ho1|done]. }
      eapply only_vcpus_trans; apply only_vcpus_upd; tauto.
Qed.
End preempt.
