(* ===== verification/PsciSpec.v ===== *)
(** * Starting vCPUs

    What a secondary VM gets from [PSCI_CPU_ON], branch by branch. *)
From S2P Require Import Prelude Addr Mode Arch Mpool Mm Abi ArchCpu Interrupts Cpu Vm Memory Spci Hypervisor Api Frames.
From S2P Require Import Isolation Touch Psci Handler Switch Preempt.

Section spec.
Context {FS : Type} (el3 : FS → list Z → option smc_res * FS).
Context (cpu_entry : Z) (cpu_addr : nat → Z) (version : Z) (rounds : nat) (now : Z).
Implicit Types (s : St FS).
Abbreviation psci := (psci_handler el3 cpu_entry cpu_addr version rounds now).

(** The call of a secondary VM reaches its case. *)
Lemma secondary_cpu_on s c vm func a0 a1 a2 ret next :
  hv_vms (st_hv s) !! c.1 = Some vm → vm_id vm ≠ HF_PRIMARY_VM_ID → no_convention func = PSCI_CPU_ON →
  psci c func a0 a1 a2 ret next s =
  (let idx := wrap 16 a0 in
   if vm_get_vcpu_count vm <=? idx then mret (true, PSCI_ERROR_INVALID_PARAMETERS, next)
   else
     let t := (c.1, Z.to_nat idx) in
     v ← the_vcpu t;
     hw ← asks (λ s, hw_of (st_cpu s));
     started ← lift (vcpu_secondary_reset_and_start hw (vm_id vm) (get_ptable_raw vm) idx v (ipa_init a1) a2);
     match started with
     | None => gone
     | Some (was_off, v) =>
         _ ← on_hv (upd_vc t (λ _, v));
         if was_off : bool then
           n ← rust (λ hv, api_wake_up hw now hv c t);
           mret (true, PSCI_RETURN_SUCCESS, Some n)
         else mret (true, PSCI_ERROR_ALREADY_ON, next)
     end) s.
Proof.
  intros Hvm Hid Hf. assert (Ho : vm_of (st_hv s) c.1 = Done vm) by (unfold vm_of; by rewrite Hvm).
  unfold psci_handler, the_vm. rewrite (peek_run _ _ _ vm) by done. rewrite (proj2 (Z.eqb_neq _ _) Hid).
  unfold psci_secondary_vm_handler. cbv zeta. rewrite Hf. cbn -[mbind].
  unfold the_vm. by rewrite (peek_run _ _ _ vm).
Qed.

End spec.
