(* ===== verification/LoadSpec.v ===== *)
(** * The loader isolates the virtual machines

    While the VMs are loaded, every page of memory is held by at most one VM, the
    available ranges by none but the primary; so the state after loading is isolated
    and the memory of the hypervisor is out of reach of all VMs. *)
From S2P Require Import Prelude Addr Mode Arch ArchAarch64 Mpool Mm MmSpec MmMap MmTable PageTables MemoryManager.
From S2P Require Import Stage2Modes Abi ArchCpu Interrupts Cpu Vm Memory Memiter Cpio Manifest FdtHandler Spci Hypervisor Load LoadRanges.
From S2P Require Import Api Frames Ownership Sharing Isolation.

Section load.
Context (p : Aarch64.pa_bits) {RD : ReduceCrate} {LG : StaleLogs}.
#[local] Hint Extern 0 ArchMM => exact (aarch64 p) : typeclass_instances.
#[local] Hint Extern 0 (ArchLaws _) => exact (aarch64_laws p) : typeclass_instances.
Local Abbreviation kept1 := (kept (SG := @Stage1 (aarch64 p))).
Local Abbreviation kept2 := (kept (SG := @Stage2 (aarch64 p))).

Lemma kept_trans {A : ArchMM} {L : ArchLaws A} {SG : Stage} {SL : StageLaws L SG} t1 s1 t2 s2 t3 s3 :
  kept t1 s1 t2 s2 → kept t2 s2 t3 s3 → kept t1 s1 t3 s3.
Proof. intros (_ & _ & H12) (? & ? & H23). split_and!; [done..|by rewrite H12]. Qed.

(** ** Stage 1, for any address *)

(** Only 48 bits of the first address matter. *)
Lemma identity_update_mod {SG : Stage} t b e a flags st :
  in_u 64 b → identity_update t (pa_init b) e a flags st = identity_update t (pa_init (b mod 2 ^ 48)) e a flags st.
Proof.
  intros Hb. unfold identity_update. cbv zeta.
  assert (pa_addr (arch_mm_clear_pa (pa_init b)) = pa_addr (arch_mm_clear_pa (pa_init (b mod 2 ^ 48)))) as ->; [|done].
  pose proof (Z.mod_pos_bound b (2 ^ 48) ltac:(lia)). unfold in_u in Hb.
  rewrite !clear_pa_spec by (split; lia). rewrite Z.mod_mod by lia. f_equal.
  symmetry. apply Z.mod_mod_divide. by exists (2 ^ 36).
Qed.
Lemma map1_kept hp b e mode st ok hp' st' :
  wf_ptable (SG := @Stage1 (aarch64 p)) hp → st_inv st → in_u 64 (pa b) →
  identity_map (SG := @Stage1 (aarch64 p)) hp b e mode st = Done (ok, hp', st') → kept1 hp st hp' st'.
Proof.
  intros Hw Hs Hb H. destruct b as [b]. unfold identity_map in H. change (mk_paddr b) with (pa_init b) in H. rewrite identity_update_mod in H by done.
  pose proof (Z.mod_pos_bound b (2 ^ 48) ltac:(lia)).
  by apply (identity_map1_kept p hp (pa_init (b mod 2 ^ 48)) e mode st ok hp' st').
Qed.
Lemma unmap1_any hp b e st ok hp' st' :
  wf_ptable (SG := @Stage1 (aarch64 p)) hp → st_inv st → in_u 64 (pa b) →
  unmap (SG := @Stage1 (aarch64 p)) hp b e st = Done (ok, hp', st') → kept1 hp st hp' st'.
Proof.
  intros Hw Hs Hb H. destruct b as [b]. unfold unmap in H. change (mk_paddr b) with (pa_init b) in H. rewrite identity_update_mod in H by done.
  pose proof (Z.mod_pos_bound b (2 ^ 48) ltac:(lia)).
  by apply (unmap1_kept p hp (pa_init (b mod 2 ^ 48)) e st ok hp' st').
Qed.

(** ** Changes of the state *)

(** Every page is held by at most one VM. *)
Definition single (hv : Hypervisor) : Prop :=
  ∀ x v w, 0 ≤ x < vm_end p → is_Some (hv_view p hv x v) → is_Some (hv_view p hv x w) → v = w.
Lemma single_isolated hv : single hv → isolated p hv.
Proof.
  intros Hs x Hx.
  assert (H : ∀ i j, i = j ∨ hv_view p hv x i = None ∨ hv_view p hv x j = None).
  { intros i j. destruct (hv_view p hv x i) eqn:Hi; [|tauto]. destruct (hv_view p hv x j) eqn:Hj; [|tauto].
    left. apply (Hs x); [done|by rewrite Hi|by rewrite Hj]. }
  split; intros i j; (destruct (H i j) as [?|[->| ->]]; [done|by intros ?..]).
Qed.

(** The table of one VM changes. *)
Lemma upd_table hv hv' v id t t' st' :
  hv_wf p hv → vtabs hv !! v = Some (id, t) → kept2 t (hv_mm hv) t' st' →
  vtabs hv' = <[v := (id, t')]> (vtabs hv) → hv_ptable hv' = hv_ptable hv → hv_mm hv' = st' → hv_mem hv' = hv_mem hv →
  hv_wf p hv' ∧ hv_pages p hv ≡ₚ hv_pages p hv' ∧
  ∀ x w, hv_view p hv' x w = if decide (w = v) then vm_mode p t' x else hv_view p hv x w.
Proof.
  intros (Hw & Hh & Hst & Hm) Hv (Hwf & Hst' & Hp) Hv' Hhp Hmm Hme. pose proof (lookup_lt_Some _ _ _ Hv) as Hlt.
  assert (Hlk : ∀ w, vtabs hv' !! w = if decide (w = v) then Some (id, t') else vtabs hv !! w).
  { intros w. rewrite Hv'. destruct (decide (w = v)) as [->|]; [by apply list_lookup_insert_eq|by apply list_lookup_insert_ne]. }
  split_and!.
  - unfold hv_wf. rewrite Hhp, Hmm, Hme. split_and!; try done. intros w id' t0. rewrite Hlk.
    destruct (decide (w = v)) as [->|]; [intros [= <- <-]; split; [by apply (Hw v id t)|done]|apply Hw].
  - unfold hv_pages. rewrite Hhp, Hmm, Hv'. apply perm_count. intros x. rewrite perm_count in Hp. specialize (Hp x).
    rewrite !count_occ_app in *. pose proof (mjoin_insert (λ '(_, t), ptable_pages (SG := @Stage2 (aarch64 p)) t) (vtabs hv) v (id, t) (id, t') x Hv) as H1.
    cbn in H1. lia.
  - intros x w. unfold hv_view. rewrite Hlk. by destruct (decide (w = v)).
Qed.
(** The hypervisor's own table changes. *)
Lemma upd_hyp hv hv' hp' st' :
  hv_wf p hv → kept1 (hv_ptable hv) (hv_mm hv) hp' st' →
  vtabs hv' = vtabs hv → hv_ptable hv' = hp' → hv_mm hv' = st' → mem_ok (hv_mem hv') →
  hv_wf p hv' ∧ hv_pages p hv ≡ₚ hv_pages p hv' ∧ ∀ x w, hv_view p hv' x w = hv_view p hv x w.
Proof.
  intros (Hw & Hh & Hst & Hm) (Hwf & Hst' & Hp) Hv Hhp Hmm Hme. unfold hv_wf, hv_pages, hv_view. rewrite Hhp, Hmm, Hv.
  split_and!; try done. apply Permutation_app_head, Hp.
Qed.
(** A VM with an empty table is added. *)
Lemma add_vm hv hv' id t st' :
  hv_wf p hv → id = Z.of_nat (length (hv_vms hv)) + 1 → wf_ptable (SG := @Stage2 (aarch64 p)) t →
  (∀ x, 0 ≤ x < vm_end p → vm_mode p t x = None) → st_inv st' →
  mpool_pages (st_pool (hv_mm hv)) ≡ₚ ptable_pages (SG := @Stage2 (aarch64 p)) t ++ mpool_pages (st_pool st') →
  vtabs hv' = vtabs hv ++ [(id, t)] → hv_ptable hv' = hv_ptable hv → hv_mm hv' = st' → hv_mem hv' = hv_mem hv →
  hv_wf p hv' ∧ hv_pages p hv ≡ₚ hv_pages p hv' ∧ ∀ x w, 0 ≤ x < vm_end p → hv_view p hv' x w = hv_view p hv x w.
Proof.
  intros (Hw & Hh & Hst & Hm) Hid Hwf Hnone Hst' Hp Hv Hhp Hmm Hme.
  assert (Hlen : length (vtabs hv) = length (hv_vms hv)) by apply length_fmap.
  split_and!.
  - unfold hv_wf. rewrite Hhp, Hmm, Hme. split_and!; try done. intros w id' t0. rewrite Hv.
    intros [H|[Hge H]]%lookup_app_Some; [by apply Hw|].
    destruct (w - length (vtabs hv))%nat eqn:E; [|done]. cbn in H. simplify_eq. split; [lia|done].
  - unfold hv_pages. rewrite Hhp, Hmm, Hv, fmap_app, join_app. cbn. rewrite app_nil_r, Hp, <-app_assoc.
    apply Permutation_app_head. rewrite !app_assoc. apply Permutation_app_tail, Permutation_app_comm.
  - intros x w Hx. unfold hv_view. rewrite Hv. destruct (decide (w < length (vtabs hv))%nat) as [Hlt|Hge].
    + by rewrite lookup_app_l.
    + rewrite (lookup_ge_None_2 (vtabs hv)) by lia. rewrite lookup_app_r by lia.
      destruct (w - length (vtabs hv))%nat; cbn; [by apply Hnone|done].
Qed.

(** Sound again, no page lost, and all views as before. *)
Definition steady (hv hv' : Hypervisor) : Prop :=
  hv_wf p hv' ∧ hv_pages p hv ≡ₚ hv_pages p hv' ∧ ∀ x w, 0 ≤ x < vm_end p → hv_view p hv' x w = hv_view p hv x w.
Lemma steady_refl hv : hv_wf p hv → steady hv hv.
Proof. by split. Qed.

Lemma copy_to_unmapped_spec hv to it ok hv' :
  hv_wf p hv → in_u 64 (pa to) → copy_to_unmapped hv to it = Done (ok, hv') →
  steady hv hv' ∧ hv_vms hv' = hv_vms hv ∧
  hv_mem hv' = if ok then memcpy (hv_mem hv) (pa to) (it_next it) (it_len it) else hv_mem hv.
Proof.
  intros Hw Hto H. pose proof Hw as (_ & Hh & Hst & Hm). unfold copy_to_unmapped in H. cbv zeta in H.
  apply bind_Done_inv in H as ([[ok1 hp1] st1] & Hmap & H). apply map1_kept in Hmap; [|done..].
  destruct ok1; cbn [negb] in H.
  - unfold assert_then in H. destruct (_ <=? _); [|done]. apply bind_Done_inv in H as ([[ok2 hp2] st2] & Hun & H).
    destruct ok2; [|done]. injection H as <- <-. pose proof Hmap as (? & ? & _). apply unmap1_any in Hun; [|done..].
    split_and!; [|done..]. destruct (upd_hyp hv (set_mem (memcpy (hv_mem hv) (pa_addr to) (get_next it) (it_len it)) (set_hv_ptable hp2 (set_mm st2 hv))) hp2 st2)
      as (? & ? & ?); try done; [by eapply kept_trans|by apply mem_ok_memcpy].
  - injection H as <- <-. split_and!; [|done..]. destruct (upd_hyp hv (set_hv_ptable hp1 (set_mm st1 hv)) hp1 st1) as (? & ? & ?); done.
Qed.

Lemma new_vm_spec hv count v vms st :
  hv_wf p hv → new_vm (hv_vms hv) count (hv_mm hv) = Done (v, vms, st) →
  steady hv (set_vms vms (set_mm st hv)) ∧
  match v with
  | Some v => v = length (hv_vms hv) ∧ ∃ vm, vms = hv_vms hv ++ [vm] ∧ vm_id vm = Z.of_nat v + 1 ∧ length (vcpus vm) = Z.to_nat count
  | None => vms = hv_vms hv
  end.
Proof.
  intros Hw H. pose proof Hw as (_ & _ & Hst & _). unfold new_vm in H.
  destruct (Z.leb_spec MAX_VMS (Z.of_nat (length (hv_vms hv)))) as [|Hlt].
  { injection H as <- <- <-. split; [|done]. by destruct hv. }
  apply bind_Done_inv in H as ([r st1] & Hi & H). unfold Vm_init, VmInner_init, mm_vm_init in Hi.
  apply bind_Done_inv in Hi as ([ri st2] & Hin & Hi). apply bind_Done_inv in Hin as ([[ok t] st3] & Hmm & Hin).
  apply bind_Done_inv in Hmm as ([rt m] & Hnew & Hmm).
  destruct (PageTable_new_spec (SG := @Stage2 (aarch64 p)) (st_pool (hv_mm hv)) Hst) as (rt' & m' & Heq & Hpm & Hrt).
  rewrite Hnew in Heq. injection Heq as <- <-. destruct rt as [t0|].
  - injection Hmm as <- <- <-. injection Hin as <- <-. destruct (MAX_CPUS <? count); [done|]. injection Hi as <- <-. injection H as <- <- <-.
    destruct Hrt as (Hwf & Hnone & Hpp). split.
    + destruct (add_vm hv (set_vms (hv_vms hv ++ [mkVm (wrap 16 (Z.of_nat (length (hv_vms hv)) + HF_VM_ID_OFFSET))
          (replicate (Z.to_nat count) (VCpu_new (length (hv_vms hv)))) (mkVmInner (stale_log (length (hv_vms hv))) t0 Mailbox_init (replicate (Z.to_nat MAX_VMS) (length (hv_vms hv)))) false])
          (set_mm (with_pool (hv_mm hv) m) hv)) (wrap 16 (Z.of_nat (length (hv_vms hv)) + HF_VM_ID_OFFSET)) t0 (with_pool (hv_mm hv) m)) as (? & ? & ?);
        try done; try (by split).
      * unfold MAX_VMS, HF_VM_ID_OFFSET in *. rewrite wrap_small; [lia|split; lia].
      * intros x Hx. unfold vm_mode. by rewrite Hnone.
      * unfold vtabs. cbn [hv_vms set_vms]. by rewrite fmap_app.
    + split; [done|]. eexists. split; [done|]. cbn. rewrite length_replicate. split; [|done].
      unfold MAX_VMS, HF_VM_ID_OFFSET in *. rewrite wrap_small; [lia|split; lia].
  - injection Hmm as <- <- <-. injection Hin as <- <-. injection Hi as <- <-. injection H as <- <- <-. subst m. split; [|done].
    by destruct hv as [[] ? ? ? ? ?].
Qed.

(** Mapping or unmapping an aligned range of a VM. *)
Lemma range_upd b e x :
  aligned 4096 b → aligned 4096 e → 0 ≤ b → 0 ≤ e < vm_end p →
  upd_begin (pa_init b) ≤ x < upd_end (SG := @Stage2 (aarch64 p)) (pa_init e) ↔ b ≤ x < e.
Proof.
  intros Hb He Hb0 Hend. pose proof (vm_end_48 p). unfold upd_begin, upd_end. cbn [pa pa_init].
  rewrite Hb, round_up_to_page_aligned by (done || (split; lia)). unfold vm_end in *. rewrite Z.min_l by lia. lia.
Qed.
Lemma map_range t b e mode st ok t' st' :
  wf_ptable (SG := @Stage2 (aarch64 p)) t → st_inv st → stage2_mode mode →
  aligned 4096 b → aligned 4096 e → 0 ≤ b ≤ e → e < vm_end p →
  identity_map (SG := @Stage2 (aarch64 p)) t (pa_init b) (pa_init e) mode st = Done (ok, t', st') →
  kept2 t st t' st' ∧ ∀ x, 0 ≤ x < vm_end p → vm_mode p t' x = if ok && bool_decide (b ≤ x < e) then norm mode else vm_mode p t x.
Proof.
  intros Hwf Hst Hm Hb He Hbe Hend H.
  destruct (identity_map_modes p t (pa_init b) (pa_init e) mode st) as (ok1 & t1 & st1 & Heq & ? & ? & ? & Hx & _); [done..|cbn; lia|].
  rewrite H in Heq. injection Heq as <- <- <-. split; [done|]. intros x Hxr. rewrite Hx by done.
  unfold upd_range. by rewrite (bool_decide_ext _ _ (range_upd b e x Hb He ltac:(lia) ltac:(lia))).
Qed.
Lemma unmap_range t b e st ok t' st' :
  wf_ptable (SG := @Stage2 (aarch64 p)) t → st_inv st →
  aligned 4096 b → aligned 4096 e → 0 ≤ b ≤ e → e < vm_end p →
  unmap (SG := @Stage2 (aarch64 p)) t (pa_init b) (pa_init e) st = Done (ok, t', st') →
  kept2 t st t' st' ∧ ∀ x, 0 ≤ x < vm_end p → vm_mode p t' x = if ok && bool_decide (b ≤ x < e) then None else vm_mode p t x.
Proof.
  intros Hwf Hst Hb He Hbe Hend H. apply unmap_kept in H as [Hk Hx]; [|done..|cbn; unfold vm_end in *; lia].
  split; [done|]. intros x Hxr. unfold vm_mode. rewrite Hx by done.
  rewrite (bool_decide_ext _ _ (range_upd b e x Hb He ltac:(lia) ltac:(lia))). by destruct (_ && _).
Qed.

(** *** One secondary VM *)
Lemma upd_vc_vtabs hv c f : vtabs (upd_vc c f hv) = vtabs hv.
Proof.
  unfold vtabs, upd_vc, upd_vm. cbn [hv_vms set_vms]. apply list_eq. intros i. rewrite !list_lookup_fmap.
  destruct (decide (i = c.1)) as [->|]; [|by rewrite list_lookup_alter_ne].
  rewrite list_lookup_alter_eq. by destruct (hv_vms hv !! c.1).
Qed.
Lemma length_upd_vc c f hv : length (hv_vms (upd_vc c f hv)) = length (hv_vms hv).
Proof. apply length_alter. Qed.
Lemma upd_vc_steady hv c f : hv_wf p hv → steady hv (upd_vc c f hv).
Proof. intros Hw. unfold steady, hv_wf, hv_pages, hv_view. rewrite upd_vc_vtabs. by split_and!; try apply Hw. Qed.

(** The VM created holds no more than the range, and other views stay. *)
Lemma start_secondary_spec hw hv count b e hv' :
  hv_wf p hv → aligned 4096 b → aligned 4096 e → 0 ≤ b ≤ e → e < vm_end p →
  start_secondary hw hv count (pa_init b) (pa_init e) = Done hv' →
  hv_wf p hv' ∧ hv_pages p hv ≡ₚ hv_pages p hv' ∧ (length (hv_vms hv) ≤ length (hv_vms hv'))%nat ∧
  ∀ x w, 0 ≤ x < vm_end p →
    hv_view p hv' x w = hv_view p hv x w ∨ b ≤ x < e ∧ w = length (hv_vms hv).
Proof.
  intros Hw Hb He Hbe Hend H. unfold start_secondary in H. apply bind_Done_inv in H as ([[v vms] st] & Hn & H).
  apply new_vm_spec in Hn as [(Hw1 & Hp1 & Hv1) Hn]; [|done]. set (hv1 := set_vms vms (set_mm st hv)) in *.
  destruct v as [v|]. 2:{ injection H as <-. split_and!; [done..| |auto]. unfold hv1. cbn. by rewrite Hn. }
  destruct Hn as (-> & vm & Hvms & Hid & _). apply bind_Done_inv in H as (vm' & Hvm & H). apply vm_of_Some in Hvm.
  apply bind_Done_inv in H as ([[ok t] st2] & Hm & H).
  pose proof (vtabs_lookup _ _ _ Hvm) as Hlk. pose proof Hw1 as (Hw1' & _ & Hst1 & _). destruct (Hw1' _ _ _ Hlk) as [_ Hwt].
  apply map_range in Hm as [Hk Hx]; [|done..].
  set (hv2 := upd_vm (length (hv_vms hv)) (upd_vm_inner (with_ptable t)) (set_mm st2 hv1)) in *.
  destruct (upd_table hv1 hv2 (length (hv_vms hv)) (vm_id vm') (ptable (vm_inner vm')) t st2) as (Hw2 & Hp2 & Hv2); try done.
  { unfold hv2. rewrite (vtabs_upd_inner _ _ _ vm') by done. done. }
  assert (Hl2 : length (hv_vms hv2) = S (length (hv_vms hv))).
  { unfold hv2, upd_vm. cbn. rewrite length_alter, Hvms, length_app. cbn. lia. }
  assert (Hviews : ∀ x w, 0 ≤ x < vm_end p → hv_view p hv2 x w = hv_view p hv x w ∨ b ≤ x < e ∧ w = length (hv_vms hv)).
  { intros x w Hxr. rewrite Hv2. destruct (decide (w = length (hv_vms hv))) as [->|]; [|left; by apply Hv1].
    rewrite Hx by done. destruct (ok && bool_decide (b ≤ x < e)) eqn:E.
    - right. apply andb_prop in E as [_ E%bool_decide_eq_true]. done.
    - left. rewrite <-Hv1 by done. unfold hv_view. by rewrite Hlk. }
  destruct ok; cbn [negb] in H; [|injection H as <-; split_and!; [done|by rewrite Hp1|lia|done]].
  apply bind_Done_inv in H as (c & _ & H). apply bind_Done_inv in H as (r & _ & H). apply bind_Done_inv in H as ([? c'] & _ & [= <-]).
  destruct (upd_vc_steady hv2 (length (hv_vms hv), 0%nat) (λ _, c') Hw2) as (Hw3 & Hp3 & Hv3).
  split_and!; [done|by rewrite Hp1, Hp2|rewrite length_upd_vc; lia|].
  intros x w Hxr. rewrite Hv3 by done. by apply Hviews.
Qed.

(** The state while VMs are loaded into [ranges]; no VM holds an address of [S]. *)
Definition boot_range (r : MemRange) : Prop :=
  0 ≤ pa (r_begin r) ≤ pa (r_end r) ∧ pa (r_end r) < vm_end p ∧ aligned 4096 (pa (r_end r)).
Lemma boot_range_ok r : boot_range r → range_ok r.
Proof. intros (? & ? & _). unfold range_ok. pose proof (vm_end_48 p). lia. Qed.
Record load_inv (S : Z → Prop) (total : list Z) (hv : Hypervisor) (ranges : list MemRange) : Prop := {
  li_wf : hv_wf p hv;
  li_single : single hv;
  li_pages : total ≡ₚ hv_pages p hv;
  li_vms : (0 < length (hv_vms hv))%nat;
  li_ranges : Forall boot_range ranges;
  li_disjoint : ranges_disjoint ranges;
  li_free r x v : r ∈ ranges → in_range r x → v ≠ 0%nat → hv_view p hv x v = None;
  li_secluded x v : S x → 0 ≤ x < vm_end p → hv_view p hv x v = None;
  li_apart r x : r ∈ ranges → in_range r x → ¬ S x;
}.

Lemma load_inv_steady S total hv hv' ranges :
  load_inv S total hv ranges → steady hv hv' → hv_vms hv' = hv_vms hv → load_inv S total hv' ranges.
Proof.
  intros [] (Hw & Hp & Hv) Hvms. split; try done.
  - intros x v w Hx. rewrite !Hv by done. by apply li_single0.
  - by rewrite li_pages0.
  - by rewrite Hvms.
  - intros r x v Hr Hin Hne. rewrite Hv; [by eapply li_free0|].
    pose proof (proj1 (Forall_forall _ _) li_ranges0 r Hr) as [? [? _]]. unfold in_range in Hin. lia.
  - intros x v HS Hx. rewrite Hv by done. by apply li_secluded0.
Qed.
(** Smaller ranges. *)
Lemma load_inv_shrink S total hv ranges ranges' :
  load_inv S total hv ranges → Forall2 shrunk ranges ranges' → Forall boot_range ranges' → load_inv S total hv ranges'.
Proof.
  intros [] H2 Hb.
  assert (Hin : ∀ r x, r ∈ ranges' → in_range r x → ∃ r', r' ∈ ranges ∧ in_range r' x).
  { intros r x [i Hi]%list_elem_of_lookup Hx. destruct (Forall2_lookup_r _ _ _ _ _ H2 Hi) as (r' & Hi' & Hsh).
    exists r'. split; [by eapply list_elem_of_lookup_2|by eapply shrunk_in]. }
  split; try done.
  - by eapply disjoint_shrunk.
  - intros r x v Hr Hx. destruct (Hin r x Hr Hx) as (r' & ? & ?). by eapply li_free0.
  - intros r x Hr Hx. destruct (Hin r x Hr Hx) as (r' & ? & ?). by eapply li_apart0.
Qed.

Lemma round_up_any a m : round_up a PAGE_SIZE = Done m → 0 ≤ m ∧ aligned 4096 m.
Proof.
  unfold round_up, div_ceil. change PAGE_SIZE with 4096. cbn [Z.eqb mbind exec_bind].
  assert (Hx : in_u 64 (a +w 4096 -w 1)) by (unfold wsub, wrap; split; [apply Z.mod_pos_bound|apply Z.mod_pos_bound]; lia).
  set (x := a +w 4096 -w 1) in *. unfold in_u in Hx. intros [= <-].
  assert (0 ≤ x / 4096 < 2 ^ 52) by (split; [apply Z.div_pos; lia|apply Z.div_lt_upper_bound; lia]).
  unfold wmul. rewrite wrap_small by (split; lia). split; [lia|]. unfold aligned. by rewrite Z_mod_mult.
Qed.
Lemma aligned_sub n a b : aligned n a → aligned n b → aligned n (a - b).
Proof. unfold aligned. intros Ha Hb. by rewrite Zminus_mod, Ha, Hb. Qed.

(** A range carved out of [ranges] changes hands: taken from the primary, given to
    one VM. *)
Lemma load_inv_give S total hv hv' ranges size b e ranges' n :
  load_inv S total hv ranges → 0 ≤ size → aligned 4096 size → carve_out_mem_range ranges size = (Ok (b, e), ranges') →
  hv_wf p hv' → hv_pages p hv ≡ₚ hv_pages p hv' → (0 < length (hv_vms hv'))%nat →
  (∀ x w, 0 ≤ x < vm_end p → ¬ pa b ≤ x < pa e → hv_view p hv' x w = hv_view p hv x w) →
  (∀ x w, pa b ≤ x < pa e → w ≠ n → hv_view p hv' x w = None) →
  load_inv S total hv' ranges'.
Proof.
  intros [Hw Hs Hp Hl Hr Hd Hf Hsec Hap] Hsz Hal Hc Hw' Hp' Hl' Hout Hin.
  assert (Hok : Forall range_ok ranges) by (eapply Forall_impl; [exact Hr|apply boot_range_ok]).
  destruct (carve_out_taken ranges size b e ranges' Hok Hd Hsz Hc) as (Hsize & Hsh & Hok' & (mr & Hmr & -> & Hmb) & Htaken).
  assert (Hr' : Forall boot_range ranges').
  { apply Forall_lookup. intros i r Hi. pose proof (proj1 (Forall_lookup _ _) Hok' i r Hi) as [? _].
    destruct (carve_out_spec ranges size _ _ Hok Hsz Hc) as (j & mr' & Hj & _ & Hre & Hb & -> & _).
    pose proof (proj1 (Forall_lookup _ _) Hr j mr' Hj) as (? & ? & ?).
    destruct (decide (j = i)) as [<-|Hne].
    - rewrite list_lookup_insert_eq in Hi by by eapply lookup_lt_Some. injection Hi as <-. unfold boot_range in *. cbn [r_begin r_end] in *.
      rewrite Hb in *. cbn [pa pa_init] in *. split_and!; [lia..|]. by apply aligned_sub.
    - rewrite list_lookup_insert_ne in Hi by done. by eapply Forall_lookup_1 in Hr. }
  assert (Hbnd : ∀ r x, r ∈ ranges → in_range r x → 0 ≤ x < vm_end p).
  { intros r x Hrr Hx. pose proof (proj1 (Forall_forall _ _) Hr r Hrr) as (? & ? & _). unfold in_range in Hx. lia. }
  assert (Hbnd' : ∀ r x, r ∈ ranges' → in_range r x → 0 ≤ x < vm_end p ∧ ∃ r0, r0 ∈ ranges ∧ in_range r0 x).
  { intros r x [i Hi]%list_elem_of_lookup Hx. destruct (Forall2_lookup_r _ _ _ _ _ Hsh Hi) as (r0 & Hi0 & Hs0).
    apply (shrunk_in _ _ x Hs0) in Hx. apply list_elem_of_lookup_2 in Hi0. eauto. }
  split; try done.
  - intros x v w Hx Hv Hw2. destruct (decide (pa b ≤ x < pa (r_end mr))) as [Hx'|Hx'].
    + destruct (decide (v = n)) as [->|]; [|rewrite (Hin x v) in Hv by done; by destruct Hv].
      destruct (decide (w = n)) as [->|]; [done|rewrite (Hin x w) in Hw2 by done; by destruct Hw2].
    + rewrite !Hout in * by done. by apply (Hs x).
  - by rewrite Hp.
  - by eapply disjoint_shrunk.
  - intros r x v Hrr Hx Hv. destruct (Hbnd' r x Hrr Hx) as (Hxr & r0 & ? & ?).
    assert (¬ pa b ≤ x < pa (r_end mr)) as Hno by (intros Hx'; by apply (proj2 (Htaken x Hx') r)).
    rewrite Hout by done. by eapply Hf.
  - intros x v HS Hx. assert (¬ pa b ≤ x < pa (r_end mr)) as Hno.
    { intros Hx'. destruct (Htaken x Hx') as [(r0 & ? & ?) _]. by eapply Hap. }
    rewrite Hout by done. by apply Hsec.
  - intros r x Hrr Hx. destruct (Hbnd' r x Hrr Hx) as (_ & r0 & ? & ?). by eapply Hap.
Qed.

Lemma load_vm_spec after hw S total hv cpio ranges mvm ranges' hv' :
  load_inv S total hv ranges → load_vm after hw hv cpio ranges mvm = Done (Ok ranges', hv') →
  load_inv S total hv' ranges' ∧ Forall2 shrunk ranges ranges'.
Proof.
  intros Hi H. pose proof (li_ranges _ _ _ _ Hi) as Hbr.
  assert (Hok : Forall range_ok ranges) by (eapply Forall_impl; [exact Hbr|apply boot_range_ok]).
  assert (Hrefl : Forall2 shrunk ranges ranges).
  { apply Forall2_same_length_lookup. split; [done|]. intros i x y ??. simplify_eq. apply shrunk_refl. by eapply Forall_lookup_1. }
  unfold load_vm in H. unfold assert_then in H at 1. destruct (utf8_ok _); [|done]. cbv zeta in H.
  apply bind_Done_inv in H as (k & _ & H). destruct k as [kernel|]; [|destruct (utf8_ok _); [|done]; cbn in H; by injection H as <- <-].
  apply bind_Done_inv in H as (size & [Hs0 Hsal]%round_up_any & H). destruct (size <? it_len kernel); [by injection H as <- <-|].
  destruct (carve_out_mem_range ranges size) as [[[mb me]|] rs] eqn:Hc.
  2:{ apply carve_out_spec in Hc as [-> _]; [|done..]. by injection H as <- <-. }
  destruct (carve_out_taken _ _ _ _ _ Hok (li_disjoint _ _ _ _ Hi) Hs0 Hc) as (Hsize & Hsh & _ & (mr & Hmr & -> & Hmb) & Htaken).
  pose proof (proj1 (Forall_forall _ _) Hbr mr Hmr) as (Hmr1 & Hmr2 & Hmr3). pose proof (vm_end_48 p).
  destruct mb as [b], (r_end mr) as [e] eqn:Hre. cbn [pa] in *. change (mk_paddr b) with (pa_init b) in *. change (mk_paddr e) with (pa_init e) in *.
  assert (Hbal : aligned 4096 b) by (replace b with (e - size) by lia; by apply aligned_sub).
  apply bind_Done_inv in H as ([ok1 hv1] & Hcp & H). apply copy_to_unmapped_spec in Hcp as (Hst1 & Hvms1 & _); [|apply Hi|split; cbn; lia].
  pose proof (load_inv_steady _ _ _ _ _ Hi Hst1 Hvms1) as Hi1. destruct ok1; cbn [negb] in H.
  2:{ injection H as <- <-. split; [|done]. eapply (load_inv_give S total hv1 hv1 ranges size (pa_init b) (pa_init e) rs 0); try done; try apply Hi1.
      intros x w Hx Hw. destruct (Htaken x Hx) as [(r & ? & ?) _]. by eapply li_free. }
  apply bind_Done_inv in H as (pi & Hpi & H). apply bind_Done_inv in H as (pv & Hpv & H).
  destruct pi as [pi|]; [|done]. injection Hpv as ->. pose proof (li_wf _ _ _ _ Hi1) as Hw1.
  destruct (get_vm_spec p hv1 _ pv Hw1 Hpi) as [Hid _]. assert (pv = 0%nat) as -> by (unfold HF_PRIMARY_VM_ID, HF_VM_ID_OFFSET in Hid; lia).
  apply bind_Done_inv in H as (vm & Hvm%vm_of_Some & H). apply bind_Done_inv in H as ([[ok2 t] st] & Hun & H).
  pose proof (vm_wf_spec p _ _ _ Hw1 Hvm) as Hwt. pose proof Hw1 as (_ & _ & Hst & _).
  apply unmap_range in Hun as [Hk Hx]; [|done..|lia|lia].
  set (hv2 := upd_vm 0 (upd_vm_inner (with_ptable t)) (set_mm st hv1)) in *. destruct ok2; cbn [negb] in H; [|done].
  destruct (upd_table hv1 hv2 0 (vm_id vm) (ptable (vm_inner vm)) t st) as (Hw2 & Hp2 & Hv2); try done; [by apply vtabs_lookup| |].
  { unfold hv2. by rewrite (vtabs_upd_inner _ _ _ vm) by done. }
  assert (Hl2 : length (hv_vms hv2) = length (hv_vms hv1)) by apply length_alter.
  apply bind_Done_inv in H as (hv3 & Hss & [= <- <-]). apply start_secondary_spec in Hss as (Hw3 & Hp3 & Hl3 & Hv3); [|done..|lia|lia].
  pose proof (li_vms _ _ _ _ Hi1) as Hl1. split; [|done].
  assert (Hv0 : ∀ x, 0 ≤ x < vm_end p → hv_view p hv1 x 0 = vm_mode p (ptable (vm_inner vm)) x).
  { intros x _. unfold hv_view. by rewrite (vtabs_lookup _ _ _ Hvm). }
  eapply (load_inv_give S total hv1 hv3 ranges size (pa_init b) (pa_init e) rs (length (hv_vms hv2))); try done; [by rewrite Hp2|lia|..]; cbn [pa pa_init].
  - intros x w Hxr Hno. destruct (Hv3 x w Hxr) as [->|[Hc' _]]; [|done]. rewrite Hv2. destruct (decide (w = 0%nat)) as [->|]; [|done].
    rewrite Hx, Hv0 by done. rewrite bool_decide_false by done. by rewrite andb_false_r.
  - intros x w Hxr Hne. destruct (Hv3 x w) as [->|[_ ?]]; [lia| |done]. rewrite Hv2. destruct (decide (w = 0%nat)) as [->|Hw0].
    + rewrite Hx by lia. by rewrite bool_decide_true.
    + destruct (Htaken x Hxr) as [(r & ? & ?) _]. by eapply li_free.
Qed.

Lemma load_vms_spec after hw S total hv cpio ranges i vms ranges' hv' :
  load_inv S total hv ranges → load_vms after hw hv cpio ranges i vms = Done (Ok ranges', hv') →
  load_inv S total hv' ranges' ∧ Forall2 shrunk ranges ranges'.
Proof.
  revert hv ranges i. induction vms as [|mvm vms IH]; intros hv ranges i Hi; cbn [load_vms].
  - intros [= <- <-]. split; [done|]. apply Forall2_same_length_lookup. split; [done|]. intros j x y ??. simplify_eq.
    apply shrunk_refl, boot_range_ok. eapply Forall_lookup_1; [apply Hi|done].
  - destruct (_ =? _); [by apply IH|]. intros ([r hv1] & Hl & H)%bind_Done_inv. destruct r as [rs|]; [|done].
    apply load_vm_spec with (S := S) (total := total) in Hl as [Hi1 Hs1]; [|done]. destruct (IH _ _ _ Hi1 H) as [Hi2 Hs2]. split; [done|].
    by etrans.
Qed.

(** *** All secondary VMs *)

(** The ranges of the boot parameters: memory of the machine, disjoint, each with a
    page boundary in it, and apart from [S]. *)
Definition ranges_sane (S : Z → Prop) (l : list MemRange) : Prop :=
  Forall (λ r, 0 ≤ pa (r_begin r) ≤ pa (r_end r) - pa (r_end r) mod 4096 ∧ pa (r_end r) < vm_end p) l ∧
  ranges_disjoint l ∧ ∀ r x, r ∈ l → in_range r x → ¬ S x.

Lemma round_ends_spec l :
  Forall (λ r, 0 ≤ pa (r_begin r) ≤ pa (r_end r) - pa (r_end r) mod 4096 ∧ pa (r_end r) < vm_end p) l →
  ∃ l', round_ends l = Done l' ∧ Forall2 shrunk l l' ∧ Forall boot_range l'.
Proof.
  pose proof (vm_end_48 p). induction 1 as [|r l [Hr Hend] _ (l' & IH & Hs & Hb)]; cbn [round_ends]; [by eexists|].
  pose proof (Z.mod_pos_bound (pa (r_end r)) 4096 ltac:(lia)).
  rewrite (round_down_spec (pa_addr (r_end r)) PAGE_SIZE) by (done || (unfold pa_addr; split; lia)). cbn [mbind exec_bind]. rewrite IH. cbn [mbind exec_bind].
  eexists. split; [done|]. unfold pa_addr. change PAGE_SIZE with 4096. split; constructor; try done.
  - split; [done|]. cbn. lia.
  - unfold boot_range. cbn. split_and!; [lia..|]. unfold aligned. by rewrite Zminus_mod_idemp_r, Z.sub_diag.
Qed.

Lemma single_one hv : length (hv_vms hv) = 1%nat → single hv ∧ ∀ x v, v ≠ 0%nat → hv_view p hv x v = None.
Proof.
  intros Hl. assert (Hn : ∀ x v, v ≠ 0%nat → hv_view p hv x v = None).
  { intros x v Hv. unfold hv_view. rewrite lookup_ge_None_2; [done|]. unfold vtabs. rewrite length_fmap. lia. }
  split; [|done]. intros x v w _ Hv Hw. destruct (decide (v = 0%nat)) as [->|]; [|rewrite Hn in Hv by done; by destruct Hv].
  destruct (decide (w = 0%nat)) as [->|]; [done|rewrite Hn in Hw by done; by destruct Hw].
Qed.

Lemma load_secondary_spec after hw S hv m cpio params u u' hv' :
  hv_wf p hv → length (hv_vms hv) = 1%nat → (∀ x, S x → 0 ≤ x < vm_end p → hv_view p hv x 0 = None) →
  ranges_sane S (take (Z.to_nat (mem_ranges_count params)) (mem_ranges params)) →
  load_secondary after hw hv m cpio params u = Done (Ok tt, u', hv') →
  hv_wf p hv' ∧ single hv' ∧ hv_pages p hv ≡ₚ hv_pages p hv' ∧ ∀ x v, S x → 0 ≤ x < vm_end p → hv_view p hv' x v = None.
Proof.
  intros Hw Hl Hsec (Hok & Hdis & Hap) H. unfold load_secondary, assert_then in H. destruct (_ =? _)%nat; [|done].
  destruct (round_ends_spec _ Hok) as (rs & Hre & Hsh & Hbr). rewrite Hre in H. cbn [mbind exec_bind] in H.
  destruct (single_one hv Hl) as [Hs Hn].
  assert (Hi : load_inv S (hv_pages p hv) hv rs).
  { split; try done; [lia|by eapply disjoint_shrunk|by auto| |].
    - intros x v HS Hx. destruct (decide (v = 0%nat)) as [->|]; [by apply Hsec|by apply Hn].
    - intros r x [i Hr]%list_elem_of_lookup Hx. destruct (Forall2_lookup_r _ _ _ _ _ Hsh Hr) as (r0 & Hr0 & Hs0).
      eapply Hap; [by eapply list_elem_of_lookup_2|by eapply shrunk_in]. }
  apply bind_Done_inv in H as ([r hv1] & Hld & H). destruct r as [rs'|]; [|done].
  apply load_vms_spec with (S := S) (total := hv_pages p hv) in Hld as [[] _]; [|done].
  destruct (_ <=? _); [|done]. apply bind_Done_inv in H as ([r u1] & _ & [= -> <- <-]). done.
Qed.

(** *** The primary VM *)
Lemma vm_unmap_hypervisor_kept lay t st t' st' :
  wf_ptable (SG := @Stage2 (aarch64 p)) t → st_inv st → layout_within lay (vm_end p) →
  vm_unmap_hypervisor lay t st = Done (true, t', st') →
  kept2 t st t' st' ∧ ∀ x, 0 ≤ x < vm_end p → hypervisor_region (SG := @Stage2 (aarch64 p)) lay x → vm_mode p t' x = None.
Proof.
  intros Hwf Hst (Ht & Hr & Hd & _) H. unfold vm_unmap_hypervisor in H.
  apply bind_Done_inv in H as ([[ok1 t1] st1] & H1 & H). destruct ok1; cbn [negb] in H; [|done].
  apply bind_Done_inv in H as ([[ok2 t2] st2] & H2 & H). destruct ok2; cbn [negb] in H; [|done].
  apply unmap_kept in H1 as [Hk1 Hx1]; [|done..]. pose proof Hk1 as (? & ? & _).
  apply unmap_kept in H2 as [Hk2 Hx2]; [|done..]. pose proof Hk2 as (? & ? & _).
  apply unmap_kept in H as [Hk3 Hx3]; [|done..]. split; [by eapply kept_trans; [eapply kept_trans|]|].
  intros x Hx Hreg. unfold vm_mode. rewrite Hx3, Hx2, Hx1 by done. cbn [andb]. unfold hypervisor_region, in_region in Hreg.
  repeat case_bool_decide; try done. tauto.
Qed.

Lemma start_primary_spec lay hv v b arg vm hv' :
  hv_wf p hv → hv_vms hv !! v = Some vm → layout_within lay (vm_end p) →
  start_primary lay hv v b arg = Done (true, hv') →
  hv_wf p hv' ∧ hv_pages p hv ≡ₚ hv_pages p hv' ∧ length (hv_vms hv') = length (hv_vms hv) ∧
  ∀ x, 0 ≤ x < vm_end p → hypervisor_region (SG := @Stage2 (aarch64 p)) lay x → hv_view p hv' x v = None.
Proof.
  intros Hw Hvm Hlay H. pose proof Hw as (_ & _ & Hst & _). pose proof (vm_wf_spec p _ _ _ Hw Hvm) as Hwt. unfold start_primary in H.
  apply bind_Done_inv in H as (vm' & Hvm' & H). apply vm_of_Some in Hvm'. rewrite Hvm in Hvm'. injection Hvm' as <-.
  apply bind_Done_inv in H as ([[ok1 t1] st1] & Hm & H). destruct ok1; cbn [negb] in H; [|done].
  apply identity_map_kept in Hm as [Hk1 _]; [|done..|cbn; destruct Hlay as [? _]; unfold vm_end in *; lia].
  pose proof Hk1 as (Hwt1 & Hst1 & _).
  apply bind_Done_inv in H as ([[ok2 t2] st2] & Hu & H). destruct ok2; cbn [negb] in H; [|done].
  apply vm_unmap_hypervisor_kept in Hu as [Hk2 Hx]; [|done..].
  apply bind_Done_inv in H as (c & _ & [= <-]).
  set (hv1 := upd_vm v (upd_vm_inner (with_ptable t2)) (set_mm st2 (upd_vm v (upd_vm_inner (with_ptable t1)) (set_mm st1 hv)))) in *.
  destruct (upd_table hv hv1 v (vm_id vm) (ptable (vm_inner vm)) t2 st2) as (Hw1 & Hp1 & Hv1); try done;
    [by apply vtabs_lookup|by eapply kept_trans| |].
  { unfold hv1. rewrite (vtabs_upd_inner v _ _ (upd_vm_inner (with_ptable t1) vm)).
    - change (vtabs (set_mm st2 ?h)) with (vtabs h). rewrite (vtabs_upd_inner v _ _ vm) by done. by rewrite list_insert_insert_eq.
    - cbn. by rewrite list_lookup_alter_eq, Hvm. }
  destruct (upd_vc_steady hv1 (v, 0%nat) (upd_inner (λ i, vcpu_on i (ipa_from_pa b) arg)) Hw1) as (Hw2 & Hp2 & Hv2).
  split_and!; [done|by rewrite Hp1| |].
  - rewrite length_upd_vc. unfold hv1, upd_vm. cbn. by rewrite !length_alter.
  - intros x Hxr Hreg. rewrite Hv2, Hv1 by done. rewrite decide_True by done. by apply Hx.
Qed.

Lemma load_primary_spec after lay hv cpio arg initrd hv' :
  hv_wf p hv → hv_vms hv = [] → layout_within lay (vm_end p) → in_u 64 (pa (layout_primary_begin lay)) →
  load_primary after lay hv cpio arg = Done (Ok initrd, hv') →
  hv_wf p hv' ∧ hv_pages p hv ≡ₚ hv_pages p hv' ∧ length (hv_vms hv') = 1%nat ∧
  ∀ x, 0 ≤ x < vm_end p → hypervisor_region (SG := @Stage2 (aarch64 p)) lay x → hv_view p hv' x 0 = None.
Proof.
  intros Hw Hnil Hlay Hpb H. unfold load_primary in H. apply bind_Done_inv in H as (it & _ & H). destruct it as [it|]; [|done].
  apply bind_Done_inv in H as ([ok hv1] & Hc & H). apply copy_to_unmapped_spec in Hc as ((Hw1 & Hp1 & _) & Hvms & _); [|done..].
  destruct ok; cbn [negb] in H; [|done]. apply bind_Done_inv in H as (ird & _ & H). destruct ird as [ird|]; [|done].
  apply bind_Done_inv in H as ([[v vms] st] & Hn & H). apply new_vm_spec in Hn as [(Hw2 & Hp2 & _) Hn]; [|done].
  destruct v as [v|]; [|done]. rewrite Hvms, Hnil in Hn. destruct Hn as (-> & vm & -> & _).
  apply bind_Done_inv in H as (vm' & Hvm%vm_of_Some & H). destruct (negb _); [done|].
  apply bind_Done_inv in H as ([ok hv3] & Hs & [= Hok <-]). destruct ok; [|done].
  apply (start_primary_spec lay _ _ _ _ vm') in Hs as (Hw3 & Hp3 & Hl3 & Hv3); [|done..]. split_and!; [done|by rewrite Hp1, Hp2|by rewrite Hl3|done].
Qed.
End load.
