(* ===== verification/Boot.v ===== *)
(** * The state after boot

    [one_time_init] leaves the hypervisor in a state from which the guarantees of
    [Guarantees] start: sound tables, every page of the heap in one place, isolated
    VMs, the hypervisor's memory out of reach.  Together with the invariants of the
    hypercalls this is isolation of the whole system. *)
From S2P Require Import Prelude Addr Mode Arch ArchAarch64 Mpool Mm MmSpec MmMap MmTable PageTables MemoryManager.
From S2P Require Import Stage2Modes Abi ArchCpu Interrupts Cpu Vm Memory Memiter Cpio Fdt FdtLoops Manifest ManifestSpec FdtHandler FdtPatch BootFlow.
From S2P Require Import Spci Hypervisor Load LoadRanges Init Api Frames Ownership Sharing Isolation LoadSpec.

Section boot.
Context (p : Aarch64.pa_bits) {RD : ReduceCrate} {LG : StaleLogs} (MESSAGE_BUFFER : Z).
#[local] Hint Extern 0 ArchMM => exact (aarch64 p) : typeclass_instances.
#[local] Hint Extern 0 (ArchLaws _) => exact (aarch64_laws p) : typeclass_instances.
Local Abbreviation kept1 := (kept (SG := @Stage1 (aarch64 p))).
Local Abbreviation pages1 := (ptable_pages (SG := @Stage1 (aarch64 p))).

(** ** The hypervisor's table *)
Lemma kept_id t st : wf_ptable (SG := @Stage1 (aarch64 p)) t → st_inv st → kept1 t st t st.
Proof. by split. Qed.

Lemma unmap_header_kept t a st t' st' :
  wf_ptable (SG := @Stage1 (aarch64 p)) t → st_inv st → in_u 64 (pa a) → unmap_header t a st = Done (t', st') → kept1 t st t' st'.
Proof. intros Hw Hs Ha. unfold unmap_header. intros ([[ok t1] st1] & Hu & [= <- <-])%bind_Done_inv. by eapply unmap1_any. Qed.

Lemma fdt_map_kept mem t a st n t' st' :
  wf_ptable (SG := @Stage1 (aarch64 p)) t → st_inv st → in_u 64 (pa a) → fdt_map mem t a st = Done (n, t', st') → kept1 t st t' st'.
Proof.
  intros Hw Hs Ha. unfold fdt_map. intros ([[ok t1] st1] & Hm & H)%bind_Done_inv. apply map1_kept in Hm; [|done..].
  pose proof Hm as (? & ? & _). destruct ok; cbn [negb] in H; [|by injection H as <- <- <-].
  unfold assert_then in H. destruct (header_mapped a); [|done]. destruct (new_root mem (pa_addr a)) as [node|].
  - apply bind_Done_inv in H as ([[ok2 t2] st2] & Hm2 & H). apply map1_kept in Hm2; [|done..]. pose proof Hm2 as (? & ? & _).
    eapply kept_trans; [exact Hm|]. destruct ok2; cbn [negb] in H; [by injection H as <- <- <-|].
    apply bind_Done_inv in H as ([t3 st3] & Hu & [= <- <- <-]). eapply kept_trans; [exact Hm2|]. by eapply unmap_header_kept.
  - apply bind_Done_inv in H as ([t3 st3] & Hu & [= <- <- <-]). eapply kept_trans; [exact Hm|]. by eapply unmap_header_kept.
Qed.

Lemma patch_kept mem t a u lay st r mem' t' st' :
  wf_ptable (SG := @Stage1 (aarch64 p)) t → st_inv st → mem_ok mem → in_u 64 (pa a) →
  patch mem t a u lay st = Done (r, mem', t', st') → kept1 t st t' st' ∧ mem_ok mem'.
Proof.
  intros Hw Hs Hm0 Ha. unfold patch. cbv zeta. intros ([[ok t1] st1] & Hm & H)%bind_Done_inv. apply map1_kept in Hm; [|done..].
  pose proof Hm as (? & ? & _). destruct ok; cbn [negb] in H; [|by injection H as <- <- <- <-].
  unfold assert_then in H. destruct (header_mapped a); [|done]. destruct (new_root mem (pa_addr a)) as [node|].
  2:{ apply bind_Done_inv in H as ([t3 st3] & Hu & [= <- <- <- <-]). split; [|done]. eapply kept_trans; [exact Hm|]. by eapply unmap_header_kept. }
  apply bind_Done_inv in H as ([[ok2 t2] st2] & Hm2 & H). apply map1_kept in Hm2; [|done..]. pose proof Hm2 as (? & ? & _).
  assert (Hk : kept1 t st t2 st2) by by eapply kept_trans. destruct ok2; cbn [negb] in H.
  2:{ apply bind_Done_inv in H as ([t3 st3] & Hu & [= <- <- <- <-]). split; [|done]. eapply kept_trans; [exact Hk|]. by eapply unmap_header_kept. }
  apply bind_Done_inv in H as ([r1 mem1] & Hp & H). apply patch_blob_mem in Hp; [|done]. destruct r1.
  - apply bind_Done_inv in H as ([[ok3 t3] st3] & Hu & [= <- <- <- <-]). split; [|done]. eapply kept_trans; [exact Hk|]. by eapply unmap1_any.
  - apply bind_Done_inv in H as ([[ok3 t3] st3] & Hu & [= <- <- <- <-]). split; [|done]. eapply kept_trans; [exact Hk|]. by eapply unmap1_any.
Qed.

Lemma boot_flow_init_kept plat mem t mf params st r mf' params' t' st' :
  wf_ptable (SG := @Stage1 (aarch64 p)) t → st_inv st → in_u 64 (pa (plat_get_fdt_addr plat)) →
  boot_flow_init plat mem t mf params st = Done (r, mf', params', t', st') → kept1 t st t' st'.
Proof.
  intros Hw Hs Ha. unfold boot_flow_init. intros ([[n t1] st1] & Hm & H)%bind_Done_inv. apply fdt_map_kept in Hm; [|done..].
  pose proof Hm as (? & ? & _). destruct n as [n|]; [|by injection H as <- <- <- <- <-].
  apply bind_Done_inv in H as ([[ret mf1] p1] & _ & H). apply bind_Done_inv in H as ([[ok t2] st2] & Hu & [= <- <- <- <- <-]).
  eapply kept_trans; [exact Hm|]. unfold fdt_unmap in Hu. eapply unmap1_any; [..|exact Hu]; done.
Qed.

(** ** The heap *)

(** What the image and the machine have to satisfy. *)
Record machine_ok (m : Machine) : Prop := {
  mo_heap : pages_ok (mkPages (m_ptable_buf m) HEAP_PAGES);
  mo_heap_end : m_ptable_buf m + HEAP_PAGES * 4096 ≤ 2 ^ 48;
  mo_layout1 : layout_within (m_layout m) (2 ^ 39);
  mo_layout2 : layout_within (m_layout m) (vm_end p);
  mo_primary : in_u 64 (pa (layout_primary_begin (m_layout m)));
  mo_fdt : in_u 64 (pa (plat_get_fdt_addr (m_plat m)));
  mo_initrd mem n b e : mem_ok mem → plat_get_initrd_range (m_plat m) mem n = Done (Some (b, e)) → in_u 64 (pa b);
}.
Definition heap (m : Machine) : list Z := page_run (m_ptable_buf m) HEAP_PAGES.
Lemma heap_NoDup m : NoDup (heap m).
Proof. unfold heap, page_run. apply NoDup_fmap_2; [intros i j; lia|apply NoDup_seqZ]. Qed.

Lemma MemoryManager_new_kept lay st mm st' :
  st_inv st → layout_within lay (2 ^ 39) → MemoryManager_new lay st = Done (Some mm, st') →
  wf_ptable (SG := @Stage1 (aarch64 p)) (hypervisor_ptable mm) ∧ st_inv st' ∧
  mpool_pages (st_pool st) ≡ₚ pages1 (hypervisor_ptable mm) ++ mpool_pages (st_pool st').
Proof.
  intros Hst (Ht & Hr & Hd & Hc) H. unfold MemoryManager_new in H.
  destruct (PageTable_new_spec (SG := @Stage1 (aarch64 p)) (st_pool st) Hst) as (r & m & Hnew & Hm & Hres).
  rewrite Hnew in H. cbn [mbind exec_bind] in H. destruct r as [t0|]; [|done]. destruct Hres as (Hw0 & _ & Hp0).
  assert (H0 : st_inv (with_pool st m)) by done.
  apply bind_Done_inv in H as ([t1 st1] & H1 & H). unfold plat_console_mm_init, mm_identity_map in H1.
  apply bind_Done_inv in H1 as ([[ptr t1'] st1'] & H1 & [= <- <-]). apply bind_Done_inv in H1 as ([[ok t1''] st1''] & H1 & [= _ <- <-]).
  apply identity_map_kept in H1 as [Hk1 _]; [|done..]. pose proof Hk1 as (Hw1 & Hs1 & _).
  apply bind_Done_inv in H as ([t2 st2] & H2%identity_map_unwrap_inv & H). apply identity_map_kept in H2 as [Hk2 _]; [|done..]. pose proof Hk2 as (Hw2 & Hs2 & _).
  apply bind_Done_inv in H as ([t3 st3] & H3%identity_map_unwrap_inv & H). apply identity_map_kept in H3 as [Hk3 _]; [|done..]. pose proof Hk3 as (Hw3 & Hs3 & _).
  apply bind_Done_inv in H as ([t4 st4] & H4%identity_map_unwrap_inv & H). apply identity_map_kept in H4 as [Hk4 _]; [|done..]. pose proof Hk4 as (Hw4 & Hs4 & _).
  destruct (arch_mm_init lay); [|done]. injection H as <- <-. cbn [hypervisor_ptable].
  destruct (kept_trans _ _ _ _ _ _ (kept_trans _ _ _ _ _ _ (kept_trans _ _ _ _ _ _ Hk1 Hk2) Hk3) Hk4) as (? & ? & Hp).
  split_and!; [done..|]. by rewrite Hp0, <-Hp.
Qed.

Lemma init_mm_kept m hp st :
  machine_ok m → init_mm m = Done (hp, st) →
  wf_ptable (SG := @Stage1 (aarch64 p)) hp ∧ st_inv st ∧ heap m ≡ₚ pages1 hp ++ mpool_pages (st_pool st).
Proof.
  intros [] H. unfold init_mm in H. apply bind_Done_inv in H as ([mm st1] & Hn & H). apply bind_Done_inv in H as (mm' & Hmm & [= <- <-]).
  destruct mm as [mm|]; [|done]. injection Hmm as ->.
  destruct (MPool_free_pages_spec MPool_new (mkPages (m_ptable_buf m) HEAP_PAGES)) as [Hp Hok]; [done|done|].
  apply MemoryManager_new_kept in Hn as (? & ? & Hpp); [|split|done].
  - split_and!; [done..|]. rewrite <-Hpp. unfold heap. by rewrite Hp, app_nil_r.
  - exact Hok.
  - cbn [st_pool]. rewrite Hp, app_nil_r. apply Forall_forall. intros x (i & Hi & ->)%elem_of_page_run. cbn in *. lia.
Qed.

(** ** The boot parameters *)
Lemma find_memory_ranges_initrd mem n bp ok bp' :
  find_memory_ranges mem n bp = Done (ok, bp') → initrd_begin bp' = initrd_begin bp.
Proof.
  unfold find_memory_ranges. intros (a & _ & (s & _ & H)%bind_Done_inv)%bind_Done_inv. apply bind_Done_inv in H as ([nm nd] & _ & H).
  destruct nm; [|by injection H as <- <-]. apply bind_Done_inv in H as ([i rs] & _ & [= <- <-]). done.
Qed.
Lemma read_boot_initrd m mem n mf bp mf' bp' :
  machine_ok m → mem_ok mem → read_boot (m_plat m) mem n mf bp = Done (Ok tt, mf', bp') → in_u 64 (pa (initrd_begin bp')).
Proof.
  intros Hm Hmem. unfold read_boot. intros ([f n1] & _ & H)%bind_Done_inv. destruct f; cbn [negb] in H; [|done].
  apply bind_Done_inv in H as ([r mf1] & _ & H). destruct r; [|done]. apply bind_Done_inv in H as ([r1 bp1] & Hi & [= -> <- <-]).
  unfold BootParams_init in Hi. cbv zeta in Hi. apply bind_Done_inv in Hi as ([[b e]|] & Hr & Hi); [|done].
  apply bind_Done_inv in Hi as ([[k|] ids] & _ & Hi); [|done]. apply bind_Done_inv in Hi as ([ok bp2] & Hf & [= Hok <-]).
  apply find_memory_ranges_initrd in Hf. rewrite Hf. cbn. by eapply mo_initrd.
Qed.

Lemma init_hypervisor_spec m mem mf bp hv mf' bp' :
  machine_ok m → mem_ok mem → init_hypervisor m mem mf bp = Done (hv, mf', bp') →
  hv_wf p hv ∧ heap m ≡ₚ hv_pages p hv ∧ hv_vms hv = [] ∧ in_u 64 (pa (initrd_begin bp')).
Proof.
  intros Hm Hmem H. unfold init_hypervisor in H. apply bind_Done_inv in H as ([hp st] & Hi & H).
  apply init_mm_kept in Hi as (Hw & Hs & Hp); [|done]. apply bind_Done_inv in H as ([[[[r mf1] bp1] hp1] st1] & Hb & H).
  apply bind_Done_inv in H as (u & Hr & H). destruct r as [[]|]; [|done].
  pose proof Hb as Hb0. apply boot_flow_init_kept in Hb as (Hw1 & Hs1 & Hp1); [|done..|by apply mo_fdt].
  unfold assert_then in H. destruct (_ <=? _); [|done]. apply bind_Done_inv in H as (cpus & _ & [= <- <- <-]).
  split_and!; try done.
  - unfold hv_pages, vtabs. cbn. by rewrite Hp, Hp1.
  - unfold boot_flow_init in Hb0. apply bind_Done_inv in Hb0 as ([[n t1] st0] & _ & Hb0). destruct n as [n|]; [|done].
    apply bind_Done_inv in Hb0 as ([[ret mf2] bp2] & Hrb & Hb0). apply bind_Done_inv in Hb0 as ([[ok t2] st2] & _ & [= Hok <- <- <- <-]).
    destruct ok; [|done]. subst ret. by eapply read_boot_initrd.
Qed.

(** ** The virtual machines *)
Local Abbreviation region m := (hypervisor_region (SG := @Stage2 (aarch64 p)) (m_layout m)).

Lemma init_vms_spec m hv mf bp u hv' :
  machine_ok m → hv_wf p hv → hv_vms hv = [] → in_u 64 (pa (initrd_begin bp)) →
  ranges_sane p (region m) (take (Z.to_nat (mem_ranges_count bp)) (mem_ranges bp)) →
  init_vms m hv mf bp = Done (u, hv') →
  hv_wf p hv' ∧ single p hv' ∧ hv_pages p hv ≡ₚ hv_pages p hv' ∧
  ∀ x v, region m x → 0 ≤ x < vm_end p → hv_view p hv' x v = None.
Proof.
  intros Hm Hw Hnil Hinit Hsane H. pose proof Hw as (_ & Hh & Hst & Hmem). unfold init_vms in H.
  apply bind_Done_inv in H as ([[ok hp] st] & Hmap & H). apply map1_kept in Hmap; [|done..]. unfold assert_then in H. destruct ok; [|done]. cbv zeta in H.
  destruct (upd_hyp p hv (set_hv_ptable hp (set_mm st hv)) hp st) as (Hw1 & Hp1 & _); try done.
  apply bind_Done_inv in H as ([r hv2] & Hpr & H). apply bind_Done_inv in H as (ird & Hird & H). destruct r as [ird'|]; [|done].
  apply load_primary_spec in Hpr as (Hw2 & Hp2 & Hl2 & Hv2); [|done|done|by apply mo_layout2|by apply mo_primary].
  apply bind_Done_inv in H as ([[r u1] hv3] & Hsec & H). apply bind_Done_inv in H as (u2 & Hu & [= <- <-]). destruct r as [[]|]; [|done].
  apply (load_secondary_spec p) with (S := region m) in Hsec as (Hw3 & Hs3 & Hp3 & Hv3); try done; [|by intros; apply Hv2].
  split_and!; try done. by rewrite Hp1, Hp2.
Qed.

(** The state [one_time_init] leaves. *)
Lemma one_time_init_spec m g mf bp c' g' :
  machine_ok m → mem_ok (g_mem g) → g_inited g = false →
  (∀ hv mf' bp', init_hypervisor m (g_mem g) mf bp = Done (hv, mf', bp') →
     ranges_sane p (region m) (take (Z.to_nat (mem_ranges_count bp')) (mem_ranges bp'))) →
  one_time_init m BootCpu g mf bp = Done (c', g') →
  c' = Managed 0 ∧ g_inited g' = true ∧
  ∃ hv, g_hypervisor g' = Some hv ∧ hv_wf p hv ∧ isolated p hv ∧ hv_pages p hv ≡ₚ heap m ∧
    ∀ x v, region m x → 0 ≤ x < vm_end p → hv_view p hv x v = None.
Proof.
  intros Hm Hmem Hg Hsane H. unfold one_time_init in H. rewrite Hg, bool_decide_false in H by tauto. cbn [orb] in H.
  apply bind_Done_inv in H as ([[hv mf1] bp1] & Hi & H). pose proof (Hsane _ _ _ Hi) as Hs1.
  apply init_hypervisor_spec in Hi as (Hw & Hp & Hnil & Hin); [|done..].
  apply bind_Done_inv in H as ([u hv1] & Hv & H). apply init_vms_spec in Hv as (Hw1 & Hsg1 & Hp1 & Hr1); [|done..].
  pose proof Hw1 as (_ & Hh1 & Hst1 & Hmem1).
  apply bind_Done_inv in H as ([[[r mem] hp] st] & Hpa & H). apply patch_kept in Hpa as [Hk Hmem2]; [|done..|by apply mo_fdt].
  pose proof Hk as (Hh2 & Hst2 & _). apply bind_Done_inv in H as (u2 & _ & H). apply bind_Done_inv in H as ([hp' st'] & Hd & [= <- <-]).
  apply mm_defrag_kept in Hd as [Hk2 _]; [|done..].
  set (hv2 := set_mem mem (set_hv_ptable hp' (set_mm (mm_vm_enable_invalidation st') hv1))).
  destruct (upd_hyp p hv1 hv2 hp' (mm_vm_enable_invalidation st')) as (Hw3 & Hp3 & Hv3); try done; [exact (kept_trans _ _ _ _ _ _ Hk Hk2)|].
  split_and!; [done..|]. exists hv2. split_and!; [done|done| |by rewrite <-Hp3, <-Hp1, <-Hp|].
  - apply single_isolated. intros x v w Hx. rewrite !Hv3. by apply Hsg1.
  - intros x v Hx Hxr. rewrite Hv3. by apply Hr1.
Qed.

(** Isolation from boot on.  Let [one_time_init] return on the boot CPU, with any
    contents of memory, any device tree and any ramdisk, provided the memory ranges of
    the tree are disjoint memory of the machine apart from the hypervisor.  Then in
    every state reached from there by any hypercalls of any vCPU and any writes of
    guests, for each page at most one VM owns it, at most one has access to a page it
    does not own, exclusive access is exclusive; no VM owns or can access the
    hypervisor's memory; and the page tables and the pool are made of the pages of the
    heap, each in one place. *)
Theorem boot_isolation m g mf bp c' g' hv' :
  machine_ok m → mem_ok (g_mem g) → g_inited g = false →
  (∀ hv mf' bp', init_hypervisor m (g_mem g) mf bp = Done (hv, mf', bp') →
     ranges_sane p (region m) (take (Z.to_nat (mem_ranges_count bp')) (mem_ranges bp'))) →
  one_time_init m BootCpu g mf bp = Done (c', g') →
  (∃ hv, g_hypervisor g' = Some hv ∧ rtc (hv_step p MESSAGE_BUFFER) hv hv') →
  (∀ x, 0 ≤ x < vm_end p → page_isolated (hv_view p hv' x)) ∧
  (∀ x v, 0 ≤ x < vm_end p → region m x → owner (hv_view p hv' x v) = false ∧ access (hv_view p hv' x v) = false) ∧
  hv_wf p hv' ∧ hv_pages p hv' ≡ₚ heap m ∧ NoDup (hv_pages p hv').
Proof.
  intros Hm Hmem Hg Hsane H (hv & Hhv & Hrun).
  destruct (one_time_init_spec _ _ _ _ _ _ Hm Hmem Hg Hsane H) as (_ & _ & hv0 & Hhv0 & Hw & Hiso & Hp & Hr). simplify_eq.
  destruct (hv_run_preserved p MESSAGE_BUFFER _ _ Hrun Hw Hiso) as (Hw' & Hiso' & Hp' & Hs').
  assert (Hheap : hv_pages p hv' ≡ₚ heap m) by by rewrite <-Hp'.
  split_and!; [done| |apply Hw'..|done|rewrite Hheap; apply heap_NoDup].
  intros x v Hx Hreg. rewrite Hs', Hr; [done..|]. intros w. by rewrite Hr.
Qed.
End boot.

(** The ramdisk address that the Linux boot flow reads is a 64-bit number. *)
Lemma linux_initrd a mem n b e :
  mem_ok mem → plat_get_initrd_range (linux a) mem n = Done (Some (b, e)) → in_u 64 (pa b).
Proof.
  intros Hm. cbn. unfold find_initrd. intros ([f n1] & _ & H)%bind_Done_inv. destruct f; cbn [negb] in H; [|done].
  apply bind_Done_inv in H as ([v|] & Hv & H); [|done]. apply bind_Done_inv in H as ([w|] & _ & H); [|done]. injection H as <- <-. cbn.
  unfold read_number in Hv. apply bind_Done_inv in Hv as ([d|] & _ & Hv); [|done]. apply bind_Done_inv in Hv as ([k|] & Hk & Hv); [|done].
  injection Hv as ->. by eapply parse_number_ok.
Qed.
