(* ===== verification/Start.v ===== *)
(** * The first instruction of the primary VM

    [one_time_init] leaves the first vCPU of the primary VM ready at the entry point
    of the kernel; [cpu_main] gives it to the boot CPU.  Nothing in between, loading
    the secondaries included, touches the vCPUs of the primary. *)
From S2P Require Import Prelude Addr Mode Arch Mpool Mm MemoryManager Abi ArchCpu Interrupts Cpu Vm Memory Memiter Cpio Fdt Manifest FdtHandler.
From S2P Require Import BootFlow Hypervisor Load Init.

Section start.
Context {A : ArchMM} {RD : ReduceCrate} {LG : StaleLogs}.

(** What the boot CPU starts from: the CPUs, and the id and the vCPUs of the primary. *)
Definition first_vm (hv : Hypervisor) : option (Z * list VCpu) := (λ vm, (vm_id vm, vcpus vm)) <$> hv_vms hv !! 0%nat.
Definition same_start (hv hv' : Hypervisor) : Prop := hv_cpus hv' = hv_cpus hv ∧ first_vm hv' = first_vm hv.

Lemma same_start_trans hv1 hv2 hv3 : same_start hv1 hv2 → same_start hv2 hv3 → same_start hv1 hv3.
Proof. intros [] []. split; congruence. Qed.
Lemma same_start_vms hv hv' : hv_cpus hv' = hv_cpus hv → hv_vms hv' = hv_vms hv → same_start hv hv'.
Proof. intros Hc Hv. split; [done|]. unfold first_vm. by rewrite Hv. Qed.
Lemma same_start_inner v f st hv : same_start hv (upd_vm v (upd_vm_inner f) (set_mm st hv)).
Proof.
  split; [done|]. unfold first_vm, upd_vm. cbn [hv_vms set_vms set_mm]. destruct v as [|v].
  - rewrite list_lookup_alter_eq. by destruct (hv_vms hv !! 0%nat).
  - by rewrite list_lookup_alter_ne.
Qed.
Lemma same_start_other v k f hv : v ≠ 0%nat → same_start hv (upd_vc (v, k) f hv).
Proof. intros Hv. split; [done|]. unfold first_vm, upd_vc, upd_vm. cbn [hv_vms set_vms fst snd]. by rewrite list_lookup_alter_ne. Qed.

Lemma copy_start hv to it ok hv' : copy_to_unmapped hv to it = Done (ok, hv') →
  same_start hv hv' ∧ hv_vms hv' = hv_vms hv ∧ hv_links hv' = hv_links hv.
Proof.
  unfold copy_to_unmapped. cbv zeta. intros ([[ok1 hp] st] & _ & H)%bind_Done_inv. destruct ok1; cbn [negb] in H.
  - unfold assert_then in H. destruct (_ <=? _); [|done]. apply bind_Done_inv in H as ([[ok2 hp2] st2] & _ & H).
    destruct ok2; [|done]. injection H as <- <-. by split_and!; [apply same_start_vms|..].
  - injection H as <- <-. by split_and!; [apply same_start_vms|..].
Qed.
Lemma new_vm_start vms count st v vms' st' :
  new_vm vms count st = Done (v, vms', st') →
  match v with
  | Some v => v = length vms ∧ ∃ t, vms' = vms ++ [mkVm (wrap 16 (Z.of_nat (length vms) + HF_VM_ID_OFFSET))
      (replicate (Z.to_nat count) (VCpu_new (length vms)))
      (mkVmInner (stale_log (length vms)) t Mailbox_init (replicate (Z.to_nat MAX_VMS) (length vms))) false]
  | None => vms' = vms
  end.
Proof.
  unfold new_vm. destruct (_ <=? _); [by intros [= <- <- <-]|]. cbv zeta. intros ([r st1] & Hi & H)%bind_Done_inv.
  unfold Vm_init in Hi. apply bind_Done_inv in Hi as ([ri st2] & Hin & Hi). destruct ri as [inner|].
  - unfold VmInner_init in Hin. apply bind_Done_inv in Hin as ([[ok [t|]] st3] & _ & [= <- <-]). destruct (_ <? _); [done|]. injection Hi as <- <-. injection H as <- <- <-. eauto.
  - injection Hi as <- <-. by injection H as <- <- <-.
Qed.

(** Loading a secondary leaves the first VM alone. *)
Lemma start_secondary_start hw hv count b e hv' :
  hv_vms hv ≠ [] → start_secondary hw hv count b e = Done hv' → same_start hv hv' ∧ hv_vms hv' ≠ [].
Proof.
  intros Hne. unfold start_secondary. intros ([[v vms] st] & Hn & H)%bind_Done_inv. apply new_vm_start in Hn. cbv zeta in H.
  set (hv1 := set_vms vms (set_mm st hv)) in *.
  assert (H1 : same_start hv hv1 ∧ hv_vms hv1 ≠ []).
  { destruct v as [v|]; [|subst vms; by split; [apply same_start_vms|]]. destruct Hn as (_ & inner & ->).
    split; [split; [done|]|by destruct (hv_vms hv)]. unfold first_vm, hv1. cbn [hv_vms set_vms]. by destruct (hv_vms hv). }
  destruct v as [v|]; [|by injection H as <-]. destruct Hn as [-> _], H1 as [H1 Hne1].
  apply bind_Done_inv in H as (vm & _ & H). apply bind_Done_inv in H as ([[ok t] st2] & _ & H). cbv zeta in H.
  set (hv2 := upd_vm (length (hv_vms hv)) (upd_vm_inner (with_ptable t)) (set_mm st2 hv1)) in *.
  assert (H2 : same_start hv hv2) by (eapply same_start_trans; [exact H1|apply same_start_inner]).
  assert (Hne2 : hv_vms hv2 ≠ []).
  { intros E%(f_equal length). unfold hv2, upd_vm in E. cbn [hv_vms set_vms set_mm] in E. rewrite length_alter in E. by destruct (hv_vms hv1). }
  destruct ok; cbn [negb] in H; [|by injection H as <-]. apply bind_Done_inv in H as (c & _ & H). apply bind_Done_inv in H as (r & _ & H).
  apply bind_Done_inv in H as ([b' c'] & _ & [= <-]). split.
  - eapply same_start_trans; [exact H2|]. apply same_start_other. by destruct (hv_vms hv).
  - intros E%(f_equal length). unfold upd_vc, upd_vm in E. cbn [hv_vms set_vms] in E. rewrite length_alter in E. by destruct (hv_vms hv2).
Qed.

Context (tr : list Z) (lay : Layout).
Lemma load_vm_start hw hv cpio ranges mvm r hv' :
  hv_vms hv ≠ [] → load_vm tr hw hv cpio ranges mvm = Done (r, hv') → same_start hv hv' ∧ hv_vms hv' ≠ [].
Proof.
  intros Hne H. unfold load_vm, assert_then in H. destruct (utf8_ok _); [|done]. cbv zeta in H.
  apply bind_Done_inv in H as ([k|] & _ & H). 2:{ destruct (utf8_ok _); [|done]. injection H as <- <-. by split. }
  apply bind_Done_inv in H as (sz & _ & H). destruct (_ <? _); [injection H as <- <-; by split|].
  destruct (carve_out_mem_range ranges sz) as [[[b e]|] ranges']; [|injection H as <- <-; by split].
  apply bind_Done_inv in H as ([ok hv1] & Hc & H). apply copy_start in Hc as (Hs1 & Hv1 & _).
  destruct ok; cbn [negb] in H; [|injection H as <- <-; split; [done|by rewrite Hv1]].
  apply bind_Done_inv in H as (pi & _ & H). apply bind_Done_inv in H as (pv & _ & H). apply bind_Done_inv in H as (vm & _ & H).
  apply bind_Done_inv in H as ([[ok t] st] & _ & H). cbv zeta in H. set (hv2 := upd_vm pv _ _) in H.
  assert (Hs2 : same_start hv hv2) by (eapply same_start_trans; [exact Hs1|apply same_start_inner]).
  assert (Hne2 : hv_vms hv2 ≠ []).
  { intros E%(f_equal length). unfold hv2, upd_vm in E. cbn [hv_vms set_vms set_mm] in E. rewrite length_alter, Hv1 in E. by destruct (hv_vms hv). }
  destruct ok; cbn [negb] in H; [|by injection H as <- <-]. apply bind_Done_inv in H as (hv3 & H3 & [= <- <-]).
  apply start_secondary_start in H3 as [Hs3 ?]; [|done]. split; [|done]. by eapply same_start_trans.
Qed.
Lemma load_vms_start hw hv cpio ranges i vms r hv' :
  hv_vms hv ≠ [] → load_vms tr hw hv cpio ranges i vms = Done (r, hv') → same_start hv hv'.
Proof.
  revert hv ranges i. induction vms as [|mvm vms IH]; intros hv ranges i Hne H; cbn [load_vms] in H; [by injection H as <- <-|].
  cbv zeta in H. destruct (_ =? _); [by eapply IH|]. apply bind_Done_inv in H as ([r1 hv1] & H1 & H). apply load_vm_start in H1 as [Hs1 Hne1]; [|done].
  destruct r1 as [rs|]; [|by injection H as <- <-]. eapply same_start_trans; [exact Hs1|]. by eapply IH.
Qed.
Lemma load_secondary_start hw hv m cpio bp u r u' hv' :
  hv_vms hv ≠ [] → load_secondary tr hw hv m cpio bp u = Done (r, u', hv') → same_start hv hv'.
Proof.
  intros Hne H. unfold load_secondary, assert_then in H. destruct (_ =? _)%nat; [|done]. apply bind_Done_inv in H as (rs & _ & H).
  apply bind_Done_inv in H as ([r1 hv1] & H1 & H). apply load_vms_start in H1; [|done]. destruct r1; [|by injection H as <- <- <-].
  destruct (_ <=? _); [|done]. by apply bind_Done_inv in H as ([r2 u2] & _ & [= <- <- <-]).
Qed.

(** The vCPUs of the primary VM: the first is ready at the entry point. *)
Definition started (arg : Z) : list VCpu :=
  upd_inner (λ i, vcpu_on i (ipa_from_pa (layout_primary_begin lay)) arg) (VCpu_new 0) :: replicate (Z.to_nat MAX_CPUS - 1) (VCpu_new 0).
Lemma load_primary_start hv cpio arg r hv' :
  hv_vms hv = [] → load_primary tr lay hv cpio arg = Done (Ok r, hv') →
  hv_cpus hv' = hv_cpus hv ∧ hv_vms hv' ≠ [] ∧ first_vm hv' = Some (HF_PRIMARY_VM_ID, started arg).
Proof.
  intros Hnil H. unfold load_primary in H. cbv zeta in H. apply bind_Done_inv in H as ([it|] & _ & H); [|done].
  apply bind_Done_inv in H as ([ok hv1] & Hc & H). apply copy_start in Hc as ([Hc1 _] & Hv1 & _). destruct ok; cbn [negb] in H; [|done].
  apply bind_Done_inv in H as ([ird|] & _ & H); [|done]. apply bind_Done_inv in H as ([[v vms] st] & Hn & H). apply new_vm_start in Hn.
  destruct v as [v|]; [|done]. rewrite Hv1, Hnil in Hn. destruct Hn as (-> & inner & ->). cbn [length app] in *.
  apply bind_Done_inv in H as (vm & [= <-] & H). destruct (negb _); [done|]. apply bind_Done_inv in H as ([ok hv2] & Hst & H).
  destruct ok; [|done]. injection H as _ <-. unfold start_primary in Hst. apply bind_Done_inv in Hst as (vm & _ & Hst).
  apply bind_Done_inv in Hst as ([[ok t] st1] & _ & Hst). cbv zeta in Hst. destruct ok; cbn [negb] in Hst; [|done].
  apply bind_Done_inv in Hst as ([[ok t2] st2] & _ & Hst). cbv zeta in Hst. destruct ok; cbn [negb] in Hst; [|done].
  apply bind_Done_inv in Hst as (c & _ & [= <-]). split_and!; [exact Hc1|done|]. reflexivity.
Qed.

(** The argument of the kernel is the platform's. *)
Lemma find_memory_ranges_arg mem n bp ok bp' : find_memory_ranges mem n bp = Done (ok, bp') → kernel_arg bp' = kernel_arg bp.
Proof.
  unfold find_memory_ranges. intros (a & _ & (s & _ & H)%bind_Done_inv)%bind_Done_inv. apply bind_Done_inv in H as ([nm nd] & _ & H).
  destruct nm; [|by injection H as <- <-]. by apply bind_Done_inv in H as ([i rs] & _ & [= <- <-]).
Qed.
Lemma read_boot_arg plat mem n mf bp mf' bp' :
  read_boot plat mem n mf bp = Done (Ok tt, mf', bp') → kernel_arg bp' = plat_get_kernel_arg plat.
Proof.
  unfold read_boot. intros ([f n1] & _ & H)%bind_Done_inv. destruct f; cbn [negb] in H; [|done].
  apply bind_Done_inv in H as ([r mf1] & _ & H). destruct r; [|done]. apply bind_Done_inv in H as ([r1 bp1] & Hi & [= -> <- <-]).
  unfold BootParams_init in Hi. cbv zeta in Hi. apply bind_Done_inv in Hi as ([[b e]|] & Hr & Hi); [|done].
  apply bind_Done_inv in Hi as ([[k|] ids] & _ & Hi); [|done]. apply bind_Done_inv in Hi as ([ok bp2] & Hf & [= Hok <-]).
  by apply find_memory_ranges_arg in Hf.
Qed.
Lemma init_hypervisor_start m mem mf bp hv mf' bp' :
  init_hypervisor m mem mf bp = Done (hv, mf', bp') →
  hv_vms hv = [] ∧ kernel_arg bp' = plat_get_kernel_arg (m_plat m) ∧ cpu_id <$> hv_cpus hv !! 0%nat = Some (m_boot_cpu_id m).
Proof.
  unfold init_hypervisor. intros ([hp st] & _ & H)%bind_Done_inv. apply bind_Done_inv in H as ([[[[r mf1] bp1] hp1] st1] & Hb & H).
  apply bind_Done_inv in H as (u & Hr & H). destruct r as [[]|]; [|done]. unfold assert_then in H. destruct (_ <=? _); [|done].
  apply bind_Done_inv in H as (cpus & Hc & [= <- <- <-]). split_and!; [done| |].
  - unfold boot_flow_init in Hb. apply bind_Done_inv in Hb as ([[n t1] st0] & _ & Hb). destruct n as [n|]; [|done].
    apply bind_Done_inv in Hb as ([[ret mf2] bp2] & Hrb & Hb). apply bind_Done_inv in Hb as ([[ok t2] st2] & _ & [= Hok <- <- <- <-]).
    destruct ok; [|done]. subst ret. by eapply read_boot_arg.
  - unfold CpuManager_new in Hc. destruct (m_callstacks m); [done|]. destruct (negb _); [done|]. by injection Hc as <-.
Qed.
End start.

Section boot.
Context {A : ArchMM} {RD : ReduceCrate} {LG : StaleLogs}.

Lemma init_vms_start m hv mf bp u hv' :
  hv_vms hv = [] → init_vms m hv mf bp = Done (u, hv') →
  hv_cpus hv' = hv_cpus hv ∧ first_vm hv' = Some (HF_PRIMARY_VM_ID, started (m_layout m) (kernel_arg bp)).
Proof.
  intros Hnil H. unfold init_vms in H. apply bind_Done_inv in H as ([[ok hp] st] & _ & H). unfold assert_then in H. destruct ok; [|done]. cbv zeta in H.
  apply bind_Done_inv in H as ([r hv2] & Hpr & H). apply bind_Done_inv in H as (ird & Hird & H). destruct r as [ird'|]; [|done].
  apply load_primary_start in Hpr as (Hc & Hne & Hf); [|exact Hnil]. apply bind_Done_inv in H as ([[r u1] hv3] & Hsec & H).
  apply bind_Done_inv in H as (u2 & _ & [= <- <-]). apply load_secondary_start in Hsec as [Hc3 Hf3]; [|done].
  split; [by rewrite Hc3, Hc|by rewrite Hf3].
Qed.
Lemma one_time_init_start m g mf bp c' g' :
  g_inited g = false → one_time_init m BootCpu g mf bp = Done (c', g') →
  c' = Managed 0 ∧ g_inited g' = true ∧ ∃ hv, g_hypervisor g' = Some hv ∧ g_mem g' = hv_mem hv ∧
    cpu_id <$> hv_cpus hv !! 0%nat = Some (m_boot_cpu_id m) ∧
    first_vm hv = Some (HF_PRIMARY_VM_ID, started (m_layout m) (plat_get_kernel_arg (m_plat m))).
Proof.
  intros Hg H. unfold one_time_init in H. rewrite Hg, bool_decide_false in H by tauto. cbn [orb] in H.
  apply bind_Done_inv in H as ([[hv mf1] bp1] & Hi & H). apply init_hypervisor_start in Hi as (Hnil & Harg & Hcpu).
  apply bind_Done_inv in H as ([u hv1] & Hv & H). apply init_vms_start in Hv as [Hc1 Hf1]; [|done].
  apply bind_Done_inv in H as ([[[r mem] hp] st] & _ & H). apply bind_Done_inv in H as (u2 & _ & H). apply bind_Done_inv in H as ([hp' st'] & _ & [= <- <-]).
  split_and!; [done..|]. eexists. split_and!; [done..| |].
  - cbn. by rewrite Hc1.
  - rewrite Harg in Hf1. exact Hf1.
Qed.

(** C17: when [one_time_init] returns on the boot CPU, with any device tree, ramdisk
    and manifest, a second call does nothing, and [cpu_main] returns the first vCPU of
    the primary VM: ready, bound to this CPU and unlocked, with the program counter at
    the entry point of the kernel, the platform's argument in the first register and
    zero in the others, on the page table of the primary VM; the other vCPUs of the
    primary stay off. *)
Theorem boot_starts_primary (m : Machine) (g : Global) (mf : Manifest) (bp : BootParams) (hw : Hw) (c' : cpu_ptr) (g' : Global) :
  g_inited g = false → one_time_init m BootCpu g mf bp = Done (c', g') →
  one_time_init m BootCpu g' mf bp = Done (BootCpu, g') ∧
  ∃ hv hv' vm vc, g_hypervisor g' = Some hv ∧ cpu_main hw c' hv = Done ((primary_index, 0%nat), hv') ∧
    vm_of hv' primary_index = Done vm ∧ vm_id vm = HF_PRIMARY_VM_ID ∧ vcpus vm !! 0%nat = Some vc ∧
    vi_state (vc_inner vc) = VCpuStatus.Ready ∧ vi_cpu (vc_inner vc) = Some 0%nat ∧ vc_locked vc = false ∧
    pc (vi_regs (vc_inner vc)) = pa (layout_primary_begin (m_layout m)) ∧
    r (vi_regs (vc_inner vc)) = plat_get_kernel_arg (m_plat m) :: replicate 30 0 ∧
    vttbr_el2 (lazy (vi_regs (vc_inner vc))) = Z.lor (root (ptable (vm_inner vm))) (2 ^ 48) ∧
    (∀ k vc', vcpus vm !! S k = Some vc' → is_off (vc_inner vc') = true).
Proof.
  intros Hg H. destruct (one_time_init_start m g mf bp c' g' Hg H) as (-> & Hg' & hv & Hhv & _ & Hcpu & Hf). split.
  { unfold one_time_init. rewrite Hg'. by rewrite orb_true_r. }
  unfold first_vm in Hf. destruct (hv_vms hv !! 0%nat) as [vm|] eqn:Hvm; [|done]. injection Hf as Hid Hvc.
  destruct (hv_cpus hv !! 0%nat) as [cpu|] eqn:Hc; [|done]. change (Z.to_nat (HF_PRIMARY_VM_ID - HF_VM_ID_OFFSET)) with primary_index in *.
  change 0%nat with primary_index in Hvm. exists hv. unfold cpu_main, vcpu_of, vm_of. cbn [fst snd]. rewrite Hvm. cbn [unwrap_opt mbind exec_bind].
  rewrite Hvc. unfold started at 1. cbn [lookup list_lookup unwrap_opt mbind exec_bind]. rewrite Hc. cbn [unwrap_opt mbind exec_bind].
  do 3 eexists. split; [done|]. split; [done|]. unfold upd_vc, upd_vm. cbn [hv_vms set_vms fst snd]. rewrite list_lookup_alter_eq, Hvm. cbn [fmap option_fmap option_map unwrap_opt].
  split; [done|]. split; [done|]. cbn [upd_vcpu vcpus]. rewrite Hvc. split; [reflexivity|]. split_and!; try done.
  - cbn. by rewrite Hid.
  - intros k vc' Hk. unfold started in Hk. rewrite list_lookup_alter_ne in Hk by done. cbn [lookup list_lookup] in Hk.
    apply lookup_replicate in Hk as [-> _]. done.
Qed.
End boot.
