(* ===== verification/BootDemo.v ===== *)
(** * A machine that boots

    A concrete image, device tree and ramdisk on which [one_time_init] runs to its
    end: two CPUs, two memory ranges, the primary VM and one secondary. *)
From Stdlib Require Import String.
From S2P Require Import Prelude Addr Mode Arch ArchAarch64 Mpool Mm MmSpec MmMap MmTable PageTables MemoryManager.
From S2P Require Import Stage2Modes Abi ArchCpu Interrupts Cpu Vm Memory Memiter Cpio Fdt FdtLoops FdtTree Manifest ManifestSpec FdtHandler BootFlow.
From S2P Require Import Spci Hypervisor Load LoadRanges Init Api Frames Ownership Sharing Isolation LoadSpec Boot Start.

Module BootDemo.
Import Dt DtbDemo.
#[local] Existing Instance Demo.demo_reduce.
(** Three stale bytes in the log of every VM. *)
#[export] Instance stale : StaleLogs := λ _, [1; 2; 3].
#[local] Hint Extern 0 ArchMM => exact (aarch64 Aarch64.PA40) : typeclass_instances.

(** ** The device tree and the ramdisk *)
Definition FDT : Z := 0x43f00000.
Definition INITRD : Z := 0x44000000.

Definition file (s : string) (data : list Z) : Cpio.file := Cpio.mkFile (replicate 20 7) (str s) data.
Definition ramdisk : list Z := Eval vm_compute in
  Cpio.archive [file "vmlinuz" [1; 2; 3; 4; 5]; file "initrd.img" [6; 7; 8]; file "kernel" [9; 10; 11; 12]].

Definition root : tree :=
  Tree [] [prop "#address-cells" (word 2); prop "#size-cells" (word 2)]
    [Tree (str "memory@0") [prop "device_type" (cstr "memory");
       prop "reg" (be_bytes 8 0x80000000 ++ be_bytes 8 0x400000 ++ be_bytes 8 0x90000000 ++ be_bytes 8 0x10800)] [];
     Tree (str "cpus") [prop "#address-cells" (word 1)]
       [Tree (str "cpu@0") [prop "device_type" (cstr "cpu"); prop "reg" (word 7)] [];
        Tree (str "cpu@1") [prop "device_type" (cstr "cpu"); prop "reg" (word 5)] []];
     Tree (str "chosen") [prop "linux,initrd-start" (word INITRD);
       prop "linux,initrd-end" (word (INITRD + Z.of_nat (length ramdisk)))] [];
     Tree (str "hypervisor") [prop "compatible" (cstr "hafnium,hafnium")]
       [Tree (str "vm1") [prop "debug_name" (cstr "primary")] [];
        Tree (str "vm2") [prop "debug_name" (cstr "secondary"); prop "kernel_filename" (cstr "kernel");
          prop "mem_size" (word 0x100000); prop "vcpu_count" (word 2)] []]].
Definition struct_block : list Z := enc root ++ word 9.
Definition blob : list Z := Eval vm_compute in
  word FDT_MAGIC ++ word (56 + Z.of_nat (length struct_block) + Z.of_nat (length strings)) ++ word 56 ++
  word (56 + Z.of_nat (length struct_block)) ++ word 40 ++ word 17 ++ word 16 ++ word 0 ++
  word (Z.of_nat (length strings)) ++ word (Z.of_nat (length struct_block)) ++
  replicate 16 0 ++ struct_block ++ strings.

Definition mem : Mem := λ x,
  if x <? FDT then 0 else if x <? INITRD then default 0 (blob !! Z.to_nat (x - FDT)) else default 0 (ramdisk !! Z.to_nat (x - INITRD)).

(** ** The machine *)
Definition layout : Layout := {|
  layout_text_begin := pa_init 0x40000000; layout_text_end := pa_init 0x40004000;
  layout_rodata_begin := pa_init 0x40004000; layout_rodata_end := pa_init 0x40005800;
  layout_data_begin := pa_init 0x40006000; layout_data_end := pa_init 0x40060000;
  layout_initrd_begin := pa_init INITRD; layout_initrd_end := pa_init INITRD;
  layout_fdt_begin := pa_init FDT;
  layout_primary_begin := pa_init 0x41000000;
  PL011_BASE := 0x9000000;
  arch_mm_init := true;
|}.
Definition machine : Machine := {|
  m_layout := layout;
  m_plat := linux FDT;
  m_after_trailer := [0];
  m_hw := mkHw 0 0 1000000 0 0;
  m_ptable_buf := 0x40007000;
  m_boot_cpu_id := 5;
  m_callstacks := (λ i, 0x40050000 + i * 4096) <$> seqZ 0 8;
|}.
Definition global : Global := mkGlobal false None mem.
Definition params0 : BootParams :=
  mkBootParams (replicate 8 0) 0 (replicate 20 (mkMemRange (pa_init 0) (pa_init 0))) 0 (pa_init 0) (pa_init 0) 0.


(** The machine boots, with two VMs. *)
Definition boots (r : exec (cpu_ptr * Global)) : bool :=
  match r with
  | Done (Managed 0, g) => match g_hypervisor g with Some hv => (length (hv_vms hv) =? 2)%nat | None => false end
  | _ => false
  end.
Lemma machine_boots : boots (one_time_init machine BootCpu global (mkManifest []) params0) = true.
Proof. vm_compute. reflexivity. Qed.
Lemma boots_inv r :
  boots r = true → ∃ g hv, r = Done (Managed 0, g) ∧ g_hypervisor g = Some hv ∧ length (hv_vms hv) = 2%nat.
Proof.
  unfold boots. destruct r as [[[|[|]] g]|]; try done. destruct (g_hypervisor g) as [hv|] eqn:Hg; [|done].
  intros H%Nat.eqb_eq. by exists g, hv.
Qed.

(** The ranges read from the tree. *)
Definition ranges_of (r : exec (Hypervisor * Manifest * BootParams)) : option (list MemRange) :=
  match r with Done (_, _, bp) => Some (take (Z.to_nat (mem_ranges_count bp)) (mem_ranges bp)) | Panic => None end.
Definition range (b e : Z) : MemRange := mkMemRange (pa_init b) (pa_init e).
Lemma machine_ranges :
  ranges_of (init_hypervisor machine mem (mkManifest []) params0) = Some [range 0x80000000 0x80400000; range 0x90000000 0x90010800].
Proof. vm_compute. reflexivity. Qed.

Lemma boot_mem_bytes : mem_ok mem.
Proof.
  assert (Forall (in_u 8) blob) as Hb by (unfold in_u; by_computation). assert (Forall (in_u 8) ramdisk) as Hr by (unfold in_u; by_computation).
  intros x. unfold mem. destruct (_ <? _); [done|]. destruct (_ <? _).
  - destruct (blob !! _) as [b|] eqn:E; [|done]. by apply (Forall_lookup_1 _ _ _ _ Hb E).
  - destruct (ramdisk !! _) as [b|] eqn:E; [|done]. by apply (Forall_lookup_1 _ _ _ _ Hr E).
Qed.
Lemma machine_fine : machine_ok Aarch64.PA40 machine.
Proof.
  split; [..|intros mem n b e; apply linux_initrd]; vm_compute; repeat split; congruence.
Qed.

Lemma machine_sane hv mf bp :
  init_hypervisor machine mem (mkManifest []) params0 = Done (hv, mf, bp) →
  ranges_sane Aarch64.PA40 (hypervisor_region (SG := @Stage2 (aarch64 Aarch64.PA40)) layout) (take (Z.to_nat (mem_ranges_count bp)) (mem_ranges bp)).
Proof.
  intros H. pose proof machine_ranges as Hr. rewrite H in Hr. cbn [ranges_of] in Hr. injection Hr as ->. split_and!.
  - by_computation.
  - intros [|[|i]] [|[|j]] r s x; cbn [lookup list_lookup]; intros [= <-] [= <-]; unfold in_range; cbn [range r_begin r_end pa pa_init]; lia.
  - intros r x Hr Hx Hreg. assert (x < 0x80000000) as Hlt.
    { destruct Hreg as [[_ Hreg]|[[_ Hreg]|[_ Hreg]]]; (eapply Z.lt_le_trans; [exact Hreg|]); vm_compute; discriminate. }
    assert (0x80000000 ≤ x) as Hge; [|lia]. unfold in_range in Hx.
    apply elem_of_cons in Hr as [->|Hr]; [|apply list_elem_of_singleton in Hr as ->]; cbn [range r_begin r_end pa pa_init] in Hx; lia.
Qed.

Lemma boot_isolation_witness :
  ∃ hv, hv_wf Aarch64.PA40 hv ∧ length (hv_vms hv) = 2%nat ∧ NoDup (hv_pages Aarch64.PA40 hv).
Proof.
  destruct (boots_inv _ machine_boots) as (g & hv & H & Hg & Hl). exists hv.
  destruct (boot_isolation Aarch64.PA40 0 machine global (mkManifest []) params0 (Managed 0) g hv
    machine_fine boot_mem_bytes eq_refl machine_sane H (ex_intro _ hv (conj Hg (rtc_refl _ hv)))) as (_ & _ & Hw & _ & Hnd).
  exact (conj Hw (conj Hl Hnd)).
Defined.

(** The boot CPU runs the kernel at 0x41000000 with the address of the tree. *)
Lemma boot_starts_primary_witness :
  ∃ g hv hv' vm vc, one_time_init machine BootCpu global (mkManifest []) params0 = Done (Managed 0, g) ∧ g_hypervisor g = Some hv ∧
    cpu_main (m_hw machine) (Managed 0) hv = Done ((primary_index, 0%nat), hv') ∧ vm_of hv' primary_index = Done vm ∧ vcpus vm !! 0%nat = Some vc ∧
    pc (vi_regs (vc_inner vc)) = 0x41000000 ∧ r (vi_regs (vc_inner vc)) = FDT :: replicate 30 0.
Proof.
  destruct (boots_inv _ machine_boots) as (g & hv & Hb & Hhv & _).
  destruct (boot_starts_primary machine global (mkManifest []) params0 (m_hw machine) (Managed 0) g eq_refl Hb)
    as (_ & hv0 & hv' & vm & vc & Hhv0 & Hc & Hvm & _ & Hvc & _ & _ & _ & Hpc & Hr & _).
  exists g, hv0, hv', vm, vc. split_and!; [exact Hb|exact Hhv0|exact Hc|exact Hvm|exact Hvc|exact Hpc|exact Hr].
Defined.
End BootDemo.
