(* ===== verification/HvDemo.v ===== *)
(** * A small machine

    Two VMs on a machine with 40-bit physical addresses: the first owns four pages at
    [0x40000000], the second has an empty table.  The concrete state on which the
    theorems about the hypervisor are instantiated. *)
From S2P Require Import Prelude Addr Mode Arch ArchAarch64 Mpool Mm MmSpec MmMap MmTable PageTables MemoryManager.
From S2P Require Import Stage2Modes Abi ArchCpu Interrupts Cpu Vm Memory Spci Hypervisor Api Frames Ownership.
From S2P Require Import Sharing Isolation.

Module HvDemo.
#[local] Existing Instance Demo.demo_arch.
#[local] Existing Instance Demo.demo_laws.
Abbreviation PA := Aarch64.PA40.

Definition base : Z := 0x40000000.
Definition mapped4 : PageTable * MmState :=
  match identity_map (SG := @Stage2 Demo.demo_arch) Demo.table (pa_init base) (pa_init (base + 0x4000)) 7 Demo.st with
  | Done (true, t, st) => (t, st)
  | _ => (Demo.table, Demo.st)
  end.
Definition t1 : PageTable := mapped4.1.
Definition st : MmState := mapped4.2.
Definition t2 : PageTable :=
  mkPageTable 0x300000 (replicate (root_table_count (Stage := @Stage2 Demo.demo_arch))
                          (empty_table (SG := @Stage2 Demo.demo_arch))).
Definition hp : PageTable :=
  mkPageTable 0x400000 (replicate (root_table_count (Stage := @Stage1 Demo.demo_arch))
                          (empty_table (SG := @Stage1 Demo.demo_arch))).

Lemma mapped4_eq :
  identity_map (SG := @Stage2 Demo.demo_arch) Demo.table (pa_init base) (pa_init (base + 0x4000)) 7 Demo.st
  = Done (true, t1, st).
Proof. vm_compute. reflexivity. Qed.
Lemma mapped4_kept : kept (SG := @Stage2 Demo.demo_arch) Demo.table Demo.st t1 st.
Proof.
  refine (proj1 (identity_map_vm PA Demo.table base (base + 0x4000) 7 Demo.st true t1 st _ _ _ _ mapped4_eq)).
  - exact Demo.table_wf.
  - exact Demo.pool_inv_demo.
  - by_computation.
  - repeat split; vm_compute; congruence.
Qed.
Lemma t2_wf : wf_ptable (SG := @Stage2 Demo.demo_arch) t2.
Proof. apply (empty_ptable_wf 0x300000); [|vm_compute; congruence]. repeat split; vm_compute; congruence. Qed.
Lemma hp_wf : wf_ptable (SG := @Stage1 Demo.demo_arch) hp.
Proof. apply (empty_ptable_wf 0x400000); [|vm_compute; congruence]. repeat split; vm_compute; congruence. Qed.

Definition inner (v : nat) (t : PageTable) : VmInner := mkVmInner [] t Mailbox_init (replicate 16 v).
Definition vm (v : nat) (t : PageTable) : Vm := mkVm (Z.of_nat v + 1) [VCpu_new v] (inner v t) false.
Lemma inner1_wf : wf_ptable (SG := @Stage2 Demo.demo_arch) (ptable (inner 0 t1)).
Proof. destruct mapped4_kept as [H _]. exact H. Qed.
Lemma inner2_wf : wf_ptable (SG := @Stage2 Demo.demo_arch) (ptable (inner 1 t2)).
Proof. exact t2_wf. Qed.
Lemma st_ok : st_inv st.
Proof. by destruct mapped4_kept as (_ & H & _). Qed.
Definition hv : Hypervisor :=
  mkHypervisor st hp [Cpu_new 0 0x500000 true] [vm 0 t1; vm 1 t2] (mkLinked ∅ ∅) (λ _, 0).

(** The same machine with both vCPUs ready, the first on the CPU. *)
Definition ready (v : nat) : VCpu :=
  upd_inner (with_cpu (Some 0%nat)) (upd_inner (with_state VCpuStatus.Ready) (VCpu_new v)).
Definition hv_ready : Hypervisor :=
  set_vms [mkVm 1 [ready 0] (inner 0 t1) false; mkVm 2 [ready 1] (inner 1 t2) false] hv.

Lemma hv_wf_demo : hv_wf PA hv.
Proof.
  split_and!; [|exact hp_wf|exact st_ok|by intros x].
  intros [|[|v]] id t [= <- <-]; (split; [done|]); [exact inner1_wf|exact inner2_wf].
Qed.

Lemma t2_mode x : 0 ≤ x < vm_end PA → vm_mode PA t2 x = None.
Proof. intros Hx. unfold vm_mode, t2. by rewrite (empty_ptable_mapping 0x300000 x Hx). Qed.

(** A page only one VM may have claims to. *)
Lemma page_isolated_one (f : nat → option Z) : (∀ v, v ≠ 0%nat → f v = None) → page_isolated f.
Proof.
  intros Hf. assert (H0 : ∀ i j, i = j ∨ f i = None ∨ f j = None).
  { intros i j. destruct (decide (i = 0%nat)) as [->|Hi]; [|right; left; by apply Hf].
    destruct (decide (j = 0%nat)) as [->|Hj]; [by left|right; right; by apply Hf]. }
  split; intros i j; (destruct (H0 i j) as [?|[->| ->]]; [done|by intros ?..]).
Qed.
Lemma hv_isolated_demo : isolated PA hv.
Proof.
  intros x Hx. apply page_isolated_one. intros [|[|v]] Hv; [done| |done].
  unfold hv_view. cbn. by rewrite t2_mode.
Qed.
Lemma hv_pages_demo : NoDup (hv_pages PA hv).
Proof. by_computation. Qed.
End HvDemo.
