(* ===== verification/Guarantees.v ===== *)
(** * What the hypervisor guarantees about memory

    The theorems on memory of the whole hypervisor, from the invariant of
    [Isolation]: VMs stay isolated from each other, the hypervisor's memory stays out
    of reach, and the sharing hypercalls do what they promise. *)
From S2P Require Import Prelude Addr Mode Arch ArchAarch64 Mpool Mm MmSpec MmMap MmTable PageTables MemoryManager.
From S2P Require Import Stage2Modes Abi ArchCpu Interrupts Cpu Vm Memory Spci Hypervisor Api Frames Ownership.
From S2P Require Import Sharing Isolation Rollback HvDemo.

Section guarantees.
Context (p : Aarch64.pa_bits) {RD : ReduceCrate} (MESSAGE_BUFFER : Z).
#[local] Hint Extern 0 ArchMM => exact (aarch64 p) : typeclass_instances.
#[local] Hint Extern 0 (ArchLaws _) => exact (aarch64_laws p) : typeclass_instances.

(** Isolation of the VMs.  In every state reached by any sequence of
    hypercalls, made by any vCPU with any arguments, and any writes of guests to
    memory: for each page at most one VM owns it, at most one VM has access to a page
    it does not own, and a VM with exclusive access is the only one with access.  All
    page tables stay well formed and no page of the pool is lost or used twice. *)
Theorem memory_isolation hv0 hv :
  hv_wf p hv0 → isolated p hv0 → NoDup (hv_pages p hv0) → rtc (hv_step p MESSAGE_BUFFER) hv0 hv →
  (∀ x, 0 ≤ x < vm_end p → page_isolated (hv_view p hv x)) ∧ hv_wf p hv ∧
  hv_pages p hv ≡ₚ hv_pages p hv0 ∧ NoDup (hv_pages p hv).
Proof.
  intros Hwf Hiso Hnd Hrun. destruct (hv_run_preserved p MESSAGE_BUFFER _ _ Hrun Hwf Hiso) as (Hw & Hi & Hp & _).
  split_and!; [exact Hi|apply Hw..|by rewrite Hp|by rewrite <-Hp].
Qed.

(** Memory no VM can use, such as the hypervisor's own, stays so: if no VM
    owns or can access an address, then no sequence of hypercalls and guest writes
    gives a VM ownership of it or access to it. *)
Theorem hypervisor_memory_protected hv0 hv x :
  hv_wf p hv0 → isolated p hv0 → rtc (hv_step p MESSAGE_BUFFER) hv0 hv → 0 ≤ x < vm_end p →
  (∀ v, owner (hv_view p hv0 x v) = false ∧ access (hv_view p hv0 x v) = false) →
  ∀ v, owner (hv_view p hv x v) = false ∧ access (hv_view p hv x v) = false.
Proof.
  intros Hwf Hiso Hrun Hx Hs. destruct (hv_run_preserved p MESSAGE_BUFFER _ _ Hrun Hwf Hiso) as (_ & _ & _ & Hsec).
  intros v. rewrite Hsec by (done || (intros w; apply Hs)). apply Hs.
Qed.

(** Views after the tables of two VMs have been replaced. *)
Lemma view_two hv hv' from to idf idt ft' tot' x v :
  vtabs hv' = <[to := (idt, tot')]> (<[from := (idf, ft')]> (vtabs hv)) →
  (from < length (vtabs hv))%nat → (to < length (vtabs hv))%nat → from ≠ to →
  hv_view p hv' x v = if decide (v = to) then vm_mode p tot' x
                      else if decide (v = from) then vm_mode p ft' x else hv_view p hv x v.
Proof.
  intros Hv Hf Ht Hne. unfold hv_view. rewrite Hv. destruct (decide (v = to)) as [->|].
  - by rewrite list_lookup_insert_eq by by rewrite length_insert.
  - rewrite list_lookup_insert_ne by done. destruct (decide (v = from)) as [->|].
    + by rewrite list_lookup_insert_eq.
    + by rewrite list_lookup_insert_ne.
Qed.

Lemma vm_range_wadd b n : in_u 64 b → in_u 64 n → vm_range p b (b +w n) → b +w n = b + n.
Proof.
  intros Hb Hn (_ & _ & Hlt & _). unfold in_u in *. destruct (decide (b + n < 2 ^ 64)) as [|Hge]; [apply wadd_small; lia|].
  exfalso. assert (b +w n = b + n - 2 ^ 64) as Hw; [|lia].
  unfold wadd, wrap. symmetry. apply (Z.mod_unique_pos _ _ 1); lia.
Qed.

(** The effect of a [share_memory] call that returns. *)
Lemma share_memory_effect hv id addr size share c ok hv' :
  hv_wf p hv → in_u 64 addr → in_u 64 size →
  share_memory hv id (ipa_init addr) size share c = Done (ok, hv') →
  let to := Z.to_nat (id - 1) in
  (ok = true → 1 ≤ id ∧ to ≠ c.1 ∧ vm_range p addr (addr + size) ∧ ∀ x, addr ≤ x < addr + size →
     pair_closed (hv_view p hv x c.1) (hv_view p hv x to) ∧
     hv_view p hv' x c.1 = norm (share_modes share).1 ∧ hv_view p hv' x to = norm (share_modes share).2 ∧
     hv_mem hv' x = 0) ∧
  (∀ x v, 0 ≤ x < vm_end p →
     ok = false ∨ ¬ addr ≤ x < addr + size ∨ v ≠ c.1 ∧ v ≠ to → hv_view p hv' x v = hv_view p hv x v) ∧
  (∀ x, ¬ addr ≤ x < addr + size → hv_mem hv' x = hv_mem hv x).
Proof.
  intros Hwf Hu Hn H to.
  destruct (share_memory_inv p _ _ _ _ _ _ _ _ Hwf Hu H)
    as [[-> Hhv]|(to' & fv & tv & e & orig & ft' & tot' & hp' & mem' & st' & Hf & Ht & Hne & Hid & He & Hr & Ho & Hx & Htr & Hm1 & Hm2 & Hhv)].
  { assert (vtabs hv' = vtabs hv ∧ hv_mem hv' = hv_mem hv) as [Hv Hm] by (by destruct Hhv as [->| ->]).
    split_and!; [done| |intros x _; by rewrite Hm]. intros x v _ _. unfold hv_view. by rewrite Hv. }
  assert (Hto : to' = to) by (unfold to; lia). clearbody to. subst to'. subst e.
  pose proof (vm_range_wadd addr size Hu Hn Hr) as Hadd. rewrite Hadd in *. clear Hadd.
  assert (Hvt : vtabs hv' = <[to := (vm_id tv, tot')]> (<[c.1 := (vm_id fv, ft')]> (vtabs hv))).
  { rewrite Hhv. change (vtabs (set_mm _ (set_mem _ (set_hv_ptable _ ?h)))) with (vtabs h).
    rewrite (vtabs_upd_inner to _ _ tv), (vtabs_upd_inner c.1 _ _ fv) by (done || (cbn; by rewrite list_lookup_alter_ne)). done. }
  pose proof (vtabs_lookup _ _ _ Hf) as Hlf. pose proof (vtabs_lookup _ _ _ Ht) as Hlt.
  assert (Hview : ∀ x v, hv_view p hv' x v = if decide (v = to) then vm_mode p tot' x
    else if decide (v = c.1) then vm_mode p ft' x else hv_view p hv x v).
  { intros x v. eapply view_two; [exact Hvt|by eapply lookup_lt_Some|by eapply lookup_lt_Some|done]. }
  assert (Hof : ∀ x, hv_view p hv x c.1 = vm_mode p (ptable (vm_inner fv)) x) by (intros x; unfold hv_view; by rewrite Hlf).
  assert (Hot : ∀ x, hv_view p hv x to = vm_mode p (ptable (vm_inner tv)) x) by (intros x; unfold hv_view; by rewrite Hlt).
  assert (Hmem : hv_mem hv' = mem') by by rewrite Hhv.
  destruct Htr as (_ & _ & Hmo). split_and!.
  - intros ->. split; [lia|]. split; [congruence|]. split; [done|]. intros x Hxr.
    assert (Hxe : 0 ≤ x < vm_end p) by (destruct Hr as (_ & _ & ? & ?); lia).
    destruct (Hmo x Hxe) as [Hmf Hmt]. unfold new_mode in Hmf, Hmt. rewrite bool_decide_true in Hmf, Hmt by done.
    rewrite !Hview, decide_False, !decide_True, Hof, Hot, Hmem by done.
    split_and!; [by apply Hx|done|done|by apply Hm2].
  - intros x v Hxe Hc. rewrite Hview. destruct (Hmo x Hxe) as [Hmf Hmt]. unfold new_mode in Hmf, Hmt.
    destruct (decide (v = to)) as [->|]; [|destruct (decide (v = c.1)) as [->|]; [|done]].
    + rewrite Hmt, Hot. destruct Hc as [->|[Hc|[_ ?]]]; [done| |done].
      rewrite bool_decide_false by done. by rewrite andb_false_r.
    + rewrite Hmf, Hof. destruct Hc as [->|[Hc|[? _]]]; [done| |done].
      rewrite bool_decide_false by done. by rewrite andb_false_r.
  - intros x Hxr. rewrite Hmem. destruct (Hm1 x) as [?|[? _]]; [done|lia].
Qed.

(** C4: [share_memory] on success has given the page-aligned region of the sender
    to the recipient with exactly the modes of the requested kind of sharing, after
    checking that the two VMs hold every claim to it, and has overwritten the region
    with zeros; the hypervisor no longer maps the region, and its other mappings are
    unchanged.  Outside of the region, for other VMs, and when it fails, no VM's
    access or ownership changes; memory outside of the region never changes.  The call
    returns, also when it has to undo its changes for want of pages, if the id of the
    recipient is not 0, and if the region is in the first 512 GiB and not mapped in the
    hypervisor; with the id 0 and beyond 512 GiB the code panics. *)
Theorem share_memory_correct hv id addr size share c :
  hv_wf p hv → in_u 64 addr → in_u 64 size →
  let to := Z.to_nat (id - 1) in
  (∀ ok hv', share_memory hv id (ipa_init addr) size share c = Done (ok, hv') →
     (ok = true → 1 ≤ id ∧ to ≠ c.1 ∧ vm_range p addr (addr + size) ∧
        (∀ x, addr ≤ x < addr + size →
           pair_closed (hv_view p hv x c.1) (hv_view p hv x to) ∧
           hv_view p hv' x c.1 = norm (share_modes share).1 ∧ hv_view p hv' x to = norm (share_modes share).2 ∧
           hv_mem hv' x = 0) ∧
        hp_after p true addr (addr + size) (hv_ptable hv) (hv_ptable hv')) ∧
     (∀ x v, 0 ≤ x < vm_end p →
        ok = false ∨ ¬ addr ≤ x < addr + size ∨ v ≠ c.1 ∧ v ≠ to → hv_view p hv' x v = hv_view p hv x v) ∧
     (∀ x, ¬ addr ≤ x < addr + size → hv_mem hv' x = hv_mem hv x)) ∧
  (is_Some (hv_vms hv !! c.1) → 1 ≤ id → addr + size ≤ 2 ^ 39 → hp_clear p (hv_ptable hv) addr (addr + size) →
   ∃ ok hv', share_memory hv id (ipa_init addr) size share c = Done (ok, hv')).
Proof.
  intros Hwf Hu Hn to. split.
  - intros ok hv' H. destruct (share_memory_effect _ _ _ _ _ _ _ _ Hwf Hu Hn H) as (Hok & Hv & Hm). split_and!; [|done..].
    intros ->. destruct (Hok eq_refl) as (? & ? & Hr & Hx). split_and!; [done|done|apply Hr..|done|].
    destruct (share_memory_hp p _ _ _ _ _ _ _ _ Hwf Hu H) as [[_ ?]|[Hr' [Ha|[? _]]]]; [done| |done].
    by rewrite (vm_range_wadd addr size Hu Hn Hr') in Ha.
  - intros [fv Hf] Hid He Hc. by eapply share_memory_runs.
Qed.

(** C18: [configure] accepts only two different page-aligned pages which the
    calling VM owns and has exclusively, and a VM that is not configured yet.  It then
    takes their ownership away, leaves the VM read and write access to the send page
    and read access to the receive page, stores the pages in the mailbox, and maps
    those in the first 512 GiB in the hypervisor: the send page read-only, the receive
    page writable, the rest of the hypervisor's mappings unchanged.  When it fails,
    the mailbox, the modes of all pages and the hypervisor's mappings are as before,
    but that the send page is not mapped in the hypervisor if the roll-back got so
    far: so nothing at all changes if it was not mapped there before.  It returns, also
    when it has to undo its changes, if the pages are in the first 512 GiB and the
    hypervisor does not map the send page. *)
Theorem configure_correct i send recv hp st :
  wf_ptable (SG := @Stage2 (aarch64 p)) (ptable i) → wf_ptable (SG := @Stage1 (aarch64 p)) hp → st_inv st →
  in_u 64 send → in_u 64 recv →
  (∀ ok i' hp' st', configure i (ipa_init send) (ipa_init recv) hp st = Done (ok, i', hp', st') →
     configured p ok send recv i hp st i' hp' st' ∧ (ok = true → configurable p i send recv) ∧
     (ok = false → hp_clear p hp send (send + 4096) → ∀ x, 0 ≤ x < 2 ^ 39 → s1_mapping p hp' x = s1_mapping p hp x)) ∧
  (send + 4096 ≤ 2 ^ 39 → recv + 4096 ≤ 2 ^ 39 → hp_clear p hp send (send + 4096) →
   ∃ r, configure i (ipa_init send) (ipa_init recv) hp st = Done r).
Proof.
  intros. split; [|intros; by apply configure_runs]. intros ok i' hp' st' H'. apply (configure_spec p) in H' as [Hc Hok]; [|done..].
  split; [done|]. split; [auto|]. intros -> Hclear x Hx. destruct Hc as (_ & _ & _ & _ & _ & _ & Hs).
  destruct (Hs x Hx) as [?|[Hin ->]]; [done|]. by rewrite Hclear.
Qed.

(** C19: [spci_share_memory] always returns, also when it has to undo its changes.  On
    success it exchanges exactly the region of the first constituent, between VMs whose
    modes of it were [orig] and [orig_to], to the modes which the transition table of
    the request gives; when it fails no mode changes.  Either way the tables stay well
    formed and no page is lost. *)
Theorem spci_share_memory_correct to_i from_i mem region attrs share hp st :
  sound3 p (ptable from_i) (ptable to_i) hp st → mem_ok mem → in_u 3 attrs →
  ∃ ret to_i' from_i' st', spci_share_memory false to_i from_i mem region attrs share st = Done (ret, to_i', from_i', st') ∧
  ∃ ft' tot' b e fm tm, to_i' = with_ptable tot' to_i ∧ from_i' = with_ptable ft' from_i ∧
    transferred p (bool_decide (ret = Success)) b e fm tm (ptable from_i) (ptable to_i) hp st ft' tot' hp st' ∧
    (ret = Success → b = constituent_address mem (region_constituents region) ∧
       e = b + constituent_page_count mem (region_constituents region) * 4096 ∧ vm_range p b e ∧
       ∃ orig orig_to, spci_msg_get_next_state (transition_table share) attrs orig orig_to = Ok (fm, tm) ∧
         ∀ x, b ≤ x < e → vm_mode p (ptable from_i) x = norm orig ∧ vm_mode p (ptable to_i) x = norm orig_to).
Proof.
  intros Hs Hm Ha. pose proof Hs as (Hf & Ht & _ & Hst).
  destruct (spci_share_memory_runs p false to_i from_i mem region attrs share st Hf Ht Hst Hm Ha) as [[[[ret to_i'] from_i'] st'] H].
  exists ret, to_i', from_i', st'. split; [exact H|].
  exact (spci_share_memory_spec p to_i from_i mem region attrs share hp st ret to_i' from_i' st' Hs Hm Ha H).
Qed.
End guarantees.

(** ** On the small machine *)
#[local] Existing Instance Demo.demo_reduce.
#[local] Hint Extern 0 ArchMM => exact (aarch64 Aarch64.PA40) : typeclass_instances.

(** The first VM gives its first page to the second. *)
Definition demo_given : bool * Hypervisor :=
  match share_memory HvDemo.hv 2 (ipa_init HvDemo.base) 0x1000 Give (0%nat, 0%nat) with
  | Done r => r
  | Panic => (false, HvDemo.hv)
  end.
Lemma demo_given_ok :
  match share_memory HvDemo.hv 2 (ipa_init HvDemo.base) 0x1000 Give (0%nat, 0%nat) with
  | Done (ok, _) => ok
  | Panic => false
  end = true.
Proof. vm_compute. reflexivity. Qed.
Lemma demo_given_eq :
  share_memory HvDemo.hv 2 (ipa_init HvDemo.base) 0x1000 Give (0%nat, 0%nat) = Done (true, demo_given.2).
Proof.
  pose proof demo_given_ok as H. unfold demo_given.
  destruct (share_memory _ _ _ _ _ _) as [[ok hv]|]; [|discriminate]. by rewrite H.
Qed.
Lemma demo_given_run : rtc (hv_step Aarch64.PA40 0x600000) HvDemo.hv demo_given.2.
Proof.
  apply rtc_once. apply (step_call _ _ demo_hw 0 0 0 _ (0%nat, 0%nat) (CShareMemory 2 HvDemo.base 0x1000 0)).
  - by split.
  - cbn [hv_exec]. unfold api_share_memory. change (HfShare_try_from 0) with (Ok Give : result HfShare unit).
    cbv iota. rewrite demo_given_eq. reflexivity.
Qed.

Lemma memory_isolation_witness : page_isolated (hv_view Aarch64.PA40 demo_given.2 HvDemo.base).
Proof.
  refine (proj1 (memory_isolation Aarch64.PA40 0x600000 HvDemo.hv demo_given.2 _ _ _ _) HvDemo.base _).
  - exact HvDemo.hv_wf_demo.
  - exact HvDemo.hv_isolated_demo.
  - exact HvDemo.hv_pages_demo.
  - exact demo_given_run.
  - vm_compute. split; congruence.
Defined.

Lemma hypervisor_memory_protected_witness :
  owner (hv_view Aarch64.PA40 demo_given.2 0x400000 1) = false ∧
  access (hv_view Aarch64.PA40 demo_given.2 0x400000 1) = false.
Proof.
  refine (hypervisor_memory_protected Aarch64.PA40 0x600000 HvDemo.hv demo_given.2 0x400000 _ _ _ _ _ 1%nat).
  - exact HvDemo.hv_wf_demo.
  - exact HvDemo.hv_isolated_demo.
  - exact demo_given_run.
  - vm_compute. split; congruence.
  - intros [|[|v]]; vm_compute; split; reflexivity.
Defined.

(** The hypervisor does not map the page. *)
Lemma demo_clear : hp_clear Aarch64.PA40 (hv_ptable HvDemo.hv) HvDemo.base (HvDemo.base + 0x1000).
Proof.
  intros x Hx. apply (empty_ptable_mapping (SG := @Stage1 Demo.demo_arch) 0x400000 x).
  change (ptable_end (SG := @Stage1 Demo.demo_arch)) with (2 ^ 39). unfold HvDemo.base in Hx. lia.
Qed.

Lemma share_memory_witness :
  (∃ ok hv', share_memory HvDemo.hv 2 (ipa_init HvDemo.base) 0x1000 Give (0%nat, 0%nat) = Done (ok, hv')) ∧
  hv_view Aarch64.PA40 demo_given.2 HvDemo.base 1 = Some 7 ∧ hv_view Aarch64.PA40 demo_given.2 HvDemo.base 0 = None.
Proof.
  destruct (share_memory_correct Aarch64.PA40 HvDemo.hv 2 HvDemo.base 0x1000 Give (0%nat, 0%nat))
    as (H & Hret); [exact HvDemo.hv_wf_demo|by split|by split|].
  split; [apply Hret; [by eexists|lia|vm_compute; discriminate|exact demo_clear]|].
  destruct (H true demo_given.2 demo_given_eq) as (Hok & _). destruct (Hok eq_refl) as (_ & _ & _ & Hx & _). destruct (Hx HvDemo.base) as (_ & Hf & Ht & _); [vm_compute; split; congruence|].
  split; [exact Ht|exact Hf].
Defined.

(** The first VM configures its first two pages as mailbox. *)
Definition demo_configured : bool * VmInner * PageTable * MmState :=
  match configure (HvDemo.inner 0 HvDemo.t1) (ipa_init HvDemo.base) (ipa_init (HvDemo.base + 0x1000)) HvDemo.hp HvDemo.st with
  | Done r => r
  | Panic => (false, HvDemo.inner 0 HvDemo.t1, HvDemo.hp, HvDemo.st)
  end.
Lemma demo_configured_eq :
  configure (HvDemo.inner 0 HvDemo.t1) (ipa_init HvDemo.base) (ipa_init (HvDemo.base + 0x1000)) HvDemo.hp HvDemo.st
  = Done (true, demo_configured.1.1.2, demo_configured.1.2, demo_configured.2).
Proof. vm_compute. reflexivity. Qed.

Lemma configure_witness :
  vm_mode Aarch64.PA40 (ptable demo_configured.1.1.2) (HvDemo.base + 0x1000) = norm recv_mode.
Proof.
  destruct (configure_correct Aarch64.PA40 (HvDemo.inner 0 HvDemo.t1) HvDemo.base (HvDemo.base + 0x1000) HvDemo.hp HvDemo.st)
    as [H _]; [exact HvDemo.inner1_wf|exact HvDemo.hp_wf|exact HvDemo.st_ok|by split|by split|].
  destruct (H true demo_configured.1.1.2 demo_configured.1.2 demo_configured.2 demo_configured_eq)
    as [(_ & _ & _ & _ & _ & Hx & _) _].
  apply (Hx (HvDemo.base + 0x1000)). vm_compute. split; congruence.
Defined.

(** A message at [0x600000] that donates the page at [HvDemo.base]. *)
Definition demo_region : Mem := wr 4 (wr 8 (λ _, 0) 0x600008 HvDemo.base) 0x600010 1.
Lemma spci_share_memory_witness : ∃ ret to_i' from_i' st',
  spci_share_memory false (HvDemo.inner 1 HvDemo.t2) (HvDemo.inner 0 HvDemo.t1) demo_region 0x600000 7
    SpciMemoryShare.Donate HvDemo.st = Done (ret, to_i', from_i', st') ∧ ∃ tot', to_i' = with_ptable tot' (HvDemo.inner 1 HvDemo.t2).
Proof.
  destruct (spci_share_memory_correct Aarch64.PA40 (HvDemo.inner 1 HvDemo.t2) (HvDemo.inner 0 HvDemo.t1) demo_region
    0x600000 7 SpciMemoryShare.Donate HvDemo.hp HvDemo.st)
    as (ret & to_i' & from_i' & st' & Heq & ft' & tot' & _ & _ & _ & _ & H & _).
  - split_and!; [exact HvDemo.inner1_wf|exact HvDemo.inner2_wf|exact HvDemo.hp_wf|exact HvDemo.st_ok].
  - unfold demo_region. by do 2 apply mem_ok_wr.
  - by split.
  - exists ret, to_i', from_i', st'. split; [exact Heq|]. exists tot'. exact H.
Defined.
