(* ===== verification/Running.v ===== *)
(** * Running vCPUs

    The execution lock of a vCPU decides which physical CPU may run it: [vcpu_run]
    takes it, and it is released when the registers of the vCPU have been saved.  No
    vCPU is ever handed out twice, and only the primary VM hands out vCPUs that may
    run. *)
From S2P Require Import Prelude Addr Mode Arch ArchAarch64 Mpool Mm PageTables MemoryManager Abi ArchCpu.
From S2P Require Import Interrupts Cpu Vm Memory Spci Hypervisor Api Frames Isolation HvDemo.

(** ** The execution locks *)
Definition vlocks (vm : Vm) : Z * list bool := (vm_id vm, vc_locked <$> vcpus vm).
Definition lock_of (hv : Hypervisor) (c : vref) : option bool :=
  hv_vms hv !! c.1 ≫= λ vm, (vlocks vm).2 !! c.2.

Lemma vlocks_upd k f vm : (∀ v, vc_locked (f v) = vc_locked v) → vlocks (upd_vcpu k f vm) = vlocks vm.
Proof.
  intros Hf. unfold vlocks. cbn. f_equal. apply list_eq. intros i. rewrite !list_lookup_fmap.
  destruct (decide (i = k)) as [->|]; [|by rewrite list_lookup_alter_ne].
  rewrite list_lookup_alter_eq. destruct (vcpus vm !! k); [|done]. cbn. by rewrite Hf.
Qed.
Lemma vlocks_inner f vm : vlocks (upd_vm_inner f vm) = vlocks vm.
Proof. done. Qed.
Lemma vlocks_quiet : quiet vlocks.
Proof. split; intros; try done; by apply vlocks_upd. Qed.
Lemma vlocks_quiet_mailbox : quiet_mailbox vlocks.
Proof. done. Qed.
Lemma vlocks_quiet_log : quiet_log vlocks.
Proof. done. Qed.
#[export] Hint Resolve vlocks_quiet vlocks_quiet_mailbox vlocks_quiet_log : hfo2.

Lemma lock_of_same hv hv' c : vlocks <$> hv_vms hv' = vlocks <$> hv_vms hv → lock_of hv' c = lock_of hv c.
Proof.
  intros H. unfold lock_of. apply (f_equal (lookup c.1)) in H. rewrite !list_lookup_fmap in H.
  destruct (hv_vms hv' !! c.1) as [vm'|], (hv_vms hv !! c.1) as [vm|]; try done.
  cbn [mbind option_bind]. by apply (inj Some) in H as ->.
Qed.
Lemma lock_of_frame L hv hv' c : frame L vlocks hv hv' → lock_of hv' c = lock_of hv c.
Proof. intros H. by apply lock_of_same, H. Qed.

Lemma vcpu_of_Some hv c v : vcpu_of hv c = Done v → ∃ vm, hv_vms hv !! c.1 = Some vm ∧ vcpus vm !! c.2 = Some v.
Proof.
  unfold vcpu_of. intros (vm & Hvm%vm_of_Some & H)%bind_Done_inv. exists vm. split; [done|].
  unfold unwrap_opt in H. destruct (vcpus vm !! c.2); by simplify_eq.
Qed.
Lemma lock_of_vcpu hv c v : vcpu_of hv c = Done v → lock_of hv c = Some (vc_locked v).
Proof.
  intros (vm & Hvm & Hv)%vcpu_of_Some. unfold lock_of. rewrite Hvm. cbn. by rewrite list_lookup_fmap, Hv.
Qed.

Lemma get_vm_Some vms id v :
  get_vm vms id = Done (Some v) → HF_VM_ID_OFFSET ≤ id ∧ v = Z.to_nat (id - HF_VM_ID_OFFSET) ∧ (v < length vms)%nat.
Proof.
  unfold get_vm, get_vm_index, assert_then. destruct (Z.leb_spec HF_VM_ID_OFFSET id); [|done].
  cbn [mbind exec_bind]. destruct (Nat.ltb_spec (Z.to_nat (id - HF_VM_ID_OFFSET)) (length vms)); [|done].
  intros [= <-]. done.
Qed.

(** ** Preparing a vCPU *)

(** When a vCPU whose lock is free may run. *)
Definition may_run (now : Z) (vm : Vm) (v : VCpu) : Prop :=
  aborting vm = false ∧
  match vi_state (vc_inner v) with
  | VCpuStatus.Ready => True
  | VCpuStatus.BlockedMailbox =>
      mb_state (mailbox (vm_inner vm)) = MailboxState.Received ∨
      is_interrupted (vc_interrupts v) = true ∨ arch_timer_pending now (vi_regs (vc_inner v)) = true
  | VCpuStatus.BlockedInterrupt =>
      is_interrupted (vc_interrupts v) = true ∨ arch_timer_pending now (vi_regs (vc_inner v)) = true
  | _ => False
  end.

Lemma prepare_locked_spec hw n1 n2 vm v cpu ret res vm' v' :
  prepare_locked hw n1 n2 vm v cpu ret = (res, vm', v') →
  vlocks vm' = vlocks vm ∧ vc_locked v' = vc_locked v ∧ (is_ok res = true ↔ may_run n1 vm v) ∧
  (is_ok res = true → vi_cpu (vc_inner v') = cpu).
Proof.
  unfold prepare_locked, may_run. intros H. destruct (aborting vm).
  { simplify_eq. split_and!; [done| |naive_solver|done]. by case_bool_decide. }
  destruct (vi_state (vc_inner v)); try (simplify_eq; split_and!; cbn; naive_solver).
  - unfold try_read in H. case_bool_decide as Hr.
    + simplify_eq. split_and!; [done..|naive_solver|done].
    + destruct (is_interrupted _), (arch_timer_pending _ _); cbn in H; simplify_eq;
        (split_and!; [done..| |done]; cbn; naive_solver).
  - destruct (is_interrupted _), (arch_timer_pending _ _); cbn in H; simplify_eq;
      (split_and!; [done..| |done]; cbn; naive_solver).
Qed.

Lemma lock_of_put hv v vm vm' w b :
  hv_vms hv !! v.1 = Some vm → vlocks vm' = vlocks vm → is_Some (lock_of hv v) → vc_locked w = b →
  ∀ c, lock_of (upd_vm v.1 (λ _, upd_vcpu v.2 (λ _, w) vm') hv) c = if decide (c = v) then Some b else lock_of hv c.
Proof.
  intros Hv Hl Hs <- c. unfold lock_of, upd_vm. cbn [hv_vms set_vms].
  destruct c as [c1 c2], v as [v1 v2]. cbn [fst snd] in *. destruct (decide (c1 = v1)) as [->|Hne].
  2:{ rewrite list_lookup_alter_ne by done. rewrite decide_False by naive_solver. done. }
  rewrite list_lookup_alter_eq, Hv. cbn. rewrite list_lookup_fmap.
  assert (Hlk : vc_locked <$> vcpus vm' = vc_locked <$> vcpus vm) by (unfold vlocks in Hl; congruence).
  destruct (decide (c2 = v2)) as [->|Hne].
  - rewrite list_lookup_alter_eq, decide_True by done. destruct Hs as [b Hb]. unfold lock_of in Hb. cbn in Hb.
    rewrite Hv in Hb. cbn in Hb. rewrite <-Hlk, list_lookup_fmap in Hb. by destruct (vcpus vm' !! v2).
  - rewrite list_lookup_alter_ne, decide_False by naive_solver. by rewrite <-Hlk, list_lookup_fmap.
Qed.

Lemma vcpu_prepare_run_spec hw n1 n2 hv c v ret r hv' :
  vcpu_prepare_run hw n1 n2 hv c v ret = Done (r, hv') →
  match r with
  | Ok v' => v' = v ∧ lock_of hv v = Some false ∧
      (∀ c, lock_of hv' c = if decide (c = v) then Some true else lock_of hv c) ∧
      (∃ vm vc, hv_vms hv !! v.1 = Some vm ∧ vcpus vm !! v.2 = Some vc ∧ may_run n1 vm vc) ∧
      ∃ vc' cur, vcpu_of hv' v = Done vc' ∧ vcpu_of hv c = Done cur ∧ vi_cpu (vc_inner vc') = vi_cpu (vc_inner cur)
  | Err _ => ∀ c, lock_of hv' c = lock_of hv c
  end.
Proof.
  intros H. unfold vcpu_prepare_run in H. apply bind_Done_inv in H as (vc & Hvc & H).
  pose proof (lock_of_vcpu _ _ _ Hvc) as Hlk. destruct (vcpu_of_Some _ _ _ Hvc) as (vm & Hvm & Hvcs).
  unfold vcpu_try_lock in H. destruct (vc_locked vc) eqn:Hl; cbn [negb] in H; [by simplify_eq|].
  apply bind_Done_inv in H as (vm0 & Hvm0%vm_of_Some & H). rewrite Hvm in Hvm0. injection Hvm0 as <-.
  apply bind_Done_inv in H as (cur & Hcur & H).
  destruct (prepare_locked _ _ _ _ _ _ _) as [[res vm'] v'] eqn:Hp.
  apply prepare_locked_spec in Hp as (Hvl & Hl' & Hok & Hcpu). cbv zeta in H. cbn in Hl'.
  assert (Hget : ∀ w, vcpu_of (upd_vm v.1 (λ _, upd_vcpu v.2 (λ _, w) vm') hv) v = Done w).
  { intros w. unfold vcpu_of, vm_of, upd_vm. cbn [hv_vms set_vms]. rewrite list_lookup_alter_eq, Hvm. cbn.
    rewrite list_lookup_alter_eq. apply (f_equal (λ l, l.2 !! v.2)) in Hvl. unfold vlocks in Hvl. cbn in Hvl.
    rewrite !list_lookup_fmap, Hvcs in Hvl. by destruct (vcpus vm' !! v.2). }
  destruct res as [u|]; injection H as <- <-.
  - split_and!; [done..| | |].
    + by apply (lock_of_put hv v vm).
    + exists vm, vc. split_and!; [done..|]. destruct Hok as [Hok _]. exact (Hok eq_refl).
    + exists v', cur. split_and!; [apply Hget|done|by apply Hcpu].
  - intros c'. rewrite (lock_of_put hv v vm vm' _ false) by done. destruct (decide _) as [->|]; [done|done].
Qed.

Lemma vcpu_run_spec hw n1 n2 n3 hv id idx c r hv' :
  vcpu_run hw n1 n2 n3 hv id idx c = Done (r, hv') →
  match r with
  | Ok v =>
      (∃ cur, hv_vms hv !! c.1 = Some cur ∧ vm_id cur = HF_PRIMARY_VM_ID) ∧ id ≠ HF_PRIMARY_VM_ID ∧
      v = (Z.to_nat (id - HF_VM_ID_OFFSET), Z.to_nat idx) ∧ lock_of hv v = Some false ∧
      (∃ vm vc, hv_vms hv !! v.1 = Some vm ∧ vcpus vm !! v.2 = Some vc ∧ may_run n1 vm vc) ∧
      (∀ c', lock_of hv' c' = if decide (c' = v) then Some true else lock_of hv c') ∧
      ∃ vc' cur, vcpu_of hv' v = Done vc' ∧ vcpu_of hv c = Done cur ∧ vi_cpu (vc_inner vc') = vi_cpu (vc_inner cur)
  | Err _ => ∀ c', lock_of hv' c' = lock_of hv c'
  end.
Proof.
  intros H. unfold vcpu_run in H. apply bind_Done_inv in H as (cur & Hcur%vm_of_Some & H).
  destruct (Z.eqb_spec (vm_id cur) HF_PRIMARY_VM_ID) as [Hp|]; cbn [negb] in H; [|by simplify_eq].
  destruct (Z.eqb_spec id HF_PRIMARY_VM_ID) as [|Hid]; [by simplify_eq|].
  apply bind_Done_inv in H as (v & Hv & H). destruct v as [v|]; [|by simplify_eq].
  apply get_vm_Some in Hv as (_ & -> & _).
  apply bind_Done_inv in H as (vm & _ & H). destruct (vcpus vm !! _); [|by simplify_eq].
  apply bind_Done_inv in H as ([r1 hv1] & Hpr & H). apply vcpu_prepare_run_spec in Hpr.
  destruct r1 as [l|]; [|by simplify_eq]. destruct Hpr as (-> & Hfree & Hlocks & Hmay & vc' & cur' & Hvc' & Hcur' & Hcpu).
  apply bind_Done_inv in H as (vc & Hvc & H). rewrite Hvc in Hvc'. injection Hvc' as <-.
  destruct (arch_timer_pending _ _).
  2:{ injection H as <- <-. split_and!; [by exists cur|done..|by exists vc, cur']. }
  apply bind_Done_inv in H as ([[a b] hv2] & Hi & [= <- <-]).
  pose proof (internal_inject_frame vlocks vlocks_quiet false _ _ _ _ _ _ _ _ _ Hi) as Hfi.
  split_and!; [by exists cur|done|done|done|done| |].
  - intros c'. rewrite <-Hlocks, <-(lock_of_frame _ _ _ _ Hfi). apply (lock_of_frame false), frame_vc_inner, vlocks_quiet.
  - (** The injection and the masking of the timer keep the CPU. *)
    unfold internal_interrupt_inject in Hi. rewrite Hvc in Hi. cbn [mbind exec_bind] in Hi.
    destruct (vcpu_of_Some _ _ _ Hvc) as (vm1 & Hvm1 & Hvc1). destruct (inject _ _) as [ok ints]. cbv zeta in Hi.
    set (vr := (Z.to_nat (id - HF_VM_ID_OFFSET), Z.to_nat idx)) in *. clearbody vr.
    assert (hv2 = upd_vc vr (upd_interrupts ints) hv1) as ->.
    { destruct ok; [|by simplify_eq]. apply bind_Done_inv in Hi as (? & _ & Hi). destruct (_ =? _); [by simplify_eq|].
      rewrite bool_decide_true in Hi by done. cbn [negb] in Hi. by simplify_eq. }
    exists (upd_inner (with_regs arch_timer_mask) (upd_interrupts ints vc)), cur'. split_and!; [|done..].
    unfold vcpu_of, vm_of, upd_vc, upd_vm. cbn [hv_vms set_vms]. rewrite !list_lookup_alter_eq, Hvm1.
    cbn [fmap option_fmap option_map unwrap_opt mbind exec_bind vcpus upd_vcpu].
    by rewrite !list_lookup_alter_eq, Hvc1.
Qed.

Lemma vcpu_run_locks hw n1 n2 n3 hv id idx c v hv' :
  vcpu_run hw n1 n2 n3 hv id idx c = Done (Ok v, hv') →
  lock_of hv v = Some false ∧ ∀ x, lock_of hv' x = if decide (x = v) then Some true else lock_of hv x.
Proof. intros (_ & _ & _ & ? & _ & ? & _)%vcpu_run_spec. done. Qed.
Lemma vcpu_refused_locks hw n1 n2 n3 hv id idx c ret hv' :
  vcpu_run hw n1 n2 n3 hv id idx c = Done (Err ret, hv') → ∀ x, lock_of hv' x = lock_of hv x.
Proof. intros H. exact (vcpu_run_spec _ _ _ _ _ _ _ _ _ _ H). Qed.

(** C14: [vcpu_run] hands out a vCPU only to the primary VM, only a vCPU of another
    VM whose execution lock is free, whose VM is not aborting and which may run: it is
    ready, or blocked with a message, an interrupt or its timer due.  It then holds
    the execution lock, no other lock has changed, and the vCPU is bound to the
    physical CPU of the caller.  When [vcpu_run] refuses, every lock is as before. *)
Theorem vcpu_run_correct hw n1 n2 n3 hv id idx c r hv' :
  vcpu_run hw n1 n2 n3 hv id idx c = Done (r, hv') →
  match r with
  | Ok v =>
      (∃ cur, hv_vms hv !! c.1 = Some cur ∧ vm_id cur = HF_PRIMARY_VM_ID) ∧ id ≠ HF_PRIMARY_VM_ID ∧
      v = (Z.to_nat (id - HF_VM_ID_OFFSET), Z.to_nat idx) ∧ lock_of hv v = Some false ∧
      (∃ vm vc, hv_vms hv !! v.1 = Some vm ∧ vcpus vm !! v.2 = Some vc ∧ may_run n1 vm vc) ∧
      (∀ c', lock_of hv' c' = if decide (c' = v) then Some true else lock_of hv c') ∧
      ∃ vc' cur, vcpu_of hv' v = Done vc' ∧ vcpu_of hv c = Done cur ∧ vi_cpu (vc_inner vc') = vi_cpu (vc_inner cur)
  | Err _ => ∀ c', lock_of hv' c' = lock_of hv c'
  end.
Proof. exact (vcpu_run_spec hw n1 n2 n3 hv id idx c r hv'). Qed.

(** ** No vCPU runs twice *)
Section runs.
Context (p : Aarch64.pa_bits) {RD : ReduceCrate} (MESSAGE_BUFFER : Z).
#[local] Hint Extern 0 ArchMM => exact (aarch64 p) : typeclass_instances.

(** Calls that neither run a vCPU nor save its registers. *)
Definition keeps_locks (call : hv_call) : bool := negb (vcpu_call call).

Lemma lock_of_upd_inner v f hv c : lock_of (upd_vm v (upd_vm_inner f) hv) c = lock_of hv c.
Proof. apply (lock_of_frame false). by apply frame_upd_vm. Qed.

Lemma msg_send_locks hw now hv a c r next hv' :
  spci_msg_send MESSAGE_BUFFER hw now hv a c = Done (r, next, hv') → ∀ x, lock_of hv' x = lock_of hv x.
Proof.
  intros H x. unfold spci_msg_send in H. cbv zeta in H. apply bind_Done_inv in H as (fv & Hf & H).
  destruct (_ =? 0); [by simplify_eq|]. apply assert_then_Done in H as [_ H]. destruct (negb _); [by simplify_eq|].
  destruct (_ <? _); [by simplify_eq|]. destruct (_ =? _); [by simplify_eq|].
  apply bind_Done_inv in H as (to & _ & H). destruct to as [to|]; [|by simplify_eq].
  apply bind_Done_inv in H as (tv & Ht%vm_of_Some & H). destruct (negb _ || negb _).
  { destruct (bf_contains a NOTIFY); [|by simplify_eq].
    apply bind_Done_inv in H as ([[b i] lk] & Hw & [= <- <- <-]).
    by eapply (lock_of_frame false), wait_for_frame. }
  destruct (bf_contains _ _).
  { apply assert_then_Done in H as [_ H]. by apply (deliver_frame vlocks vlocks_quiet false), (lock_of_frame _ _ _ x) in H. }
  apply bind_Done_inv in H as (cur & _ & H). apply bind_Done_inv in H as (cpu & _ & H).
  apply bind_Done_inv in H as (buffer & _ & H). destruct (_ <? _); [by simplify_eq|]. destruct (_ <? _); [by simplify_eq|].
  apply assert_then_Done in H as [_ H].
  apply bind_Done_inv in H as ([[[[ret to_i] from_i] mem] st] & _ & H).
  assert (Hin : lock_of (set_mm st (set_mem mem (set_inner c.1 from_i (set_inner to to_i hv)))) x = lock_of hv x).
  { change (lock_of (set_mm _ (set_mem _ ?h)) x) with (lock_of h x). unfold set_inner. by rewrite !lock_of_upd_inner. }
  destruct (negb _); [by simplify_eq|].
  by apply (deliver_frame vlocks vlocks_quiet false), (lock_of_frame _ _ _ x) in H as ->.
Qed.

Lemma share_memory_locks hv id addr size share c ok hv' :
  share_memory hv id addr size share c = Done (ok, hv') → ∀ x, lock_of hv' x = lock_of hv x.
Proof.
  intros H x. unfold share_memory in H. cbv zeta in H. apply bind_Done_inv in H as (fv & _ & H).
  destruct (_ =? _); [by simplify_eq|]. apply bind_Done_inv in H as (to & _ & H).
  destruct to as [to|]; [|by simplify_eq]. apply bind_Done_inv in H as (tv & _ & H).
  destruct (negb _ || negb _); [by simplify_eq|]. destruct (share_modes share) as [fm tm].
  apply bind_Done_inv in H as (r & _ & H). destruct r as [orig|]; [|by simplify_eq].
  apply bind_Done_inv in H as ([[[[[ok1 ft'] tot'] hp'] mem'] st'] & _ & [= <- <-]).
  change (lock_of (set_mm _ (set_mem _ (set_hv_ptable _ ?h))) x) with (lock_of h x). by rewrite !lock_of_upd_inner.
Qed.

Lemma configure_locks hw now hv s rv c r next hv' :
  vm_configure hw now hv s rv c = Done (r, next, hv') → ∀ x, lock_of hv' x = lock_of hv x.
Proof.
  intros H x. unfold vm_configure in H. apply bind_Done_inv in H as (vm & _ & H).
  apply bind_Done_inv in H as ([[[ok i] hp] st] & _ & H). cbv zeta in H.
  set (h1 := set_mm st _) in H.
  assert (Hh : lock_of h1 x = lock_of hv x).
  { unfold h1. change (lock_of (set_mm _ (set_hv_ptable _ ?h)) x) with (lock_of h x). apply lock_of_upd_inner. }
  destruct (negb ok); [by simplify_eq|].
  by apply (waiter_result_frame vlocks vlocks_quiet false), (lock_of_frame _ _ _ x) in H as ->.
Qed.

Lemma exec_locks hw n1 n2 n3 hv c call hv' :
  keeps_locks call = true → hv_exec p MESSAGE_BUFFER hw n1 n2 n3 hv c call = Done (Some hv') →
  ∀ x, lock_of hv' x = lock_of hv x.
Proof.
  intros Hk H x. destruct (memory_call call) eqn:Hm.
  2:{ eapply (lock_of_frame false), exec_frame; eauto with hfo2. by destruct call. }
  destruct call; try done; clear Hk Hm; cbn [hv_exec] in H.
  - apply bind_Done_inv in H as ([[??]?] & H & [= <-]). by eapply configure_locks.
  - apply bind_Done_inv in H as ([[??]?] & H & [= <-]). apply bind_Done_inv in H as ([[??]?] & H & [= <- <- <-]).
    by eapply msg_send_locks.
  - apply bind_Done_inv in H as ([??] & H & [= <-]). unfold api_share_memory in H.
    destruct (HfShare_try_from share); [|by simplify_eq].
    apply bind_Done_inv in H as ([??] & H & [= <- <-]). by eapply share_memory_locks.
Qed.

(** The hypervisor with the vCPUs that are on some physical CPU: those [vcpu_run]
    has handed out and whose registers have not been saved since. *)
Inductive run_step : Hypervisor * list vref → Hypervisor * list vref → Prop :=
| run_vcpu hw n1 n2 n3 hv rs id idx c v hv' :
    vcpu_run hw n1 n2 n3 hv id idx c = Done (Ok v, hv') → run_step (hv, rs) (hv', v :: rs)
| run_refused hw n1 n2 n3 hv rs id idx c ret hv' :
    vcpu_run hw n1 n2 n3 hv id idx c = Done (Err ret, hv') → run_step (hv, rs) (hv', rs)
| run_saved hv rs c hv' :
    c ∈ rs → api_regs_state_saved hv c = Done hv' → run_step (hv, rs) (hv', filter (λ v, v ≠ c) rs)
| run_other hw n1 n2 n3 hv rs c call hv' :
    keeps_locks call = true → hv_exec p MESSAGE_BUFFER hw n1 n2 n3 hv c call = Done (Some hv') →
    run_step (hv, rs) (hv', rs).

Definition run_inv (s : Hypervisor * list vref) : Prop :=
  NoDup s.2 ∧ ∀ v, v ∈ s.2 → lock_of s.1 v = Some true.

Lemma regs_state_saved_locks hv c hv' x :
  api_regs_state_saved hv c = Done hv' → x ≠ c → lock_of hv' x = lock_of hv x.
Proof.
  intros (vm & Hvm%vm_of_Some & [= <-])%bind_Done_inv Hne. destruct (negb _); [|done].
  unfold lock_of, upd_vc, upd_vm. cbn [hv_vms set_vms]. destruct (decide (x.1 = c.1)) as [He|].
  - rewrite He, list_lookup_alter_eq, Hvm. cbn. rewrite !list_lookup_fmap.
    rewrite list_lookup_alter_ne; [done|]. destruct x, c. cbn in *. congruence.
  - by rewrite list_lookup_alter_ne.
Qed.

Lemma run_step_inv s s' : run_inv s → run_step s s' → run_inv s'.
Proof.
  intros [Hnd Hl] Hs. destruct Hs as [hw n1 n2 n3 hv rs id idx c v hv' H|hw n1 n2 n3 hv rs id idx c ret hv' H|hv rs c hv' Hc H|
    hw n1 n2 n3 hv rs c call hv' Hk H]; cbn [fst snd] in *.
  - apply vcpu_run_locks in H as [Hfree Hlocks]. split; cbn.
    + apply NoDup_cons. split; [|done]. intros Hin. rewrite (Hl v Hin) in Hfree. done.
    + intros x Hx. rewrite Hlocks. destruct (decide (x = v)); [done|]. apply elem_of_cons in Hx as [|]; [done|auto].
  - split; [done|]. intros x Hx. cbn in *. rewrite (vcpu_refused_locks _ _ _ _ _ _ _ _ _ _ H). auto.
  - split; cbn.
    + by apply NoDup_filter.
    + intros x [Hne Hx]%list_elem_of_filter. rewrite (regs_state_saved_locks _ _ _ _ H Hne). auto.
  - split; [done|]. intros x Hx. cbn in *. rewrite (exec_locks _ _ _ _ _ _ _ _ Hk H). auto.
Qed.

(** No vCPU is ever on two physical CPUs: through any sequence of hypercalls
    on any CPUs, the vCPUs handed out by [vcpu_run] and not yet saved are pairwise
    different, and each of them is locked. *)
Theorem vcpu_never_runs_twice hv0 hv rs :
  rtc run_step (hv0, []) (hv, rs) → NoDup rs ∧ ∀ v, v ∈ rs → lock_of hv v = Some true.
Proof.
  intros Hrun. assert (run_inv (hv, rs)) as [H1 H2]; [|done].
  refine (rtc_ind_r run_inv (hv0, []) _ _ (hv, rs) Hrun).
  - split; [constructor|]. intros v Hv. by apply elem_of_nil in Hv.
  - intros s s' _ Hs Hi. by eapply run_step_inv.
Qed.
End runs.

(** ** On the small machine *)
Definition demo_vcpu_run : result vref HfVCpuRunReturn * Hypervisor :=
  match vcpu_run demo_hw 0 0 0 HvDemo.hv_ready 2 0 (0%nat, 0%nat) with
  | Done r => r
  | Panic => (Err Preempted, HvDemo.hv_ready)
  end.
Lemma demo_vcpu_run_ok :
  match vcpu_run demo_hw 0 0 0 HvDemo.hv_ready 2 0 (0%nat, 0%nat) with
  | Done (r, _) => bool_decide (r = Ok (1%nat, 0%nat))
  | Panic => false
  end = true.
Proof. vm_compute. reflexivity. Qed.
Lemma demo_vcpu_run_eq :
  vcpu_run demo_hw 0 0 0 HvDemo.hv_ready 2 0 (0%nat, 0%nat) = Done (Ok (1%nat, 0%nat), demo_vcpu_run.2).
Proof.
  pose proof demo_vcpu_run_ok as H. unfold demo_vcpu_run.
  destruct (vcpu_run _ _ _ _ _ _ _ _) as [[r hv]|]; [|discriminate].
  apply bool_decide_eq_true in H. by rewrite H.
Qed.

Lemma vcpu_run_witness : lock_of demo_vcpu_run.2 (1%nat, 0%nat) = Some true.
Proof.
  destruct (vcpu_run_correct demo_hw 0 0 0 HvDemo.hv_ready 2 0 (0%nat, 0%nat) (Ok (1%nat, 0%nat)) demo_vcpu_run.2)
    as (_ & _ & _ & _ & _ & H & _); [exact demo_vcpu_run_eq|].
  exact (H (1%nat, 0%nat)).
Defined.

Lemma vcpu_never_runs_twice_witness :
  NoDup [(1%nat, 0%nat)] ∧ ∀ v, v ∈ [(1%nat, 0%nat)] → lock_of demo_vcpu_run.2 v = Some true.
Proof.
  apply (vcpu_never_runs_twice Aarch64.PA40 (RD := Demo.demo_reduce) 0x600000 HvDemo.hv_ready demo_vcpu_run.2).
  eapply rtc_once, run_vcpu. exact demo_vcpu_run_eq.
Defined.
