(* ===== verification/Mailboxes.v ===== *)
(** * The lists of waiting VMs

    A VM that finds a mailbox full may ask to be notified: its wait entry joins the
    waiter list of that mailbox, moves to its own ready list when the mailbox can be
    written again, and leaves it when the VM fetches the notification.  The links of
    the entries, the lists and the owners of the entries stay consistent. *)
From stdpp Require Import gmap.
From S2P Require Import Prelude Addr Mode Arch ArchAarch64 Mpool Mm PageTables MemoryManager Abi ArchCpu.
From S2P Require Import Interrupts Cpu Vm Memory Spci Hypervisor Api Frames Isolation HvDemo Running.

(** ** Lists that partition a set *)

(** The entries of [S] are in the lists [q], each once, and in the list its key
    allows. *)
Record partitioned (k : entry → nat → Prop) (q : nat → list entry) (S : gset entry) : Prop := {
  pt_key w e : e ∈ q w → k e w;
  pt_once w : NoDup (q w);
  pt_set e : e ∈ S ↔ ∃ w, e ∈ q w;
}.

Lemma partitioned_ext k q q' S : (∀ w, q' w = q w) → partitioned k q S → partitioned k q' S.
Proof.
  intros Hq [Hk Ho Hs]. split; intros ?; [intros ?|..]; rewrite ?Hq; eauto. rewrite Hs. by setoid_rewrite Hq.
Qed.
Lemma partitioned_push k q S w e :
  partitioned k q S → e ∉ S → k e w →
  partitioned k (λ v, if decide (v = w) then q w ++ [e] else q v) (S ∪ {[e]}).
Proof.
  intros [Hk Ho Hs] Hn Hke. split.
  - intros v x. destruct (decide (v = w)) as [->|]; [|eauto]. intros [?| ->%list_elem_of_singleton]%elem_of_app; eauto.
  - intros v. destruct (decide (v = w)) as [->|]; [|eauto]. apply NoDup_app.
    split_and!; [eauto| |apply NoDup_singleton]. intros x Hx ->%list_elem_of_singleton. apply Hn, Hs. eauto.
  - intros x. rewrite elem_of_union, Hs, elem_of_singleton. split.
    + intros [[v Hv]| ->]; [exists v|exists w].
      * destruct (decide (v = w)) as [->|]; [by apply elem_of_app; left|done].
      * rewrite decide_True by done. apply elem_of_app. right. by apply list_elem_of_singleton.
    + intros [v Hv]. destruct (decide (v = w)) as [->|]; [|eauto].
      apply elem_of_app in Hv as [?| ->%list_elem_of_singleton]; [eauto|by right].
Qed.
Lemma partitioned_pop k q S w e l :
  partitioned k q S → (∀ e v v', k e v → k e v' → v = v') → q w = e :: l →
  partitioned k (λ v, if decide (v = w) then l else q v) (S ∖ {[e]}).
Proof.
  intros [Hk Ho Hs] Hf Hq. pose proof (Ho w) as How. rewrite Hq in How. apply NoDup_cons in How as [Hne Hnd].
  assert (Hin : ∀ x, x ∈ l → x ∈ q w) by (intros x Hx; rewrite Hq; by right).
  split.
  - intros v x. destruct (decide (v = w)) as [->|]; eauto.
  - intros v. destruct (decide (v = w)) as [->|]; [done|eauto].
  - intros x. rewrite elem_of_difference, Hs, elem_of_singleton. split.
    + intros [[v Hv] Hx]. exists v. destruct (decide (v = w)) as [->|]; [|done].
      rewrite Hq in Hv. by apply elem_of_cons in Hv as [->|].
    + intros [v Hv]. destruct (decide (v = w)) as [->|Hvw].
      * split; [eauto|]. intros ->. done.
      * split; [eauto|]. intros ->. apply Hvw, (Hf e); apply Hk; [done|]. rewrite Hq. by left.
Qed.

(** ** The lists of the mailboxes *)
Definition waiters_of (hv : Hypervisor) (v : nat) : list entry :=
  default [] ((λ vm, waiter_list (mailbox (vm_inner vm))) <$> hv_vms hv !! v).
Definition ready_of (hv : Hypervisor) (v : nat) : list entry :=
  default [] ((λ vm, ready_list (mailbox (vm_inner vm))) <$> hv_vms hv !! v).

(** The entry of VM [e.1] for the mailbox of the VM with id [e.2]. *)
Definition waits_for (n : nat) (e : entry) (w : nat) : Prop := e.2 = S w ∧ (e.1 < n)%nat ∧ (e.2 < 16)%nat.
Definition owned_by (e : entry) (v : nat) : Prop := e.1 = v.

(** VMs are numbered from 1 and own their entries; waiter lists hold the entries
    that wait for the VM, ready lists entries of the VM; an entry's links are in use
    exactly when it is in a list of that kind, and then it is in it once. *)
Record mailboxes_ok (hv : Hypervisor) : Prop := {
  mo_vm v vm : hv_vms hv !! v = Some vm →
    vm_id vm = Z.of_nat v + 1 ∧ wait_entries (vm_inner vm) = replicate 16 v;
  mo_waiting : partitioned (waits_for (length (hv_vms hv))) (waiters_of hv) (wait_linked (hv_links hv));
  mo_ready : partitioned owned_by (ready_of hv) (ready_linked (hv_links hv));
}.

(** What they depend on. *)
Definition ilists (i : VmInner) : list nat * list entry * list entry :=
  (wait_entries i, waiter_list (mailbox i), ready_list (mailbox i)).
(** With the buffer of the debug log. *)
Definition iwhole (i : VmInner) : list nat * list entry * list entry * list Z := (ilists i, log_buffer i).
Lemma iwhole_lists i i' : iwhole i' = iwhole i → ilists i' = ilists i.
Proof. by intros [= ? ? ?]; unfold ilists; congruence. Qed.
Definition vlists (vm : Vm) : Z * (list nat * list entry * list entry) := (vm_id vm, ilists (vm_inner vm)).
Lemma vlists_quiet : quiet vlists.
Proof. by split. Qed.
Lemma vlists_quiet_vcpu : quiet_vcpu vlists.
Proof. done. Qed.
Lemma vlists_quiet_log : quiet_log vlists.
Proof. done. Qed.
#[export] Hint Resolve vlists_quiet vlists_quiet_vcpu vlists_quiet_log : hfo2.

Lemma mailboxes_ok_same hv hv' :
  vlists <$> hv_vms hv' = vlists <$> hv_vms hv → hv_links hv' = hv_links hv → mailboxes_ok hv → mailboxes_ok hv'.
Proof.
  intros Hv Hl [Hvm Hw Hr].
  assert (Hlen : length (hv_vms hv') = length (hv_vms hv)) by (apply (f_equal length) in Hv; by rewrite !length_fmap in Hv).
  assert (Hlk : ∀ v, vlists <$> hv_vms hv' !! v = vlists <$> hv_vms hv !! v) by (intros v; by rewrite <-!list_lookup_fmap, Hv).
  split.
  - intros v vm' Hvm'. specialize (Hlk v). rewrite Hvm' in Hlk. destruct (hv_vms hv !! v) as [vm|] eqn:Hvv; [|done].
    injection Hlk as -> -> _ _. eauto.
  - rewrite Hlen, Hl. eapply partitioned_ext; [|done]. intros w. specialize (Hlk w). unfold waiters_of.
    destruct (hv_vms hv' !! w), (hv_vms hv !! w); try done. by injection Hlk.
  - rewrite Hl. eapply partitioned_ext; [|done]. intros w. specialize (Hlk w). unfold ready_of.
    destruct (hv_vms hv' !! w), (hv_vms hv !! w); try done. by injection Hlk.
Qed.
Lemma mailboxes_ok_frame hv hv' : frame true vlists hv hv' → mailboxes_ok hv → mailboxes_ok hv'.
Proof. intros [_ _ _ Hv Hl _]. apply mailboxes_ok_same; auto. Qed.

(** Setting the lists of one VM. *)
Lemma lists_upd hv v vm f :
  hv_vms hv !! v = Some vm →
  (∀ w, waiters_of (upd_vm v f hv) w = if decide (w = v) then waiter_list (mailbox (vm_inner (f vm))) else waiters_of hv w) ∧
  (∀ w, ready_of (upd_vm v f hv) w = if decide (w = v) then ready_list (mailbox (vm_inner (f vm))) else ready_of hv w).
Proof.
  intros Hv. unfold waiters_of, ready_of, upd_vm. cbn [hv_vms set_vms].
  split; intros w; (destruct (decide (w = v)) as [->|]; [by rewrite list_lookup_alter_eq, Hv|by rewrite list_lookup_alter_ne]).
Qed.

(** Changing the lists of one VM: what has to be shown about the new lists. *)
Lemma mailboxes_upd hv v vm f lk :
  mailboxes_ok hv → hv_vms hv !! v = Some vm → vm_id (f vm) = vm_id vm →
  wait_entries (vm_inner (f vm)) = wait_entries (vm_inner vm) →
  partitioned (waits_for (length (hv_vms hv)))
    (λ w, if decide (w = v) then waiter_list (mailbox (vm_inner (f vm))) else waiters_of hv w) (wait_linked lk) →
  partitioned owned_by
    (λ w, if decide (w = v) then ready_list (mailbox (vm_inner (f vm))) else ready_of hv w) (ready_linked lk) →
  mailboxes_ok (set_links lk (upd_vm v f hv)).
Proof.
  intros [Hvm _ _] Hv Hid He Hw Hr. destruct (lists_upd hv v vm f Hv) as [H1 H2]. split.
  - intros w vm' Hl. cbn in Hl. destruct (decide (w = v)) as [->|].
    + rewrite list_lookup_alter_eq, Hv in Hl. injection Hl as <-. rewrite Hid, He. by apply Hvm.
    + rewrite list_lookup_alter_ne in Hl by done. by apply Hvm.
  - cbn. rewrite length_alter. eapply partitioned_ext; [exact H1|done].
  - eapply partitioned_ext; [exact H2|done].
Qed.
Lemma keep_waiters hv v vm :
  mailboxes_ok hv → hv_vms hv !! v = Some vm →
  partitioned (waits_for (length (hv_vms hv)))
    (λ w, if decide (w = v) then waiter_list (mailbox (vm_inner vm)) else waiters_of hv w) (wait_linked (hv_links hv)).
Proof.
  intros [_ Hw _] Hv. eapply partitioned_ext; [|done]. intros w. destruct (decide (w = v)) as [->|]; [|done].
  unfold waiters_of. by rewrite Hv.
Qed.
Lemma keep_ready hv v vm :
  mailboxes_ok hv → hv_vms hv !! v = Some vm →
  partitioned owned_by
    (λ w, if decide (w = v) then ready_list (mailbox (vm_inner vm)) else ready_of hv w) (ready_linked (hv_links hv)).
Proof.
  intros [_ _ Hw] Hv. eapply partitioned_ext; [|done]. intros w. destruct (decide (w = v)) as [->|]; [|done].
  unfold ready_of. by rewrite Hv.
Qed.

(** ** The three operations on the lists *)
Lemma waits_for_fun n e v v' : waits_for n e v → waits_for n e v' → v = v'.
Proof. intros [H _] [H' _]. lia. Qed.

Lemma wait_for_ok hv from i to tv id b ti lk :
  mailboxes_ok hv → (from < length (hv_vms hv))%nat → hv_vms hv !! to = Some tv → id = vm_id tv →
  length (wait_entries i) = 16%nat →
  wait_for from i (vm_inner tv) id (hv_links hv) = Done (b, ti, lk) →
  mailboxes_ok (set_links lk (set_inner to ti hv)) ∧ (from, S to) ∈ wait_linked lk.
Proof.
  intros HO Hf Ht -> Hlen H. destruct (mo_vm _ HO to tv Ht) as [Hid _].
  unfold wait_for in H. rewrite Hid, Hlen in H. replace (Z.to_nat (Z.of_nat to + 1)) with (S to) in H by lia.
  destruct (Nat.ltb_spec (S to) 16) as [H16|]; [|done]. cbn [negb] in H. cbv zeta in H.
  case_bool_decide as Hin; injection H as <- <- <-.
  - split; [|done]. apply mailboxes_upd with (vm := tv); try done; [exact (keep_waiters hv to tv HO Ht)|exact (keep_ready hv to tv HO Ht)].
  - split; [|cbn; set_solver]. apply mailboxes_upd with (vm := tv); try done; [|exact (keep_ready hv to tv HO Ht)]. cbn.
    assert (waiter_list (mailbox (vm_inner tv)) = waiters_of hv to) as -> by (unfold waiters_of; by rewrite Ht).
    by apply partitioned_push; [apply HO| |].
Qed.

Lemma writable_get_ok hv c r hv' :
  mailboxes_ok hv → mailbox_writable_get hv c = Done (r, hv') → mailboxes_ok hv'.
Proof.
  intros HO H. unfold mailbox_writable_get in H. apply bind_Done_inv in H as (vm & Hvm%vm_of_Some & H).
  unfold dequeue_ready_list in H. destruct (ready_list (mailbox (vm_inner vm))) as [|e l] eqn:Hr.
  - injection H as <- <-. apply mailboxes_upd with (vm := vm); try done; [exact (keep_waiters hv c.1 vm HO Hvm)|exact (keep_ready hv c.1 vm HO Hvm)].
  - injection H as <- <-. apply mailboxes_upd with (vm := vm); try done; [exact (keep_waiters hv c.1 vm HO Hvm)|]. cbn.
    apply partitioned_pop; [apply HO|unfold owned_by; congruence|]. unfold ready_of. by rewrite Hvm.
Qed.

(** [fetch_waiter] takes the first waiter of a mailbox that can be written. *)
Lemma fetch_waiter_ok hv v vm e m lk :
  mailboxes_ok hv → hv_vms hv !! v = Some vm → fetch_waiter (mailbox (vm_inner vm)) (hv_links hv) = (e, m, lk) →
  mailboxes_ok (set_links lk (upd_vm v (upd_vm_inner (with_mailbox m)) hv)) ∧
  match e with
  | None => waiter_list m = waiters_of hv v
  | Some e => waiters_of hv v = e :: waiter_list m
  end ∧ ready_list m = ready_of hv v.
Proof.
  intros HO Hv H.
  assert (Hw : waiters_of hv v = waiter_list (mailbox (vm_inner vm))) by (unfold waiters_of; by rewrite Hv).
  assert (Hr : ready_of hv v = ready_list (mailbox (vm_inner vm))) by (unfold ready_of; by rewrite Hv).
  assert (Hno : (None, mailbox (vm_inner vm), hv_links hv) = (e, m, lk) →
    mailboxes_ok (set_links lk (upd_vm v (upd_vm_inner (with_mailbox m)) hv)) ∧
    match e with None => waiter_list m = waiters_of hv v | Some e => waiters_of hv v = e :: waiter_list m end ∧
    ready_list m = ready_of hv v).
  { intros [= <- <- <-]. split_and!; [|done..].
    apply mailboxes_upd with (vm := vm); try done; [exact (keep_waiters hv v vm HO Hv)|exact (keep_ready hv v vm HO Hv)]. }
  unfold fetch_waiter in H. destruct (negb _ || _); [by apply Hno|].
  destruct (waiter_list (mailbox (vm_inner vm))) as [|e0 l] eqn:Hl; [by apply Hno|]. injection H as <- <- <-.
  split_and!; [|done..]. apply mailboxes_upd with (vm := vm); try done; [|exact (keep_ready hv v vm HO Hv)]. cbn.
  apply partitioned_pop; [apply HO|apply waits_for_fun|done].
Qed.

(** The waiter that [mailbox_waiter_get] is about: for the primary VM, the first one of
    the mailbox of the VM [id], if that can be written. *)
Definition writable (m : Mailbox) : bool := bool_decide (mb_state m = MailboxState.Empty) && negb (mb_recv m =? 0).
Definition next_waiter (hv : Hypervisor) (id : Z) (c : vref) : option entry :=
  cur ← hv_vms hv !! c.1; vm ← hv_vms hv !! Z.to_nat (id - 1);
  if (vm_id cur =? HF_PRIMARY_VM_ID) && writable (mailbox (vm_inner vm)) then head (waiter_list (mailbox (vm_inner vm))) else None.
(** Entry [e], the first waiter of the mailbox of VM [v], is moved to the ready list of
    its own VM, unless it is there already; the other lists stay. *)
Definition waiter_moved (v : nat) (e : entry) (hv hv' : Hypervisor) : Prop :=
  (∀ w, waiters_of hv w = if decide (w = v) then e :: waiters_of hv' w else waiters_of hv' w) ∧
  (∀ w, ready_of hv' w = if decide (w = e.1 ∧ e ∉ ready_of hv w) then ready_of hv w ++ [e] else ready_of hv w).
Definition same_lists (hv hv' : Hypervisor) : Prop := ∀ w, waiters_of hv' w = waiters_of hv w ∧ ready_of hv' w = ready_of hv w.

Lemma fetch_waiter_head m lk :
  (fetch_waiter m lk).1.1 = (if writable m then head (waiter_list m) else None).
Proof.
  unfold fetch_waiter, writable. destruct (bool_decide _), (mb_recv m =? 0); try done. by destruct (waiter_list m).
Qed.
Lemma waiter_get_spec hv id c cur :
  mailboxes_ok hv → hv_vms hv !! c.1 = Some cur → HF_VM_ID_OFFSET ≤ id →
  ∃ r hv', mailbox_waiter_get hv id c = Done (r, hv') ∧ mailboxes_ok hv' ∧
    match next_waiter hv id c with
    | Some e => r = Some (Z.of_nat e.1 + 1) ∧ waiter_moved (Z.to_nat (id - 1)) e hv hv'
    | None => r = None ∧ same_lists hv hv'
    end.
Proof.
  intros HO Hc Hid. unfold mailbox_waiter_get, next_waiter, vm_of. rewrite Hc. cbn [unwrap_opt mbind exec_bind option_bind].
  destruct (vm_id cur =? HF_PRIMARY_VM_ID); cbn [negb andb].
  2:{ exists None, hv. split; [done|]. split; [done|]. destruct (hv_vms hv !! Z.to_nat (id - 1)); by split. }
  unfold get_vm, get_vm_index, assert_then.
  rewrite (proj2 (Z.leb_le _ _) Hid). cbn [mbind exec_bind]. change HF_VM_ID_OFFSET with 1.
  set (v := Z.to_nat (id - 1)). destruct (Nat.ltb_spec v (length (hv_vms hv))) as [Hlt|Hge].
  2:{ exists None, hv. apply lookup_ge_None in Hge. by rewrite Hge. }
  apply lookup_lt_is_Some in Hlt as [vm Hv]. rewrite Hv. cbn [unwrap_opt mbind exec_bind option_bind].
  pose proof (fetch_waiter_head (mailbox (vm_inner vm)) (hv_links hv)) as Hhd.
  destruct (fetch_waiter _ _) as [[e m] lk] eqn:Hf. cbn [fst] in Hhd. rewrite <-Hhd. cbv zeta.
  destruct (fetch_waiter_ok hv v vm e m lk HO Hv Hf) as (HO1 & Hw & Hr).
  destruct (lists_upd hv v vm (upd_vm_inner (with_mailbox m)) Hv) as [Hw1 Hr1]. cbn in Hw1, Hr1.
  set (hv1 := set_links lk _) in *.
  change (∀ w, waiters_of hv1 w = if decide (w = v) then waiter_list m else waiters_of hv w) in Hw1.
  change (∀ w, ready_of hv1 w = if decide (w = v) then ready_list m else ready_of hv w) in Hr1.
  assert (Hr1' : ∀ w, ready_of hv1 w = ready_of hv w).
  { intros w. rewrite Hr1. destruct (decide _) as [->|]; [done|done]. }
  assert (Hvms : length (hv_vms hv1) = length (hv_vms hv)) by (cbn; by rewrite length_alter).
  destruct e as [e|].
  2:{ exists None, hv1. split; [done|]. split; [done|]. split; [done|]. intros w. split; [|done]. rewrite Hw1. destruct (decide _) as [->|]; done. }
  assert (Hke : waits_for (length (hv_vms hv)) e v) by (apply (mo_waiting _ HO); rewrite Hw; by left).
  destruct Hke as (He2 & He1 & H16). rewrite <-Hvms in He1. apply lookup_lt_is_Some in He1 as [ow How]. rewrite How.
  cbn [unwrap_opt mbind exec_bind]. destruct (mo_vm _ HO1 _ _ How) as [Hoid Hoe].
  rewrite Hoe, lookup_replicate_2 by done. cbn [unwrap_opt mbind exec_bind]. rewrite How. cbn [unwrap_opt mbind exec_bind].
  assert (Hwv : ∀ w, waiters_of hv w = if decide (w = v) then e :: waiters_of hv1 w else waiters_of hv1 w).
  { intros w. rewrite Hw1. by destruct (decide _) as [->|]. }
  assert (Hin' : e ∈ ready_linked (hv_links hv1) ↔ e ∈ ready_of hv e.1).
  { rewrite (pt_set _ _ _ (mo_ready _ HO1)). setoid_rewrite Hr1'. split; [intros [w Hx]|by exists e.1].
    pose proof (pt_key _ _ _ (mo_ready _ HO) w e Hx) as E. unfold owned_by in E. by rewrite E. }
  rewrite Hoid. case_bool_decide as Hin; cbn [negb]; eexists _, _; (split; [reflexivity|]).
  - split; [done|]. split; [done|]. split; [done|]. intros w. rewrite Hr1', decide_False; [done|]. intros [-> Hno]. by apply Hno, Hin'.
  - assert (HO2 : mailboxes_ok (set_links (mkLinked (wait_linked (hv_links hv1)) (ready_linked (hv_links hv1) ∪ {[e]}))
      (set_inner e.1 (enqueue_ready_list (vm_inner ow) e (hv_links hv1)).1 hv1))).
    { apply mailboxes_upd with (vm := ow); try done; [exact (keep_waiters hv1 e.1 ow HO1 How)|]. cbn.
      assert (ready_list (mailbox (vm_inner ow)) = ready_of hv1 e.1) as -> by (unfold ready_of; by rewrite How).
      by apply partitioned_push; [apply HO1| |]. }
    split; [exact HO2|]. split; [done|].
    destruct (lists_upd hv1 e.1 ow (upd_vm_inner (λ _, (enqueue_ready_list (vm_inner ow) e (hv_links hv1)).1)) How) as [H1 H2]. split.
    + intros w. rewrite Hwv. assert (Hs : waiters_of hv1 w = waiters_of (upd_vm e.1 (upd_vm_inner (λ _, (enqueue_ready_list (vm_inner ow) e (hv_links hv1)).1)) hv1) w).
      { rewrite H1. destruct (decide (w = e.1)) as [->|]; [|done]. unfold waiters_of. by rewrite How. }
      rewrite Hs. done.
    + intros w. refine (eq_trans (H2 w) _). rewrite <-Hr1'. destruct (decide (w = e.1)) as [->|]; [|by rewrite decide_False by tauto].
      rewrite decide_True; [|split; [done|]; rewrite Hr1'; by rewrite <-Hin']. unfold ready_of at 1. by rewrite How.
Qed.

Lemma waiter_get_ok hv id c r hv' :
  mailboxes_ok hv → mailbox_waiter_get hv id c = Done (r, hv') → mailboxes_ok hv'.
Proof.
  intros HO H. pose proof H as H'. unfold mailbox_waiter_get in H'.
  apply bind_Done_inv in H' as (cur & Hc%vm_of_Some & H').
  destruct (decide (HF_VM_ID_OFFSET ≤ id)) as [Hid|Hid].
  - destruct (waiter_get_spec hv id c cur HO Hc Hid) as (r1 & hv1 & Heq & HO1 & _).
    rewrite H in Heq. by injection Heq as <- <-.
  - destruct (negb _); [by simplify_eq|]. unfold get_vm, get_vm_index, assert_then in H'.
    destruct (Z.leb_spec HF_VM_ID_OFFSET id); [lia|done].
Qed.

(** ** The other calls keep the lists *)

(** Take a completed computation apart. *)
Local Ltac inv_done H :=
  cbv zeta in H;
  repeat match type of H with
  | Panic = Done _ => discriminate H
  | Done _ = Done _ => injection H as H; try subst
  | mbind _ _ = Done _ =>
      let x := fresh "v" in let Hx := fresh "Hx" in apply bind_Done_inv in H as (x & Hx & H)
  | assert_then _ _ = Done _ => unfold assert_then in H
  | match ?x with _ => _ end = Done _ => destruct x
  end.

Section keep.
Context (p : Aarch64.pa_bits) {RD : ReduceCrate} (MESSAGE_BUFFER : Z).
#[local] Hint Extern 0 ArchMM => exact (aarch64 p) : typeclass_instances.

Lemma configure_stage1_lists m a b c d hp st ok m' hp' st' :
  configure_stage1 m a b c d hp st = Done (ok, m', hp', st') →
  waiter_list m' = waiter_list m ∧ ready_list m' = ready_list m.
Proof. intros H. unfold configure_stage1 in H. inv_done H; by simplify_eq. Qed.
Lemma configure_lists i a b hp st ok i' hp' st' : configure i a b hp st = Done (ok, i', hp', st') → iwhole i' = iwhole i.
Proof.
  intros H. unfold configure in H. inv_done H; simplify_eq; try done. unfold configure_pages in H.
  cbv zeta in H. apply bind_Done_inv in H as ([[ok1 t1] st1] & _ & H). destruct (negb ok1); [by simplify_eq|].
  apply bind_Done_inv in H as ([[ok2 t2] st2] & _ & H). destruct (negb ok2); [inv_done H; by simplify_eq|].
  apply bind_Done_inv in H as ([[[ok3 m3] hp3] st3] & [Hw Hr]%configure_stage1_lists & H).
  unfold iwhole, ilists. destruct (negb ok3); inv_done H; simplify_eq/=; by rewrite Hw, Hr.
Qed.
Lemma handle_lists same ti fi mem amr msg to_msg hp st ret ti' fi' mem' st' :
  spci_msg_handle_architected_message same ti fi mem amr msg to_msg hp st = Done (ret, ti', fi', mem', st') →
  iwhole ti' = iwhole ti ∧ iwhole fi' = iwhole fi.
Proof.
  intros H. unfold spci_msg_handle_architected_message in H. cbv zeta in H.
  apply bind_Done_inv in H as (ty & _ & H). apply bind_Done_inv in H as ([[[ret1 to1] from1] st1] & Hv & H).
  apply bind_Done_inv in H as (mem1 & _ & H). apply assert_then_Done in H as [_ [= <- <- <- <- <-]].
  assert (Hsp : ∀ region size attrs share,
    spci_validate_call_share_memory same ti fi mem region size attrs share st = Done (ret1, to1, from1, st1) →
    iwhole to1 = iwhole ti ∧ iwhole from1 = iwhole fi).
  { intros region size attrs share Hs. unfold spci_validate_call_share_memory, spci_share_memory in Hs.
    inv_done Hs; by simplify_eq. }
  destruct ty; [apply bind_Done_inv in Hv as (m & _ & Hv)|..]; by eapply Hsp.
Qed.

Lemma mailboxes_set_mm st hv : mailboxes_ok hv → mailboxes_ok (set_mm st hv).
Proof. by apply mailboxes_ok_same. Qed.
Lemma mailboxes_set_mem mem hv : mailboxes_ok hv → mailboxes_ok (set_mem mem hv).
Proof. by apply mailboxes_ok_same. Qed.
Lemma mailboxes_set_hp t hv : mailboxes_ok hv → mailboxes_ok (set_hv_ptable t hv).
Proof. by apply mailboxes_ok_same. Qed.
Lemma mailboxes_set_inner v i vm hv :
  hv_vms hv !! v = Some vm → ilists i = ilists (vm_inner vm) → mailboxes_ok hv → mailboxes_ok (set_inner v i hv).
Proof.
  intros Hv Hi. apply mailboxes_ok_frame. eapply frame_set_inner; [done|]. unfold vlists. cbn. by rewrite Hi.
Qed.

Lemma msg_send_lists hw now hv a c r next hv' :
  mailboxes_ok hv → spci_msg_send MESSAGE_BUFFER hw now hv a c = Done (r, next, hv') → mailboxes_ok hv'.
Proof.
  intros HO H. unfold spci_msg_send in H. cbv zeta in H. apply bind_Done_inv in H as (fv & Hf%vm_of_Some & H).
  destruct (_ =? 0); [by simplify_eq|]. apply assert_then_Done in H as [_ H]. destruct (negb _); [by simplify_eq|].
  destruct (_ <? _); [by simplify_eq|]. destruct (Z.eqb_spec (target_vm_id (read_message (hv_mem hv) (mb_send (mailbox (vm_inner fv))))) (vm_id fv)) as [|Hid]; [by simplify_eq|].
  apply bind_Done_inv in H as (to & Hto & H). destruct to as [to|]; [|by simplify_eq].
  apply get_vm_Some in Hto as (Hge & Hto & _). change HF_VM_ID_OFFSET with 1 in *.
  pose proof (proj1 (mo_vm _ HO _ _ Hf)) as Hidf. assert (Hne : to ≠ c.1) by (intros ->; lia).
  apply bind_Done_inv in H as (tv & Ht%vm_of_Some & H). destruct (negb _ || negb _).
  { destruct (bf_contains a NOTIFY); [|by simplify_eq].
    apply bind_Done_inv in H as ([[b i] lk] & Hw & [= <- <- <-]).
    refine (proj1 (wait_for_ok hv c.1 (vm_inner fv) to tv _ b i lk HO _ Ht eq_refl _ Hw)); [by eapply lookup_lt_Some|].
    rewrite (proj2 (mo_vm _ HO _ _ Hf)). apply length_replicate. }
  destruct (bf_contains _ _).
  { apply assert_then_Done in H as [_ H]. apply (deliver_frame vlists vlists_quiet true), mailboxes_ok_frame in H; [done|by apply mailboxes_set_mem]. }
  apply bind_Done_inv in H as (cur & _ & H). apply bind_Done_inv in H as (cpu & _ & H).
  apply bind_Done_inv in H as (buffer & _ & H). destruct (_ <? _); [by simplify_eq|]. destruct (_ <? _); [by simplify_eq|].
  apply assert_then_Done in H as [_ H].
  apply bind_Done_inv in H as ([[[[ret ti] fi] mem] st] & [Hti%iwhole_lists Hfi%iwhole_lists]%handle_lists & H).
  assert (HO1 : mailboxes_ok (set_mm st (set_mem mem (set_inner c.1 fi (set_inner to ti hv))))).
  { apply mailboxes_set_mm, mailboxes_set_mem, (mailboxes_set_inner _ _ fv); [|done|by eapply mailboxes_set_inner].
    cbn. by rewrite list_lookup_alter_ne. }
  destruct (negb _); [by simplify_eq|].
  by apply (deliver_frame vlists vlists_quiet true), mailboxes_ok_frame in H.
Qed.

Lemma share_memory_lists hv id addr size share c ok hv' :
  mailboxes_ok hv → share_memory hv id addr size share c = Done (ok, hv') → mailboxes_ok hv'.
Proof.
  intros HO H. unfold share_memory in H. cbv zeta in H. apply bind_Done_inv in H as (fv & _ & H).
  destruct (_ =? _); [by simplify_eq|]. apply bind_Done_inv in H as (to & _ & H).
  destruct to as [to|]; [|by simplify_eq]. apply bind_Done_inv in H as (tv & _ & H).
  destruct (negb _ || negb _); [by simplify_eq|]. destruct (share_modes share) as [fm tm].
  apply bind_Done_inv in H as (r & _ & H). destruct r as [orig|]; [|simplify_eq; by apply mailboxes_set_mm].
  apply bind_Done_inv in H as ([[[[[ok1 ft'] tot'] hp'] mem'] st'] & _ & [= <- <-]).
  apply mailboxes_set_mm, mailboxes_set_mem, mailboxes_set_hp.
  do 2 (eapply mailboxes_ok_frame; [by apply frame_upd_vm|]). done.
Qed.

Lemma vm_configure_lists hw now hv s rv c r next hv' :
  mailboxes_ok hv → vm_configure hw now hv s rv c = Done (r, next, hv') → mailboxes_ok hv'.
Proof.
  intros HO H. unfold vm_configure in H. apply bind_Done_inv in H as (vm & Hv%vm_of_Some & H).
  apply bind_Done_inv in H as ([[[ok i] hp] st] & Hc%configure_lists%iwhole_lists & H). cbv zeta in H.
  assert (HO1 : mailboxes_ok (set_mm st (set_hv_ptable hp (set_inner c.1 i hv)))).
  { by eapply mailboxes_set_mm, mailboxes_set_hp, mailboxes_set_inner. }
  destruct (negb ok); [by simplify_eq|].
  by apply (waiter_result_frame vlists vlists_quiet true), mailboxes_ok_frame in H.
Qed.

Lemma exec_lists hw n1 n2 n3 hv c call hv' :
  mailboxes_ok hv → hv_exec p MESSAGE_BUFFER hw n1 n2 n3 hv c call = Done (Some hv') → mailboxes_ok hv'.
Proof.
  intros HO H. destruct (memory_call call || list_call call) eqn:Hm.
  2:{ apply orb_false_iff in Hm as [Hm Hl]. eapply mailboxes_ok_frame; [|done].
      eapply exec_frame; eauto with hfo2. by rewrite Hl. }
  destruct call; try done; clear Hm; cbn [hv_exec] in H.
  - apply bind_Done_inv in H as ([[??]?] & H & [= <-]). unfold api_vm_configure in H. by eapply vm_configure_lists.
  - apply bind_Done_inv in H as ([[??]?] & H & [= <-]). apply bind_Done_inv in H as ([[??]?] & H & [= <- <- <-]).
    by eapply msg_send_lists.
  - apply bind_Done_inv in H as ([??] & H & [= <-]). apply bind_Done_inv in H as ([??] & H & [= <- <-]).
    by eapply writable_get_ok.
  - apply bind_Done_inv in H as ([??] & H & [= <-]). apply bind_Done_inv in H as ([??] & H & [= <- <-]).
    by eapply waiter_get_ok.
  - apply bind_Done_inv in H as ([??] & H & [= <-]). unfold api_share_memory in H.
    destruct (HfShare_try_from share); [|by simplify_eq].
    apply bind_Done_inv in H as ([??] & H & [= <- <-]). by eapply share_memory_lists.
Qed.

(** C8: in every reachable state an entry's links are in use exactly when the entry
    is in a list, which is then the waiter list of the mailbox it waits for or the
    ready list of its VM, once.  [mailbox_waiter_get] therefore never fails on an id
    other than 0.  When the primary VM calls it for a VM that exists, whose mailbox can
    be written and somebody waits for, it takes the first waiter off the mailbox,
    returns the id of the VM that waits and puts the entry at the end of that VM's ready
    list, unless it is there already; the other lists stay.  Otherwise it returns
    nothing and no list changes. *)
Theorem mailbox_lists_consistent hv0 hv :
  mailboxes_ok hv0 → rtc (hv_step p MESSAGE_BUFFER) hv0 hv →
  mailboxes_ok hv ∧
  ∀ id c, is_Some (hv_vms hv !! c.1) → HF_VM_ID_OFFSET ≤ id →
    ∃ r hv', mailbox_waiter_get hv id c = Done (r, hv') ∧
      match next_waiter hv id c with
      | Some e => r = Some (Z.of_nat e.1 + 1) ∧ waiter_moved (Z.to_nat (id - 1)) e hv hv'
      | None => r = None ∧ same_lists hv hv'
      end.
Proof.
  intros H0 Hrun. assert (HO : mailboxes_ok hv).
  { refine (rtc_ind_r mailboxes_ok hv0 H0 _ hv Hrun). intros h h' _ Hs Hh.
    destruct Hs; [by eapply exec_lists|by apply mailboxes_set_mem]. }
  split; [done|]. intros id c [cur Hc] Hid.
  destruct (waiter_get_spec hv id c cur HO Hc Hid) as (r & hv' & H & _ & Hw). eauto.
Qed.
End keep.

(** Nobody waits in a new machine. *)
Lemma mailboxes_ok_empty hv :
  (∀ v vm, hv_vms hv !! v = Some vm → vm_id vm = Z.of_nat v + 1 ∧ wait_entries (vm_inner vm) = replicate 16 v ∧
     waiter_list (mailbox (vm_inner vm)) = [] ∧ ready_list (mailbox (vm_inner vm)) = []) →
  hv_links hv = mkLinked ∅ ∅ → mailboxes_ok hv.
Proof.
  intros Hvm Hl.
  assert (Hw : ∀ w, waiters_of hv w = []).
  { intros w. unfold waiters_of. destruct (hv_vms hv !! w) as [vm|] eqn:E; [|done]. by apply (Hvm w vm E). }
  assert (Hr : ∀ w, ready_of hv w = []).
  { intros w. unfold ready_of. destruct (hv_vms hv !! w) as [vm|] eqn:E; [|done]. by apply (Hvm w vm E). }
  split; rewrite ?Hl.
  - intros v vm Hv. by destruct (Hvm v vm Hv) as (? & ? & _).
  - split; intros ?; [intros ?|..]; rewrite ?Hw; [by intros ?%elem_of_nil|constructor|].
    cbn. split; [set_solver|]. intros [w Hx]. rewrite Hw in Hx. set_solver.
  - split; intros ?; [intros ?|..]; rewrite ?Hr; [by intros ?%elem_of_nil|constructor|].
    cbn. split; [set_solver|]. intros [w Hx]. rewrite Hr in Hx. set_solver.
Qed.
Lemma mailboxes_demo : mailboxes_ok HvDemo.hv.
Proof. apply mailboxes_ok_empty; [|done]. by intros [|[|v]] vm [= <-]. Qed.
