(* ===== verification/Messages.v ===== *)
(** * Sending messages

    A message is copied from the send page of the sender to the receive page of the
    recipient, whole and only if the mailbox is empty; otherwise the sender is told
    that the mailbox is busy, and waits for it if it asked to. *)
From stdpp Require Import gmap.
From S2P Require Import Prelude Addr Mode Arch ArchAarch64 Mpool Mm PageTables MemoryManager Access Abi ArchCpu.
From S2P Require Import Interrupts Cpu Vm Memory Spci Hypervisor Api Frames Isolation HvDemo Running Mailboxes.

(** ** Messages in memory *)

(** A header: 16 bytes whose fields have their types. *)
Definition message_ok (m : SpciMessage) : Prop :=
  in_u 16 (flags m) ∧ in_u 16 (reserved_1 m) ∧ in_u 32 (length_ m) ∧ in_u 16 (target_vm_id m) ∧
  in_u 16 (source_vm_id m) ∧ in_u 32 (reserved_2 m).
Lemma read_message_ok mem a : mem_ok mem → message_ok (read_message mem a).
Proof. intros H. split_and!; by (apply rd16_range || apply rd32_range). Qed.

Lemma write_message_other mem a m x : ¬ a ≤ x < a + 16 → write_message mem a m x = mem x.
Proof. intros H. unfold write_message. rewrite !wr_other by lia. done. Qed.
Lemma read_write_message mem a m : message_ok m → read_message (write_message mem a m) a = m.
Proof.
  intros (H1 & H2 & H3 & H4 & H5 & H6). unfold read_message, write_message. destruct m; cbn in *. f_equal.
  - erewrite rd16_ext; [by apply (rd16_wr mem)|]. intros x Hx. by rewrite !(wr_other _ _ _ _ x) by lia.
  - erewrite rd16_ext; [by eapply rd16_wr|]. intros x Hx. by rewrite 4!(wr_other _ _ _ _ x) by lia.
  - erewrite rd32_ext; [by eapply rd32_wr|]. intros x Hx. by rewrite 3!(wr_other _ _ _ _ x) by lia.
  - erewrite rd16_ext; [by eapply rd16_wr|]. intros x Hx. by rewrite 2!(wr_other _ _ _ _ x) by lia.
  - erewrite rd16_ext; [by eapply rd16_wr|]. intros x Hx. by rewrite (wr_other _ _ _ _ x) by lia.
  - by apply rd32_wr.
Qed.
Lemma read_message_ext mem mem' a : (∀ x, a ≤ x < a + 16 → mem' x = mem x) → read_message mem' a = read_message mem a.
Proof.
  intros H. unfold read_message.
  rewrite !(rd16_ext mem mem'), !(rd32_ext mem mem') by (intros; apply H; lia). done.
Qed.

(** ** Switching to the primary VM *)

(** The vCPU [c] runs on the CPU with index [idx], for which the primary VM has a vCPU. *)
Definition on_cpu (hv : Hypervisor) (c : vref) (idx : nat) : Prop :=
  ∃ cur primary, vcpu_of hv c = Done cur ∧ vi_cpu (vc_inner cur) = Some idx ∧
    hv_vms hv !! primary_index = Some primary ∧ (idx < length (vcpus primary))%nat.
Definition mbox (hv : Hypervisor) (v : nat) : option Mailbox := (λ vm, mailbox (vm_inner vm)) <$> hv_vms hv !! v.

Lemma vcpu_of_upd_inner v f hv c : vcpu_of (upd_vm v (upd_vm_inner f) hv) c = vcpu_of hv c.
Proof.
  unfold vcpu_of, vm_of, upd_vm. cbn [hv_vms set_vms]. destruct (decide (c.1 = v)) as [->|].
  - rewrite list_lookup_alter_eq. by destruct (hv_vms hv !! v).
  - by rewrite list_lookup_alter_ne.
Qed.
Lemma on_cpu_upd_inner v f hv c idx : on_cpu hv c idx → on_cpu (upd_vm v (upd_vm_inner f) hv) c idx.
Proof.
  intros (cur & pr & Hc & Hi & Hp & Hl). exists cur. destruct (decide (primary_index = v)) as [<-|].
  - exists (upd_vm_inner f pr). rewrite vcpu_of_upd_inner. split_and!; [done..| |done].
    cbn [hv_vms upd_vm set_vms]. by rewrite list_lookup_alter_eq, Hp.
  - exists pr. rewrite vcpu_of_upd_inner. split_and!; [done..| |done].
    cbn [hv_vms upd_vm set_vms]. by rewrite list_lookup_alter_ne.
Qed.
Lemma mbox_upd_vc c f hv v : mbox (upd_vc c f hv) v = mbox hv v.
Proof.
  unfold mbox, upd_vc, upd_vm. cbn [hv_vms set_vms]. destruct (decide (v = c.1)) as [->|].
  - rewrite list_lookup_alter_eq. by destruct (hv_vms hv !! c.1).
  - by rewrite list_lookup_alter_ne.
Qed.

(** [switch_to_primary] returns the vCPU of the primary VM on the same CPU. *)
Lemma switch_to_primary_spec hw now hv c idx ret s :
  on_cpu hv c idx →
  ∃ hv', switch_to_primary hw now hv c ret s = Done ((primary_index, idx), hv') ∧ hv_mem hv' = hv_mem hv ∧
    ∀ v, mbox hv' v = mbox hv v.
Proof.
  intros (cur & pr & Hc & Hi & Hp & Hl). unfold switch_to_primary, vm_of. rewrite Hp. cbn [unwrap_opt mbind exec_bind].
  rewrite Hc. cbn [mbind exec_bind]. rewrite Hi. unfold index_of, index_vcpu.
  cbn [unwrap_opt mbind exec_bind option_bind].
  apply lookup_lt_is_Some in Hl as [w Hw]. rewrite Hw. cbn [unwrap_opt mbind exec_bind]. cbv zeta.
  eexists. split_and!; [done|done|]. intros v. by rewrite !mbox_upd_vc.
Qed.

Lemma deliver_spec hw now hv to from c idx tv fv :
  hv_vms hv !! to = Some tv → hv_vms hv !! from = Some fv → on_cpu hv c idx →
  ∃ next hv', deliver hw now hv to from c = Done (Success, next, hv') ∧ hv_mem hv' = hv_mem hv ∧
    next = (if (vm_id tv =? HF_PRIMARY_VM_ID) || negb (vm_id fv =? HF_PRIMARY_VM_ID)
            then Some (primary_index, idx) else None) ∧
    (∀ v, mbox hv' v = if decide (v = to) then
       Some (mb_set_state (if vm_id tv =? HF_PRIMARY_VM_ID then MailboxState.Read else MailboxState.Received)
               (mailbox (vm_inner tv))) else mbox hv v).
Proof.
  intros Ht Hf Hc. unfold deliver, vm_of. rewrite Ht, Hf. cbn [unwrap_opt mbind exec_bind]. cbv zeta.
  assert (Hmb : ∀ s v, mbox (upd_vm to (upd_vm_inner (λ i, with_mailbox (mb_set_state s (mailbox i)) i)) hv) v =
    if decide (v = to) then Some (mb_set_state s (mailbox (vm_inner tv))) else mbox hv v).
  { intros s v. unfold mbox, upd_vm. cbn [hv_vms set_vms]. destruct (decide (v = to)) as [->|].
    - by rewrite list_lookup_alter_eq, Ht.
    - by rewrite list_lookup_alter_ne. }
  destruct (vm_id tv =? HF_PRIMARY_VM_ID); cbn [orb].
  - destruct (switch_to_primary_spec hw now (upd_vm to (upd_vm_inner (λ i, with_mailbox (set_read (mailbox i)) i)) hv)
      c idx (Message (vm_id tv)) VCpuStatus.Ready) as (hv' & Hs & Hm & Hb); [by apply on_cpu_upd_inner|].
    rewrite Hs. cbn [mbind exec_bind]. eexists _, _. split_and!; [done..|]. intros v. by rewrite Hb, <-Hmb.
  - destruct (negb _); cbn [orb].
    + destruct (switch_to_primary_spec hw now (upd_vm to (upd_vm_inner (λ i, with_mailbox (set_received (mailbox i)) i)) hv)
        c idx (Message (vm_id tv)) VCpuStatus.Ready) as (hv' & Hs & Hm & Hb); [by apply on_cpu_upd_inner|].
      rewrite Hs. cbn [mbind exec_bind]. eexists _, _. split_and!; [done..|]. intros v. by rewrite Hb, <-Hmb.
    + eexists _, _. split_and!; [done..|]. intros v. by rewrite <-Hmb.
Qed.

(** ** [spci_msg_send] *)
Section send.
Context (p : Aarch64.pa_bits) {RD : ReduceCrate} (MESSAGE_BUFFER : Z).
#[local] Hint Extern 0 ArchMM => exact (aarch64 p) : typeclass_instances.

Definition send_page (vm : Vm) : Z := mb_send (mailbox (vm_inner vm)).
Definition recv_page (vm : Vm) : Z := mb_recv (mailbox (vm_inner vm)).
Definition sent (hv : Hypervisor) (fv : Vm) : SpciMessage := read_message (hv_mem hv) (send_page fv).

(** A mailbox page that the hypervisor maps, writable if [w]: in the states the system
    reaches, those below 512 GiB ([Mapped.mailboxes_mapped]). *)
Definition page_mapped (hv : Hypervisor) (w : bool) (b : Z) : Prop := aligned 4096 b ∧ el2_page (hv_ptable hv) w b = true.
Lemma page_mapped_el2 hv w b a n :
  page_mapped hv w b → b ≤ a → a + n ≤ b + 4096 → forallb (el2_page (hv_ptable hv) w) (pages_of a n) = true.
Proof. intros [Ha Hp] H1 H2. by apply (el2_one b). Qed.

(** The caller [c] of VM [fv] has a valid message for the VM [tv] at [to] in its
    send page, which the hypervisor maps. *)
Record sendable (hv : Hypervisor) (c : vref) (fv : Vm) (to : nat) (tv : Vm) : Prop := {
  sd_from : hv_vms hv !! c.1 = Some fv;
  sd_page : send_page fv ≠ 0;
  sd_mapped : page_mapped hv false (send_page fv);
  sd_source : source_vm_id (sent hv fv) = vm_id fv;
  sd_length : length_ (sent hv fv) ≤ SPCI_MSG_PAYLOAD_MAX;
  sd_other : target_vm_id (sent hv fv) ≠ vm_id fv;
  sd_target : target_vm_id (sent hv fv) = Z.of_nat to + HF_VM_ID_OFFSET;
  sd_to : hv_vms hv !! to = Some tv;
}.

Lemma get_vm_valid vms to vm : vms !! to = Some vm → get_vm vms (Z.of_nat to + HF_VM_ID_OFFSET) = Done (Some to).
Proof.
  intros Hv. unfold get_vm, get_vm_index, assert_then. change HF_VM_ID_OFFSET with 1.
  destruct (Z.leb_spec 1 (Z.of_nat to + 1)); [|lia]. cbn [mbind exec_bind].
  replace (Z.to_nat (Z.of_nat to + 1 - 1)) with to by lia. apply lookup_lt_Some in Hv.
  destruct (Nat.ltb_spec to (length vms)); [done|lia].
Qed.

(** What [spci_msg_send] does after the checks on the message. *)
Lemma msg_send_checked hw now hv attributes c fv to tv :
  sendable hv c fv to tv →
  spci_msg_send MESSAGE_BUFFER hw now hv attributes c =
    (if negb (mailbox_empty (vm_inner tv)) || negb (is_configured (vm_inner tv)) then
       if bf_contains attributes NOTIFY then
         '(_, i, lk) ← wait_for c.1 (vm_inner fv) (vm_inner tv) (vm_id tv) (hv_links hv);
         Done (Busy, None, set_links lk (set_inner to i hv))
       else Done (Busy, None, hv)
     else
     let to_msg := recv_page tv in
     if bf_contains (flags (sent hv fv)) IMPDEF then
       assert_then (el2_writes (hv_ptable hv) to_msg (SIZEOF_SpciMessage + length_ (sent hv fv)) &&
                    el2_reads (hv_ptable hv) (send_page fv + SIZEOF_SpciMessage) (length_ (sent hv fv))) (
       let mem := write_message (hv_mem hv) to_msg (sent hv fv) in
       let mem := memcpy mem (to_msg + SIZEOF_SpciMessage) (send_page fv + SIZEOF_SpciMessage) (length_ (sent hv fv)) in
       deliver hw now (set_mem mem hv) to c.1 c)
     else
       cur ← vcpu_of hv c;
       cpu ← unwrap_opt (vi_cpu (vc_inner cur) ≫= λ c, hv_cpus hv !! c);
       buffer ← cpu_get_buffer MESSAGE_BUFFER (cpu_id cpu);
       if PAGE_SIZE <? length_ (sent hv fv) then Done (InvalidParameters, None, hv)
       else if length_ (sent hv fv) <? SIZEOF_SpciArchitectedMessageHeader then Done (InvalidParameters, None, hv)
       else
       assert_then (el2_reads (hv_ptable hv) (get_architected_message_header (send_page fv)) (length_ (sent hv fv))) (
       let mem := memcpy (hv_mem hv) buffer (get_architected_message_header (send_page fv)) (length_ (sent hv fv)) in
       '(ret, to_i, from_i, mem, st) ←
         spci_msg_handle_architected_message (bool_decide (to = c.1)) (vm_inner tv) (vm_inner fv)
           mem buffer (sent hv fv) to_msg (hv_ptable hv) (hv_mm hv);
       let hv := set_mm st (set_mem mem (set_inner c.1 from_i (set_inner to to_i hv))) in
       if negb (bool_decide (ret = Success)) then Done (ret, None, hv)
       else deliver hw now hv to c.1 c)).
Proof.
  intros [Hf Hp Hpm Hs Hl Ho Ht Hto]. unfold spci_msg_send. cbv zeta. unfold vm_of. rewrite Hf.
  cbn [unwrap_opt mbind exec_bind]. fold (send_page fv). fold (sent hv fv). unfold el2_reads at 1.
  rewrite (page_mapped_el2 _ _ _ _ _ Hpm) by (change SIZEOF_SpciMessage with 16; lia). cbn [assert_then].
  rewrite (proj2 (Z.eqb_neq _ _) Hp), Hs, Z.eqb_refl. cbn [negb].
  rewrite (proj2 (Z.ltb_ge _ _) Hl), (proj2 (Z.eqb_neq _ _) Ho), Ht, (get_vm_valid _ _ tv Hto).
  cbn [mbind exec_bind]. rewrite Hto. reflexivity.
Qed.

(** C9: a valid message of implementation-defined kind, that is with the flag [IMPDEF],
    for an empty, configured mailbox is delivered: the call succeeds, the receive page
    holds the header and the whole payload, no other byte of memory changes, the
    mailbox of the recipient (and no other) is marked as holding a message, already
    read if it is the primary VM's, and control goes to the primary VM's vCPU on the
    same CPU unless the primary VM itself sends to a secondary.  The send page and the
    receive page are different pages and the hypervisor maps both.  Messages without
    the flag are requests to share memory, which are copied otherwise (C40). *)
Theorem msg_send_delivers hw now hv attributes c fv to tv idx :
  sendable hv c fv to tv → mailbox_empty (vm_inner tv) = true → is_configured (vm_inner tv) = true →
  bf_contains (flags (sent hv fv)) IMPDEF = true → mem_ok (hv_mem hv) → page_mapped hv true (recv_page tv) →
  send_page fv + 4096 ≤ recv_page tv ∨ recv_page tv + 4096 ≤ send_page fv → on_cpu hv c idx →
  ∃ next hv', spci_msg_send MESSAGE_BUFFER hw now hv attributes c = Done (Success, next, hv') ∧
    read_message (hv_mem hv') (recv_page tv) = sent hv fv ∧
    (∀ k, 0 ≤ k < length_ (sent hv fv) → hv_mem hv' (recv_page tv + 16 + k) = hv_mem hv (send_page fv + 16 + k)) ∧
    (∀ x, ¬ recv_page tv ≤ x < recv_page tv + 16 + length_ (sent hv fv) → hv_mem hv' x = hv_mem hv x) ∧
    (∀ v, mbox hv' v = if decide (v = to) then
       Some (mb_set_state (if vm_id tv =? HF_PRIMARY_VM_ID then MailboxState.Read else MailboxState.Received)
               (mailbox (vm_inner tv))) else mbox hv v) ∧
    next = (if (vm_id tv =? HF_PRIMARY_VM_ID) || negb (vm_id fv =? HF_PRIMARY_VM_ID)
            then Some (primary_index, idx) else None).
Proof.
  intros Hs Hem Hcf Himp Hm Hrp Hdis Hcpu. rewrite (msg_send_checked _ _ _ _ _ _ _ _ Hs), Hem, Hcf, Himp.
  cbn [negb orb]. cbv zeta. destruct Hs as [Hf _ Hsp _ Hlen _ _ Hto].
  change SPCI_MSG_PAYLOAD_MAX with 4080 in Hlen. change SIZEOF_SpciMessage with 16. unfold el2_writes, el2_reads.
  rewrite (page_mapped_el2 _ _ _ _ _ Hrp), (page_mapped_el2 _ _ _ _ _ Hsp) by lia. cbn [andb assert_then].
  set (msg := sent hv fv) in *. set (mem := memcpy _ _ _ _).
  destruct (deliver_spec hw now (set_mem mem hv) to c.1 c idx tv fv Hto Hf Hcpu) as (next & hv' & Hd & Hm' & Hn & Hb).
  exists next, hv'. rewrite Hm'. cbn [hv_mem set_mem]. split_and!; [done| | | |exact Hb|exact Hn].
  - unfold mem. rewrite (read_message_ext (write_message (hv_mem hv) (recv_page tv) msg)).
    + by apply read_write_message, read_message_ok.
    + intros x Hx. apply memcpy_other. lia.
  - intros k Hk. unfold mem, memcpy. rewrite bool_decide_true by lia.
    replace (send_page fv + 16 + (recv_page tv + 16 + k - (recv_page tv + 16))) with (send_page fv + 16 + k) by lia.
    apply write_message_other. lia.
  - intros x Hx. unfold mem. assert (0 ≤ length_ msg) by (apply (read_message_ok (hv_mem hv) (send_page fv) Hm)).
    rewrite memcpy_other by lia. apply write_message_other. lia.
Qed.

(** C10: when the mailbox of the recipient of a valid message is not empty, or not
    configured, [spci_msg_send] returns [Busy] without touching memory, any mailbox's
    state or pages, or any page table; with the notify attribute the sender is on the
    waiter list of the recipient afterwards.  With that attribute the id of the
    recipient has to be below [MAX_VMS], 16: with the last id, which a VM may have,
    the code indexes the wait entries out of bounds and panics. *)
Theorem msg_send_busy hw now hv attributes c fv to tv :
  sendable hv c fv to tv → mailboxes_ok hv →
  (bf_contains attributes NOTIFY = true → Z.of_nat to + HF_VM_ID_OFFSET < MAX_VMS) →
  mailbox_empty (vm_inner tv) = false ∨ is_configured (vm_inner tv) = false →
  ∃ hv', spci_msg_send MESSAGE_BUFFER hw now hv attributes c = Done (Busy, None, hv') ∧
    mailboxes_ok hv' ∧ hv_mem hv' = hv_mem hv ∧ vtabs hv' = vtabs hv ∧
    (∀ v, mb_state <$> mbox hv' v = mb_state <$> mbox hv v ∧ mb_recv <$> mbox hv' v = mb_recv <$> mbox hv v) ∧
    (bf_contains attributes NOTIFY = false → hv' = hv) ∧
    (bf_contains attributes NOTIFY = true → (c.1, S to) ∈ waiters_of hv' to).
Proof.
  intros Hs HO H16 Hb. rewrite (msg_send_checked _ _ _ _ _ _ _ _ Hs). destruct Hs as [Hf _ _ _ _ _ _ Hto].
  assert (negb (mailbox_empty (vm_inner tv)) || negb (is_configured (vm_inner tv)) = true) as ->.
  { destruct Hb as [-> | ->]; [done|]. by rewrite orb_true_r. }
  destruct (bf_contains attributes NOTIFY).
  2:{ exists hv. by split_and!. }
  specialize (H16 eq_refl). change HF_VM_ID_OFFSET with 1 in H16. change MAX_VMS with 16 in H16.
  assert (Hl : length (wait_entries (vm_inner fv)) = 16%nat) by (by rewrite (proj2 (mo_vm _ HO _ _ Hf)), length_replicate).
  destruct (wait_for c.1 (vm_inner fv) (vm_inner tv) (vm_id tv) (hv_links hv)) as [[[b i] lk]|] eqn:Hw.
  2:{ exfalso. unfold wait_for in Hw. rewrite Hl, (proj1 (mo_vm _ HO _ _ Hto)) in Hw.
      replace (Z.to_nat (Z.of_nat to + 1)) with (S to) in Hw by lia.
      destruct (Nat.ltb_spec (S to) 16); [|lia]. cbn [negb] in Hw. cbv zeta in Hw. by case_bool_decide. }
  cbn [mbind exec_bind]. eexists. split; [done|].
  destruct (wait_for_ok hv c.1 (vm_inner fv) to tv _ b i lk HO (lookup_lt_Some _ _ _ Hf) Hto eq_refl Hl Hw) as [HO' Hin].
  split_and!; [done|done| | |done|].
  - exact (fr_vms _ _ _ _ (wait_for_frame vtab vtab_quiet_mailbox hv c.1 (vm_inner fv) to tv _ _ b i lk Hto Hw)).
  - intros v. unfold mbox. cbn. destruct (decide (v = to)) as [->|].
    + rewrite list_lookup_alter_eq, Hto. cbn. unfold wait_for in Hw. destruct (negb _); [done|]. cbv zeta in Hw.
      by case_bool_decide; simplify_eq.
    + by rewrite list_lookup_alter_ne.
  - intros _. apply (mo_waiting _ HO') in Hin as [w Hw']. pose proof (pt_key _ _ _ (mo_waiting _ HO') w _ Hw') as (Hk & _).
    cbn in Hk. injection Hk as <-. done.
Qed.

End send.

(** ** On the small machine *)
Module MsgDemo.
(** Both VMs have mailboxes; the first sends four bytes to the second. *)
Definition mb (recv send : Z) : Mailbox := mkMailbox MailboxState.Empty recv send [] [].
Definition fv : Vm :=
  mkVm 1 [HvDemo.ready 0] (with_mailbox (mb 0x40001000 0x40000000) (HvDemo.inner 0 HvDemo.t1)) false.
Definition tv (s : MailboxState.t) : Vm :=
  mkVm 2 [HvDemo.ready 1]
    (with_mailbox (mb_set_state s (mb 0x40003000 0x40002000)) (HvDemo.inner 1 HvDemo.t2)) false.
Definition mem : Mem := write_message (λ _, 0) 0x40000000 (mkSpciMessage 1 0 4 2 1 0).
(** The hypervisor maps the mailbox pages, the page behind them and the buffers. *)
Definition map1 (t : PageTable) (b e : Z) (st : MmState) : PageTable * MmState :=
  match identity_map (A := aarch64 Aarch64.PA40) (SG := @Stage1 (aarch64 Aarch64.PA40)) t (pa_init b) (pa_init e) (Z.lor Mode.R Mode.W) st with
  | Done (_, t, st) => (t, st)
  | Panic => (t, st)
  end.
Definition hp : PageTable :=
  let '(t, st) := map1 HvDemo.hp 0x40000000 0x40005000 HvDemo.st in (map1 t 0x600000 0x602000 st).1.
Definition hv (s : MailboxState.t) : Hypervisor := set_hv_ptable hp (set_mem mem (set_vms [fv; tv s] HvDemo.hv)).

Lemma msg_mem_bytes : mem_ok mem.
Proof. by apply mem_ok_write_message. Qed.
Lemma sendable_demo s : sendable Aarch64.PA40 (hv s) (0%nat, 0%nat) fv 1 (tv s).
Proof. split; [reflexivity|vm_compute; congruence|by split; vm_compute|vm_compute; congruence..|reflexivity]. Qed.
Lemma mapped_demo s : page_mapped Aarch64.PA40 (hv s) true 0x40003000.
Proof. by split; vm_compute. Qed.
Lemma on_cpu_demo s : on_cpu (hv s) (0%nat, 0%nat) 0.
Proof. exists (HvDemo.ready 0), fv. split_and!; [reflexivity..|]. vm_compute. lia. Qed.
Lemma mailboxes_msg_demo s : mailboxes_ok (hv s).
Proof. apply mailboxes_ok_empty; [|done]. by intros [|[|v]] vm [= <-]. Qed.
End MsgDemo.

Lemma msg_send_delivers_witness :
  ∃ next hv', spci_msg_send (A := aarch64 Aarch64.PA40) (RD := Demo.demo_reduce) 0x600000 demo_hw 0
      (MsgDemo.hv MailboxState.Empty) 0 (0%nat, 0%nat) = Done (Success, next, hv') ∧
    read_message (hv_mem hv') 0x40003000 = mkSpciMessage 1 0 4 2 1 0.
Proof.
  destruct (msg_send_delivers Aarch64.PA40 (RD := Demo.demo_reduce) 0x600000 demo_hw 0 (MsgDemo.hv MailboxState.Empty) 0
    (0%nat, 0%nat) MsgDemo.fv 1 (MsgDemo.tv MailboxState.Empty) 0) as (next & hv' & H1 & H2 & _).
  - exact (MsgDemo.sendable_demo _).
  - reflexivity.
  - reflexivity.
  - vm_compute. reflexivity.
  - exact MsgDemo.msg_mem_bytes.
  - exact (MsgDemo.mapped_demo _).
  - left. vm_compute. congruence.
  - exact (MsgDemo.on_cpu_demo _).
  - exists next, hv'. split; [exact H1|exact H2].
Defined.

Lemma msg_send_busy_witness :
  ∃ hv', spci_msg_send (A := aarch64 Aarch64.PA40) (RD := Demo.demo_reduce) 0x600000 demo_hw 0
      (MsgDemo.hv MailboxState.Received) NOTIFY (0%nat, 0%nat) = Done (Busy, None, hv') ∧
    (0%nat, 2%nat) ∈ waiters_of hv' 1.
Proof.
  destruct (msg_send_busy Aarch64.PA40 (RD := Demo.demo_reduce) 0x600000 demo_hw 0 (MsgDemo.hv MailboxState.Received) NOTIFY
    (0%nat, 0%nat) MsgDemo.fv 1 (MsgDemo.tv MailboxState.Received)) as (hv' & H1 & _ & _ & _ & _ & _ & H2).
  - exact (MsgDemo.sendable_demo _).
  - exact (MsgDemo.mailboxes_msg_demo _).
  - intros _. vm_compute. reflexivity.
  - left. reflexivity.
  - exists hv'. split; [exact H1|exact (H2 eq_refl)].
Defined.

(** A request to donate one page, padded to 32 constituents: 528 bytes. *)
Definition overrun_mem : Mem :=
  wr 1 (wr 4 (wr 8 (wr 4 (wr 2 (λ _, 0) 0x600000 2) 0x60000c 32) 0x600010 HvDemo.base) 0x600018 1) 0x600ff0 0xaa.
Definition overrun_msg : SpciMessage := mkSpciMessage 0 0 528 2 1 0.
Definition overrun : SpciReturn * VmInner * VmInner * Mem * MmState :=
  match spci_msg_handle_architected_message (A := aarch64 Aarch64.PA40) (RD := Demo.demo_reduce) false
          (HvDemo.inner 1 HvDemo.t2) (HvDemo.inner 0 HvDemo.t1) overrun_mem 0x600000 overrun_msg 0x40003000 MsgDemo.hp HvDemo.st with
  | Done r => r
  | Panic => (Busy, HvDemo.inner 1 HvDemo.t2, HvDemo.inner 0 HvDemo.t1, overrun_mem, HvDemo.st)
  end.
Lemma overrun_ok :
  match spci_msg_handle_architected_message (A := aarch64 Aarch64.PA40) (RD := Demo.demo_reduce) false
          (HvDemo.inner 1 HvDemo.t2) (HvDemo.inner 0 HvDemo.t1) overrun_mem 0x600000 overrun_msg 0x40003000 MsgDemo.hp HvDemo.st with
  | Done (ret, _, _, _, _) => bool_decide (ret = Success)
  | Panic => false
  end = true.
Proof. vm_compute. reflexivity. Qed.
Lemma overrun_eq :
  spci_msg_handle_architected_message (A := aarch64 Aarch64.PA40) (RD := Demo.demo_reduce) false
    (HvDemo.inner 1 HvDemo.t2) (HvDemo.inner 0 HvDemo.t1) overrun_mem 0x600000 overrun_msg 0x40003000 MsgDemo.hp HvDemo.st
  = Done (Success, overrun.1.1.1.2, overrun.1.1.2, overrun.1.2, overrun.2).
Proof.
  pose proof overrun_ok as H. unfold overrun.
  destruct (spci_msg_handle_architected_message _ _ _ _ _ _ _ _ _) as [[[[[ret ti] fi] m] s]|]; [|discriminate].
  apply bool_decide_eq_true in H. by rewrite H.
Qed.


(** The mailbox of the second VM is full: the first VM sends to it and waits, the second
    VM empties it, and the primary VM asks who waits. *)
Module WaitDemo.
#[local] Existing Instance Demo.demo_reduce.
#[local] Hint Extern 0 ArchMM => exact (aarch64 Aarch64.PA40) : typeclass_instances.
Abbreviation run hv c call := (hv_exec Aarch64.PA40 0x600000 demo_hw 0 0 0 hv c call).
Definition after (hv : Hypervisor) (r : exec (option Hypervisor)) : Hypervisor := match r with Done (Some hv) => hv | _ => hv end.
Definition hv0 : Hypervisor := MsgDemo.hv MailboxState.Read.
Definition hv1 : Hypervisor := after hv0 (run hv0 (0%nat, 0%nat) (CMsgSend NOTIFY)).
Definition hv2 : Hypervisor := after hv1 (run hv1 (1%nat, 0%nat) CMailboxClear).
Definition runs (r : exec (option Hypervisor)) : bool := match r with Done (Some _) => true | _ => false end.
Lemma runs_after hv r : runs r = true → r = Done (Some (after hv r)).
Proof. by destruct r as [[]|]. Qed.
Lemma waiting_run : rtc (hv_step Aarch64.PA40 0x600000) hv0 hv2.
Proof.
  apply rtc_l with hv1; [|apply rtc_once].
  - apply (step_call Aarch64.PA40 0x600000 demo_hw 0 0 0 hv0 (0%nat, 0%nat) (CMsgSend NOTIFY)); [done|].
    apply runs_after. vm_compute. reflexivity.
  - apply (step_call Aarch64.PA40 0x600000 demo_hw 0 0 0 hv1 (1%nat, 0%nat) CMailboxClear); [done|].
    apply runs_after. vm_compute. reflexivity.
Qed.
End WaitDemo.
Lemma mailbox_lists_witness :
  waiters_of WaitDemo.hv2 1 = [(0%nat, 2%nat)] ∧
  ∃ hv', mailbox_waiter_get WaitDemo.hv2 2 (0%nat, 0%nat) = Done (Some 1, hv') ∧ waiters_of hv' 1 = [] ∧ ready_of hv' 0 = [(0%nat, 2%nat)].
Proof.
  split; [vm_compute; reflexivity|].
  destruct (mailbox_lists_consistent Aarch64.PA40 (RD := Demo.demo_reduce) 0x600000 WaitDemo.hv0 WaitDemo.hv2) as [_ H].
  - exact (MsgDemo.mailboxes_msg_demo _).
  - exact WaitDemo.waiting_run.
  - destruct (H 2 (0%nat, 0%nat)) as (r & hv' & Hr & Hw); [vm_compute; by eexists|vm_compute; congruence|].
    assert (next_waiter WaitDemo.hv2 2 (0%nat, 0%nat) = Some (0%nat, 2%nat)) as E by (vm_compute; reflexivity). rewrite E in Hw.
    destruct Hw as (-> & Hw & Hrd). exists hv'. split; [exact Hr|]. specialize (Hw 1%nat). specialize (Hrd 0%nat). split.
    + replace (waiters_of WaitDemo.hv2 1) with [(0%nat, 2%nat)] in Hw by (vm_compute; reflexivity). by injection Hw.
    + replace (ready_of WaitDemo.hv2 0) with (@nil entry) in Hrd by (vm_compute; reflexivity). exact Hrd.
Defined.
