(* ===== verification/Availability.v ===== *)
(** * Hypercalls return

    The code asserts and unwraps in many places.  Here: none of these fails in a state
    the machine can reach, for any hypercall whose arguments are none of those known to
    panic: an id 0, pages beyond the hypervisor's own address space or in use by it, an
    architected message of no known type or whose copy, eight times its length, does not
    fit the receive page, waiting for the VM with the last id. *)
From S2P Require Import Prelude Addr Mode Arch ArchAarch64 Mpool Mm MmSpec MmTable PageTables MemoryManager Stage2Modes Access Abi.
From S2P Require Import ArchCpu Interrupts Cpu Vm Memory Spci Hypervisor Load Init Api Frames Ownership Sharing Isolation.
From S2P Require Import Rollback Touch Psci Handler Switch Machine Mapped Guarded Running Mailboxes Messages.

(** ** Computations that return *)
Definition returns {X} (e : exec X) : Prop := ∃ a, e = Done a.
Lemma returns_Done {X} (a : X) : returns (Done a).
Proof. by exists a. Qed.
Lemma returns_bind {X Y} (m : exec X) (f : X → exec Y) :
  returns m → (∀ a, m = Done a → returns (f a)) → returns (m ≫= f).
Proof. intros [a ->] Hf. by apply Hf. Qed.
Lemma returns_assert {X} (b : bool) (m : exec X) : b = true → returns m → returns (assert_then b m).
Proof. by intros ->. Qed.
Lemma returns_unwrap {X} (o : option X) : is_Some o → returns (unwrap_opt o).
Proof. intros [a ->]. by exists a. Qed.
Create HintDb returns discriminated.
#[export] Hint Resolve returns_Done : returns.

(** Walks through the binds and branches of a computation. *)
Ltac run :=
  cbv zeta;
  repeat match goal with
  | |- returns (Done _) => apply returns_Done
  | |- returns (mbind _ _) => apply returns_bind; [|intros ? ?]
  | |- returns (if ?b then _ else _) => let E := fresh "E" in destruct b eqn:E
  | |- returns (match ?x with _ => _ end) => let E := fresh "E" in destruct x eqn:E
  end; eauto with returns.

(** ** The debug log and the CPUs *)

(** No buffer of the debug log is full. *)
Definition vlog (vm : Vm) : list Z := log_buffer (vm_inner vm).
Definition logs_ok (hv : Hypervisor) : Prop := Forall (λ l, Z.of_nat (length l) < LOG_BUFFER_SIZE) (vlog <$> hv_vms hv).
Lemma vlog_quiet : quiet vlog.
Proof. by split. Qed.
Lemma vlog_quiet_vcpu : quiet_vcpu vlog.
Proof. done. Qed.
Lemma vlog_quiet_mailbox : quiet_mailbox vlog.
Proof. done. Qed.
#[export] Hint Resolve vlog_quiet vlog_quiet_vcpu vlog_quiet_mailbox : hfo2.

(** The logs and the CPUs stay. *)
Definition same_logs (hv hv' : Hypervisor) : Prop := vlog <$> hv_vms hv' = vlog <$> hv_vms hv ∧ hv_cpus hv' = hv_cpus hv.
#[local] Instance same_logs_preorder : PreOrder same_logs.
Proof. split; [by intros hv|]. intros a b c [? ?] [? ?]. split; congruence. Qed.
Lemma frame_logs L hv hv' : frame L vlog hv hv' → same_logs hv hv'.
Proof. intros []. by split. Qed.
Lemma same_logs_set_inner v i vm hv :
  hv_vms hv !! v = Some vm → log_buffer i = vlog vm → same_logs hv (set_inner v i hv).
Proof. intros Hv Hi. by eapply (frame_logs true), frame_set_inner. Qed.

Section logs.
Context (p : Aarch64.pa_bits) {RD : ReduceCrate} (MESSAGE_BUFFER : Z).
#[local] Hint Extern 0 ArchMM => exact (aarch64 p) : typeclass_instances.

Lemma msg_send_logs hw now hv a c r next hv' :
  spci_msg_send MESSAGE_BUFFER hw now hv a c = Done (r, next, hv') → same_logs hv hv'.
Proof.
  intros H. unfold spci_msg_send in H. cbv zeta in H. apply bind_Done_inv in H as (fv & Hf%vm_of_Some & H).
  destruct (_ =? 0); [by simplify_eq|]. apply assert_then_Done in H as [_ H].
  do 2 (destruct (_ : bool); [by simplify_eq|]). destruct (_ =? vm_id fv); [by simplify_eq|].
  apply bind_Done_inv in H as ([to|] & _ & H); [|by simplify_eq]. apply bind_Done_inv in H as (tv & Ht%vm_of_Some & H).
  destruct (negb _ || negb _).
  { destruct (bf_contains a NOTIFY); [|by simplify_eq]. apply bind_Done_inv in H as ([[b i] lk] & Hw & [= <- <- <-]).
    change (same_logs hv (set_inner to i hv)). eapply same_logs_set_inner; [done|]. unfold wait_for in Hw. by unbind Hw; simplify_eq. }
  destruct (bf_contains _ _); [apply assert_then_Done in H as [_ H]; by apply (deliver_frame vlog vlog_quiet true), frame_logs in H|].
  apply bind_Done_inv in H as (cur & _ & H). apply bind_Done_inv in H as (cpu & _ & H).
  apply bind_Done_inv in H as (buffer & _ & H). do 2 (destruct (_ <? _); [by simplify_eq|]). apply assert_then_Done in H as [_ H].
  apply bind_Done_inv in H as ([[[[ret ti] fi] mem] st] & [Hti Hfi]%handle_lists & H).
  assert (Hl : same_logs hv (set_mm st (set_mem mem (set_inner c.1 fi (set_inner to ti hv))))).
  { change (same_logs hv (set_inner c.1 fi (set_inner to ti hv))). injection Hti as _ _ _ Hti. injection Hfi as _ _ _ Hfi.
    etrans; [by eapply (same_logs_set_inner to ti tv)|]. unfold set_inner at 2.
    destruct (decide (to = c.1)) as [->|Hne].
    - eapply (same_logs_set_inner _ fi (upd_vm_inner (λ _, ti) tv)); cbn; [by rewrite list_lookup_alter_eq, Ht|].
      unfold vlog. cbn. rewrite Hf in Ht. injection Ht as ->. congruence.
    - eapply (same_logs_set_inner _ fi fv); cbn; [by rewrite list_lookup_alter_ne|done]. }
  destruct (negb _); [by simplify_eq|]. etrans; [exact Hl|]. by apply (deliver_frame vlog vlog_quiet true), frame_logs in H.
Qed.
Lemma share_memory_logs hv id addr size share c ok hv' :
  share_memory hv id addr size share c = Done (ok, hv') → same_logs hv hv'.
Proof.
  intros H. unfold share_memory in H. cbv zeta in H. unbind H; simplify_eq; try done.
  match goal with |- same_logs hv (set_mm _ (set_mem _ (set_hv_ptable _ ?h))) => change (same_logs hv h) end.
  etrans; apply (frame_logs true), frame_upd_vm; by intros.
Qed.
Lemma vm_configure_logs hw now hv s rv c r next hv' :
  vm_configure hw now hv s rv c = Done (r, next, hv') → same_logs hv hv'.
Proof.
  intros H. unfold vm_configure in H. apply bind_Done_inv in H as (vm & Hv%vm_of_Some & H).
  apply bind_Done_inv in H as ([[[ok i] hp] st] & Hc%configure_lists & H). cbv zeta in H. injection Hc as _ _ _ Hc.
  assert (Hl : same_logs hv (set_mm st (set_hv_ptable hp (set_inner c.1 i hv)))).
  { change (same_logs hv (set_inner c.1 i hv)). by eapply same_logs_set_inner. }
  destruct (negb ok); [by simplify_eq|]. etrans; [exact Hl|]. by apply (waiter_result_frame vlog vlog_quiet true), frame_logs in H.
Qed.

(** A byte that fills the buffer empties it. *)
Lemma debug_log_logs hv ch c out hv' :
  hv_debug_log hv ch c = Done (out, hv') → hv_cpus hv' = hv_cpus hv ∧ (logs_ok hv → logs_ok hv').
Proof.
  unfold logs_ok. rewrite !Forall_fmap. intros H. unfold hv_debug_log in H. apply bind_Done_inv in H as (vm & Hv%vm_of_Some & H).
  apply bind_Done_inv in H as ([o i] & Hd & [= <- <-]). split; [done|]. intros Hl.
  assert (Hvm : Z.of_nat (length (log_buffer i)) < LOG_BUFFER_SIZE).
  { pose proof (proj1 (Forall_lookup _ _) Hl _ _ Hv) as Hvl. cbn in Hvl. unfold vlog in Hvl. unfold debug_log in Hd.
    apply bind_Done_inv in Hd as ([fl buf] & Hb & Hd). destruct fl; [by simplify_eq|]. injection Hd as _ <-. cbn.
    destruct (_ || _); [done|]. destruct (_ <=? _); [done|]. cbv zeta in Hb. injection Hb as Hb <-.
    apply Z.eqb_neq in Hb. rewrite length_app in *. cbn [length] in *. lia. }
  cbn [hv_vms set_inner upd_vm set_vms]. apply Forall_alter; [done|]. intros vm' Hv' _. cbn. done.
Qed.

Lemma exec_logs hw n1 n2 n3 hv c call hv' :
  hv_exec p MESSAGE_BUFFER hw n1 n2 n3 hv c call = Done (Some hv') → hv_cpus hv' = hv_cpus hv ∧ (logs_ok hv → logs_ok hv').
Proof.
  intros H. assert (Hsame : same_logs hv hv' → hv_cpus hv' = hv_cpus hv ∧ (logs_ok hv → logs_ok hv')).
  { intros [Hv Hc]. split; [done|]. unfold logs_ok. by rewrite Hv. }
  destruct (memory_call call || log_call call) eqn:Hm.
  2:{ apply orb_false_iff in Hm as [Hm Hg]. apply Hsame. eapply (frame_logs false), exec_frame; eauto with hfo2. by rewrite Hg. }
  destruct call; try done; clear Hm; cbn [hv_exec] in H; unbind H; simplify_eq.
  - apply Hsame. by eapply vm_configure_logs.
  - apply Hsame. match goal with E : api_spci_msg_send _ _ _ _ _ _ = _ |- _ => unfold api_spci_msg_send in E; unbind E; simplify_eq end.
    by eapply msg_send_logs.
  - apply Hsame. match goal with E : api_share_memory _ _ _ _ _ _ = _ |- _ => unfold api_share_memory in E; unbind E; simplify_eq end; [|done].
    by eapply share_memory_logs.
  - match goal with E : api_debug_log _ _ _ = _ |- _ => unfold api_debug_log in E; unbind E; simplify_eq end.
    by eapply debug_log_logs.
Qed.

(** What the handlers keep. *)
Definition keeps_available (hv hv' : Hypervisor) : Prop :=
  cpu_id <$> hv_cpus hv' = cpu_id <$> hv_cpus hv ∧ (logs_ok hv → logs_ok hv') ∧ (mailboxes_ok hv → mailboxes_ok hv') ∧
  keeps_mapped p hv hv'.
#[export] Instance keeps_available_kept : Kept p MESSAGE_BUFFER keeps_available.
Proof.
  split.
  - split; [intros hv; by split_and!|]. intros a b c (? & ? & ? & ?) (? & ? & ? & ?). split; [congruence|]. do 2 (split; [auto|]). by etrans.
  - intros v f hv Hf. split; [done|]. split; [unfold logs_ok; intros Hl|split; [|by apply (kept_vcpus (Kept := keeps_mapped_kept p MESSAGE_BUFFER))]].
    + assert (Hfr : frame true vlog hv (upd_vm v f hv)) by (apply frame_upd_vm; intros vm _; unfold vlog; by destruct (Hf vm) as [_ ->]).
      by rewrite (fr_vms _ _ _ _ Hfr).
    + apply mailboxes_ok_frame, frame_upd_vm. intros vm _. unfold vlists. by destruct (Hf vm) as [-> ->].
  - intros cpus hv Hc. split; [done|]. split; [done|]. split; [by apply mailboxes_ok_same|].
    by apply (kept_cpus (Kept := keeps_mapped_kept p MESSAGE_BUFFER)).
  - intros hw n1 n2 n3 hv c call hv' Hty H. destruct (exec_logs _ _ _ _ _ _ _ _ H) as [Hc Hl]. split; [by rewrite Hc|]. split; [done|].
    split; [intros HO; by eapply exec_lists|]. by apply (kept_exec (Kept := keeps_mapped_kept p MESSAGE_BUFFER) _ _ _ _ _ _ _ _ Hty H).
Qed.
Lemma set_mem_available mem hv : mem_ok mem → keeps_available hv (set_mem mem hv).
Proof. intros Hm. split; [done|]. split; [done|]. split; [by apply mailboxes_set_mem|by apply set_mem_mapped]. Qed.
End logs.

(** ** Calls that switch *)
Lemma on_cpu_at hv c k : Messages.on_cpu hv c k ↔ cpu_of hv c = Some k ∧ is_Some (vcpu_at hv (primary_index, k)).
Proof.
  unfold Messages.on_cpu, cpu_of, vcpu_at at 2. split.
  - intros (cur & pr & Hc%vcpu_of_at & Hi & Hp & Hl). rewrite Hc. cbn. rewrite Hp. split; [done|]. by apply lookup_lt_is_Some.
  - intros [Hc Hp]. destruct (vcpu_at hv c) as [cur|] eqn:E; [|done]. cbn [fst snd] in Hp.
    destruct (hv_vms hv !! primary_index) as [pr|] eqn:Ep; [|by destruct Hp]. exists cur, pr.
    split_and!; [by apply vcpu_of_at|done|done|]. by apply lookup_lt_is_Some.
Qed.
(** A change of VMs that leaves the CPUs of vCPUs. *)
Lemma on_cpu_upd v f hv c k :
  (∀ vm i, (λ w, vi_cpu (vc_inner w)) <$> vcpus (f vm) !! i = (λ w, vi_cpu (vc_inner w)) <$> vcpus vm !! i) →
  Messages.on_cpu hv c k → Messages.on_cpu (upd_vm v f hv) c k.
Proof.
  intros Hf. rewrite !on_cpu_at. unfold cpu_of. assert (Hx : ∀ x, (λ w, vi_cpu (vc_inner w)) <$> vcpu_at (upd_vm v f hv) x = (λ w, vi_cpu (vc_inner w)) <$> vcpu_at hv x).
  { intros x. rewrite vcpu_at_upd_vm. destruct (decide (x.1 = v)) as [<-|]; [|done]. unfold vcpu_at.
    destruct (hv_vms hv !! x.1) as [vm|]; [|done]. cbn. by rewrite Hf. }
  intros [Hc Hp]. split.
  - specialize (Hx c). destruct (vcpu_at hv c) as [w|], (vcpu_at (upd_vm v f hv) c) as [w'|]; cbn in *; congruence.
  - specialize (Hx (primary_index, k)). destruct Hp as [w Hw]. rewrite Hw in Hx. destruct (vcpu_at _ (primary_index, k)); [eauto|done].
Qed.
Lemma on_cpu_ints x i hv c k : Messages.on_cpu hv c k → Messages.on_cpu (upd_vc x (upd_interrupts i) hv) c k.
Proof.
  apply on_cpu_upd. intros vm j. cbn. destruct (decide (j = x.2)) as [->|].
  - rewrite list_lookup_alter_eq. by destruct (vcpus vm !! x.2).
  - by rewrite list_lookup_alter_ne.
Qed.

Section calls.
Context (hw : Hw) (now : Z) (hv : Hypervisor) (c : vref) (k : nat) (Hon : Messages.on_cpu hv c k).

Lemma switch_returns ret s : returns (switch_to_primary hw now hv c ret s).
Proof. destruct (switch_to_primary_spec hw now hv c k ret s Hon) as (hv' & H & _). by eexists. Qed.
Lemma vm_returns v : is_Some (hv_vms hv !! v) → returns (vm_of hv v).
Proof. apply returns_unwrap. Qed.
Lemma current_vm : is_Some (hv_vms hv !! c.1).
Proof.
  apply on_cpu_at in Hon as [H _]. unfold cpu_of, vcpu_at in H. by destruct (hv_vms hv !! c.1).
Qed.
Lemma current_vcpu : returns (vcpu_of hv c).
Proof. destruct Hon as (cur & pr & H & _). by eexists. Qed.
End calls.
#[export] Hint Resolve switch_returns vm_returns current_vm current_vcpu : returns.
Lemma get_vm_returns vms id : HF_VM_ID_OFFSET ≤ id → returns (get_vm vms id).
Proof. intros Hid. unfold get_vm, get_vm_index, assert_then. rewrite (proj2 (Z.leb_le _ _)) by done. cbn. by eexists. Qed.
Lemma found_vm hv id v : get_vm (hv_vms hv) id = Done (Some v) → returns (vm_of hv v).
Proof. intros (_ & _ & Hv)%get_vm_Some. by apply returns_unwrap, lookup_lt_is_Some. Qed.
Lemma found_vcpu hv v vm i w : vm_of hv v = Done vm → vcpus vm !! i = Some w → returns (vcpu_of hv (v, i)).
Proof. intros Hv Hw. unfold vcpu_of. cbn. rewrite Hv. cbn. rewrite Hw. by eexists. Qed.
#[export] Hint Resolve get_vm_returns found_vm found_vcpu : returns.

Section calls.
Context (hw : Hw) (now1 now2 now3 : Z) (hv : Hypervisor) (c : vref) (k : nat) (Hon : Messages.on_cpu hv c k).

Lemma yield_returns : returns (spci_yield hw now1 hv c).
Proof. unfold spci_yield. run. Qed.
Lemma wake_up_returns t : is_Some (hv_vms hv !! t.1) → returns (wake_up hw now1 hv c t).
Proof. intros Ht. unfold wake_up. run. Qed.
Lemma abort_returns : ∃ r, abort hw now1 hv c = Done r ∧ (r = None → ∃ vm, hv_vms hv !! c.1 = Some vm ∧ vm_id vm = HF_PRIMARY_VM_ID).
Proof.
  destruct (current_vm hv c k Hon) as [vm Hvm]. unfold abort, vm_of. rewrite Hvm. cbn [unwrap_opt mbind exec_bind].
  destruct (Z.eqb_spec (vm_id vm) HF_PRIMARY_VM_ID); [eauto|]. cbv zeta.
  destruct (switch_returns hw now1 _ c k (on_cpu_upd c.1 (λ vm, mkVm (vm_id vm) (vcpus vm) (vm_inner vm) true) hv c k (λ _ _, eq_refl) Hon)
    Aborted VCpuStatus.Aborted) as [[next hv'] ->]. cbn. by eexists.
Qed.
Lemma inject_returns t intid : returns (vcpu_of hv t) → returns (internal_interrupt_inject hw now1 hv t intid c).
Proof.
  intros Ht. unfold internal_interrupt_inject. apply returns_bind; [done|]. intros tv Htv%vcpu_of_at.
  destruct (inject _ _) as [ok ints]. cbv zeta. destruct ok; [|run].
  pose proof (on_cpu_ints t ints hv c k Hon) as Hon'. run. unfold wake_up. run.
  apply returns_unwrap. destruct (vcpu_at hv t) eqn:E2; [|done]. unfold vcpu_at in E2. cbn. rewrite list_lookup_alter_eq.
  by destruct (hv_vms hv !! t.1).
Qed.
Lemma interrupt_inject_returns id idx intid :
  HF_VM_ID_OFFSET ≤ id → returns (interrupt_inject hw now1 hv id idx intid c).
Proof.
  intros Hid. unfold interrupt_inject. run. apply inject_returns. run.
Qed.

(** A vCPU that is told to run interrupts itself when its timer has expired. *)
Lemma inject_self_returns h t vm intid :
  hv_vms h !! t.1 = Some vm → vm_id vm ≠ HF_PRIMARY_VM_ID → returns (vcpu_of h t) → returns (internal_interrupt_inject hw now3 h t intid t).
Proof.
  intros Hvm Hid Ht. unfold internal_interrupt_inject. apply returns_bind; [done|]. intros tv _.
  destruct (inject _ _) as [[] ints]; cbv zeta; [|run]. unfold vm_of. cbn. rewrite list_lookup_alter_eq, Hvm. cbn.
  rewrite (proj2 (Z.eqb_neq _ _)) by done. rewrite bool_decide_true by done. cbn. run.
Qed.
Lemma prepare_locked_vm vm v cpu ret res vm' v' :
  prepare_locked hw now1 now2 vm v cpu ret = (res, vm', v') → vm_id vm' = vm_id vm ∧ vcpus vm' = vcpus vm.
Proof.
  unfold prepare_locked. intros H. destruct (aborting vm); [by simplify_eq|].
  destruct (vi_state (vc_inner v)); try (by simplify_eq).
  - destruct (try_read _) as [[] m]; [by simplify_eq|]. destruct (_ && _); by simplify_eq.
  - destruct (_ && _); by simplify_eq.
Qed.
Lemma prepare_run_returns t ret :
  returns (vcpu_of hv t) → ∃ r h, vcpu_prepare_run hw now1 now2 hv c t ret = Done (r, h) ∧
    ∀ l, r = Ok l → l = t ∧ returns (vcpu_of h t) ∧ vm_id <$> hv_vms h !! t.1 = vm_id <$> hv_vms hv !! t.1.
Proof.
  intros [v Hv]. pose proof Hv as Hat%vcpu_of_at. unfold vcpu_prepare_run. rewrite Hv. cbn [mbind exec_bind].
  destruct (vcpu_try_lock v) as [[] v1]; cbn [negb]; [|by eexists _, _].
  destruct (hv_vms hv !! t.1) as [vm|] eqn:Hvm; [|unfold vcpu_at in Hat; by rewrite Hvm in Hat].
  unfold vm_of. rewrite Hvm. cbn [unwrap_opt mbind exec_bind]. destruct (current_vcpu hv c k Hon) as [cur ->]. cbn [mbind exec_bind].
  destruct (prepare_locked _ _ _ _ _ _ _) as [[[[]|ret'] vm'] v'] eqn:Hp; cbv zeta; [|by eexists _, _].
  eexists _, _. split; [done|]. intros l [= <-]. split; [done|]. unfold vcpu_of, vm_of. cbn. rewrite list_lookup_alter_eq, Hvm. cbn.
  apply prepare_locked_vm in Hp as [-> ->]. split; [|done]. unfold vcpu_at in Hat. rewrite Hvm in Hat. cbn in Hat. rewrite list_lookup_alter_eq, Hat. cbn. run.
Qed.
Lemma vcpu_run_returns id idx : HF_VM_ID_OFFSET ≤ id → mailboxes_ok hv → returns (vcpu_run hw now1 now2 now3 hv id idx c).
Proof.
  intros Hid HO. unfold vcpu_run. cbv zeta. apply returns_bind; [eauto with returns|]. intros cur _. destruct (negb _); [run|].
  destruct (Z.eqb_spec id HF_PRIMARY_VM_ID) as [|Hne]; [run|]. apply returns_bind; [by apply get_vm_returns|].
  intros [v|] Hv; [|run]. apply returns_bind; [eauto with returns|]. intros vm Hvm. destruct (vcpus vm !! _) as [w|] eqn:Hw; [|run].
  destruct (prepare_run_returns (v, Z.to_nat idx) (WaitForInterrupt HF_SLEEP_INDEFINITE)) as (r & h & -> & Hr); [eauto with returns|].
  cbn [mbind exec_bind]. destruct r as [l|]; [|run]. destruct (Hr l eq_refl) as (-> & Hl & Hids). apply returns_bind; [done|].
  intros vc _. destruct (arch_timer_pending _ _); [|run].
  apply vm_of_Some in Hvm. apply get_vm_Some in Hv as (_ & -> & _). cbn in Hids. rewrite Hvm in Hids.
  destruct (hv_vms h !! _) as [vm'|] eqn:Hvm'; [|done]. injection Hids as Hids. apply returns_bind; [|by intros [[??]?] _; run].
  eapply inject_self_returns; [exact Hvm'| |done]. rewrite Hids, (proj1 (mo_vm _ HO _ _ Hvm)).
  change HF_VM_ID_OFFSET with 1 in *. change HF_PRIMARY_VM_ID with 1 in *. lia.
Qed.

Lemma msg_recv_returns a : returns (spci_msg_recv hw now1 hv a c).
Proof.
  unfold spci_msg_recv. apply returns_bind; [eauto with returns|]. intros vm _. destruct (_ =? _); [run|].
  destruct (try_read _) as [[] m]; cbv zeta; [run|]. destruct (negb _); [run|].
  pose proof (on_cpu_upd_inner c.1 (with_mailbox m) hv c k Hon) as Hon'. run.
Qed.
Lemma debug_log_returns ch : logs_ok hv → returns (hv_debug_log hv ch c).
Proof.
  unfold logs_ok. rewrite Forall_fmap, Forall_lookup. intros Hl. unfold hv_debug_log. apply returns_bind; [eauto with returns|].
  intros vm Hvm%vm_of_Some. specialize (Hl _ _ Hvm). cbn in Hl. unfold vlog in Hl.
  apply returns_bind; [|by intros [??] _; run]. unfold debug_log.
  destruct (_ || _); [run|]. destruct (Z.leb_spec LOG_BUFFER_SIZE (Z.of_nat (length (log_buffer (vm_inner vm))))); [lia|]. run.
Qed.
End calls.

Lemma waiter_result_returns hw now hv id i c k : Messages.on_cpu hv c k → returns (waiter_result hw now hv id i c).
Proof. intros Hon. unfold waiter_result. run. Qed.
Lemma mailbox_clear_returns hw now hv c k : Messages.on_cpu hv c k → returns (mailbox_clear hw now hv c).
Proof.
  intros Hon. unfold mailbox_clear. apply returns_bind; [eauto with returns|]. intros vm _.
  destruct (mb_state _); [run..|]. cbv zeta. eapply waiter_result_returns. by apply on_cpu_upd_inner.
Qed.
Lemma interrupt_enable_returns hv intid on c k : Messages.on_cpu hv c k → returns (interrupt_enable hv intid on c).
Proof. intros Hon. unfold interrupt_enable. apply returns_bind; [eauto with returns|]. intros cur _. destruct (enable _ _ _). run. Qed.
Lemma interrupt_get_returns hv c k : Messages.on_cpu hv c k → returns (interrupt_get hv c).
Proof. intros Hon. unfold interrupt_get. apply returns_bind; [eauto with returns|]. intros cur _. destruct (get _). run. Qed.
Lemma deliver_returns hw now hv to from c k :
  is_Some (hv_vms hv !! to) → is_Some (hv_vms hv !! from) → Messages.on_cpu hv c k → returns (deliver hw now hv to from c).
Proof. intros [tv Ht] [fv Hf] Hon. destruct (deliver_spec hw now hv to from c k tv fv Ht Hf Hon) as (next & hv' & H & _). by eexists. Qed.

(** ** Memory calls *)
Section memory.
Context (p : Aarch64.pa_bits) {RD : ReduceCrate} (MESSAGE_BUFFER : Z).
#[local] Hint Extern 0 ArchMM => exact (aarch64 p) : typeclass_instances.

(** A state in which vCPU [c] runs on CPU [k]. *)
Record usable (hv : Hypervisor) (c : vref) (k : nat) : Prop := {
  us_wf : hv_wf p hv;
  us_mailboxes : mailboxes_ok hv;
  us_logs : logs_ok hv;
  us_mapped : mailboxes_mapped p hv;
  us_on : Messages.on_cpu hv c k;
  us_cpu : ∃ d, hv_cpus hv !! k = Some d ∧ cpu_id d < MAX_CPUS;
}.

Lemma attrs_to_mode_returns a : returns (spci_memory_attrs_to_mode a).
Proof.
  unfold spci_memory_attrs_to_mode. apply returns_bind; [|run]. unfold spci_get_lend_access_attr.
  set (x := Z.shiftr _ _). assert (Hx : 0 ≤ x < 4).
  { unfold x, SPCI_LEND_ACCESS_MASK, SPCI_LEND_ACCESS_OFFSET. rewrite Z.shiftr_land. change (Z.shiftr (Z.shiftl 3 7) 7) with (Z.ones 2).
    rewrite Z.land_ones by done. apply Z.mod_pos_bound. done. }
  assert (Hc : x = 0 ∨ x = 1 ∨ x = 2 ∨ x = 3) by lia. destruct Hc as [->|[->|[->| ->]]]; run.
Qed.
Lemma handle_returns same ti fi mem amr msg to_msg hp st :
  wf_ptable (SG := @Stage2 (aarch64 p)) (ptable fi) → wf_ptable (SG := @Stage2 (aarch64 p)) (ptable ti) → st_inv st → mem_ok mem →
  rd16 mem amr < 3 → 8 * length_ msg ≤ SPCI_MSG_PAYLOAD_MAX → 0 ≤ length_ msg → aligned 4096 to_msg → el2_page hp true to_msg = true →
  returns (spci_msg_handle_architected_message same ti fi mem amr msg to_msg hp st).
Proof.
  intros Hf Ht Hst Hm Hty Hlen Hpos Hal Hpg. change SPCI_MSG_PAYLOAD_MAX with 4080 in Hlen. unfold spci_msg_handle_architected_message. cbv zeta.
  assert (Hs : ∀ region size attrs share, in_u 3 attrs →
    returns (spci_validate_call_share_memory same ti fi mem region size attrs share st)).
  { intros region size attrs share Ha. unfold spci_validate_call_share_memory. cbv zeta. destruct (negb _); [run|].
    by apply spci_share_memory_runs. }
  apply returns_bind.
  { pose proof (rd16_range mem amr Hm) as Hr. unfold in_u in Hr. unfold header_type, SpciMemoryShare.of_raw.
    assert (Hc : rd16 mem amr = 0 ∨ rd16 mem amr = 1 ∨ rd16 mem amr = 2) by lia. destruct Hc as [->|[->| ->]]; run. }
  intros ty _. apply returns_bind.
  - destruct ty; [|by apply Hs..]. apply returns_bind; [apply attrs_to_mode_returns|]. intros m Hmode%attrs_to_mode_range. by apply Hs.
  - intros [[[ret ti'] fi'] st'] _. unfold el2_reads, el2_writes. change SIZEOF_SpciArchitectedMessageHeader with 8.
    change SIZEOF_SpciMessage with 16. change PAGE_SIZE with 4096. change SPCI_MSG_PAYLOAD_MAX with 4080.
    apply returns_bind; [|intros ? _; apply returns_assert; [apply (el2_one to_msg); (done || lia)|run]]. destruct (bool_decide _); [|run].
    apply returns_assert; [apply Z.leb_le; lia|]. rewrite el2_none, (el2_one to_msg) by (done || lia). cbn [andb assert_then]. run.
Qed.

(** The message in the send page: the target is a VM id, waited for only below
    [MAX_VMS]; the send page and the receive page of the target are in the first
    512 GiB; and an architected message is of a type of the enumeration and eight times
    its length fits the receive page. *)
Definition message_fine (hv : Hypervisor) (fv : Vm) (attributes : Z) : Prop :=
  HF_VM_ID_OFFSET ≤ target_vm_id (sent hv fv) ∧
  (bf_contains attributes NOTIFY = true → target_vm_id (sent hv fv) < MAX_VMS) ∧
  (bf_contains (flags (sent hv fv)) IMPDEF = false →
   rd16 (hv_mem hv) (get_architected_message_header (send_page fv)) < 3 ∧ 8 * length_ (sent hv fv) ≤ SPCI_MSG_PAYLOAD_MAX) ∧
  send_page fv + 4096 ≤ 2 ^ 39 ∧
  (∀ tv, hv_vms hv !! Z.to_nat (target_vm_id (sent hv fv) - HF_VM_ID_OFFSET) = Some tv → recv_page tv + 4096 ≤ 2 ^ 39).

Lemma set_inner_is_Some v i hv w : is_Some (hv_vms hv !! w) → is_Some (hv_vms (set_inner v i hv) !! w).
Proof. rewrite !lookup_lt_is_Some. unfold set_inner, upd_vm. cbn. by rewrite length_alter. Qed.
Lemma msg_send_returns hw now hv a c k fv :
  usable hv c k → hv_vms hv !! c.1 = Some fv → message_fine hv fv a → returns (spci_msg_send MESSAGE_BUFFER hw now hv a c).
Proof.
  intros [Hwf HO _ Hmap Hon (d & Hd & Hid)] Hf (Htgt & Hno & Hty & Hs39 & Hr39). unfold spci_msg_send. cbv zeta.
  assert (vm_of hv c.1 = Done fv) as -> by (unfold vm_of; by rewrite Hf). cbn [mbind exec_bind]. fold (send_page fv). fold (sent hv fv).
  assert (Hpages : ∀ v vm, hv_vms hv !! v = Some vm → (vpages <$> hv_vms hv) !! v = Some (send_page vm, recv_page vm)).
  { intros v vm Hv. by rewrite list_lookup_fmap, Hv. }
  destruct (Z.eqb_spec (send_page fv) 0) as [|Hsp]; [run|].
  destruct (Hmap _ _ (Hpages _ _ Hf)) as [Hsend _]. cbn [fst] in Hsend. specialize (Hsend Hsp).
  assert (Hsal : aligned 4096 (send_page fv)) by (by destruct Hsend as [(? & _) _]).
  assert (Hsel : el2_page (hv_ptable hv) false (send_page fv) = true) by (eapply mailbox_page_el2; [exact Hsend|done|by left]).
  unfold el2_reads, el2_writes. change SIZEOF_SpciMessage with 16. apply returns_assert; [apply (el2_one (send_page fv)); (done || lia)|].
  assert (Hpos : 0 ≤ length_ (sent hv fv)) by (apply (read_message_ok (hv_mem hv) (send_page fv)), Hwf). destruct (negb _); [run|].
  destruct (Z.ltb_spec SPCI_MSG_PAYLOAD_MAX (length_ (sent hv fv))) as [|Hlen]; [run|]. destruct (_ =? vm_id fv); [run|].
  apply returns_bind; [by apply get_vm_returns|]. intros [to|] Hto; [|run].
  apply returns_bind; [by eapply found_vm|]. intros tv Ht%vm_of_Some.
  destruct (negb (mailbox_empty (vm_inner tv)) || negb (is_configured (vm_inner tv))) eqn:Hbusy.
  { destruct (bf_contains a NOTIFY) eqn:Hn; [|run]. apply returns_bind; [|intros [[??]?] _; run].
    unfold wait_for. rewrite (proj2 (mo_vm _ HO _ _ Hf)), length_replicate, (proj1 (mo_vm _ HO _ _ Ht)).
    apply get_vm_Some in Hto as (_ & -> & _). specialize (Hno eq_refl). change HF_VM_ID_OFFSET with 1 in *. change MAX_VMS with 16 in *.
    rewrite (proj2 (Nat.ltb_lt _ _)) by lia. cbn [negb]. run. }
  apply orb_false_elim in Hbusy as [_ Hcf%negb_false_iff]. unfold is_configured in Hcf. apply andb_prop in Hcf as [_ Hrp%negb_true_iff%Z.eqb_neq].
  fold (recv_page tv) in *. destruct (Hmap _ _ (Hpages _ _ Ht)) as [_ Hrecv]. cbn [snd] in Hrecv. specialize (Hrecv Hrp).
  assert (Hral : aligned 4096 (recv_page tv)) by (by destruct Hrecv as [(? & _) _]).
  assert (Hrel : el2_page (hv_ptable hv) true (recv_page tv) = true).
  { eapply mailbox_page_el2; [exact Hrecv| |by right]. apply Hr39. apply get_vm_Some in Hto as (_ & <- & _). done. }
  change SPCI_MSG_PAYLOAD_MAX with 4080 in Hlen. destruct (bf_contains (flags _) IMPDEF) eqn:Hi.
  { rewrite (el2_one (recv_page tv)), (el2_one (send_page fv)) by (done || lia). cbn [andb assert_then]. eapply deliver_returns; [by eexists|by eexists|exact Hon]. }
  apply returns_bind; [by eapply current_vcpu|]. intros cur Hcur. pose proof Hon as (cur' & pr & Hcur' & Hk & _).
  rewrite Hcur in Hcur'. injection Hcur' as <-. rewrite Hk. cbn [option_bind mbind]. rewrite Hd. cbn [unwrap_opt].
  apply returns_bind; [run|]. intros d' [= <-]. apply returns_bind; [apply returns_assert; [by apply Z.ltb_lt|run]|].
  intros buffer _. destruct (_ <? _); [run|].
  destruct (Z.ltb_spec (length_ (sent hv fv)) SIZEOF_SpciArchitectedMessageHeader) as [|Hmin]; [run|].
  destruct Hwf as (Htabs & _ & Hst & Hmem). pose proof (vtabs_lookup hv _ _ Hf) as Hft. pose proof (vtabs_lookup hv _ _ Ht) as Htt.
  destruct (Hty eq_refl) as [Hty' Hlen8]. apply returns_assert.
  { unfold get_architected_message_header. change SIZEOF_SpciMessage with 16. apply (el2_one (send_page fv)); (done || lia). }
  apply returns_bind.
  - apply handle_returns; [by eapply Htabs|by eapply Htabs|done|by apply mem_ok_memcpy| |done..].
    change SIZEOF_SpciArchitectedMessageHeader with 8 in Hmin. unfold memcpy, rd16. rewrite !bool_decide_true by lia.
    replace (_ + (buffer - buffer)) with (get_architected_message_header (send_page fv)) by lia.
    replace (_ + (buffer + 1 - buffer)) with (get_architected_message_header (send_page fv) + 1) by lia. exact Hty'.
  - intros [[[[ret ti] fi] mem] st] _. destruct (negb _); [run|].
    eapply (deliver_returns _ _ _ _ _ _ k); [do 2 apply set_inner_is_Some; by eexists..|].
    apply (on_cpu_upd_inner c.1 (λ _, fi)), (on_cpu_upd_inner to (λ _, ti)), Hon.
Qed.

Lemma vm_configure_returns hw now hv c k s r :
  usable hv c k → in_u 64 s → in_u 64 r → s + 4096 ≤ 2 ^ 39 → r + 4096 ≤ 2 ^ 39 → hp_clear p (hv_ptable hv) s (s + 4096) →
  returns (vm_configure hw now hv (ipa_init s) (ipa_init r) c).
Proof.
  intros [Hwf HO _ _ Hon _] Hs Hr Hs39 Hr39 Hc. unfold vm_configure. apply returns_bind; [by eapply vm_returns, current_vm|].
  intros vm Hvm%vm_of_Some. destruct Hwf as (Htabs & Hh & Hst & _). pose proof (vtabs_lookup hv _ _ Hvm) as Ht.
  destruct (Htabs _ _ _ Ht) as [_ Hwf].
  apply returns_bind; [by apply configure_runs|]. intros [[[ok i] hp] st] _. cbv zeta. destruct (negb ok); [run|].
  eapply waiter_result_returns. apply (on_cpu_upd_inner c.1 (λ _, i)), Hon.
Qed.

(** ** Every call *)
Local Ltac returned L :=
  let x := fresh in let H := fresh in destruct L as [x H]; [done..|];
  rewrite H; repeat match type of x with (_ * _)%type => destruct x as [x ?] end; cbn; by eexists.

Definition call_fine (hv : Hypervisor) (c : vref) (call : hv_call) : Prop :=
  match call with
  | CWakeUp t => is_Some (hv_vms hv !! t.1)
  | CVcpuRun id _ | CMailboxWaiterGet id | CInterruptInject id _ _ => HF_VM_ID_OFFSET ≤ id
  | CVmConfigure s r => s + 4096 ≤ 2 ^ 39 ∧ r + 4096 ≤ 2 ^ 39 ∧ hp_clear p (hv_ptable hv) s (s + 4096)
  | CMsgSend a => ∀ fv, hv_vms hv !! c.1 = Some fv → message_fine hv fv a
  | CShareMemory id a n _ =>
      HF_VM_ID_OFFSET ≤ id ∧ in_u 64 n ∧ a + n ≤ 2 ^ 39 ∧ hp_clear p (hv_ptable hv) a (a + n)
  | _ => True
  end.

Lemma exec_returns hw n1 n2 n3 hv c k call :
  usable hv c k → call_typed call → call_fine hv c call →
  ∃ r, hv_exec p MESSAGE_BUFFER hw n1 n2 n3 hv c call = Done r ∧ (r = None → call = CAbort ∧ c.1 = primary_index).
Proof.
  intros HU Hty Hfine. pose proof (us_on _ _ _ HU) as Hon. pose proof (us_mailboxes _ _ _ HU) as HO.
  pose proof (vm_configure_returns hw n1) as Hcfg. pose proof (msg_send_returns hw n1) as Hsend.
  pose proof (current_vm hv c k Hon) as [vm Hvm].
  destruct call; cbn [hv_exec call_typed call_fine] in *.
  - unfold api_preempt, preempt. returned (switch_returns hw n1 hv c k Hon Preempted VCpuStatus.Ready).
  - unfold api_wait_for_interrupt, wait_for_interrupt.
    returned (switch_returns hw n1 hv c k Hon (WaitForInterrupt HF_SLEEP_INDEFINITE) VCpuStatus.BlockedInterrupt).
  - unfold api_vcpu_off, vcpu_off. cbv zeta.
    returned (switch_returns (arch_timer_disable_current hw) n1 hv c k Hon (WaitForInterrupt HF_SLEEP_INDEFINITE) VCpuStatus.Off).
  - unfold api_spci_yield. returned (yield_returns hw n1 hv c k Hon).
  - unfold api_wake_up. returned (wake_up_returns hw n1 hv c k Hon target Hfine).
  - unfold api_abort. destruct (abort_returns hw n1 hv c k Hon) as (r & -> & Hr). cbn. eexists. split; [done|].
    destruct r as [[??]|]; [done|]. intros _. destruct (Hr eq_refl) as (vm' & Hvm' & Hid). split; [done|].
    rewrite (proj1 (mo_vm _ HO _ _ Hvm')) in Hid. change HF_PRIMARY_VM_ID with 1 in Hid. change primary_index with 0%nat. lia.
  - unfold api_regs_state_saved, vm_of. rewrite Hvm. cbn. by eexists.
  - unfold api_vcpu_run. destruct (vcpu_run_returns hw n1 n2 n3 hv c k Hon id idx Hfine HO) as [[[]?] ->]; cbn; by eexists.
  - destruct Hty, Hfine as (? & ? & ?). unfold api_vm_configure. returned (Hcfg hv c k send recv HU).
  - unfold api_spci_msg_send. returned (Hsend hv attributes c k vm HU Hvm (Hfine _ Hvm)).
  - unfold api_spci_msg_recv. returned (msg_recv_returns hw n1 hv c k Hon attributes).
  - unfold api_mailbox_writable_get, mailbox_writable_get, vm_of. rewrite Hvm. cbn. destruct (dequeue_ready_list _ _) as [[??]?].
    cbn. by eexists.
  - unfold api_mailbox_waiter_get. destruct (waiter_get_spec hv id c vm HO Hvm Hfine) as (r & hv' & -> & _). cbn. by eexists.
  - unfold api_mailbox_clear. returned (mailbox_clear_returns hw n1 hv c k Hon).
  - unfold api_interrupt_enable. returned (interrupt_enable_returns hv intid on c k Hon).
  - unfold api_interrupt_get. returned (interrupt_get_returns hv c k Hon).
  - unfold api_interrupt_inject. returned (interrupt_inject_returns hw n1 hv c k Hon id idx intid Hfine).
  - unfold api_share_memory. destruct (HfShare_try_from share) as [sh|]; [|cbn; by eexists].
    destruct Hfine as (Hid & Hn & Hend & Hc).
    destruct (share_memory_runs p hv id addr size sh c vm (us_wf _ _ _ HU) Hvm Hid Hty Hn Hend Hc) as (ok & hv' & ->).
    cbn. by eexists.
  - unfold api_debug_log. returned (debug_log_returns hv c k Hon c0 (us_logs _ _ _ HU)).
Qed.

(** ** Every reachable state *)
Context {FS : Type} (el3 : FS → list Z → option smc_res * FS).
Context (cpu_entry : Z) (cpu_addr : nat → Z) (version : Z) (rounds : nat).
Abbreviation step := (mstep p MESSAGE_BUFFER el3 cpu_entry cpu_addr version rounds).

(** Each CPU of the machine is in the CPU manager, with an id that has a buffer. *)
Definition cpus_known (m : Machine FS) : Prop :=
  ∀ i, is_Some (mc_cpus m !! i) → ∃ d, hv_cpus (mc_hv m) !! i = Some d ∧ cpu_id d < MAX_CPUS.

Lemma mstep_available m m' : step m m' → keeps_available p (mc_hv m) (mc_hv m') ∧ length (mc_cpus m') = length (mc_cpus m).
Proof.
  intros H. split.
  - eapply mstep_kept; [apply (keeps_available_kept p MESSAGE_BUFFER)|intros; by apply set_mem_available|exact H].
  - destruct H; cbn; rewrite ?length_insert; done.
Qed.
Lemma machine_available m m' :
  rtc step m m' → keeps_available p (mc_hv m) (mc_hv m') ∧ length (mc_cpus m') = length (mc_cpus m).
Proof.
  induction 1 as [m|m1 m2 m3 H12 _ [IH IHl]].
  - split; [|done]. apply (kept_preorder (Kept := keeps_available_kept p MESSAGE_BUFFER)).
  - destruct (mstep_available _ _ H12) as [H Hl]. split; [|congruence].
    pose proof (kept_preorder (Kept := keeps_available_kept p MESSAGE_BUFFER)). by etrans.
Qed.
Lemma known_kept m m' :
  keeps_available p (mc_hv m) (mc_hv m') → length (mc_cpus m') = length (mc_cpus m) → cpus_known m → cpus_known m'.
Proof.
  intros (Hc & _) Hl Hk i Hi. destruct (Hk i) as (d & Hd & Hid).
  { by rewrite lookup_lt_is_Some, <-Hl, <-lookup_lt_is_Some. }
  apply (f_equal (lookup i)) in Hc. rewrite !list_lookup_fmap, Hd in Hc. destruct (hv_cpus (mc_hv m') !! i) as [d'|]; [|done].
  injection Hc as Hc. exists d'. by rewrite Hc.
Qed.
Lemma own_on_cpu hv k c : own_ok hv k c → Messages.on_cpu hv c k.
Proof. intros []. apply on_cpu_at. split; [done|]. destruct ow_primary as (vr & v & _ & Hv & _). by eexists. Qed.

(** Every call of the vCPU a CPU runs returns. *)
Lemma machine_calls_return m m' :
  rtc step m m' → machine_ok m → hv_wf p (mc_hv m) → isolated p (mc_hv m) → mailboxes_ok (mc_hv m) →
  logs_ok (mc_hv m) → mailboxes_mapped p (mc_hv m) → cpus_known m →
  ∀ i cpu hw now1 now2 now3 call, mc_cpus m' !! i = Some (Some cpu) → call_typed call →
    call_fine (mc_hv m') (p_current cpu) call →
    ∃ r, hv_exec p MESSAGE_BUFFER hw now1 now2 now3 (mc_hv m') (p_current cpu) call = Done r ∧
      (r = None → call = CAbort ∧ (p_current cpu).1 = primary_index).
Proof.
  intros Hr Hm Hw Hi HO Hl Hma Hk i cpu hw n1 n2 n3 call Hcpu Hty Hfine.
  pose proof (machine_run_ok _ _ _ _ _ _ _ _ _ Hr Hm) as Hm'.
  destruct (machine_isolated _ _ _ _ _ _ _ _ _ Hr Hw Hi) as [(Hw' & _) _].
  destruct (machine_available _ _ Hr) as [Hav Hlen]. pose proof (known_kept _ _ Hav Hlen Hk) as Hk'. destruct Hav as (_ & Hlog & Hmb & [_ Hma']).
  apply (exec_returns _ _ _ _ _ _ i); [|done..]. split; [done|by apply Hmb|by apply Hlog|by apply Hma'| |apply Hk'; by eexists].
  apply own_on_cpu. by apply (mo_own _ Hm').
Qed.
End memory.
