(* ===== verification/Contained.v ===== *)
(** * A secondary VM cannot bring down the hypervisor

    Every exception of a secondary VM, with any registers and any syndrome, is handled:
    the CPU returns to that VM or to the primary VM.  The only hypercalls that may panic
    are those with the arguments [Availability.call_fine] excludes, and the only call
    that may keep the CPU is [PSCI_CPU_ON] for a vCPU that is running. *)
From S2P Require Import Prelude Addr Mode Arch ArchAarch64 Mpool Mm MmSpec MmTable PageTables MemoryManager Stage2Modes Abi.
From S2P Require Import ArchCpu Interrupts Cpu Vm Memory Spci Hypervisor Load Init Api Frames Ownership Sharing Isolation.
From S2P Require Import Rollback Touch Psci Handler Switch Machine Mapped Guarded Running Mailboxes Messages Availability.

(** ** Handlers that come to an end

    [G]: when the CPU may be lost. *)
Section ends.
Context {FS : Type} (G : Prop).
Implicit Types (s : St FS).

Definition ends {X} (e : exec (option X * St FS)) : Prop := ∃ o s', e = Done (o, s') ∧ (o = None → G).
Lemma ends_bind {X Y} (m : handler FS X) (f : X → handler FS Y) s :
  ends (m s) → (∀ a s1, m s = Done (Some a, s1) → ends (f a s1)) → ends ((m ≫= f) s).
Proof.
  intros (o & s1 & H & Ho) Hf. unfold mbind, handler_bind. rewrite H. destruct o as [a|]; [by apply Hf|].
  exists None, s1. auto.
Qed.
Lemma ends_ret {X} (a : X) s : ends (mret (M := handler FS) a s).
Proof. by eexists _, _. Qed.
Lemma ends_asks {X} (f : St FS → X) s : ends (asks f s).
Proof. by eexists _, _. Qed.
Lemma ends_modify f s : ends (modify f s).
Proof. by eexists _, _. Qed.
Lemma ends_peek {X} (f : Hypervisor → exec X) s : returns (f (st_hv s)) → ends (peek f s).
Proof. intros [a Ha]. unfold peek. rewrite Ha. by eexists _, _. Qed.
Lemma ends_lift {X} (m : exec X) s : returns m → ends (lift m s).
Proof. intros [a ->]. by eexists _, _. Qed.
Lemma ends_rust {X} (f : Hypervisor → exec (X * Hypervisor)) s : returns (f (st_hv s)) → ends (rust f s).
Proof. intros [[a hv] Ha]. unfold rust. rewrite Ha. by eexists _, _. Qed.
Lemma ends_upd_regs x f s : returns (vcpu_of (st_hv s) x) → ends (upd_regs x f s).
Proof. intros Hx. apply ends_bind; [by apply ends_peek|]. intros v s1 _. apply ends_modify. Qed.
Lemma ends_peek_bind {X Y} (g : Hypervisor → exec X) (f : X → handler FS Y) a s :
  g (st_hv s) = Done a → ends (f a s) → ends ((peek g ≫= f) s).
Proof. intros Ha Hf. unfold mbind, handler_bind, peek. rewrite Ha. exact Hf. Qed.
Lemma ends_lift_bind {X Y} (m : exec X) (f : X → handler FS Y) a s : m = Done a → ends (f a s) → ends ((lift m ≫= f) s).
Proof. by intros ->. Qed.
Lemma ends_gone {X} s : G → ends (gone (A := X) s).
Proof. intros HG. by eexists _, _. Qed.
End ends.

(** Walks through a handler. *)
Ltac ends_step :=
  match goal with
  | |- ends _ ((mbind _ _) _) => apply ends_bind; [|intros ? ? ?]
  | |- ends _ ((mret _) _) => apply ends_ret
  | |- ends _ ((asks _) _) => apply ends_asks
  | |- ends _ ((modify _) _) => apply ends_modify
  | |- ends _ ((on_hv _) _) => apply ends_modify
  | |- ends _ ((Psci.on_cpu _) _) => apply ends_modify
  | |- ends _ ((peek _) _) => apply ends_peek
  | |- ends _ ((lift _) _) => apply ends_lift
  | |- ends _ ((rust _) _) => apply ends_rust
  | |- ends _ ((upd_regs _ _) _) => apply ends_upd_regs
  | |- ends _ ((if ?b then _ else _) _) => let E := fresh "E" in destruct b eqn:E
  end.
(** The states of steps that do not change it. *)
Ltac same_state :=
  repeat match goal with
  | H : asks _ _ = Done (Some _, _) |- _ => injection H as <- <-
  | H : mret _ _ = Done (Some _, _) |- _ => injection H as <- <-
  | H : peek _ _ = Done (Some _, _) |- _ => let a := fresh in let E := fresh "Hp" in
      apply bind_Done_inv in H as (a & E & H); injection H as <- <-
  end.
Ltac ends_go := repeat (ends_step; same_state).

Section contained.
Context (p : Aarch64.pa_bits) {RD : ReduceCrate} (MESSAGE_BUFFER : Z).
#[local] Hint Extern 0 ArchMM => exact (aarch64 p) : typeclass_instances.
#[local] Hint Extern 0 (ArchLaws _) => exact (aarch64_laws p) : typeclass_instances.
Context {FS : Type} (el3 : FS → list Z → option smc_res * FS).
Context (cpu_entry : Z) (cpu_addr : nat → Z) (version : Z) (rounds : nat) (now1 now2 now3 : Z) (undef : smc_res).
(** CPU [k] runs the secondary vCPU [c]. *)
Context (k : nat) (others : list (nat * vref)) (c : vref) (Hsec : c.1 ≠ primary_index).
Implicit Types (s : St FS).

Definition sane (hv : Hypervisor) : Prop :=
  hv_wf p hv ∧ isolated p hv ∧ mailboxes_ok hv ∧ logs_ok hv ∧ mailboxes_mapped p hv ∧ ∃ d, hv_cpus hv !! k = Some d ∧ cpu_id d < MAX_CPUS.
(** [nx] is the vCPU to switch to. *)
Definition fit s (nx : option vref) : Prop := inv k others c s nx ∧ sane (st_hv s).

Lemma fit_on_cpu s nx : fit s nx → Messages.on_cpu (st_hv s) c k.
Proof. intros [(_ & (_ & Ho & _) & _) _]. by apply own_on_cpu. Qed.
Lemma fit_usable s nx : fit s nx → usable p (st_hv s) c k.
Proof. intros Hf. pose proof (fit_on_cpu _ _ Hf). destruct Hf as [_ (? & _ & ? & ? & ? & ?)]. by split. Qed.
Lemma fit_vcpu s nx : fit s nx → returns (vcpu_of (st_hv s) c).
Proof. intros Hf. by eapply current_vcpu, fit_on_cpu. Qed.
Lemma fit_vm s nx : fit s nx → ∃ vm, hv_vms (st_hv s) !! c.1 = Some vm ∧ vm_id vm ≠ HF_PRIMARY_VM_ID.
Proof.
  intros Hf. pose proof (current_vm _ _ _ (fit_on_cpu _ _ Hf)) as [vm Hvm]. exists vm. split; [done|].
  destruct Hf as [(_ & ((Hids & _) & _) & _) _]. by rewrite (ids_primary _ _ _ Hids Hvm).
Qed.
(** A secondary VM is left for the primary VM only. *)
Lemma fit_next s n : fit s (Some n) → n = (primary_index, k).
Proof. intros [(_ & _ & _ & Hn) _]. destruct (Hn n eq_refl) as [->|[? _]]; [done|]. done. Qed.

(** What a part of a handler leaves. *)
Definition leads (G : Prop) {X} (g : X → option vref) (e : exec (option X * St FS)) : Prop :=
  ∃ o s', e = Done (o, s') ∧ match o with Some a => fit s' (g a) | None => G end.
Lemma leads_bind G {X Y} (m : handler FS X) g1 (f : X → handler FS Y) g2 s :
  leads G g1 (m s) → (∀ a s1, m s = Done (Some a, s1) → fit s1 (g1 a) → leads G g2 (f a s1)) → leads G g2 ((m ≫= f) s).
Proof.
  intros (o & s1 & H & Ho) Hf. unfold mbind, handler_bind. rewrite H. destruct o as [a|]; [by apply Hf|]. by exists None, s1.
Qed.
Lemma leads_intro G {X} (m : handler FS X) nx g s :
  fit s nx → good k others c nx m g → (∀ R, Kept p MESSAGE_BUFFER R → keeps R m) → ends G (m s) → leads G g (m s).
Proof.
  intros [Hi (Hw & Hiso & HO & Hl & Hma & d & Hd & Hid)] Hg Hk (o & s' & H & Ho).
  pose proof (Hk _ (safe_kept p MESSAGE_BUFFER)) as Hs. pose proof (Hk _ (keeps_available_kept p MESSAGE_BUFFER)) as Ha. exists o, s'. split; [done|].
  destruct o as [a|]; [|by apply Ho]. split; [exact (Hg _ _ _ H Hi)|].
  destruct (Hs _ _ _ H) as [Hp _]. destruct (Hp Hw Hiso) as (? & ? & _). destruct (Ha _ _ _ H) as (Hc & ? & ? & [_ ?]).
  split_and!; auto. apply (f_equal (lookup k)) in Hc. rewrite !list_lookup_fmap, Hd in Hc.
  destruct (hv_cpus (st_hv s') !! k) as [d'|]; [|done]. injection Hc as Hc. exists d'. by rewrite Hc.
Qed.

(** ** The parts *)
Abbreviation psci := (psci_handler (FS := FS) el3 cpu_entry cpu_addr version rounds now1 c).
Definition starts_vcpu (func : Z) : Prop := no_convention func = PSCI_CPU_ON.

Lemma ends_save_volatile G s nx : fit s nx → ends G (save_volatile_to_vcpu s).
Proof.
  intros Hf. unfold save_volatile_to_vcpu, current, live. ends_go. rewrite (proj1 (proj1 Hf)). by eapply fit_vcpu.
Qed.
Lemma ends_save_nonvolatile G s nx : fit s nx → ends G (save_nonvolatile s).
Proof. intros Hf. unfold save_nonvolatile, current, live. ends_go. rewrite (proj1 (proj1 Hf)). by eapply fit_vcpu. Qed.

(** A vCPU of the VM by its index. *)
Lemma vcpu_below vm hv v i :
  hv_vms hv !! v = Some vm → (vm_get_vcpu_count vm <=? i) = false → 0 ≤ i → returns (vcpu_of hv (v, Z.to_nat i)).
Proof.
  intros Hvm Hi Hpos. unfold vm_get_vcpu_count in Hi. apply Z.leb_gt in Hi.
  assert (Hle : wrap 16 (Z.of_nat (length (vcpus vm))) ≤ Z.of_nat (length (vcpus vm))) by (unfold wrap; apply Z.mod_le; lia).
  destruct (lookup_lt_is_Some_2 (vcpus vm) (Z.to_nat i)) as [w Hw]; [lia|]. eapply found_vcpu; [|done]. unfold vm_of. by rewrite Hvm.
Qed.
Lemma ends_psci func a0 a1 a2 ret nx nx' s : fit s nx → ends (starts_vcpu func) (psci func a0 a1 a2 ret nx' s).
Proof.
  intros Hf. destruct (fit_vm s nx Hf) as (vm & Hvm & Hid). pose proof (fit_on_cpu _ _ Hf) as Hon.
  assert (Hv : vm_of (st_hv s) c.1 = Done vm) by (unfold vm_of; by rewrite Hvm).
  assert (Hvc : ∀ i, 0 ≤ i → (vm_get_vcpu_count vm <=? i) = false → returns (vcpu_of (st_hv s) (c.1, Z.to_nat i))).
  { intros i Hpos Hi. by eapply vcpu_below. }
  unfold psci_handler, the_vm. apply (ends_peek_bind _ _ _ vm); [done|].
  rewrite (proj2 (Z.eqb_neq _ _)) by done. unfold psci_secondary_vm_handler, the_vm, the_vcpu. cbv zeta.
  assert (Hidx : 0 ≤ vcpu_id_to_index a0) by (unfold vcpu_id_to_index, wrap; apply Z.mod_pos_bound; done).
  destruct (_ =? _); [apply ends_ret|]. destruct (_ =? _); [ends_go|].
  destruct (_ =? PSCI_AFFINITY_INFO).
  { apply (ends_peek_bind _ _ _ vm); [done|]. destruct (negb _); [apply ends_ret|].
    destruct (_ <=? _) eqn:Hle; [apply ends_ret|]. destruct (Hvc _ Hidx Hle) as [v Hv']. apply (ends_peek_bind _ _ _ v); [done|].
    destruct (vcpu_try_lock v) as [got v']. ends_go. }
  destruct (_ =? PSCI_CPU_SUSPEND).
  { ends_go. eapply switch_returns. exact Hon. }
  destruct (_ =? PSCI_CPU_OFF).
  { apply ends_bind; [apply ends_asks|]. intros hw s1 H1. same_state. apply ends_bind.
    - apply ends_rust. destruct (switch_returns (arch_timer_disable_current (hw_of (st_cpu s))) now1 (st_hv s) c k Hon
        (WaitForInterrupt HF_SLEEP_INDEFINITE) VCpuStatus.Off) as [[n hv'] Hsw].
      unfold api_vcpu_off, vcpu_off. cbv zeta. rewrite Hsw. by eexists.
    - intros [n hw'] s1 _. ends_go. }
  destruct (_ =? PSCI_CPU_ON) eqn:Hcpu_on.
  { apply Z.eqb_eq in Hcpu_on. apply (ends_peek_bind _ _ _ vm); [done|].
    destruct (_ <=? _) eqn:Hle; [apply ends_ret|]. destruct (Hvc _ Hidx Hle) as [v Hv']. apply (ends_peek_bind _ _ _ v); [done|].
    apply ends_bind; [apply ends_asks|]. intros hw s1 H1. same_state. set (t := (c.1, Z.to_nat (vcpu_id_to_index a0))) in *.
    unfold vcpu_secondary_reset_and_start. rewrite (proj2 (Z.eqb_neq _ _)) by done. cbn [negb].
    unfold vcpu_lock. destruct (vc_locked v); [by apply (ends_lift_bind _ _ _ None), ends_gone|].
    eapply ends_lift_bind; [done|]. set (v' := vcpu_unlock _). cbv beta iota. rewrite on_hv_bind_h.
    destruct (is_off _); [|apply ends_ret]. ends_go. apply wake_up_returns with (k := k).
    - apply on_cpu_at in Hon as [H1 H2]. apply on_cpu_at. unfold cpu_of in *. cbn [st_hv]. rewrite !vcpu_at_upd_vc.
      rewrite (decide_False (P := (primary_index, k) = t)) by (unfold t; congruence). split; [|done].
      apply vcpu_of_at in Hv'. destruct (decide (c = t)) as [Ht|]; [|done]. rewrite Hv'. rewrite Ht, Hv' in H1. exact H1.
    - cbn. rewrite list_lookup_alter_eq, Hvm. by eexists. }
  destruct (one_of _ _); apply ends_ret.
Qed.
(** A call that is not of PSCI changes nothing. *)
Lemma psci_other func a0 a1 a2 ret nx nx' s b ret' n' s' :
  fit s nx → psci func a0 a1 a2 ret nx' s = Done (Some (b, ret', n'), s') → b = false → s' = s ∧ n' = nx'.
Proof.
  intros Hf H ->. destruct (fit_vm s nx Hf) as (vm & Hvm & Hid). unfold psci_handler, the_vm in H.
  apply peek_inv in H as (vm' & Hvm'%vm_of_Some & H). rewrite Hvm in Hvm'. injection Hvm' as <-.
  rewrite (proj2 (Z.eqb_neq _ _)) in H by done. unfold psci_secondary_vm_handler in H. cbv zeta in H.
  repeat match type of H with
  | (if ?b then _ else _) _ = _ => destruct b
  | mret _ _ = _ => by injection H as <- <- <-
  | mret (true, _, _) _ = _ => discriminate H
  | gone _ = _ => discriminate H
  | (let '(_, _) := ?x in _) _ = _ => destruct x
  | match ?x with _ => _ end _ = _ => destruct x
  | (_ ≫= _) _ = _ => apply hbind_inv in H as [(? & ? & _ & H)|[_ H]]; [|discriminate H]
  end.
Qed.

(** Aborts, faults and interrupts. *)
Lemma ends_abort G nx s : fit s nx → ends G (do_abort now1 c s).
Proof.
  intros Hf. destruct (fit_vm s nx Hf) as (vm & Hvm & Hid). unfold do_abort, the_hw. rewrite asks_bind_h.
  destruct (abort_returns (hw_of (st_cpu s)) now1 (st_hv s) c k (fit_on_cpu _ _ Hf)) as (r & Hr & Hn).
  eapply ends_peek_bind; [exact Hr|]. destruct r as [[n hv]|]; [ends_go|].
  destruct (Hn eq_refl) as (vm' & Hvm' & Hid'). rewrite Hvm in Hvm'. injection Hvm' as <-. done.
Qed.
Lemma ends_aborts G nx s : fit s nx → ends G ((n ← do_abort now1 c; mret (Some n)) s).
Proof. intros Hf. apply ends_bind; [by eapply ends_abort|]. intros n s1 _. apply ends_ret. Qed.
Lemma ends_irq G nx s : fit s nx → ends G (irq_lower now1 s).
Proof.
  intros Hf. unfold irq_lower, current, the_hw. rewrite !asks_bind_h. rewrite (proj1 (proj1 Hf)). apply ends_rust.
  eapply switch_returns, fit_on_cpu, Hf.
Qed.
Lemma ends_fault G nx s esr far hpfar mode : fit s nx → ends G (handle_fault now1 c esr far hpfar mode s).
Proof.
  intros Hf. destruct (fit_vm s nx Hf) as (vm & Hvm & Hid). destruct (fit_vcpu _ _ Hf) as [v Hv].
  unfold handle_fault, vcpu_get_regs, the_vcpu, the_vm. rewrite bind_assoc_h. eapply ends_peek_bind; [exact Hv|].
  rewrite ret_bind_h. eapply (ends_peek_bind _ _ _ vm); [unfold vm_of; by rewrite Hvm|].
  apply ends_bind; [apply ends_lift|].
  2:{ intros ok s1 H1. unfold lift in H1. apply bind_Done_inv in H1 as (a & _ & [= <- <-]). destruct a; [apply ends_ret|by eapply ends_aborts]. }
  destruct Hf as [_ ((Htabs & _) & _)]. destruct (Htabs _ _ _ (vtabs_lookup _ _ _ Hvm)) as [_ Hwf].
  apply (page_fault_returns p); [exact Hwf|]. unfold fault_info_init. destruct (_ && _); cbn; [by apply wrap_range|].
  apply in_u_lor; [done|by apply wrap_range|]. change (PAGE_SIZE - 1) with (Z.ones 12). rewrite Z.land_ones by done.
  pose proof (Z.mod_pos_bound far (2 ^ 12) ltac:(lia)). unfold in_u. lia.
Qed.

(** ** Hypercalls *)

(** What a secondary VM may pass: the calls that are for the primary VM only are refused
    before their arguments are looked at. *)
Definition secondary_fine (hv : Hypervisor) (call : hv_call) : Prop :=
  match call with CVcpuRun _ _ | CMailboxWaiterGet _ => True | _ => call_fine p hv c call end.
Lemma secondary_exec hw nx s call :
  fit s nx → call_typed call → secondary_fine (st_hv s) call →
  returns (hv_exec p MESSAGE_BUFFER hw now1 now2 now3 (st_hv s) c call).
Proof.
  intros Hf Hty Hfine. destruct (fit_vm s nx Hf) as (vm & Hvm & Hid).
  assert (Hv : vm_of (st_hv s) c.1 = Done vm) by (unfold vm_of; by rewrite Hvm).
  assert (Hgo : call_fine p (st_hv s) c call → returns (hv_exec p MESSAGE_BUFFER hw now1 now2 now3 (st_hv s) c call)).
  { intros Hc. destruct (exec_returns p MESSAGE_BUFFER hw now1 now2 now3 (st_hv s) c k call (fit_usable _ _ Hf) Hty Hc) as (r & H & _). by exists r. }
  destruct call; try (by apply Hgo); clear Hgo; cbn [hv_exec].
  - unfold api_vcpu_run, vcpu_run. cbv zeta. rewrite Hv. cbn [mbind exec_bind]. rewrite (proj2 (Z.eqb_neq _ _)) by done. by eexists.
  - unfold api_mailbox_waiter_get, mailbox_waiter_get. rewrite Hv. cbn [mbind exec_bind]. rewrite (proj2 (Z.eqb_neq _ _)) by done.
    by eexists.
Qed.
(** The call of the Rust code that a hypercall makes. *)
Definition hf_of (func a1 a2 a3 : Z) : option hv_call :=
  if func =? HF_VCPU_RUN then Some (CVcpuRun (wrap 16 a1) (wrap 16 a2))
  else if func =? HF_VM_CONFIGURE then Some (CVmConfigure a1 a2)
  else if func =? HF_MAILBOX_CLEAR then Some CMailboxClear
  else if func =? HF_MAILBOX_WRITABLE_GET then Some CMailboxWritableGet
  else if func =? HF_MAILBOX_WAITER_GET then Some (CMailboxWaiterGet (wrap 16 a1))
  else if func =? HF_INTERRUPT_ENABLE then Some (CInterruptEnable (wrap 32 a1) (negb (a2 =? 0)))
  else if func =? HF_INTERRUPT_GET then Some CInterruptGet
  else if func =? HF_INTERRUPT_INJECT then Some (CInterruptInject (wrap 16 a1) (wrap 16 a2) (wrap 32 a3))
  else if func =? HF_SHARE_MEMORY then Some (CShareMemory (wrap 16 (Z.shiftr a1 32)) a2 a3 (Z.land a1 0xffffffff))
  else if func =? HF_DEBUG_LOG then Some (CDebugLog (wrap 8 a1))
  else None.
Definition hvc_call (a0 a1 a2 a3 : Z) : option hv_call :=
  let f := no_convention a0 in
  if f =? SPCI_VERSION_32 then None
  else if f =? SPCI_YIELD_32 then Some CYield
  else if f =? SPCI_MSG_SEND_32 then Some (CMsgSend (wrap 32 a1))
  else if f =? SPCI_MSG_RECV_32 then Some (CMsgRecv (wrap 32 a1))
  else hf_of (wrap 32 a0) a1 a2 a3.
Definition hvc_fine (hv : Hypervisor) (a0 a1 a2 a3 : Z) : Prop :=
  ∀ call, hvc_call a0 a1 a2 a3 = Some call → secondary_fine hv call.

(** The call is one of [hv_exec]. *)
Ltac made hw Hf Hfine cl :=
  let x := fresh "x" in let y := fresh "y" in let Hx := fresh "Hx" in
  destruct (secondary_exec hw _ _ cl Hf) as [x Hx]; [done|by apply Hfine|];
  cbn [hv_exec] in Hx; apply bind_Done_inv in Hx as (y & Hx & _); apply ends_rust; rewrite Hx;
  repeat match type of y with (_ * _)%type => destruct y as [y ?] end; by eexists.
Lemma ends_spci G nx s a0 a1 a2 a3 ret nx' :
  fit s nx → hvc_fine (st_hv s) a0 a1 a2 a3 → ends G (spci_handler MESSAGE_BUFFER now1 a0 a1 ret nx' s).
Proof.
  intros Hf Hfine. unfold spci_handler, current, the_hw. rewrite !asks_bind_h, (proj1 (proj1 Hf)). cbv zeta.
  unfold hvc_fine, hvc_call in Hfine. cbv zeta in Hfine.
  destruct (_ =? _); [apply ends_ret|]. destruct (_ =? _).
  { apply ends_bind; [made (hw_of (st_cpu s)) Hf Hfine CYield|intros [??] ? _; apply ends_ret]. }
  destruct (_ =? _).
  { apply ends_bind; [made (hw_of (st_cpu s)) Hf Hfine (CMsgSend (wrap 32 a1))|intros [??] ? _; apply ends_ret]. }
  destruct (_ =? _); [|apply ends_ret].
  apply ends_bind; [made (hw_of (st_cpu s)) Hf Hfine (CMsgRecv (wrap 32 a1))|intros [??] ? _; apply ends_ret].
Qed.
(** A call that is not of SPCI changes nothing. *)
Lemma spci_other a0 a1 a2 a3 ret nx' s b ret' n' s' :
  spci_handler MESSAGE_BUFFER now1 a0 a1 ret nx' s = Done (Some (b, ret', n'), s') → b = false →
  s' = s ∧ n' = nx' ∧ hvc_call a0 a1 a2 a3 = hf_of (wrap 32 a0) a1 a2 a3.
Proof.
  intros H ->. unfold spci_handler, current, the_hw, hvc_call in *. rewrite !asks_bind_h in H. cbv zeta in *.
  destruct (_ =? _); [discriminate H|].
  do 3 (destruct (_ =? _); [apply hbind_inv in H as [([??] & ? & _ & H)|[_ H]]; discriminate H|]). by injection H as <- <- <-.
Qed.
Lemma ends_hf_call G nx s func a1 a2 a3 nx' :
  fit s nx → in_u 64 a1 → in_u 64 a2 → (∀ call, hf_of func a1 a2 a3 = Some call → secondary_fine (st_hv s) call) →
  ends G (hf_call now1 now2 now3 func a1 a2 a3 nx' s).
Proof.
  intros Hf H1 H2 Hfine. unfold hf_call, current, the_hw. rewrite !asks_bind_h, (proj1 (proj1 Hf)). set (hw := hw_of (st_cpu s)).
  destruct (fit_vm s nx Hf) as (vm & Hvm & Hid).
  assert (Hv : vm_of (st_hv s) c.1 = Done vm) by (unfold vm_of; by rewrite Hvm).
  destruct (func =? HF_VM_GET_ID).
  { ends_go. unfold api_vm_get_id, vm_get_id. rewrite Hv. by eexists. }
  destruct (func =? HF_VM_GET_COUNT); [ends_go|]. destruct (func =? HF_VCPU_GET_COUNT).
  { ends_go. unfold api_vcpu_get_count, vcpu_get_count. rewrite Hv. cbn [mbind exec_bind].
    rewrite (proj2 (Z.eqb_neq _ _)) by done. by eexists. }
  unfold hf_of in Hfine.
  destruct (_ =? _); [apply ends_bind; [made hw Hf Hfine (CVcpuRun (wrap 16 a1) (wrap 16 a2))|intros [??] ? _; apply ends_ret]|].
  destruct (_ =? _); [apply ends_bind; [made hw Hf Hfine (CVmConfigure a1 a2)|intros [??] ? _; apply ends_ret]|].
  destruct (_ =? _); [apply ends_bind; [made hw Hf Hfine CMailboxClear|intros [??] ? _; apply ends_ret]|].
  destruct (_ =? _); [apply ends_bind; [made hw Hf Hfine CMailboxWritableGet|intros ? ? _; apply ends_ret]|].
  destruct (_ =? _); [apply ends_bind; [made hw Hf Hfine (CMailboxWaiterGet (wrap 16 a1))|intros ? ? _; apply ends_ret]|].
  destruct (func =? HF_INTERRUPT_ENABLE);
    [apply ends_bind; [made hw Hf Hfine (CInterruptEnable (wrap 32 a1) (negb (a2 =? 0)))|intros ? ? _; apply ends_ret]|].
  destruct (_ =? _); [apply ends_bind; [made hw Hf Hfine CInterruptGet|intros ? ? _; apply ends_ret]|].
  destruct (_ =? _);
    [apply ends_bind; [made hw Hf Hfine (CInterruptInject (wrap 16 a1) (wrap 16 a2) (wrap 32 a3))|intros [??] ? _; apply ends_ret]|].
  destruct (_ =? _);
    [apply ends_bind; [made hw Hf Hfine (CShareMemory (wrap 16 (Z.shiftr a1 32)) a2 a3 (Z.land a1 0xffffffff))|intros ? ? _; apply ends_ret]|].
  destruct (_ =? _); [apply ends_bind; [made hw Hf Hfine (CDebugLog (wrap 8 a1))|intros ? ? _; apply ends_ret]|].
  apply ends_ret.
Qed.
Lemma ends_update_vi G nx s : fit s nx → ends G (update_vi nx s).
Proof.
  intros Hf. unfold update_vi, vcpu_is_interrupted, current, the_vcpu, on_live. destruct nx as [n|].
  - pose proof (fit_next _ _ Hf) as ->. pose proof Hf as [(_ & (_ & Ho & _) & _) _].
    destruct (ow_primary _ _ _ Ho) as (vr & v & _ & Hv%vcpu_of_at & _). rewrite bind_assoc_h.
    eapply ends_peek_bind; [exact Hv|]. rewrite ret_bind_h. apply ends_upd_regs. by eexists.
  - rewrite asks_bind_h, (proj1 (proj1 Hf)). destruct (fit_vcpu _ _ Hf) as [v Hv]. rewrite bind_assoc_h.
    eapply ends_peek_bind; [exact Hv|]. rewrite ret_bind_h. ends_go.
Qed.

(** ** Whole handlers *)
Lemma leads_psci func a0 a1 a2 ret nx s :
  fit s nx → leads (starts_vcpu func) (λ '(_, _, n), n) (psci func a0 a1 a2 ret nx s).
Proof.
  intros Hf. eapply leads_intro; [exact Hf|apply (good_psci p MESSAGE_BUFFER _ _ _ _ _ now1 now2 now3)| |by eapply ends_psci].
  intros R K. apply (keeps_psci p MESSAGE_BUFFER _ _ _ _ _ now1 now2 now3 R).
Qed.
Lemma leads_update_vi G nx s : fit s nx → leads G (λ _, nx) (update_vi nx s).
Proof.
  intros Hf. eapply leads_intro; [exact Hf|apply good_update_vi| |by eapply ends_update_vi].
  intros R K. apply (keeps_update_vi p MESSAGE_BUFFER R).
Qed.
Lemma leads_ret G {X} (a : X) g s nx : fit s nx → g a = nx → leads G g (mret (M := handler FS) a s).
Proof. intros Hf <-. by eexists _, _. Qed.
Lemma leads_hvc s a0 a1 a2 a3 :
  fit s None → in_u 64 a1 → in_u 64 a2 → hvc_fine (st_hv s) a0 a1 a2 a3 →
  leads (starts_vcpu (wrap 32 a0)) snd
    (hvc_handler MESSAGE_BUFFER el3 cpu_entry cpu_addr version rounds now1 now2 now3 undef a0 a1 a2 a3 s).
Proof.
  intros Hf H1 H2 Hfine. unfold hvc_handler, current. rewrite asks_bind_h, (proj1 (proj1 Hf)).
  eapply leads_bind; [by apply leads_psci|]. intros [[b ret] new] s1 Hp Hf1. destruct b; [by eapply leads_ret|].
  destruct (psci_other _ _ _ _ _ _ _ _ _ _ _ _ Hf Hp eq_refl) as [-> ->].
  eapply leads_bind; [eapply leads_intro; [exact Hf|apply (good_spci p MESSAGE_BUFFER now1 now2 now3)| |by eapply ends_spci]|].
  { intros R K. apply (keeps_spci p MESSAGE_BUFFER now1 now2 now3 R). }
  intros [[b ret2] new2] s2 Hs Hf2. destruct b.
  { eapply leads_bind; [by apply leads_update_vi|]. intros [] s3 _ Hf3. by eapply leads_ret. }
  destruct (spci_other _ _ a2 a3 _ _ _ _ _ _ _ Hs eq_refl) as (-> & -> & Hcall).
  eapply leads_bind; [eapply leads_intro; [exact Hf|apply (good_hf_call p MESSAGE_BUFFER now1 now2 now3)| |]|].
  { intros R K. by apply (keeps_hf_call p MESSAGE_BUFFER now1 now2 now3 R). }
  { eapply ends_hf_call; [exact Hf|done..|]. intros call Hc. apply Hfine. by rewrite Hcall. }
  intros [ret3 new3] s3 _ Hf3. eapply leads_bind; [by apply leads_update_vi|]. intros [] s4 _ Hf4. by eapply leads_ret.
Qed.
Lemma ends_smc nx s ret : fit s nx →
  ∃ g, vcpu_get_regs c s = Done (Some g, s) ∧
  ends (starts_vcpu (wrap 32 (x_reg g 0))) (smc_handler el3 cpu_entry cpu_addr version rounds now1 c ret nx s).
Proof.
  intros Hf. destruct (fit_vcpu _ _ Hf) as [v Hv]. exists (vi_regs (vc_inner v)).
  assert (Hg : vcpu_get_regs c s = Done (Some (vi_regs (vc_inner v)), s)).
  { unfold vcpu_get_regs, the_vcpu, mbind, handler_bind, peek. by rewrite Hv. }
  split; [done|]. unfold smc_handler. unfold mbind at 1, handler_bind at 1. rewrite Hg. cbv zeta.
  apply ends_bind; [by eapply ends_psci|]. intros [[b v1] n] s1 Hp. destruct b; [apply ends_ret|].
  destruct (psci_other _ _ _ _ _ _ _ _ _ _ _ _ Hf Hp eq_refl) as [-> ->]. destruct (_ =? _).
  - apply ends_bind; [|intros ? ? _; apply ends_ret]. apply ends_rust.
    destruct (debug_log_returns (st_hv s) c k (fit_on_cpu _ _ Hf) (wrap 8 (x_reg (vi_regs (vc_inner v)) 1)) (us_logs _ _ _ _ (fit_usable _ _ Hf)))
      as [[out hv'] H]. unfold api_debug_log. rewrite H. by eexists.
  - apply ends_bind; [|intros [??] ? _; apply ends_ret]. unfold smc_forwarder, get_vm_id, the_vm, smc_check_client_privileges.
    unfold mbind at 1, handler_bind at 1. rewrite Hg. rewrite bind_assoc_h. destruct (fit_vm s nx Hf) as (vm & Hvm & _).
    eapply (ends_peek_bind _ _ _ vm); [unfold vm_of; by rewrite Hvm|]. rewrite ret_bind_h. apply ends_ret.
Qed.
Lemma leads_after G {X} g (m : handler FS X) s a s1 : leads G g (m s) → m s = Done (Some a, s1) → fit s1 (g a).
Proof. intros (o & s' & H & Ho) H1. rewrite H in H1. by injection H1 as -> ->. Qed.
Lemma leads_upd_regs G f nx s :
  fit s nx → (∀ g, key (lazy (f g)) = key (lazy g)) → leads G (λ _, nx) (upd_regs c f s).
Proof.
  intros Hf Hk. eapply leads_intro; [exact Hf|by apply good_upd_regs| |by eapply ends_upd_regs, fit_vcpu].
  intros R K. apply (keeps_upd_regs p MESSAGE_BUFFER R).
Qed.

(** Other synchronous exceptions: a trapped [WFI] or [WFE], *)
Lemma ends_wait G s esr : fit s None →
  ends G ((_ ← upd_regs c (λ g, with_pc (pc g +w GET_NEXT_PC_INC esr) g);
           hw ← the_hw;
           if negb (Z.land esr 1 =? 0) then
             n ← rust (λ hv, '(_, n, hv) ← api_spci_yield hw now1 hv c; Done (n, hv));
             match n with Some n => mret (Some n) | None => panic end
           else n ← rust (λ hv, api_wait_for_interrupt hw now1 hv c); mret (Some n)) s).
Proof.
  intros Hf. apply ends_bind; [by eapply ends_upd_regs, fit_vcpu|]. intros [] s1 H1. unfold the_hw. rewrite asks_bind_h.
  assert (Hf1 : fit s1 None) by (refine (leads_after G (λ _, None) _ _ _ _ _ H1); by apply leads_upd_regs).
  pose proof (fit_on_cpu _ _ Hf1) as Hon. destruct (fit_vm s1 _ Hf1) as (vm & Hvm & Hid). destruct (negb _).
  - destruct (switch_returns (hw_of (st_cpu s1)) now1 (st_hv s1) c k Hon Yield VCpuStatus.Ready) as [[n hv'] Hsw].
    unfold rust, api_spci_yield, spci_yield, vm_of. unfold mbind at 1, handler_bind at 1. rewrite Hvm. cbn [unwrap_opt mbind exec_bind].
    rewrite (proj2 (Z.eqb_neq _ _)) by done. rewrite Hsw. cbn. by eexists _, _.
  - apply ends_bind; [apply ends_rust; by eapply switch_returns|]. intros n s2 _. apply ends_ret.
Qed.
(** a call of the firmware, *)
Lemma ends_trapped_smc G s esr : fit s None →
  (∀ g, vcpu_get_regs c s = Done (Some g, s) → starts_vcpu (wrap 32 (x_reg g 0)) → G) →
  ends G ((g ← vcpu_get_regs c;
    let smc_pc := pc g in
    '(b, ret, next) ← smc_handler el3 cpu_entry cpu_addr version rounds now1 c undef None;
    let ret := if negb b then set_res0 PSCI_ERROR_NOT_SUPPORTED ret else ret in
    _ ← upd_regs c (with_pc (smc_pc +w GET_NEXT_PC_INC esr));
    _ ← upd_regs c (λ g, with_r (<[3 := res3 ret]> (<[2 := res2 ret]> (<[1 := res1 ret]> (<[0 := res0 ret]> (r g)))))%nat g);
    mret next) s).
Proof.
  intros Hf HG. destruct (ends_smc None s undef Hf) as (g & Hg & Hsm). specialize (HG g Hg).
  unfold mbind at 1, handler_bind at 1. rewrite Hg. cbv zeta.
  assert (Hl : leads G (λ '(_, _, n), n) (smc_handler el3 cpu_entry cpu_addr version rounds now1 c undef None s)).
  { eapply leads_intro; [exact Hf|apply (good_smc_handler p MESSAGE_BUFFER _ _ _ _ _ now1 now2 now3)| |].
    - intros R K. apply (keeps_smc_handler p MESSAGE_BUFFER _ _ _ _ _ now1 now2 now3 R).
    - destruct Hsm as (o & s' & H & Ho). exists o, s'. auto. }
  apply ends_bind; [destruct Hsm as (o & s' & H & Ho); exists o, s'; auto|].
  intros [[b ret] next] s1 H1. pose proof (leads_after _ _ _ _ _ _ Hl H1) as Hf1.
  apply ends_bind; [by eapply ends_upd_regs, fit_vcpu|]. intros [] s2 H2.
  assert (Hf2 : fit s2 next) by (refine (leads_after G (λ _, next) _ _ _ _ _ H2); by apply leads_upd_regs).
  apply ends_bind; [by eapply ends_upd_regs, fit_vcpu|]. intros [] s3 _. apply ends_ret.
Qed.
Lemma leads_sync s esr far hpfar G :
  fit s None → GET_EC esr ≠ 0x18 →
  (∀ g, vcpu_get_regs c s = Done (Some g, s) → GET_EC esr = 0x17 → starts_vcpu (wrap 32 (x_reg g 0)) → G) →
  leads G id (sync_lower_exception el3 cpu_entry cpu_addr version rounds now1 undef esr far hpfar s).
Proof.
  intros Hf He HG. eapply leads_intro; [exact Hf|apply (good_sync p MESSAGE_BUFFER _ _ _ _ _ now1 now2 now3)| |].
  { intros R K. apply (keeps_sync p MESSAGE_BUFFER _ _ _ _ _ now1 now2 now3). exact K. }
  unfold sync_lower_exception, current. rewrite asks_bind_h, (proj1 (proj1 Hf)). cbv zeta.
  destruct (_ =? 0x01); [by apply ends_wait|].
  destruct (_ =? 0x24); [by eapply ends_fault|]. destruct (_ =? 0x20); [by eapply ends_fault|].
  destruct (Z.eqb_spec (GET_EC esr) 0x17) as [Hsmc|]; [by apply ends_trapped_smc; eauto|].
  rewrite (proj2 (Z.eqb_neq _ _)) by done. by eapply ends_aborts.
Qed.
(** and an access to a system register. *)
Lemma leads_sysreg G s esr : fit s None → GET_EC esr = 0x18 → leads G id (handle_system_register_access now1 esr s).
Proof.
  intros Hf He. eapply leads_intro; [exact Hf|apply (good_sysreg p MESSAGE_BUFFER now1 now2 now3)| |].
  { intros R K. apply (keeps_sysreg p MESSAGE_BUFFER now1 now2 now3). exact K. }
  unfold handle_system_register_access, current, get_vm_id, the_vm. rewrite asks_bind_h, (proj1 (proj1 Hf)).
  destruct (fit_vm s _ Hf) as (vm & Hvm & Hid). rewrite bind_assoc_h.
  eapply (ends_peek_bind _ _ _ vm); [unfold vm_of; by rewrite Hvm|]. rewrite ret_bind_h, He. change (negb (24 =? 24)) with false. cbv iota.
  destruct (negb _); [by eapply ends_aborts|]. unfold debug_el1_process_access. rewrite (proj2 (Z.eqb_neq _ _)) by done. cbn [negb].
  rewrite ret_bind_h. cbn [negb]. by eapply ends_aborts.
Qed.

(** ** Every exception *)

(** The CPU is back in the VM, or in the primary VM. *)
Definition lands (G : Prop) (e : exec (option unit * St FS)) : Prop :=
  ∃ o s', e = Done (o, s') ∧
    match o with Some _ => p_current (st_cpu s') = c ∨ p_current (st_cpu s') = (primary_index, k) | None => G end.
Lemma lands_bind G {X} (m : handler FS X) g (f : X → handler FS unit) s :
  leads G g (m s) → (∀ a s1, m s = Done (Some a, s1) → fit s1 (g a) → lands G (f a s1)) → lands G ((m ≫= f) s).
Proof.
  intros (o & s1 & H & Ho) Hf. unfold mbind, handler_bind. rewrite H. destruct o as [a|]; [by apply Hf|]. by exists None, s1.
Qed.
Lemma lands_switch G s n : fit s (Some n) → lands G (vcpu_switch n s).
Proof.
  intros Hf. pose proof (fit_next _ _ Hf) as ->. destruct (fit_vcpu _ _ Hf) as [v Hv%vcpu_of_at].
  pose proof Hf as [(Hc & (_ & Ho & _) & _) _]. pose proof (ow_primary_cpu _ _ _ Ho) as Hk. unfold cpu_of in Hk.
  destruct (vcpu_at (st_hv s) (primary_index, k)) as [v'|] eqn:Hv'; [|done]. cbn in Hk.
  destruct (switch_total (primary_index, k) s v v' k) as [s' H]; [by rewrite Hc|done|done|]. exists (Some tt), s'. split; [done|].
  apply switch_effect in H as [_ (? & ? & _ & _ & ? & ? & ? & [])]. by right.
Qed.
Lemma lands_resume G s n back :
  fit s n → (∀ s', fit s' None → lands G (back c s')) → lands G (resume n back s).
Proof.
  intros Hf Hb. destruct n as [n|]; cbn [resume]; [by apply lands_switch|]. unfold current. rewrite asks_bind_h, (proj1 (proj1 Hf)). by apply Hb.
Qed.
Lemma lands_restore_volatile G s : fit s None → lands G (vcpu_restore_volatile_and_run c s).
Proof.
  intros Hf. destruct (fit_vcpu _ _ Hf) as [v Hv]. unfold vcpu_restore_volatile_and_run, vcpu_get_regs, the_vcpu, mbind, handler_bind, peek.
  rewrite Hv. cbn. eexists _, _. split; [done|]. left. exact (proj1 (proj1 Hf)).
Qed.
Lemma lands_restore_nonvolatile G s : fit s None → lands G (vcpu_restore_nonvolatile_and_run c s).
Proof.
  intros Hf. destruct (fit_vcpu _ _ Hf) as [v Hv]. rewrite (restore_nonvolatile_eq _ _ v) by done. cbv zeta.
  eexists _, _. split; [done|]. left. exact (proj1 (proj1 Hf)).
Qed.
Lemma leads_save_volatile G nx s : fit s nx → leads G (λ _, nx) (save_volatile_to_vcpu s).
Proof.
  intros Hf. eapply leads_intro; [exact Hf|apply good_save_volatile| |by eapply ends_save_volatile].
  intros R K. apply (keeps_save_volatile p MESSAGE_BUFFER R).
Qed.
Lemma leads_save_nonvolatile G nx s : fit s nx → leads G (λ _, nx) (save_nonvolatile s).
Proof.
  intros Hf. eapply leads_intro; [exact Hf|apply good_save_nonvolatile| |by eapply ends_save_nonvolatile].
  intros R K. apply (keeps_save_nonvolatile p MESSAGE_BUFFER R).
Qed.
Lemma leads_irq G s : fit s None → leads G Some (irq_lower now1 s).
Proof.
  intros Hf. eapply leads_intro; [exact Hf|apply (good_irq p MESSAGE_BUFFER now1 now2 now3)| |by eapply ends_irq].
  intros R K. apply (keeps_irq p MESSAGE_BUFFER now1 now2 now3 R).
Qed.
Lemma lands_lower G h s :
  fit s None → (∀ s', fit s' None → leads G Some (h s')) → lands G (lower_exception h s).
Proof.
  intros Hf Hh. unfold lower_exception. eapply lands_bind; [by apply leads_save_volatile|]. intros [] s1 _ Hf1.
  eapply lands_bind; [by apply Hh|]. intros n s2 _ Hf2. by apply lands_switch.
Qed.

(** A call that starts a vCPU, which may be running. *)
Definition may_spin (e : exception) (g : ArchRegs) : Prop :=
  match e with
  | Sync esr _ _ => (GET_EC esr = 0x16 ∨ GET_EC esr = 0x17) ∧ starts_vcpu (wrap 32 (x_reg g 0))
  | _ => False
  end.
(** The arguments of a hypercall. *)
Definition exception_fine (e : exception) (hv : Hypervisor) (g : ArchRegs) : Prop :=
  match e with
  | Sync esr _ _ => GET_EC esr = 0x16 → hvc_fine hv (x_reg g 0) (x_reg g 1) (x_reg g 2) (x_reg g 3)
  | _ => True
  end.
(** The function id a trapped [SMC] has in the saved registers. *)
Lemma saved_func s s1 g :
  fit s None → save_volatile_to_vcpu s = Done (Some tt, s1) → vcpu_get_regs c s1 = Done (Some g, s1) →
  starts_vcpu (wrap 32 (x_reg g 0)) → starts_vcpu (wrap 32 (x_reg (p_regs (st_cpu s)) 0)).
Proof.
  intros Hf H Hg. unfold save_volatile_to_vcpu, current, live in H. rewrite !asks_bind_h, (proj1 (proj1 Hf)) in H.
  destruct (fit_vcpu _ _ Hf) as [v Hv]. unfold upd_regs, the_vcpu in H. apply peek_inv in H as (v' & _ & [= <-]).
  unfold vcpu_get_regs, the_vcpu in Hg. apply peek_inv in Hg as (w & Hw%vcpu_of_at & [= <-]). cbn [st_hv] in Hw.
  apply vcpu_of_at in Hv. rewrite vcpu_at_upd_vc, decide_True, Hv in Hw by done. injection Hw as <-. unfold x_reg. cbn -[pick wrap].
  destruct (r (vi_regs (vc_inner v))) as [|x l]; [|done]. intros E. discriminate E.
Qed.
Lemma handle_lands e s :
  fit s None → Forall (in_u 64) (r (p_regs (st_cpu s))) → exception_fine e (st_hv s) (p_regs (st_cpu s)) →
  lands (may_spin e (p_regs (st_cpu s)))
    (handle MESSAGE_BUFFER el3 cpu_entry cpu_addr version rounds now1 now2 now3 undef e s).
Proof.
  intros Hf Hty Hfine. set (g := p_regs (st_cpu s)) in *.
  destruct e as [esr far hpfar| | |]; cbn [handle exception_fine] in *.
  - unfold lower_sync_exception. destruct (Z.eqb_spec (GET_EC esr) 0x16) as [He|Hne].
    + unfold live. rewrite asks_bind_h. eapply lands_bind.
      { destruct (leads_hvc s (x_reg g 0) (x_reg g 1) (x_reg g 2) (x_reg g 3) Hf) as (o & s' & H & Ho); [by apply x_reg_typed..|by apply Hfine|].
        exists o, s'. split; [exact H|]. destruct o; [exact Ho|]. split; [by left|done]. }
      intros [ret new] s1 _ Hf1. unfold on_live. rewrite on_cpu_bind_h. set (s2 := mkSt _ _ _ _). assert (Hf2 : fit s2 new).
      { destruct Hf1 as [(? & ? & ? & ?) ?]. by split. }
      destruct new as [n|]; [|exists (Some tt), s2; split; [done|]; left; apply Hf2].
      eapply lands_bind; [by apply leads_save_volatile|]. intros [] s3 _ Hf3. by apply lands_switch.
    + eapply lands_bind; [by apply leads_save_volatile|]. intros [] s1 H1 Hf1. destruct (Z.eqb_spec (GET_EC esr) 0x18) as [He|Hne2].
      * eapply lands_bind; [by apply leads_save_nonvolatile|]. intros [] s2 _ Hf2.
        eapply lands_bind; [by apply leads_sysreg|]. intros n s3 _ Hf3. apply lands_resume; [done|]. intros s4. apply lands_restore_nonvolatile.
      * eapply lands_bind; [apply leads_sync; [done|done|]|].
        { intros g' Hg' Hec Hst. split; [by right|]. by eapply (saved_func s s1 g'). }
        intros n s3 _ Hf3. apply lands_resume; [done|]. intros s4. apply lands_restore_volatile.
  - apply lands_lower; [done|]. intros s' Hf'. by apply leads_irq.
  - apply lands_lower; [done|]. intros s' Hf'. by apply leads_irq.
  - apply lands_lower; [done|]. intros s' Hf'. unfold serr_lower, current.
    eapply leads_intro; [exact Hf'|apply good_current, (good_abort p MESSAGE_BUFFER now1 now2 now3)| |].
    + intros R K. unfold serr_lower, current. apply keeps_bind; [apply _|apply keeps_asks; apply _|]. intros x.
      apply (keeps_abort p MESSAGE_BUFFER now1 now2 now3 R).
    + rewrite asks_bind_h, (proj1 (proj1 Hf')). by eapply ends_abort.
Qed.
End contained.

(** ** Every reachable state *)
Section machine.
Context (p : Aarch64.pa_bits) {RD : ReduceCrate} (MESSAGE_BUFFER : Z).
#[local] Hint Extern 0 ArchMM => exact (aarch64 p) : typeclass_instances.
Context {FS : Type} (el3 : FS → list Z → option smc_res * FS).
Context (cpu_entry : Z) (cpu_addr : nat → Z) (version : Z) (rounds : nat).
Abbreviation step := (mstep p MESSAGE_BUFFER el3 cpu_entry cpu_addr version rounds).

Lemma machine_contained (m m' : Machine.Machine FS) :
  rtc step m m' → Guarded.machine_ok m → hv_wf p (mc_hv m) → isolated p (mc_hv m) → mailboxes_ok (mc_hv m) →
  logs_ok (mc_hv m) → mailboxes_mapped p (mc_hv m) → cpus_known m →
  ∀ i cpu g now1 now2 now3 undef e,
    mc_cpus m' !! i = Some (Some cpu) → (p_current cpu).1 ≠ primary_index → guest_regs (p_regs cpu) g →
    exception_fine p (p_current cpu) e (mc_hv m') g →
    ∃ o s', handle MESSAGE_BUFFER el3 cpu_entry cpu_addr version rounds now1 now2 now3 undef e (st_of m' (set_live g cpu)) = Done (o, s') ∧
      match o with
      | Some _ => p_current (st_cpu s') = p_current cpu ∨ p_current (st_cpu s') = (primary_index, i)
      | None => may_spin e g
      end.
Proof.
  intros Hr Hm Hw Hi HO Hl Hma Hk i cpu g now1 now2 now3 undef e Hcpu Hsec Hg Hfine.
  pose proof (machine_run_ok _ _ _ _ _ _ _ _ _ Hr Hm) as Hm'.
  destruct (machine_isolated _ _ _ _ _ _ _ _ _ Hr Hw Hi) as [(Hw' & Hi' & _) _].
  destruct (machine_available _ _ _ _ _ _ _ _ _ Hr) as [Hav Hlen]. pose proof (known_kept p _ _ Hav Hlen Hk) as Hk'.
  destruct Hav as (_ & Hlog & Hmb & [_ Hma']).
  destruct (handle_lands p MESSAGE_BUFFER el3 cpu_entry cpu_addr version rounds now1 now2 now3 undef i (others i (mc_cpus m'))
    (p_current cpu) Hsec e (st_of m' (set_live g cpu))) as (o & s' & H & Ho).
  - split; [by apply machine_inv|]. split_and!; [done|done|by apply Hmb|by apply Hlog|by apply Hma'|]. apply Hk'. by eexists.
  - apply Hg.
  - exact Hfine.
  - exists o, s'. split; [exact H|exact Ho].
Qed.
End machine.
