(* ===== verification/System.v ===== *)
(** * The system from boot on

    [one_time_init] leaves a machine on which no CPU runs a VM yet, whose VMs have the
    ids of their slots and whose secondary vCPUs are off or confined to their own page
    tables.  From there on, through every exception of every VM on every CPU, the
    claims of the VMs stay isolated and the page tables that say so are those in use. *)
From S2P Require Import Prelude Addr Mode Arch ArchAarch64 Mpool Mm MmSpec PageTables MemoryManager Stage2Modes Abi.
From S2P Require Import ArchCpu Interrupts Cpu Vm Memory Memiter Cpio Fdt Manifest FdtHandler BootFlow Spci Hypervisor.
From S2P Require Import Load LoadRanges Init Api Frames Ownership Sharing Isolation LoadSpec Boot Start.
From S2P Require Import Touch Psci Handler Switch Machine Mapped Guarded Mailboxes Messages Availability Contained.

(** ** The VMs after boot *)

(** Nobody has logged, configured a mailbox or waits for one. *)
Definition vwhole (vm : Vm) : list nat * list entry * list entry * list Z * (Z * Z) := (iwhole (vm_inner vm), vpages vm).
Section booted.
Context {LG : StaleLogs}.
Definition unused (hv : Hypervisor) : Prop :=
  hv_links hv = mkLinked ∅ ∅ ∧ ∀ v w, (vwhole <$> hv_vms hv) !! v = Some w → w = (replicate 16 v, [], [], stale_log v, (0, 0)).
Definition booted (hv : Hypervisor) : Prop := ids_ok hv ∧ runnable_ok hv ∧ unused hv.

(** It depends on the roots of the tables, the vCPUs of secondary VMs and what [unused]
    mentions only. *)
Lemma booted_same hv hv' :
  vroots hv' = vroots hv → (∀ x, x.1 ≠ primary_index → vcpu_at hv' x = vcpu_at hv x) →
  vwhole <$> hv_vms hv' = vwhole <$> hv_vms hv → hv_links hv' = hv_links hv → booted hv → booted hv'.
Proof.
  intros Hr Hv Hw Hl (Hi & Hu & Hn). split_and!; [| |unfold unused; by rewrite Hl, Hw].
  - intros v vr. rewrite Hr. apply Hi.
  - intros x v Hx Hp Hrun. rewrite Hv in Hx by done. destruct (Hu x v Hx Hp Hrun) as (vr & w & ? & ? & ?).
    exists vr, w. by rewrite Hr, Hv.
Qed.
Lemma booted_vms hv hv' : hv_vms hv' = hv_vms hv → hv_links hv' = hv_links hv → booted hv → booted hv'.
Proof.
  intros Hv Hl. apply booted_same; [unfold vroots; by rewrite Hv| |by rewrite Hv|done]. intros x _. unfold vcpu_at. by rewrite Hv.
Qed.
(** A new page table with the root of the old one. *)
Lemma booted_table v t vm hv hv' :
  hv_vms hv !! v = Some vm → root t = root (ptable (vm_inner vm)) →
  hv_vms hv' = hv_vms (upd_vm v (upd_vm_inner (with_ptable t)) hv) → hv_links hv' = hv_links hv → booted hv → booted hv'.
Proof.
  intros Hvm Ht Hv Hl Hb. apply (booted_vms (upd_vm v (upd_vm_inner (with_ptable t)) hv) _ Hv Hl). revert Hb.
  apply booted_same; [..|apply (fr_vms true vwhole), frame_upd_vm; by intros|done].
  - apply vroots_upd_inner. intros j id rt. rewrite (vroots_lookup _ _ _ Hvm). by intros [= <- <-].
  - intros x _. rewrite vcpu_at_upd_vm. destruct (decide (x.1 = v)) as [<-|]; [|done]. unfold vcpu_at. by rewrite Hvm.
Qed.
Lemma booted_primary x f hv : x.1 = primary_index → booted hv → booted (upd_vc x f hv).
Proof.
  intros Hx. apply booted_same; [apply vroots_upd_vc| |apply (fr_vms true vwhole), frame_upd_vm; by intros|done]. intros y Hy. rewrite vcpu_at_upd_vc, decide_False; [done|]. by intros ->.
Qed.
(** A new VM, all of whose vCPUs are off. *)
Lemma booted_new hv hv' n t :
  let inner := mkVmInner (stale_log (length (hv_vms hv))) t Mailbox_init (replicate (Z.to_nat MAX_VMS) (length (hv_vms hv))) in
  Z.of_nat (length (hv_vms hv)) + 1 < 2 ^ 16 →
  hv_vms hv' = hv_vms hv ++ [mkVm (wrap 16 (Z.of_nat (length (hv_vms hv)) + HF_VM_ID_OFFSET)) (replicate n (VCpu_new (length (hv_vms hv)))) inner false] →
  hv_links hv' = hv_links hv → booted hv → booted hv'.
Proof.
  intros inner Hlen Hv Hlk (Hi & Hu & Hn1 & Hn2). assert (Hr : vroots hv' = vroots hv ++ [(Z.of_nat (length (hv_vms hv)) + 1, root (ptable inner))]).
  { unfold vroots. rewrite Hv, fmap_app. cbn. unfold vroot. cbn. by rewrite wrap_small by (unfold in_u; change HF_VM_ID_OFFSET with 1; lia). }
  split_and!.
  - intros v vr. rewrite Hr. intros [H|[Hge H]]%lookup_app_Some; [by apply Hi|].
    assert (length (vroots hv) = length (hv_vms hv)) by (unfold vroots; apply length_fmap).
    apply list_lookup_singleton_Some in H as [Hz <-]. cbn. lia.
  - intros x v Hx Hp Hrun. unfold vcpu_at in Hx. rewrite Hv in Hx. destruct (decide (x.1 < length (hv_vms hv)))%nat as [Hl|Hl].
    + rewrite lookup_app_l in Hx by done. destruct (Hu x v Hx Hp Hrun) as (vr & w & Hvr & Hw & Hk). exists vr, w.
      split_and!; [rewrite Hr; by apply lookup_app_l_Some| |done]. unfold vcpu_at. by rewrite Hv, lookup_app_l.
    + rewrite lookup_app_r in Hx by lia. destruct (_ - _)%nat; [|done]. cbn in Hx. by apply lookup_replicate in Hx as [-> _].
  - split; [congruence|]. intros v w. rewrite Hv, fmap_app. intros [H|[Hge H]]%lookup_app_Some; [by apply Hn2|].
    rewrite length_fmap in *. apply list_lookup_singleton_Some in H as [Hz <-]. replace v with (length (hv_vms hv)) by lia. done.
Qed.
End booted.

Section load.
Context {A : ArchMM} {RD : ReduceCrate} {LG : StaleLogs}.

Lemma new_vm_booted hv count v vms st st0 :
  booted hv → new_vm (hv_vms hv) count st0 = Done (v, vms, st) → booted (set_vms vms (set_mm st hv)).
Proof.
  intros Hb H. pose proof (new_vm_start _ _ _ _ _ _ H) as Hn. destruct v as [v|]; [|subst; by eapply booted_vms].
  destruct Hn as (-> & t & ->). eapply booted_new; [|done..]. unfold new_vm in H.
  destruct (Z.leb_spec MAX_VMS (Z.of_nat (length (hv_vms hv)))); [by injection H|]. change MAX_VMS with 16 in *. lia.
Qed.
Lemma start_secondary_booted hw hv count b e hv' :
  booted hv → hv_vms hv ≠ [] → start_secondary hw hv count b e = Done hv' → booted hv'.
Proof.
  intros Hb Hne. unfold start_secondary. intros ([[v vms] st] & Hn & H)%bind_Done_inv.
  pose proof (new_vm_booted _ _ _ _ _ _ Hb Hn) as H1. apply new_vm_start in Hn. cbv zeta in H. set (hv1 := set_vms vms (set_mm st hv)) in *.
  destruct v as [v|]; [|by injection H as <-]. destruct Hn as [-> _].
  apply bind_Done_inv in H as (vm & Hvm%vm_of_Some & H). apply bind_Done_inv in H as ([[ok t] st2] & Ht%identity_map_root & H). cbv zeta in H.
  set (n := length (hv_vms hv)) in *. set (hv2 := upd_vm n (upd_vm_inner (with_ptable t)) (set_mm st2 hv1)) in *.
  assert (H2 : booted hv2) by by eapply (booted_table n t vm hv1). destruct ok; cbn [negb] in H; [|by injection H as <-].
  apply bind_Done_inv in H as (c & Hc%vcpu_of_at & H). apply bind_Done_inv in H as (r & Hr & H). apply bind_Done_inv in H as ([b' c'] & Hc' & [= <-]).
  unfold vcpu_secondary_reset_and_start in Hr. destruct (vm_id vm =? HF_PRIMARY_VM_ID) eqn:Hid; cbn [negb] in Hr; [done|].
  unfold vcpu_lock in Hr. destruct (vc_locked c); injection Hr as <-; [done|]. cbn [unwrap_opt] in Hc'. injection Hc' as <- <-.
  set (c' := vcpu_unlock _). assert (Hvr : vroots hv2 !! n = Some (vm_id vm, root t)).
  { unfold vroots, hv2, upd_vm. cbn [hv_vms set_vms set_mm]. by rewrite list_lookup_fmap, list_lookup_alter_eq, Hvm. }
  destruct H2 as (Hi2 & Hu2 & Hn2). split_and!; [| |split; [apply Hn2|]].
  - intros v vr. rewrite vroots_upd_vc. apply Hi2.
  - intros x v. rewrite vcpu_at_upd_vc. destruct (decide (x = (n, 0%nat))) as [->|Hx].
    + rewrite Hc. intros [= <-] Hp Hrun. exists (vm_id vm, root t), c'. rewrite vroots_upd_vc, vcpu_at_upd_vc, decide_True, Hc by done.
      split_and!; [done|done|]. unfold c'. cbn [set_lock vc_inner] in *. unfold is_off in *. destruct (bool_decide _) eqn:Ho.
      * unfold vm_key. cbn [fst snd]. rewrite Hid. apply reset_key.
      * destruct (Hu2 _ _ Hc Hp) as (vr & w & Hvr' & Hw & Hk); [exact Hrun|]. cbn [fst] in Hvr'. rewrite Hvr in Hvr'. injection Hvr' as <-.
        rewrite Hc in Hw. injection Hw as <-. exact Hk.
    + intros Hv Hp Hrun. destruct (Hu2 x v Hv Hp Hrun) as (vr & w & ? & ? & ?). exists vr, w.
      by rewrite vroots_upd_vc, vcpu_at_upd_vc, decide_False.
  - assert (Hf : frame true vwhole hv2 (upd_vc (n, 0%nat) (λ _, c') hv2)) by (apply frame_upd_vm; by intros).
    rewrite (fr_vms _ _ _ _ Hf). apply Hn2.
Qed.
Lemma unmap_root `{SG : Stage} t b e st ok t' st' : unmap (SG := SG) t b e st = Done (ok, t', st') → root t' = root t.
Proof.
  unfold unmap, identity_update. intros H. unbind H; simplify_eq;
    repeat match goal with E : map_root _ _ _ _ _ _ _ = _ |- _ => apply map_root_root in E end; congruence.
Qed.
Lemma unmap_hypervisor_root lay t st ok t' st' : vm_unmap_hypervisor lay t st = Done (ok, t', st') → root t' = root t.
Proof.
  unfold vm_unmap_hypervisor. intros H. unbind H; simplify_eq;
    repeat match goal with E : unmap _ _ _ _ = _ |- _ => apply unmap_root in E end; congruence.
Qed.

Context (tr : list Z) (lay : Layout).
Lemma load_vm_booted hw hv cpio ranges mvm r hv' :
  booted hv → hv_vms hv ≠ [] → load_vm tr hw hv cpio ranges mvm = Done (r, hv') → booted hv'.
Proof.
  intros Hb Hne H. unfold load_vm, assert_then in H. destruct (utf8_ok _); [|done]. cbv zeta in H.
  apply bind_Done_inv in H as ([k|] & _ & H). 2:{ destruct (utf8_ok _); [|done]. by injection H as <- <-. }
  apply bind_Done_inv in H as (sz & _ & H). destruct (_ <? _); [by injection H as <- <-|].
  destruct (carve_out_mem_range ranges sz) as [[[b e]|] ranges']; [|by injection H as <- <-].
  apply bind_Done_inv in H as ([ok hv1] & Hc & H). apply copy_start in Hc as (_ & Hv1 & Hl1).
  assert (H1 : booted hv1) by by eapply booted_vms. destruct ok; cbn [negb] in H; [|by injection H as <- <-].
  apply bind_Done_inv in H as (pi & _ & H). apply bind_Done_inv in H as (pv & _ & H). apply bind_Done_inv in H as (vm & Hvm%vm_of_Some & H).
  apply bind_Done_inv in H as ([[ok t] st] & Hu%unmap_root & H). cbv zeta in H. set (hv2 := upd_vm pv _ _) in H.
  assert (H2 : booted hv2) by by eapply (booted_table pv t vm hv1). destruct ok; cbn [negb] in H; [|by injection H as <- <-].
  apply bind_Done_inv in H as (hv3 & H3 & [= <- <-]). eapply start_secondary_booted; [exact H2| |exact H3].
  intros E%(f_equal length). unfold hv2, upd_vm in E. cbn [hv_vms set_vms set_mm] in E. rewrite length_alter, Hv1 in E. by destruct (hv_vms hv).
Qed.
Lemma load_vms_booted hw hv cpio ranges i vms r hv' :
  booted hv → hv_vms hv ≠ [] → load_vms tr hw hv cpio ranges i vms = Done (r, hv') → booted hv'.
Proof.
  revert hv ranges i. induction vms as [|mvm vms IH]; intros hv ranges i Hb Hne H; cbn [load_vms] in H; [by injection H as <- <-|].
  cbv zeta in H. destruct (_ =? _); [by eapply IH|]. apply bind_Done_inv in H as ([r1 hv1] & H1 & H).
  pose proof (load_vm_start _ _ _ _ _ _ _ _ Hne H1) as [_ Hne1]. apply load_vm_booted in H1; [|done..].
  destruct r1 as [rs|]; [by eapply IH|by injection H as <- <-].
Qed.
Lemma load_secondary_booted hw hv m cpio bp u r u' hv' :
  booted hv → hv_vms hv ≠ [] → load_secondary tr hw hv m cpio bp u = Done (r, u', hv') → booted hv'.
Proof.
  intros Hb Hne H. unfold load_secondary, assert_then in H. destruct (_ =? _)%nat; [|done]. apply bind_Done_inv in H as (rs & _ & H).
  apply bind_Done_inv in H as ([r1 hv1] & H1 & H). apply load_vms_booted in H1; [|done..]. destruct r1; [|by injection H as <- <- <-].
  destruct (_ <=? _); [|done]. by apply bind_Done_inv in H as ([r2 u2] & _ & [= <- <- <-]).
Qed.
Lemma load_primary_booted hv cpio arg r hv' :
  booted hv → hv_vms hv = [] → load_primary tr lay hv cpio arg = Done (r, hv') → booted hv'.
Proof.
  intros Hb Hnil H. unfold load_primary in H. cbv zeta in H. apply bind_Done_inv in H as ([it|] & _ & H); [|by injection H as <- <-].
  apply bind_Done_inv in H as ([ok hv1] & Hc & H). apply copy_start in Hc as (_ & Hv1 & Hl1).
  assert (H1 : booted hv1) by by eapply booted_vms. destruct ok; cbn [negb] in H; [|by injection H as <- <-].
  apply bind_Done_inv in H as ([ird|] & _ & H); [|by injection H as <- <-]. apply bind_Done_inv in H as ([[v vms] st] & Hn & H).
  pose proof (new_vm_booted _ _ _ _ _ _ H1 Hn) as H2. apply new_vm_start in Hn. cbv zeta in H. set (hv2 := set_vms vms _) in *.
  destruct v as [v|]; [|by injection H as <- <-]. destruct Hn as [-> _]. rewrite Hv1, Hnil in H. cbn [length] in H.
  apply bind_Done_inv in H as (vm & Hvm%vm_of_Some & H). destruct (negb _); [by injection H as <- <-|].
  apply bind_Done_inv in H as ([ok hv3] & Hst & [= _ <-]). unfold start_primary in Hst. apply bind_Done_inv in Hst as (vm' & Hvm'%vm_of_Some & Hst).
  apply bind_Done_inv in Hst as ([[ok1 t1] st1] & Ht1%identity_map_root & Hst). cbv zeta in Hst. set (hv4 := upd_vm 0 _ (set_mm st1 hv2)) in *.
  assert (H4 : booted hv4) by by eapply (booted_table 0 t1 vm' hv2). destruct ok1; cbn [negb] in Hst; [|by injection Hst as <- <-].
  apply bind_Done_inv in Hst as ([[ok2 t2] st2] & Ht2%unmap_hypervisor_root & Hst). set (hv5 := upd_vm 0 _ (set_mm st2 hv4)) in *.
  assert (H5 : booted hv5).
  { eapply (booted_table 0 t2 (upd_vm_inner (with_ptable t1) vm') hv4); [|exact Ht2|done..].
    unfold hv4, upd_vm. cbn [hv_vms set_vms set_mm]. by rewrite list_lookup_alter_eq, Hvm'. }
  destruct ok2; cbn [negb] in Hst; [|by injection Hst as <- <-]. apply bind_Done_inv in Hst as (c & _ & [= _ <-]). by apply booted_primary.
Qed.

End load.

Lemma init_hypervisor_links {A : ArchMM} {RD : ReduceCrate} m mem mf bp hv mf' bp' :
  init_hypervisor m mem mf bp = Done (hv, mf', bp') → hv_links hv = mkLinked ∅ ∅.
Proof. unfold init_hypervisor. intros H. unbind H; by simplify_eq. Qed.

(** The state [one_time_init] leaves. *)
Lemma one_time_init_booted {A : ArchMM} {RD : ReduceCrate} {LG : StaleLogs} m g mf bp c' g' :
  g_inited g = false → one_time_init m BootCpu g mf bp = Done (c', g') → ∃ hv, g_hypervisor g' = Some hv ∧ booted hv.
Proof.
  intros Hg H. unfold one_time_init in H. rewrite Hg, bool_decide_false in H by tauto. cbn [orb] in H.
  apply bind_Done_inv in H as ([[hv mf1] bp1] & Hi & H). pose proof (init_hypervisor_links _ _ _ _ _ _ _ Hi) as Hlk. apply init_hypervisor_start in Hi as (Hnil & _).
  apply bind_Done_inv in H as ([u hv1] & Hv & H). apply bind_Done_inv in H as ([[[r mem] hp] st] & _ & H).
  apply bind_Done_inv in H as (u2 & _ & H). apply bind_Done_inv in H as ([hp' st'] & _ & [= <- <-]). eexists. split; [done|].
  apply (booted_vms hv1); [reflexivity..|]. unfold init_vms in Hv. apply bind_Done_inv in Hv as ([[ok hp1] st1] & _ & Hv). unfold assert_then in Hv.
  destruct ok; [|done]. cbv zeta in Hv. apply bind_Done_inv in Hv as ([r1 hv2] & Hp & Hv). apply bind_Done_inv in Hv as (ird & Hird & Hv).
  destruct r1 as [ird'|]; [|done]. set (hv0 := set_hv_ptable hp1 (set_mm st1 hv)) in *.
  assert (Hnil0 : hv_vms hv0 = []) by exact Hnil. assert (Hlk0 : hv_links hv0 = mkLinked ∅ ∅) by exact Hlk. clearbody hv0.
  assert (Hb0 : booted hv0).
  { split_and!; [intros v vr|intros x v|split; [done|intros v w]]; unfold vroots, vcpu_at; rewrite Hnil0; done. }
  pose proof (load_primary_start _ _ _ _ _ _ _ Hnil0 Hp) as (_ & Hne & _). pose proof (load_primary_booted _ _ _ _ _ _ _ Hb0 Hnil0 Hp) as Hb2.
  apply bind_Done_inv in Hv as ([[r2 u1] hv3] & Hs & Hv). apply bind_Done_inv in Hv as (u3 & _ & [= _ <-]).
  exact (load_secondary_booted _ _ _ _ _ _ _ _ _ _ Hb2 Hne Hs).
Qed.

Lemma unused_available p {LG : StaleLogs} hv :
  ids_ok hv → unused hv → mailboxes_ok hv ∧ mailboxes_mapped p hv ∧ ((∀ v, Z.of_nat (length (stale_log v)) < LOG_BUFFER_SIZE) → logs_ok hv).
Proof.
  intros Hids [Hl Hu]. assert (Hvm : ∀ v vm, hv_vms hv !! v = Some vm → vwhole vm = (replicate 16 v, [], [], stale_log v, (0, 0))).
  { intros v vm Hv. apply Hu. by rewrite list_lookup_fmap, Hv. }
  split_and!.
  - apply mailboxes_ok_empty; [|done]. intros v vm Hv. pose proof (Hids v (vroot vm) (vroots_lookup _ _ _ Hv)).
    by injection (Hvm v vm Hv) as -> -> -> _.
  - intros v pg. rewrite list_lookup_fmap. destruct (hv_vms hv !! v) as [vm|] eqn:Hv; [|done]. intros [= <-].
    pose proof (f_equal snd (Hvm v vm Hv)) as Hp. cbn [vwhole snd] in Hp. by rewrite Hp.
  - intros Hs. unfold logs_ok. rewrite Forall_fmap, Forall_lookup. intros v vm Hv. unfold compose, vlog. by injection (Hvm v vm Hv) as _ _ _ -> _.
Qed.

(** ** The whole system *)
Section system.
Context (p : Aarch64.pa_bits) {RD : ReduceCrate} {LG : StaleLogs} (MESSAGE_BUFFER : Z).
#[local] Hint Extern 0 ArchMM => exact (aarch64 p) : typeclass_instances.
#[local] Hint Extern 0 (ArchLaws _) => exact (aarch64_laws p) : typeclass_instances.
Context {FS : Type} (el3 : FS → list Z → option smc_res * FS).
Context (cpu_entry : Z) (cpu_addr : nat → Z) (version : Z) (rounds : nat).
Abbreviation step := (mstep p MESSAGE_BUFFER el3 cpu_entry cpu_addr version rounds).
Abbreviation region m := (hypervisor_region (SG := @Stage2 (aarch64 p)) (m_layout m)).

(** The machine when [one_time_init] has returned: no CPU runs a VM. *)
Definition boot_machine (hv : Hypervisor) (last : nat → nat → Z) (fw : FS) : Machine.Machine FS :=
  mkMachine hv (replicate (length (hv_cpus hv)) None) last fw.
Lemma boot_machine_ok hv last fw : booted hv → Guarded.machine_ok (boot_machine hv last fw).
Proof.
  intros (Hi & Hu & _). split; [done..| |].
  - intros i cpu [? _]%lookup_replicate. done.
  - intros i j ci cj [? _]%lookup_replicate. done.
Qed.

(** [one_time_init] returns on the boot CPU and leaves [hv], with any contents of
    memory, any device tree and any ramdisk whose memory ranges are disjoint and apart
    from the hypervisor. *)
Record boots (m : Init.Machine) (g : Global) (mf : Manifest) (bp : BootParams) (hv : Hypervisor) : Prop := {
  bt_machine : Boot.machine_ok p m;
  bt_mem : mem_ok (g_mem g);
  bt_fresh : g_inited g = false;
  bt_ranges hv' mf' bp' : init_hypervisor m (g_mem g) mf bp = Done (hv', mf', bp') →
    ranges_sane p (region m) (take (Z.to_nat (mem_ranges_count bp')) (mem_ranges bp'));
  bt_init : ∃ c' g', one_time_init m BootCpu g mf bp = Done (c', g') ∧ g_hypervisor g' = Some hv;
}.
Lemma boots_sound m g mf bp hv :
  boots m g mf bp hv →
  booted hv ∧ hv_wf p hv ∧ isolated p hv ∧ hv_pages p hv ≡ₚ heap m ∧
  ∀ x v, 0 ≤ x < vm_end p → region m x → hv_view p hv x v = None.
Proof.
  intros [Hm Hmem Hg Hsane (c' & g' & H & Hhv)].
  destruct (one_time_init_booted m g mf bp c' g' Hg H) as (hv0 & Hhv0 & Hb). rewrite Hhv in Hhv0. injection Hhv0 as <-.
  destruct (one_time_init_spec p _ _ _ _ _ _ Hm Hmem Hg Hsane H) as (_ & _ & hv0 & Hhv0 & Hw & Hiso & Hp & Hr).
  rewrite Hhv in Hhv0. injection Hhv0 as <-. split_and!; auto.
Qed.
(** What the hypervisor does not check or initialise: the CPU ids are indices of the
    message buffers, and the memory that becomes the log buffer of a VM holds the
    length of a buffer that is not full. *)
Definition boots_tidy (hv : Hypervisor) : Prop :=
  Forall (λ d, cpu_id d < MAX_CPUS) (hv_cpus hv) ∧ ∀ v, Z.of_nat (length (stale_log v)) < LOG_BUFFER_SIZE.
(** The machine that runs from there. *)
Lemma boots_runs m g mf bp hv last fw :
  boots m g mf bp hv → boots_tidy hv →
  let mc := boot_machine hv last fw in
  Guarded.machine_ok mc ∧ hv_wf p (mc_hv mc) ∧ isolated p (mc_hv mc) ∧ mailboxes_ok (mc_hv mc) ∧ logs_ok (mc_hv mc) ∧
  mailboxes_mapped p (mc_hv mc) ∧ cpus_known mc.
Proof.
  intros H [Hids Hlogs] mc. destruct (boots_sound _ _ _ _ _ H) as (Hb & Hw & Hiso & _).
  destruct (unused_available p _ (proj1 Hb) (proj2 (proj2 Hb))) as (HO & Hma & Hl). split_and!; [by apply boot_machine_ok|done..|by apply Hl|done|].
  intros i [o Hi%lookup_replicate]. destruct (lookup_lt_is_Some_2 (hv_cpus hv) i) as [d Hd]; [apply Hi|]. exists d. split; [done|].
  by apply (Forall_lookup_1 _ _ _ _ Hids Hd).
Qed.

(** C1: isolation of the whole system, from boot on.  Let [one_time_init] return on
    the boot CPU, with any contents of memory, any device tree and any ramdisk whose
    memory ranges are disjoint and apart from the hypervisor.  Then in
    every state reached from there, by any exceptions of the VMs on any CPUs with any
    register contents, any answers of the firmware, any writes of the VMs, and CPUs
    being started: every CPU that runs a VM translates with the page table of that VM
    and its traps on; no vCPU is on two CPUs; each page has at most one owner and
    at most one borrower, and exclusive access is exclusive; no page table gives
    access to the hypervisor's memory; and the page tables and the pool are made of
    the pages of the heap, each in one place. *)
Theorem system_isolation m g mf bp hv last fw mc :
  boots m g mf bp hv → rtc step (boot_machine hv last fw) mc →
  (∀ i cpu, mc_cpus mc !! i = Some (Some cpu) → translates (mc_hv mc) cpu) ∧
  (∀ i j ci cj, mc_cpus mc !! i = Some (Some ci) → mc_cpus mc !! j = Some (Some cj) → i ≠ j → p_current ci ≠ p_current cj) ∧
  (∀ x, 0 ≤ x < vm_end p → page_isolated (hv_view p (mc_hv mc) x)) ∧
  (∀ x v, 0 ≤ x < vm_end p → region m x →
     owner (hv_view p (mc_hv mc) x v) = false ∧ access (hv_view p (mc_hv mc) x v) = false) ∧
  hv_wf p (mc_hv mc) ∧ hv_pages p (mc_hv mc) ≡ₚ heap m ∧ NoDup (hv_pages p (mc_hv mc)).
Proof.
  intros H Hrun. destruct (boots_sound _ _ _ _ _ H) as (Hb & Hw & Hiso & Hp & Hr).
  pose proof (machine_run_ok _ _ _ _ _ _ _ _ _ Hrun (boot_machine_ok _ _ _ Hb)) as Hok.
  destruct (machine_isolated _ _ _ _ _ _ _ _ _ Hrun Hw Hiso) as [(Hw' & Hiso' & Hp' & Hs') _].
  assert (Hheap : hv_pages p (mc_hv mc) ≡ₚ heap m) by (rewrite <-Hp'; exact Hp).
  split_and!; [|apply Hok|done| |apply Hw'..|done|rewrite Hheap; apply heap_NoDup].
  - intros i cpu. by apply machine_ok_translates.
  - intros x v Hx Hreg. rewrite Hs' by (done || (intros w; cbn; by rewrite Hr)). cbn. by rewrite Hr.
Qed.


End system.
