(* ===== verification/MachineDemo.v ===== *)
(** * A machine that runs two VMs

    The machine of [HvDemo] with one CPU: the primary VM is on it, and the first vCPU
    of the secondary VM has been started.  The primary VM runs the secondary's vCPU,
    which is preempted; the secondary starts its second vCPU.  The theorems about
    exceptions are instantiated on these states. *)
From S2P Require Import Prelude Addr Mode Arch ArchAarch64 Mpool Mm MmSpec PageTables MemoryManager Stage2Modes Abi.
From S2P Require Import ArchCpu Interrupts Cpu Vm Memory Memiter Cpio Fdt Manifest FdtHandler BootFlow Spci Hypervisor.
From S2P Require Import Load LoadRanges Init Api Frames Ownership Sharing Isolation LoadSpec Boot Start BootDemo HvDemo.
From S2P Require Import Rollback Guarantees Touch Psci Handler Switch Machine Guarded Preempt PsciSpec Mailboxes Availability Contained System.

Module MachineDemo.
Abbreviation PA := Aarch64.PA40.
#[local] Hint Extern 0 ArchMM => exact (aarch64 PA) : typeclass_instances.
#[local] Existing Instance Demo.demo_reduce.
#[local] Existing Instance BootDemo.stale.

(** Firmware that answers every call with success. *)
Definition el3 : unit → list Z → option smc_res * unit := λ fw _, (Some (mkRes 0 0 0 0), fw).
Definition undef : smc_res := mkRes 0 0 0 0.
Abbreviation handle e s := (handle (RD := Demo.demo_reduce) 0x600000 el3 0x9000 (λ _, 0x500000) PSCI_VERSION_1_1 8 0 0 0 undef e s).

(** ** The state *)
Definition v1 : VCpu :=
  upd_inner (λ v, with_regs (λ regs, arch_regs_reset demo_hw regs true 1 0 (pa_init (root HvDemo.t1))) (with_cpu (Some 0%nat) v))
    (HvDemo.ready 0).
Definition v2 : VCpu :=
  match vcpu_secondary_reset_and_start demo_hw 2 (pa_init (root HvDemo.t2)) 0 (VCpu_new 1) (ipa_init 0x8000) 7 with
  | Done (Some (_, v)) => v
  | _ => VCpu_new 1
  end.
Definition hv : Hypervisor :=
  set_vms [mkVm 1 [v1] (HvDemo.inner 0 HvDemo.t1) false; mkVm 2 [v2; VCpu_new 1] (HvDemo.inner 1 HvDemo.t2) false] HvDemo.hv.
Definition cpu0 : Pcpu := mkPcpu (0%nat, 0%nat) (vi_regs (vc_inner v1)) 0 0 0 1000000 (λ _, 0) [].
Definition m0 : Machine.Machine unit := mkMachine hv [Some cpu0] (λ _ _, -1) tt.

(** The primary VM asks for the first vCPU of the second VM. *)
Definition HVC : exception := Sync (Z.shiftl 0x16 26) 0 0.
Definition g_run : ArchRegs :=
  with_r (HF_VCPU_RUN :: 2 :: 0 :: drop 3 (r (vi_regs (vc_inner v1)))) (vi_regs (vc_inner v1)).
Definition s_run : St unit := st_of m0 (set_live g_run cpu0).
Definition after (s : St unit) (e : exception) : St unit :=
  match handle e s with Done (Some _, s') => s' | _ => s end.
Definition s_sec : St unit := after s_run HVC.
Definition returns (s : St unit) (e : exception) : bool := match handle e s with Done (Some _, _) => true | _ => false end.
Lemma run_returns : returns s_run HVC = true.
Proof. vm_compute. reflexivity. Qed.
Lemma irq_returns : returns s_sec Irq = true.
Proof. vm_compute. reflexivity. Qed.
Lemma after_eq s e : returns s e = true → handle e s = Done (Some tt, after s e).
Proof. unfold returns, after. by destruct (handle e s) as [[[[]|] s']|]. Qed.

(** ** Running and preempting the secondary VM *)

(** The vCPU starts at its entry point. *)
Lemma run_resumes_vcpu_witness :
  ∃ s', handle HVC s_run = Done (Some tt, s') ∧ p_current (st_cpu s') = (1%nat, 0%nat) ∧ pc (p_regs (st_cpu s')) = 0x8000.
Proof.
  destruct (run_resumes_vcpu (RD := Demo.demo_reduce) 0x600000 el3 0x9000 (λ _, 0x500000) PSCI_VERSION_1_1 8 0 0 0 undef s_run 0
    (1%nat, 0%nat) v2 v1 (mkVm 2 [v2; VCpu_new 1] (HvDemo.inner 1 HvDemo.t2) false) (Z.shiftl 0x16 26) 0 0)
    as (s' & H & Hc & Hr & _); try reflexivity; try discriminate.
  exists s'. split_and!; [exact H|exact Hc|]. rewrite Hr. vm_compute. reflexivity.
Defined.

(** It is preempted and its program counter is saved. *)
Definition vcpu_default (o : option VCpu) : VCpu := default (VCpu_new 0) o.
Definition cv : VCpu := vcpu_default (vcpu_at (st_hv s_sec) (1%nat, 0%nat)).
Definition pv : VCpu := vcpu_default (vcpu_at (st_hv s_sec) (primary_index, 0%nat)).
Lemma s_sec_vcpus :
  vcpu_at (st_hv s_sec) (p_current (st_cpu s_sec)) = Some cv ∧ vcpu_at (st_hv s_sec) (primary_index, 0%nat) = Some pv.
Proof.
  unfold cv, pv, vcpu_default. split; cbn [vcpus].
  - assert (H : bool_decide (is_Some (vcpu_at (st_hv s_sec) (p_current (st_cpu s_sec)))) && bool_decide (p_current (st_cpu s_sec) = (1%nat, 0%nat)) = true)
      by (vm_compute; reflexivity).
    apply andb_prop in H as [H1%bool_decide_eq_true H2%bool_decide_eq_true]. rewrite H2 in *. by destruct H1 as [v ->].
  - assert (H : bool_decide (is_Some (vcpu_at (st_hv s_sec) (primary_index, 0%nat))) = true) by (vm_compute; reflexivity).
    apply bool_decide_eq_true in H as [v ->]. done.
Qed.
Lemma interrupt_returns_to_primary_witness :
  ∃ s', handle Irq s_sec = Done (Some tt, s') ∧ p_current (st_cpu s') = (primary_index, 0%nat) ∧ x_reg (p_regs (st_cpu s')) 0 = 0.
Proof.
  destruct s_sec_vcpus as [Hc Hp].
  destruct (interrupt_returns_to_primary (RD := Demo.demo_reduce) 0x600000 el3 0x9000 (λ _, 0x500000) PSCI_VERSION_1_1 8 0 0 0 undef s_sec 0
    cv pv 2 Hc ltac:(vm_compute; reflexivity) ltac:(vm_compute; reflexivity) ltac:(discriminate) ltac:(vm_compute; reflexivity) Hp
    ltac:(vm_compute; reflexivity) ltac:(vm_compute; reflexivity) ltac:(vm_compute; reflexivity))
    as (s' & H & _ & Hcur & Hr & _).
  exists s'. split_and!; [exact H|exact Hcur|]. rewrite Hr. vm_compute. reflexivity.
Defined.

(** ** Starting the second vCPU *)
Definition vm2 : Vm := default (HvDemo.vm 1 HvDemo.t2) (hv_vms (st_hv s_sec) !! 1%nat).
(** A vCPU that starts itself, or another one that runs, waits for ever. *)
Example psci_self_start_spins :
  psci_handler el3 0x9000 (λ _, 0x500000) PSCI_VERSION_1_1 8 0 (1%nat, 0%nat) PSCI_CPU_ON 0 0x8000 5 0 None s_sec = Done (None, s_sec).
Proof.
  rewrite (secondary_cpu_on el3 _ _ _ _ _ s_sec (1%nat, 0%nat) vm2); [|vm_compute; reflexivity|vm_compute; discriminate|reflexivity].
  cbv zeta. replace (vm_get_vcpu_count vm2 <=? wrap 16 0) with false by (vm_compute; reflexivity).
  unfold the_vcpu. rewrite (peek_run _ _ _ cv) by (vm_compute; reflexivity). rewrite asks_bind_h.
  unfold vcpu_secondary_reset_and_start, vcpu_lock. replace (vc_locked cv) with true by (vm_compute; reflexivity).
  by replace (vm_id vm2 =? HF_PRIMARY_VM_ID) with false by (vm_compute; reflexivity).
Qed.

(** ** The machine in motion *)
Lemma m0_ok : Guarded.machine_ok m0.
Proof.
  assert (Hs1 : saved_ok hv (0%nat, 0%nat)) by (exists (1, root HvDemo.t1), v1; split_and!; reflexivity).
  assert (Hs2 : saved_ok hv (1%nat, 0%nat)) by (exists (2, root HvDemo.t2), v2; split_and!; reflexivity).
  split.
  - intros [|[|v]] vr; cbn; [by intros [= <-]..|done].
  - intros [[|[|x]] i] v; cbn; try done. destruct i as [|[|i]]; cbn; [by intros [= <-]|by intros [= <-]|done].
  - intros [|i] cpu; cbn; [intros [= <-]|done]. split; [|exists (1, root HvDemo.t1); split; reflexivity].
    split; try done; cbn.
  - intros [|i] [|j] ci cj; cbn; done.
Qed.
Definition m1 : Machine.Machine unit := put_cpu m0 0 (Some tt) s_sec.
Definition m2 : Machine.Machine unit := put_cpu m1 0 (Some tt) (after s_sec Irq).
Abbreviation step := (mstep PA (RD := Demo.demo_reduce) 0x600000 el3 0x9000 (λ _, 0x500000) PSCI_VERSION_1_1 8).
Lemma guest_same g : Forall (in_u 64) (r g) → guest_regs g g.
Proof. by split. Qed.
Lemma m0_m1 : step m0 m1.
Proof.
  eapply (m_exception PA 0x600000 el3 _ _ _ _ m0 0 cpu0 g_run 0 0 0 undef HVC); [reflexivity| |exact (after_eq _ _ run_returns)].
  split; try reflexivity. unfold in_u. by_computation.
Qed.
Lemma m1_m2 : step m1 m2.
Proof.
  eapply (m_exception PA 0x600000 el3 _ _ _ _ m1 0 (st_cpu s_sec) (p_regs (st_cpu s_sec)) 0 0 0 undef Irq); [reflexivity| |].
  - apply guest_same. unfold in_u. by_computation.
  - replace (st_of m1 (set_live (p_regs (st_cpu s_sec)) (st_cpu s_sec))) with s_sec; [exact (after_eq _ _ irq_returns)|].
    unfold m1, put_cpu, st_of. cbn [mc_hv mc_cpus mc_last mc_fw]. by destruct s_sec as [? [] ? ?].
Qed.

(** The primary VM, the secondary, and the primary again. *)
Lemma translation_in_force_witness :
  (∀ i cpu, mc_cpus m1 !! i = Some (Some cpu) → translates (mc_hv m1) cpu) ∧
  (∀ i cpu, mc_cpus m2 !! i = Some (Some cpu) → translates (mc_hv m2) cpu).
Proof.
  split.
  - apply (translation_in_force PA (RD := Demo.demo_reduce) 0x600000 el3 0x9000 (λ _, 0x500000) PSCI_VERSION_1_1 8 m0 m1); [|exact m0_ok].
    eapply rtc_once, m0_m1.
  - apply (translation_in_force PA (RD := Demo.demo_reduce) 0x600000 el3 0x9000 (λ _, 0x500000) PSCI_VERSION_1_1 8 m0 m2); [|exact m0_ok].
    eapply rtc_l; [exact m0_m1|]. eapply rtc_once, m1_m2.
Defined.

(** After the preemption, the primary VM gives its first page to the secondary. *)
Lemma hv_safe : hv_wf PA hv ∧ isolated PA hv.
Proof.
  assert (Hf : frame false vtab HvDemo.hv hv) by by split.
  destruct (frame_preserved PA _ _ Hf HvDemo.hv_wf_demo HvDemo.hv_isolated_demo) as (Hw & Hi & _). by split.
Qed.
Lemma mailboxes_m0 : mailboxes_ok hv.
Proof. apply mailboxes_ok_empty; [|done]. by intros [|[|v]] vm [= <-]. Qed.
Lemma m2_hp : hv_ptable (mc_hv m2) = hv_ptable HvDemo.hv.
Proof. vm_compute. reflexivity. Qed.
Lemma machine_calls_return_demo :
  ∃ r, hv_exec PA (RD := Demo.demo_reduce) 0x600000 demo_hw 0 0 0 (mc_hv m2) (0%nat, 0%nat) (CShareMemory 2 HvDemo.base 0x1000 0)
    = Done (Some r).
Proof.
  destruct (machine_calls_return PA (RD := Demo.demo_reduce) 0x600000 el3 0x9000 (λ _, 0x500000) PSCI_VERSION_1_1 8 m0 m2)
    with (i := 0%nat) (cpu := st_cpu (after s_sec Irq)) (hw := demo_hw) (now1 := 0) (now2 := 0) (now3 := 0)
         (call := CShareMemory 2 HvDemo.base 0x1000 0) as ([r|] & H & Hn).
  - eapply rtc_l; [exact m0_m1|]. eapply rtc_once, m1_m2.
  - exact m0_ok.
  - exact (proj1 hv_safe).
  - exact (proj2 hv_safe).
  - exact mailboxes_m0.
  - unfold logs_ok. by_computation.
  - intros [|[|v]] pg; [by intros [= <-]..|done].
  - intros [|i]; [|by intros [? ?]]. intros _. by eexists.
  - vm_compute. reflexivity.
  - by split.
  - cbn [call_fine]. rewrite m2_hp. split_and!; [done|by split|done|exact demo_clear].
  - exists r. replace (0%nat, 0%nat) with (p_current (st_cpu (after s_sec Irq))) by (vm_compute; reflexivity). exact H.
  - destruct (Hn eq_refl) as [E _]. discriminate E.
Qed.

(** ** The booted machine *)

(** The boot CPU of [BootDemo] starts to run the primary VM. *)
Definition boot_cpu : Pcpu := mkPcpu (0%nat, 0%nat) regs_default 0 0 0 1000000 (λ _, 0) [].
Definition boot_hv (r : exec (cpu_ptr * Global)) : option Hypervisor :=
  match r with Done (_, g) => g_hypervisor g | Panic => None end.
Definition cpu_starts (hv : Hypervisor) : bool :=
  match start_cpu 0 (st_of (boot_machine hv (λ _ _, -1) tt) boot_cpu) with
  | Done (Some _, _) => bool_decide (is_on <$> hv_cpus hv !! 0%nat = Some true)
  | _ => false
  end.
Lemma cpu_starts_inv hv :
  cpu_starts hv = true →
  ∃ s' d, start_cpu 0 (st_of (boot_machine hv (λ _ _, -1) tt) boot_cpu) = Done (Some tt, s') ∧
    hv_cpus hv !! 0%nat = Some d ∧ is_on d = true.
Proof.
  unfold cpu_starts. destruct (start_cpu 0 _) as [[[[]|] s']|]; try done. intros H%bool_decide_eq_true. exists s'.
  destruct (hv_cpus hv !! 0%nat) as [d|]; [|done]. injection H as H. by exists d.
Qed.
Lemma boot_cpu_starts :
  match boot_hv (one_time_init BootDemo.machine BootCpu BootDemo.global (mkManifest []) BootDemo.params0) with
  | Some hv => cpu_starts hv
  | None => false
  end = true.
Proof. vm_compute. reflexivity. Qed.
(** The machine after that. *)
Abbreviation booted_of := (one_time_init BootDemo.machine BootCpu BootDemo.global (mkManifest []) BootDemo.params0).
Abbreviation start_of hv := (boot_machine hv (λ _ _, -1) tt).
Lemma demo_boots g hv :
  booted_of = Done (Managed 0, g) → g_hypervisor g = Some hv →
  boots PA BootDemo.machine BootDemo.global (mkManifest []) BootDemo.params0 hv.
Proof.
  intros H Hg. split; [exact BootDemo.machine_fine|exact BootDemo.boot_mem_bytes|reflexivity|exact BootDemo.machine_sane|].
  exact (ex_intro _ (Managed 0) (ex_intro _ g (conj H Hg))).
Qed.
Lemma cpu_starts_steps hv :
  cpu_starts hv = true →
  ∃ s', start_cpu 0 (st_of (start_of hv) boot_cpu) = Done (Some tt, s') ∧
    mc_cpus (put_cpu (start_of hv) 0 (Some tt) s') !! 0%nat = Some (Some (st_cpu s')) ∧
    rtc step (start_of hv) (put_cpu (start_of hv) 0 (Some tt) s').
Proof.
  intros Hst. destruct (cpu_starts_inv _ Hst) as (s' & d & Hs & Hd & Hon).
  assert (Hc : mc_cpus (start_of hv) !! 0%nat = Some None).
  { apply lookup_replicate. split; [reflexivity|]. exact (lookup_lt_Some _ _ _ Hd). }
  exists s'. split; [exact Hs|split].
  - cbn [put_cpu mc_cpus]. rewrite list_lookup_insert_eq by exact (lookup_lt_Some _ _ _ Hc). reflexivity.
  - exact (rtc_once _ _ (m_start PA _ _ _ _ _ _ _ 0 d boot_cpu (Some tt) s' Hc Hd Hon Hs)).
Qed.
Lemma boot_runs :
  ∃ hv mc cpu, boots PA BootDemo.machine BootDemo.global (mkManifest []) BootDemo.params0 hv ∧ boot_hv booted_of = Some hv ∧
    mc_cpus mc !! 0%nat = Some (Some cpu) ∧ rtc step (start_of hv) mc.
Proof.
  pose proof boot_cpu_starts as Hst. destruct (BootDemo.boots_inv _ BootDemo.machine_boots) as (g & hv & H & Hg & _).
  pose proof (demo_boots _ _ H Hg) as Hb. rewrite H in Hst |- *. cbn [boot_hv] in Hst |- *. rewrite Hg in Hst |- *.
  destruct (cpu_starts_steps _ Hst) as (s' & _ & Hc & Hrun). 
  exists hv, (put_cpu (start_of hv) 0 (Some tt) s'), (st_cpu s'). exact (conj Hb (conj eq_refl (conj Hc Hrun))).
Qed.
Lemma system_isolation_witness :
  ∃ hv cpu mc, mc_cpus mc !! 0%nat = Some (Some cpu) ∧ translates (mc_hv mc) cpu ∧ hv_wf PA (mc_hv mc) ∧
    rtc step (start_of hv) mc.
Proof.
  destruct boot_runs as (hv & mc & cpu & Hb & _ & Hm & Hrun).
  destruct (system_isolation PA (RD := Demo.demo_reduce) 0x600000 el3 0x9000 (λ _, 0x500000) PSCI_VERSION_1_1 8 BootDemo.machine BootDemo.global
    (mkManifest []) BootDemo.params0 hv (λ _ _, -1) tt mc Hb Hrun) as (Ht & _ & _ & _ & Hw & _).
  exists hv, cpu, mc. exact (conj Hm (conj (Ht 0%nat cpu Hm) (conj Hw Hrun))).
Defined.

(** The booted primary VM logs a character. *)
Definition ids_known (hv : Hypervisor) : bool := bool_decide (Forall (λ d, cpu_id d < MAX_CPUS) (hv_cpus hv)).
Lemma boot_tidy hv : boot_hv booted_of = Some hv → boots_tidy hv.
Proof.
  intros H. split; [|intros v; reflexivity]. cut (ids_known hv = true); [exact (bool_decide_eq_true_1 _)|].
  change (match Some hv with Some hv => ids_known hv | None => false end = true). rewrite <-H. clear H. vm_compute. reflexivity.
Qed.

(** The booted primary VM runs the secondary, which traps with [HF_INTERRUPT_GET]. *)
Definition asks_run (g : ArchRegs) : ArchRegs := with_r (HF_VCPU_RUN :: 2 :: 0 :: drop 3 (r g)) g.
Definition asks_interrupt (g : ArchRegs) : ArchRegs := with_r (HF_INTERRUPT_GET :: drop 1 (r g)) g.
Definition asked (s : St unit) (mc : Machine.Machine unit) : St unit := st_of mc (set_live (asks_run (p_regs (st_cpu s))) (st_cpu s)).
Definition typed_regs (g g' : ArchRegs) : bool :=
  bool_decide (Forall (λ x, 0 ≤ x < 2 ^ 64) (r g')) && (length (r g') =? length (r g))%nat.
Definition secondary_runs (hv : Hypervisor) : bool :=
  match start_cpu 0 (st_of (start_of hv) boot_cpu) with
  | Done (Some _, s) =>
    typed_regs (p_regs (st_cpu s)) (asks_run (p_regs (st_cpu s))) &&
    match handle HVC (asked s (put_cpu (start_of hv) 0 (Some tt) s)) with
    | Done (Some _, s') => bool_decide (p_current (st_cpu s') = (1%nat, 0%nat)) && typed_regs (p_regs (st_cpu s')) (asks_interrupt (p_regs (st_cpu s')))
    | _ => false
    end
  | _ => false
  end.
Lemma typed_guest g f : typed_regs g (with_r f g) = true → guest_regs g (with_r f g).
Proof. intros [H%bool_decide_eq_true Hl%Nat.eqb_eq]%andb_true_iff. split; [exact H|exact Hl|reflexivity..]. Qed.
Lemma boot_secondary_runs hv : boot_hv booted_of = Some hv → cpu_starts hv = true ∧ secondary_runs hv = true.
Proof.
  intros H. apply andb_true_iff. change (match Some hv with Some hv => cpu_starts hv && secondary_runs hv | None => false end = true).
  rewrite <-H. clear H. vm_compute. reflexivity.
Qed.
Lemma secondary_running :
  ∃ hv mc cpu, boots PA BootDemo.machine BootDemo.global (mkManifest []) BootDemo.params0 hv ∧ boot_hv booted_of = Some hv ∧
    rtc step (start_of hv) mc ∧ mc_cpus mc !! 0%nat = Some (Some cpu) ∧ p_current cpu = (1%nat, 0%nat) ∧
    guest_regs (p_regs cpu) (asks_interrupt (p_regs cpu)).
Proof.
  destruct (BootDemo.boots_inv _ BootDemo.machine_boots) as (g & hv & H & Hg & _). exists hv.
  assert (Hhv : boot_hv booted_of = Some hv) by (rewrite H; exact Hg). destruct (boot_secondary_runs hv Hhv) as [Hst Hsec].
  destruct (cpu_starts_steps _ Hst) as (s1 & Hs & Hc & Hrun). set (m1 := put_cpu _ _ _ s1) in Hc, Hrun.
  unfold secondary_runs in Hsec. rewrite Hs in Hsec. fold m1 in Hsec. apply andb_true_iff in Hsec as [Hg1 Hsec].
  destruct (handle HVC _) as [[[[]|] s2]|] eqn:Hh; [|discriminate Hsec..]. apply andb_true_iff in Hsec as [Hcur%bool_decide_eq_true Hg2].
  exists (put_cpu m1 0 (Some tt) s2), (st_cpu s2). split; [exact (demo_boots _ _ H Hg)|]. split; [exact Hhv|].
  split; [|split; [|split; [exact Hcur|exact (typed_guest _ _ Hg2)]]].
  - eapply rtc_r; [exact Hrun|]. eapply (m_exception PA); [exact Hc|exact (typed_guest _ _ Hg1)|exact Hh].
  - cbn [put_cpu mc_cpus]. rewrite list_lookup_insert_eq by exact (lookup_lt_Some _ _ _ Hc). reflexivity.
Qed.
End MachineDemo.
